(* ===== verification/_CoqProject ===== *)
-Q . S2P
Prelude.v
Domain.v
GoStrings.v
StatusCodes.v
Checker.v
Alerting.v
Store.v
StoreInv.v
Crypto.v
AlertingService.v
CheckState.v
Scheduler.v
Entitlements.v
Worker.v
Authz.v
Members.v
MembersInv.v
Notify.v
Refresh.v
Billing.v
BillingInv.v
MonitorApi.v
MonitorApiInv.v
CheckNowLimit.v
StatusPages.v
StatusPagesInv.v
Auth.v
AuthInv.v
Accounts.v
AccountsInv.v
Login.v
LoginInv.v
Channels.v
ChannelsInv.v
Render.v
Providers.v
ProvidersInv.v
Webhooks.v
WebhooksInv.v
Reads.v
ReadsInv.v
Config.v
Processes.v
ProcessesInv.v
Bus.v
BusInv.v
BusSim.v
Tokens.v
TokensInv.v
Router.v
RouterInv.v
Views.v
ViewsInv.v
DevApi.v
DevApiInv.v
Tools.v
