(* ===== verification/Prelude.v ===== *)
(** * Pulse Pager: a verification library for the monitoring pipeline and its accounts

    Pulse Pager watches URLs and TLS certificates.  A scheduler finds the enabled
    monitors that are due and puts one job per region on the bus; a worker runs the
    check and puts the result on the bus; the alerting service stores the result, runs
    the alerting state machine, opens and closes incidents and puts notifications on
    the bus; the notifier sends them once to channels and webhooks.  Around the pipeline
    are the api and the accounts: organizations with members, roles, invitations, seats
    and plans; sign-in, sessions, API keys; billing webhooks; public status pages.  This
    library models that core as executable functions and proves what makes it correct.

    ** Files, and the code each models (paths under src/internal)

    The pipeline:
    - [Prelude]: tactics, hint databases, results, time and 64-bit wrap, tables, keys.
    - [Domain]: domain/domain.go, domain/status.go, region/region.go.  Monitors,
      results, incidents, alert state, webhooks, roles; derived statuses and banner.
    - [GoStrings]: what the code uses of Go's strings and strconv.
    - [StatusCodes]: checker/statuscodes.go, the expected-status grammar.
    - [Checker]: checker/checker.go, ssl.go, ssrf.go.  A check is a function of a
      [World] (name resolution, dialling, replies, clock, certificate verification)
      that returns the result and the network events it caused, in order.
    - [Alerting]: alerting/alerting.go, the pure engine, with its specification by
      the history of checks.
    - [Store]: store/monitors.go, incidents.go, store.go.  Tables as finite maps, a
      transaction monad with rollback; sequences survive a rollback.  [StoreInv]: the
      integrity invariant, its preservation by every transaction, and round trips.
    - [AlertingService]: alerting/service.go, over the interface [AlertStore]; [Store]
      is one instance; another is a store whose operations fail on a schedule, before they
      run or with the answer lost after they ran.
    - [CheckState]: checkstate/checkstate.go, over the interface [HashStore].
    - [Scheduler]: scheduler/scheduler.go; a run is a list of ticks, each with the
      monitors its query returned or an error.
    - [Entitlements]: entitlements/entitlements.go.
    - [Worker]: worker/worker.go, over [ResultWriter], [HashStore] and [Resolver].
    - [Notify]: notify/service.go, notify.go, webhookdeliver.go, and the dedup and
      delivery rows of store/channels.go.

    The api and the accounts:
    - [Authz]: authz/authz.go.
    - [Members]: store/memberships.go, invitations.go and api/members.go, with the
      last-owner trigger of store/schema.sql.  [MembersInv]: what they preserve.
    - [Refresh]: store/refreshtokens.go and authn/refresh.go.
    - [Billing]: store/subscriptions.go, payments.go, billing_events.go, plan_prices.go,
      the adapters of billing/ and the handlers of api/billing_*.go and api/admin.go.
      [BillingInv]: states up to surrogate ids and last-write clocks, and what the
      webhook, the adapters and the handlers guarantee.
    - [MonitorApi]: api/monitors.go and the cache operations of kv/kv.go it uses.
      [MonitorApiInv]: what an accepted and a stored monitor satisfy.  [CheckNowLimit]:
      runs of manual checks of any organizations against one Redis.
    - [StatusPages]: store/statuspages.go and api/statuspages.go, with the row-level
      policies of the public read.  [StatusPagesInv]: non-interference of that read.
    - [Auth]: authn/apikey.go, authn/middleware.go, store/apikeys.go, api/apikeys.go.
      [AuthInv]: read-through caches under any interleaving, and what follows for keys
      and roles.
    - [Accounts]: store/users.go, store/organizations.go and the account handlers of
      api/api.go.  [AccountsInv]: what every transaction of it and of [Members] keeps.
    - [Login]: authn/login.go, authn/magiclink.go, maglink/maglink.go, api/maglink.go,
      api/devlogin.go and the sign-in handlers of api/router.go.  [LoginInv]: what a
      sign-in guarantees.
    - [Channels]: notify/registry.go, descriptor.go, catalog.go, store/channels.go and
      api/channels.go.  [ChannelsInv]: secrets at rest and in answers, valid configs.
    - [Reads]: api/incidents.go, regionstates.go, entitlements.go and the lists of
      api/monitors.go.  [ReadsInv]: pages, and the usage screen against the gates.
    - [Views]: the lists and the preview of api/members.go, the publishers of
      api/build.go, the dispatch of notify/emailintent.go, store/platform*.go,
      api/admin.go and the sign-out of api/api.go.  [ViewsInv]: what they show.
    - [Router]: the routes of api/router.go with their guards, the public description,
      and the labels of api/build.go.  [RouterInv]: which handlers run for whom.
    - [DevApi]: devapi/, the development server.  [DevApiInv]: where it stands in for
      the api and where it does not.

    Delivery, transport and processes:
    - [Render]: notify/render.go, emailtemplates.go, emailenrich.go, httpstatus/.
    - [Providers]: the ten channel types of notify/, smtp.go, mailer.go, the senders of
      emailintent.go.  [ProvidersInv]: what reaches on-call services and mail servers.
    - [Webhooks]: store/webhooks.go, api/webhooks.go, notify/webhookdeliver.go.
      [WebhooksInv]: signatures and retries.
    - [Bus]: bus/redis.go, bus/kafka.go and the loop of a runner, over the interfaces
      [StreamGroup] and [KafkaClient].  [BusInv]: what the streams deliver while others
      add to them, from the laws [StreamLaws] (the cap trims the oldest entries), and how
      far a Kafka poll gets.  [BusSim]: a server that meets the laws.
    - [Crypto]: crypto/crypto.go, authn/token.go, base64.
    - [Tokens]: authn/jwt.go, cfaccess.go, google.go, github.go, cookies.go.
      [TokensInv]: tokens, key sets, the operator's identity, from [JWTLaws].
    - [Config]: config/config.go.  [Processes]: runtime/runtime.go, obs/health.go, Build
      of api/build.go and the mains of cmd/.  [ProcessesInv]: what a process that boots
      can rely on.
    - [Tools]: store/schema.go with its commands, obs/log.go, bus/trace.go and
      cmd/paddle-catalog.

    How they meet: [Bus] carries what [Scheduler], [Worker], [AlertingService], [Notify]
    and [Views] publish ([Worker.pipeline_round_is_one_step], [BusInv]); [Router] puts
    [Auth] and [Tokens] before the handlers; [Processes] gives the services their key,
    their topics and their order of shutdown; [Login] ends in [Accounts], [Refresh] and
    [Tokens]; [Channels] feeds [Providers] through [Notify].

    Definitions keep the source's names; a Go function that was split has its parts
    as separate definitions with lower-case names.  Record fields carry a prefix.

    ** What the theorems show

    - Alerting (C1, C3): the engine refines a specification by the trailing run of
      failures; one open incident per monitor.
    - Handling and delivery (C2, C6, C8, C9, C14, C23): handling a new result is one engine
      step on the database, and a handled one is silent for ever; over Redis the oldest
      result is handled as if nothing had failed when operations failed before they ran,
      and at most without its notification when an answer was lost; an entry waits until it
      is handled or 10,000 newer ones push it out; a consumer catches up, but a result that
      always fails stops its consumer until it is trimmed.
    - The pipeline (C7, C22, C39): scheduler, worker and alerting composed are one engine
      step on what crosses the bus; rounds are an interval apart; no check connects to a
      blocked address.
    - Notifications (C26, C32 - C34): an alert is sent at most once per dedup id; the alert
      of an incident at PagerDuty and Opsgenie, given by their documented API
      ([OnCallService]), follows its last delivered event; mail and passwords cross
      encrypted where the server can; a receiver accepts every signature.
    - Secrets and disclosure (C4, C5, C13, C24): the public page depends on nothing but
      what [public_page], [public_entry] and [public_monitor] call public; the channel list
      shows nothing of the secrets; api and notifier share the key, and the scheduler,
      which has none, sends ciphertext.
    - Requests and sessions (C10, C12, C15 - C20, C40): a handler runs only behind its
      guard, by the path of the request and with rights at most five minutes and the delay
      of a cache write old; magic links work once; tokens verify until their expiry; a
      revoked API key and a withdrawn signing key die in bounded time; operators are
      verified; the requests of a refreshed session carry no address; a callback takes over
      no identity; at most one live refresh token per chain, with rotations one at a time.
    - Accounts and teams (C21, C25, C29 - C31, C35): every transaction keeps the tables
      sound, and an active org keeps an owner, with transactions one at a time; the link of
      an invitation mail lets its reader in; the preview of an invitation agrees with
      accepting it; an expired one keeps its seat until it is swept; creating an org ends
      within five attempts.
    - Billing (C11, C27): a webhook takes effect once, while no other event comes between
      its failed deliveries, and only when verified.
    - Monitors and reads (C28, C36 - C38): what the api accepts is well formed; a reader of
      the pages ends and saw every incident once; the usage screen agrees with the gates;
      manual checks are bounded over time.
    - Unnumbered theorems carry the rest, among them: faults and redelivery over any
      store, the live rollup, the status grammar's round trip, caps over time, what a
      checkout grants, what a scan dispatches, valid channels, routing in any order of
      registration, the operator's counts, shutdown, key sets, which topics nobody reads,
      the trace across the bus, migrations, and the development server's races and limits.

    Examples record what holds only when transactions are serial:
    [MembersInv.last_owner_trigger_race], [MembersInv.seat_check_race],
    [Refresh.concurrent_rotations_fork_the_chain],
    [AccountsInv.concurrent_unlinks_leave_none].

    ** Conventions and bounds

    - Times are nanoseconds in [Z] and are not rounded to Postgres's microseconds;
      durations and counters the code keeps in an int are wrapped to 64 bits where
      overflow can matter ([wrap64]).  Two float64 computations (days left, outage
      seconds) are exact integer ones here; their comments give the range.  Uptime
      percentages are exact rationals.
    - A transaction runs alone, and errors roll back its rows; handlers that use several
      transactions may interleave between them, and theorems say when they do.  Row-level
      security is the org comparison each statement carries.  Each component's state holds
      the tables it uses, with the foreign keys among them.  The queries of the operator's
      counts run without a transaction and read the tables each at its own time.
    - Fuel: [Checker.Do] has ten requests, the limit of Go's http client;
      [Notify.send_loop] and [Notify.deliver_loop] get as many steps as the code allows
      attempts; [AlertingService.deliver] is the number of deliveries, and its theorem
      proves that more deliveries than faults are enough; [Accounts.CreateOrgWithOwner]
      gets six turns for five attempts, proved enough; [Bus.reclaim] has the number of
      pages it may claim, running out is an error of its own ([PollStuck]), and the
      theorems hold for any fuel or say how much is enough; [Bus.run_redis] is the number
      of polls; [Tools.fetch_pages] is the number of requests, and its theorem says how
      many are enough; [Tokens.le_bytes] gets a step per byte of the modulus; the pages of
      [ReadsInv] are followed with one request per hundred items and one more, running out
      is [None], and the theorem proves that they are enough.  All else is structural
      recursion.
    - Parameters: the hash of tokens, HMAC and the cipher (with decrypt after encrypt as
      its law), JSON encoding (decode after encode), Redis (by the laws of [HashStoreLaws]
      and [DedupCacheLaws], or as a map of keys with expiry), Postgres's lower, Go's
      ToLower and EqualFold, the transport, URL parsing, certificate verification, the
      payment provider's SDK, the identity providers' HTTP answers, the JWT library
      ([JWTLaws]) and RSA, AES-GCM, the stream server and the Kafka client, the on-call
      services, the SMTP and HTTP peers, HTML templates, RFC 3339, clocks, random draws.

    ** Not modelled

    Generated types (apigen/), api/unimplemented.go and the web front end; metrics, spans
    and exporters (obs/): output without a decision; the mail previews of
    cmd/emailpreview; the decoding of requests and the panic handler around the routes;
    opening connections, timeouts and cancellation of contexts; the choice of the
    notifier's mailer in its main; HTML templates. *)

From Stdlib Require Export Ascii String.
From stdpp Require Export base tactics list gmap strings pretty numbers relations sorting.
From Stdlib Require Export ZArith Lia.

#[global] Set Default Proof Using "Type".

(** ** Proof automation of the library *)

Create HintDb pulse discriminated.
Create HintDb pulse_bounds discriminated.

(** Case analysis on every [match]/[if] scrutinee of the goal, innermost first,
    closing the branches that [done] closes. *)
Ltac split_code :=
  repeat (case_match; simplify_eq/=; try done).

(** Turn boolean tests of the code into the propositions they decide. *)
Ltac reflect_tests :=
  repeat match goal with
  | H : bool_decide _ = true |- _ => apply bool_decide_eq_true in H
  | H : bool_decide _ = false |- _ => apply bool_decide_eq_false in H
  | H : (_ && _)%bool = true |- _ => apply andb_true_iff in H as [? ?]
  | H : (_ && _)%bool = false |- _ => apply andb_false_iff in H
  | H : (_ || _)%bool = true |- _ => apply orb_true_iff in H
  | H : (_ || _)%bool = false |- _ => apply orb_false_iff in H as [? ?]
  | H : negb _ = true |- _ => apply negb_true_iff in H
  | H : negb _ = false |- _ => apply negb_false_iff in H
  | H : (_ <? _)%Z = true |- _ => apply Z.ltb_lt in H
  | H : (_ <? _)%Z = false |- _ => apply Z.ltb_ge in H
  | H : (_ <=? _)%Z = true |- _ => apply Z.leb_le in H
  | H : (_ <=? _)%Z = false |- _ => apply Z.leb_gt in H
  | H : (_ =? _)%Z = true |- _ => apply Z.eqb_eq in H
  | H : (_ =? _)%Z = false |- _ => apply Z.eqb_neq in H
  end.

Ltac code_cases := repeat (case_match; simplify_eq/=); reflect_tests.

(** ** Results: a value or an error, Go's [(T, error)] pair *)

Inductive result (E A : Type) : Type :=
  | Ok (a : A)
  | Err (e : E).
Arguments Ok {E A} _.
Arguments Err {E A} _.

#[export] Instance result_ret E : MRet (result E) := fun _ x => Ok x.
#[export] Instance result_bind E : MBind (result E) := fun _ _ f m =>
  match m with Ok a => f a | Err e => Err e end.
#[export] Instance result_fmap E : FMap (result E) := fun _ _ f m =>
  match m with Ok a => Ok (f a) | Err e => Err e end.

Definition is_ok {E A} (r : result E A) : bool :=
  match r with Ok _ => true | Err _ => false end.

Lemma result_bind_ok {E A B} (m : result E A) (f : A -> result E B) b :
  m ≫= f = Ok b <-> exists a, m = Ok a /\ f a = Ok b.
Proof. destruct m; simpl; naive_solver. Qed.

Lemma result_bind_err {E A B} (m : result E A) (f : A -> result E B) e :
  m ≫= f = Err e <-> m = Err e \/ exists a, m = Ok a /\ f a = Err e.
Proof. destruct m; simpl; naive_solver. Qed.

(** ** Time and machine integers

    A [time.Time] is its instant in nanoseconds since the Unix epoch and a
    [time.Duration] is an int64 of nanoseconds; both are [Z], and an operation
    the source does at 64 bits is followed by [wrap64]. *)

Abbreviation Time := Z (only parsing).
Abbreviation Duration := Z (only parsing).

Definition Second : Z := 1000000000.
(** Go's zero [time.Time], 0001-01-01 UTC. *)
Definition zeroTime : Time := (-62135596800 * Second)%Z.
Definition Minute : Z := 60 * Second.
Definition Hour : Z := 60 * Minute.
Definition Day : Z := 24 * Hour.

Definition wrap64 (z : Z) : Z := (z + 2 ^ 63) mod 2 ^ 64 - 2 ^ 63.

Lemma wrap64_id z : (- 2 ^ 63 <= z < 2 ^ 63)%Z -> wrap64 z = z.
Proof. intros. unfold wrap64. rewrite Z.mod_small; lia. Qed.

Lemma wrap64_bounds z : (- 2 ^ 63 <= wrap64 z < 2 ^ 63)%Z.
Proof.
  unfold wrap64. pose proof (Z.mod_pos_bound (z + 2 ^ 63) (2 ^ 64) ltac:(lia)). lia.
Qed.
#[export] Hint Resolve wrap64_bounds : pulse_bounds.

(** ** Tables

    A table is a finite map from the primary key to the row.  [rows_where] is
    the selection of a [WHERE] clause, [find_row] a query that returns one row
    (the source uses it on clauses that at most one row satisfies),
    [update_where] an [UPDATE ... WHERE]. *)

Section tables.
Context {K V : Type} `{Countable K}.
Implicit Types (m : gmap K V) (P : V -> bool).

Definition rows_where P m : list (K * V) :=
  filter (fun kv => P kv.2 = true) (map_to_list m).

Definition find_row P m : option (K * V) := head (rows_where P m).

Definition update_where P (f : V -> V) m : gmap K V :=
  (fun v => if P v then f v else v) <$> m.

Definition rows_affected P m : Z := Z.of_nat (length (rows_where P m)).

Lemma rows_where_elem P m k v :
  (k, v) ∈ rows_where P m <-> m !! k = Some v /\ P v = true.
Proof.
  unfold rows_where. rewrite list_elem_of_filter, elem_of_map_to_list. naive_solver.
Qed.

Lemma find_row_Some P m k v :
  find_row P m = Some (k, v) -> m !! k = Some v /\ P v = true.
Proof.
  unfold find_row. intros Hh. apply rows_where_elem.
  destruct (rows_where P m) as [|x l]; simplify_eq/=. set_solver.
Qed.

Lemma find_row_None P m :
  find_row P m = None <-> forall k v, m !! k = Some v -> P v = false.
Proof.
  unfold find_row. split.
  - intros Hh k v Hk. destruct (P v) eqn:E; [|done].
    assert ((k, v) ∈ rows_where P m) as Hin by (by apply rows_where_elem).
    destruct (rows_where P m); [set_solver|done].
  - intros Hno. destruct (rows_where P m) as [|[k v] l] eqn:E; [done|].
    assert ((k, v) ∈ rows_where P m) as Hin by (rewrite E; set_solver).
    apply rows_where_elem in Hin as [Hk Hp]. by rewrite (Hno _ _ Hk) in Hp.
Qed.

Lemma find_row_unique P m k v :
  m !! k = Some v -> P v = true ->
  (forall k' v', m !! k' = Some v' -> P v' = true -> k' = k) ->
  find_row P m = Some (k, v).
Proof.
  intros Hk Hp Hu. destruct (find_row P m) as [[k' v']|] eqn:E.
  - apply find_row_Some in E as [Hk' Hp']. pose proof (Hu _ _ Hk' Hp'). by simplify_eq.
  - rewrite find_row_None in E. by rewrite (E _ _ Hk) in Hp.
Qed.

Lemma find_row_is_Some P m :
  is_Some (find_row P m) <-> exists k v, m !! k = Some v /\ P v = true.
Proof.
  split.
  - intros [[k v] Hf]. apply find_row_Some in Hf. eauto.
  - intros (k & v & Hk & Hp). apply not_eq_None_Some. rewrite find_row_None.
    intros Hno. by rewrite (Hno _ _ Hk) in Hp.
Qed.

Lemma lookup_update_where P f m k :
  update_where P f m !! k = (fun v => if P v then f v else v) <$> m !! k.
Proof. apply lookup_fmap. Qed.

Lemma rows_affected_nonneg P m : (0 <= rows_affected P m)%Z.
Proof. unfold rows_affected. lia. Qed.

(** Counting through inserts and deletes. *)
Lemma rows_affected_insert_new P m k v :
  m !! k = None -> rows_affected P (<[k := v]> m) = ((if P v then 1 else 0) + rows_affected P m)%Z.
Proof.
  intros Hk. unfold rows_affected, rows_where. rewrite (map_to_list_insert _ _ _ Hk), filter_cons. simpl.
  destruct (P v); simpl; lia.
Qed.

Lemma rows_affected_delete P m k v :
  m !! k = Some v -> rows_affected P m = ((if P v then 1 else 0) + rows_affected P (delete k m))%Z.
Proof.
  intros Hk. rewrite <- (insert_delete_id m k v Hk) at 1. apply rows_affected_insert_new, lookup_delete_eq.
Qed.

Lemma rows_affected_replace P m k v v' :
  m !! k = Some v ->
  (rows_affected P (<[k := v']> m) = rows_affected P m - (if P v then 1 else 0) + (if P v' then 1 else 0))%Z.
Proof.
  intros Hk. rewrite (rows_affected_delete P m k v Hk), <- insert_delete_eq.
  rewrite (rows_affected_insert_new P (delete k m) k v' (lookup_delete_eq m k)). lia.
Qed.

Lemma rows_affected_pos P m : (0 < rows_affected P m)%Z <-> exists k v, m !! k = Some v /\ P v = true.
Proof.
  rewrite <- find_row_is_Some. unfold rows_affected, find_row.
  destruct (rows_where P m); simpl; split; intros H0; try lia; try by destruct H0.
Qed.
End tables.

(** ** Sorted and rewritten selections *)

Lemma NoDup_filter_fst {V} (P : Z * V -> Prop) `{!forall x, Decision (P x)} (l : list (Z * V)) :
  NoDup (l.*1) -> NoDup ((filter P l).*1).
Proof.
  induction l as [|x l IH]; [done|]. rewrite fmap_cons, NoDup_cons, filter_cons. intros [Hx Hn].
  case_decide; [|by apply IH]. rewrite fmap_cons. apply NoDup_cons. split; [|by apply IH].
  intros (y & Hxy & [_ Hy]%list_elem_of_filter)%list_elem_of_fmap. apply Hx, list_elem_of_fmap. by exists y.
Qed.

Lemma map_to_list_filter_perm {V} (P : Z * V -> Prop) `{!forall x, Decision (P x)} (m : gmap Z V) :
  map_to_list (filter P m) ≡ₚ filter P (map_to_list m).
Proof. rewrite map_filter_alt. apply map_to_list_to_map, NoDup_filter_fst, NoDup_fst_map_to_list. Qed.

Lemma filter_all {A} (P : A -> Prop) `{!forall x, Decision (P x)} l : Forall P l -> filter P l = l.
Proof. induction 1; [done|]. rewrite filter_cons_True by done. by f_equal. Qed.
Lemma filter_none {A} (P : A -> Prop) `{!forall x, Decision (P x)} l : Forall (fun x => ~ P x) l -> filter P l = [].
Proof. induction 1; [done|]. by rewrite filter_cons_False. Qed.

(** Selecting from filtered and rewritten rows is rewriting the selected rows. *)
Lemma rows_where_scrub {V} (P P' : V -> bool) (Q : Z * V -> bool) (f : V -> V) (m : gmap Z V) :
  (forall k v, m !! k = Some v -> P v = Q (k, v) && P' (f v)) ->
  rows_where P' (f <$> filter (fun kv => Q kv = true) m) ≡ₚ prod_map id f <$> rows_where P m.
Proof.
  intros Hp. unfold rows_where. rewrite map_to_list_fmap, map_to_list_filter_perm.
  assert (forall kv, kv ∈ map_to_list m -> P kv.2 = Q kv && P' (f kv.2)) as Hl.
  { intros [k v] Hk%elem_of_map_to_list. by apply Hp. }
  induction (map_to_list m) as [|[k v] l IH]; [done|].
  specialize (IH (fun x Hx => Hl x (list_elem_of_further _ _ _ Hx))).
  rewrite !filter_cons. pose proof (Hl (k, v) (list_elem_of_here _ _)) as Hv. simpl in *.
  destruct (Q (k, v)), (P' (f v)) eqn:E; simpl in Hv; rewrite Hv; simpl; rewrite ?filter_cons; simpl; rewrite ?E; simpl; by rewrite ?IH.
Qed.

Lemma rows_where_filter {V} (P : V -> bool) (Q : Z * V -> Prop) `{!forall x, Decision (Q x)} (m : gmap Z V) :
  (forall k v, m !! k = Some v -> P v = true -> Q (k, v)) -> rows_where P (filter Q m) ≡ₚ rows_where P m.
Proof.
  intros Hp. unfold rows_where. rewrite map_to_list_filter_perm.
  assert (forall kv, kv ∈ map_to_list m -> P kv.2 = true -> Q kv) as Hl by (intros [k v] ?%elem_of_map_to_list; by apply Hp).
  clear Hp. induction (map_to_list m) as [|kv l IH]; [done|]. specialize (IH (fun x Hx => Hl x (list_elem_of_further _ _ _ Hx))).
  pose proof (Hl kv (list_elem_of_here _ _)) as Hkv. rewrite (filter_cons Q). case_decide.
  - rewrite !filter_cons. case_decide; [by rewrite IH|done].
  - rewrite filter_cons. case_decide; [exfalso; auto|done].
Qed.

Lemma rows_where_keys {V} (P : V -> bool) (m : gmap Z V) : NoDup ((rows_where P m).*1).
Proof. apply NoDup_filter_fst, NoDup_fst_map_to_list. Qed.

#[export] Instance existsb_perm {A} (f : A -> bool) : Proper (Permutation ==> eq) (existsb f).
Proof. induction 1; simpl; [done|congruence| |congruence]. by destruct (f x), (f y). Qed.

(** ORDER BY: insertion sort with a boolean order. *)
Section sort_by.
Context {A : Type} (le : A -> A -> bool).
Fixpoint insert_by (x : A) (l : list A) : list A :=
  match l with [] => [x] | y :: l' => if le x y then x :: l else y :: insert_by x l' end.
Definition sort_by (l : list A) : list A := foldr insert_by [] l.
End sort_by.

Definition lex_le (a b : Z * Z) : bool := ((a.1 <? b.1) || ((a.1 =? b.1) && (a.2 <=? b.2)))%Z.


Section sorting.
Context {A : Type} (le : A -> A -> bool).

Lemma insert_by_perm x l : insert_by le x l ≡ₚ x :: l.
Proof.
  induction l as [|y l IH]; [done|]. simpl. destruct (le x y); [done|]. rewrite IH. apply Permutation_swap.
Qed.

Lemma sort_by_perm l : sort_by le l ≡ₚ l.
Proof. induction l as [|x l IH]; [done|]. simpl. by rewrite insert_by_perm, IH. Qed.

Lemma insert_by_comm x y l :
  (forall a b c, le a b = true -> le b c = true -> le a c = true) ->
  le x y = true -> le y x = false -> insert_by le x (insert_by le y l) = insert_by le y (insert_by le x l).
Proof.
  intros Htr Hxy Hyx. induction l as [|z l IH]; simpl; [by rewrite Hxy, Hyx|].
  destruct (le y z) eqn:Ey; simpl.
  - rewrite (Htr _ _ _ Hxy Ey), Hxy. simpl. by rewrite Hyx, Ey.
  - destruct (le x z) eqn:Ex; simpl; [by rewrite Hyx, Ey|]. by rewrite Ey, IH.
Qed.

(** Sorting a list whose elements are told apart by the order forgets how it was given. *)
Lemma sort_by_unique l l' :
  (forall a b c, le a b = true -> le b c = true -> le a c = true) -> (forall a b, le a b = true \/ le b a = true) ->
  NoDup l -> (forall a b, a ∈ l -> b ∈ l -> le a b = true -> le b a = true -> a = b) ->
  l ≡ₚ l' -> sort_by le l = sort_by le l'.
Proof.
  intros Htr Htot Hnd Has Hp. unfold sort_by. apply (foldr_permutation eq (insert_by le) [] l l'); [|exact Hp].
  intros j1 a1 j2 a2 b Hj H1 H2.
  assert (a1 <> a2) as Hne by (intros ->; by pose proof (NoDup_lookup _ _ _ _ Hnd H1 H2)).
  apply list_elem_of_lookup_2 in H1, H2.
  destruct (le a1 a2) eqn:E12, (le a2 a1) eqn:E21; [by destruct (Hne (Has _ _ H1 H2 E12 E21))| | |by destruct (Htot a1 a2); congruence].
  - by apply insert_by_comm.
  - symmetry. by apply insert_by_comm.
Qed.

(** The result is sorted, and a filter may run before or after the sort. *)
Definition in_order : list A -> Prop := StronglySorted (fun x y => le x y = true).

Lemma insert_by_sorted x l :
  (forall a b c, le a b = true -> le b c = true -> le a c = true) -> (forall a b, le a b = true \/ le b a = true) ->
  in_order l -> in_order (insert_by le x l).
Proof.
  intros Htr Htot. induction 1 as [|y l Hl IH Hy]; simpl; [by repeat constructor|]. destruct (le x y) eqn:E.
  - constructor; [by constructor|]. constructor; [done|]. eapply Forall_impl; [exact Hy|]. eauto.
  - constructor; [done|]. assert (le y x = true) as Hyx by (by destruct (Htot y x); congruence).
    rewrite insert_by_perm. by constructor.
Qed.

Lemma sort_by_sorted l :
  (forall a b c, le a b = true -> le b c = true -> le a c = true) -> (forall a b, le a b = true \/ le b a = true) -> in_order (sort_by le l).
Proof. intros Htr Htot. induction l as [|x l IH]; [constructor|]. by apply insert_by_sorted. Qed.

Lemma filter_insert_by (Q : A -> Prop) `{!forall x, Decision (Q x)} x l :
  (forall a b c, le a b = true -> le b c = true -> le a c = true) -> in_order l ->
  filter Q (insert_by le x l) = if decide (Q x) then insert_by le x (filter Q l) else filter Q l.
Proof.
  intros Htr. induction 1 as [|y l Hl IH Hy]; [simpl; by rewrite filter_cons|]. cbn [insert_by]. destruct (le x y) eqn:E.
  - rewrite (filter_cons _ x). case_decide as Hx; [|done].
    assert (Forall (fun z => le x z = true) (filter Q (y :: l))) as Hall.
    { apply Forall_forall. intros z [_ Hz]%list_elem_of_filter. rewrite Forall_forall in Hy. apply elem_of_cons in Hz as [->|Hz]; eauto. }
    destruct Hall as [|z l' Hz _]; [done|]. simpl. by rewrite Hz.
  - rewrite !(filter_cons _ y), IH. repeat case_decide; try done. simpl. by rewrite E.
Qed.

Lemma filter_sort_by (Q : A -> Prop) `{!forall x, Decision (Q x)} l :
  (forall a b c, le a b = true -> le b c = true -> le a c = true) -> (forall a b, le a b = true \/ le b a = true) ->
  filter Q (sort_by le l) = sort_by le (filter Q l).
Proof.
  intros Htr Htot. induction l as [|x l IH]; [done|]. cbn [sort_by foldr]. fold (sort_by le l).
  rewrite filter_insert_by, IH by auto using sort_by_sorted. rewrite filter_cons. by case_decide.
Qed.
End sorting.

Lemma insert_by_fmap {A B} (f : A -> B) le le' x l :
  (forall a b, le' (f a) (f b) = le a b) -> insert_by le' (f x) (f <$> l) = f <$> insert_by le x l.
Proof.
  intros Hf. induction l as [|y l IH]; [done|]. rewrite fmap_cons. cbn [insert_by]. rewrite Hf.
  destruct (le x y); [done|]. by rewrite IH, fmap_cons.
Qed.

Lemma sort_by_fmap {A B} (f : A -> B) le le' l :
  (forall a b, le' (f a) (f b) = le a b) -> sort_by le' (f <$> l) = f <$> sort_by le l.
Proof.
  intros Hf. induction l as [|x l IH]; [done|]. rewrite fmap_cons. cbn [sort_by foldr].
  change (foldr (insert_by le') [] (f <$> l)) with (sort_by le' (f <$> l)).
  rewrite IH. by apply insert_by_fmap.
Qed.

Lemma lex_le_trans a b c : lex_le a b = true -> lex_le b c = true -> lex_le a c = true.
Proof.
  unfold lex_le. rewrite !orb_true_iff, !andb_true_iff, !Z.ltb_lt, !Z.eqb_eq, !Z.leb_le. lia.
Qed.
Lemma lex_le_total a b : lex_le a b = true \/ lex_le b a = true.
Proof. unfold lex_le. rewrite !orb_true_iff, !andb_true_iff, !Z.ltb_lt, !Z.eqb_eq, !Z.leb_le. lia. Qed.
Lemma lex_le_antisym a b : lex_le a b = true -> lex_le b a = true -> a = b.
Proof.
  unfold lex_le. rewrite !orb_true_iff, !andb_true_iff, !Z.ltb_lt, !Z.eqb_eq, !Z.leb_le.
  destruct a, b. simpl. intros. f_equal; lia.
Qed.

(** Sorting rows by columns that include their id. *)
Lemma sort_by_key {A} (key : A -> Z * Z) (id : A -> Z) l l' :
  (forall a, (key a).2 = id a) -> NoDup (id <$> l) -> l ≡ₚ l' ->
  sort_by (fun a b => lex_le (key a) (key b)) l = sort_by (fun a b => lex_le (key a) (key b)) l' /\
  sort_by (fun a b => lex_le (key b) (key a)) l = sort_by (fun a b => lex_le (key b) (key a)) l'.
Proof.
  intros Hk Hnd Hp.
  assert (forall a b, a ∈ l -> b ∈ l -> key a = key b -> a = b) as Hinj.
  { intros a b Ha Hb He. apply list_elem_of_lookup in Ha as [i Hi], Hb as [j Hj].
    assert (i = j) as ->; [|by simplify_eq].
    apply (NoDup_lookup (id <$> l) i j (id a) Hnd); rewrite list_lookup_fmap; [by rewrite Hi|].
    rewrite Hj. simpl. by rewrite <- !Hk, He. }
  split; apply sort_by_unique; try done.
  - intros. by eapply lex_le_trans.
  - intros. apply lex_le_total.
  - by eapply NoDup_fmap_1.
  - intros a b Ha Hb H1 H2. apply Hinj; [done..|]. by apply lex_le_antisym.
  - intros. by eapply lex_le_trans.
  - intros. apply lex_le_total.
  - by eapply NoDup_fmap_1.
  - intros a b Ha Hb H1 H2. apply Hinj; [done..|]. by apply lex_le_antisym.
Qed.

Create Rewrite HintDb pulse_rw.
#[export] Hint Rewrite @lookup_update_where : pulse_rw.

(** ** Keys built from parts and separators *)

(** The character does not occur in the string. *)
Fixpoint free_of (c : ascii) (s : string) : Prop :=
  match s with EmptyString => True | String d s' => d <> c /\ free_of c s' end.

(** A key splits uniquely at the first separator. *)
Lemma sep_inj c a b r1 r2 :
  free_of c a -> free_of c b -> a +:+ String c r1 = b +:+ String c r2 -> a = b /\ r1 = r2.
Proof.
  revert b. induction a as [|x a IH]; intros [|y b] Ha Hb; simpl in *.
  - by intros [= ->].
  - intros [= -> _]. by destruct Hb.
  - intros [= -> _]. by destruct Ha.
  - intros [= -> Hr]. destruct (IH b) as [-> ->]; [by destruct Ha|by destruct Hb|done|done].
Qed.

Lemma pretty_N_go_free c x s :
  (forall n, pretty_N_char n <> c) -> free_of c s -> free_of c (pretty_N_go x s).
Proof.
  intros Hc. revert s. induction (N.lt_wf_0 x) as [x _ IH]; intros s Hs.
  assert (x = 0 \/ 0 < x)%N as [->|?] by lia; [by rewrite pretty_N_go_0|].
  rewrite pretty_N_go_step by done. apply IH; [by apply N.div_lt|]. simpl. split; [apply Hc|done].
Qed.

(** A decimal number contains no character but the sign and digits. *)
Lemma pretty_Z_free c (z : Z) :
  (forall n, pretty_N_char n <> c) -> c <> "-"%char -> free_of c (pretty z).
Proof.
  intros Hc Hm. assert (forall p, free_of c (pretty (Npos p))) as Hp.
  { intros p. unfold pretty, pretty_N. rewrite decide_False by done. by apply pretty_N_go_free. }
  destruct z as [|p|p]; simpl.
  - split; [apply (Hc 0%N)|done].
  - apply Hp.
  - split; [congruence|apply Hp].
Qed.

Lemma digit_not_colon n : pretty_N_char n <> ":"%char.
Proof. unfold pretty_N_char. by repeat case_match. Qed.

Lemma pretty_Z_no_colon (z : Z) : free_of ":" (pretty z).
Proof. apply pretty_Z_free; [apply digit_not_colon|done]. Qed.
#[export] Hint Resolve pretty_Z_no_colon : pulse.
