(* ===== verification/Domain.v ===== *)
(** * Domain: the vocabulary every service speaks (src/internal/domain, src/internal/region)

    The structs of [domain.go] as records (a Go pointer field is an [option], a
    field whose zero value the code tests is kept as that value), its string
    enumerations as inductive types, and its pure functions: the certificate
    warning level, the derived monitor status and the public status-page
    reductions. *)

From S2P Require Import Prelude.
Open Scope Z_scope.

(** ** Enumerations *)

(** [MonitorUnset] is the empty type of older rows, [MonitorOther] any other value. *)
Inductive MonitorType := MonitorHTTP | MonitorSSL | MonitorUnset | MonitorOther.

(** [DownPolicyUnset] is the empty string. *)
Inductive DownPolicy := DownPolicyAny | DownPolicyQuorum | DownPolicyAll | DownPolicyUnset.

Inductive Status := StatusDisabled | StatusPending | StatusDown | StatusUp.

Inductive FailureReason :=
  | ReasonConnectionError
  | ReasonTimeout
  | ReasonStatusMismatch
  | ReasonLatencyExceeded
  | ReasonBodyAssertion
  | ReasonBlockedTarget
  | ReasonCertExpired
  | ReasonCertExpiringSoon
  | ReasonCertInvalid.

Inductive CloseReason := CloseRecovered | CloseDisabled | CloseManual.

Inductive PublicStatus := PublicOperational | PublicDown | PublicHidden.
Inductive PublicBanner := BannerOperational | BannerPartial | BannerMajor.

(** [RoleUnknown] is a stored role outside the four of the matrix. *)
Inductive Role := RoleOwner | RoleAdmin | RoleMember | RoleViewer | RoleUnknown.

Inductive OrgWebhookEvent :=
  | OrgEventMonitorDown
  | OrgEventMonitorRecover
  | OrgEventIncidentOpened
  | OrgEventIncidentClosed.

#[export] Instance MonitorType_eq_dec : EqDecision MonitorType.
Proof. solve_decision. Defined.
#[export] Instance DownPolicy_eq_dec : EqDecision DownPolicy.
Proof. solve_decision. Defined.
#[export] Instance Status_eq_dec : EqDecision Status.
Proof. solve_decision. Defined.
#[export] Instance FailureReason_eq_dec : EqDecision FailureReason.
Proof. solve_decision. Defined.
#[export] Instance CloseReason_eq_dec : EqDecision CloseReason.
Proof. solve_decision. Defined.
#[export] Instance PublicStatus_eq_dec : EqDecision PublicStatus.
Proof. solve_decision. Defined.
#[export] Instance PublicBanner_eq_dec : EqDecision PublicBanner.
Proof. solve_decision. Defined.
#[export] Instance Role_eq_dec : EqDecision Role.
Proof. solve_decision. Defined.
#[export] Instance OrgWebhookEvent_eq_dec : EqDecision OrgWebhookEvent.
Proof. solve_decision. Defined.

(** ** Structs *)

Record Header := mkHeader { h_Key : string; h_Value : string; h_Secret : bool }.

#[export] Instance Header_eq_dec : EqDecision Header.
Proof. solve_decision. Defined.

Record Monitor := mkMonitor {
  m_ID : Z;
  m_OrgID : Z;
  m_Type : MonitorType;
  m_Name : string;
  m_URL : string;
  m_Method : string;
  m_Headers : list Header;
  m_Body : string;
  m_ExpectedStatusCodes : string;
  m_TimeoutSeconds : Z;
  m_IntervalSeconds : Z;
  m_Enabled : bool;
  m_MaxLatencyMs : option Z;
  m_BodyContains : option string;
  m_FailureThreshold : Z;
  m_Regions : list string;
  m_DownPolicy : DownPolicy;
  m_ChannelIDs : list Z;
}.

Record CertInfo := mkCertInfo {
  ci_Subject : string;
  ci_Issuer : string;
  ci_NotBefore : Time;
  ci_NotAfter : Time;
  ci_DNSNames : list string;
  ci_Serial : string;
}.

Record ResponseSnapshot := mkSnapshot {
  sn_StatusCode : option Z;
  sn_Headers : list (string * list string);
  sn_Body : string;
  sn_Truncated : bool;
}.

Record CheckResult := mkResult {
  r_ID : Z;
  r_OrgID : Z;
  r_MonitorID : Z;
  r_Region : string;
  r_ScheduledAt : Time;
  r_CheckedAt : Time;
  r_Healthy : bool;
  r_FailureReason : option FailureReason;
  r_StatusCode : option Z;
  r_LatencyMs : option Z;
  r_ErrorText : option string;
  r_CertExpiresAt : option Time;
  r_Snapshot : option ResponseSnapshot;
  r_CertInfo : option CertInfo;
}.

(** [i_CauseReason = None] is the empty reason of a result that carried none. *)
Record Incident := mkIncident {
  i_ID : Z;
  i_OrgID : Z;
  i_MonitorID : Z;
  i_StartedAt : Time;
  i_EndedAt : option Time;
  i_CauseReason : option FailureReason;
  i_CloseReason : option CloseReason;
  i_ClosedBy : option Z;
  i_FirstResultID : option Z;
}.

Record IncidentAnnotation := mkAnnotation {
  an_ID : Z;
  an_OrgID : Z;
  an_IncidentID : Z;
  an_AuthorUserID : option Z;
  an_Note : string;
  an_CreatedAt : Time;
}.

Record AlertState := mkAlertState {
  as_ConsecutiveFails : Z;
  as_FirstFailAt : option Time;
  as_OpenIncident : option Incident;
  as_LastAppliedResultID : option Z;
  as_SSLWarnedDays : option Z;
}.

(** [w_Events = []] subscribes to every event. *)
Record OrgWebhook := mkOrgWebhook {
  w_ID : Z;
  w_OrgID : Z;
  w_URL : string;
  w_SigningSecret : string;
  w_Enabled : bool;
  w_Events : list OrgWebhookEvent;
  w_CreatedBy : option Z;
  w_CreatedAt : Time;
  w_UpdatedAt : Time;
  w_LastDeliveryAt : option Time;
  w_LastStatus : string;
  w_LastError : option string;
}.

(** ** Pure functions *)

Definition SSLWarnThresholds : list Z := [7; 3; 1].

(** [SSLWarnLevel]: the loop keeps the last matching threshold, and the
    thresholds are widest first.  The source compares [daysLeft <= float64(t)]
    with [daysLeft] the float64 of the remaining time in days; rounding is
    monotone, and around 1, 3 and 7 days one nanosecond is several units in the
    last place of that quotient, so the test is the exact one on nanoseconds. *)
Definition SSLWarnLevel (expiresAt now : Time) : Z :=
  if negb (now <? expiresAt) then 0
  else
    let left := expiresAt - now in
    fold_left (fun level t => if left <=? t * Day then t else level) SSLWarnThresholds (-1).

Definition DeriveStatus (enabled hasResults openIncident : bool) : Status :=
  if negb enabled then StatusDisabled
  else if negb hasResults then StatusPending
  else if openIncident then StatusDown
  else StatusUp.

Definition DerivePublicStatus (s : Status) : PublicStatus :=
  match s with
  | StatusDown => PublicDown
  | StatusDisabled => PublicHidden
  | _ => PublicOperational
  end.

(** [DeriveBanner]: one pass that counts the visible and the down entries. *)
Definition banner_counts (statuses : list PublicStatus) : Z * Z :=
  fold_left (fun '(n, down) s =>
    match s with
    | PublicHidden => (n, down)
    | PublicDown => (n + 1, down + 1)
    | _ => (n + 1, down)
    end) statuses (0, 0).

Definition DeriveBanner (statuses : list PublicStatus) : PublicBanner :=
  let '(n, down) := banner_counts statuses in
  if (n =? 0) || (down =? 0) then BannerOperational
  else if down =? n then BannerMajor
  else BannerPartial.

Definition Subscribes (w : OrgWebhook) (ev : OrgWebhookEvent) : bool :=
  match w_Events w with
  | [] => true
  | evs => existsb (fun e => bool_decide (e = ev)) evs
  end.

(** ** Regions (src/internal/region/region.go) *)

Definition EUCentral : string := "eu-central".
Definition USEast : string := "us-east".
Definition USWest : string := "us-west".
Definition SAEast : string := "sa-east".
Definition region_Default : string := EUCentral.
Definition region_All : list string := [EUCentral; USEast; USWest; SAEast].

Definition Known (code : string) : bool :=
  existsb (fun r => String.eqb r code) region_All.

(** ** Properties *)

(** The level as a cascade of windows: what the loop over the thresholds computes. *)
Lemma SSLWarnLevel_cascade exp now :
  SSLWarnLevel exp now =
    if exp <=? now then 0
    else if exp - now <=? Day then 1
    else if exp - now <=? 3 * Day then 3
    else if exp - now <=? 7 * Day then 7
    else -1.
Proof.
  unfold SSLWarnLevel, SSLWarnThresholds, Day, Hour, Minute, Second. simpl fold_left.
  repeat case_match; reflect_tests; lia.
Qed.

Lemma SSLWarnLevel_range exp now :
  SSLWarnLevel exp now = -1 \/ SSLWarnLevel exp now = 0 \/ SSLWarnLevel exp now ∈ SSLWarnThresholds.
Proof. rewrite SSLWarnLevel_cascade. repeat case_match; set_solver. Qed.

Lemma SSLWarnLevel_tightens_aux exp now1 now2 :
  now1 <= now2 ->
  (SSLWarnLevel exp now2 = -1 -> SSLWarnLevel exp now1 = -1) /\
  (SSLWarnLevel exp now1 <> -1 ->
     SSLWarnLevel exp now2 <> -1 /\ SSLWarnLevel exp now2 <= SSLWarnLevel exp now1).
Proof.
  intros Hle. rewrite !SSLWarnLevel_cascade. unfold Day, Hour, Minute, Second in *.
  repeat case_match; reflect_tests; lia.
Qed.

Lemma banner_counts_shift l n d :
  fold_left (fun '(n, down) s =>
    match s with
    | PublicHidden => (n, down)
    | PublicDown => (n + 1, down + 1)
    | _ => (n + 1, down)
    end) l (n, d) =
  (n + Z.of_nat (length (filter (.≠ PublicHidden) l)),
   d + Z.of_nat (length (filter (eq PublicDown) l))).
Proof.
  revert n d. induction l as [|s l IH]; intros n d; simpl.
  - f_equal; lia.
  - destruct s; rewrite IH, !filter_cons; repeat case_decide; simpl; try done; f_equal; lia.
Qed.

Lemma banner_counts_eq l :
  banner_counts l =
  (Z.of_nat (length (filter (.≠ PublicHidden) l)), Z.of_nat (length (filter (eq PublicDown) l))).
Proof. unfold banner_counts. by rewrite banner_counts_shift. Qed.

Lemma filter_length_zero {A} (P : A -> Prop) `{!forall x, Decision (P x)} (l : list A) :
  Z.of_nat (length (filter P l)) = 0 <-> forall x, x ∈ l -> ~ P x.
Proof.
  split.
  - intros Hz x Hx Hp. assert (filter P l = []) as Hn by (apply length_zero_iff_nil; lia).
    assert (x ∈ filter P l) as Hin by (by apply list_elem_of_filter). rewrite Hn in Hin. set_solver.
  - intros Hno. induction l as [|y l IH]; [done|]. rewrite filter_cons.
    case_decide; [exfalso; set_solver|]. apply IH. set_solver.
Qed.

Lemma down_le_visible l :
  (length (filter (eq PublicDown) l) <= length (filter (.≠ PublicHidden) l))%nat /\
  (length (filter (eq PublicDown) l) = length (filter (.≠ PublicHidden) l) <->
   forall s, s ∈ l -> s <> PublicHidden -> s = PublicDown).
Proof.
  induction l as [|s l [IHle IHeq]]; [split; [done|set_solver]|].
  rewrite !filter_cons. destruct s; repeat case_decide; simplify_eq/=; try done.
  - split; [lia|]. split; [lia|]. intros Hall. specialize (Hall PublicOperational).
    set_solver.
  - split; [lia|]. split.
    + intros [= ?] s. rewrite elem_of_cons. intros [->|?] ?; [done|]. by apply IHeq.
    + intros Hall. f_equal. apply IHeq. set_solver.
  - split; [lia|]. rewrite IHeq. set_solver.
Qed.

(** The page banner is exact: hidden monitors never count, the banner is
    operational when no visible monitor is down, major when there is a visible
    monitor and all visible ones are down, and partial otherwise. *)
Theorem DeriveBanner_spec l :
  match DeriveBanner l with
  | BannerOperational => PublicDown ∉ l
  | BannerMajor => PublicDown ∈ l /\ (forall s, s ∈ l -> s <> PublicHidden -> s = PublicDown)
  | BannerPartial => PublicDown ∈ l /\ exists s, s ∈ l /\ s <> PublicHidden /\ s <> PublicDown
  end.
Proof.
  unfold DeriveBanner. rewrite banner_counts_eq.
  destruct (down_le_visible l) as [Hle Heq].
  pose proof (filter_length_zero (eq PublicDown) l) as Hz.
  destruct (decide (PublicDown ∈ l)) as [Hin|Hout].
  - assert (length (filter (eq PublicDown) l) <> 0%nat).
    { intros H0. apply (proj1 Hz ltac:(lia) _ Hin). done. }
    rewrite !(proj2 (Z.eqb_neq _ _)) by lia. simpl.
    destruct (Z.of_nat _ =? _) eqn:E; reflect_tests.
    + split; [done|]. apply Heq. lia.
    + split; [done|]. destruct (decide (Exists (fun s => s <> PublicHidden /\ s <> PublicDown) l)) as [Hex|Hno].
      { apply Exists_exists in Hex as (s & ? & ? & ?). eauto. }
      exfalso. apply E. f_equal. apply Heq. intros s Hs Hh. destruct (decide (s = PublicDown)); [done|].
      exfalso. apply Hno, Exists_exists. eauto.
  - assert (length (filter (eq PublicDown) l) = 0%nat) as Hd by (apply Nat2Z.inj; apply Hz; set_solver).
    rewrite Hd. by rewrite orb_true_r.
Qed.

(** Certificate levels only tighten as time passes: for a fixed expiry the
    level is -1, 0 or one of the thresholds, a certificate that is inside a
    window never leaves it, and its level never grows. *)
Theorem SSLWarnLevel_tightens exp now1 now2 :
  now1 <= now2 ->
  (SSLWarnLevel exp now1 = -1 \/ SSLWarnLevel exp now1 = 0 \/ SSLWarnLevel exp now1 ∈ SSLWarnThresholds) /\
  (SSLWarnLevel exp now1 <> -1 ->
     SSLWarnLevel exp now2 <> -1 /\ SSLWarnLevel exp now2 <= SSLWarnLevel exp now1).
Proof.
  intros Hle. split; [apply SSLWarnLevel_range|]. by apply SSLWarnLevel_tightens_aux.
Qed.

Lemma SSLWarnLevel_tightens_witness :
  (SSLWarnLevel (10 * Day) (5 * Day) = -1 \/ SSLWarnLevel (10 * Day) (5 * Day) = 0 \/
   SSLWarnLevel (10 * Day) (5 * Day) ∈ SSLWarnThresholds) /\
  (SSLWarnLevel (10 * Day) (5 * Day) <> -1 ->
     SSLWarnLevel (10 * Day) (9 * Day) <> -1 /\
     SSLWarnLevel (10 * Day) (9 * Day) <= SSLWarnLevel (10 * Day) (5 * Day)).
Proof. apply (SSLWarnLevel_tightens (10 * Day) (5 * Day) (9 * Day)). unfold Day, Hour, Minute, Second. lia. Defined.
