(* ===== verification/GoStrings.v ===== *)
(** * GoStrings: the string functions of Go's standard library the program uses

    Go strings are byte strings, as [string] is.  [TrimSpace] strips the Unicode
    white space runes by their UTF-8 encodings; [ToLowerASCII] is the part of
    [strings.ToLower] that acts on ASCII; [Atoi] is [strconv.Atoi] on a 64-bit
    platform. *)

From S2P Require Import Prelude.
Open Scope Z_scope.

(** ** White space *)

Definition byte_in (lo hi : Z) (a : ascii) : bool :=
  let n := Z.of_N (N_of_ascii a) in (lo <=? n) && (n <=? hi).
Definition byte_is (n : Z) (a : ascii) : bool := byte_in n n a.

(** The encodings of the White_Space runes, by length. *)
Definition space1 (a : ascii) : bool := byte_in 9 13 a || byte_is 32 a.
Definition space2 (a b : ascii) : bool := byte_is 194 a && (byte_is 133 b || byte_is 160 b).
Definition space3 (a b c : ascii) : bool :=
  (byte_is 225 a && byte_is 154 b && byte_is 128 c) ||
  (byte_is 226 a && byte_is 128 b && (byte_in 128 138 c || byte_is 168 c || byte_is 169 c || byte_is 175 c)) ||
  (byte_is 226 a && byte_is 129 b && byte_is 159 c) ||
  (byte_is 227 a && byte_is 128 b && byte_is 128 c).

Section strip.
Context (sp1 : ascii -> bool) (sp2 : ascii -> ascii -> bool) (sp3 : ascii -> ascii -> ascii -> bool).

Fixpoint strip (s : list ascii) : list ascii :=
  match s with
  | [] => []
  | a :: r1 =>
      if sp1 a then strip r1
      else
        match r1 with
        | [] => s
        | b :: r2 =>
            if sp2 a b then strip r2
            else
              match r2 with
              | [] => s
              | c :: r3 => if sp3 a b c then strip r3 else s
              end
        end
  end.
End strip.

Definition trim_left (l : list ascii) : list ascii := strip space1 space2 space3 l.
(** Backwards over the reversed bytes, the encodings reversed as well. *)
Definition trim_right (l : list ascii) : list ascii :=
  rev (strip space1 (fun b a => space2 a b) (fun c b a => space3 a b c) (rev l)).

Definition TrimSpace (s : string) : string :=
  string_of_list_ascii (trim_right (trim_left (list_ascii_of_string s))).

(** ** Case, splitting, prefixes *)

Definition lower_ascii (a : ascii) : ascii :=
  if byte_in 65 90 a then ascii_of_N (N_of_ascii a + 32) else a.
Fixpoint ToLowerASCII (s : string) : string :=
  match s with EmptyString => "" | String a r => String (lower_ascii a) (ToLowerASCII r) end.

(** [strings.Split(s, sep)] for a one-byte separator: never empty. *)
Fixpoint Split (sep : ascii) (s : string) : list string :=
  match s with
  | EmptyString => [EmptyString]
  | String a r =>
      if Ascii.eqb a sep then EmptyString :: Split sep r
      else match Split sep r with
           | [] => [String a EmptyString]
           | p :: ps => String a p :: ps
           end
  end.

(** [strings.Join] with a one-byte separator. *)
Fixpoint Join (sep : ascii) (l : list string) : string :=
  match l with
  | [] => ""
  | [s] => s
  | s :: l' => s +:+ String sep (Join sep l')
  end.

Definition HasPrefix (s prefix : string) : bool := String.prefix prefix s.

(** [strings.Contains]: some suffix starts with the substring. *)
Fixpoint Contains (s sub : string) : bool :=
  String.prefix sub s || match s with EmptyString => false | String _ r => Contains r sub end.

(** ** Numbers *)

Definition digit_value (a : ascii) : option Z :=
  if byte_in 48 57 a then Some (Z.of_N (N_of_ascii a) - 48) else None.

Fixpoint digits (acc : Z) (s : string) : option Z :=
  match s with
  | EmptyString => Some acc
  | String a r => match digit_value a with Some d => digits (acc * 10 + d) r | None => None end
  end.

(** [strconv.Atoi]: an optional sign, at least one digit, and a value in int64. *)
Definition Atoi (s : string) : option Z :=
  let '(neg, ds) :=
    match s with
    | String "-" r => (true, r)
    | String "+" r => (false, r)
    | _ => (false, s)
    end in
  if String.eqb ds "" then None
  else
    match digits 0 ds with
    | None => None
    | Some n =>
        let v := if neg : bool then - n else n in
        if (- 2 ^ 63 <=? v) && (v <? 2 ^ 63) then Some v else None
    end.

(** The value [strconv.ParseInt(s, 10, 64)] returns beside its error: 0 for a
    malformed number, the nearest int64 for one out of range. *)
Definition ParseInt_value (s : string) : Z :=
  let '(neg, ds) :=
    match s with
    | String "-" r => (true, r)
    | String "+" r => (false, r)
    | _ => (false, s)
    end in
  if String.eqb ds "" then 0
  else
    match digits 0 ds with
    | None => 0
    | Some n => if neg : bool then Z.max (- 2 ^ 63) (- n) else Z.min (2 ^ 63 - 1) n
    end.

(** [strings.Cut] at a one-byte separator: before, after, found. *)
Fixpoint Cut (sep : ascii) (s : string) : string * string * bool :=
  match s with
  | EmptyString => (EmptyString, EmptyString, false)
  | String a r =>
      if Ascii.eqb a sep then (EmptyString, r, true)
      else let '(b, t, found) := Cut sep r in
           if found : bool then (String a b, t, true) else (s, EmptyString, false)
  end.

(** [hex.EncodeToString]. *)
Definition hex_digit (n : N) : ascii := ascii_of_N (if (n <? 10)%N then 48 + n else 87 + n).
Fixpoint EncodeToString (s : string) : string :=
  match s with
  | EmptyString => ""
  | String a r => let n := N_of_ascii a in String (hex_digit (n / 16)) (String (hex_digit (n mod 16)) (EncodeToString r))
  end.

(** ** Facts *)

Lemma Cut_found sep a b : free_of sep a -> Cut sep (a +:+ String sep b) = (a, b, true).
Proof.
  induction a as [|x a IH]; simpl.
  - intros _. by rewrite Ascii.eqb_refl.
  - intros [Hx Ha]. rewrite (proj2 (Ascii.eqb_neq _ _) Hx). by rewrite IH.
Qed.

(** A number that parses has the parsed value. *)
Lemma ParseInt_value_Atoi s z : Atoi s = Some z -> ParseInt_value s = z.
Proof.
  unfold Atoi, ParseInt_value. destruct (match s with String "-" r => _ | _ => _ end) as [neg ds].
  destruct (String.eqb ds ""); [done|]. destruct (digits 0 ds) as [n|]; [|done].
  destruct neg; case_match; try done; reflect_tests; intros [= <-]; lia.
Qed.

Lemma Split_cons_free sep s r :
  free_of sep s -> Split sep (s +:+ String sep r) = s :: Split sep r.
Proof.
  induction s as [|a s IH]; simpl.
  - intros _. by rewrite Ascii.eqb_refl.
  - intros [Ha Hs]. rewrite (proj2 (Ascii.eqb_neq _ _) Ha). by rewrite IH.
Qed.

Lemma Split_free sep s : free_of sep s -> Split sep s = [s].
Proof.
  induction s as [|a s IH]; simpl; [done|]. intros [Ha Hs].
  by rewrite (proj2 (Ascii.eqb_neq _ _) Ha), IH.
Qed.

(** Splitting a join gives the parts back. *)
Lemma Split_Join sep l :
  l <> [] -> Forall (free_of sep) l -> Split sep (Join sep l) = l.
Proof.
  intros Hne Hf. induction Hf as [|s l Hs Hl IH]; [done|].
  destruct l as [|s' l]; [by apply Split_free|].
  change (Join sep (s :: s' :: l)) with (s +:+ String sep (Join sep (s' :: l))).
  rewrite Split_cons_free by done. by rewrite IH.
Qed.

(** Strings of printable characters have no white space to trim. *)
Definition graphic (a : ascii) : bool := byte_in 33 126 a.
Fixpoint all_chars (p : ascii -> bool) (s : string) : bool :=
  match s with EmptyString => true | String a r => p a && all_chars p r end.

Lemma all_chars_app p s t : all_chars p (s +:+ t) = all_chars p s && all_chars p t.
Proof. induction s as [|a s IH]; simpl; [done|]. by rewrite IH, andb_assoc. Qed.

Lemma graphic_not_space a : graphic a = true ->
  space1 a = false /\ (forall b, space2 a b = false) /\ (forall b c, space3 a b c = false) /\
  (forall b, space2 b a = false) /\ (forall b c, space3 b c a = false).
Proof.
  unfold graphic, space1, space2, space3, byte_is, byte_in.
  generalize (Z.of_N (N_of_ascii a)). intros n Hn.
  apply andb_true_iff in Hn as [H1%Z.leb_le H2%Z.leb_le].
  assert (forall x, 126 < x -> (x <=? n) = false) as Hb by (intros; apply Z.leb_gt; lia).
  repeat split; intros; rewrite ?(Hb 194), ?(Hb 225), ?(Hb 226), ?(Hb 227), ?(Hb 133), ?(Hb 160),
    ?(Hb 128), ?(Hb 168), ?(Hb 169), ?(Hb 175), ?(Hb 159) by lia; simpl;
    rewrite ?andb_false_r; simpl; try done.
  apply orb_false_iff. split; [rewrite (proj2 (Z.leb_gt n 13)) by lia; by rewrite andb_false_r|].
  rewrite (proj2 (Z.leb_gt n 32)) by lia. by rewrite andb_false_r.
Qed.

Lemma strip_graphic_head sp1 sp2 sp3 a l :
  sp1 a = false -> (forall b, sp2 a b = false) -> (forall b c, sp3 a b c = false) ->
  strip sp1 sp2 sp3 (a :: l) = a :: l.
Proof. intros H1 H2 H3. simpl. rewrite H1. destruct l as [|b [|c l]]; rewrite ?H2, ?H3; done. Qed.

(** Trimming keeps a string that starts and ends with printable characters. *)
Lemma trim_graphic a l z :
  graphic a = true -> graphic z = true -> l <> [] -> hd z l = a -> List.last l a = z ->
  trim_right (trim_left l) = l.
Proof.
  intros Ha Hz Hne Hhd Hlast.
  destruct (graphic_not_space _ Ha) as (A1 & A2 & A3 & _).
  destruct (graphic_not_space _ Hz) as (Z1 & _ & _ & Z2 & Z3).
  destruct l as [|b l]; [done|]. simpl in Hhd. subst b.
  unfold trim_left, trim_right. rewrite strip_graphic_head by done.
  pose proof (app_removelast_last a Hne) as Hl. rewrite Hlast in Hl. rewrite Hl.
  rewrite rev_app_distr. cbn [rev app].
  rewrite (strip_graphic_head space1 (fun b a => space2 a b)) by done.
  cbn [rev]. by rewrite rev_involutive.
Qed.

Lemma all_chars_list p s : all_chars p s = forallb p (list_ascii_of_string s).
Proof. induction s as [|a s IH]; simpl; [done|]. by rewrite IH. Qed.

Lemma TrimSpace_graphic s : all_chars graphic s = true -> TrimSpace s = s.
Proof.
  rewrite all_chars_list. intros Hs. unfold TrimSpace.
  destruct (list_ascii_of_string s) as [|a l] eqn:El.
  { simpl. rewrite <- (string_of_list_ascii_of_string s), El. done. }
  rewrite forallb_forall in Hs.
  rewrite (trim_graphic a (a :: l) (List.last (a :: l) a)).
  - by rewrite <- El, string_of_list_ascii_of_string.
  - apply Hs. by left.
  - apply Hs. rewrite (app_removelast_last (l := a :: l) a) at 2 by done. apply in_app_iff. right. by left.
  - done.
  - done.
  - done.
Qed.

(** A decimal number parses back. *)
Lemma digit_value_char n : (n < 10)%N -> digit_value (pretty_N_char n) = Some (Z.of_N n).
Proof.
  intros Hn. destruct n as [|p]; [done|].
  do 4 (destruct p as [p|p|]; try reflexivity; try lia).
Qed.

Lemma digits_go x s acc :
  digits acc (pretty_N_go x s) =
  digits (acc * 10 ^ Z.of_nat (String.length (pretty_N_go x "")) + Z.of_N x) s.
Proof.
  revert s acc. induction (N.lt_wf_0 x) as [x _ IH]; intros s acc.
  assert (x = 0 \/ 0 < x)%N as [->|Hx] by lia.
  { rewrite !pretty_N_go_0. simpl. f_equal. lia. }
  assert (forall y t, String.length (pretty_N_go y t) = (String.length (pretty_N_go y "") + String.length t)%nat) as Hlen.
  { clear. intros y. induction (N.lt_wf_0 y) as [y _ IHy]; intros t.
    assert (y = 0 \/ 0 < y)%N as [->|Hy] by lia; [by rewrite !pretty_N_go_0|].
    rewrite !(pretty_N_go_step y) by done.
    rewrite (IHy (y `div` 10)%N (N.div_lt y 10 Hy eq_refl) (String _ t)).
    rewrite (IHy (y `div` 10)%N (N.div_lt y 10 Hy eq_refl) (String _ "")). simpl. lia. }
  rewrite !(pretty_N_go_step x) by done. rewrite IH by (by apply N.div_lt).
  rewrite (Hlen (x `div` 10)%N (String _ "")). cbn [digits String.length].
  rewrite digit_value_char by (by apply N.mod_lt).
  f_equal. rewrite Nat2Z.inj_add, Z.pow_add_r by lia.
  pose proof (N.div_mod x 10 ltac:(done)). change (10 ^ Z.of_nat 1) with 10. lia.
Qed.

Lemma pretty_N_not_sign n s : 
  match pretty_N_go n (String (pretty_N_char s) "") with
  | String "-" _ | String "+" _ | EmptyString => False | _ => True end.
Proof.
  assert (forall t, match t with String a _ => exists n, a = pretty_N_char n | _ => False end ->
    match pretty_N_go n t with String a _ => exists n, a = pretty_N_char n | _ => False end) as Hgo.
  { induction (N.lt_wf_0 n) as [x _ IH]; intros t Ht.
    assert (x = 0 \/ 0 < x)%N as [->|Hx] by lia; [by rewrite pretty_N_go_0|].
    rewrite pretty_N_go_step by done. apply IH; [by apply N.div_lt|]. eauto. }
  specialize (Hgo (String (pretty_N_char s) "") (ex_intro _ s eq_refl)).
  destruct (pretty_N_go n _) as [|a r]; [done|]. destruct Hgo as [k ->].
  unfold pretty_N_char. by repeat case_match.
Qed.

Lemma Atoi_pretty (z : Z) : 0 <= z < 2 ^ 63 -> Atoi (pretty z) = Some z.
Proof.
  intros Hz. destruct z as [|p|p]; [reflexivity| |lia].
  change (pretty (Z.pos p)) with (pretty (N.pos p)). unfold pretty, pretty_N.
  rewrite decide_False by done.
  pose proof (digits_go (N.pos p) "" 0) as Hd. simpl digits in Hd.
  rewrite (pretty_N_go_step (N.pos p)) in * by done.
  pose proof (pretty_N_not_sign (N.pos p `div` 10) (N.pos p `mod` 10)) as Hs.
  destruct (pretty_N_go _ _) as [|a r]; [done|]. unfold Atoi.
  assert ((match String a r with
          | String "-" r0 => (true, r0) | String "+" r0 => (false, r0) | _ => (false, String a r) end) =
          (false, String a r)) as ->.
  { destruct a as [[] [] [] [] [] [] [] []]; try done. }
  simpl. simpl in Hd. rewrite Hd. rewrite (proj2 (Z.ltb_lt _ _)) by lia. done.
Qed.

(** A negative number parses back too. *)
Lemma Atoi_pretty_int64 (z : Z) : - 2 ^ 63 <= z < 2 ^ 63 -> Atoi (pretty z) = Some z.
Proof.
  intros Hz. destruct (Z.le_gt_cases 0 z) as [?|Hneg]; [apply Atoi_pretty; lia|].
  destruct z as [|p|p]; try lia.
  pose proof (digits_go (N.pos p) "" 0) as Hd. simpl digits in Hd.
  change (pretty (Z.neg p)) with (String "-" (pretty (N.pos p))). unfold pretty, pretty_N.
  rewrite decide_False by done. unfold Atoi. cbv beta iota.
  rewrite (pretty_N_go_step (N.pos p)) in * by done.
  pose proof (pretty_N_not_sign (N.pos p `div` 10) (N.pos p `mod` 10)) as Hs.
  destruct (pretty_N_go _ _) as [|a r]; [done|]. simpl in Hd |- *. rewrite Hd.
  rewrite (proj2 (Z.leb_le _ _)) by lia. done.
Qed.

(** Trimming is idempotent. *)
Section strip_facts.
Context (sp1 : ascii -> bool) (sp2 : ascii -> ascii -> bool) (sp3 : ascii -> ascii -> ascii -> bool).
Abbreviation strip' := (strip sp1 sp2 sp3).

Lemma strip_length l : (length (strip' l) <= length l)%nat.
Proof.
  induction l as [l IH] using (induction_ltof1 _ (@length ascii)). unfold ltof in IH.
  destruct l as [|a [|b [|c l]]]; simpl; repeat case_match; simpl; try lia;
    match goal with |- (length (strip _ _ _ ?x) <= _)%nat => pose proof (IH x ltac:(simpl; lia)); simpl in *; lia end.
Qed.

Lemma strip_idem l : strip' (strip' l) = strip' l.
Proof.
  induction l as [l IH] using (induction_ltof1 _ (@length ascii)). unfold ltof in IH.
  destruct l as [|a [|b [|c l]]]; simpl; try done.
  - destruct (sp1 a) eqn:E1; simpl; rewrite ?E1; done.
  - destruct (sp1 a) eqn:E1; [apply (IH [b]); simpl; lia|]. destruct (sp2 a b) eqn:E2; simpl; rewrite ?E1, ?E2; done.
  - destruct (sp1 a) eqn:E1; [apply (IH (b :: c :: l)); simpl; lia|].
    destruct (sp2 a b) eqn:E2; [apply (IH (c :: l)); simpl; lia|].
    destruct (sp3 a b c) eqn:E3; [apply IH; simpl; lia|]. simpl. by rewrite E1, E2, E3.
Qed.

(** A prefix of a list that starts with no space starts with none. *)
Lemma strip_prefix l k : strip' (l ++ k) = l ++ k -> strip' l = l.
Proof.
  intros Hs. destruct l as [|a [|b [|c l]]]; simpl in *; try done.
  - destruct (sp1 a); [|done]. pose proof (strip_length k). apply (f_equal length) in Hs. simpl in Hs. lia.
  - destruct (sp1 a).
    { pose proof (strip_length (b :: k)). simpl in *. apply (f_equal length) in Hs. simpl in Hs. lia. }
    destruct (sp2 a b); [|done]. pose proof (strip_length k). apply (f_equal length) in Hs. simpl in Hs. lia.
  - destruct (sp1 a).
    { pose proof (strip_length (b :: c :: l ++ k)). simpl in *. apply (f_equal length) in Hs. simpl in Hs. lia. }
    destruct (sp2 a b).
    { pose proof (strip_length (c :: l ++ k)). simpl in *. apply (f_equal length) in Hs. simpl in Hs. lia. }
    destruct (sp3 a b c); [|done]. pose proof (strip_length (l ++ k)). apply (f_equal length) in Hs. simpl in Hs. lia.
Qed.

Lemma strip_suffix l : exists k, l = k ++ strip' l.
Proof.
  induction l as [l IH] using (induction_ltof1 _ (@length ascii)). unfold ltof in IH.
  assert (forall k x, (length x < length (k ++ x))%nat -> l = k ++ x -> exists k', k ++ x = k' ++ strip' x) as Hstep.
  { intros k x Hx ->. destruct (IH x Hx) as [k' Hk']. exists (k ++ k'). by rewrite <- app_assoc, <- Hk'. }
  destruct l as [|a r1]; [by exists []|]. cbn [strip]. destruct (sp1 a); [apply (Hstep [a]); simpl; [lia|done]|].
  destruct r1 as [|b r2]; [by exists []|]. destruct (sp2 a b); [apply (Hstep [a; b]); simpl; [lia|done]|].
  destruct r2 as [|c r3]; [by exists []|]. destruct (sp3 a b c); [apply (Hstep [a; b; c]); simpl; [lia|done]|by exists []].
Qed.
End strip_facts.

Lemma TrimSpace_idem s : TrimSpace (TrimSpace s) = TrimSpace s.
Proof.
  unfold TrimSpace. rewrite list_ascii_of_string_of_list_ascii. f_equal.
  set (l := trim_left (list_ascii_of_string s)).
  assert (trim_left l = l) as Hl by apply strip_idem.
  assert (trim_left (trim_right l) = trim_right l) as Hr.
  { unfold trim_right at 1 2. set (f2 := fun b a => space2 a b). set (f3 := fun c b a => space3 a b c).
    destruct (strip_suffix space1 f2 f3 (rev l)) as [k Hk].
    apply (f_equal (@rev ascii)) in Hk. rewrite rev_involutive, rev_app_distr in Hk.
    apply (strip_prefix _ _ _ _ (rev k)). rewrite <- Hk. exact Hl. }
  rewrite Hr. unfold trim_right. by rewrite rev_involutive, strip_idem.
Qed.

(** ** Concatenation *)

Lemma string_app_inj_l a b c : a +:+ b = a +:+ c -> b = c.
Proof. induction a as [|x a IH]; [done|]. intros H. injection H as H. by apply IH. Qed.

Lemma string_app_length a b : String.length (a +:+ b) = (String.length a + String.length b)%nat.
Proof. induction a as [|x a IH]; [done|]. exact (f_equal S IH). Qed.

Lemma string_app_inj_r a b c : a +:+ c = b +:+ c -> a = b.
Proof.
  revert b. induction a as [|x a IH]; intros [|y b] H; [done|..].
  - apply (f_equal String.length) in H. rewrite !string_app_length in H. simpl in H. lia.
  - apply (f_equal String.length) in H. rewrite !string_app_length in H. simpl in H. lia.
  - injection H as -> H. f_equal. by apply IH.
Qed.

Lemma string_app_assoc a b c : (a +:+ b) +:+ c = a +:+ (b +:+ c).
Proof. induction a as [|x a IH]; [done|]. exact (f_equal (String x) IH). Qed.

Lemma string_app_nil_r a : a +:+ "" = a.
Proof. induction a as [|x a IH]; [done|]. exact (f_equal (String x) IH). Qed.
