(* ===== verification/StatusCodes.v ===== *)
(** * StatusCodes: the expected_status_codes specification
    (src/internal/checker/statuscodes.go) *)

From S2P Require Import Prelude GoStrings.
Open Scope Z_scope.

(** The two sets of a parsed spec; the source's maps only ever hold [true]. *)
Record statusMatcher := mkMatcher { explicit : gset Z; ranges : gset Z }.

(** Go's integer division truncates. *)
Definition Matches (m : statusMatcher) (code : Z) : bool :=
  bool_decide (code ∈ explicit m) || bool_decide (Z.quot code 100 ∈ ranges m).

(** The errors of the parser; the two messages about an unreadable entry
    ("invalid status range", "invalid status code") are one value. *)
Inductive specError := SpecEmpty | SpecEmptyEntry | SpecInvalidEntry | SpecOutOfRange (code : Z).

(** [2xx]-style shorthand: the byte in front of [xx].  A part with bytes outside
    ASCII is refused by either branch, so lowering ASCII is enough. *)
Definition shorthand (part : string) : option ascii :=
  match ToLowerASCII part with
  | String a (String b (String c EmptyString)) =>
      if Ascii.eqb b "x" && Ascii.eqb c "x" then Some a else None
  | _ => None
  end.

(** [int(lower[0] - '0')], a byte subtraction. *)
Definition leading_digit (a : ascii) : Z := (Z.of_N (N_of_ascii a) - 48) mod 256.

(** The loop body: one entry of the spec. *)
Definition parse_entry (raw : string) (m : statusMatcher) : result specError statusMatcher :=
  let part := TrimSpace raw in
  if String.eqb part "" then Err SpecEmptyEntry
  else
    match shorthand part with
    | Some a =>
        let d := leading_digit a in
        if (d <? 1) || (5 <? d) then Err SpecInvalidEntry
        else Ok (mkMatcher (explicit m) ({[ d ]} ∪ ranges m))
    | None =>
        match Atoi part with
        | None => Err SpecInvalidEntry
        | Some code =>
            if (code <? 100) || (599 <? code) then Err (SpecOutOfRange code)
            else Ok (mkMatcher ({[ code ]} ∪ explicit m) (ranges m))
        end
    end.

Fixpoint parse_entries (parts : list string) (m : statusMatcher) : result specError statusMatcher :=
  match parts with
  | [] => Ok m
  | raw :: parts' => m' ← parse_entry raw m; parse_entries parts' m'
  end.

Definition ParseStatusCodes (spec : string) : result specError statusMatcher :=
  let trimmed := TrimSpace spec in
  if String.eqb trimmed "" then Err SpecEmpty
  else parse_entries (Split "," trimmed) (mkMatcher ∅ ∅).

(** ** What an accepted spec matches *)

Definition in_http (m : statusMatcher) : Prop :=
  (forall c, c ∈ explicit m -> 100 <= c <= 599) /\ (forall d, d ∈ ranges m -> 1 <= d <= 5).

Lemma parse_entry_in_http raw m m' : in_http m -> parse_entry raw m = Ok m' -> in_http m'.
Proof.
  unfold parse_entry. intros [He Hr]. destruct (String.eqb _ _); [done|].
  destruct (shorthand _) as [a|].
  - destruct (_ || _) eqn:E; [done|]. intros [= <-]. reflect_tests.
    split; simpl; [done|]. set_solver by lia.
  - destruct (Atoi _) as [c|]; [|done]. destruct (_ || _) eqn:E; [done|]. intros [= <-]. reflect_tests.
    split; simpl; [|done]. set_solver by lia.
Qed.

Lemma parse_entries_in_http parts m m' : in_http m -> parse_entries parts m = Ok m' -> in_http m'.
Proof.
  revert m. induction parts as [|raw parts IH]; intros m Hm; simpl; [by intros [= <-]|].
  intros (m1 & H1 & H2)%result_bind_ok. eauto using parse_entry_in_http.
Qed.

Lemma Matches_in_http m code : in_http m -> Matches m code = true -> 100 <= code <= 599.
Proof.
  intros [He Hr]. unfold Matches. rewrite orb_true_iff, !bool_decide_eq_true.
  intros [Hc|Hd]; [by apply He|]. apply Hr in Hd.
  pose proof (Z.quot_rem' code 100). pose proof (Z.rem_bound_abs code 100 ltac:(lia)).
  assert (0 <= code) by lia. pose proof (Z.rem_bound_pos code 100 ltac:(lia) ltac:(lia)). lia.
Qed.

(** ** Canonical specs *)

(** The entries a spec is made of, and how they are written. *)
Inductive entry := Code (c : Z) | Class_ (d : Z).
#[export] Instance entry_eq_dec : EqDecision entry.
Proof. solve_decision. Defined.

Definition entry_ok (e : entry) : Prop :=
  match e with Code c => 100 <= c <= 599 | Class_ d => 1 <= d <= 5 end.
Definition entry_text (e : entry) : string :=
  match e with Code c => pretty c | Class_ d => pretty d +:+ "xx" end.
Definition entry_covers (e : entry) (code : Z) : bool :=
  match e with Code c => code =? c | Class_ d => (d * 100 <=? code) && (code <? d * 100 + 100) end.

(** Every in-range entry, to evaluate facts about all of them. *)
Definition all_entries : list entry :=
  (Code <$> seqZ 100 500) ++ (Class_ <$> seqZ 1 5).

Lemma entry_ok_elem e : entry_ok e -> e ∈ all_entries.
Proof.
  unfold all_entries. rewrite elem_of_app, !list_elem_of_fmap. setoid_rewrite elem_of_seqZ.
  destruct e as [c|d]; simpl; intros ?; [left|right]; eexists; (split; [done|lia]).
Qed.

Definition no_comma (s : string) : bool := all_chars (fun a => negb (Ascii.eqb a ",")) s.

Lemma no_comma_free s : no_comma s = true -> free_of "," s.
Proof.
  unfold no_comma. induction s as [|a s IH]; simpl; [done|].
  intros [Ha%negb_true_iff Hs]%andb_true_iff. split; [|by apply IH]. by apply Ascii.eqb_neq.
Qed.

Definition entry_text_ok (e : entry) : bool :=
  all_chars graphic (entry_text e) && no_comma (entry_text e) && negb (String.eqb (entry_text e) "") &&
  match e with
  | Code c => bool_decide (shorthand (entry_text e) = None) && bool_decide (Atoi (entry_text e) = Some c)
  | Class_ d => match shorthand (entry_text e) with Some a => leading_digit a =? d | None => false end
  end.

Lemma entry_text_facts e : entry_ok e -> entry_text_ok e = true.
Proof.
  intros He. assert (forallb entry_text_ok all_entries = true) as Hall by (vm_compute; reflexivity).
  rewrite forallb_forall in Hall. apply Hall, list_elem_of_In, entry_ok_elem, He.
Qed.

Definition add_entry (e : entry) (m : statusMatcher) : statusMatcher :=
  match e with
  | Code c => mkMatcher ({[ c ]} ∪ explicit m) (ranges m)
  | Class_ d => mkMatcher (explicit m) ({[ d ]} ∪ ranges m)
  end.

Lemma parse_entry_text e m : entry_ok e -> parse_entry (entry_text e) m = Ok (add_entry e m).
Proof.
  intros He. pose proof (entry_text_facts e He) as Ht. unfold entry_text_ok in Ht.
  rewrite !andb_true_iff, negb_true_iff in Ht. destruct Ht as [[[Hg Hc] Hne] Hk].
  unfold parse_entry. rewrite TrimSpace_graphic, Hne by done. destruct e as [c|d]; simpl in He.
  - rewrite andb_true_iff, !bool_decide_eq_true in Hk. destruct Hk as [-> ->].
    rewrite (proj2 (Z.ltb_ge _ _)), (proj2 (Z.ltb_ge _ _)) by lia. done.
  - destruct (shorthand _) as [a|]; [|done]. apply Z.eqb_eq in Hk. rewrite Hk.
    rewrite (proj2 (Z.ltb_ge _ _)), (proj2 (Z.ltb_ge _ _)) by lia. done.
Qed.

Lemma parse_entries_text es m :
  Forall entry_ok es -> parse_entries (entry_text <$> es) m = Ok (fold_left (fun m e => add_entry e m) es m).
Proof.
  intros Hes. revert m. induction Hes as [|e es He Hes IH]; intros m; [done|].
  simpl. rewrite parse_entry_text by done. apply IH.
Qed.

Lemma class_quot d code :
  1 <= d -> (Z.quot code 100 = d <-> d * 100 <= code < d * 100 + 100).
Proof.
  intros Hd. pose proof (Z.quot_rem' code 100) as Hq.
  pose proof (Z.rem_bound_abs code 100 ltac:(lia)) as Hb. split; intros H.
  - pose proof (Z.rem_bound_pos code 100 ltac:(lia) ltac:(lia)). lia.
  - pose proof (Z.rem_bound_pos code 100 ltac:(lia) ltac:(lia)). lia.
Qed.

Lemma Matches_add e m code :
  entry_ok e -> Matches (add_entry e m) code = entry_covers e code || Matches m code.
Proof.
  intros He. apply eq_iff_eq_true. unfold Matches.
  destruct e as [c|d]; simpl in *; rewrite !orb_true_iff, !bool_decide_eq_true, elem_of_union, elem_of_singleton.
  - rewrite Z.eqb_eq. tauto.
  - rewrite andb_true_iff, Z.leb_le, Z.ltb_lt, class_quot by lia. tauto.
Qed.

Lemma Matches_fold es m code :
  Forall entry_ok es ->
  Matches (fold_left (fun m e => add_entry e m) es m) code =
  existsb (fun e => entry_covers e code) es || Matches m code.
Proof.
  intros Hes. revert m. induction Hes as [|e es He Hes IH]; intros m; simpl; [done|].
  rewrite IH, Matches_add by done. by rewrite orb_assoc, (orb_comm (existsb _ _)).
Qed.

Lemma Join_graphic l :
  Forall (fun s => all_chars graphic s = true) l -> all_chars graphic (Join "," l) = true.
Proof.
  intros Hl. induction Hl as [|s l Hs Hl IH]; [done|]. destruct l as [|s' l]; [done|].
  change (Join "," (s :: s' :: l)) with (s +:+ String "," (Join "," (s' :: l))).
  rewrite all_chars_app, Hs. exact IH.
Qed.

Lemma entry_text_parts e :
  entry_ok e -> all_chars graphic (entry_text e) = true /\ free_of "," (entry_text e) /\ entry_text e <> "".
Proof.
  intros He. pose proof (entry_text_facts e He) as Ht. unfold entry_text_ok in Ht.
  rewrite !andb_true_iff, negb_true_iff in Ht. destruct Ht as [[[Hg Hc] Hne] _].
  split; [done|]. split; [by apply no_comma_free|]. by apply String.eqb_neq.
Qed.

(** ** Properties *)

(** A spec written from in-range entries reads back as what it says: the
    comma separated list of codes and class shorthands is accepted and the
    matcher accepts exactly the codes one of the entries covers. *)
Theorem ParseStatusCodes_roundtrip es :
  es <> [] -> Forall entry_ok es ->
  exists m, ParseStatusCodes (Join "," (entry_text <$> es)) = Ok m /\
    forall code, Matches m code = existsb (fun e => entry_covers e code) es.
Proof.
  intros Hne Hes. unfold ParseStatusCodes.
  assert (Forall (fun e => all_chars graphic (entry_text e) = true /\ free_of "," (entry_text e) /\
    entry_text e <> "") es) as Hp by (eapply Forall_impl; [exact Hes|apply entry_text_parts]).
  rewrite TrimSpace_graphic
    by (apply Join_graphic, Forall_fmap; eapply Forall_impl; [exact Hp|naive_solver]).
  assert (Join "," (entry_text <$> es) <> "") as Hj.
  { destruct es as [|e [|e' es]]; [done| |]; apply Forall_cons in Hp as [(_ & _ & He) _]; [done|].
    simpl. destruct (entry_text e); done. }
  rewrite (proj2 (String.eqb_neq _ _) Hj), Split_Join.
  - rewrite parse_entries_text by done. eexists. split; [done|]. intros code.
    rewrite Matches_fold by done. by rewrite orb_false_r.
  - by destruct es.
  - apply Forall_fmap. eapply Forall_impl; [exact Hp|naive_solver].
Qed.

(** Whatever text is accepted as a spec, the matcher only ever accepts codes
    of the http range 100 to 599. *)
Theorem accepted_spec_is_http spec m code :
  ParseStatusCodes spec = Ok m -> Matches m code = true -> 100 <= code <= 599.
Proof.
  unfold ParseStatusCodes. destruct (String.eqb _ _); [done|]. intros Hp.
  apply Matches_in_http. eapply parse_entries_in_http; [|exact Hp]. split; simpl; set_solver.
Qed.

(** ** Witnesses *)

Lemma ParseStatusCodes_roundtrip_witness :
  Join "," (entry_text <$> [Class_ 2; Code 301; Code 404]) = "2xx,301,404" /\
  exists m, ParseStatusCodes "2xx,301,404" = Ok m /\
    forall code, Matches m code = existsb (fun e => entry_covers e code) [Class_ 2; Code 301; Code 404].
Proof.
  split; [reflexivity|].
  apply (ParseStatusCodes_roundtrip [Class_ 2; Code 301; Code 404]); [done|].
  repeat constructor; simpl; lia.
Defined.

Lemma accepted_spec_is_http_witness : 100 <= 299 <= 599.
Proof.
  apply (accepted_spec_is_http " 2XX , +0404" (mkMatcher {[ 404 ]} {[ 2 ]}) 299); vm_compute; reflexivity.
Defined.

(** The shorthand for informational codes is accepted too. *)
Example informational_class_accepted :
  exists m, ParseStatusCodes "1xx" = Ok m /\ Matches m 100 = true /\ Matches m 199 = true.
Proof. eexists. split; [vm_compute; reflexivity|]. split; reflexivity. Qed.
