(* ===== verification/Checker.v ===== *)
(** * Checker: one HTTP or TLS check of a monitor
    (src/internal/checker/checker.go, ssl.go, ssrf.go)

    [World] is what a check observes from outside: name resolution, dialling,
    the server's replies, the clock and the certificate verifier.  A check
    returns its result together with the network events it caused, in order, so
    that what it must not do can be stated. *)

From S2P Require Import Prelude Domain GoStrings StatusCodes.
Open Scope Z_scope.

(** ** IP addresses (net.IP: 4 or 16 bytes, the empty slice for nil) *)

Definition IP : Type := list Z.

Definition v4_mapped (a b c d : Z) : IP := [0; 0; 0; 0; 0; 0; 0; 0; 0; 0; 255; 255; a; b; c; d].

Definition To4 (ip : IP) : option (Z * Z * Z * Z) :=
  match ip with
  | [a; b; c; d] => Some (a, b, c, d)
  | [z0; z1; z2; z3; z4; z5; z6; z7; z8; z9; f0; f1; a; b; c; d] =>
      if forallb (Z.eqb 0) [z0; z1; z2; z3; z4; z5; z6; z7; z8; z9] && (f0 =? 255) && (f1 =? 255)
      then Some (a, b, c, d) else None
  | _ => None
  end.

Definition IPv6loopback : IP := [0; 0; 0; 0; 0; 0; 0; 0; 0; 0; 0; 0; 0; 0; 0; 1].

Definition IsLoopback (ip : IP) : bool :=
  match To4 ip with
  | Some (a, _, _, _) => a =? 127
  | None => bool_decide (ip = IPv6loopback)
  end.

(** The first two bytes of a 16-byte address. *)
Definition v6_head (ip : IP) : option (Z * Z) :=
  match ip with
  | b0 :: b1 :: _ => if (length ip =? 16)%nat then Some (b0, b1) else None
  | _ => None
  end.

Definition IsLinkLocalUnicast (ip : IP) : bool :=
  match To4 ip with
  | Some (a, b, _, _) => (a =? 169) && (b =? 254)
  | None =>
      match v6_head ip with Some (b0, b1) => (b0 =? 254) && (Z.land b1 192 =? 128) | None => false end
  end.

Definition IsLinkLocalMulticast (ip : IP) : bool :=
  match To4 ip with
  | Some (a, b, c, _) => (a =? 224) && (b =? 0) && (c =? 0)
  | None =>
      match v6_head ip with Some (b0, b1) => (b0 =? 255) && (Z.land b1 15 =? 2) | None => false end
  end.

Definition IsPrivate (ip : IP) : bool :=
  match To4 ip with
  | Some (a, b, _, _) => (a =? 10) || ((a =? 172) && (Z.land b 240 =? 16)) || ((a =? 192) && (b =? 168))
  | None => match v6_head ip with Some (b0, _) => Z.land b0 254 =? 252 | None => false end
  end.

(** ** ssrf.go: the guard *)

Definition isBlockedIP (ip : IP) : bool :=
  match ip with
  | [] => false
  | _ =>
      if IsLoopback ip then true
      else if IsLinkLocalUnicast ip || IsLinkLocalMulticast ip then true
      else IsPrivate ip
  end.

(** A Go error of the network stack: its text, whether it wraps
    [context.DeadlineExceeded], whether it is a [net.Error] that timed out. *)
Record netError := mkNetError { er_text : string; er_deadline : bool; er_net_timeout : bool }.
Definition plain (text : string) : netError := mkNetError text false false.

Record Request := mkRequest {
  rq_Method : string;
  rq_URL : string;
  rq_Header : gmap string (list string);
  rq_Body : option string;
}.

(** The bytes a response body yields before it ends, or fails. *)
Record Body := mkBody { bd_data : string; bd_err : option netError }.

Record Response := mkResponse {
  rs_StatusCode : Z;
  rs_Header : list (string * list string);
  rs_Body : Body;
}.

(** What comes back on a connection. *)
Inductive Reply :=
  | ReplyFinal (r : Response)
  | ReplyRedirect (next : Request)
  | ReplyError (e : netError).

Record Certificate := mkCertificate {
  cert_Subject : string; cert_Issuer : string; cert_NotBefore : Time; cert_NotAfter : Time;
  cert_DNSNames : list string; cert_Serial : string;
}.

(** [x509.Certificate.Verify]: [VerifyExpired] is a [CertificateInvalidError]
    whose reason is [x509.Expired]. *)
Inductive Verification := VerifyOk | VerifyExpired | VerifyFailed (text : string).

Inductive Handshake := HandshakeError (e : netError) | HandshakeCerts (chain : list Certificate).

Record World := mkWorld {
  url_Parse : string -> option (string * string); (* Hostname, Port *)
  SplitHostPort : string -> option (string * string);
  JoinHostPort : string -> string -> string;
  ParseIP : string -> option IP;
  IP_String : IP -> string;
  quote : string -> string; (* %q *)
  format_date : Time -> string;
  LookupIP : string -> result netError (list IP);
  NewRequest_error : string -> string -> option netError;
  candidates : string -> list string; (* addresses the dialer tries for a target *)
  connect : option Duration -> string -> option netError;
  serve : option Duration -> Request -> Reply;
  handshake : option Duration -> string -> Handshake;
  verify : string -> list Certificate -> Time -> Verification;
  deadline_passed : option Duration -> bool; (* ctx.Err() when the error is inspected *)
  time_now : Time;
  time_start : Time;
  time_done : Time;
}.

Inductive NetEvent :=
  | EvLookup (host : string)
  | EvConnect (addr : string)
  | EvRequest (r : Request)
  | EvReadBody (limit : Z)
  | EvDrain.

Record Config := mkConfig {
  BlockPrivateNetworks : bool;
  BodyCapBytes : Z;
  MaxErrorTextLen : Z;
}.

(** [New] fills the defaults. *)
Definition New (cfg : Config) : Config :=
  mkConfig (BlockPrivateNetworks cfg)
    (if BodyCapBytes cfg <=? 0 then 64 * 1024 else BodyCapBytes cfg)
    (if MaxErrorTextLen cfg <=? 0 then 500 else MaxErrorTextLen cfg).

(** ** Text helpers *)

Definition cont (a : ascii) : bool := byte_in 128 191 a.

(** [[]rune(s)], each rune as the bytes it is written back with: an invalid byte
    becomes U+FFFD. *)
Definition rune_error : list ascii := ascii_of_N <$> [239; 191; 189]%N.

Fixpoint runes (s : list ascii) : list (list ascii) :=
  match s with
  | [] => []
  | a :: r1 =>
      if byte_in 0 127 a then [a] :: runes r1
      else
        match r1 with
        | [] => [rune_error]
        | b :: r2 =>
            if byte_in 194 223 a && cont b then [a; b] :: runes r2
            else
              match r2 with
              | [] => rune_error :: runes r1
              | c :: r3 =>
                  if ((byte_is 224 a && byte_in 160 191 b) || (byte_in 225 236 a && cont b) ||
                      (byte_is 237 a && byte_in 128 159 b) || (byte_in 238 239 a && cont b)) && cont c
                  then [a; b; c] :: runes r3
                  else
                    match r3 with
                    | [] => rune_error :: runes r1
                    | d :: r4 =>
                        if ((byte_is 240 a && byte_in 144 191 b) || (byte_in 241 243 a && cont b) ||
                            (byte_is 244 a && byte_in 128 143 b)) && cont c && cont d
                        then [a; b; c; d] :: runes r4
                        else rune_error :: runes r1
                    end
              end
        end
  end.

Definition byte_len (s : string) : Z := Z.of_nat (String.length s).

Definition truncate (cfg : Config) (s : string) : string :=
  let s := TrimSpace s in
  if byte_len s <=? MaxErrorTextLen cfg then s
  else
    let rs := runes (list_ascii_of_string s) in
    if Z.of_nat (length rs) <=? MaxErrorTextLen cfg then s
    else string_of_list_ascii (concat (take (Z.to_nat (MaxErrorTextLen cfg)) rs)).

(** [readBodyCapped]: at most [cap]+1 bytes are read; an error behind them is not seen. *)
Definition readBodyCapped (b : Body) (capBytes : Z) : result netError (string * bool) :=
  let limit := wrap64 (capBytes + 1) in
  let data := if byte_len (bd_data b) <=? limit then bd_data b
              else String.substring 0 (Z.to_nat limit) (bd_data b) in
  match (if byte_len (bd_data b) <? limit then bd_err b else None) with
  | Some e => Err e
  | None =>
      if capBytes <? byte_len data then Ok (String.substring 0 (Z.to_nat capBytes) data, true)
      else Ok (data, false)
  end.

(** ** Results *)

(** [&domain.CheckResult{MonitorID: m.ID, Healthy: false}]; 0 is the zero time. *)
Definition new_result (m : Monitor) : CheckResult :=
  mkResult 0 0 (m_ID m) "" 0 0 false None None None None None None None.

Definition checked_at (t : Time) (r : CheckResult) : CheckResult :=
  mkResult (r_ID r) (r_OrgID r) (r_MonitorID r) (r_Region r) (r_ScheduledAt r) t (r_Healthy r)
    (r_FailureReason r) (r_StatusCode r) (r_LatencyMs r) (r_ErrorText r) (r_CertExpiresAt r)
    (r_Snapshot r) (r_CertInfo r).
Definition with_status (s : Z) (r : CheckResult) : CheckResult :=
  mkResult (r_ID r) (r_OrgID r) (r_MonitorID r) (r_Region r) (r_ScheduledAt r) (r_CheckedAt r)
    (r_Healthy r) (r_FailureReason r) (Some s) (r_LatencyMs r) (r_ErrorText r) (r_CertExpiresAt r)
    (r_Snapshot r) (r_CertInfo r).
Definition with_latency (l : Z) (r : CheckResult) : CheckResult :=
  mkResult (r_ID r) (r_OrgID r) (r_MonitorID r) (r_Region r) (r_ScheduledAt r) (r_CheckedAt r)
    (r_Healthy r) (r_FailureReason r) (r_StatusCode r) (Some l) (r_ErrorText r) (r_CertExpiresAt r)
    (r_Snapshot r) (r_CertInfo r).
Definition with_snapshot (s : option ResponseSnapshot) (r : CheckResult) : CheckResult :=
  mkResult (r_ID r) (r_OrgID r) (r_MonitorID r) (r_Region r) (r_ScheduledAt r) (r_CheckedAt r)
    (r_Healthy r) (r_FailureReason r) (r_StatusCode r) (r_LatencyMs r) (r_ErrorText r)
    (r_CertExpiresAt r) s (r_CertInfo r).
Definition with_cert (e : Time) (ci : CertInfo) (r : CheckResult) : CheckResult :=
  mkResult (r_ID r) (r_OrgID r) (r_MonitorID r) (r_Region r) (r_ScheduledAt r) (r_CheckedAt r)
    (r_Healthy r) (r_FailureReason r) (r_StatusCode r) (r_LatencyMs r) (r_ErrorText r) (Some e)
    (r_Snapshot r) (Some ci).
Definition healthy_result (r : CheckResult) : CheckResult :=
  mkResult (r_ID r) (r_OrgID r) (r_MonitorID r) (r_Region r) (r_ScheduledAt r) (r_CheckedAt r)
    true None (r_StatusCode r) (r_LatencyMs r) (r_ErrorText r) (r_CertExpiresAt r)
    (r_Snapshot r) (r_CertInfo r).

Definition withReason (r : CheckResult) (reason : FailureReason) (errText : string) : CheckResult :=
  mkResult (r_ID r) (r_OrgID r) (r_MonitorID r) (r_Region r) (r_ScheduledAt r) (r_CheckedAt r)
    false (Some reason) (r_StatusCode r) (r_LatencyMs r)
    (if String.eqb errText "" then r_ErrorText r else Some errText)
    (r_CertExpiresAt r) (r_Snapshot r) (r_CertInfo r).

(** ** Requests *)

Definition bodyReader (m : Monitor) : option string :=
  if String.eqb (m_Body m) "" then None
  else if String.eqb (m_Method m) "POST" || String.eqb (m_Method m) "PUT" || String.eqb (m_Method m) "PATCH"
  then Some (m_Body m) else None.

(** [textproto.CanonicalMIMEHeaderKey]: upper case at the start and after each
    hyphen, lower case elsewhere; a key that is not a token is left alone. *)
Definition token_char (a : ascii) : bool :=
  byte_in 48 57 a || byte_in 65 90 a || byte_in 97 122 a ||
  existsb (fun n => byte_is n a) [33; 35; 36; 37; 38; 39; 42; 43; 45; 46; 94; 95; 96; 124; 126].

Definition upper_ascii (a : ascii) : ascii :=
  if byte_in 97 122 a then ascii_of_N (N_of_ascii a - 32) else a.

Fixpoint canonical_bytes (upper : bool) (s : string) : string :=
  match s with
  | EmptyString => ""
  | String a r =>
      String (if upper then upper_ascii a else lower_ascii a) (canonical_bytes (Ascii.eqb a "-") r)
  end.

Definition CanonicalHeaderKey (k : string) : string :=
  if all_chars token_char k then canonical_bytes true k else k.

(** [req.Header.Set] in the order of the monitor's headers. *)
Definition set_headers (hs : list Header) : gmap string (list string) :=
  fold_left (fun h x => <[CanonicalHeaderKey (h_Key x) := [h_Value x]]> h) hs ∅.

(** The per-check context deadline. *)
Definition check_timeout (m : Monitor) : option Duration :=
  if 0 <? m_TimeoutSeconds m then Some (wrap64 (m_TimeoutSeconds m * Second)) else None.

Section check.
Context (cfg : Config) (w : World).

Definition blocked_text : string := "blocked address".

(** [isBlockedErr]: the block errors are tagged by a substring. *)
Definition isBlockedErr (e : netError) : bool := Contains (er_text e) blocked_text.

Definition isTimeoutErr (ctx : option Duration) (e : netError) : bool :=
  deadline_passed w ctx || er_deadline e || er_net_timeout e.

Definition error_reason (ctx : option Duration) (e : netError) : FailureReason :=
  if isTimeoutErr ctx e then ReasonTimeout else ReasonConnectionError.

Definition resolveAndCheck (host : string) : result netError unit :=
  match LookupIP w host with
  | Err e => Err e
  | Ok ips =>
      match List.find isBlockedIP ips with
      | Some ip =>
          Err (plain ("host " +:+ quote w host +:+ " resolves to " +:+ blocked_text +:+ " " +:+ IP_String w ip))
      | None => Ok tt
      end
  end.

(** [dialControl]: refuse what cannot be parsed and what is blocked. *)
Definition dialControl (address : string) : option netError :=
  match SplitHostPort w address with
  | None => Some (plain ("cannot parse dial address " +:+ quote w address))
  | Some (host, _) =>
      match ParseIP w host with
      | None => Some (plain ("dial address " +:+ quote w host +:+ " is not an IP"))
      | Some ip =>
          if isBlockedIP ip then Some (plain ("dial to " +:+ blocked_text +:+ " " +:+ IP_String w ip +:+ " refused"))
          else None
      end
  end.

(** [dialer.Control], set only when the guard is on. *)
Definition control (address : string) : option netError :=
  if BlockPrivateNetworks cfg then dialControl address else None.

(** [net.Dialer]: the candidates one after the other, the first error reported. *)
Fixpoint dial (ctx : option Duration) (addrs : list string) (first : option netError) :
    result netError string * list NetEvent :=
  match addrs with
  | [] => (Err (default (plain "missing address") first), [])
  | a :: addrs' =>
      match control a with
      | Some e => dial ctx addrs' (Some (default e first))
      | None =>
          match connect w ctx a with
          | None => (Ok a, [EvConnect a])
          | Some e =>
              let '(r, evs) := dial ctx addrs' (Some (default e first)) in (r, EvConnect a :: evs)
          end
      end
  end.

(** [client.Do]: at most ten requests along a chain of redirects. *)
Fixpoint Do (requests : nat) (ctx : option Duration) (req : Request) :
    result netError Response * list NetEvent :=
  match requests with
  | O => (Err (plain "stopped after 10 redirects"), [])
  | S requests' =>
      let '(c, evs) := dial ctx (candidates w (rq_URL req)) None in
      match c with
      | Err e => (Err e, evs)
      | Ok _ =>
          match serve w ctx req with
          | ReplyError e => (Err e, evs ++ [EvRequest req])
          | ReplyFinal r => (Ok r, evs ++ [EvRequest req])
          | ReplyRedirect next =>
              let '(r, evs') := Do requests' ctx next in (r, evs ++ EvRequest req :: evs')
          end
      end
  end.
Definition max_requests : nat := 10.

(** The pre-resolve both kinds of check start with: the failure it ends the
    check with, if any. *)
Definition pre_resolve (host : string) : option (FailureReason * string) * list NetEvent :=
  if BlockPrivateNetworks cfg then
    match resolveAndCheck host with
    | Ok _ => (None, [EvLookup host])
    | Err e =>
        if isBlockedErr e then (Some (ReasonBlockedTarget, ""), [EvLookup host])
        else (Some (ReasonConnectionError, truncate cfg (er_text e)), [EvLookup host])
    end
  else (None, []).

Definition hostFromURL (raw : string) : string :=
  match url_Parse w raw with Some (host, _) => host | None => "" end.

(** Milliseconds of [time.Since(start)]. *)
Definition latency_ms : Z := Z.quot (time_done w - time_start w) 1000000.

Definition checkStatus (m : Monitor) : bool := negb (String.eqb (TrimSpace (m_ExpectedStatusCodes m)) "").

Definition status_fails (m : Monitor) (status : Z) : bool :=
  checkStatus m &&
  match ParseStatusCodes (m_ExpectedStatusCodes m) with Ok matcher => negb (Matches matcher status) | Err _ => true end.
Definition latency_fails (m : Monitor) : bool :=
  match m_MaxLatencyMs m with Some mx => mx <? latency_ms | None => false end.
Definition body_fails (m : Monitor) (text : string) : bool :=
  match m_BodyContains m with Some sub => negb (Contains text sub) | None => false end.

(** The closure [snapshot]: reads the body unless it was read already. *)
Definition snapshot (resp : Response) (read : option (string * bool)) : ResponseSnapshot * list NetEvent :=
  let '(text, truncated, evs) :=
    match read with
    | Some (t, tr) => (t, tr, [])
    | None =>
        match readBodyCapped (rs_Body resp) (BodyCapBytes cfg) with
        | Ok (t, tr) => (t, tr, [EvReadBody (BodyCapBytes cfg)])
        | Err _ => ("", false, [EvReadBody (BodyCapBytes cfg)])
        end
    end in
  (mkSnapshot (Some (rs_StatusCode resp)) (rs_Header resp) text truncated, evs).

(** A failed assertion, with the response captured when asked. *)
Definition fail_assertion (capture : bool) (resp : Response) (read : option (string * bool))
    (res : CheckResult) (reason : FailureReason) : CheckResult * list NetEvent :=
  if capture then
    let '(sn, evs) := snapshot resp read in (withReason (with_snapshot (Some sn) res) reason "", evs)
  else (withReason res reason "", []).

(** From the response on: the body read, the latency, then the assertions in
    order: status, latency, body. *)
Definition assert_response (m : Monitor) (capture : bool) (ctx : option Duration) (resp : Response)
    (res : CheckResult) : CheckResult * list NetEvent :=
  let res := with_status (rs_StatusCode resp) res in
  match (match m_BodyContains m with
         | Some _ => Some <$> readBodyCapped (rs_Body resp) (BodyCapBytes cfg)
         | None => Ok None
         end) with
  | Err e =>
      (withReason (with_latency latency_ms res) (error_reason ctx e) (truncate cfg (er_text e)),
       [EvReadBody (BodyCapBytes cfg)])
  | Ok read =>
      let evs := match read with Some _ => [EvReadBody (BodyCapBytes cfg)] | None => [] end in
      let res := with_latency latency_ms res in
      let text := match read with Some (t, _) => t | None => "" end in
      let '(res', evs') :=
        if status_fails m (rs_StatusCode resp) then fail_assertion capture resp read res ReasonStatusMismatch
        else if latency_fails m then fail_assertion capture resp read res ReasonLatencyExceeded
        else if body_fails m text then fail_assertion capture resp read res ReasonBodyAssertion
        else (healthy_result res, match read with Some _ => [] | None => [EvDrain] end) in
      (res', evs ++ evs')
  end.

(** From the request on. *)
Definition send_request (m : Monitor) (capture : bool) : CheckResult * list NetEvent :=
  let ctx := check_timeout m in
  match NewRequest_error w (m_Method m) (m_URL m) with
  | Some e =>
      (withReason (checked_at (time_now w) (new_result m)) ReasonConnectionError (truncate cfg (er_text e)), [])
  | None =>
      let req := mkRequest (m_Method m) (m_URL m) (set_headers (m_Headers m)) (bodyReader m) in
      let res := checked_at (time_start w) (new_result m) in
      let '(r, evs) := Do max_requests ctx req in
      match r with
      | Err e => (withReason res (error_reason ctx e) (truncate cfg (er_text e)), evs)
      | Ok resp => let '(res', evs') := assert_response m capture ctx resp res in (res', evs ++ evs')
      end
  end.

Definition checkHTTP (m : Monitor) (capture : bool) : CheckResult * list NetEvent :=
  let host := hostFromURL (m_URL m) in
  let '(refusal, evs) := if String.eqb host "" then (None, []) else pre_resolve host in
  match refusal with
  | Some (reason, text) => (withReason (checked_at (time_now w) (new_result m)) reason text, evs)
  | None => let '(res, evs') := send_request m capture in (res, evs ++ evs')
  end.

(** *** ssl.go *)

Definition sslHostPort (raw : string) : string * string :=
  let raw := TrimSpace raw in
  let bare :=
    match SplitHostPort w raw with
    | Some hp => hp
    | None => if String.eqb raw "" then ("", "") else (raw, "443")
    end in
  match url_Parse w raw with
  | Some (host, port) =>
      if negb (String.eqb host "") then (host, if String.eqb port "" then "443" else port) else bare
  | None => bare
  end.

Definition certInfo (leaf : Certificate) : CertInfo :=
  mkCertInfo (cert_Subject leaf) (cert_Issuer leaf) (cert_NotBefore leaf) (cert_NotAfter leaf)
    (cert_DNSNames leaf) (cert_Serial leaf).

(** [days] is the whole days left; the source computes it in float64. *)
Definition expiryText (notAfter now : Time) : string :=
  if negb (now <? notAfter) then "certificate expired on " +:+ format_date w notAfter
  else "certificate expires in " +:+ pretty (Z.quot (notAfter - now) Day) +:+ " days (" +:+
       format_date w notAfter +:+ ")".

(** The verdict on a presented chain. *)
Definition judge_cert (host : string) (chain : list Certificate) (res : CheckResult) : CheckResult :=
  match chain with
  | [] => withReason res ReasonConnectionError "no peer certificate"
  | leaf :: _ =>
      let notAfter := cert_NotAfter leaf in
      let res := with_cert notAfter (certInfo leaf) res in
      match verify w host chain (time_now w) with
      | VerifyExpired => withReason res ReasonCertExpired (expiryText notAfter (time_now w))
      | VerifyFailed text => withReason res ReasonCertInvalid (truncate cfg text)
      | VerifyOk =>
          if 1 <=? SSLWarnLevel notAfter (time_now w)
          then withReason res ReasonCertExpiringSoon (expiryText notAfter (time_now w))
          else healthy_result res
      end
  end.

Definition checkSSL (m : Monitor) : CheckResult * list NetEvent :=
  let res := checked_at (time_now w) (new_result m) in
  let '(host, port) := sslHostPort (m_URL m) in
  if String.eqb host "" then (withReason res ReasonConnectionError "ssl monitor url has no host", [])
  else
    let '(refusal, evs) := pre_resolve host in
    match refusal with
    | Some (reason, text) => (withReason res reason text, evs)
    | None =>
        let ctx := check_timeout m in
        let '(c, evs') := dial ctx (candidates w (JoinHostPort w host port)) None in
        match c with
        | Err e => (withReason res (error_reason ctx e) (truncate cfg (er_text e)), evs ++ evs')
        | Ok addr =>
            match handshake w ctx addr with
            | HandshakeError e =>
                (withReason res (error_reason ctx e) (truncate cfg (er_text e)), evs ++ evs')
            | HandshakeCerts chain => (judge_cert host chain (with_latency latency_ms res), evs ++ evs')
            end
        end
    end.

Definition Check (m : Monitor) (capture : bool) : CheckResult * list NetEvent :=
  if bool_decide (m_Type m = MonitorSSL) then checkSSL m else checkHTTP m capture.
End check.

(** ** The guard *)

(** Every address a dial connects to passed the control callback. *)
Lemma dial_connects cfg w ctx addrs first a :
  EvConnect a ∈ (dial cfg w ctx addrs first).2 -> control cfg w a = None.
Proof.
  revert first. induction addrs as [|x addrs IH]; intros first; simpl; [set_solver|].
  destruct (control cfg w x) eqn:Hx; [apply IH|].
  destruct (connect w ctx x) as [e|]; [|set_solver].
  specialize (IH (Some (default e first))). destruct (dial cfg w ctx addrs _). simpl in *. set_solver.
Qed.

Lemma Do_connects cfg w n ctx req a :
  EvConnect a ∈ (Do cfg w n ctx req).2 -> control cfg w a = None.
Proof.
  revert req. induction n as [|n IH]; intros req; simpl; [set_solver|].
  pose proof (dial_connects cfg w ctx (candidates w (rq_URL req)) None a) as Hd.
  destruct (dial cfg w ctx _ None) as [[c|e] evs]; simpl in *; [|done].
  destruct (serve w ctx req) as [r|next|e]; simpl; [set_solver| |set_solver].
  specialize (IH next). destruct (Do cfg w n ctx next). simpl in *. set_solver.
Qed.

(** Reading a response makes no connection. *)
Lemma assert_response_connects cfg w m capture ctx resp res a :
  EvConnect a ∉ (assert_response cfg w m capture ctx resp res).2.
Proof.
  unfold assert_response, fail_assertion, snapshot.
  destruct (match m_BodyContains m with Some _ => _ | None => _ end) as [read|e]; simpl; [|set_solver].
  destruct read as [[t tr]|]; simpl;
    destruct (readBodyCapped (rs_Body resp) (BodyCapBytes cfg)) as [[t' tr']|e]; simpl;
    destruct (status_fails m _), (latency_fails w m), capture; simpl; try set_solver;
    match goal with |- context [body_fails m ?t] => destruct (body_fails m t) end; simpl; set_solver.
Qed.

Lemma pre_resolve_connects cfg w host a : EvConnect a ∉ (pre_resolve cfg w host).2.
Proof. unfold pre_resolve. repeat case_match; simpl; set_solver. Qed.

Lemma send_request_connects cfg w m capture a :
  EvConnect a ∈ (send_request cfg w m capture).2 -> control cfg w a = None.
Proof.
  unfold send_request. destruct (NewRequest_error _ _ _); [simpl; set_solver|]. cbv zeta.
  match goal with |- context [Do cfg w ?n ?ctx ?req] =>
    pose proof (Do_connects cfg w n ctx req a) as Hd; destruct (Do cfg w n ctx req) as [[resp|e] evs] end;
    simpl in *; [|done].
  match goal with |- context [assert_response cfg w m capture ?ctx resp ?res] =>
    pose proof (assert_response_connects cfg w m capture ctx resp res a) as Hr;
    destruct (assert_response cfg w m capture ctx resp res) as [res' evs'] end.
  simpl in *. set_solver.
Qed.

Lemma Check_connects cfg w m capture a :
  EvConnect a ∈ (Check cfg w m capture).2 -> control cfg w a = None.
Proof.
  unfold Check. case_bool_decide.
  - unfold checkSSL. destruct (sslHostPort w (m_URL m)) as [host port].
    destruct (String.eqb host ""); simpl; [set_solver|].
    pose proof (pre_resolve_connects cfg w host a) as Hp.
    destruct (pre_resolve cfg w host) as [[[reason text]|] evs]; simpl in *; [set_solver|].
    pose proof (dial_connects cfg w (check_timeout m) (candidates w (JoinHostPort w host port)) None a) as Hd.
    destruct (dial cfg w _ _ None) as [[c|e] evs']; simpl in *; [|set_solver].
    destruct (handshake w _ _); simpl; set_solver.
  - unfold checkHTTP. pose proof (pre_resolve_connects cfg w (hostFromURL w (m_URL m)) a) as Hp.
    pose proof (send_request_connects cfg w m capture a) as Hs.
    destruct (String.eqb _ ""); simpl.
    + by destruct (send_request cfg w m capture).
    + destruct (pre_resolve cfg w _) as [[[reason text]|] evs]; simpl in *; [set_solver|].
      destruct (send_request cfg w m capture). simpl in *. set_solver.
Qed.

(** *** The substring tag *)

Lemma prefix_app s t : String.prefix s (s +:+ t) = true.
Proof. induction s as [|a s IH]; simpl; [by destruct t|]. destruct (ascii_dec a a); [done|done]. Qed.

Lemma Contains_app_r s t sub : Contains t sub = true -> Contains (s +:+ t) sub = true.
Proof.
  intros Ht. induction s as [|a s IH]; [done|].
  change (String.prefix sub (String a (s +:+ t)) || Contains (s +:+ t) sub = true)%bool.
  by rewrite IH, orb_true_r.
Qed.

Lemma Contains_prefix sub t : Contains (sub +:+ t) sub = true.
Proof.
  pose proof (prefix_app sub t) as Hp. unfold Contains. destruct (sub +:+ t); by rewrite Hp.
Qed.

(** A name that resolves to a blocked address is refused by the pre-resolve. *)
Lemma pre_resolve_blocked cfg w host ips ip :
  BlockPrivateNetworks cfg = true -> LookupIP w host = Ok ips -> ip ∈ ips -> isBlockedIP ip = true ->
  pre_resolve cfg w host = (Some (ReasonBlockedTarget, ""), [EvLookup host]).
Proof.
  intros Hb Hl Hin Hip. unfold pre_resolve, resolveAndCheck. rewrite Hb, Hl.
  destruct (List.find isBlockedIP ips) as [ip'|] eqn:Hf.
  - unfold isBlockedErr, plain. cbn [er_text].
    rewrite Contains_app_r; [done|]. apply Contains_app_r, Contains_app_r, Contains_prefix.
  - pose proof (List.find_none _ _ Hf ip) as Hn. rewrite Hn in Hip; [done|]. by apply list_elem_of_In.
Qed.

(** *** The ranges of the guard *)

Definition ipv4 (a b c d : Z) : Z := ((a * 256 + b) * 256 + c) * 256 + d.
Definition in_cidr (base bits ip : Z) : bool := ip / 2 ^ (32 - bits) =? base / 2 ^ (32 - bits).
Definition blocked_cidrs : list (Z * Z) :=
  [(ipv4 127 0 0 0, 8); (ipv4 169 254 0 0, 16); (ipv4 224 0 0 0, 24);
   (ipv4 10 0 0 0, 8); (ipv4 172 16 0 0, 12); (ipv4 192 168 0 0, 16)].

Definition is_byte (x : Z) : Prop := 0 <= x < 256.

Lemma byte_mask_240 b : is_byte b -> (Z.land b 240 =? 16) = (b / 16 =? 1).
Proof.
  intros Hb. assert (forallb (fun b => Bool.eqb (Z.land b 240 =? 16) (b / 16 =? 1)) (seqZ 0 256) = true) as Hall
    by (vm_compute; reflexivity).
  rewrite forallb_forall in Hall. apply eqb_prop, Hall, list_elem_of_In, elem_of_seqZ.
  unfold is_byte in Hb. lia.
Qed.

Lemma ipv4_div8 a b c d : is_byte a -> is_byte b -> is_byte c -> is_byte d -> ipv4 a b c d / 2 ^ 8 = ipv4 0 a b c.
Proof. unfold is_byte, ipv4. intros. symmetry. apply Z.div_unique with d; lia. Qed.
Lemma ipv4_div16 a b c d : is_byte a -> is_byte b -> is_byte c -> is_byte d -> ipv4 a b c d / 2 ^ 16 = ipv4 0 0 a b.
Proof. unfold is_byte, ipv4. intros. symmetry. apply Z.div_unique with (c * 256 + d); lia. Qed.
Lemma ipv4_div24 a b c d : is_byte a -> is_byte b -> is_byte c -> is_byte d -> ipv4 a b c d / 2 ^ 24 = a.
Proof. unfold is_byte, ipv4. intros. symmetry. apply Z.div_unique with ((b * 256 + c) * 256 + d); lia. Qed.
Lemma ipv4_div20 a b c d :
  is_byte a -> is_byte b -> is_byte c -> is_byte d -> ipv4 a b c d / 2 ^ 20 = a * 16 + b / 16.
Proof.
  unfold is_byte, ipv4. intros. symmetry. pose proof (Z.div_mod b 16 ltac:(lia)).
  pose proof (Z.mod_pos_bound b 16 ltac:(lia)). apply Z.div_unique with ((b mod 16 * 256 + c) * 256 + d); lia.
Qed.

Lemma isBlocked_v4 a b c d :
  is_byte a -> is_byte b -> is_byte c -> is_byte d ->
  isBlockedIP [a; b; c; d] = existsb (fun '(base, bits) => in_cidr base bits (ipv4 a b c d)) blocked_cidrs.
Proof.
  intros Ha Hb Hc Hd.
  change (isBlockedIP [a; b; c; d]) with
    ((a =? 127) || (((a =? 169) && (b =? 254)) || ((a =? 224) && (b =? 0) && (c =? 0)) ||
      ((a =? 10) || ((a =? 172) && (Z.land b 240 =? 16)) || ((a =? 192) && (b =? 168))))).
  rewrite byte_mask_240 by done.
  unfold blocked_cidrs, in_cidr. cbn [existsb].
  change (32 - 8) with 24. change (32 - 16) with 16. change (32 - 24) with 8. change (32 - 12) with 20.
  rewrite !(ipv4_div24 a b c d), !(ipv4_div16 a b c d), !(ipv4_div8 a b c d), !(ipv4_div20 a b c d) by done.
  rewrite (ipv4_div24 127), (ipv4_div24 10), (ipv4_div16 169), (ipv4_div16 192), (ipv4_div8 224),
    (ipv4_div20 172) by (unfold is_byte; lia).
  change (172 * 16 + 16 / 16) with 2753. unfold ipv4, is_byte in *.
  pose proof (Z.div_pos b 16 ltac:(lia) ltac:(lia)). pose proof (Z.div_lt_upper_bound b 16 16 ltac:(lia) ltac:(lia)).
  set (q := b / 16) in *. clearbody q.
  apply eq_iff_eq_true. rewrite !orb_true_iff, !andb_true_iff, !Z.eqb_eq. intuition lia.
Qed.

(** ** Verdicts *)

(** The conditions under which an http check fails, in the order of their
    priority, each with the reason it gives. *)
Definition failures (cfg : Config) (w : World) (m : Monitor) : list (bool * FailureReason) :=
  let ctx := check_timeout m in
  let host := hostFromURL w (m_URL m) in
  let guarded := BlockPrivateNetworks cfg && negb (String.eqb host "") in
  let lookup := resolveAndCheck w host in
  let req := mkRequest (m_Method m) (m_URL m) (set_headers (m_Headers m)) (bodyReader m) in
  let reply := (Do cfg w max_requests ctx req).1 in
  let body := match reply with
              | Ok resp => Some (readBodyCapped (rs_Body resp) (BodyCapBytes cfg))
              | Err _ => None
              end in
  let asserts_body := match m_BodyContains m with Some _ => true | None => false end in
  let err_is {A} (r : result netError A) (p : netError -> bool) :=
    match r with Err e => p e | Ok _ => false end in
  [ (guarded && err_is lookup isBlockedErr, ReasonBlockedTarget);
    (guarded && err_is lookup (fun _ => true), ReasonConnectionError);
    (match NewRequest_error w (m_Method m) (m_URL m) with Some _ => true | None => false end,
     ReasonConnectionError);
    (err_is reply (isTimeoutErr w ctx), ReasonTimeout);
    (err_is reply (fun _ => true), ReasonConnectionError);
    (asserts_body && match body with Some b => err_is b (isTimeoutErr w ctx) | None => false end, ReasonTimeout);
    (asserts_body && match body with Some b => err_is b (fun _ => true) | None => false end, ReasonConnectionError);
    (match reply with Ok resp => status_fails m (rs_StatusCode resp) | Err _ => false end, ReasonStatusMismatch);
    (latency_fails w m, ReasonLatencyExceeded);
    (match body with Some (Ok (text, _)) => body_fails m text | _ => false end, ReasonBodyAssertion) ].

(** The reason of the first condition that holds. *)
Fixpoint first_failure (l : list (bool * FailureReason)) : option FailureReason :=
  match l with
  | [] => None
  | (b, reason) :: l' => if b then Some reason else first_failure l'
  end.

Lemma fail_assertion_verdict cfg capture resp read res reason :
  r_Healthy (fail_assertion cfg capture resp read res reason).1 = false /\
  r_FailureReason (fail_assertion cfg capture resp read res reason).1 = Some reason.
Proof. unfold fail_assertion. destruct capture; [destruct (snapshot _ _ _)|]; done. Qed.

(** What a check decides: its health and its reason. *)
Definition verdict (r : CheckResult) : bool * option FailureReason := (r_Healthy r, r_FailureReason r).

Lemma verdict_fail_assertion cfg capture resp read res reason :
  verdict (fail_assertion cfg capture resp read res reason).1 = (false, Some reason).
Proof.
  destruct (fail_assertion_verdict cfg capture resp read res reason) as [H1 H2].
  unfold verdict. by rewrite H1, H2.
Qed.

Definition verdict_of (o : option FailureReason) : bool * option FailureReason :=
  (match o with Some _ => false | None => true end, o).

Lemma let_pair_1 {A B C} (p : A * B) (f : B -> C) : (let '(x, y) := p in (x, f y)).1 = p.1.
Proof. by destruct p. Qed.

Lemma assert_response_verdict cfg w m capture ctx resp res :
  verdict (assert_response cfg w m capture ctx resp res).1 =
  verdict_of (first_failure
    (let body := readBodyCapped (rs_Body resp) (BodyCapBytes cfg) in
     let asserts_body := match m_BodyContains m with Some _ => true | None => false end in
     [ (asserts_body && match body with Err e => isTimeoutErr w ctx e | Ok _ => false end, ReasonTimeout);
       (asserts_body && match body with Err _ => true | Ok _ => false end, ReasonConnectionError);
       (status_fails m (rs_StatusCode resp), ReasonStatusMismatch);
       (latency_fails w m, ReasonLatencyExceeded);
       (match body with Ok (text, _) => body_fails m text | _ => false end, ReasonBodyAssertion) ])).
Proof.
  unfold assert_response, error_reason, body_fails.
  destruct (m_BodyContains m) as [sub|]; simpl.
  - destruct (readBodyCapped _ _) as [[text tr]|e]; simpl; [|by destruct (isTimeoutErr w ctx e)].
    rewrite let_pair_1.
    destruct (status_fails m _), (latency_fails w m), (negb (Contains text sub)); simpl;
      rewrite ?verdict_fail_assertion; done.
  - rewrite let_pair_1.
    destruct (status_fails m _), (latency_fails w m),
      (readBodyCapped (rs_Body resp) (BodyCapBytes cfg)) as [[text tr]|e]; simpl;
      rewrite ?verdict_fail_assertion; done.
Qed.

Lemma first_failure_app l1 l2 :
  first_failure (l1 ++ l2) = match first_failure l1 with Some r => Some r | None => first_failure l2 end.
Proof. induction l1 as [|[[] r] l1 IH]; simpl; done. Qed.

Lemma send_request_verdict cfg w m capture :
  verdict (send_request cfg w m capture).1 = verdict_of (first_failure (drop 2 (failures cfg w m))).
Proof.
  unfold send_request, failures. cbn [drop]. cbv zeta.
  destruct (NewRequest_error w _ _) as [e|]; [done|].
  destruct (Do cfg w max_requests _ _) as [[resp|e] evs]; cbn [fst].
  - rewrite let_pair_1, assert_response_verdict. reflexivity.
  - unfold error_reason. cbn [first_failure]. by destruct (isTimeoutErr w _ e).
Qed.

Lemma checkHTTP_verdict cfg w m capture :
  verdict (checkHTTP cfg w m capture).1 = verdict_of (first_failure (failures cfg w m)).
Proof.
  unfold checkHTTP. cbv zeta.
  rewrite <- (take_drop 2 (failures cfg w m)), first_failure_app. unfold failures at 1. cbn [take first_failure].
  cbv zeta. set (host := hostFromURL w (m_URL m)).
  destruct (String.eqb host "") eqn:Hh.
  - rewrite let_pair_1, send_request_verdict, andb_false_r. done.
  - unfold pre_resolve. destruct (BlockPrivateNetworks cfg); simpl.
    + destruct (resolveAndCheck w host) as [[]|e].
      * rewrite let_pair_1, send_request_verdict. done.
      * by destruct (isBlockedErr e).
    + rewrite let_pair_1, send_request_verdict. done.
Qed.

(** ** The capture flag *)

#[local] Arguments fail_assertion : simpl never.

Lemma fail_assertion_capture cfg resp read res reason :
  r_Snapshot res = None ->
  with_snapshot None (fail_assertion cfg true resp read res reason).1 =
  (fail_assertion cfg false resp read res reason).1 /\
  r_Snapshot (fail_assertion cfg false resp read res reason).1 = None.
Proof.
  intros Hs. unfold fail_assertion. destruct (snapshot cfg resp read) as [sn evs]. simpl.
  unfold with_snapshot, withReason. simpl. by rewrite Hs.
Qed.

Lemma with_snapshot_id r : r_Snapshot r = None -> with_snapshot None r = r.
Proof. destruct r; simpl; by intros ->. Qed.

Lemma assert_response_capture cfg w m ctx resp res :
  r_Snapshot res = None ->
  with_snapshot None (assert_response cfg w m true ctx resp res).1 =
    (assert_response cfg w m false ctx resp res).1 /\
  r_Snapshot (assert_response cfg w m false ctx resp res).1 = None /\
  (m_BodyContains m = None -> forall n, EvReadBody n ∉ (assert_response cfg w m false ctx resp res).2).
Proof.
  intros Hs. unfold assert_response.
  destruct (m_BodyContains m) as [sub|]; simpl.
  - destruct (readBodyCapped _ _) as [[text tr]|e]; simpl; [|by rewrite with_snapshot_id].
    rewrite !let_pair_1.
    destruct (status_fails m _); [|destruct (latency_fails w m); [|destruct (body_fails m text)]];
      try (split; [by apply fail_assertion_capture|split; [by apply fail_assertion_capture|done]]).
    simpl. by rewrite with_snapshot_id.
  - rewrite !let_pair_1.
    destruct (status_fails m _); [|destruct (latency_fails w m); [|destruct (body_fails m "")]];
      try (split; [by apply fail_assertion_capture|split; [by apply fail_assertion_capture|]];
           intros _ n; unfold fail_assertion; simpl; set_solver).
    simpl. rewrite with_snapshot_id by done. split_and!; [done|done|set_solver].
Qed.

Lemma Do_reads_nothing cfg w n ctx req k : EvReadBody k ∉ (Do cfg w n ctx req).2.
Proof.
  revert req. induction n as [|n IH]; intros req; simpl; [set_solver|].
  assert (forall addrs first, EvReadBody k ∉ (dial cfg w ctx addrs first).2) as Hd.
  { induction addrs as [|x addrs IHa]; intros first; simpl; [set_solver|].
    destruct (control cfg w x); [apply IHa|]. destruct (connect w ctx x) as [e|]; [|set_solver].
    specialize (IHa (Some (default e first))). destruct (dial cfg w ctx addrs _). simpl in *. set_solver. }
  specialize (Hd (candidates w (rq_URL req)) None).
  destruct (dial cfg w ctx _ None) as [[c|e] evs]; simpl in *; [|done].
  destruct (serve w ctx req) as [r|next|e]; simpl; [set_solver| |set_solver].
  specialize (IH next). destruct (Do cfg w n ctx next). simpl in *. set_solver.
Qed.

Lemma send_request_capture cfg w m :
  with_snapshot None (send_request cfg w m true).1 = (send_request cfg w m false).1 /\
  r_Snapshot (send_request cfg w m false).1 = None /\
  (m_BodyContains m = None -> forall n, EvReadBody n ∉ (send_request cfg w m false).2).
Proof.
  unfold send_request. cbv zeta. destruct (NewRequest_error w _ _) as [e|]; [simpl; set_solver|].
  match goal with |- context [Do cfg w ?n ?ctx ?req] =>
    pose proof (Do_reads_nothing cfg w n ctx req) as Hd; destruct (Do cfg w n ctx req) as [[resp|e] evs] end;
    cbn [snd] in Hd.
  - rewrite !let_pair_1.
    destruct (assert_response_capture cfg w m (check_timeout m) resp
      (checked_at (time_start w) (new_result m)) eq_refl) as (H1 & H2 & H3).
    split; [done|]. split; [done|]. intros Hm n. specialize (H3 Hm n). specialize (Hd n).
    destruct (assert_response _ _ _ false _ _ _). simpl in *. set_solver.
  - split; [done|]. split; [done|]. intros _ n. apply Hd.
Qed.

(** ** Properties *)

(** The verdict of an http check follows the documented priority: the check
    is healthy exactly when none of the failure conditions holds, and otherwise
    reports the first that holds in the order blocked target, resolution,
    request, transport, body read, status, latency, body assertion. *)
Theorem http_verdict_priority cfg w m capture :
  verdict (checkHTTP cfg w m capture).1 = verdict_of (first_failure (failures cfg w m)).
Proof. apply checkHTTP_verdict. Qed.

(** Capturing the response is only an observation: the result with capture is
    the one without, up to the snapshot; without capture there is no snapshot,
    and the body is read only for a body assertion. *)
Theorem capture_is_observation cfg w m :
  with_snapshot None (Check cfg w m true).1 = with_snapshot None (Check cfg w m false).1 /\
  (m_Type m <> MonitorSSL -> r_Snapshot (Check cfg w m false).1 = None /\
   (m_BodyContains m = None -> forall n, EvReadBody n ∉ (Check cfg w m false).2)).
Proof.
  unfold Check. case_bool_decide; [done|]. unfold checkHTTP. cbv zeta.
  destruct (send_request_capture cfg w m) as (H1 & H2 & H3).
  assert (forall host n, EvReadBody n ∉ (pre_resolve cfg w host).2) as Hp
    by (intros host n; unfold pre_resolve; repeat case_match; simpl; set_solver).
  destruct (String.eqb _ "").
  - rewrite !let_pair_1, H1, (with_snapshot_id _ H2). split; [done|]. intros _. split; [done|].
    intros Hm n. specialize (H3 Hm n). destruct (send_request cfg w m false). simpl in *. set_solver.
  - specialize (Hp (hostFromURL w (m_URL m))).
    destruct (pre_resolve cfg w _) as [[[reason text]|] evs]; cbn [fst snd] in *; [split; [done|]; auto|].
    rewrite !let_pair_1, H1, (with_snapshot_id _ H2). split; [done|]. intros _. split; [done|].
    intros Hm n. specialize (H3 Hm n). specialize (Hp n).
    destruct (send_request cfg w m false). simpl in *. set_solver.
Qed.

(** C22: with the guard on, no check, http or ssl, ever connects to a blocked
    address: every address it opens a connection to, along all candidates and
    all redirects and whatever name resolution said before, parses as an IP
    outside the blocked ranges. *)
Theorem guard_never_connects_to_blocked cfg w m capture a :
  BlockPrivateNetworks cfg = true -> EvConnect a ∈ (Check cfg w m capture).2 ->
  exists host port ip, SplitHostPort w a = Some (host, port) /\ ParseIP w host = Some ip /\
    isBlockedIP ip = false.
Proof.
  intros Hb Hev. apply Check_connects in Hev. unfold control, dialControl in Hev. rewrite Hb in Hev.
  destruct (SplitHostPort w a) as [[host port]|]; [|done].
  destruct (ParseIP w host) as [ip|] eqn:Hip; [|done]. destruct (isBlockedIP ip) eqn:Hbl; [done|]. eauto 10.
Qed.

(** The host a check resolves first. *)
Definition target_host (w : World) (m : Monitor) : string :=
  if bool_decide (m_Type m = MonitorSSL) then (sslHostPort w (m_URL m)).1 else hostFromURL w (m_URL m).

(** A target whose name resolves to a blocked address is reported as
    blocked_target after the lookup alone: no connection, no request. *)
Theorem blocked_target_sends_nothing cfg w m capture ips ip :
  BlockPrivateNetworks cfg = true -> target_host w m <> "" ->
  LookupIP w (target_host w m) = Ok ips -> ip ∈ ips -> isBlockedIP ip = true ->
  verdict (Check cfg w m capture).1 = (false, Some ReasonBlockedTarget) /\
  (Check cfg w m capture).2 = [EvLookup (target_host w m)].
Proof.
  intros Hb Hh Hl Hin Hip. pose proof (pre_resolve_blocked cfg w _ ips ip Hb Hl Hin Hip) as Hp.
  unfold target_host, Check in *. case_bool_decide.
  - unfold checkSSL. destruct (sslHostPort w (m_URL m)) as [host port]. cbn [fst] in *.
    by rewrite (proj2 (String.eqb_neq _ _) Hh), Hp.
  - unfold checkHTTP. cbv zeta. by rewrite (proj2 (String.eqb_neq _ _) Hh), Hp.
Qed.

(** The guard blocks exactly the ranges 127/8, 169.254/16, 224.0.0/24, 10/8,
    172.16/12 and 192.168/16 of IPv4, and an IPv4 address written as an IPv6
    mapped address is judged the same. *)
Theorem guard_blocks_private_ipv4 a b c d :
  is_byte a -> is_byte b -> is_byte c -> is_byte d ->
  isBlockedIP [a; b; c; d] = existsb (fun '(base, bits) => in_cidr base bits (ipv4 a b c d)) blocked_cidrs /\
  isBlockedIP (v4_mapped a b c d) = isBlockedIP [a; b; c; d].
Proof. intros. split; [by apply isBlocked_v4|reflexivity]. Qed.

(** The unspecified address is not among them. *)
Example unspecified_address_not_blocked : isBlockedIP [0; 0; 0; 0] = false.
Proof. reflexivity. Qed.

(** ** Witnesses *)

(** A target with one public and one private address; the server answers 200 "ok". *)
Definition ex_world (ips : list IP) : World :=
  {| url_Parse := fun _ => Some ("example.com", "");
     SplitHostPort := fun a => Some (a, "443");
     JoinHostPort := fun h _ => h;
     ParseIP := fun h => if String.eqb h "10.0.0.1" then Some [10; 0; 0; 1] else Some [8; 8; 8; 8];
     IP_String := fun _ => "ip"; quote := fun s => s; format_date := fun _ => "2030-01-01";
     LookupIP := fun _ => Ok ips;
     NewRequest_error := fun _ _ => None;
     candidates := fun _ => ["10.0.0.1"; "8.8.8.8"];
     connect := fun _ _ => None;
     serve := fun _ _ => ReplyFinal (mkResponse 200 [] (mkBody "ok" None));
     handshake := fun _ _ => HandshakeCerts [];
     verify := fun _ _ _ => VerifyOk;
     deadline_passed := fun _ => false;
     time_now := 0; time_start := 0; time_done := 5000000 |}.

Definition ex_config : Config := New (mkConfig true 0 0).
Definition ex_http_monitor : Monitor :=
  mkMonitor 7 1 MonitorHTTP "api" "https://example.com" "GET" [] "" "2xx" 10 60 true None None 2 []
    DownPolicyQuorum [].

(** The name resolves to a public address; the dialer's own resolution also
    yields a private one, which is skipped. *)
Lemma guard_never_connects_to_blocked_witness :
  (Check ex_config (ex_world [[8; 8; 8; 8]]) ex_http_monitor false).2 !! 1%nat = Some (EvConnect "8.8.8.8") /\
  exists host port ip, SplitHostPort (ex_world [[8; 8; 8; 8]]) "8.8.8.8" = Some (host, port) /\
    ParseIP (ex_world [[8; 8; 8; 8]]) host = Some ip /\ isBlockedIP ip = false.
Proof.
  split; [vm_compute; reflexivity|].
  apply (guard_never_connects_to_blocked ex_config (ex_world [[8; 8; 8; 8]]) ex_http_monitor false "8.8.8.8");
    [reflexivity|]. apply (list_elem_of_lookup_2 _ 1%nat). vm_compute. reflexivity.
Defined.

Lemma blocked_target_sends_nothing_witness :
  verdict (Check ex_config (ex_world [[8; 8; 8; 8]; [10; 0; 0; 1]]) ex_http_monitor true).1 =
    (false, Some ReasonBlockedTarget) /\
  (Check ex_config (ex_world [[8; 8; 8; 8]; [10; 0; 0; 1]]) ex_http_monitor true).2 = [EvLookup "example.com"].
Proof.
  apply (blocked_target_sends_nothing ex_config (ex_world [[8; 8; 8; 8]; [10; 0; 0; 1]]) ex_http_monitor true
    [[8; 8; 8; 8]; [10; 0; 0; 1]] [10; 0; 0; 1]); [reflexivity|discriminate|reflexivity| |reflexivity].
  right. left.
Defined.

Lemma guard_blocks_private_ipv4_witness :
  isBlockedIP [172; 31; 0; 1] =
    existsb (fun '(base, bits) => in_cidr base bits (ipv4 172 31 0 1)) blocked_cidrs /\
  isBlockedIP (v4_mapped 172 31 0 1) = isBlockedIP [172; 31; 0; 1].
Proof. apply (guard_blocks_private_ipv4 172 31 0 1); unfold is_byte; lia. Defined.

Lemma capture_is_observation_witness :
  r_Snapshot (Check ex_config (ex_world [[8; 8; 8; 8]]) ex_http_monitor false).1 = None /\
  forall n, EvReadBody n ∉ (Check ex_config (ex_world [[8; 8; 8; 8]]) ex_http_monitor false).2.
Proof.
  destruct (capture_is_observation ex_config (ex_world [[8; 8; 8; 8]]) ex_http_monitor) as [_ Hc].
  destruct (Hc ltac:(discriminate)) as [Hs Hr]. split; [exact Hs|]. apply Hr. reflexivity.
Defined.
