(* ===== verification/Alerting.v ===== *)
(** * Alerting: the pure alerting state machine (src/internal/alerting/alerting.go)

    [Apply] reads the monitor, the new result and the stored alert state and
    returns a [Decision].  [advance] is the effect a persisted decision has on
    the alert state that the next check reads (the store's side of it is in
    [Store], and [AlertingService] proves that the two agree); [run] folds the
    machine over a sequence of checks.  The abstract specification is a function
    of the history alone: the trailing run of failures. *)

From S2P Require Import Prelude Domain.
Open Scope Z_scope.

Inductive Action := ActionNone | ActionOpenIncident | ActionCloseIncident.
Inductive NotifyEventType := EventDown | EventRecovery.

#[export] Instance Action_eq_dec : EqDecision Action.
Proof. solve_decision. Defined.
#[export] Instance NotifyEventType_eq_dec : EqDecision NotifyEventType.
Proof. solve_decision. Defined.

Record NotifyEvent := mkNotify { ne_Type : NotifyEventType; ne_WarnDays : option Z }.

Record Decision := mkDecision {
  d_Action : Action;
  d_NewConsecutive : Z;
  d_NewFirstFailAt : option Time;
  d_IncidentStartedAt : Time;
  d_CauseReason : option FailureReason;
  d_IncidentEndedAt : Time;
  d_CloseReason : option CloseReason;
  d_Renotify : bool;
  d_NewSSLWarnedDays : option Z;
  d_Notify : option NotifyEvent;
}.

(** ** The engine *)

Definition applyHealthy (res : CheckResult) (state : AlertState) : Decision :=
  match as_OpenIncident state with
  | Some _ =>
      {| d_Action := ActionCloseIncident; d_NewConsecutive := 0; d_NewFirstFailAt := None;
         d_IncidentStartedAt := zeroTime; d_CauseReason := None;
         d_IncidentEndedAt := r_CheckedAt res; d_CloseReason := Some CloseRecovered;
         d_Renotify := false; d_NewSSLWarnedDays := None;
         d_Notify := Some (mkNotify EventRecovery None) |}
  | None =>
      {| d_Action := ActionNone; d_NewConsecutive := 0; d_NewFirstFailAt := None;
         d_IncidentStartedAt := zeroTime; d_CauseReason := None;
         d_IncidentEndedAt := zeroTime; d_CloseReason := None;
         d_Renotify := false; d_NewSSLWarnedDays := None; d_Notify := None |}
  end.

Definition sslLevel (res : CheckResult) : Z :=
  match r_CertExpiresAt res with
  | None => -1
  | Some exp => SSLWarnLevel exp (r_CheckedAt res)
  end.

(** [state.SSLWarnedDays == nil || level < *state.SSLWarnedDays] *)
Definition tighter (level : Z) (warned : option Z) : bool :=
  match warned with None => true | Some w => level <? w end.

Definition applyUnhealthy (m : Monitor) (res : CheckResult) (state : AlertState) : Decision :=
  let newConsecutive := wrap64 (as_ConsecutiveFails state + 1) in
  let firstFailAt :=
    if as_ConsecutiveFails state =? 0 then Some (r_CheckedAt res) else as_FirstFailAt state in
  let isSSL := bool_decide (m_Type m = MonitorSSL) in
  let level := if isSSL then sslLevel res else 0 in
  let warned := if isSSL then as_SSLWarnedDays state else None in
  let d := {| d_Action := ActionNone; d_NewConsecutive := newConsecutive;
              d_NewFirstFailAt := firstFailAt;
              d_IncidentStartedAt := zeroTime; d_CauseReason := None;
              d_IncidentEndedAt := zeroTime; d_CloseReason := None;
              d_Renotify := false; d_NewSSLWarnedDays := warned; d_Notify := None |} in
  match as_OpenIncident state with
  | Some _ =>
      if isSSL && tighter level (as_SSLWarnedDays state) then
        {| d_Action := ActionNone; d_NewConsecutive := newConsecutive;
           d_NewFirstFailAt := firstFailAt;
           d_IncidentStartedAt := zeroTime; d_CauseReason := None;
           d_IncidentEndedAt := zeroTime; d_CloseReason := None;
           d_Renotify := true; d_NewSSLWarnedDays := Some level;
           d_Notify := Some (mkNotify EventDown (Some level)) |}
      else d
  | None =>
      if newConsecutive <? m_FailureThreshold m then d
      else
        let startedAt := default (r_CheckedAt res) firstFailAt in
        {| d_Action := ActionOpenIncident; d_NewConsecutive := newConsecutive;
           d_NewFirstFailAt := firstFailAt;
           d_IncidentStartedAt := startedAt; d_CauseReason := r_FailureReason res;
           d_IncidentEndedAt := zeroTime; d_CloseReason := None;
           d_Renotify := false;
           d_NewSSLWarnedDays := if isSSL then Some level else warned;
           d_Notify := Some (mkNotify EventDown (if isSSL then Some level else None)) |}
  end.

Definition Apply (m : Monitor) (res : CheckResult) (state : AlertState) : Decision :=
  if r_Healthy res then applyHealthy res state else applyUnhealthy m res state.

(** ** The machine a persisted decision drives *)

(** The open incident after the decision; [iid] is the id the store gives a new one. *)
Definition advance_open (m : Monitor) (d : Decision) (iid rid : Z) (open : option Incident) :
    option Incident :=
  match d_Action d with
  | ActionNone => open
  | ActionCloseIncident => None
  | ActionOpenIncident =>
      match open with
      | Some i => Some i
      | None =>
          Some {| i_ID := iid; i_OrgID := m_OrgID m; i_MonitorID := m_ID m;
                  i_StartedAt := d_IncidentStartedAt d; i_EndedAt := None;
                  i_CauseReason := d_CauseReason d; i_CloseReason := None;
                  i_ClosedBy := None;
                  i_FirstResultID := if rid =? 0 then None else Some rid |}
      end
  end.

Definition advance (m : Monitor) (d : Decision) (iid rid : Z) (st : AlertState) : AlertState :=
  {| as_ConsecutiveFails := d_NewConsecutive d;
     as_FirstFailAt := d_NewFirstFailAt d;
     as_OpenIncident := advance_open m d iid rid (as_OpenIncident st);
     as_LastAppliedResultID := Some rid;
     as_SSLWarnedDays := d_NewSSLWarnedDays d |}.

(** The state of a monitor no check was applied to. *)
Definition fresh_state : AlertState := mkAlertState 0 None None None None.

(** One check with the ids the store would hand out, and a run of checks,
    oldest first, with the notifications they decide. *)
Definition tick (m : Monitor) (st : AlertState) (c : CheckResult * Z * Z) :
    AlertState * option NotifyEvent :=
  let '(res, rid, iid) := c in
  let d := Apply m res st in (advance m d iid rid st, d_Notify d).

Fixpoint run (m : Monitor) (st : AlertState) (cs : list (CheckResult * Z * Z)) :
    AlertState * list NotifyEvent :=
  match cs with
  | [] => (st, [])
  | c :: cs' =>
      let '(st1, n) := tick m st c in
      let '(st2, ns) := run m st1 cs' in
      (st2, option_list n ++ ns)
  end.

Lemma run_cons m st c cs :
  run m st (c :: cs) =
  ((run m (tick m st c).1 cs).1, option_list (tick m st c).2 ++ (run m (tick m st c).1 cs).2).
Proof. cbn [run]. destruct (tick m st c) as [st1 n]. cbn. destruct (run m st1 cs). done. Qed.

Lemma run_app m st cs1 cs2 :
  run m st (cs1 ++ cs2) =
  let '(st1, n1) := run m st cs1 in
  let '(st2, n2) := run m st1 cs2 in (st2, n1 ++ n2).
Proof.
  revert st. induction cs1 as [|c cs1 IH]; intros st; simpl.
  - by destruct (run m st cs2).
  - destruct (tick m st c) as [st1 n]. rewrite IH.
    destruct (run m st1 cs1) as [st2 n2]. destruct (run m st2 cs2) as [st3 n3].
    by rewrite app_assoc.
Qed.

(** ** The abstract specification: the trailing run of failures of a history *)

(** [failing_run h], with the history newest first, is the current run of
    failing checks, newest first. *)
Fixpoint failing_run (h : list CheckResult) : list CheckResult :=
  match h with
  | [] => []
  | r :: h' => if r_Healthy r then [] else r :: failing_run h'
  end.

Definition run_length (h : list CheckResult) : Z := Z.of_nat (length (failing_run h)).
Definition run_start (h : list CheckResult) : option Time := r_CheckedAt <$> last (failing_run h).

(** The alert state implements the history: counter and first-fail time are
    those of the trailing run, and an incident is open, started at the first
    failure of the run, exactly when the run has reached the threshold. *)
Definition implements (m : Monitor) (h : list CheckResult) (st : AlertState) : Prop :=
  as_ConsecutiveFails st = run_length h /\
  as_FirstFailAt st = run_start h /\
  (if m_FailureThreshold m <=? run_length h then
     exists i, as_OpenIncident st = Some i /\ i_EndedAt i = None /\
               Some (i_StartedAt i) = run_start h
   else as_OpenIncident st = None).

Lemma run_length_nonneg h : 0 <= run_length h.
Proof. unfold run_length. lia. Qed.

Lemma run_length_fail r h : r_Healthy r = false -> run_length (r :: h) = run_length h + 1.
Proof. intros Hr. unfold run_length. simpl. rewrite Hr. simpl. lia. Qed.

Lemma run_length_ok r h : r_Healthy r = true -> run_length (r :: h) = 0.
Proof. intros Hr. unfold run_length. simpl. by rewrite Hr. Qed.

Lemma run_start_fail r h :
  r_Healthy r = false ->
  run_start (r :: h) = if run_length h =? 0 then Some (r_CheckedAt r) else run_start h.
Proof.
  intros Hr. unfold run_start, run_length. simpl. rewrite Hr.
  destruct (failing_run h) as [|r' l]; [done|].
  rewrite last_cons_cons. done.
Qed.

Lemma run_start_is_Some h : 0 < run_length h -> is_Some (run_start h).
Proof.
  unfold run_length, run_start. destruct (failing_run h) as [|r l] eqn:E; simpl; [lia|].
  intros _. destruct (last (r :: l)) eqn:E'; [eauto|]. by apply last_None in E'.
Qed.

(** The counter does not wrap: a history shorter than 2^63. *)
Definition fits (h : list CheckResult) : Prop := Z.of_nat (length h) < 2 ^ 63.

Lemma failing_run_length h : (length (failing_run h) <= length h)%nat.
Proof. induction h as [|r h IH]; simpl; [lia|]. destruct (r_Healthy r); simpl; lia. Qed.

(** One check keeps the implementation relation (the simulation step). *)
Lemma implements_step m h st r rid iid :
  1 <= m_FailureThreshold m ->
  fits (r :: h) ->
  implements m h st ->
  implements m (r :: h) (advance m (Apply m r st) iid rid st).
Proof.
  intros Hth Hfit (Hc & Hf & Ho).
  assert (run_length h + 1 < 2 ^ 63) as Hb.
  { unfold fits in Hfit. simpl in Hfit. pose proof (failing_run_length h).
    unfold run_length. lia. }
  pose proof (run_length_nonneg h) as Hnn.
  unfold implements, Apply. destruct (r_Healthy r) eqn:Hr.
  - rewrite (run_length_ok _ _ Hr). unfold run_start. simpl. rewrite Hr. simpl.
    unfold applyHealthy. destruct (as_OpenIncident st) eqn:Hi; simpl;
      rewrite (proj2 (Z.leb_gt _ _)) by lia; auto.
  - rewrite (run_length_fail _ _ Hr), (run_start_fail _ _ Hr).
    unfold applyUnhealthy. rewrite Hc, (wrap64_id (run_length h + 1)) by lia.
    destruct (m_FailureThreshold m <=? run_length h) eqn:Hreach; reflect_tests.
    + destruct Ho as (i & Hi & He & Hs). rewrite Hi.
      assert ((run_length h =? 0) = false) as -> by (apply Z.eqb_neq; lia).
      destruct (_ && _); simpl; rewrite (proj2 (Z.leb_le _ _)) by lia; eauto 10.
    + rewrite Ho. destruct (run_length h + 1 <? m_FailureThreshold m) eqn:Hlt; reflect_tests; simpl;
        rewrite Hf.
      * rewrite (proj2 (Z.leb_gt _ _)) by lia. auto.
      * rewrite (proj2 (Z.leb_le _ _)) by lia.
        do 2 (split; [done|]). unfold advance_open; simpl. rewrite Ho.
        eexists; do 2 (split; [done|]); simpl.
        destruct (run_length h =? 0) eqn:E; [done|]. reflect_tests.
        destruct (run_start_is_Some h) as [t Ht]; [lia|]. by rewrite Ht.
Qed.
#[export] Hint Resolve implements_step : pulse.

(** ** Runs of checks *)

Definition results_of (cs : list (CheckResult * Z * Z)) : list CheckResult := (fun c => c.1.1) <$> cs.

Lemma run_implements_aux m st h cs :
  1 <= m_FailureThreshold m ->
  fits (rev (results_of cs) ++ h) ->
  implements m h st ->
  implements m (rev (results_of cs) ++ h) (run m st cs).1.
Proof.
  intros Hth. revert st h. induction cs as [|[[r rid] iid] cs IH]; intros st h Hfit Himp; [done|].
  simpl in *. rewrite <- app_assoc in *. simpl in *.
  destruct (run m (advance m (Apply m r st) iid rid st) cs) as [st2 ns] eqn:E.
  specialize (IH (advance m (Apply m r st) iid rid st) (r :: h) Hfit). rewrite E in IH. simpl in *.
  apply IH, implements_step; [done| |done].
  unfold fits in *. rewrite length_app in Hfit. simpl in *. lia.
Qed.

Lemma fresh_implements m : 1 <= m_FailureThreshold m -> implements m [] fresh_state.
Proof.
  intros Hth. unfold implements, run_length, run_start. simpl.
  rewrite (proj2 (Z.leb_gt _ _)) by lia. auto.
Qed.

(** Notifications that alternate between down and recovery; [b] says whether
    the monitor is down before the first of them. *)
Fixpoint alternates (b : bool) (ns : list NotifyEvent) : Prop :=
  match ns with
  | [] => True
  | n :: ns' => ne_Type n = (if b then EventRecovery else EventDown) /\ alternates (negb b) ns'
  end.

Definition is_open (st : AlertState) : bool := bool_decide (is_Some (as_OpenIncident st)).

Lemma tick_flips m st c :
  m_Type m <> MonitorSSL ->
  match (tick m st c).2 with
  | None => is_open (tick m st c).1 = is_open st
  | Some n => ne_Type n = (if is_open st then EventRecovery else EventDown) /\
              is_open (tick m st c).1 = negb (is_open st)
  end.
Proof.
  intros Hm. destruct c as [[r rid] iid]. unfold tick, Apply, applyHealthy, applyUnhealthy, is_open.
  rewrite (bool_decide_eq_false_2 _ Hm). simpl.
  destruct (r_Healthy r), (as_OpenIncident st) eqn:Ho; simpl;
    unfold advance, advance_open; simpl; rewrite ?Ho; try done.
  destruct (_ <? _); simpl; rewrite ?Ho; done.
Qed.

Lemma run_alternates_aux m st cs :
  m_Type m <> MonitorSSL -> alternates (is_open st) (run m st cs).2.
Proof.
  intros Hm. revert st. induction cs as [|c cs IH]; intros st; [done|]. simpl.
  pose proof (tick_flips m st c Hm) as Hf. destruct (tick m st c) as [st1 [n|]]; simpl in *;
    specialize (IH st1); destruct (run m st1 cs) as [st2 ns]; simpl in *.
  - destruct Hf as [Ht Hf]. split; [done|]. by rewrite <- Hf.
  - by rewrite <- Hf.
Qed.

(** *** Certificate warnings *)

Definition all_failing (cs : list (CheckResult * Z * Z)) : Prop :=
  Forall (fun c => r_Healthy c.1.1 = false) cs.

(** A failing check of an open ssl incident notifies exactly when its level is
    tighter than the stored one, and stores the tighter of the two. *)
Lemma tick_ssl_open m st r rid iid i :
  m_Type m = MonitorSSL -> r_Healthy r = false -> as_OpenIncident st = Some i ->
  as_OpenIncident (tick m st (r, rid, iid)).1 = Some i /\
  (if tighter (sslLevel r) (as_SSLWarnedDays st) then
     as_SSLWarnedDays (tick m st (r, rid, iid)).1 = Some (sslLevel r) /\
     (tick m st (r, rid, iid)).2 = Some (mkNotify EventDown (Some (sslLevel r)))
   else
     as_SSLWarnedDays (tick m st (r, rid, iid)).1 = as_SSLWarnedDays st /\
     (tick m st (r, rid, iid)).2 = None).
Proof.
  intros Hm Hr Ho. unfold tick, Apply, applyUnhealthy. rewrite Hr, Ho.
  rewrite (bool_decide_eq_true_2 _ Hm). simpl.
  destruct (tighter _ _); simpl; unfold advance, advance_open; simpl; rewrite Ho; done.
Qed.

(** The levels of the notifications of a run, and a list strictly below a bound. *)
Definition levels (ns : list NotifyEvent) : list (option Z) := ne_WarnDays <$> ns.

Fixpoint descends (bound : option Z) (l : list (option Z)) : Prop :=
  match l with
  | [] => True
  | Some x :: l' => tighter x bound = true /\ descends (Some x) l'
  | None :: _ => False
  end.

Lemma run_ssl_descends m st cs i :
  m_Type m = MonitorSSL -> all_failing cs -> as_OpenIncident st = Some i ->
  descends (as_SSLWarnedDays st) (levels (run m st cs).2).
Proof.
  intros Hm. revert st. induction cs as [|[[r rid] iid] cs IH]; intros st Hf Ho; [done|].
  inversion_clear Hf as [|? ? Hr Hf']. simpl in Hr.
  destruct (tick_ssl_open m st r rid iid i Hm Hr Ho) as [Ho1 Hn].
  specialize (IH _ Hf' Ho1). rewrite run_cons. cbn [snd].
  destruct (tighter _ _) eqn:Et; destruct Hn as [Hw Hn]; rewrite Hn; rewrite Hw in IH; simpl; auto.
Qed.

Lemma sslLevel_lower r : -1 <= sslLevel r.
Proof.
  unfold sslLevel. destruct (r_CertExpiresAt r) as [e|]; [|lia].
  rewrite SSLWarnLevel_cascade. repeat case_match; lia.
Qed.
#[export] Hint Resolve sslLevel_lower : pulse_bounds.

(** Once the stored level is -1, failing checks of the open incident notify nothing. *)
Lemma run_ssl_silent m st cs i :
  m_Type m = MonitorSSL -> all_failing cs -> as_OpenIncident st = Some i ->
  as_SSLWarnedDays st = Some (-1) -> (run m st cs).2 = [].
Proof.
  intros Hm. revert st. induction cs as [|[[r rid] iid] cs IH]; intros st Hf Ho Hw; [done|].
  inversion_clear Hf as [|? ? Hr Hf']. simpl in Hr.
  destruct (tick_ssl_open m st r rid iid i Hm Hr Ho) as [Ho1 Hn]. rewrite Hw in Hn.
  simpl tighter in Hn. rewrite (proj2 (Z.ltb_ge _ _)) in Hn by apply sslLevel_lower.
  destruct Hn as [Hw1 Hn].
  rewrite run_cons. cbn [snd]. by rewrite Hn, (IH _ Hf' Ho1 Hw1).
Qed.

(** ** Properties *)

(** C1: the engine refines the specification by history.  After any sequence of
    checks from a fresh monitor, the stored counter is the length of the
    trailing run of failures, the stored first-fail time is the time of its
    first failure, and an incident is open, with that start time, exactly when
    the run has reached the failure threshold. *)
Theorem engine_refines_history m cs :
  1 <= m_FailureThreshold m ->
  fits (rev (results_of cs)) ->
  implements m (rev (results_of cs)) (run m fresh_state cs).1.
Proof.
  intros Hth Hfit. pose proof (run_implements_aux m fresh_state [] cs Hth) as Hr.
  rewrite app_nil_r in Hr. apply Hr; [done|]. by apply fresh_implements.
Qed.

(** An http monitor's notifications alternate: from a fresh monitor, whatever
    the checks, the decided notifications are down, recovery, down, recovery, ... *)
Theorem http_notifications_alternate m cs :
  m_Type m <> MonitorSSL -> alternates false (run m fresh_state cs).2.
Proof. intros Hm. by apply (run_alternates_aux m fresh_state cs). Qed.

(** During one ssl incident the decided warnings descend strictly: for
    failing checks against an open incident, every notification carries a level
    strictly tighter than the stored one and than every earlier one, so no
    threshold is warned about twice. *)
Theorem ssl_warnings_strictly_tighten m st cs i :
  m_Type m = MonitorSSL -> all_failing cs -> as_OpenIncident st = Some i ->
  descends (as_SSLWarnedDays st) (levels (run m st cs).2).
Proof. apply run_ssl_descends. Qed.

(** A failing ssl check without a certificate silences the rest of the
    incident: once such a check is applied to an open incident, no later failing
    check of that incident is notified, at whatever expiry level. *)
Theorem ssl_connection_error_silences_expiry m st r rid iid i cs :
  m_Type m = MonitorSSL -> as_OpenIncident st = Some i ->
  r_Healthy r = false -> r_CertExpiresAt r = None -> all_failing cs ->
  (as_SSLWarnedDays st = None \/ exists w, as_SSLWarnedDays st = Some w /\ -1 <= w) ->
  (run m (tick m st (r, rid, iid)).1 cs).2 = [].
Proof.
  intros Hm Ho Hr Hc Hf Hw.
  destruct (tick_ssl_open m st r rid iid i Hm Hr Ho) as [Ho1 Hn].
  apply (run_ssl_silent m _ cs i Hm Hf Ho1).
  assert (sslLevel r = -1) as Hl by (unfold sslLevel; by rewrite Hc). rewrite Hl in Hn.
  destruct Hw as [Hw|(w & Hw & Hge)]; rewrite Hw in Hn; cbn [tighter] in Hn; [by destruct Hn|].
  destruct (-1 <? w) eqn:E; destruct Hn as [Hn _]; [done|]. reflect_tests.
  rewrite Hn. f_equal. lia.
Qed.

(** ** Witnesses *)

Definition ex_monitor (t : MonitorType) (threshold : Z) : Monitor :=
  {| m_ID := 7; m_OrgID := 1; m_Type := t; m_Name := "api"; m_URL := "https://example.com";
     m_Method := "GET"; m_Headers := []; m_Body := ""; m_ExpectedStatusCodes := "2xx";
     m_TimeoutSeconds := 10; m_IntervalSeconds := 60; m_Enabled := true; m_MaxLatencyMs := None;
     m_BodyContains := None; m_FailureThreshold := threshold; m_Regions := [region_Default];
     m_DownPolicy := DownPolicyQuorum; m_ChannelIDs := [3] |}.

Definition ex_result (at_ : Time) (healthy : bool) (cert : option Time) : CheckResult :=
  {| r_ID := 0; r_OrgID := 1; r_MonitorID := 7; r_Region := region_Default;
     r_ScheduledAt := at_; r_CheckedAt := at_; r_Healthy := healthy;
     r_FailureReason := if healthy then None else Some ReasonTimeout;
     r_StatusCode := None; r_LatencyMs := None; r_ErrorText := None;
     r_CertExpiresAt := cert; r_Snapshot := None; r_CertInfo := None |}.

Definition ex_checks : list (CheckResult * Z * Z) :=
  [(ex_result 10 true None, 1, 1); (ex_result 20 false None, 2, 1);
   (ex_result 30 false None, 3, 1); (ex_result 40 false None, 4, 2)].

Definition ex_open : Incident :=
  mkIncident 5 1 7 20 None (Some ReasonCertExpiringSoon) None None (Some 2).

(** A certificate that expires in six days, checked daily: 7, 3, 1 and then expired. *)
Definition ex_days (n : Z) : CheckResult * Z * Z := (ex_result (n * Day) false (Some (6 * Day)), n + 3, 9).
Definition ex_ssl_state : AlertState := mkAlertState 1 (Some 20) (Some ex_open) (Some 2) (Some 7).

Lemma engine_refines_history_witness :
  implements (ex_monitor MonitorHTTP 2) (rev (results_of ex_checks))
    (run (ex_monitor MonitorHTTP 2) fresh_state ex_checks).1 /\
  (run (ex_monitor MonitorHTTP 2) fresh_state ex_checks).2 = [mkNotify EventDown None].
Proof.
  split; [|vm_compute; reflexivity].
  apply (engine_refines_history (ex_monitor MonitorHTTP 2) ex_checks); vm_compute; congruence.
Defined.

Lemma http_notifications_alternate_witness :
  alternates false (run (ex_monitor MonitorHTTP 2) fresh_state ex_checks).2.
Proof. apply (http_notifications_alternate (ex_monitor MonitorHTTP 2) ex_checks). discriminate. Defined.

Lemma ssl_warnings_strictly_tighten_witness :
  descends (Some 7) (levels (run (ex_monitor MonitorSSL 1) ex_ssl_state
    [ex_days 1; ex_days 3; ex_days 4; ex_days 5; ex_days 6; ex_days 7]).2) /\
  levels (run (ex_monitor MonitorSSL 1) ex_ssl_state
    [ex_days 1; ex_days 3; ex_days 4; ex_days 5; ex_days 6; ex_days 7]).2 = [Some 3; Some 1; Some 0].
Proof.
  split; [|vm_compute; reflexivity].
  apply (ssl_warnings_strictly_tighten (ex_monitor MonitorSSL 1) ex_ssl_state
           [ex_days 1; ex_days 3; ex_days 4; ex_days 5; ex_days 6; ex_days 7] ex_open);
    [reflexivity|repeat constructor|reflexivity].
Defined.

Lemma ssl_connection_error_silences_expiry_witness :
  (run (ex_monitor MonitorSSL 1)
     (tick (ex_monitor MonitorSSL 1) ex_ssl_state (ex_result (2 * Day) false None, 4, 9)).1
     [ex_days 3; ex_days 5; ex_days 6]).2 = [].
Proof.
  apply (ssl_connection_error_silences_expiry (ex_monitor MonitorSSL 1) ex_ssl_state
           (ex_result (2 * Day) false None) 4 9 ex_open [ex_days 3; ex_days 5; ex_days 6]);
    try reflexivity; [repeat constructor|].
  right. exists 7. split; [reflexivity|lia].
Defined.
