(* ===== verification/Store.v ===== *)
(** * Store: the Postgres tables of the monitoring pipeline
    (src/internal/store/store.go, monitors.go, incidents.go)

    The tables are finite maps from the primary key to the row and every exported
    method is a transaction over them: a state-and-error computation whose tables
    are rolled back on an error while its identity sequences keep the values they
    handed out, as Postgres sequences do.  The SQL of each method is translated
    clause by clause: [ON CONFLICT] against the schema's unique indexes, the
    foreign keys to [monitors] and [check_results], the cascade of a delete.
    Transactions are atomic steps; the organizations table, row timestamps and
    the microsecond rounding of [timestamptz] are not modelled. *)

From S2P Require Import Prelude Domain.
Open Scope Z_scope.

Inductive dbError :=
  | ErrNoRows             (* pgx.ErrNoRows *)
  | ErrIncidentNotOpen
  | ErrForeignKey         (* SQLSTATE 23503 *)
  | ErrUniqueViolation    (* SQLSTATE 23505 *)
  | ErrInvalidText        (* SQLSTATE 22P05: a zero byte in a text or a JSON value *)
  | ErrCipher             (* an encrypt or decrypt failure *)
  | ErrTransient.         (* the connection, a timeout, a cancelled context *)

#[export] Instance dbError_eq_dec : EqDecision dbError.
Proof. solve_decision. Defined.

(** ** Tables *)

(** A monitors row: the monitor, with its headers as stored, and the alert columns. *)
Record MonitorRow := mkMonitorRow {
  mr_monitor : Monitor;
  mr_consecutive_fails : Z;
  mr_first_fail_at : option Time;
  mr_last_applied_result_id : option Z;
  mr_ssl_warned_days : option Z;
}.

Record DB := mkDB {
  monitors : gmap Z MonitorRow;
  check_results : gmap Z CheckResult;
  incidents : gmap Z Incident;
  annotations : gmap Z IncidentAnnotation;
  last_failures : gmap Z (Z * Time * ResponseSnapshot);
  certs : gmap Z (Z * Time * CertInfo);
  seq_monitors : Z;
  seq_results : Z;
  seq_incidents : Z;
  seq_annotations : Z;
}.

Definition empty_db : DB := mkDB ∅ ∅ ∅ ∅ ∅ ∅ 1 1 1 1.

Definition set_monitors f db := mkDB (f (monitors db)) (check_results db) (incidents db)
  (annotations db) (last_failures db) (certs db)
  (seq_monitors db) (seq_results db) (seq_incidents db) (seq_annotations db).
Definition set_results f db := mkDB (monitors db) (f (check_results db)) (incidents db)
  (annotations db) (last_failures db) (certs db)
  (seq_monitors db) (seq_results db) (seq_incidents db) (seq_annotations db).
Definition set_incidents f db := mkDB (monitors db) (check_results db) (f (incidents db))
  (annotations db) (last_failures db) (certs db)
  (seq_monitors db) (seq_results db) (seq_incidents db) (seq_annotations db).
Definition set_annotations f db := mkDB (monitors db) (check_results db) (incidents db)
  (f (annotations db)) (last_failures db) (certs db)
  (seq_monitors db) (seq_results db) (seq_incidents db) (seq_annotations db).
Definition set_last_failures f db := mkDB (monitors db) (check_results db) (incidents db)
  (annotations db) (f (last_failures db)) (certs db)
  (seq_monitors db) (seq_results db) (seq_incidents db) (seq_annotations db).
Definition set_certs f db := mkDB (monitors db) (check_results db) (incidents db)
  (annotations db) (last_failures db) (f (certs db))
  (seq_monitors db) (seq_results db) (seq_incidents db) (seq_annotations db).

(** ** The transaction monad *)

Definition Tx (A : Type) : Type := DB -> result dbError A * DB.

#[export] Instance tx_ret : MRet Tx := fun _ a db => (Ok a, db).
#[export] Instance tx_bind : MBind Tx := fun _ _ f c db =>
  match c db with
  | (Ok a, db') => f a db'
  | (Err e, db') => (Err e, db')
  end.

Definition throw {A} (e : dbError) : Tx A := fun db => (Err e, db).
Definition select {A} (q : DB -> A) : Tx A := fun db => (Ok (q db), db).
Definition exec (f : DB -> DB) : Tx unit := fun db => (Ok tt, f db).
(** A query that scans one row: no row is [pgx.ErrNoRows]. *)
Definition select_row {A} (q : DB -> option A) : Tx A := fun db =>
  match q db with Some a => (Ok a, db) | None => (Err ErrNoRows, db) end.

(** [nextval]: the identity columns draw their value before any conflict check. *)
Definition nextval_monitors : Tx Z := fun db =>
  (Ok (seq_monitors db), mkDB (monitors db) (check_results db) (incidents db) (annotations db)
    (last_failures db) (certs db) (seq_monitors db + 1) (seq_results db) (seq_incidents db)
    (seq_annotations db)).
Definition nextval_results : Tx Z := fun db =>
  (Ok (seq_results db), mkDB (monitors db) (check_results db) (incidents db) (annotations db)
    (last_failures db) (certs db) (seq_monitors db) (seq_results db + 1) (seq_incidents db)
    (seq_annotations db)).
Definition nextval_incidents : Tx Z := fun db =>
  (Ok (seq_incidents db), mkDB (monitors db) (check_results db) (incidents db) (annotations db)
    (last_failures db) (certs db) (seq_monitors db) (seq_results db) (seq_incidents db + 1)
    (seq_annotations db)).
Definition nextval_annotations : Tx Z := fun db =>
  (Ok (seq_annotations db), mkDB (monitors db) (check_results db) (incidents db) (annotations db)
    (last_failures db) (certs db) (seq_monitors db) (seq_results db) (seq_incidents db)
    (seq_annotations db + 1)).

(** A rollback restores the tables and keeps the sequences. *)
Definition rollback (before after : DB) : DB :=
  mkDB (monitors before) (check_results before) (incidents before) (annotations before)
    (last_failures before) (certs before)
    (seq_monitors after) (seq_results after) (seq_incidents after) (seq_annotations after).

(** [Pool.WithOrg]: begin, run [fn], commit, or roll back on an error.  The org
    session variable is the [org_id] comparison each statement carries. *)
Definition WithOrg {A} (fn : Tx A) : Tx A := fun db =>
  match fn db with
  | (Ok a, db') => (Ok a, db')
  | (Err e, db') => (Err e, rollback db db')
  end.

(** ** Monitor headers at rest *)

(** The [secretCipher] interface of store.go; the nonce a call draws is explicit. *)
Record secretCipher := mkCipher {
  Encrypt : Z -> string -> result dbError string;
  Decrypt : string -> result dbError string;
}.

Section headers.
Context (cipher : option secretCipher).

Definition encode_header (nonce : Z) (h : Header) : result dbError Header :=
  match cipher with
  | Some c =>
      if h_Secret h && negb (String.eqb (h_Value h) "") then
        enc ← Encrypt c nonce (h_Value h); Ok (mkHeader (h_Key h) enc (h_Secret h))
      else Ok h
  | None => Ok h
  end.

Fixpoint encodeHeaders (nonce : Z) (headers : list Header) : result dbError (list Header) :=
  match headers with
  | [] => Ok []
  | h :: hs =>
      h' ← encode_header nonce h; hs' ← encodeHeaders (nonce + 1) hs; Ok (h' :: hs')
  end.

Definition decode_header (h : Header) : result dbError Header :=
  match cipher with
  | Some c =>
      if h_Secret h && negb (String.eqb (h_Value h) "") then
        dec ← Decrypt c (h_Value h); Ok (mkHeader (h_Key h) dec (h_Secret h))
      else Ok h
  | None => Ok h
  end.

Fixpoint decodeHeaders (raw : list Header) : result dbError (list Header) :=
  match raw with
  | [] => Ok []
  | h :: hs => h' ← decode_header h; hs' ← decodeHeaders hs; Ok (h' :: hs')
  end.
End headers.

Definition with_headers (hs : list Header) (m : Monitor) : Monitor :=
  mkMonitor (m_ID m) (m_OrgID m) (m_Type m) (m_Name m) (m_URL m) (m_Method m) hs (m_Body m)
    (m_ExpectedStatusCodes m) (m_TimeoutSeconds m) (m_IntervalSeconds m) (m_Enabled m)
    (m_MaxLatencyMs m) (m_BodyContains m) (m_FailureThreshold m) (m_Regions m) (m_DownPolicy m)
    (m_ChannelIDs m).

(** The defaults CreateMonitor and UpdateMonitor fill in. *)
Definition monitor_defaults (id : Z) (m : Monitor) : Monitor :=
  mkMonitor id (m_OrgID m) (match m_Type m with MonitorUnset => MonitorHTTP | t => t end)
    (m_Name m) (m_URL m)
    (m_Method m) (m_Headers m) (m_Body m) (m_ExpectedStatusCodes m) (m_TimeoutSeconds m)
    (m_IntervalSeconds m) (m_Enabled m) (m_MaxLatencyMs m) (m_BodyContains m)
    (m_FailureThreshold m)
    (match m_Regions m with [] => [region_Default] | rs => rs end)
    (match m_DownPolicy m with DownPolicyUnset => DownPolicyQuorum | p => p end)
    (m_ChannelIDs m).

Section monitors_go.
Context (cipher : option secretCipher).

Definition scanMonitor (row : MonitorRow) : result dbError Monitor :=
  hs ← decodeHeaders cipher (m_Headers (mr_monitor row)); Ok (with_headers hs (mr_monitor row)).

Definition lift {A} (r : result dbError A) : Tx A := fun db => (r, db).

Definition CreateMonitor (nonce : Z) (m : Monitor) : Tx Z :=
  headers ← lift (encodeHeaders cipher nonce (m_Headers m));
  WithOrg (
    id ← nextval_monitors;
    exec (set_monitors (insert id
      (mkMonitorRow (with_headers headers (monitor_defaults id m)) 0 None None None))) ≫= fun _ =>
    mret id).

(** WHERE id = $1 AND org_id = $2 *)
Definition monitor_row (orgID id : Z) (db : DB) : option MonitorRow :=
  match monitors db !! id with
  | Some row => if m_OrgID (mr_monitor row) =? orgID then Some row else None
  | None => None
  end.

Definition GetMonitor (orgID id : Z) : Tx Monitor :=
  WithOrg (row ← select_row (monitor_row orgID id); lift (scanMonitor row)).

Definition UpdateMonitor (nonce : Z) (m : Monitor) : Tx Monitor :=
  headers ← lift (encodeHeaders cipher nonce (m_Headers m));
  WithOrg (
    row ← select_row (monitor_row (m_OrgID m) (m_ID m));
    let row' := mkMonitorRow (with_headers headers (monitor_defaults (m_ID m) m))
      (mr_consecutive_fails row) (mr_first_fail_at row) (mr_last_applied_result_id row)
      (mr_ssl_warned_days row) in
    exec (set_monitors (insert (m_ID m) row')) ≫= fun _ => lift (scanMonitor row')).

(** DELETE FROM monitors, with the cascades of the schema. *)
Definition cascade_monitor (id : Z) (db : DB) : DB :=
  let gone := filter (fun kv => i_MonitorID kv.2 = id) (incidents db) in
  mkDB (delete id (monitors db))
    (filter (fun kv => r_MonitorID kv.2 <> id) (check_results db))
    (filter (fun kv => i_MonitorID kv.2 <> id) (incidents db))
    (filter (fun kv => gone !! an_IncidentID kv.2 = None) (annotations db))
    (delete id (last_failures db)) (delete id (certs db))
    (seq_monitors db) (seq_results db) (seq_incidents db) (seq_annotations db).

Definition DeleteMonitor (orgID id : Z) : Tx Z :=
  WithOrg (
    row ← select (monitor_row orgID id);
    match row with
    | None => mret 0
    | Some _ => exec (cascade_monitor id) ≫= fun _ => mret 1
    end).

(** EnabledMonitor and ListEnabledMonitorsWithLastCheck: the lateral join takes
    the newest [checked_at] of the monitor's results.  Rows in primary-key
    order stand for the unspecified order of the query. *)
Record EnabledMonitor := mkEnabled { em_Monitor : Monitor; em_LastCheckedAt : option Time }.

Definition last_checked_at (id : Z) (db : DB) : option Time :=
  fold_right (fun (kv : Z * CheckResult) acc =>
    match acc with
    | Some t => Some (Z.max t (r_CheckedAt kv.2))
    | None => Some (r_CheckedAt kv.2)
    end) None (rows_where (fun r => r_MonitorID r =? id) (check_results db)).

Fixpoint scan_enabled (rows : list (Z * MonitorRow)) (db : DB) :
    result dbError (list EnabledMonitor) :=
  match rows with
  | [] => Ok []
  | (id, row) :: rows' =>
      m ← scanMonitor row; rest ← scan_enabled rows' db;
      Ok (mkEnabled m (last_checked_at id db) :: rest)
  end.

Definition ListEnabledMonitorsWithLastCheck : Tx (list EnabledMonitor) := fun db =>
  (scan_enabled (rows_where (fun row => m_Enabled (mr_monitor row)) (monitors db)) db, db).

Definition CountEnabledMonitors (orgID : Z) : Tx Z :=
  WithOrg (select (fun db =>
    rows_affected (fun row => (m_OrgID (mr_monitor row) =? orgID) && m_Enabled (mr_monitor row))
      (monitors db))).
End monitors_go.

(** ** Results and incidents (incidents.go) *)

Inductive IncidentAction := IncidentNone | IncidentOpen | IncidentClose.

Record Decision := mkStoreDecision {
  sd_Action : IncidentAction;
  sd_NewConsecutive : Z;
  sd_NewFirstFailAt : option Time;
  sd_IncidentStartedAt : Time;
  sd_CauseReason : option FailureReason;
  sd_IncidentEndedAt : Time;
  sd_NewSSLWarnedDays : option Z;
  sd_Renotify : bool;
}.

Record AppliedDecision := mkApplied {
  ad_Applied : bool;
  ad_Skipped : bool;
  ad_Incident : option Incident;
}.

(** The unique key (org_id, monitor_id, region, checked_at). *)
Definition same_result_key (r r' : CheckResult) : bool :=
  (r_OrgID r =? r_OrgID r') && (r_MonitorID r =? r_MonitorID r') &&
  String.eqb (r_Region r) (r_Region r') && (r_CheckedAt r =? r_CheckedAt r').

(** A check_results row: the columns of the table, under the id it was given. *)
Definition result_row (id : Z) (r : CheckResult) : CheckResult :=
  mkResult id (r_OrgID r) (r_MonitorID r) (r_Region r) (r_ScheduledAt r) (r_CheckedAt r)
    (r_Healthy r) (r_FailureReason r) (r_StatusCode r) (r_LatencyMs r) (r_ErrorText r)
    (r_CertExpiresAt r) None None.

(** The foreign key to monitors. *)
Definition check_monitor_fk (monitorID : Z) : Tx unit := fun db =>
  match monitors db !! monitorID with
  | Some _ => (Ok tt, db)
  | None => (Err ErrForeignKey, db)
  end.

Definition UpsertCheckResult (r : CheckResult) : Tx Z :=
  WithOrg (
    id ← nextval_results;
    existing ← select (fun db => find_row (same_result_key r) (check_results db));
    match existing with
    | Some (old, _) => mret old (* DO UPDATE SET org_id = EXCLUDED.org_id *)
    | None =>
        exec (set_results (insert id (result_row id r))) ≫= fun _ =>
        check_monitor_fk (r_MonitorID r) ≫= fun _ => mret id
    end).

Definition InsertCheckResult (r : CheckResult) : Tx unit :=
  WithOrg (
    id ← nextval_results;
    existing ← select (fun db => find_row (same_result_key r) (check_results db));
    match existing with
    | Some _ => mret tt (* DO NOTHING *)
    | None =>
        exec (set_results (insert id (result_row id r))) ≫= fun _ =>
        check_monitor_fk (r_MonitorID r)
    end).

Definition is_open_of (orgID monitorID : Z) (i : Incident) : bool :=
  (i_MonitorID i =? monitorID) && (i_OrgID i =? orgID) && bool_decide (i_EndedAt i = None).

Definition getOpenIncidentTx (orgID monitorID : Z) : Tx (option Incident) :=
  select (fun db => snd <$> find_row (is_open_of orgID monitorID) (incidents db)).

Definition scanAlertState (row : MonitorRow) : AlertState :=
  mkAlertState (mr_consecutive_fails row) (mr_first_fail_at row) None
    (mr_last_applied_result_id row) (mr_ssl_warned_days row).

Definition GetAlertState (orgID monitorID : Z) : Tx AlertState :=
  WithOrg (
    row ← select_row (monitor_row orgID monitorID);
    let s := scanAlertState row in
    open ← getOpenIncidentTx orgID monitorID;
    mret (mkAlertState (as_ConsecutiveFails s) (as_FirstFailAt s) open
            (as_LastAppliedResultID s) (as_SSLWarnedDays s))).

Definition check_result_fk (firstResultID : option Z) : Tx unit := fun db =>
  match firstResultID with
  | None => (Ok tt, db)
  | Some rid =>
      match check_results db !! rid with
      | Some _ => (Ok tt, db)
      | None => (Err ErrForeignKey, db)
      end
  end.

(** The row the open branch inserts; its id is drawn by the statement. *)
Definition opened_incident (m : Monitor) (firstResultID : Z) (d : Decision) (id : Z) : Incident :=
  {| i_ID := id; i_OrgID := m_OrgID m; i_MonitorID := m_ID m;
     i_StartedAt := sd_IncidentStartedAt d; i_EndedAt := None;
     i_CauseReason := sd_CauseReason d; i_CloseReason := None; i_ClosedBy := None;
     i_FirstResultID := if firstResultID =? 0 then None else Some firstResultID |}.

Definition closed_incident (i : Incident) (endedAt : Time) (reason : CloseReason)
    (by_ : option Z) : Incident :=
  mkIncident (i_ID i) (i_OrgID i) (i_MonitorID i) (i_StartedAt i) (Some endedAt)
    (i_CauseReason i) (Some reason) by_ (i_FirstResultID i).

(** Case IncidentOpen: INSERT ... ON CONFLICT (monitor_id) WHERE ended_at IS NULL
    DO NOTHING RETURNING id. *)
Definition apply_open (m : Monitor) (firstResultID : Z) (d : Decision) : Tx AppliedDecision :=
  newID ← nextval_incidents;
  conflict ← select (fun db =>
    find_row (fun i => (i_MonitorID i =? m_ID m) && bool_decide (i_EndedAt i = None)) (incidents db));
  match conflict with
  | Some _ => mret (mkApplied false false None)
  | None =>
      let inc := opened_incident m firstResultID d newID in
      exec (set_incidents (insert newID inc)) ≫= fun _ =>
      check_result_fk (i_FirstResultID inc) ≫= fun _ =>
      mret (mkApplied true false (Some inc))
  end.

(** Case IncidentClose: UPDATE incidents ... WHERE id = $3 AND ended_at IS NULL. *)
Definition apply_close (d : Decision) (open : option Incident) : Tx AppliedDecision :=
  match open with
  | None => mret (mkApplied false false None)
  | Some i =>
      row ← select (fun db => incidents db !! i_ID i);
      match row with
      | Some stored =>
          if bool_decide (i_EndedAt stored = None) then
            exec (set_incidents (insert (i_ID i)
              (closed_incident stored (sd_IncidentEndedAt d) CloseRecovered (i_ClosedBy stored)))) ≫= fun _ =>
            mret (mkApplied true false
              (Some (closed_incident i (sd_IncidentEndedAt d) CloseRecovered (i_ClosedBy i))))
          else mret (mkApplied false false None)
      | None => mret (mkApplied false false None)
      end
  end.

(** last_applied_result_id IS NULL OR last_applied_result_id < $3 *)
Definition newer_than_watermark (rid : Z) (row : MonitorRow) : bool :=
  match mr_last_applied_result_id row with None => true | Some w => w <? rid end.

Definition write_counters (m : Monitor) (maxResultID : Z) (d : Decision) : Tx unit :=
  exec (fun db =>
    match monitor_row (m_OrgID m) (m_ID m) db with
    | Some row =>
        if newer_than_watermark maxResultID row then
          set_monitors (insert (m_ID m)
            (mkMonitorRow (mr_monitor row) (sd_NewConsecutive d) (sd_NewFirstFailAt d)
               (Some maxResultID) (sd_NewSSLWarnedDays d))) db
        else db
    | None => db
    end).

Definition ApplyAlertDecision (m : Monitor) (maxResultID firstResultID : Z) (d : Decision) :
    Tx AppliedDecision :=
  WithOrg (
    row ← select_row (monitor_row (m_OrgID m) (m_ID m)); (* FOR UPDATE *)
    if negb (newer_than_watermark maxResultID row) then mret (mkApplied false true None)
    else
      open ← getOpenIncidentTx (m_OrgID m) (m_ID m);
      res ← match sd_Action d with
            | IncidentOpen => apply_open m firstResultID d
            | IncidentClose => apply_close d open
            | IncidentNone => mret (mkApplied false false None)
            end;
      let res' :=
        match sd_Renotify d, open with
        | true, Some i => mkApplied true (ad_Skipped res) (Some i)
        | _, _ => res
        end in
      write_counters m maxResultID d ≫= fun _ => mret res').

(** WHERE id = $1 AND org_id = $2 on incidents. *)
Definition incident_row (orgID id : Z) (db : DB) : option Incident :=
  match incidents db !! id with
  | Some i => if i_OrgID i =? orgID then Some i else None
  | None => None
  end.

Definition GetIncident (orgID id : Z) : Tx Incident :=
  WithOrg (select_row (incident_row orgID id)).

Definition ManualCloseIncident (orgID id byUserID : Z) (endedAt : Time) : Tx Incident :=
  WithOrg (
    got ← select_row (incident_row orgID id); (* FOR UPDATE *)
    match i_EndedAt got with
    | Some _ => throw ErrIncidentNotOpen
    | None =>
        let by_ := if byUserID =? 0 then None else Some byUserID in
        let closed := closed_incident got endedAt CloseManual by_ in
        exec (set_incidents (insert id closed)) ≫= fun _ => mret closed
    end).

Definition AddIncidentAnnotation (orgID incidentID authorUserID : Z) (note : string) (now : Time) :
    Tx IncidentAnnotation :=
  WithOrg (
    _inc ← select_row (incident_row orgID incidentID);
    id ← nextval_annotations;
    let a := mkAnnotation id orgID incidentID
               (if authorUserID =? 0 then None else Some authorUserID) note now in
    exec (set_annotations (insert id a)) ≫= fun _ => mret a).

(** CreateIncident (monitors.go): a plain insert, which the open-incident unique
    index and the foreign keys can refuse. *)
Definition CreateIncident (inc : Incident) : Tx Z :=
  WithOrg (
    id ← nextval_incidents;
    conflict ← select (fun db =>
      find_row (fun i => (i_MonitorID i =? i_MonitorID inc) && bool_decide (i_EndedAt i = None))
        (incidents db));
    match i_EndedAt inc, conflict with
    | None, Some _ => throw ErrUniqueViolation
    | _, _ =>
        exec (set_incidents (insert id
          (mkIncident id (i_OrgID inc) (i_MonitorID inc) (i_StartedAt inc) (i_EndedAt inc)
             (i_CauseReason inc) (i_CloseReason inc) (i_ClosedBy inc) (i_FirstResultID inc)))) ≫= fun _ =>
        check_monitor_fk (i_MonitorID inc) ≫= fun _ =>
        check_result_fk (i_FirstResultID inc) ≫= fun _ => mret id
    end).

(** The worker's per-monitor overwrites. *)
Definition UpsertMonitorLastFailure (orgID monitorID : Z) (snap : ResponseSnapshot)
    (checkedAt : Time) : Tx unit :=
  WithOrg (
    exec (set_last_failures (insert monitorID (orgID, checkedAt, snap))) ≫= fun _ =>
    check_monitor_fk monitorID).

Definition UpsertMonitorCert (orgID monitorID : Z) (c : CertInfo) (checkedAt : Time) : Tx unit :=
  WithOrg (
    exec (set_certs (insert monitorID (orgID, checkedAt, c))) ≫= fun _ =>
    check_monitor_fk monitorID).

Definition GetMonitorCert (orgID monitorID : Z) : Tx (option CertInfo) :=
  WithOrg (select (fun db =>
    match certs db !! monitorID with
    | Some (org, _, c) => if org =? orgID then Some c else None
    | None => None
    end)).
