(* ===== verification/StoreInv.v ===== *)
(** * StoreInv: the integrity of the pipeline tables

    [wf] is the integrity the schema promises: primary keys below their
    sequence, foreign keys, the unique result key, at most one open incident per
    monitor, and an incident closed exactly when it has a close reason.  Every
    transaction of [Store] preserves it, whatever decision it is handed, and
    [db_step] collects them into the reachability relation of the database. *)

From Stdlib Require Import Ascii.
From S2P Require Import Prelude Domain Store.
Open Scope Z_scope.

Record wf (db : DB) : Prop := {
  wf_seq : 1 <= seq_monitors db /\ 1 <= seq_results db /\ 1 <= seq_incidents db;
  wf_mon_id : forall k row, monitors db !! k = Some row ->
    m_ID (mr_monitor row) = k /\ 0 < k < seq_monitors db;
  wf_res_id : forall k r, check_results db !! k = Some r -> r_ID r = k /\ 0 < k < seq_results db;
  wf_inc_id : forall k i, incidents db !! k = Some i -> i_ID i = k /\ 0 < k < seq_incidents db;
  wf_res_fk : forall k r, check_results db !! k = Some r -> is_Some (monitors db !! r_MonitorID r);
  wf_inc_fk : forall k i, incidents db !! k = Some i -> is_Some (monitors db !! i_MonitorID i);
  wf_inc_org : forall k i row, incidents db !! k = Some i ->
    monitors db !! i_MonitorID i = Some row -> i_OrgID i = m_OrgID (mr_monitor row);
  wf_res_key : forall k1 k2 r1 r2, check_results db !! k1 = Some r1 ->
    check_results db !! k2 = Some r2 -> same_result_key r1 r2 = true -> k1 = k2;
  wf_one_open : forall k1 k2 i1 i2, incidents db !! k1 = Some i1 -> incidents db !! k2 = Some i2 ->
    i_MonitorID i1 = i_MonitorID i2 -> i_EndedAt i1 = None -> i_EndedAt i2 = None -> k1 = k2;
  wf_close : forall k i, incidents db !! k = Some i ->
    (i_EndedAt i = None <-> i_CloseReason i = None);
  wf_watermark : forall k row w, monitors db !! k = Some row ->
    mr_last_applied_result_id row = Some w -> w < seq_results db;
}.

(** ** Monitors rewritten in place keep the references to them *)

Lemma lookup_insert_is_Some' {V} (m : gmap Z V) k v j :
  is_Some (m !! j) -> is_Some (<[k := v]> m !! j).
Proof. rewrite lookup_insert. case_decide; eauto. Qed.
#[export] Hint Resolve lookup_insert_is_Some' : pulse.

Lemma wf_empty : wf empty_db.
Proof. split; simpl; try lia; intros *; rewrite ?lookup_empty; done. Qed.

(** Sequences only grow, so a rolled-back transaction is harmless. *)
Definition seqs_le (db db' : DB) : Prop :=
  seq_monitors db <= seq_monitors db' /\ seq_results db <= seq_results db' /\
  seq_incidents db <= seq_incidents db' /\ seq_annotations db <= seq_annotations db'.

Lemma wf_rollback db db' : wf db -> seqs_le db db' -> wf (rollback db db').
Proof.
  intros [(? & ? & ?) Hm Hr Hi ? ? ? ? ? ? Hw] (? & ? & ? & ?). split; simpl; try done.
  - lia.
  - intros k row Hk. destruct (Hm _ _ Hk). split; [done|lia].
  - intros k r Hk. destruct (Hr _ _ Hk). split; [done|lia].
  - intros k i Hk. destruct (Hi _ _ Hk). split; [done|lia].
  - intros k row w Hk Hl. specialize (Hw _ _ _ Hk Hl). lia.
Qed.

(** A transaction that keeps [wf] when it commits and never lowers a sequence. *)
Definition preserves {A} (fn : Tx A) (db : DB) : Prop :=
  match fn db with
  | (Ok _, db') => wf db'
  | (Err _, db') => seqs_le db db'
  end.

Lemma wf_WithOrg {A} (fn : Tx A) db : wf db -> preserves fn db -> wf (WithOrg fn db).2.
Proof.
  unfold preserves, WithOrg. intros Hwf Hp. destruct (fn db) as [[a|e] db']; [done|].
  by apply wf_rollback.
Qed.

Lemma seqs_le_refl db : seqs_le db db.
Proof. unfold seqs_le. lia. Qed.
#[export] Hint Resolve seqs_le_refl wf_empty : pulse.

(** ** The two table updates everything is made of *)

(** A fresh incident row, when no other is open for its monitor. *)
Lemma wf_insert_incident db i :
  wf db -> i_ID i = seq_incidents db ->
  (exists row, monitors db !! i_MonitorID i = Some row /\ i_OrgID i = m_OrgID (mr_monitor row)) ->
  (i_EndedAt i = None <-> i_CloseReason i = None) ->
  (i_EndedAt i = None -> forall k j, incidents db !! k = Some j ->
     i_MonitorID j = i_MonitorID i -> i_EndedAt j <> None) ->
  wf (set_incidents (insert (seq_incidents db) i) (nextval_incidents db).2).
Proof.
  intros [(? & ? & ?) ? ? Hi ? Hfk Horg ? Hone Hcl ?] Hid (row & Hmon & Hrow) Hclose Hno.
  split; simpl; try done; [lia|..].
  - intros k j. rewrite lookup_insert. case_decide; intros; simplify_eq; [lia|].
    edestruct Hi; [done|]. split; [done|lia].
  - intros k j. rewrite lookup_insert. case_decide; intros; simplify_eq; eauto.
  - intros k j row'. rewrite lookup_insert. case_decide; intros; simplify_eq; eauto.
  - intros k1 k2 i1 i2. rewrite !lookup_insert. do 2 case_decide; intros; simplify_eq; try done; eauto.
    + exfalso. eapply Hno; eauto.
    + exfalso. eapply Hno; eauto.
  - intros k j. rewrite lookup_insert. case_decide; intros; simplify_eq; eauto.
Qed.

(** An existing incident rewritten without reopening it. *)
Lemma wf_rewrite_incident db k i i' :
  wf db -> incidents db !! k = Some i ->
  i_ID i' = i_ID i -> i_MonitorID i' = i_MonitorID i -> i_OrgID i' = i_OrgID i ->
  (i_EndedAt i' = None <-> i_CloseReason i' = None) ->
  (i_EndedAt i' = None -> i_EndedAt i = None) ->
  wf (set_incidents (insert k i') db).
Proof.
  intros [? ? ? Hi ? Hfk Horg ? Hone Hcl ?] Hk Hid Hmon Ho Hclose Hopen.
  split; simpl; try done.
  - intros k' j. rewrite lookup_insert. case_decide; intros; simplify_eq; [|eauto].
    rewrite Hid. eauto.
  - intros k' j. rewrite lookup_insert. case_decide; intros; simplify_eq; [|eauto].
    rewrite Hmon. eauto.
  - intros k' j row. rewrite lookup_insert. case_decide; intros; simplify_eq; [|eauto].
    rewrite Ho. eapply Horg; [done|]. by rewrite <- Hmon.
  - intros k1 k2 i1 i2. rewrite !lookup_insert. do 2 case_decide; intros; simplify_eq; try done; eauto.
    + eapply Hone; eauto. congruence.
    + eapply Hone; eauto. congruence.
  - intros k' j. rewrite lookup_insert. case_decide; intros; simplify_eq; eauto.
Qed.

(** A monitor row rewritten in place, its watermark below the result sequence. *)
Lemma wf_rewrite_monitor db k row row' :
  wf db -> monitors db !! k = Some row ->
  m_ID (mr_monitor row') = k -> m_OrgID (mr_monitor row') = m_OrgID (mr_monitor row) ->
  (forall w, mr_last_applied_result_id row' = Some w -> w < seq_results db) ->
  wf (set_monitors (insert k row') db).
Proof.
  intros [? Hm ? ? Hrf Hif Horg ? ? ? Hw] Hk Hid Ho Hwm. split; simpl; try done.
  - intros k' r. rewrite lookup_insert. case_decide; intros; simplify_eq; [|eauto].
    destruct (Hm _ _ Hk). split; [done|lia].
  - eauto using lookup_insert_is_Some'.
  - eauto using lookup_insert_is_Some'.
  - intros k' j r Hj. rewrite lookup_insert. case_decide; intros; simplify_eq; [|eauto].
    rewrite Ho. eapply Horg; [done|]. congruence.
  - intros k' r w. rewrite lookup_insert. case_decide; intros; simplify_eq; eauto.
Qed.

(** A fresh result row under a key no row has. *)
Lemma wf_insert_result db r :
  wf db -> is_Some (monitors db !! r_MonitorID r) ->
  (forall k r', check_results db !! k = Some r' -> same_result_key r r' = false) ->
  wf (set_results (insert (seq_results db) (result_row (seq_results db) r)) (nextval_results db).2).
Proof.
  intros [(? & ? & ?) ? Hr ? Hrf ? ? Hkey ? ? Hw] Hmon Hno. split; simpl; try done; [lia|..].
  - intros k r'. rewrite lookup_insert. case_decide; intros; simplify_eq/=; [lia|].
    edestruct Hr; [done|]. split; [done|lia].
  - intros k r'. rewrite lookup_insert. case_decide; intros; simplify_eq/=; eauto.
  - assert (forall k r', check_results db !! k = Some r' ->
      same_result_key r' (result_row (seq_results db) r) = false) as Hno'.
    { intros k r' Hk. specialize (Hno _ _ Hk). unfold same_result_key in *. simpl.
      by rewrite (Z.eqb_sym (r_OrgID r')), (Z.eqb_sym (r_MonitorID r')),
        (Z.eqb_sym (r_CheckedAt r')), (String.eqb_sym (r_Region r')). }
    intros k1 k2 r1 r2. rewrite !lookup_insert. do 2 case_decide; intros; simplify_eq; try done; eauto.
    + assert (same_result_key r r2 = false) by eauto. unfold same_result_key in *. simpl in *. congruence.
    + assert (same_result_key r1 (result_row (seq_results db) r) = false) by eauto. congruence.
  - intros k row w Hk Hl. specialize (Hw _ _ _ Hk Hl). lia.
Qed.

(** Advancing a sequence alone. *)
Lemma wf_nextval_results db : wf db -> wf (nextval_results db).2.
Proof. intros Hwf. apply (wf_rollback db (nextval_results db).2 Hwf). unfold seqs_le; simpl; lia. Qed.
Lemma wf_nextval_incidents db : wf db -> wf (nextval_incidents db).2.
Proof. intros Hwf. apply (wf_rollback db (nextval_incidents db).2 Hwf). unfold seqs_le; simpl; lia. Qed.
#[export] Hint Resolve wf_nextval_results wf_nextval_incidents : pulse.

(** ** Transactions *)

Lemma monitor_row_Some org id db row :
  monitor_row org id db = Some row ->
  monitors db !! id = Some row /\ m_OrgID (mr_monitor row) = org.
Proof. unfold monitor_row. intros. code_cases. eauto. Qed.

(** What the incident part of a decision does to the rest of the database. *)
Definition frame_incidents (db db' : DB) : Prop :=
  monitors db' = monitors db /\ check_results db' = check_results db /\
  seq_results db' = seq_results db /\ seqs_le db db'.

Lemma apply_open_ok m rid d db :
  wf db -> (exists row, monitors db !! m_ID m = Some row /\ m_OrgID m = m_OrgID (mr_monitor row)) ->
  match apply_open m rid d db with
  | (Ok _, db') => wf db' /\ frame_incidents db db'
  | (Err _, db') => seqs_le db db'
  end.
Proof.
  intros Hwf Hm. unfold apply_open, mbind, tx_bind, select. simpl.
  destruct (find_row _ (incidents db)) as [[k j]|] eqn:Hc; simpl.
  - split; [by apply wf_nextval_incidents|]. unfold frame_incidents, seqs_le; simpl. split_and!; done || lia.
  - set (inc := opened_incident m rid d (seq_incidents db)).
    assert (wf (set_incidents (insert (seq_incidents db) inc) (nextval_incidents db).2)) as Hwf'.
    { apply wf_insert_incident; [done|done|done|done|]. intros _ k j Hj Hmon He.
      rewrite find_row_None in Hc. specialize (Hc _ _ Hj). simpl in Hmon.
      rewrite Hmon, He, Z.eqb_refl in Hc. done. }
    unfold check_result_fk. destruct (rid =? 0); simpl.
    + split; [done|]. unfold frame_incidents, seqs_le; simpl. split_and!; done || lia.
    + destruct (check_results db !! rid); simpl.
      * split; [done|]. unfold frame_incidents, seqs_le; simpl. split_and!; done || lia.
      * unfold seqs_le; simpl. lia.
Qed.

Lemma getOpenIncident_spec org mid db i :
  (getOpenIncidentTx org mid db).1 = Ok (Some i) -> wf db ->
  incidents db !! i_ID i = Some i /\ i_MonitorID i = mid /\ i_OrgID i = org /\ i_EndedAt i = None.
Proof.
  unfold getOpenIncidentTx, select. simpl. intros Hq Hwf.
  destruct (find_row _ _) as [[k j]|] eqn:Hf; simplify_eq/=.
  apply find_row_Some in Hf as [Hk Hp]. unfold is_open_of in Hp. reflect_tests.
  destruct (wf_inc_id _ Hwf _ _ Hk) as [-> _]. done.
Qed.

Lemma apply_close_ok d db open :
  wf db ->
  (forall i, open = Some i -> incidents db !! i_ID i = Some i) ->
  match apply_close d open db with
  | (Ok _, db') => wf db' /\ frame_incidents db db'
  | (Err _, _) => False
  end.
Proof.
  intros Hwf Ho. unfold apply_close. destruct open as [i|]; simpl.
  - specialize (Ho _ eq_refl). unfold mbind, tx_bind, select. rewrite Ho.
    case_bool_decide as He; simpl.
    + split; [|unfold frame_incidents, seqs_le; simpl; split_and!; done || lia].
      by eapply wf_rewrite_incident.
    + split; [done|]. unfold frame_incidents, seqs_le. split_and!; done || lia.
  - split; [done|]. unfold frame_incidents, seqs_le. split_and!; done || lia.
Qed.

Lemma write_counters_ok m rid d db :
  wf db -> rid < seq_results db -> wf (write_counters m rid d db).2.
Proof.
  intros Hwf Hrid. unfold write_counters, exec. simpl.
  destruct (monitor_row _ _ db) as [row|] eqn:Hrow; [|done].
  destruct (newer_than_watermark rid row); [|done].
  apply monitor_row_Some in Hrow as [Hrow _].
  eapply wf_rewrite_monitor; [done|done|by apply (wf_mon_id _ Hwf) in Hrow as [? _]|done|].
  simpl. intros w [= ->]. done.
Qed.

Lemma wf_ApplyAlertDecision m rid first d db :
  wf db -> rid < seq_results db -> wf (ApplyAlertDecision m rid first d db).2.
Proof.
  intros Hwf Hrid. apply wf_WithOrg; [done|]. unfold preserves, mbind, tx_bind, select_row.
  destruct (monitor_row _ _ db) as [row|] eqn:Hrow; [|apply seqs_le_refl].
  destruct (newer_than_watermark rid row); simpl; [|done].
  assert (forall i, snd <$> find_row (is_open_of (m_OrgID m) (m_ID m)) (incidents db) = Some i ->
    incidents db !! i_ID i = Some i) as Hopen.
  { intros i Hi. eapply getOpenIncident_spec; [|done]. unfold getOpenIncidentTx, select. simpl.
    by rewrite Hi. }
  set (open := snd <$> find_row _ _) in *. clearbody open.
  apply monitor_row_Some in Hrow as [Hrow Horg].
  destruct (sd_Action d).
  - by apply write_counters_ok.
  - pose proof (apply_open_ok m first d db Hwf ltac:(eauto)) as Ha.
    destruct (apply_open m first d db) as [[res|e] db']; [|done].
    destruct Ha as [Hwf' (_ & _ & Hs & _)]. apply write_counters_ok; [done|]. by rewrite Hs.
  - pose proof (apply_close_ok d db open Hwf Hopen) as Ha.
    destruct (apply_close d open db) as [[res|e] db']; [|done].
    destruct Ha as [Hwf' (_ & _ & Hs & _)]. apply write_counters_ok; [done|]. by rewrite Hs.
Qed.

Lemma wf_UpsertCheckResult r db : wf db -> wf (UpsertCheckResult r db).2.
Proof.
  intros Hwf. apply wf_WithOrg; [done|]. unfold preserves, mbind, tx_bind, select. simpl.
  destruct (find_row _ (check_results db)) as [[old r']|] eqn:Hf; simpl.
  - by apply wf_nextval_results.
  - unfold check_monitor_fk. simpl. destruct (monitors db !! r_MonitorID r) eqn:Hm; simpl.
    + apply wf_insert_result; [done|eauto|]. by apply find_row_None.
    + unfold seqs_le; simpl; lia.
Qed.

Lemma wf_InsertCheckResult r db : wf db -> wf (InsertCheckResult r db).2.
Proof.
  intros Hwf. apply wf_WithOrg; [done|]. unfold preserves, mbind, tx_bind, select. simpl.
  destruct (find_row _ (check_results db)) as [[old r']|] eqn:Hf; simpl.
  - by apply wf_nextval_results.
  - unfold check_monitor_fk. simpl. destruct (monitors db !! r_MonitorID r) eqn:Hm; simpl.
    + apply wf_insert_result; [done|eauto|]. by apply find_row_None.
    + unfold seqs_le; simpl; lia.
Qed.

Lemma incident_row_Some org id db i :
  incident_row org id db = Some i -> incidents db !! id = Some i /\ i_OrgID i = org.
Proof. unfold incident_row. intros. code_cases. eauto. Qed.

Lemma wf_ManualCloseIncident org id by_ t db : wf db -> wf (ManualCloseIncident org id by_ t db).2.
Proof.
  intros Hwf. apply wf_WithOrg; [done|]. unfold preserves, mbind, tx_bind, select_row.
  destruct (incident_row org id db) as [i|] eqn:Hi; [|apply seqs_le_refl].
  apply incident_row_Some in Hi as [Hi _].
  destruct (i_EndedAt i) eqn:He; simpl; [apply seqs_le_refl|].
  by eapply wf_rewrite_incident.
Qed.

Lemma wf_AddIncidentAnnotation org iid a note t db :
  wf db -> wf (AddIncidentAnnotation org iid a note t db).2.
Proof.
  intros Hwf. apply wf_WithOrg; [done|]. unfold preserves, mbind, tx_bind, select_row.
  destruct (incident_row org iid db) as [i|]; simpl; [|apply seqs_le_refl].
  destruct Hwf. by split.
Qed.

Lemma wf_CreateIncident i db :
  (i_EndedAt i = None <-> i_CloseReason i = None) ->
  (forall row, monitors db !! i_MonitorID i = Some row -> i_OrgID i = m_OrgID (mr_monitor row)) ->
  wf db -> wf (CreateIncident i db).2.
Proof.
  intros Hcl Horg Hwf. apply wf_WithOrg; [done|].
  unfold preserves, mbind, tx_bind, select, check_monitor_fk, check_result_fk. simpl.
  set (c := find_row _ (incidents db)).
  assert (seqs_le db (nextval_incidents db).2) as Hs by (unfold seqs_le; simpl; lia).
  destruct (i_EndedAt i) eqn:He; [|destruct c eqn:Hc; simpl; [done|]]; simpl;
    (destruct (monitors db !! i_MonitorID i) eqn:Hm; simpl; [|done]);
    (destruct (i_FirstResultID i) as [rid|]; simpl; [destruct (check_results db !! rid); simpl; [|done]|]);
    (apply wf_insert_incident; simpl; [done|done|by eauto|done|]; try done;
     intros _ k j Hj Hmon He'; subst c; rewrite find_row_None in Hc; specialize (Hc _ _ Hj);
     by rewrite Hmon, He', Z.eqb_refl in Hc).
Qed.

Lemma wf_CreateMonitor cipher n m db : wf db -> wf (CreateMonitor cipher n m db).2.
Proof.
  intros Hwf. unfold CreateMonitor, mbind, tx_bind, lift. destruct (encodeHeaders _ _ _); [|done].
  apply wf_WithOrg; [done|]. unfold preserves. simpl.
  destruct Hwf as [(? & ? & ?) Hm ? ? Hrf Hif Horg ? ? ? Hw]. split; simpl; try done; [lia|..].
  - intros k row. rewrite lookup_insert. case_decide; intros; simplify_eq/=; [split; [done|lia]|].
    edestruct Hm; [done|]. split; [done|lia].
  - eauto using lookup_insert_is_Some'.
  - eauto using lookup_insert_is_Some'.
  - intros k i row Hi. rewrite lookup_insert. case_decide as Heq; [|eauto].
    destruct (Hif _ _ Hi) as [r0 Hr0]. destruct (Hm _ _ Hr0). lia.
  - intros k row w. rewrite lookup_insert. case_decide; intros; simplify_eq/=; eauto.
Qed.

Lemma wf_UpdateMonitor cipher n m db : wf db -> wf (UpdateMonitor cipher n m db).2.
Proof.
  intros Hwf. unfold UpdateMonitor, mbind at 1, tx_bind at 1, lift. destruct (encodeHeaders _ _ _); [|done].
  apply wf_WithOrg; [done|]. unfold preserves, mbind, tx_bind, select_row.
  destruct (monitor_row _ _ db) as [row|] eqn:Hrow; simpl; [|apply seqs_le_refl].
  apply monitor_row_Some in Hrow as [Hrow Ho].
  unfold lift, scanMonitor, mbind, result_bind; simpl. destruct (decodeHeaders cipher a); simpl; [|unfold seqs_le; simpl; lia].
  eapply wf_rewrite_monitor; [done|done|done|by rewrite Ho|]. intros w Hw. simpl in Hw.
  by eapply wf_watermark.
Qed.

Lemma wf_cascade_monitor id db : wf db -> wf (cascade_monitor id db).
Proof.
  intros [? Hm Hr Hi Hrf Hif Horg Hkey Hone Hcl Hw]. split; simpl; try done.
  - intros k row [_ Hk]%lookup_delete_Some. eauto.
  - intros k r [Hk _]%map_lookup_filter_Some. eauto.
  - intros k i [Hk _]%map_lookup_filter_Some. eauto.
  - intros k r [Hk Hne]%map_lookup_filter_Some. simpl in Hne. rewrite lookup_delete_ne by done. eauto.
  - intros k i [Hk Hne]%map_lookup_filter_Some. simpl in Hne. rewrite lookup_delete_ne by done. eauto.
  - intros k i row [Hk _]%map_lookup_filter_Some [_ Hr']%lookup_delete_Some. eauto.
  - intros k1 k2 r1 r2 [? _]%map_lookup_filter_Some [? _]%map_lookup_filter_Some. eauto.
  - intros k1 k2 i1 i2 [? _]%map_lookup_filter_Some [? _]%map_lookup_filter_Some. eauto.
  - intros k i [Hk _]%map_lookup_filter_Some. eauto.
  - intros k row w [_ Hk]%lookup_delete_Some. eauto.
Qed.

Lemma wf_DeleteMonitor org id db : wf db -> wf (DeleteMonitor org id db).2.
Proof.
  intros Hwf. apply wf_WithOrg; [done|]. unfold preserves, mbind, tx_bind, select.
  destruct (monitor_row org id db); simpl; [|done]. by apply wf_cascade_monitor.
Qed.

(** ** Reachable databases *)

Inductive db_step (cipher : option secretCipher) : DB -> DB -> Prop :=
  | step_create_monitor n m db : db_step cipher db (CreateMonitor cipher n m db).2
  | step_update_monitor n m db : db_step cipher db (UpdateMonitor cipher n m db).2
  | step_delete_monitor org id db : db_step cipher db (DeleteMonitor org id db).2
  | step_upsert_result r db : db_step cipher db (UpsertCheckResult r db).2
  | step_insert_result r db : db_step cipher db (InsertCheckResult r db).2
  | step_apply_decision m rid first d db :
      rid < seq_results db -> (* the id came from an upsert *)
      db_step cipher db (ApplyAlertDecision m rid first d db).2
  | step_manual_close org id by_ t db : db_step cipher db (ManualCloseIncident org id by_ t db).2
  | step_annotate org iid a note t db : db_step cipher db (AddIncidentAnnotation org iid a note t db).2
  | step_create_incident i db :
      (i_EndedAt i = None <-> i_CloseReason i = None) ->
      (forall row, monitors db !! i_MonitorID i = Some row -> i_OrgID i = m_OrgID (mr_monitor row)) ->
      db_step cipher db (CreateIncident i db).2.

Lemma wf_step cipher db db' : db_step cipher db db' -> wf db -> wf db'.
Proof.
  destruct 1; eauto using wf_CreateMonitor, wf_UpdateMonitor, wf_DeleteMonitor,
    wf_UpsertCheckResult, wf_InsertCheckResult, wf_ApplyAlertDecision, wf_ManualCloseIncident,
    wf_AddIncidentAnnotation, wf_CreateIncident.
Qed.

Lemma wf_reachable cipher db : rtc (db_step cipher) empty_db db -> wf db.
Proof.
  intros Hr. assert (wf empty_db) as Hwf by apply wf_empty.
  induction Hr; eauto using wf_step.
Qed.

(** ** Idempotence of the result write *)

Lemma upsert_existing r db k r' :
  wf db -> check_results db !! k = Some r' -> same_result_key r r' = true ->
  UpsertCheckResult r db = (Ok k, (nextval_results db).2).
Proof.
  intros Hwf Hk Hkey. unfold UpsertCheckResult, WithOrg, mbind, tx_bind, select. simpl.
  rewrite (find_row_unique (same_result_key r) (check_results db) k r'); [done|done|done|].
  intros k' r'' Hk' Hkey'. eapply (wf_res_key _ Hwf); [done|done|].
  unfold same_result_key in *. reflect_tests.
  repeat match goal with H : String.eqb _ _ = true |- _ => apply String.eqb_eq in H end.
  rewrite !andb_true_iff, !Z.eqb_eq, String.eqb_eq. split_and!; congruence.
Qed.

Lemma same_result_key_refl id r : same_result_key r (result_row id r) = true.
Proof. unfold same_result_key. simpl. by rewrite !Z.eqb_refl, String.eqb_refl. Qed.

(** What a successful upsert leaves: the row of that key under the returned id. *)
Lemma upsert_ok r db id db' :
  wf db -> UpsertCheckResult r db = (Ok id, db') ->
  (exists r', check_results db' !! id = Some r' /\ same_result_key r r' = true) /\
  0 < id < seq_results db' /\ monitors db' = monitors db /\ incidents db' = incidents db /\
  wf db'.
Proof.
  intros Hwf Hu. pose proof (wf_UpsertCheckResult r db Hwf) as Hwf'. rewrite Hu in Hwf'.
  simpl in Hwf'.
  assert ((exists r', check_results db' !! id = Some r' /\ same_result_key r r' = true) /\
          monitors db' = monitors db /\ incidents db' = incidents db) as (Hex & ? & ?).
  { revert Hu. unfold UpsertCheckResult, WithOrg, mbind, tx_bind, select, check_monitor_fk. simpl.
    destruct (find_row _ (check_results db)) as [[old r']|] eqn:Hf; simpl.
    - intros [= <- <-]. apply find_row_Some in Hf. simpl. eauto.
    - destruct (monitors db !! r_MonitorID r); simpl; [|done]. intros [= <- <-]. simpl.
      split; [|done]. eexists. split; [apply lookup_insert_eq|]. apply same_result_key_refl. }
  destruct Hex as (r' & Hr' & Hk). split; [eauto|]. split; [|done].
  destruct (wf_res_id _ Hwf' _ _ Hr'). lia.
Qed.

(** ** The watermark *)

Lemma apply_stale m rid first d db row :
  monitor_row (m_OrgID m) (m_ID m) db = Some row -> newer_than_watermark rid row = false ->
  ApplyAlertDecision m rid first d db = (Ok (mkApplied false true None), db).
Proof.
  intros Hrow Hn. unfold ApplyAlertDecision, WithOrg, mbind, tx_bind, select_row.
  by rewrite Hrow, Hn.
Qed.

(** ** Headers at rest *)

(** What the store relies on of the cipher (AES-256-GCM with a random nonce,
    base64 of nonce, ciphertext and tag): decryption inverts encryption and a
    ciphertext is not empty. *)
Class CipherLaws (c : secretCipher) : Prop := {
  decrypt_encrypt : forall n p e, Encrypt c n p = Ok e -> Decrypt c e = Ok p;
  encrypt_nonempty : forall n p e, Encrypt c n p = Ok e -> e <> "";
}.

Lemma decode_encode_header c `{!CipherLaws c} n h h' :
  encode_header (Some c) n h = Ok h' -> decode_header (Some c) h' = Ok h.
Proof.
  unfold encode_header, decode_header. destruct (h_Secret h && _) eqn:Hs.
  - intros He. apply result_bind_ok in He as (e & He & [= <-]). simpl. reflect_tests.
    rewrite H, (proj2 (String.eqb_neq e "") (encrypt_nonempty _ _ _ He)). simpl.
    rewrite (decrypt_encrypt _ _ _ He). destruct h; simpl in *. congruence.
  - intros [= <-]. by rewrite Hs.
Qed.

Lemma decode_encode_headers cipher n hs hs' :
  (forall c, cipher = Some c -> CipherLaws c) ->
  encodeHeaders cipher n hs = Ok hs' -> decodeHeaders cipher hs' = Ok hs.
Proof.
  intros Hlaws. revert n hs'. induction hs as [|h hs IH]; intros n hs'; simpl.
  - by intros [= <-].
  - intros He. apply result_bind_ok in He as (h' & Hh & He).
    apply result_bind_ok in He as (hs0 & Hhs & [= <-]). simpl.
    assert (decode_header cipher h' = Ok h) as ->.
    { destruct cipher as [c|]; [|by inversion Hh]. pose proof (Hlaws c eq_refl). by eapply decode_encode_header. }
    simpl. by rewrite (IH _ _ Hhs).
Qed.

(** ** Properties *)

(** C3: at most one open incident per monitor, in every database the store's
    transactions can reach, under any interleaving of alerting rounds (with any
    decision), manual closes, monitor edits and deletes. *)
Theorem at_most_one_open_incident cipher db k1 k2 i1 i2 :
  rtc (db_step cipher) empty_db db ->
  incidents db !! k1 = Some i1 -> incidents db !! k2 = Some i2 ->
  i_MonitorID i1 = i_MonitorID i2 -> i_EndedAt i1 = None -> i_EndedAt i2 = None ->
  k1 = k2 /\ i1 = i2.
Proof.
  intros Hr H1 H2 Hm He1 He2. pose proof (wf_reachable _ _ Hr) as Hwf.
  assert (k1 = k2) as -> by (by eapply (wf_one_open _ Hwf)). by simplify_eq.
Qed.

(** Every transaction of the store preserves the integrity of the tables:
    keys below their sequence, foreign keys, the unique result key, one open
    incident per monitor, closed exactly when a close reason is set, watermarks
    below the result sequence. *)
Theorem store_preserves_integrity cipher db db' :
  db_step cipher db db' -> wf db -> wf db'.
Proof. apply wf_step. Qed.

(** The result write is idempotent: writing a result whose key was already
    written returns the id of the existing row and leaves every table as it was. *)
Theorem upsert_idempotent r db id db' :
  wf db -> UpsertCheckResult r db = (Ok id, db') ->
  exists db'', UpsertCheckResult r db' = (Ok id, db'') /\
    check_results db'' = check_results db' /\ monitors db'' = monitors db' /\
    incidents db'' = incidents db'.
Proof.
  intros Hwf Hu. destruct (upsert_ok _ _ _ _ Hwf Hu) as ((r' & Hr' & Hk) & _ & _ & _ & Hwf').
  exists (nextval_results db').2. split; [by eapply upsert_existing|done].
Qed.

(** Secret headers round-trip through the store: with a cipher that
    decrypts what it encrypts to a non-empty text (or with no cipher), creating
    a monitor and reading it back in its org returns its headers in clear, with
    the defaults filled in. *)
Theorem create_get_monitor_roundtrip cipher n m db id db' :
  (forall c, cipher = Some c -> CipherLaws c) ->
  CreateMonitor cipher n m db = (Ok id, db') ->
  (GetMonitor cipher (m_OrgID m) id db').1 = Ok (monitor_defaults id m).
Proof.
  intros Hlaws. unfold CreateMonitor, mbind, tx_bind, lift.
  destruct (encodeHeaders cipher n (m_Headers m)) as [hs|] eqn:He; [|done]. simpl.
  intros [= <- <-]. unfold GetMonitor, WithOrg, mbind, tx_bind, select_row, monitor_row, lift. simpl.
  rewrite lookup_insert_eq. simpl. rewrite Z.eqb_refl. unfold scanMonitor. simpl.
  by rewrite (decode_encode_headers cipher n _ _ Hlaws He).
Qed.

(** A manual close succeeds exactly on an open incident of the org: an
    unknown id (or another org's) is ErrNoRows, a closed incident is
    ErrIncidentNotOpen and nothing changes, and on success the stored row is the
    returned one, closed as manual with the given time and user. *)
Theorem manual_close_spec org id by_ t db :
  match ManualCloseIncident org id by_ t db with
  | (Ok i, db') =>
      (exists i0, incidents db !! id = Some i0 /\ i_OrgID i0 = org /\ i_EndedAt i0 = None /\
         i_StartedAt i = i_StartedAt i0) /\
      incidents db' = <[id := i]> (incidents db) /\ monitors db' = monitors db /\
      i_EndedAt i = Some t /\ i_CloseReason i = Some CloseManual /\
      i_ClosedBy i = (if by_ =? 0 then None else Some by_)
  | (Err e, db') =>
      db' = db /\
      ((e = ErrNoRows /\ incident_row org id db = None) \/
       (e = ErrIncidentNotOpen /\ exists i0, incident_row org id db = Some i0 /\ i_EndedAt i0 <> None))
  end.
Proof.
  unfold ManualCloseIncident, WithOrg, mbind, tx_bind, select_row.
  destruct (incident_row org id db) as [i0|] eqn:Hi; simpl.
  - destruct (i_EndedAt i0) eqn:He; simpl.
    + split; [by destruct db|]. right. split; [done|]. exists i0. by rewrite He.
    + apply incident_row_Some in Hi as [Hi Ho]. split_and!; eauto 10.
  - split; [by destruct db|]. auto.
Qed.

(** ** Witnesses *)

(** A toy cipher that satisfies the laws: a marker in front of the clear text. *)
Definition ex_cipher : secretCipher :=
  mkCipher (fun _ p => Ok (String "#"%char p))
    (fun c => match c with String "#"%char p => Ok p | _ => Err ErrCipher end).

#[export] Instance ex_cipher_laws : CipherLaws ex_cipher.
Proof. split; intros n p e [= <-]; done. Qed.

Definition ex_stored_monitor : Monitor :=
  mkMonitor 0 1 MonitorUnset "api" "https://example.com" "GET"
    [mkHeader "Authorization" "Bearer t" true; mkHeader "Accept" "text/plain" false] ""
    "2xx" 10 60 true None None 2 [] DownPolicyUnset [].

Definition ex_db1 : DB := (CreateMonitor (Some ex_cipher) 0 ex_stored_monitor empty_db).2.

Definition ex_check : CheckResult :=
  mkResult 0 1 1 "eu-central" 90 100 false (Some ReasonTimeout) None None None None None None.

Definition ex_db2 : DB := (UpsertCheckResult ex_check ex_db1).2.

Definition ex_open_decision : Decision := mkStoreDecision IncidentOpen 1 (Some 100) 100
  (Some ReasonTimeout) 0 None false.

Definition ex_db3 : DB :=
  (ApplyAlertDecision (mr_monitor (default (mkMonitorRow ex_stored_monitor 0 None None None)
     (monitors ex_db1 !! 1))) 1 1 ex_open_decision ex_db2).2.

Lemma ex_db3_reachable : rtc (db_step (Some ex_cipher)) empty_db ex_db3.
Proof.
  eapply rtc_l; [apply (step_create_monitor _ 0 ex_stored_monitor)|].
  eapply rtc_l; [apply (step_upsert_result _ ex_check)|].
  apply rtc_once. apply step_apply_decision. vm_compute. reflexivity.
Defined.

Definition ex_incident1 : Incident :=
  mkIncident 1 1 1 100 None (Some ReasonTimeout) None None (Some 1).

Lemma at_most_one_open_incident_witness :
  incidents ex_db3 !! 1 = Some ex_incident1 /\ (1 = 1 /\ ex_incident1 = ex_incident1).
Proof.
  split; [vm_compute; reflexivity|].
  apply (at_most_one_open_incident (Some ex_cipher) ex_db3 1 1 ex_incident1 ex_incident1);
    [apply ex_db3_reachable|vm_compute; reflexivity..].
Defined.

Lemma store_preserves_integrity_witness : wf (UpsertCheckResult ex_check empty_db).2.
Proof.
  apply (store_preserves_integrity None empty_db); [apply step_upsert_result|apply wf_empty].
Defined.

Lemma upsert_idempotent_witness :
  exists db'', UpsertCheckResult ex_check ex_db2 = (Ok 1, db'') /\
    check_results db'' = check_results ex_db2 /\ monitors db'' = monitors ex_db2 /\
    incidents db'' = incidents ex_db2.
Proof.
  apply (upsert_idempotent ex_check ex_db1 1 ex_db2).
  - apply (wf_CreateMonitor (Some ex_cipher) 0 ex_stored_monitor empty_db wf_empty).
  - vm_compute. reflexivity.
Defined.

Lemma create_get_monitor_roundtrip_witness :
  (GetMonitor (Some ex_cipher) 1 1 ex_db1).1 = Ok (monitor_defaults 1 ex_stored_monitor) /\
  m_Headers (mr_monitor (default (mkMonitorRow ex_stored_monitor 0 None None None)
    (monitors ex_db1 !! 1))) =
    [mkHeader "Authorization" "#Bearer t" true; mkHeader "Accept" "text/plain" false].
Proof.
  split; [|vm_compute; reflexivity].
  apply (create_get_monitor_roundtrip (Some ex_cipher) 0 ex_stored_monitor empty_db 1 ex_db1).
  - intros c [= <-]. apply ex_cipher_laws.
  - reflexivity.
Defined.
