(* ===== verification/Crypto.v ===== *)
(** * Crypto: the cipher of the secret columns, opaque tokens and base64
    (src/internal/crypto/crypto.go, src/internal/authn/token.go; encoding/base64 of Go)

    The key of the configuration is decoded and checked, a secret is stored as base64 of nonce,
    ciphertext and tag.  AES-256-GCM and SHA-256 are parameters; the store's [secretCipher] is an
    instance, and its laws follow from those of the AEAD. *)

From S2P Require Import Prelude GoStrings Store StoreInv.
Open Scope Z_scope.

(** ** base64 *)

Definition b64_char (n : N) : ascii :=
  ascii_of_N (if (n <? 26)%N then 65 + n else if (n <? 52)%N then 71 + n else if (n <? 62)%N then n - 4 else if (n =? 62)%N then 43 else 47).

(** [StdEncoding.EncodeToString]. *)
Fixpoint base64_encode (l : list ascii) : string :=
  match l with
  | [] => ""
  | [a] =>
      let x := (N_of_ascii a * 65536)%N in
      String (b64_char (x / 262144)) (String (b64_char (x / 4096 mod 64)) "==")
  | [a; b] =>
      let x := (N_of_ascii a * 65536 + N_of_ascii b * 256)%N in
      String (b64_char (x / 262144)) (String (b64_char (x / 4096 mod 64)) (String (b64_char (x / 64 mod 64)) "="))
  | a :: b :: c :: l' =>
      let x := (N_of_ascii a * 65536 + N_of_ascii b * 256 + N_of_ascii c)%N in
      String (b64_char (x / 262144)) (String (b64_char (x / 4096 mod 64))
        (String (b64_char (x / 64 mod 64)) (String (b64_char (x mod 64)) (base64_encode l'))))
  end.

(** [RawURLEncoding.EncodeToString]. *)
Definition url_char (n : N) : ascii := if (n =? 62)%N then "-"%char else if (n =? 63)%N then "_"%char else b64_char n.
Fixpoint base64url (l : list ascii) : string :=
  match l with
  | [] => ""
  | [a] => let x := (N_of_ascii a * 16)%N in String (url_char (x / 64)) (String (url_char (x mod 64)) "")
  | [a; b] =>
      let x := ((N_of_ascii a * 256 + N_of_ascii b) * 4)%N in
      String (url_char (x / 4096)) (String (url_char (x / 64 mod 64)) (String (url_char (x mod 64)) ""))
  | a :: b :: c :: l' =>
      let x := (N_of_ascii a * 65536 + N_of_ascii b * 256 + N_of_ascii c)%N in
      String (url_char (x / 262144)) (String (url_char (x / 4096 mod 64))
        (String (url_char (x / 64 mod 64)) (String (url_char (x mod 64)) (base64url l'))))
  end.

Definition in_range (lo hi n : N) : bool := (lo <=? n)%N && (n <=? hi)%N.
(** The value of a character; [c62] and [c63] are the two the encodings differ in. *)
Definition b64_value (c62 c63 a : ascii) : option N :=
  let n := N_of_ascii a in
  if in_range 65 90 n then Some (n - 65)%N
  else if in_range 97 122 n then Some (n - 71)%N
  else if in_range 48 57 n then Some (n + 4)%N
  else if Ascii.eqb a c62 then Some 62%N
  else if Ascii.eqb a c63 then Some 63%N
  else None.

Definition bytes3 (x : N) : list ascii := [ascii_of_N (x / 65536); ascii_of_N (x / 256 mod 256); ascii_of_N (x mod 256)].
Definition quantum (v0 v1 v2 v3 : N) : N := (v0 * 262144 + v1 * 4096 + v2 * 64 + v3)%N.

Section decode.
Context (value : ascii -> option N) (pad : bool).

(** A last group that is short: padded to four characters, or cut where there is no padding.  As in
    Go, its unused bits are not looked at. *)
Definition short_group (l : list ascii) : option (list ascii) :=
  let two a b := v0 ← value a; v1 ← value b; Some (take 1 (bytes3 (quantum v0 v1 0 0))) in
  let three a b c := v0 ← value a; v1 ← value b; v2 ← value c; Some (take 2 (bytes3 (quantum v0 v1 v2 0))) in
  match l with
  | [a; b] => if pad then None else two a b
  | [a; b; c] => if pad then None else three a b c
  | [a; b; c; d] =>
      if pad && Ascii.eqb d "="%char then (if Ascii.eqb c "="%char then two a b else three a b c) else None
  | _ => None
  end.

Fixpoint decode_groups (l : list ascii) : option (list ascii) :=
  match l with
  | [] => Some []
  | a :: b :: c :: d :: l' =>
      match value a, value b, value c, value d with
      | Some v0, Some v1, Some v2, Some v3 => r ← decode_groups l'; Some (bytes3 (quantum v0 v1 v2 v3) ++ r)
      | _, _, _, _ => short_group l
      end
  | _ => short_group l
  end.

(** Line breaks are skipped. *)
Definition decode_base64 (s : string) : option (list ascii) :=
  decode_groups (filter (fun a => negb (byte_is 10 a || byte_is 13 a) = true) (list_ascii_of_string s)).
End decode.

(** [StdEncoding.DecodeString], [RawURLEncoding.DecodeString]. *)
Definition base64_decode : string -> option (list ascii) := decode_base64 (b64_value "+" "/") true.
Definition base64url_decode : string -> option (list ascii) := decode_base64 (b64_value "-" "_") false.

(** ** Tokens *)

(** [None] is a failing random source. *)
Definition newOpaqueToken (b : option (list ascii)) : option string := base64url <$> b.

(** [authn.NewCSRFToken]. *)
Definition NewCSRFToken : option (list ascii) -> option string := newOpaqueToken.

Definition HashToken (sha256 : string -> string) (token : string) : string := EncodeToString (sha256 token).

(** ** The cipher *)

(** [cipher.AEAD] of a key, on bytes: the nonce is an argument of [Seal] and [Open]. *)
Record AEAD := mkAEAD {
  NonceSize : nat;
  Seal : list ascii -> list ascii -> list ascii;
  Open_ : list ascii -> list ascii -> option (list ascii);
}.

(** What AES-GCM promises: opening inverts sealing, and a sealed text is no shorter than the clear one. *)
Class AEADLaws (a : AEAD) : Prop := {
  open_seal : forall n p, length n = NonceSize a -> Open_ a n (Seal a n p) = Some p;
  seal_length : forall n p, (length p <= length (Seal a n p))%nat;
  nonce_positive : (0 < NonceSize a)%nat;
}.

Section cipher.
(** [aes.NewCipher] and [cipher.NewGCM]. *)
Context (NewGCM : list ascii -> option AEAD).

Inductive keyError := KeyEmpty | KeyNotBase64 | KeyLength (n : nat) | KeyCipher.

Definition LoadKey (b64 : string) : result keyError AEAD :=
  if String.eqb b64 "" then Err KeyEmpty
  else
    match base64_decode b64 with
    | None => Err KeyNotBase64
    | Some key =>
        if negb (Nat.eqb (length key) 32) then Err (KeyLength (length key))
        else match NewGCM key with None => Err KeyCipher | Some a => Ok a end
    end.
End cipher.

(** The nonce drawn, if the random source answers. *)
Definition Cipher_Encrypt (a : AEAD) (nonce : option (list ascii)) (plaintext : string) : result dbError string :=
  match nonce with
  | None => Err ErrCipher
  | Some n => Ok (base64_encode (n ++ Seal a n (list_ascii_of_string plaintext)))
  end.

Definition Cipher_Decrypt (a : AEAD) (encoded : string) : result dbError string :=
  match base64_decode encoded with
  | None => Err ErrCipher
  | Some raw =>
      if (length raw <? NonceSize a)%nat then Err ErrCipher
      else
        match Open_ a (take (NonceSize a) raw) (drop (NonceSize a) raw) with
        | None => Err ErrCipher
        | Some p => Ok (string_of_list_ascii p)
        end
  end.

(** The cipher the store is given ([SetCipher]); [random] is the nonce of a call. *)
Definition pool_cipher (a : AEAD) (random : Z -> option (list ascii)) : secretCipher :=
  mkCipher (fun n p => Cipher_Encrypt a (random n) p) (Cipher_Decrypt a).

(** ** Round trips *)

#[local] Ltac Zify.zify_post_hook ::= Z.to_euclidean_division_equations.

(** A boolean property of the 64 values, by evaluation. *)
Lemma check_64 (P : N -> bool) : forallb P (N.of_nat <$> seq 0 64) = true -> forall n, (n < 64)%N -> P n = true.
Proof.
  rewrite List.forallb_forall. intros HP n Hn. apply HP, list_elem_of_In, list_elem_of_fmap. exists (N.to_nat n).
  split; [by rewrite N2Nat.id|]. apply elem_of_seq. lia.
Qed.

Lemma value_char n : (n < 64)%N -> b64_value "+" "/" (b64_char n) = Some n.
Proof. intros Hn. pose proof (check_64 (fun n => bool_decide (b64_value "+" "/" (b64_char n) = Some n)) eq_refl n Hn) as Hc. by apply bool_decide_eq_true in Hc. Qed.
Lemma value_url_char n : (n < 64)%N -> b64_value "-" "_" (url_char n) = Some n.
Proof. intros Hn. pose proof (check_64 (fun n => bool_decide (b64_value "-" "_" (url_char n) = Some n)) eq_refl n Hn) as Hc. by apply bool_decide_eq_true in Hc. Qed.

Definition no_break (a : ascii) : bool := negb (byte_is 10 a || byte_is 13 a).
Lemma char_no_break n : (n < 64)%N -> no_break (b64_char n) = true.
Proof. by apply (check_64 (fun n => no_break (b64_char n))). Qed.
Lemma url_char_no_break n : (n < 64)%N -> no_break (url_char n) = true.
Proof. by apply (check_64 (fun n => no_break (url_char n))). Qed.

Lemma char_no_pad n : (n < 64)%N -> Ascii.eqb (b64_char n) "=" = false.
Proof. intros Hn. apply negb_true_iff. by apply (check_64 (fun n => negb (Ascii.eqb (b64_char n) "="))). Qed.

Lemma byte_bound a : (N_of_ascii a < 256)%N.
Proof. apply N_ascii_bounded. Qed.

(** Three bytes are the four values of their group. *)
Lemma quantum_split x : (x < 16777216)%N -> quantum (x / 262144) (x / 4096 mod 64) (x / 64 mod 64) (x mod 64) = x.
Proof. unfold quantum. intros Hx. lia. Qed.

Lemma bytes3_join a b c : bytes3 (N_of_ascii a * 65536 + N_of_ascii b * 256 + N_of_ascii c) = [a; b; c].
Proof.
  pose proof (byte_bound a). pose proof (byte_bound b). pose proof (byte_bound c). unfold bytes3.
  replace ((N_of_ascii a * 65536 + N_of_ascii b * 256 + N_of_ascii c) / 65536)%N with (N_of_ascii a) by lia.
  replace ((N_of_ascii a * 65536 + N_of_ascii b * 256 + N_of_ascii c) / 256 mod 256)%N with (N_of_ascii b) by lia.
  replace ((N_of_ascii a * 65536 + N_of_ascii b * 256 + N_of_ascii c) mod 256)%N with (N_of_ascii c) by lia.
  by rewrite !ascii_N_embedding.
Qed.

Lemma list_ind3 {A} (P : list A -> Prop) :
  P [] -> (forall a, P [a]) -> (forall a b, P [a; b]) -> (forall a b c l, P l -> P (a :: b :: c :: l)) -> forall l, P l.
Proof.
  intros H0 H1 H2 H3. fix IH 1. intros [|a [|b [|c l]]]; [exact H0|apply H1|apply H2|apply H3, IH].
Qed.

Section groups.
Context (value : ascii -> option N) (pad : bool) (char : N -> ascii).
Context (Hval : forall n, (n < 64)%N -> value (char n) = Some n).

Lemma decode_group x l :
  (x < 16777216)%N ->
  decode_groups value pad (char (x / 262144) :: char (x / 4096 mod 64) :: char (x / 64 mod 64) :: char (x mod 64) :: l) =
  (r ← decode_groups value pad l; Some (bytes3 x ++ r)).
Proof using Hval.
  intros Hx. cbn [decode_groups]. rewrite !Hval by lia. by rewrite quantum_split.
Qed.
End groups.

(** One byte and two bytes, filled up with zeroes. *)
Lemma take1_byte a x : x = (N_of_ascii a * 65536)%N -> take 1 (bytes3 x) = [a].
Proof. intros ->. pose proof (bytes3_join a zero zero) as Hb. cbn in Hb. rewrite !N.add_0_r in Hb. by rewrite Hb. Qed.
Lemma take2_bytes a b x : x = (N_of_ascii a * 65536 + N_of_ascii b * 256)%N -> take 2 (bytes3 x) = [a; b].
Proof. intros ->. pose proof (bytes3_join a b zero) as Hb. cbn in Hb. rewrite !N.add_0_r in Hb. by rewrite Hb. Qed.

Lemma encode_decode_groups l : decode_groups (b64_value "+" "/") true (list_ascii_of_string (base64_encode l)) = Some l.
Proof.
  induction l as [|a|a b|a b c l IH] using list_ind3; [done|..].
  - pose proof (byte_bound a). cbn [base64_encode list_ascii_of_string decode_groups]. cbv zeta.
    rewrite !value_char by lia. change (b64_value "+" "/" "=") with (@None N). unfold short_group. cbn [Ascii.eqb andb Bool.eqb].
    rewrite !value_char by lia. cbn [mbind option_bind]. f_equal. apply take1_byte. unfold quantum. lia.
  - pose proof (byte_bound a). pose proof (byte_bound b). cbn [base64_encode list_ascii_of_string decode_groups]. cbv zeta.
    rewrite !value_char by lia. change (b64_value "+" "/" "=") with (@None N). unfold short_group. rewrite char_no_pad by lia.
    cbn [Ascii.eqb andb Bool.eqb]. rewrite !value_char by lia. cbn [mbind option_bind]. f_equal. apply take2_bytes. unfold quantum. lia.
  - pose proof (byte_bound a). pose proof (byte_bound b). pose proof (byte_bound c). cbn [base64_encode list_ascii_of_string]. cbv zeta.
    rewrite (decode_group _ _ b64_char value_char) by lia. rewrite IH. cbn [mbind option_bind]. by rewrite bytes3_join.
Qed.

Lemma url_decode_groups l : decode_groups (b64_value "-" "_") false (list_ascii_of_string (base64url l)) = Some l.
Proof.
  induction l as [|a|a b|a b c l IH] using list_ind3; [done|..].
  - pose proof (byte_bound a). cbn [base64url list_ascii_of_string decode_groups short_group]. cbv zeta.
    rewrite !value_url_char by lia. cbn [mbind option_bind]. f_equal. apply take1_byte. unfold quantum. lia.
  - pose proof (byte_bound a). pose proof (byte_bound b). cbn [base64url list_ascii_of_string decode_groups short_group]. cbv zeta.
    rewrite !value_url_char by lia. cbn [mbind option_bind]. f_equal. apply take2_bytes. unfold quantum. lia.
  - pose proof (byte_bound a). pose proof (byte_bound b). pose proof (byte_bound c). cbn [base64url list_ascii_of_string]. cbv zeta.
    rewrite (decode_group _ _ url_char value_url_char) by lia. rewrite IH. cbn [mbind option_bind]. by rewrite bytes3_join.
Qed.

Lemma encode_no_break l : Forall (fun a => no_break a = true) (list_ascii_of_string (base64_encode l)).
Proof.
  induction l as [|a|a b|a b c l IH] using list_ind3; cbn [base64_encode list_ascii_of_string]; cbv zeta; [by constructor|..];
    pose proof (byte_bound a); try pose proof (byte_bound b); try pose proof (byte_bound c);
    repeat (apply Forall_cons; split; [first [done|apply char_no_break; lia]|]); done.
Qed.
Lemma url_no_break l : Forall (fun a => no_break a = true) (list_ascii_of_string (base64url l)).
Proof.
  induction l as [|a|a b|a b c l IH] using list_ind3; cbn [base64url list_ascii_of_string]; cbv zeta; [by constructor|..];
    pose proof (byte_bound a); try pose proof (byte_bound b); try pose proof (byte_bound c);
    repeat (apply Forall_cons; split; [apply url_char_no_break; lia|]); done.
Qed.

Theorem base64_roundtrip l : base64_decode (base64_encode l) = Some l.
Proof. unfold base64_decode, decode_base64. rewrite filter_all by apply encode_no_break. apply encode_decode_groups. Qed.

Theorem base64url_roundtrip l : base64url_decode (base64url l) = Some l.
Proof. unfold base64url_decode, decode_base64. rewrite filter_all by apply url_no_break. apply url_decode_groups. Qed.

(** The cipher of the store keeps the promise the store relies on. *)
#[export] Instance pool_cipher_laws a random :
  AEADLaws a -> (forall k n, random k = Some n -> length n = NonceSize a) -> CipherLaws (pool_cipher a random).
Proof.
  intros Ha Hr. split; intros k p e; cbn [Encrypt Decrypt pool_cipher]; unfold Cipher_Encrypt; destruct (random k) as [n|] eqn:Hn; [|done| |done];
    intros [= <-]; specialize (Hr k n Hn).
  - unfold Cipher_Decrypt. rewrite base64_roundtrip, length_app. rewrite (proj2 (Nat.ltb_ge _ _)) by lia.
    rewrite take_app_length', drop_app_length' by done. rewrite open_seal by done. by rewrite string_of_list_ascii_of_string.
  - destruct n as [|x n]; [pose proof nonce_positive; simpl in Hr; lia|]. cbn [app base64_encode].
    destruct (n ++ Seal a (x :: n) _) as [|y [|z l]]; discriminate.
Qed.

Lemma encode_length l : (length l <= String.length (base64_encode l))%nat.
Proof. induction l as [|a|a b|a b c l IH] using list_ind3; cbn [length base64_encode String.length]; cbv zeta; lia. Qed.

(** A ciphertext is longer than its clear text, so it never equals it. *)
Lemma encrypted_differs a n p e : AEADLaws a -> length n = NonceSize a -> Cipher_Encrypt a (Some n) p = Ok e -> e <> p.
Proof.
  intros Ha Hn [= <-] He. pose proof (encode_length (n ++ Seal a n (list_ascii_of_string p))) as Hl. rewrite He, length_app in Hl.
  pose proof (seal_length n (list_ascii_of_string p)). pose proof nonce_positive.
  assert (length (list_ascii_of_string p) = String.length p) by (clear; induction p; simpl; congruence). lia.
Qed.

(** A toy AEAD that satisfies the laws: the nonce is repeated in the tag. *)
Definition ex_aead : AEAD :=
  mkAEAD 2 (fun n p => n ++ p) (fun n c => if bool_decide (take 2 c = n) then Some (drop 2 c) else None).
#[export] Instance ex_aead_laws : AEADLaws ex_aead.
Proof.
  split; cbn [NonceSize ex_aead Seal Open_]; [|intros; rewrite length_app; lia|lia].
  intros n p Hn. rewrite take_app_length', drop_app_length' by done. by rewrite bool_decide_eq_true_2.
Qed.
