(* ===== verification/AlertingService.v ===== *)
(** * AlertingService: from check results to incidents and notify events
    (src/internal/alerting/service.go, src/internal/events/events.go)

    [AlertStore] is the service's [Store] interface.  [handle] is written against
    it, as in the source, and runs over any implementation: the database of
    [Store] ([db_store]) and any implementation wrapped with a schedule of
    failures ([faulty_store]): an operation that is not carried out, or that is and
    loses its answer.  A handler invocation returns the error
    that leaves the record for redelivery, the new store state and the events it
    put on the notify topic. *)

From S2P Require Import Prelude Domain Alerting Store StoreInv.
Open Scope Z_scope.

(** ** Events on the bus (events.go) *)

Record CheckResultEvent := mkCheckResultEvent {
  cre_JobID : string;
  cre_ScheduledAt : Time;
  cre_Result : CheckResult;
}.

Record NotifyMessage := mkNotifyMessage {
  nm_OrgID : Z;
  nm_MonitorID : Z;
  nm_IncidentID : Z;
  nm_EventType : NotifyEventType;
  nm_DedupKey : string;
  nm_MonitorName : string;
  nm_MonitorURL : string;
  nm_MonitorMethod : string;
  nm_IncidentStartedAt : Time;
  nm_IncidentEndedAt : option Time;
  nm_DurationSeconds : option Z;
  nm_Check : CheckResult;
  nm_ChannelIDs : list Z;
  nm_RegionsObserved : list string;
  nm_SentAt : Time;
}.

Definition event_type_string (t : NotifyEventType) : string :=
  match t with EventDown => "down" | EventRecovery => "recovery" end.

(** ** The Store interface *)

Class AlertStore (S : Type) := {
  st_UpsertCheckResult : CheckResult -> S -> result dbError Z * S;
  st_GetMonitor : Z -> Z -> S -> result dbError Monitor * S;
  st_GetAlertState : Z -> Z -> S -> result dbError AlertState * S;
  st_ApplyAlertDecision :
    Monitor -> Z -> Z -> Store.Decision -> S -> result dbError AppliedDecision * S;
}.

(** ** The service *)

Definition reduceToVerdict (res : CheckResult) (resultID : Z) : CheckResult * Z := (res, resultID).

Definition toStoreDecision (d : Alerting.Decision) : Store.Decision :=
  mkStoreDecision
    (match d_Action d with
     | ActionOpenIncident => IncidentOpen
     | ActionCloseIncident => IncidentClose
     | ActionNone => IncidentNone
     end)
    (d_NewConsecutive d) (d_NewFirstFailAt d) (d_IncidentStartedAt d) (d_CauseReason d)
    (d_IncidentEndedAt d) (d_NewSSLWarnedDays d) (d_Renotify d).

(** [res := ev.Result; res.ScheduledAt = ev.ScheduledAt], and the id the upsert sets. *)
Definition with_scheduled (t : Time) (r : CheckResult) : CheckResult :=
  mkResult (r_ID r) (r_OrgID r) (r_MonitorID r) (r_Region r) t (r_CheckedAt r) (r_Healthy r)
    (r_FailureReason r) (r_StatusCode r) (r_LatencyMs r) (r_ErrorText r) (r_CertExpiresAt r)
    (r_Snapshot r) (r_CertInfo r).
Definition with_id (id : Z) (r : CheckResult) : CheckResult :=
  mkResult id (r_OrgID r) (r_MonitorID r) (r_Region r) (r_ScheduledAt r) (r_CheckedAt r)
    (r_Healthy r) (r_FailureReason r) (r_StatusCode r) (r_LatencyMs r) (r_ErrorText r)
    (r_CertExpiresAt r) (r_Snapshot r) (r_CertInfo r).

Section service.
(** The hex of SHA-256, and the wall clock the service stamps messages with. *)
Context (sha256hex : string -> string) (now : Time).

Definition dedup_preimage (incidentID : Z) (eventType : string) (warnDays : option Z) : string :=
  pretty incidentID +:+ ":" +:+ eventType +:+
  match warnDays with Some w => ":" +:+ pretty w | None => "" end.

Definition dedupKey (incidentID : Z) (eventType : string) (warnDays : option Z) : string :=
  sha256hex (dedup_preimage incidentID eventType warnDays).

(** The message [emit] builds.  [int(d.Seconds())] is the whole seconds of the
    outage (exact below the 97 days where float64 drops the nanoseconds). *)
Definition notify_message (m : Monitor) (inc : Incident) (verdict : CheckResult)
    (kind : NotifyEventType) (warnDays : option Z) : NotifyMessage :=
  {| nm_OrgID := m_OrgID m; nm_MonitorID := m_ID m; nm_IncidentID := i_ID inc;
     nm_EventType := kind;
     nm_DedupKey := dedupKey (i_ID inc) (event_type_string kind) warnDays;
     nm_MonitorName := m_Name m; nm_MonitorURL := m_URL m; nm_MonitorMethod := m_Method m;
     nm_IncidentStartedAt := i_StartedAt inc; nm_IncidentEndedAt := i_EndedAt inc;
     nm_DurationSeconds :=
       match kind, i_EndedAt inc with
       | EventRecovery, Some e => Some (Z.quot (e - i_StartedAt inc) Second)
       | _, _ => None
       end;
     nm_Check := verdict; nm_ChannelIDs := m_ChannelIDs m;
     nm_RegionsObserved :=
       match kind with
       | EventDown => if String.eqb (r_Region verdict) "" then [] else [r_Region verdict]
       | EventRecovery => []
       end;
     nm_SentAt := now |}.

(** [emit]: a produce failure is logged and swallowed. *)
Definition emit (produce_ok : bool) (msg : NotifyMessage) : list NotifyMessage :=
  if produce_ok then [msg] else [].

Context {S : Type} `{!AlertStore S}.

(** Step 5 and 6 of [handle]: persist the decision, then emit. *)
Definition handle_decision (produce_ok : bool) (m : Monitor) (verdict : CheckResult)
    (maxResultID resultID : Z) (decision : Alerting.Decision) (s : S) :
    result dbError unit * S * list NotifyMessage :=
  match st_ApplyAlertDecision m maxResultID resultID (toStoreDecision decision) s with
  | (Err e, s') => (Err e, s', [])
  | (Ok applied, s') =>
      if ad_Skipped applied then (Ok tt, s', [])
      else
        match d_Notify decision, ad_Applied applied, ad_Incident applied with
        | Some n, true, Some inc =>
            (Ok tt, s', emit produce_ok (notify_message m inc verdict (ne_Type n) (ne_WarnDays n)))
        | _, _, _ => (Ok tt, s', [])
        end
  end.

(** Steps 2 to 6, once the result row is durable. *)
Definition handle_result (produce_ok : bool) (res : CheckResult) (resultID : Z) (s : S) :
    result dbError unit * S * list NotifyMessage :=
  match st_GetMonitor (r_OrgID res) (r_MonitorID res) s with
  | (Err ErrNoRows, s') => (Ok tt, s', [])
  | (Err e, s') => (Err e, s', [])
  | (Ok m, s') =>
      let '(verdict, maxResultID) := reduceToVerdict res resultID in
      match st_GetAlertState (m_OrgID m) (m_ID m) s' with
      | (Err ErrNoRows, s'') => (Ok tt, s'', [])
      | (Err e, s'') => (Err e, s'', [])
      | (Ok state, s'') =>
          handle_decision produce_ok m verdict maxResultID resultID (Apply m verdict state) s''
      end
  end.

(** [handle]; [None] is a payload that does not unmarshal, dropped as poison. *)
Definition handle (produce_ok : bool) (rec : option CheckResultEvent) (s : S) :
    result dbError unit * S * list NotifyMessage :=
  match rec with
  | None => (Ok tt, s, [])
  | Some ev =>
      let res := with_scheduled (cre_ScheduledAt ev) (cre_Result ev) in
      match st_UpsertCheckResult res s with
      | (Err e, s') => (Err e, s', [])
      | (Ok resultID, s') => handle_result produce_ok (with_id resultID res) resultID s'
      end
  end.
End service.

(** ** Implementations of the interface *)

#[export] Instance db_store (cipher : option secretCipher) : AlertStore DB := {
  st_UpsertCheckResult := UpsertCheckResult;
  st_GetMonitor := GetMonitor cipher;
  st_GetAlertState := GetAlertState;
  st_ApplyAlertDecision := ApplyAlertDecision;
}.

(** A store whose calls may fail: the schedule says, call by call, whether it answers, fails before
    it is carried out, or is carried out and its answer is lost. *)
Inductive Fault := Answers | FailsBefore | AnswerLost.

Record Faulty (S : Type) := mkFaulty { f_store : S; f_faults : list Fault }.
Arguments mkFaulty {S} _ _.
Arguments f_store {S} _.
Arguments f_faults {S} _.

Definition guarded {S A} (op : S -> result dbError A * S) (s : Faulty S) : result dbError A * Faulty S :=
  match f_faults s with
  | FailsBefore :: fs => (Err ErrTransient, mkFaulty (f_store s) fs)
  | AnswerLost :: fs => (Err ErrTransient, mkFaulty (op (f_store s)).2 fs)
  | fs =>
      let '(r, s') := op (f_store s) in (r, mkFaulty s' (tail fs))
  end.

#[export] Instance faulty_store {S} `{!AlertStore S} : AlertStore (Faulty S) := {
  st_UpsertCheckResult r := guarded (st_UpsertCheckResult r);
  st_GetMonitor org id := guarded (st_GetMonitor org id);
  st_GetAlertState org id := guarded (st_GetAlertState org id);
  st_ApplyAlertDecision m mx fr d := guarded (st_ApplyAlertDecision m mx fr d);
}.

(** At-least-once delivery: the record is handed to the handler until it
    returns without an error. *)
Fixpoint deliver {S} `{!AlertStore S} (sha : string -> string) (now : Time) (fuel : nat)
    (rec : option CheckResultEvent) (s : S) : result dbError unit * S * list NotifyMessage :=
  match fuel with
  | O => (Err ErrTransient, s, [])
  | Datatypes.S fuel' =>
      match handle sha now true rec s with
      | (Ok u, s', msgs) => (Ok u, s', msgs)
      | (Err _, s', msgs) =>
          let '(r, s'', msgs') := deliver sha now fuel' rec s' in (r, s'', msgs ++ msgs')
      end
  end.

(** ** Databases that agree up to the result sequence *)

(** Redelivering a result draws values from the result sequence and changes
    nothing else, so the service is stated up to that. *)
Definition same_tables (db1 db2 : DB) : Prop :=
  monitors db1 = monitors db2 /\ check_results db1 = check_results db2 /\
  incidents db1 = incidents db2 /\ annotations db1 = annotations db2 /\
  last_failures db1 = last_failures db2 /\ certs db1 = certs db2 /\
  seq_monitors db1 = seq_monitors db2 /\ seq_incidents db1 = seq_incidents db2 /\
  seq_annotations db1 = seq_annotations db2.

#[export] Instance same_tables_equiv : Equivalence same_tables.
Proof.
  split.
  - intros db. unfold same_tables. done.
  - intros db1 db2. unfold same_tables. intuition congruence.
  - intros db1 db2 db3. unfold same_tables. intuition congruence.
Qed.

(** A database is its tables and its result sequence. *)
Lemma same_tables_repr db1 db2 :
  same_tables db1 db2 ->
  db1 = mkDB (monitors db2) (check_results db2) (incidents db2) (annotations db2)
          (last_failures db2) (certs db2) (seq_monitors db2) (seq_results db1)
          (seq_incidents db2) (seq_annotations db2).
Proof. intros (? & ? & ? & ? & ? & ? & ? & ? & ?). destruct db1; simpl in *; congruence. Qed.

(** Two outcomes that agree up to the result sequence. *)
Definition same_outcome {A} (o1 o2 : result dbError A * DB) : Prop :=
  o1.1 = o2.1 /\ same_tables o1.2 o2.2.

Lemma same_outcome_WithOrg {A} (fn : Tx A) db1 db2 :
  same_tables db1 db2 -> same_outcome (fn db1) (fn db2) ->
  same_outcome (WithOrg fn db1) (WithOrg fn db2).
Proof.
  intros Hs [Hr Ht]. unfold WithOrg, same_outcome in *.
  destruct (fn db1) as [r1 db1'], (fn db2) as [r2 db2']. simpl in *. subst r2.
  destruct r1; simpl; [done|]. split; [done|].
  unfold same_tables, rollback in *. simpl. intuition congruence.
Qed.

Lemma same_tables_GetMonitor cipher org id db1 db2 :
  same_tables db1 db2 -> same_outcome (GetMonitor cipher org id db1) (GetMonitor cipher org id db2).
Proof.
  intros Hs. apply same_outcome_WithOrg; [done|].
  rewrite (same_tables_repr _ _ Hs). unfold same_outcome, mbind, tx_bind, select_row, monitor_row.
  simpl. by destruct (monitors db2 !! id) as [row|]; [destruct (_ =? _)|].
Qed.

Lemma same_tables_GetAlertState org id db1 db2 :
  same_tables db1 db2 -> same_outcome (GetAlertState org id db1) (GetAlertState org id db2).
Proof.
  intros Hs. apply same_outcome_WithOrg; [done|].
  rewrite (same_tables_repr _ _ Hs). unfold same_outcome, mbind, tx_bind, select_row, monitor_row.
  simpl. by destruct (monitors db2 !! id) as [row|]; [destruct (_ =? _)|].
Qed.

Lemma same_outcome_bind {A B} (c : Tx A) (f : A -> Tx B) db1 db2 :
  same_outcome (c db1) (c db2) ->
  (forall a db1' db2', same_tables db1' db2' -> same_outcome (f a db1') (f a db2')) ->
  same_outcome ((c ≫= f) db1) ((c ≫= f) db2).
Proof.
  unfold same_outcome, mbind, tx_bind. intros [Hr Ht] Hf.
  destruct (c db1) as [r1 db1'], (c db2) as [r2 db2']. simpl in *. subst r2.
  destruct r1; simpl; [by apply Hf|done].
Qed.

Lemma same_tables_apply_open m first d db1 db2 :
  same_tables db1 db2 -> same_outcome (apply_open m first d db1) (apply_open m first d db2).
Proof.
  intros Hs. rewrite (same_tables_repr _ _ Hs).
  unfold apply_open, same_outcome, mbind, tx_bind, select, check_result_fk. simpl.
  destruct (find_row _ (incidents db2)); simpl; [done|].
  destruct (first =? 0); simpl; [done|]. by destruct (check_results db2 !! first).
Qed.

Lemma same_tables_apply_close d open db1 db2 :
  same_tables db1 db2 -> same_outcome (apply_close d open db1) (apply_close d open db2).
Proof.
  intros Hs. rewrite (same_tables_repr _ _ Hs).
  unfold apply_close, same_outcome, mbind, tx_bind, select. destruct open as [i|]; simpl; [|done].
  destruct (incidents db2 !! i_ID i); simpl; [|done]. by case_bool_decide.
Qed.

Lemma same_tables_write_counters m rid d db1 db2 :
  same_tables db1 db2 -> same_outcome (write_counters m rid d db1) (write_counters m rid d db2).
Proof.
  intros Hs. rewrite (same_tables_repr _ _ Hs).
  unfold write_counters, exec, same_outcome, monitor_row. simpl.
  destruct (monitors db2 !! m_ID m) as [row|]; [|done]. destruct (_ =? _); [|done].
  by destruct (newer_than_watermark rid row).
Qed.

Lemma same_tables_ApplyAlertDecision m rid first d db1 db2 :
  same_tables db1 db2 ->
  same_outcome (ApplyAlertDecision m rid first d db1) (ApplyAlertDecision m rid first d db2).
Proof.
  intros Hs. apply same_outcome_WithOrg; [done|]. apply same_outcome_bind.
  { rewrite (same_tables_repr _ _ Hs). unfold same_outcome, select_row, monitor_row. simpl.
    destruct (monitors db2 !! m_ID m); [|done]. by destruct (_ =? _). }
  intros row db1' db2' Hs'. destruct (newer_than_watermark rid row); simpl; [|done].
  apply same_outcome_bind.
  { by rewrite (same_tables_repr _ _ Hs'). }
  intros open db1'' db2'' Hs''. apply same_outcome_bind.
  { destruct (sd_Action d);
      [done|by apply same_tables_apply_open|by apply same_tables_apply_close]. }
  intros res dba dbb Hab. apply same_outcome_bind; [by apply same_tables_write_counters|done].
Qed.

(** The handler past the upsert, likewise. *)
Definition same_handled (o1 o2 : result dbError unit * DB * list NotifyMessage) : Prop :=
  o1.1.1 = o2.1.1 /\ same_tables o1.1.2 o2.1.2 /\ o1.2 = o2.2.

Lemma same_tables_handle_result sha now cipher ok res rid db1 db2 :
  same_tables db1 db2 ->
  same_handled (handle_result (S:=DB) (AlertStore0:=db_store cipher) sha now ok res rid db1)
    (handle_result (S:=DB) (AlertStore0:=db_store cipher) sha now ok res rid db2).
Proof.
  intros Hs. unfold handle_result. simpl.
  destruct (same_tables_GetMonitor cipher (r_OrgID res) (r_MonitorID res) _ _ Hs) as [Hr Ht].
  destruct (GetMonitor _ _ _ db1) as [r1 dba], (GetMonitor _ _ _ db2) as [r2 dbb]. simpl in *. subst r2.
  destruct r1 as [m|e]; [|by destruct e].
  destruct (same_tables_GetAlertState (m_OrgID m) (m_ID m) _ _ Ht) as [Hr' Ht'].
  destruct (GetAlertState _ _ dba) as [r1 dba'], (GetAlertState _ _ dbb) as [r2 dbb']. simpl in *. subst r2.
  destruct r1 as [st|e]; [|by destruct e].
  unfold handle_decision. simpl.
  destruct (same_tables_ApplyAlertDecision m rid rid (toStoreDecision (Apply m res st)) _ _ Ht') as [Hr'' Ht''].
  destruct (ApplyAlertDecision _ _ _ _ dba') as [r1 x], (ApplyAlertDecision _ _ _ _ dbb') as [r2 y].
  simpl in *. subst r2. destruct r1 as [ap|e]; [|done]. destruct (ad_Skipped ap); [done|].
  by destruct (d_Notify _), (ad_Applied ap), (ad_Incident ap).
Qed.

(** Reads do not change the store. *)
Lemma GetMonitor_state cipher org id db : (GetMonitor cipher org id db).2 = db.
Proof.
  unfold GetMonitor, WithOrg, mbind, tx_bind, select_row, lift.
  destruct (monitor_row org id db); simpl; [|by destruct db].
  destruct (scanMonitor _ _); [done|by destruct db].
Qed.

Lemma GetAlertState_state org id db : (GetAlertState org id db).2 = db.
Proof.
  unfold GetAlertState, WithOrg, mbind, tx_bind, select_row.
  by destruct (monitor_row org id db); simpl; [|destruct db].
Qed.

(** ** One round against the database is one step of the engine's machine *)

Definition open_of (org mid : Z) (incs : gmap Z Incident) : option Incident :=
  snd <$> find_row (is_open_of org mid) incs.

(** What [GetAlertState] reads of a monitor row. *)
Definition state_of_row (org mid : Z) (row : MonitorRow) (incs : gmap Z Incident) : AlertState :=
  mkAlertState (mr_consecutive_fails row) (mr_first_fail_at row) (open_of org mid incs)
    (mr_last_applied_result_id row) (mr_ssl_warned_days row).

Definition alert_state (org mid : Z) (db : DB) : option AlertState :=
  row ← monitor_row org mid db; Some (state_of_row org mid row (incidents db)).

Lemma GetAlertState_eq org mid db :
  (GetAlertState org mid db).1 =
  match alert_state org mid db with Some st => Ok st | None => Err ErrNoRows end.
Proof.
  unfold GetAlertState, WithOrg, mbind, tx_bind, select_row, alert_state.
  by destruct (monitor_row org mid db).
Qed.

(** The unique index sees an open incident exactly when the org-scoped read does. *)
Lemma open_of_None org mid db row :
  wf db -> monitor_row org mid db = Some row -> open_of org mid (incidents db) = None ->
  find_row (fun i => (i_MonitorID i =? mid) && bool_decide (i_EndedAt i = None)) (incidents db) = None.
Proof.
  intros Hwf Hrow Ho. apply monitor_row_Some in Hrow as [Hrow Horg].
  unfold open_of in Ho. rewrite fmap_None in Ho. apply find_row_None. intros k i Hi.
  rewrite find_row_None in Ho. specialize (Ho _ _ Hi). unfold is_open_of in Ho.
  destruct (i_MonitorID i =? mid) eqn:Hm; [|done]. simpl in *. apply Z.eqb_eq in Hm.
  assert (i_OrgID i = org) as Hio.
  { rewrite <- Horg. eapply (wf_inc_org _ Hwf); [done|]. by rewrite Hm. }
  by rewrite Hio, Z.eqb_refl in Ho.
Qed.

Lemma open_of_Some org mid db i :
  wf db -> open_of org mid (incidents db) = Some i ->
  incidents db !! i_ID i = Some i /\ i_MonitorID i = mid /\ i_OrgID i = org /\ i_EndedAt i = None.
Proof.
  intros Hwf Ho. apply (getOpenIncident_spec org mid db); [|done].
  unfold getOpenIncidentTx, select. simpl. fold (open_of org mid (incidents db)). by rewrite Ho.
Qed.

(** The open incident after inserting one, and after closing it. *)
Lemma open_of_insert org mid db i row :
  wf db -> monitor_row org mid db = Some row -> open_of org mid (incidents db) = None ->
  i_MonitorID i = mid -> i_OrgID i = org -> i_EndedAt i = None ->
  open_of org mid (<[seq_incidents db := i]> (incidents db)) = Some i.
Proof.
  intros Hwf Hrow Ho Hm Hg He. unfold open_of.
  rewrite (find_row_unique _ _ (seq_incidents db) i); [done| | |].
  - apply lookup_insert_eq.
  - unfold is_open_of. rewrite Hm, Hg, He, !Z.eqb_refl. done.
  - intros k j. rewrite lookup_insert. case_decide as Hk; [done|]. intros Hj Hp.
    unfold open_of in Ho. rewrite fmap_None, find_row_None in Ho.
    by rewrite (Ho _ _ Hj) in Hp.
Qed.

Lemma open_of_close org mid db i i' :
  wf db -> open_of org mid (incidents db) = Some i -> i_EndedAt i' <> None ->
  open_of org mid (<[i_ID i := i']> (incidents db)) = None.
Proof.
  intros Hwf Ho He. destruct (open_of_Some _ _ _ _ Hwf Ho) as (Hi & Hm & Hg & Hn).
  unfold open_of. rewrite fmap_None, find_row_None. intros k j. rewrite lookup_insert.
  case_decide as Hk; intros Hj; simplify_eq; unfold is_open_of.
  - rewrite (bool_decide_eq_false_2 (i_EndedAt j = None)) by done. by rewrite andb_false_r.
  - destruct (i_MonitorID j =? i_MonitorID i) eqn:E; [|done].
    case_bool_decide as He'; [|by rewrite andb_false_r]. reflect_tests. exfalso. apply Hk.
    eapply (wf_one_open _ Hwf); eauto.
Qed.

(** Writing the counters keeps the incidents and stores what the decision says. *)
Lemma write_counters_state m rid d db row incs :
  monitor_row (m_OrgID m) (m_ID m) db = Some row -> newer_than_watermark rid row = true ->
  incs = incidents db ->
  let db' := (write_counters m rid d db).2 in
  monitor_row (m_OrgID m) (m_ID m) db' =
    Some (mkMonitorRow (mr_monitor row) (sd_NewConsecutive d) (sd_NewFirstFailAt d)
            (Some rid) (sd_NewSSLWarnedDays d)) /\
  incidents db' = incs /\ check_results db' = check_results db.
Proof.
  intros Hrow Hn ->. unfold write_counters, exec. simpl. rewrite Hrow, Hn. simpl.
  apply monitor_row_Some in Hrow as [Hk Ho]. split; [|done].
  unfold monitor_row. simpl. rewrite lookup_insert_eq. simpl. by rewrite Ho, Z.eqb_refl.
Qed.

(** The incident the round reports to the emitter. *)
Definition reported (m : Monitor) (d : Alerting.Decision) (iid rid : Z) (open : option Incident) :
    option Incident :=
  match d_Action d with
  | ActionOpenIncident => Some (opened_incident m rid (toStoreDecision d) iid)
  | ActionCloseIncident =>
      (fun i => closed_incident i (d_IncidentEndedAt d) CloseRecovered (i_ClosedBy i)) <$> open
  | ActionNone => if d_Renotify d then open else None
  end.

(** A round past the watermark, with the open incident named. *)
Lemma apply_unfold m rid first d db row :
  monitor_row (m_OrgID m) (m_ID m) db = Some row -> newer_than_watermark rid row = true ->
  let open := open_of (m_OrgID m) (m_ID m) (incidents db) in
  ApplyAlertDecision m rid first d db =
  match (match sd_Action d with
         | IncidentOpen => apply_open m first d
         | IncidentClose => apply_close d open
         | IncidentNone => mret (mkApplied false false None)
         end) db with
  | (Ok res, db1) =>
      (Ok (match sd_Renotify d, open with
           | true, Some i => mkApplied true (ad_Skipped res) (Some i)
           | _, _ => res
           end), (write_counters m rid d db1).2)
  | (Err e, db1) => (Err e, rollback db db1)
  end.
Proof.
  intros Hrow Hn open. unfold ApplyAlertDecision, WithOrg, mbind, tx_bind, select_row.
  rewrite Hrow, Hn. unfold getOpenIncidentTx, select. simpl negb. cbv iota beta.
  subst open. unfold open_of, write_counters, exec, mret, tx_ret.
  destruct (sd_Action d); simpl; [done|..].
  - by destruct (apply_open m first d db) as [[r|e] db1].
  - by destruct (apply_close d _ db) as [[r|e] db1].
Qed.

#[local] Opaque write_counters.
#[local] Arguments alert_state : simpl never.

(** Read the alert state back through the counters write [Hwc] describes. *)
Ltac round_state Hwc :=
  match goal with
  | |- alert_state _ _ (write_counters _ _ ?dd ?db1).2 = _ /\ _ =>
      let Hm := fresh in let Hincs := fresh in let Hr := fresh in
      destruct (Hwc db1 dd) as (Hm & Hincs & Hr); [done|done|];
      unfold alert_state; rewrite Hm; simpl; split; [|done]; unfold state_of_row; simpl;
      rewrite Hincs; simpl
  end.

Lemma apply_round m res db row rid :
  wf db -> monitor_row (m_OrgID m) (m_ID m) db = Some row ->
  newer_than_watermark rid row = true -> rid <> 0 -> is_Some (check_results db !! rid) ->
  let st := state_of_row (m_OrgID m) (m_ID m) row (incidents db) in
  let d := Apply m res st in
  exists db',
    ApplyAlertDecision m rid rid (toStoreDecision d) db =
      (Ok (mkApplied (bool_decide (is_Some (reported m d (seq_incidents db) rid (as_OpenIncident st))))
             false (reported m d (seq_incidents db) rid (as_OpenIncident st))), db') /\
    alert_state (m_OrgID m) (m_ID m) db' = Some (advance m d (seq_incidents db) rid st) /\
    check_results db' = check_results db.
Proof.
  intros Hwf Hrow Hnew Hrid [rr Hres] st d.
  rewrite (apply_unfold m rid rid _ db row Hrow Hnew).
  change (open_of (m_OrgID m) (m_ID m) (incidents db)) with (as_OpenIncident st).
  assert (Hwc : forall db1 dd, monitors db1 = monitors db -> check_results db1 = check_results db ->
    let db' := (write_counters m rid dd db1).2 in
    monitor_row (m_OrgID m) (m_ID m) db' =
      Some (mkMonitorRow (mr_monitor row) (sd_NewConsecutive dd) (sd_NewFirstFailAt dd)
              (Some rid) (sd_NewSSLWarnedDays dd)) /\
    incidents db' = incidents db1 /\ check_results db' = check_results db).
  { intros db1 dd Hm1 Hr1. rewrite <- Hr1. apply write_counters_state; [|done|done].
    unfold monitor_row in *. by rewrite Hm1. }
  subst d. unfold Apply, applyHealthy, applyUnhealthy, reported, advance, advance_open.
  destruct (as_OpenIncident st) as [i|] eqn:Ho.
  - destruct (open_of_Some _ _ _ _ Hwf Ho) as (Hi & Hmi & Hoi & Hei).
    destruct (r_Healthy res); [|destruct (_ && _)]; simpl.
    + unfold apply_close, mbind, tx_bind, select. rewrite Hi. rewrite (bool_decide_eq_true_2 _ Hei). simpl.
      eexists. split; [reflexivity|]. round_state Hwc.
      by rewrite (open_of_close _ _ _ _ _ Hwf Ho).
    + eexists. split; [reflexivity|]. round_state Hwc. by rewrite <- Ho.
    + eexists. split; [reflexivity|]. round_state Hwc. by rewrite <- Ho.
  - assert (open_of (m_OrgID m) (m_ID m) (incidents db) = None) as Ho' by exact Ho.
    destruct (r_Healthy res); [|destruct (_ <? _)]; simpl.
    + eexists. split; [reflexivity|]. round_state Hwc. by rewrite Ho'.
    + eexists. split; [reflexivity|]. round_state Hwc. by rewrite Ho'.
    + unfold apply_open, mbind, tx_bind, select. simpl.
      rewrite (open_of_None _ _ _ _ Hwf Hrow Ho'). simpl.
      rewrite (proj2 (Z.eqb_neq rid 0) Hrid). simpl. rewrite Hres. simpl.
      eexists. split; [reflexivity|]. round_state Hwc. rewrite (open_of_insert _ _ db _ row) by done. unfold opened_incident. rewrite (proj2 (Z.eqb_neq rid 0) Hrid). done.
Qed.

(** A decision that notifies has an incident to report. *)
Lemma notify_reported m res st iid rid n :
  d_Notify (Apply m res st) = Some n ->
  is_Some (reported m (Apply m res st) iid rid (as_OpenIncident st)).
Proof.
  unfold Apply, applyHealthy, applyUnhealthy, reported.
  destruct (r_Healthy res), (as_OpenIncident st) as [i|]; simpl; try done; eauto;
    destruct (_ && _) || destruct (_ <? _); simpl; try done; eauto.
Qed.

(** After a round is applied or skipped, the watermark covers its result. *)
Lemma apply_covers m rid first d db ap db' row :
  wf db -> monitor_row (m_OrgID m) (m_ID m) db = Some row ->
  ApplyAlertDecision m rid first d db = (Ok ap, db') ->
  check_results db' = check_results db /\
  exists row', monitor_row (m_OrgID m) (m_ID m) db' = Some row' /\
    mr_monitor row' = mr_monitor row /\ newer_than_watermark rid row' = false.
Proof.
  intros Hwf Hrow. destruct (newer_than_watermark rid row) eqn:Hn.
  2: { rewrite (apply_stale _ _ _ _ _ _ Hrow Hn). intros [= <- <-]. eauto. }
  rewrite (apply_unfold _ _ _ _ _ _ Hrow Hn). pose proof (monitor_row_Some _ _ _ _ Hrow) as [Hk Horg].
  cbv zeta. match goal with |- match ?x with _ => _ end = _ -> _ =>
    destruct x as [[r|e] db1] eqn:Hact end; [|done]. intros [= <- <-].
  assert (monitors db1 = monitors db /\ check_results db1 = check_results db) as [Hm1 Hr1].
  { destruct (sd_Action d).
    - by inversion Hact.
    - pose proof (apply_open_ok m first d db Hwf) as Ho. rewrite Hact in Ho.
      destruct Ho as [_ (? & ? & _)]; [by eauto|done].
    - pose proof (apply_close_ok d db _ Hwf
        (fun i Hi => proj1 (open_of_Some (m_OrgID m) (m_ID m) db i Hwf Hi))) as Ho.
      rewrite Hact in Ho. by destruct Ho as [_ (? & ? & _)]. }
  assert (monitor_row (m_OrgID m) (m_ID m) db1 = Some row) as Hrow1
    by (unfold monitor_row in *; by rewrite Hm1).
  destruct (write_counters_state m rid d db1 row _ Hrow1 Hn eq_refl) as (Hw & _ & Hr).
  split; [congruence|]. eexists. split; [exact Hw|]. split; [done|].
  unfold newer_than_watermark. simpl. apply Z.ltb_irrefl.
Qed.

Section over_db.
Context (sha : string -> string) (now : Time) (cipher : option secretCipher).

Abbreviation db_handle := (handle (S:=DB) (AlertStore0:=db_store cipher) sha now).
Abbreviation db_handle_result := (handle_result (S:=DB) (AlertStore0:=db_store cipher) sha now).

Lemma GetMonitor_eq org id db :
  GetMonitor cipher org id db =
  (match monitor_row org id db with Some row => scanMonitor cipher row | None => Err ErrNoRows end, db).
Proof.
  unfold GetMonitor, WithOrg, mbind, tx_bind, select_row, lift.
  destruct (monitor_row org id db) as [row|]; simpl; [|by destruct db].
  destruct (scanMonitor cipher row); [done|by destruct db].
Qed.

Lemma scanMonitor_ids row m :
  scanMonitor cipher row = Ok m ->
  m_ID m = m_ID (mr_monitor row) /\ m_OrgID m = m_OrgID (mr_monitor row).
Proof. unfold scanMonitor. intros Hs. apply result_bind_ok in Hs as (hs & _ & [= <-]). done. Qed.

(** The monitor that [handle_result] works with: same ids as the result's row. *)
Lemma handled_monitor org mid db row m :
  wf db -> monitor_row org mid db = Some row -> scanMonitor cipher row = Ok m ->
  monitor_row (m_OrgID m) (m_ID m) db = Some row /\ m_OrgID m = org /\ m_ID m = mid.
Proof.
  intros Hwf Hrow Hm. destruct (monitor_row_Some _ _ _ _ Hrow) as [Hk Ho].
  destruct (scanMonitor_ids _ _ Hm) as [Hid Horg].
  destruct (wf_mon_id _ Hwf _ _ Hk) as [Hidk _].
  rewrite Hid, Horg, Hidk, Ho. done.
Qed.

Lemma handle_result_unfold ok res rid db row m :
  wf db -> monitor_row (r_OrgID res) (r_MonitorID res) db = Some row ->
  scanMonitor cipher row = Ok m ->
  db_handle_result ok res rid db =
  handle_decision (S:=DB) (AlertStore0:=db_store cipher) sha now ok m res rid rid
    (Apply m res (state_of_row (m_OrgID m) (m_ID m) row (incidents db))) db.
Proof.
  intros Hwf Hrow Hm. destruct (handled_monitor _ _ _ _ _ Hwf Hrow Hm) as (Hrow' & _ & _).
  unfold handle_result. simpl. rewrite GetMonitor_eq, Hrow, Hm.
  pose proof (GetAlertState_eq (m_OrgID m) (m_ID m) db) as Hst. unfold alert_state in Hst.
  rewrite Hrow' in Hst. simpl in Hst. pose proof (GetAlertState_state (m_OrgID m) (m_ID m) db) as Hdb.
  destruct (GetAlertState _ _ db) as [r db0]. simpl in *. by subst.
Qed.

Lemma handle_result_no_monitor ok res rid db :
  monitor_row (r_OrgID res) (r_MonitorID res) db = None ->
  db_handle_result ok res rid db = (Ok tt, db, []).
Proof. intros Hrow. unfold handle_result. simpl. by rewrite GetMonitor_eq, Hrow. Qed.

(** A round the watermark covers is skipped: nothing changes, nothing is emitted. *)
Lemma handle_result_stale ok res rid db row m :
  wf db -> monitor_row (r_OrgID res) (r_MonitorID res) db = Some row ->
  scanMonitor cipher row = Ok m -> newer_than_watermark rid row = false ->
  db_handle_result ok res rid db = (Ok tt, db, []).
Proof.
  intros Hwf Hrow Hm Hn. rewrite (handle_result_unfold _ _ _ _ _ _ Hwf Hrow Hm).
  destruct (handled_monitor _ _ _ _ _ Hwf Hrow Hm) as (Hrow' & _ & _).
  unfold handle_decision. simpl. by rewrite (apply_stale _ _ _ _ _ _ Hrow' Hn).
Qed.

(** A handled result stays handled: handling it again emits nothing. *)
Lemma handle_result_again ok ok' res rid db db' msgs :
  wf db -> rid < seq_results db ->
  db_handle_result ok res rid db = (Ok tt, db', msgs) ->
  wf db' /\ check_results db' = check_results db /\ db_handle_result ok' res rid db' = (Ok tt, db', []).
Proof.
  intros Hwf Hrid. destruct (monitor_row (r_OrgID res) (r_MonitorID res) db) as [row|] eqn:Hrow.
  2: { rewrite (handle_result_no_monitor _ _ _ _ Hrow). intros [= <- <-].
       split; [done|]. split; [done|]. by apply handle_result_no_monitor. }
  destruct (scanMonitor cipher row) as [m|e] eqn:Hm.
  2: { unfold handle_result. simpl. rewrite GetMonitor_eq, Hrow, Hm.
       unfold scanMonitor in Hm. apply result_bind_err in Hm as [Hm|(? & _ & ?)]; [|done].
       destruct e; try done. intros [= <- <-]. split; [done|]. split; [done|].
       unfold handle_result. simpl. rewrite GetMonitor_eq, Hrow. unfold scanMonitor. by rewrite Hm. }
  rewrite (handle_result_unfold _ _ _ _ _ _ Hwf Hrow Hm).
  destruct (handled_monitor _ _ _ _ _ Hwf Hrow Hm) as (Hrow' & Ho & Hid).
  unfold handle_decision. simpl.
  set (d := toStoreDecision _).
  pose proof (wf_ApplyAlertDecision m rid rid d db Hwf Hrid) as Hwf'.
  destruct (ApplyAlertDecision m rid rid d db) as [[ap|e] db1] eqn:Ha; [|done]. simpl in Hwf'.
  destruct (apply_covers _ _ _ _ _ _ _ _ Hwf Hrow' Ha) as (Hr & row' & Hrow1 & Hmon & Hcov).
  intros Hres. assert (db' = db1) as ->.
  { revert Hres. clear. repeat case_match; intros; by simplify_eq. }
  split; [done|]. split; [done|]. rewrite Ho, Hid in Hrow1.
  apply (handle_result_stale _ _ _ _ _ m Hwf' Hrow1); [|done].
  unfold scanMonitor in *. by rewrite Hmon.
Qed.
End over_db.

(** ** Redelivery *)

Section redelivery.
Context (sha : string -> string) (now : Time) (cipher : option secretCipher).

Abbreviation db_handle := (handle (S:=DB) (AlertStore0:=db_store cipher) sha now).
Abbreviation db_handle_result := (handle_result (S:=DB) (AlertStore0:=db_store cipher) sha now).

(** The record handled again on the database its own upsert left. *)
Lemma handle_after_upsert ok ev res db id db1 :
  res = with_scheduled (cre_ScheduledAt ev) (cre_Result ev) ->
  wf db -> UpsertCheckResult res db = (Ok id, db1) ->
  same_handled (db_handle ok (Some ev) db1) (db_handle_result ok (with_id id res) id db1).
Proof.
  intros -> Hwf Hu. destruct (upsert_ok _ _ _ _ Hwf Hu) as ((r' & Hr' & Hk) & Hid & _ & _ & Hwf1).
  unfold handle. simpl. rewrite (upsert_existing _ _ _ _ Hwf1 Hr' Hk).
  by apply same_tables_handle_result.
Qed.

Lemma handle_again ok ok' ev db db' msgs :
  wf db -> db_handle ok (Some ev) db = (Ok tt, db', msgs) ->
  wf db' /\ same_handled (db_handle ok' (Some ev) db') (Ok tt, db', []).
Proof.
  intros Hwf. unfold handle at 1. simpl. set (res := with_scheduled _ _).
  destruct (UpsertCheckResult res db) as [[id|e] db1] eqn:Hu; [|done].
  destruct (upsert_ok _ _ _ _ Hwf Hu) as ((r' & Hr' & Hk) & Hid & _ & _ & Hwf1).
  intros Hh. destruct (handle_result_again sha now cipher ok ok' _ _ _ _ _ Hwf1 (proj2 Hid) Hh)
    as (Hwf' & Hcr & Hagain).
  split; [done|]. unfold handle. simpl. fold res.
  rewrite (upsert_existing res db' id r' Hwf') by (by rewrite ?Hcr).
  rewrite <- Hagain. by apply same_tables_handle_result.
Qed.

(** Redeliveries, with the outcome of each produce. *)
Fixpoint redeliver (oks : list bool) (ev : CheckResultEvent) (db : DB) : DB * list NotifyMessage :=
  match oks with
  | [] => (db, [])
  | ok :: oks' =>
      let '(_, db1, msgs) := db_handle ok (Some ev) db in
      let '(db2, msgs') := redeliver oks' ev db1 in (db2, msgs ++ msgs')
  end.

Lemma same_tables_wf db1 db2 : same_tables db1 db2 -> seq_results db2 <= seq_results db1 -> wf db2 -> wf db1.
Proof.
  intros (Hm & Hr & Hi & _ & _ & _ & Hsm & Hsi & _) Hseq
    [(? & ? & ?) Hmon Hres Hinc Hrf Hif Ho Hk Hone Hc Hw].
  split; rewrite ?Hm, ?Hr, ?Hi, ?Hsm, ?Hsi in *; try done; try lia.
  - intros k r Hkr. edestruct Hres; [done|]. split; [done|lia].
  - intros k row w Hkr Hl. specialize (Hw _ _ _ Hkr Hl). lia.
Qed.

Lemma wf_handle ok rec db : wf db -> wf (db_handle ok rec db).1.2.
Proof.
  intros Hwf. unfold handle. destruct rec as [ev|]; [|done]. simpl. set (res := with_scheduled _ _).
  pose proof (wf_UpsertCheckResult res db Hwf) as Hwf1.
  destruct (UpsertCheckResult res db) as [[id|e] db1] eqn:Hu; [|done]. simpl in Hwf1.
  destruct (upsert_ok _ _ _ _ Hwf Hu) as (_ & Hid & _).
  unfold handle_result. simpl. rewrite GetMonitor_eq.
  destruct (monitor_row _ _ db1) as [row|]; [|done]. destruct (scanMonitor cipher row) as [m|e]; [|by destruct e].
  pose proof (GetAlertState_state (m_OrgID m) (m_ID m) db1) as Hs.
  destruct (GetAlertState _ _ db1) as [[st|e] db2]; simpl in Hs; subst; [|by destruct e].
  unfold handle_decision. simpl.
  pose proof (wf_ApplyAlertDecision m id id (toStoreDecision (Apply m (with_id id res) st)) db1 Hwf1
    ltac:(lia)) as Hwf2.
  destruct (ApplyAlertDecision _ _ _ _ db1) as [[ap|e] db3]; [|done]. simpl in Hwf2.
  destruct (ad_Skipped ap); [done|]. by destruct (d_Notify _), (ad_Applied ap), (ad_Incident ap).
Qed.

Lemma redeliver_silent ok oks ev db db' msgs :
  wf db -> db_handle ok (Some ev) db = (Ok tt, db', msgs) ->
  (redeliver oks ev db').2 = [] /\ same_tables (redeliver oks ev db').1 db'.
Proof.
  revert ok db db' msgs. induction oks as [|ok1 oks IH]; intros ok db db' msgs Hwf Hh;
    cbn [redeliver]; [done|].
  destruct (handle_again ok ok1 ev db db' msgs Hwf Hh) as [Hwf' (Hr & Ht & Hm)].
  destruct (db_handle ok1 (Some ev) db') as [[r db1] msgs1] eqn:Hh1. cbn [fst snd] in *. subst.
  destruct (IH ok1 db' db1 [] Hwf' Hh1) as [Hs Ht1].
  destruct (redeliver oks ev db1) as [db2 msgs2]. cbn [fst snd] in *. subst. split; [done|].
  by rewrite Ht1.
Qed.

(** A monitor that is gone: the result row violates its foreign key. *)
Lemma handle_orphan ok ev db :
  wf db -> monitors db !! r_MonitorID (cre_Result ev) = None ->
  exists db', db_handle ok (Some ev) db = (Err ErrForeignKey, db', []) /\ same_tables db' db /\
    seq_results db <= seq_results db'.
Proof.
  intros Hwf Hm. unfold handle. simpl. set (res := with_scheduled _ _).
  unfold UpsertCheckResult, WithOrg, mbind, tx_bind, select, check_monitor_fk. simpl.
  destruct (find_row _ (check_results db)) as [[k r]|] eqn:Hf; simpl.
  - apply find_row_Some in Hf as [Hk Hkey]. destruct (wf_res_fk _ Hwf _ _ Hk) as [row Hrow].
    unfold same_result_key in Hkey. reflect_tests. simpl in *. congruence.
  - rewrite Hm. eexists. split; [done|]. split; [done|]. simpl. lia.
Qed.

(** *** Transient failures *)

Lemma guarded_cases {A} (op : DB -> result dbError A * DB) (s : Faulty DB) :
  (exists fs db', f_faults s = FailsBefore :: fs /\ db' = f_store s /\ guarded op s = (Err ErrTransient, mkFaulty db' fs)) \/
  (exists fs, f_faults s = AnswerLost :: fs /\ guarded op s = (Err ErrTransient, mkFaulty (op (f_store s)).2 fs)) \/
  guarded op s = ((op (f_store s)).1, mkFaulty (op (f_store s)).2 (tail (f_faults s))).
Proof.
  unfold guarded. destruct s as [db [|[] fs]]; simpl; [right; right|right; right|left|right; left]; eauto; by destruct (op db).
Qed.

(** A read, or the upsert: a fault is spent, and the operation has been carried out or not. *)
Lemma guarded_spends {A} (op : DB -> result dbError A * DB) (s : Faulty DB) :
  (exists f fs db', f_faults s = f :: fs /\ (db' = f_store s \/ db' = (op (f_store s)).2) /\ guarded op s = (Err ErrTransient, mkFaulty db' fs)) \/
  guarded op s = ((op (f_store s)).1, mkFaulty (op (f_store s)).2 (tail (f_faults s))).
Proof. destruct (guarded_cases op s) as [(fs & db' & H & -> & Hg)|[(fs & H & Hg)|Hg]]; eauto 10. Qed.

Lemma tail_drop {A} (l : list A) : tail l = drop 1 l.
Proof. by destruct l. Qed.

(** An attempt over the faulty store does what the fault-free handler does; or fails having spent a
    fault, with at most the upsert done; or loses the answer to the last call, with all of it done
    and nothing emitted. *)
Lemma attempt ev db fs res :
  res = with_scheduled (cre_ScheduledAt ev) (cre_Result ev) ->
  let o := handle (S:=Faulty DB) (AlertStore0:=faulty_store (AlertStore0:=db_store cipher))
             sha now true (Some ev) (mkFaulty db fs) in
  (exists k, o = (let '(r, db', msgs) := db_handle true (Some ev) db in (r, mkFaulty db' (drop k fs), msgs))) \/
  (exists db' k, o = (Err ErrTransient, mkFaulty db' (drop k fs), []) /\ (length (drop k fs) < length fs)%nat /\
     (db' = db \/ db' = (UpsertCheckResult res db).2 \/ AnswerLost ∈ fs /\ db' = (db_handle true (Some ev) db).1.2)).
Proof.
  intros -> o. subst o. unfold handle. simpl. set (res := with_scheduled _ _).
  assert (forall k f fs', drop k fs = f :: fs' -> fs' = drop (S k) fs /\ (length (drop (S k) fs) < length fs)%nat) as Hspent.
  { intros k f fs' Hd. pose proof (f_equal (drop 1) Hd) as Hd1. rewrite drop_drop, Nat.add_1_r in Hd1. simpl in Hd1. split; [done|].
    apply (f_equal length) in Hd. rewrite length_drop in *. simpl in Hd. lia. }
  destruct (guarded_spends (UpsertCheckResult res) (mkFaulty db fs)) as [(f & fs1 & db' & Hfs & Hdb & ->)| ->].
  { destruct (Hspent 0%nat f fs1) as [-> Hl]; [exact Hfs|]. right. exists db', 1%nat. split; [done|]. split; [done|]. simpl in Hdb. tauto. }
  simpl. rewrite tail_drop. destruct (UpsertCheckResult res db) as [[id|e] db1] eqn:Hu; simpl; [|left; by exists 1%nat].
  unfold handle_result. simpl.
  match goal with |- context [guarded ?op ?s] => destruct (guarded_spends op s) as [(f & fs1 & db' & Hfs & Hdb & ->)| ->] end.
  { destruct (Hspent 1%nat f fs1) as [-> Hl]; [exact Hfs|]. right. exists db', 2%nat. split; [done|]. split; [done|]. simpl in Hdb. rewrite GetMonitor_eq in Hdb. simpl in Hdb. tauto. }
  simpl. rewrite !GetMonitor_eq. simpl. rewrite tail_drop, drop_drop. destruct (monitor_row _ _ db1) as [row|]; [|left; by exists 2%nat].
  destruct (scanMonitor cipher row) as [m|e]; [|left; exists 2%nat; by destruct e].
  match goal with |- context [guarded ?op ?s] => destruct (guarded_spends op s) as [(f & fs1 & db' & Hfs & Hdb & ->)| ->] end.
  { destruct (Hspent 2%nat f fs1) as [-> Hl]; [exact Hfs|]. right. exists db', 3%nat. split; [done|]. split; [done|]. simpl in Hdb. rewrite GetAlertState_state in Hdb. tauto. }
  simpl. pose proof (GetAlertState_state (m_OrgID m) (m_ID m) db1) as Hs. rewrite tail_drop, drop_drop.
  destruct (GetAlertState _ _ db1) as [[st|e] db2]; simpl in Hs; subst; simpl; [|left; exists 3%nat; by destruct e].
  unfold handle_decision. simpl. set (op := ApplyAlertDecision m id id _).
  destruct (guarded_cases op (mkFaulty db1 (drop 3 fs))) as [(fs1 & db' & Hfs & -> & ->)|[(fs1 & Hfs & ->)| ->]].
  - destruct (Hspent 3%nat _ _ Hfs) as [-> Hl]. right. exists db1, 4%nat. simpl. tauto.
  - destruct (Hspent 3%nat _ _ Hfs) as [-> Hl]. right. exists (op db1).2, 4%nat. split; [done|]. split; [done|]. right. right. split.
    + simpl in Hfs. rewrite <- (take_drop 3 fs), Hfs. apply elem_of_app. right. left.
    + destruct (op db1) as [[ap|e] db3] ; simpl; [|done]. destruct (ad_Skipped ap); [done|]. by destruct (d_Notify _), (ad_Applied ap), (ad_Incident ap).
  - simpl. rewrite tail_drop, drop_drop. left. exists 4%nat. destruct (op db1) as [[ap|e] db3]; simpl; [|done].
    destruct (ad_Skipped ap); [done|]. by destruct (d_Notify _), (ad_Applied ap), (ad_Incident ap).
Qed.

(** The record is still to be handled with the given outcome, or it has been handled but for the
    events. *)
Definition outstanding (ev : CheckResultEvent) (db1 : DB) (msgs : list NotifyMessage) (lost : Prop) (db : DB) : Prop :=
  wf db /\ (same_handled (db_handle true (Some ev) db) (Ok tt, db1, msgs) \/ lost /\ same_handled (db_handle true (Some ev) db) (Ok tt, db1, [])).

Lemma attempt_outstanding ev db1 msgs (lost : Prop) db fs :
  outstanding ev db1 msgs lost db -> (AnswerLost ∈ fs -> lost) ->
  let o := handle (S:=Faulty DB) (AlertStore0:=faulty_store (AlertStore0:=db_store cipher)) sha now true (Some ev) (mkFaulty db fs) in
  match o with
  | (Ok _, s', ms) => same_tables (f_store s') db1 /\ (ms = msgs \/ ms = [] /\ lost)
  | (Err _, s', ms) => ms = [] /\ outstanding ev db1 msgs lost (f_store s') /\ (length (f_faults s') < length fs)%nat /\
      (AnswerLost ∈ f_faults s' -> lost)
  end.
Proof.
  intros [Hwf Hout] Hlost. cbv zeta. destruct (attempt ev db fs _ eq_refl) as [(k & ->)|(db' & k & -> & Hl & Hdb)].
  - destruct (db_handle true (Some ev) db) as [[r db2] ms]. unfold same_handled in Hout. simpl in Hout. destruct r as [u|e]; [|destruct Hout as [(? & _)|(_ & ? & _)]; done].
    simpl. destruct Hout as [(_ & Ht & ->)|(Hp & _ & Ht & ->)]; auto.
  - split; [done|]. split; [|split; [done|intros Hin; apply Hlost; by eapply subseteq_drop]]. simpl.
    assert (exists ms, same_handled (db_handle true (Some ev) db) (Ok tt, db1, ms) /\ (ms = msgs \/ ms = [] /\ lost)) as (ms & Hh & Hms) by naive_solver.
    assert (forall x, same_handled (db_handle true (Some ev) x) (Ok tt, db1, ms) -> wf x -> outstanding ev db1 msgs lost x) as Hdone.
    { intros x Hx Hwx. split; [done|]. destruct Hms as [->|[-> Hp]]; auto. }
    destruct Hdb as [->|[Hu|[Hin ->]]]; [by apply Hdone|..].
    + pose proof Hh as (F1 & F2 & F3). unfold handle in F1, F2, F3. simpl in F1, F2, F3. set (res := with_scheduled _ _) in *.
      destruct (UpsertCheckResult res db) as [[id|e] db2] eqn:Hup; [|done]. simpl in Hu. subst db'.
      destruct (upsert_ok _ _ _ _ Hwf Hup) as (_ & _ & _ & _ & Hwf'). apply Hdone; [|done].
      destruct (handle_after_upsert true ev _ db id db2 eq_refl Hwf Hup) as (E1 & E2 & E3).
      split; [by rewrite E1|]. split; [by etransitivity|by rewrite E3].
    + destruct Hh as (F1 & F2 & F3). destruct (db_handle true (Some ev) db) as [[[[]|] db2] ms2] eqn:Hdh; [|done]. simpl in *.
      destruct (handle_again true true ev db db2 ms2 Hwf Hdh) as [Hwf2 (G1 & G2 & G3)]. split; [done|]. right. split; [auto|].
      split; [done|]. split; [by etransitivity|done].
Qed.

Lemma deliver_faulty_aux ev fuel db fs db1 msgs (lost : Prop) :
  outstanding ev db1 msgs lost db -> (AnswerLost ∈ fs -> lost) -> (length fs < fuel)%nat ->
  exists s' ms, deliver (S:=Faulty DB) (AlertStore0:=faulty_store (AlertStore0:=db_store cipher))
               sha now fuel (Some ev) (mkFaulty db fs) = (Ok tt, s', ms) /\
    same_tables (f_store s') db1 /\ (ms = msgs \/ ms = [] /\ lost).
Proof.
  revert db fs. induction fuel as [|fuel IH]; intros db fs Hout Hlost Hlen; [lia|]. cbn [deliver].
  pose proof (attempt_outstanding ev db1 msgs lost db fs Hout Hlost) as Hatt.
  destruct (handle _ _ _ _ (mkFaulty db fs)) as [[[[]|e] [db' fs']] ms]; [by eauto|]. destruct Hatt as (-> & Hout' & Hl & Hlost'). simpl in *.
  destruct (IH db' fs' Hout' Hlost' ltac:(lia)) as (s' & ms' & -> & Hs). eauto.
Qed.
End redelivery.

(** ** A result seen for the first time *)

Section first_time.
Context (sha : string -> string) (now : Time) (cipher : option secretCipher).

(** No stored result has the event's (org, monitor, region, checked_at). *)
Definition unseen (ev : CheckResultEvent) (db : DB) : Prop :=
  find_row (same_result_key (with_scheduled (cre_ScheduledAt ev) (cre_Result ev))) (check_results db) = None.

Lemma upsert_unseen r db :
  find_row (same_result_key r) (check_results db) = None -> is_Some (monitors db !! r_MonitorID r) ->
  exists db1, UpsertCheckResult r db = (Ok (seq_results db), db1) /\ monitors db1 = monitors db /\
    incidents db1 = incidents db /\ seq_incidents db1 = seq_incidents db /\
    is_Some (check_results db1 !! seq_results db).
Proof.
  intros Hf [row Hm]. unfold UpsertCheckResult, WithOrg, mbind, tx_bind, select, check_monitor_fk. simpl.
  rewrite Hf. simpl. rewrite Hm. simpl. eexists. split; [reflexivity|]. simpl.
  rewrite lookup_insert_eq. eauto.
Qed.

Lemma fresh_beats_watermark k db row :
  wf db -> monitors db !! k = Some row -> newer_than_watermark (seq_results db) row = true.
Proof.
  intros Hwf Hk. unfold newer_than_watermark.
  destruct (mr_last_applied_result_id row) as [w|] eqn:Hw; [|done].
  apply Z.ltb_lt. exact (wf_watermark _ Hwf _ _ _ Hk Hw).
Qed.
End first_time.

(** The handler on such a result, step by step. *)
Lemma handle_first_time sha now cipher ev db row m :
  wf db -> unseen ev db ->
  monitor_row (r_OrgID (cre_Result ev)) (r_MonitorID (cre_Result ev)) db = Some row ->
  scanMonitor cipher row = Ok m ->
  let rid := seq_results db in
  let iid := seq_incidents db in
  let res := with_id rid (with_scheduled (cre_ScheduledAt ev) (cre_Result ev)) in
  let st := state_of_row (m_OrgID m) (m_ID m) row (incidents db) in
  let d := Apply m res st in
  exists db',
    handle (S:=DB) (AlertStore0:=db_store cipher) sha now true (Some ev) db =
      (Ok tt, db',
       match d_Notify d, reported m d iid rid (as_OpenIncident st) with
       | Some n, Some inc => [notify_message sha now m inc res (ne_Type n) (ne_WarnDays n)]
       | _, _ => []
       end) /\
    alert_state (m_OrgID m) (m_ID m) db' = Some (advance m d iid rid st).
Proof.
  intros Hwf Hun Hrow Hm rid iid res st d.
  destruct (monitor_row_Some _ _ _ _ Hrow) as [Hk _].
  destruct (upsert_unseen _ _ Hun) as (db1 & Hu & Hm1 & Hi1 & Hs1 & Hcr); [by eauto|].
  destruct (upsert_ok _ _ _ _ Hwf Hu) as (_ & Hid & _ & _ & Hwf1).
  assert (monitor_row (r_OrgID res) (r_MonitorID res) db1 = Some row) as Hrow1
    by (unfold monitor_row in *; by rewrite Hm1).
  unfold handle. cbn [st_UpsertCheckResult db_store]. cbv zeta. rewrite Hu. fold rid. fold res.
  rewrite (handle_result_unfold sha now cipher true res rid db1 row m Hwf1 Hrow1 Hm), Hi1.
  destruct (handled_monitor cipher _ _ _ _ _ Hwf1 Hrow1 Hm) as (Hrow' & _ & _).
  fold st. fold d.
  destruct (apply_round m res db1 row rid Hwf1 Hrow' (fresh_beats_watermark _ _ _ Hwf Hk)
    ltac:(unfold rid; lia) Hcr) as (db' & Ha & Hst & _).
  rewrite Hi1, Hs1 in Ha, Hst. fold st d iid in Ha, Hst.
  exists db'. split; [|done]. unfold handle_decision. cbn [st_ApplyAlertDecision db_store].
  rewrite Ha. cbn [ad_Skipped ad_Applied ad_Incident].
  pose proof (notify_reported m res st iid rid) as Hrep. fold d in Hrep.
  destruct (d_Notify d) as [n|]; [|done].
  destruct (Hrep n eq_refl) as [inc Hinc]. by rewrite Hinc.
Qed.

(** ** Properties *)

(** C2: a check result seen for the first time drives exactly one step of the
    alerting engine.  The handler returns without error, the monitor's stored
    alert state advances by the engine's decision on the state read before, and
    the notify topic receives the decision's notification, about the incident
    the store opened, closed or kept, or nothing when there is none. *)
Theorem handle_is_one_engine_step sha now cipher ev db row m :
  wf db -> unseen ev db ->
  monitor_row (r_OrgID (cre_Result ev)) (r_MonitorID (cre_Result ev)) db = Some row ->
  scanMonitor cipher row = Ok m ->
  let rid := seq_results db in
  let iid := seq_incidents db in
  let res := with_id rid (with_scheduled (cre_ScheduledAt ev) (cre_Result ev)) in
  let st := state_of_row (m_OrgID m) (m_ID m) row (incidents db) in
  let d := Apply m res st in
  exists db',
    handle (S:=DB) (AlertStore0:=db_store cipher) sha now true (Some ev) db =
      (Ok tt, db',
       match d_Notify d, reported m d iid rid (as_OpenIncident st) with
       | Some n, Some inc => [notify_message sha now m inc res (ne_Type n) (ne_WarnDays n)]
       | _, _ => []
       end) /\
    alert_state (m_OrgID m) (m_ID m) db' = Some (advance m d iid rid st).
Proof. apply handle_first_time. Qed.

(** C6: a handled result is handled for good.  Once the handler has returned
    without error, any number of redeliveries of the same record, whatever the
    fate of their sends, put nothing on the notify topic and leave every table
    as it is (only the result sequence advances). *)
Theorem redelivery_is_silent sha now cipher ok oks ev db db' msgs :
  wf db ->
  handle (S:=DB) (AlertStore0:=db_store cipher) sha now ok (Some ev) db = (Ok tt, db', msgs) ->
  (redeliver sha now cipher oks ev db').2 = [] /\
  same_tables (redeliver sha now cipher oks ev db').1 db'.
Proof. apply redeliver_silent. Qed.

(** A notification whose send fails is lost.  Where the handler would put
    messages on the notify topic but the send fails, it still returns without
    error over the same database, and no later redelivery of the record sends
    them: the incident change is committed and is reported to nobody. *)
Theorem failed_emit_is_never_repeated sha now cipher ev db db' msgs oks :
  wf db ->
  handle (S:=DB) (AlertStore0:=db_store cipher) sha now true (Some ev) db = (Ok tt, db', msgs) ->
  handle (S:=DB) (AlertStore0:=db_store cipher) sha now false (Some ev) db = (Ok tt, db', []) /\
  (redeliver sha now cipher oks ev db').2 = [].
Proof.
  intros Hwf Hh. split; [|by eapply redeliver_silent].
  revert Hh. unfold handle, handle_result, handle_decision, emit, reduceToVerdict. clear.
  repeat case_match; intros; by simplify_eq.
Qed.

(** A result whose monitor was deleted before its first delivery is never
    consumed.  The result row violates its foreign key, so the handler fails, and
    however often the record is redelivered the delivery does not end. *)
Theorem orphan_result_never_consumed sha now cipher ev db fuel :
  wf db -> monitors db !! r_MonitorID (cre_Result ev) = None ->
  (deliver (S:=DB) (AlertStore0:=db_store cipher) sha now fuel (Some ev) db).1.1 <> Ok tt /\
  (deliver (S:=DB) (AlertStore0:=db_store cipher) sha now fuel (Some ev) db).2 = [].
Proof.
  revert db. induction fuel as [|fuel IH]; intros db Hwf Hm; [done|]. cbn [deliver].
  destruct (handle_orphan sha now cipher true ev db Hwf Hm) as (db1 & -> & Hs & Hle).
  pose proof (same_tables_wf _ _ Hs Hle Hwf) as Hwf1. destruct Hs as (Hmon & _).
  specialize (IH db1 Hwf1). rewrite Hmon in IH. specialize (IH Hm).
  destruct (deliver _ _ _ _ _) as [[r db2] ms]. done.
Qed.

(** Transient store failures are masked but for one.  Under any schedule of calls that fail before
    they are carried out and calls whose answer is lost, at-least-once delivery with more attempts
    than faults ends without error, in the tables of the run without failures.  The messages are those
    of that run too, unless an answer was lost: then there may be none. *)
Theorem delivery_masks_transient_faults sha now cipher ev db fs fuel db1 msgs :
  wf db -> (length fs < fuel)%nat ->
  handle (S:=DB) (AlertStore0:=db_store cipher) sha now true (Some ev) db = (Ok tt, db1, msgs) ->
  exists s' ms, deliver (S:=Faulty DB) (AlertStore0:=faulty_store (AlertStore0:=db_store cipher))
               sha now fuel (Some ev) (mkFaulty db fs) = (Ok tt, s', ms) /\
    same_tables (f_store s') db1 /\ (ms = msgs \/ ms = [] /\ AnswerLost ∈ fs).
Proof.
  intros Hwf Hlen Hh. apply deliver_faulty_aux; [|done|done]. split; [done|]. left. by rewrite Hh.
Qed.

(** Distinct alerts have distinct dedup keys up to a collision of SHA-256: two
    alerts with the same key are about the same incident, with the same event type
    and the same certificate level, or exhibit two different texts with one hash.
    So the notifier's dedup suppresses repeats of one alert and nothing else. *)
Theorem dedupKey_identifies_alert sha i1 i2 t1 t2 w1 w2 :
  dedupKey sha i1 (event_type_string t1) w1 = dedupKey sha i2 (event_type_string t2) w2 ->
  (i1 = i2 /\ t1 = t2 /\ w1 = w2) \/
  (dedup_preimage i1 (event_type_string t1) w1 <> dedup_preimage i2 (event_type_string t2) w2 /\
   sha (dedup_preimage i1 (event_type_string t1) w1) = sha (dedup_preimage i2 (event_type_string t2) w2)).
Proof.
  intros Hsha. destruct (decide (dedup_preimage i1 (event_type_string t1) w1 =
    dedup_preimage i2 (event_type_string t2) w2)) as [Hk|Hne]; [left|by right].
  unfold dedup_preimage in Hk.
  apply sep_inj in Hk as [Hi Hk]; [|by auto with pulse..]. apply (inj _) in Hi as ->.
  destruct t1, t2, w1, w2; simpl in Hk; simplify_eq; done.
Qed.

(** ** Witnesses *)

Definition ex_event (at_ : Time) (healthy : bool) : CheckResultEvent :=
  mkCheckResultEvent "job" at_
    (mkResult 0 1 1 "eu-central" at_ (at_ + 1) healthy (if healthy then None else Some ReasonTimeout)
       None None None None None None).

Abbreviation ex_handle := (handle (S:=DB) (AlertStore0:=db_store (Some ex_cipher)) id 500).

(** The monitor of [ex_db1] (threshold 2) with one failure handled. *)
Definition ex_db_failing : DB := (ex_handle true (Some (ex_event 100 false)) ex_db1).1.2.

Lemma ex_db1_wf : wf ex_db1.
Proof. apply (wf_CreateMonitor (Some ex_cipher) 0 ex_stored_monitor empty_db wf_empty). Qed.

Lemma ex_db_failing_wf : wf ex_db_failing.
Proof. apply (wf_handle id 500 (Some ex_cipher)), ex_db1_wf. Qed.

Definition ex_row : MonitorRow :=
  default (mkMonitorRow ex_stored_monitor 0 None None None) (monitor_row 1 1 ex_db_failing).

(** The second failure opens an incident and reports it. *)
Definition ex_down : NotifyMessage :=
  notify_message id 500 (monitor_defaults 1 ex_stored_monitor)
    (mkIncident 1 1 1 101 None (Some ReasonTimeout) None None (Some 2))
    (with_id 2 (cre_Result (ex_event 200 false))) EventDown None.

Definition ex_db_open : DB := (ex_handle true (Some (ex_event 200 false)) ex_db_failing).1.2.

Lemma ex_second_failure :
  ex_handle true (Some (ex_event 200 false)) ex_db_failing = (Ok tt, ex_db_open, [ex_down]).
Proof. vm_compute. reflexivity. Qed.

Lemma handle_is_one_engine_step_witness :
  exists db',
    ex_handle true (Some (ex_event 200 false)) ex_db_failing = (Ok tt, db', [ex_down]) /\
    as_ConsecutiveFails <$> alert_state 1 1 db' = Some 2.
Proof.
  destruct (handle_is_one_engine_step id 500 (Some ex_cipher) (ex_event 200 false) ex_db_failing
    ex_row (monitor_defaults 1 ex_stored_monitor) ex_db_failing_wf) as (db' & Hh & Hst);
    [vm_compute; reflexivity..|].
  exists db'. split; [rewrite Hh; vm_compute; reflexivity|].
  change 1 with (m_OrgID (monitor_defaults 1 ex_stored_monitor)) at 1.
  change 1 with (m_ID (monitor_defaults 1 ex_stored_monitor)) at 2. rewrite Hst. vm_compute. reflexivity.
Defined.

Lemma redelivery_is_silent_witness :
  (redeliver id 500 (Some ex_cipher) [true; true] (ex_event 200 false) ex_db_open).2 = [] /\
  same_tables (redeliver id 500 (Some ex_cipher) [true; true] (ex_event 200 false) ex_db_open).1 ex_db_open.
Proof.
  apply (redelivery_is_silent id 500 (Some ex_cipher) true [true; true] (ex_event 200 false)
    ex_db_failing ex_db_open [ex_down]); [apply ex_db_failing_wf|apply ex_second_failure].
Defined.

Lemma failed_emit_is_never_repeated_witness :
  ex_handle false (Some (ex_event 200 false)) ex_db_failing = (Ok tt, ex_db_open, []) /\
  (redeliver id 500 (Some ex_cipher) [true; true] (ex_event 200 false) ex_db_open).2 = [].
Proof.
  apply (failed_emit_is_never_repeated id 500 (Some ex_cipher) (ex_event 200 false)
    ex_db_failing ex_db_open [ex_down] [true; true]); [apply ex_db_failing_wf|apply ex_second_failure].
Defined.

Lemma orphan_result_never_consumed_witness :
  (deliver (S:=DB) (AlertStore0:=db_store None) id 500 9 (Some (ex_event 200 false)) empty_db).1.1 <> Ok tt /\
  (deliver (S:=DB) (AlertStore0:=db_store None) id 500 9 (Some (ex_event 200 false)) empty_db).2 = [].
Proof. apply (orphan_result_never_consumed id 500 None (ex_event 200 false) empty_db 9 wf_empty). reflexivity. Defined.

(** The answer to the upsert is lost, then the second and third attempts fail as well. *)
Definition ex_faults : list Fault := [AnswerLost; Answers; FailsBefore; Answers; Answers; AnswerLost].

Lemma delivery_masks_transient_faults_witness :
  exists s' ms, deliver (S:=Faulty DB) (AlertStore0:=faulty_store (AlertStore0:=db_store (Some ex_cipher)))
               id 500 7 (Some (ex_event 200 false)) (mkFaulty ex_db_failing ex_faults) = (Ok tt, s', ms) /\
    same_tables (f_store s') ex_db_open /\ (ms = [ex_down] \/ ms = [] /\ AnswerLost ∈ ex_faults).
Proof.
  apply (delivery_masks_transient_faults id 500 (Some ex_cipher) (ex_event 200 false) ex_db_failing
    ex_faults 7 ex_db_open [ex_down]); [apply ex_db_failing_wf|simpl; lia|apply ex_second_failure].
Defined.

(** Where the lost answer is that of the transaction which opens the incident, the incident is open
    and its alert is never sent. *)
Example lost_commit_answer_loses_alert :
  let r := deliver (S:=Faulty DB) (AlertStore0:=faulty_store (AlertStore0:=db_store (Some ex_cipher)))
             id 500 7 (Some (ex_event 200 false)) (mkFaulty ex_db_failing [Answers; Answers; Answers; AnswerLost]) in
  r.1.1 = Ok tt /\ incidents (f_store r.1.2) = incidents ex_db_open /\ r.2 = [].
Proof. vm_compute. repeat split. Qed.

Lemma dedupKey_identifies_alert_witness :
  dedupKey id 12 (event_type_string EventDown) (Some 7) = "12:down:7" /\
  ((12 = 12 /\ EventDown = EventDown /\ Some 7 = Some 7) \/
   (dedup_preimage 12 (event_type_string EventDown) (Some 7) <> dedup_preimage 12 (event_type_string EventDown) (Some 7) /\
    id (dedup_preimage 12 (event_type_string EventDown) (Some 7)) = id (dedup_preimage 12 (event_type_string EventDown) (Some 7)))).
Proof.
  split; [reflexivity|].
  apply (dedupKey_identifies_alert id 12 12 EventDown EventDown (Some 7) (Some 7)). reflexivity.
Defined.
