(* ===== verification/CheckState.v ===== *)
(** * CheckState: the live per-region view of checks
    (src/internal/checkstate/checkstate.go; the hash operations of src/internal/kv/kv.go)

    Redis is an interface, [HashStore], with the laws the package relies on
    ([HashStoreLaws]); the JSON codec of a region's slot is a parameter with its
    round-trip law.  A concrete store that meets the laws is at the end. *)

From S2P Require Import Prelude Domain.
Open Scope Z_scope.

Inductive kvError := ErrRedis | ErrDecode.

(** ** Data *)

Definition StateScheduled : string := "scheduled".
Definition StateRunning : string := "running".
Definition StateDone : string := "done".
Definition StateFailed : string := "failed".

Record RegionState := mkRegionState {
  rg_State : string;
  rg_Healthy : option bool;
  rg_StatusCode : option Z;
  rg_LatencyMs : option Z;
  rg_FailureReason : option FailureReason;
  rg_UpdatedAt : Time;
}.

Record Outcome := mkOutcome {
  o_Healthy : bool;
  o_StatusCode : option Z;
  o_LatencyMs : option Z;
  o_FailureReason : option FailureReason;
}.

Definition minTTL : Duration := Hour.

Definition Key (monitorID : Z) : string := "checkstate:" +:+ pretty monitorID.

(** [time.Duration(intervalSeconds) * 3 * time.Second], floored at an hour. *)
Definition TTLFor (intervalSeconds : Z) : Duration :=
  let ttl := wrap64 (wrap64 (intervalSeconds * 3) * Second) in
  if ttl <? minTTL then minTTL else ttl.

(** ** The store interface *)

Class HashStore (S : Type) := {
  HSet : string -> string -> string -> S -> result kvError unit * S;
  HGetAll : string -> S -> result kvError (gmap string string);
  Expire : string -> Duration -> S -> result kvError unit * S;
}.

(** What the package relies on: a field that was set is read back, other keys are
    untouched, and an expiry in the future does not change what is read. *)
Class HashStoreLaws (S : Type) `{!HashStore S} := {
  hset_get : forall k f v s s' h,
    HSet k f v s = (Ok tt, s') -> HGetAll k s = Ok h -> HGetAll k s' = Ok (<[f := v]> h);
  hset_other : forall k k' f v s, k <> k' -> HGetAll k' (HSet k f v s).2 = HGetAll k' s;
  expire_get : forall k k' ttl s, 0 < ttl -> HGetAll k' (Expire k ttl s).2 = HGetAll k' s;
}.

Section checkstate.
Context {S : Type} `{!HashStore S}.
Context (marshal : RegionState -> string) (unmarshal : string -> option RegionState).

Definition with_updated (now : Time) (rs : RegionState) : RegionState :=
  mkRegionState (rg_State rs) (rg_Healthy rs) (rg_StatusCode rs) (rg_LatencyMs rs)
    (rg_FailureReason rs) now.

Definition writeRegion (now : Time) (monitorID : Z) (region : string) (intervalSeconds : Z)
    (rs : RegionState) (s : S) : result kvError unit * S :=
  let key := Key monitorID in
  match HSet key region (marshal (with_updated now rs)) s with
  | (Err e, s') => (Err e, s')
  | (Ok _, s') => Expire key (TTLFor intervalSeconds) s'
  end.

Definition SetScheduled (now : Time) (monitorID : Z) (region : string) (intervalSeconds : Z) :
    S -> result kvError unit * S :=
  writeRegion now monitorID region intervalSeconds (mkRegionState StateScheduled None None None None 0).

Definition SetRunning (now : Time) (monitorID : Z) (region : string) (intervalSeconds : Z) :
    S -> result kvError unit * S :=
  writeRegion now monitorID region intervalSeconds (mkRegionState StateRunning None None None None 0).

Definition result_state (o : Outcome) : RegionState :=
  mkRegionState (if negb (o_Healthy o) then StateFailed else StateDone) (Some (o_Healthy o))
    (o_StatusCode o) (o_LatencyMs o) (o_FailureReason o) 0.

Definition SetResult (now : Time) (monitorID : Z) (region : string) (intervalSeconds : Z) (o : Outcome) :
    S -> result kvError unit * S :=
  writeRegion now monitorID region intervalSeconds (result_state o).

(** [decode]: all slots or an error; an empty hash is "not found". *)
Definition decode (raw : gmap string string) : result kvError (gmap string RegionState * bool) :=
  if bool_decide (raw = ∅) then Ok (∅, false)
  else if bool_decide (map_Forall (fun _ v => is_Some (unmarshal v)) raw)
  then Ok (omap unmarshal raw, true)
  else Err ErrDecode.

Definition Get (monitorID : Z) (s : S) : result kvError (gmap string RegionState * bool) :=
  raw ← HGetAll (Key monitorID) s; decode raw.

(** kv.go: one pipelined read per distinct key. *)
Fixpoint HGetAllMulti (keys : list string) (s : S) : result kvError (gmap string (gmap string string)) :=
  match keys with
  | [] => Ok ∅
  | k :: keys' =>
      h ← HGetAll k s;
      rest ← HGetAllMulti keys' s;
      Ok (<[k := h]> rest)
  end.

(** The loop of [GetMany] over the returned hashes. *)
Fixpoint decode_many (keyToID : gmap string Z) (raw : list (string * gmap string string))
    (out : gmap Z (gmap string RegionState)) : result kvError (gmap Z (gmap string RegionState)) :=
  match raw with
  | [] => Ok out
  | (k, h) :: raw' =>
      d ← decode h;
      let '(regions, found) := d in
      decode_many keyToID raw'
        (if found : bool then <[default 0 (keyToID !! k) := regions]> out else out)
  end.

Definition GetMany (monitorIDs : list Z) (s : S) : result kvError (gmap Z (gmap string RegionState)) :=
  let keyToID := fold_left (fun m id => <[Key id := id]> m) monitorIDs (∅ : gmap string Z) in
  raw ← HGetAllMulti (Key <$> monitorIDs) s;
  decode_many keyToID (map_to_list raw) ∅.
End checkstate.

(** ** The rollup *)

Inductive Phase := PhasePending | PhaseRunning | PhaseComplete.

Definition reduceHealthy (healthy total : Z) (policy : DownPolicy) : bool :=
  let down := total - healthy in
  match policy with
  | DownPolicyAll => down <? total
  | DownPolicyQuorum => down * 2 <=? total
  | _ => down =? 0
  end.

Definition is_terminal (rs : RegionState) : bool :=
  String.eqb (rg_State rs) StateDone || String.eqb (rg_State rs) StateFailed.

(** The counters of the loop: total, terminal, scheduled, healthy. *)
Definition count_region (rs : RegionState) (c : Z * Z * Z * Z) : Z * Z * Z * Z :=
  let '(total, terminal, scheduled, healthy) := c in
  if String.eqb (rg_State rs) StateScheduled then (total + 1, terminal, scheduled + 1, healthy)
  else if is_terminal rs then
    (total + 1, terminal + 1, scheduled,
     match rg_Healthy rs with Some true => healthy + 1 | _ => healthy end)
  else (total + 1, terminal, scheduled, healthy).

Definition Rollup (regions : gmap string RegionState) (policy : DownPolicy) : Phase * option bool :=
  if bool_decide (regions = ∅) then (PhasePending, None)
  else
    let '(total, terminal, scheduled, healthy) :=
      fold_right count_region (0, 0, 0, 0) (snd <$> map_to_list regions) in
    if terminal =? total then (PhaseComplete, Some (reduceHealthy healthy total policy))
    else if scheduled =? total then (PhasePending, None)
    else (PhaseRunning, None).

(** ** Facts *)

Lemma TTLFor_floor i : Hour <= TTLFor i.
Proof. unfold TTLFor, minTTL. case_match; reflect_tests; lia. Qed.
#[export] Hint Resolve TTLFor_floor : pulse_bounds.

Lemma Key_inj i j : Key i = Key j -> i = j.
Proof. unfold Key. intros H. simplify_eq/=. by apply (inj pretty). Qed.

Section facts.
Context {S : Type} `{!HashStore S, !HashStoreLaws S}.
Context (marshal : RegionState -> string) (unmarshal : string -> option RegionState).

Lemma writeRegion_read now mid region i rs (s s' : S) h :
  writeRegion marshal now mid region i rs s = (Ok tt, s') -> HGetAll (Key mid) s = Ok h ->
  HGetAll (Key mid) s' = Ok (<[region := marshal (with_updated now rs)]> h) /\
  forall mid', mid' <> mid -> HGetAll (Key mid') s' = HGetAll (Key mid') s.
Proof using HashStoreLaws0.
  unfold writeRegion. intros Hw Hh.
  destruct (HSet _ _ _ s) as [[[]|e] s1] eqn:Hs; [|done].
  assert (s' = (Expire (Key mid) (TTLFor i) s1).2) as -> by (by rewrite Hw).
  pose proof (TTLFor_floor i). unfold Hour, Minute, Second in *. split.
  - rewrite expire_get by lia. eapply hset_get; eauto.
  - intros mid' Hne. rewrite expire_get by lia.
    pose proof (hset_other (Key mid) (Key mid') region (marshal (with_updated now rs)) s) as Ho.
    rewrite Hs in Ho. apply Ho. intros Hk. apply Hne. symmetry. by apply Key_inj.
Qed.

Lemma decode_insert region v rs h :
  unmarshal v = Some rs -> map_Forall (fun _ v => is_Some (unmarshal v)) h ->
  decode unmarshal (<[region := v]> h) = Ok (<[region := rs]> (omap unmarshal h), true).
Proof.
  intros Hv Hh. unfold decode. rewrite bool_decide_eq_false_2 by apply insert_non_empty.
  rewrite bool_decide_eq_true_2 by (apply map_Forall_insert_2; eauto).
  by rewrite (omap_insert_Some _ _ _ _ rs).
Qed.

End facts.

(** *** Many monitors at once *)

Section multi.
Context {S : Type} `{!HashStore S}.

Lemma HGetAllMulti_lookup keys (s : S) raw :
  HGetAllMulti keys s = Ok raw ->
  forall k, raw !! k = if bool_decide (k ∈ keys) then match HGetAll k s with Ok h => Some h | Err _ => None end else None.
Proof.
  revert raw. induction keys as [|k0 keys IH]; intros raw; cbn [HGetAllMulti].
  - intros [= <-] k. rewrite lookup_empty. by rewrite bool_decide_eq_false_2 by set_solver.
  - intros (h & Hh & (rest & Hr & [= <-])%result_bind_ok)%result_bind_ok k.
    rewrite lookup_insert. case_decide as Hk.
    + subst. rewrite bool_decide_eq_true_2 by set_solver. by rewrite Hh.
    + rewrite (IH _ Hr). by rewrite (bool_decide_ext (k ∈ k0 :: keys) (k ∈ keys)) by set_solver.
Qed.

Lemma HGetAllMulti_ok keys (s : S) raw :
  HGetAllMulti keys s = Ok raw -> forall k, k ∈ keys -> exists h, HGetAll k s = Ok h /\ raw !! k = Some h.
Proof.
  intros Hm k Hk. pose proof (HGetAllMulti_lookup _ _ _ Hm k) as Hl.
  rewrite bool_decide_eq_true_2 in Hl by done.
  revert raw Hm Hl. induction keys as [|k0 keys IH]; intros raw; [set_solver|]. simpl.
  intros (h & Hh & (rest & Hr & [= <-])%result_bind_ok)%result_bind_ok Hl.
  destruct (decide (k = k0)) as [->|Hne]; [rewrite Hh in Hl; eauto|].
  apply elem_of_cons in Hk as [?|Hk]; [done|]. rewrite lookup_insert_ne in Hl |- * by done. eauto.
Qed.

End multi.

Lemma keyToID_lookup ids (m : gmap string Z) id :
  id ∈ ids \/ m !! Key id = Some id ->
  fold_left (fun m id => <[Key id := id]> m) ids m !! Key id = Some id.
Proof.
  revert m. induction ids as [|i ids IH]; intros m Hin; simpl; [set_solver|].
  apply IH. destruct (decide (i = id)) as [->|Hne]; [right; by rewrite lookup_insert_eq|].
  destruct Hin as [Hin|Hm]; [left; set_solver|]. right.
  rewrite lookup_insert_ne; [done|]. intros ?%Key_inj. done.
Qed.

Section decoding.
Context (unmarshal : string -> option RegionState).

(** The decoding loop: every hash that decodes to something lands under its id. *)
Lemma decode_many_lookup keyToID raw out res :
  (forall k h, (k, h) ∈ raw -> exists id, k = Key id /\ keyToID !! k = Some id) ->
  NoDup raw.*1 -> decode_many unmarshal keyToID raw out = Ok res ->
  forall id, res !! id =
    match list_find (fun kh => kh.1 = Key id) raw with
    | Some (_, (_, h)) =>
        match decode unmarshal h with Ok (regions, true) => Some regions | _ => out !! id end
    | None => out !! id
    end /\
    forall h, (Key id, h) ∈ raw -> exists d, decode unmarshal h = Ok d.
Proof.
  revert out. induction raw as [|[k h] raw IH]; intros out Hk Hnd; simpl.
  { intros [= <-] id. split; [done|]. set_solver. }
  intros ([regions found] & Hd & Hrest)%result_bind_ok id.
  destruct (Hk k h) as (i & -> & Hi); [set_solver|]. rewrite Hi in Hrest. simpl in Hrest.
  apply NoDup_cons in Hnd as [Hnotin Hnd].
  destruct (IH _ (fun k h Hin => Hk k h ltac:(set_solver)) Hnd Hrest id) as [Hl Hall]. clear IH.
  case_decide as Hid.
  - apply Key_inj in Hid as ->. rewrite Hl. rewrite Hd. split.
    + destruct (list_find _ raw) as [[j [k' h']]|] eqn:Hf.
      * apply list_find_Some in Hf as (Hj & Hk' & _). simpl in Hk'. subst k'.
        apply list_elem_of_lookup_2 in Hj. exfalso. apply Hnotin. by apply (list_elem_of_fmap_2' fst _ (Key id, h')).
      * destruct found; [by rewrite lookup_insert_eq|done].
    + intros h' [[= ->]|Hin]%elem_of_cons; eauto.
  - rewrite Hl. split.
    + assert ((if found then <[i := regions]> out else out) !! id = out !! id) as ->.
      { destruct found; [|done]. apply lookup_insert_ne. congruence. }
      destruct (list_find _ raw) as [[j [k' h']]|]; done.
    + intros h' [Heq|Hin]%elem_of_cons; [|eauto]. apply (f_equal fst) in Heq. simpl in Heq. congruence.
Qed.
End decoding.

(** *** Counting regions *)

Definition is_healthy (rs : RegionState) : bool := bool_decide (rg_Healthy rs = Some true).

Definition count {A} (p : A -> bool) (l : list A) : Z := Z.of_nat (length (filter (fun x => p x = true) l)).

Lemma count_cons {A} (p : A -> bool) x l : count p (x :: l) = (if p x then 1 else 0) + count p l.
Proof. unfold count. rewrite filter_cons. destruct (p x); simpl; lia. Qed.

Lemma count_bounds {A} (p : A -> bool) l : 0 <= count p l <= Z.of_nat (length l).
Proof. unfold count. pose proof (length_filter (fun x => p x = true) l). lia. Qed.

Lemma count_all {A} (p : A -> bool) l :
  count p l = Z.of_nat (length l) <-> forall x, x ∈ l -> p x = true.
Proof.
  induction l as [|x l IH]; [split; [set_solver|done]|].
  rewrite count_cons. pose proof (count_bounds p l). simpl length. split.
  - intros Hc y Hy. destruct (p x) eqn:Hx; [|lia].
    apply elem_of_cons in Hy as [->|Hy]; [done|]. apply IH; [lia|done].
  - intros Hall. rewrite (Hall x) by set_solver. rewrite (proj2 IH) by set_solver. lia.
Qed.

Lemma count_none {A} (p : A -> bool) l : count p l = 0 <-> forall x, x ∈ l -> p x = false.
Proof.
  induction l as [|x l IH]; [split; [set_solver|done]|].
  rewrite count_cons. pose proof (count_bounds p l). split.
  - intros Hc y Hy. destruct (p x) eqn:Hx; [lia|].
    apply elem_of_cons in Hy as [->|Hy]; [done|]. apply IH; [lia|done].
  - intros Hall. rewrite (Hall x) by set_solver. rewrite (proj2 IH) by set_solver. lia.
Qed.

Lemma scheduled_not_terminal rs : String.eqb (rg_State rs) StateScheduled = true -> is_terminal rs = false.
Proof. intros Hs%String.eqb_eq. unfold is_terminal. by rewrite Hs. Qed.

(** Equality of the tuple of counters. *)
Ltac counters :=
  repeat match goal with |- (_, _) = (_, _) => apply f_equal2 end; simpl; lia.

Lemma count_region_fold l :
  fold_right count_region (0, 0, 0, 0) l =
  (Z.of_nat (length l), count is_terminal l,
   count (fun rs => String.eqb (rg_State rs) StateScheduled) l,
   count (fun rs => is_terminal rs && is_healthy rs) l).
Proof.
  induction l as [|rs l IH]; [done|]. cbn [fold_right]. rewrite IH, !count_cons. unfold count_region.
  destruct (String.eqb (rg_State rs) StateScheduled) eqn:Hs.
  - rewrite (scheduled_not_terminal _ Hs). counters.
  - destruct (is_terminal rs); [|counters].
    unfold is_healthy. destruct (rg_Healthy rs) as [[]|]; counters.
Qed.

(** The slots of a monitor, and the policy's verdict on them. *)
Definition slots (regions : gmap string RegionState) : list RegionState := snd <$> map_to_list regions.

Definition policy_healthy (policy : DownPolicy) (l : list RegionState) : bool :=
  match policy with
  | DownPolicyAll => existsb is_healthy l
  | DownPolicyQuorum => count (fun rs => negb (is_healthy rs)) l <=? count is_healthy l
  | _ => forallb is_healthy l
  end.

Lemma count_split {A} (p : A -> bool) l : count p l + count (fun x => negb (p x)) l = Z.of_nat (length l).
Proof.
  induction l as [|x l IH]; [done|]. rewrite !count_cons. simpl length. destruct (p x); simpl; lia.
Qed.

Lemma count_terminal_healthy l :
  (forall x, x ∈ l -> is_terminal x = true) ->
  count (fun rs => is_terminal rs && is_healthy rs) l = count is_healthy l.
Proof.
  induction l as [|x l IH]; [done|]. intros Hall. rewrite !count_cons, (Hall x) by set_solver.
  rewrite IH by set_solver. done.
Qed.

Lemma reduceHealthy_spec policy l :
  reduceHealthy (count is_healthy l) (Z.of_nat (length l)) policy = policy_healthy policy l.
Proof.
  pose proof (count_split is_healthy l) as Hs. pose proof (count_bounds is_healthy l) as Hb.
  assert (forallb is_healthy l = (count is_healthy l =? Z.of_nat (length l))) as Hall.
  { apply eq_iff_eq_true. rewrite Z.eqb_eq, count_all, forallb_forall.
    setoid_rewrite list_elem_of_In. done. }
  assert (existsb is_healthy l = (0 <? count is_healthy l)) as Hex.
  { destruct (0 <? _) eqn:E; reflect_tests.
    - destruct (existsb is_healthy l) eqn:Ee; [done|]. exfalso.
      assert (count is_healthy l = 0); [|lia]. apply count_none. intros x Hx.
      destruct (is_healthy x) eqn:Hh; [|done]. rewrite <- Ee. symmetry. apply existsb_exists.
      exists x. split; [by apply list_elem_of_In|done].
    - destruct (existsb is_healthy l) eqn:Ee; [|done]. apply existsb_exists in Ee as (x & Hx & Hh).
      apply list_elem_of_In in Hx. assert (count is_healthy l = 0) as H0 by lia.
      rewrite count_none in H0. by rewrite (H0 _ Hx) in Hh. }
  unfold reduceHealthy, policy_healthy. destruct policy; rewrite ?Hall, ?Hex;
    apply eq_iff_eq_true; rewrite ?Z.eqb_eq, ?Z.ltb_lt, ?Z.leb_le; lia.
Qed.

(** The batched read agrees with the single one: a monitor is in the result
    exactly when its own read finds it, with the same slots. *)
Lemma GetMany_agrees {S} `{!HashStore S} unmarshal ids (s : S) out id :
  GetMany unmarshal ids s = Ok out -> id ∈ ids ->
  Get unmarshal id s = Ok (match out !! id with Some r => (r, true) | None => (∅, false) end).
Proof.
  unfold GetMany. intros (raw & Hraw & Hdec)%result_bind_ok Hid.
  destruct (HGetAllMulti_ok _ _ _ Hraw (Key id)) as (h & Hh & Hl); [by apply list_elem_of_fmap_2|].
  unfold Get. rewrite Hh. simpl.
  eapply (decode_many_lookup unmarshal _ _ _ _) with (id := id) in Hdec as [Hout Hall].
  - apply elem_of_map_to_list in Hl. destruct (Hall h Hl) as [[regions found] Hd]. rewrite Hd.
    destruct (list_find _ _) as [[j [k' h']]|] eqn:Hf.
    + apply list_find_Some in Hf as (Hj & Hk' & _). simpl in Hk'. subst k'.
      apply list_elem_of_lookup_2, elem_of_map_to_list in Hj.
      apply elem_of_map_to_list in Hl. simplify_eq. rewrite Hd in Hout.
      revert Hd. unfold decode. rewrite Hout. clear. repeat case_match; intros; by simplify_eq.
    + apply list_find_None in Hf. rewrite Forall_forall in Hf. by specialize (Hf _ Hl eq_refl).
  - intros k h' Hk. apply elem_of_map_to_list in Hk.
    pose proof (HGetAllMulti_lookup _ _ _ Hraw k) as Hk'. rewrite Hk in Hk'.
    case_bool_decide as Hin; [|done]. apply list_elem_of_fmap in Hin as (i & -> & Hi).
    exists i. split; [done|]. apply keyToID_lookup. by left.
  - apply NoDup_fst_map_to_list.
Qed.

(** The verdict of a completed round only improves from any to quorum to all. *)
Lemma policy_order l :
  l <> [] ->
  (policy_healthy DownPolicyAny l = true -> policy_healthy DownPolicyQuorum l = true) /\
  (policy_healthy DownPolicyQuorum l = true -> policy_healthy DownPolicyAll l = true).
Proof.
  intros Hne. rewrite <- !reduceHealthy_spec. unfold reduceHealthy.
  pose proof (count_bounds is_healthy l). assert (0 < Z.of_nat (length l)) by (destruct l; simpl; [done|lia]).
  rewrite Z.eqb_eq, Z.leb_le, Z.ltb_lt. lia.
Qed.

(** ** Properties *)

(** The rollup of a monitor's regions is exact: pending without regions or
    with all of them queued, complete exactly when there are regions and all have
    finished, running otherwise; and the verdict of a complete round is the down
    policy's: every region healthy for any, at least one for all, no more failing
    than healthy for quorum. *)
Theorem Rollup_spec regions policy :
  Rollup regions policy =
    if bool_decide (regions = ∅) then (PhasePending, None)
    else if forallb is_terminal (slots regions)
    then (PhaseComplete, Some (policy_healthy policy (slots regions)))
    else if forallb (fun rs => String.eqb (rg_State rs) StateScheduled) (slots regions)
    then (PhasePending, None)
    else (PhaseRunning, None).
Proof.
  unfold Rollup. case_bool_decide as He; [done|]. fold (slots regions).
  rewrite count_region_fold.
  assert (forall p : RegionState -> bool, (count p (slots regions) =? Z.of_nat (length (slots regions))) =
    forallb p (slots regions)) as Hc.
  { intros p. apply eq_iff_eq_true. rewrite Z.eqb_eq, count_all, forallb_forall.
    by setoid_rewrite list_elem_of_In. }
  rewrite !Hc. destruct (forallb is_terminal _) eqn:Ht; [|done].
  rewrite count_terminal_healthy, reduceHealthy_spec; [done|].
  rewrite forallb_forall in Ht. intros x Hx. by apply Ht, list_elem_of_In.
Qed.

(** A result written for a region is what the view then shows: after
    [SetResult] succeeds, reading the monitor finds that region with the outcome
    and the done or failed state it implies, its other regions as before, and the
    other monitors as before. *)
Theorem SetResult_roundtrip {S} `{!HashStore S, !HashStoreLaws S} marshal unmarshal
    now mid region i o (s s' : S) h :
  (forall rs, unmarshal (marshal rs) = Some rs) ->
  HGetAll (Key mid) s = Ok h -> map_Forall (fun _ v => is_Some (unmarshal v)) h ->
  SetResult marshal now mid region i o s = (Ok tt, s') ->
  Get unmarshal mid s' =
    Ok (<[region := with_updated now (result_state o)]> (omap unmarshal h), true) /\
  forall mid', mid' <> mid -> Get unmarshal mid' s' = Get unmarshal mid' s.
Proof.
  intros Hcodec Hh Hdec Hset.
  destruct (writeRegion_read marshal _ _ _ _ _ _ _ _ Hset Hh) as [Hr Ho]. split.
  - unfold Get. rewrite Hr. simpl. by apply decode_insert.
  - intros mid' Hne. unfold Get. by rewrite (Ho _ Hne).
Qed.

(** ** A store that meets the laws: a map of hashes, without failures *)

#[export] Instance map_store : HashStore (gmap string (gmap string string)) := {
  HSet k f v s := (Ok tt, <[k := <[f := v]> (default ∅ (s !! k))]> s);
  HGetAll k s := Ok (default ∅ (s !! k));
  Expire k ttl s := (Ok tt, s);
}.

#[export] Instance map_store_laws : HashStoreLaws (gmap string (gmap string string)).
Proof.
  split; simpl.
  - intros k f v s s' h [= <-] [= <-]. by rewrite lookup_insert_eq.
  - intros k k' f v s Hne. by rewrite lookup_insert_ne.
  - done.
Qed.

(** *** A codec with the round-trip law *)

Definition reason_code (r : FailureReason) : nat :=
  match r with
  | ReasonConnectionError => 0 | ReasonTimeout => 1 | ReasonStatusMismatch => 2 | ReasonLatencyExceeded => 3
  | ReasonBodyAssertion => 4 | ReasonBlockedTarget => 5 | ReasonCertExpired => 6
  | ReasonCertExpiringSoon => 7 | ReasonCertInvalid => 8
  end%nat.
Definition reason_of (n : nat) : FailureReason :=
  nth n [ReasonConnectionError; ReasonTimeout; ReasonStatusMismatch; ReasonLatencyExceeded; ReasonBodyAssertion;
         ReasonBlockedTarget; ReasonCertExpired; ReasonCertExpiringSoon; ReasonCertInvalid] ReasonTimeout.
#[export] Instance FailureReason_countable : Countable FailureReason.
Proof. apply (inj_countable' reason_code reason_of). by intros []. Defined.

#[export] Instance RegionState_eq_dec : EqDecision RegionState.
Proof. solve_decision. Defined.
#[export] Instance RegionState_countable : Countable RegionState.
Proof.
  apply (inj_countable'
    (fun rs => (rg_State rs, rg_Healthy rs, rg_StatusCode rs, rg_LatencyMs rs, rg_FailureReason rs, rg_UpdatedAt rs))
    (fun '(a, b, c, d, e, f) => mkRegionState a b c d e f)). by intros [].
Defined.

Fixpoint bits_of (p : positive) : string :=
  match p with xH => "" | xO q => String "0" (bits_of q) | xI q => String "1" (bits_of q) end.
Fixpoint of_bits (s : string) : positive :=
  match s with EmptyString => xH | String a r => if Ascii.eqb a "0" then xO (of_bits r) else xI (of_bits r) end.

Lemma of_bits_of p : of_bits (bits_of p) = p.
Proof. induction p as [p IH|p IH|]; simpl; by rewrite ?IH. Qed.

Definition ex_marshal (rs : RegionState) : string := bits_of (encode rs).
Definition ex_unmarshal (s : string) : option RegionState := countable.decode (of_bits s).

Lemma ex_codec rs : ex_unmarshal (ex_marshal rs) = Some rs.
Proof. unfold ex_unmarshal, ex_marshal. by rewrite of_bits_of, decode_encode. Qed.

Definition ex_outcome : Outcome := mkOutcome true (Some 200) (Some 35) None.

Lemma SetResult_roundtrip_witness :
  exists s', SetResult ex_marshal 9 7 "eu-central" 60 ex_outcome ∅ = (Ok tt, s') /\
    Get ex_unmarshal 7 s' = Ok (<["eu-central" := with_updated 9 (result_state ex_outcome)]> ∅, true).
Proof.
  pose (s' := (SetResult ex_marshal 9 7 "eu-central" 60 ex_outcome (∅ : gmap string (gmap string string))).2).
  exists s'. split; [reflexivity|].
  destruct (SetResult_roundtrip ex_marshal ex_unmarshal 9 7 "eu-central" 60 ex_outcome
    (∅ : gmap string (gmap string string)) s' ∅) as [Hg _];
    [apply ex_codec|reflexivity|apply map_Forall_empty|reflexivity|].
  rewrite omap_empty in Hg. exact Hg.
Defined.
