(* ===== verification/Scheduler.v ===== *)
(** * Scheduler: which checks are due, one job per monitor and region
    (src/internal/scheduler/scheduler.go, src/internal/events/events.go,
    topic names of src/internal/bus/bus.go)

    A scan reads the enabled monitors and goes over them; [Round] records one
    call of [dispatch] with the jobs it published.  The producer is a parameter
    that says which sends succeed; the live-state writes of [CheckState] go to an
    optional store and their errors are ignored, as in the source. *)

From S2P Require Import Prelude Domain Store CheckState.
Open Scope Z_scope.

Record CheckJob := mkJob {
  job_JobID : string;
  job_OrgID : Z;
  job_Region : string;
  job_ScheduledAt : Time;
  job_Monitor : Monitor;
}.

Definition CheckJobsTopic (region : string) : string := "check.jobs." +:+ region.

(** A record handed to the bus: topic, partition key, payload. *)
Record Published := mkPublished { pb_topic : string; pb_key : string; pb_job : CheckJob }.

Record Round := mkRound {
  rd_monitor : Monitor;
  rd_at : Time;
  rd_scheduledFor : Time;
  rd_published : list Published;
}.

(** [live = None] is a dispatcher without Redis. *)
Record Dispatcher (S : Type) := mkDispatcher { nextRun : gmap Z Time; live : option S }.
Arguments mkDispatcher {S} _ _.
Arguments nextRun {S} _.
Arguments live {S} _.

(** [interval]: seconds at 64 bits, a minute when not positive. *)
Definition interval_of (m : Monitor) : Duration :=
  let i := wrap64 (m_IntervalSeconds m * Second) in if i <=? 0 then Minute else i.

Definition dispatch_regions (m : Monitor) : list string :=
  let regions := match m_Regions m with [] => [region_Default] | rs => rs end in
  if bool_decide (m_Type m = MonitorSSL) && (1 <? Z.of_nat (length regions)) then take 1 regions else regions.

(** [fmt.Sprintf("%d:%s:%d", m.ID, region, dispatchedAt.Unix())]. *)
Definition job_for (m : Monitor) (dispatchedAt : Time) (region : string) : CheckJob :=
  mkJob (pretty (m_ID m) +:+ ":" +:+ region +:+ ":" +:+ pretty (dispatchedAt / Second))
    (m_OrgID m) region dispatchedAt m.

Definition publish (m : Monitor) (dispatchedAt : Time) (region : string) : Published :=
  mkPublished (CheckJobsTopic region) (pretty (m_ID m)) (job_for m dispatchedAt region).

Section scheduler.
Context {S : Type} `{!HashStore S} (marshal : RegionState -> string).
(** Whether a send succeeds. *)
Context (Produce : Published -> bool).

(** The loop of [dispatch] over the regions. *)
Fixpoint dispatch_loop (m : Monitor) (dispatchedAt : Time) (regions : list string) (st : option S) :
    list Published * option S :=
  match regions with
  | [] => ([], st)
  | region :: regions' =>
      let p := publish m dispatchedAt region in
      if negb (Produce p) then dispatch_loop m dispatchedAt regions' st
      else
        let st' :=
          match st with
          | None => None
          | Some s => Some (SetScheduled marshal dispatchedAt (m_ID m) region (m_IntervalSeconds m) s).2
          end in
        let '(ps, st'') := dispatch_loop m dispatchedAt regions' st' in (p :: ps, st'')
  end.

Definition dispatch (m : Monitor) (dispatchedAt scheduledFor : Time) (st : option S) : Round * option S :=
  let '(ps, st') := dispatch_loop m dispatchedAt (dispatch_regions m) st in
  (mkRound m dispatchedAt scheduledFor ps, st').

(** The body of the scan loop for one monitor. *)
Definition scan_monitor (now : Time) (em : EnabledMonitor) (d : Dispatcher S) : Dispatcher S * option Round :=
  let m := em_Monitor em in
  let interval := interval_of m in
  let next := nextRun d !! m_ID m in
  let go (scheduledFor : Time) :=
    let '(r, st) := dispatch m now scheduledFor (live d) in
    (mkDispatcher (<[m_ID m := now + interval]> (nextRun d)) st, Some r) in
  match next, em_LastCheckedAt em with
  | None, Some l =>
      let due := l + interval in
      if now <? due then (mkDispatcher (<[m_ID m := due]> (nextRun d)) (live d), None) else go due
  | None, None => go now
  | Some n, _ => if now <? n then (d, None) else go n
  end.

Fixpoint scan (now : Time) (ems : list EnabledMonitor) (d : Dispatcher S) : Dispatcher S * list Round :=
  match ems with
  | [] => (d, [])
  | em :: ems' =>
      let '(d1, r) := scan_monitor now em d in
      let '(d2, rs) := scan now ems' d1 in (d2, option_list r ++ rs)
  end.

(** [dispatchDue]: a failed list read skips the tick. *)
Definition dispatchDue (now : Time) (listed : result dbError (list EnabledMonitor)) (d : Dispatcher S) :
    Dispatcher S * list Round :=
  match listed with Err _ => (d, []) | Ok ems => scan now ems d end.

(** [Run]: the ticks, each with the monitors its read returned. *)
Fixpoint Run (ticks : list (Time * result dbError (list EnabledMonitor))) (d : Dispatcher S) :
    Dispatcher S * list Round :=
  match ticks with
  | [] => (d, [])
  | (now, listed) :: ticks' =>
      let '(d1, rs) := dispatchDue now listed d in
      let '(d2, rs') := Run ticks' d1 in (d2, rs ++ rs')
  end.

Definition New : option S -> Dispatcher S := mkDispatcher ∅.

(** ** Spacing *)

(** [spaced last rs]: every round comes no earlier than the time [last] holds
    for its monitor, and sets that time to one interval later. *)
Fixpoint spaced (last : gmap Z Time) (rs : list Round) : Prop :=
  match rs with
  | [] => True
  | r :: rs' =>
      (forall n, last !! m_ID (rd_monitor r) = Some n -> n <= rd_at r) /\
      spaced (<[m_ID (rd_monitor r) := rd_at r + interval_of (rd_monitor r)]> last) rs'
  end.

(** The times after a list of rounds. *)
Definition after (rs : list Round) (last : gmap Z Time) : gmap Z Time :=
  fold_left (fun l r => <[m_ID (rd_monitor r) := rd_at r + interval_of (rd_monitor r)]> l) rs last.

Lemma spaced_app last rs1 rs2 :
  spaced last (rs1 ++ rs2) <-> spaced last rs1 /\ spaced (after rs1 last) rs2.
Proof. revert last. induction rs1 as [|r rs1 IH]; intros last; simpl; [tauto|]. rewrite IH. tauto. Qed.

(** The dispatcher's map holds at least the times of the rounds so far. *)
Definition covers (last : gmap Z Time) (d : Dispatcher S) : Prop :=
  forall id n, last !! id = Some n -> nextRun d !! id = Some n.

Lemma dispatch_round m now sf st :
  rd_monitor (dispatch m now sf st).1 = m /\ rd_at (dispatch m now sf st).1 = now.
Proof. unfold dispatch. by destruct (dispatch_loop m now _ st). Qed.

Lemma scan_monitor_spaced now em d last :
  covers last d ->
  covers (after (option_list (scan_monitor now em d).2) last) (scan_monitor now em d).1 /\
  spaced last (option_list (scan_monitor now em d).2).
Proof.
  intros Hc. unfold scan_monitor. cbv zeta.
  assert (forall sf n, (forall k, last !! m_ID (em_Monitor em) = Some k -> k <= now) -> n = now + interval_of (em_Monitor em) ->
    covers (after (option_list (Some (dispatch (em_Monitor em) now sf (live d)).1)) last)
      (mkDispatcher (<[m_ID (em_Monitor em) := n]> (nextRun d)) (dispatch (em_Monitor em) now sf (live d)).2) /\
    spaced last (option_list (Some (dispatch (em_Monitor em) now sf (live d)).1))) as Hgo.
  { intros sf n Hle ->. destruct (dispatch_round (em_Monitor em) now sf (live d)) as [Hm Ha].
    unfold after. cbn. rewrite Hm, Ha. split; [|done].
    intros id k. simpl. rewrite !lookup_insert. case_decide; [done|]. apply Hc. }
  destruct (nextRun d !! m_ID (em_Monitor em)) as [n|] eqn:Hn.
  - destruct (now <? n) eqn:Hlt; [by split|]. reflect_tests.
    specialize (Hgo n _ ltac:(intros k Hk; apply Hc in Hk; simplify_eq; done) eq_refl).
    by destruct (dispatch _ now n _) as [r st].
  - assert (last !! m_ID (em_Monitor em) = None) as Hl.
    { destruct (last !! _) eqn:E; [|done]. apply Hc in E. congruence. }
    destruct (em_LastCheckedAt em) as [l|].
    + destruct (now <? l + _) eqn:Hlt.
      * split; [|done]. intros id k Hk. simpl in *. rewrite lookup_insert_ne by congruence. by apply Hc.
      * specialize (Hgo (l + interval_of (em_Monitor em)) _ ltac:(intros k Hk; congruence) eq_refl).
        by destruct (dispatch _ now _ _) as [r st].
    + specialize (Hgo now _ ltac:(intros k Hk; congruence) eq_refl).
      by destruct (dispatch _ now _ _) as [r st].
Qed.

Lemma after_app rs1 rs2 last : after (rs1 ++ rs2) last = after rs2 (after rs1 last).
Proof. apply fold_left_app. Qed.

Lemma scan_spaced now ems d last :
  covers last d ->
  covers (after (scan now ems d).2 last) (scan now ems d).1 /\ spaced last (scan now ems d).2.
Proof.
  revert d last. induction ems as [|em ems IH]; intros d last Hc; simpl; [done|].
  destruct (scan_monitor_spaced now em d last Hc) as [Hc1 Hs1].
  destruct (scan_monitor now em d) as [d1 r]. simpl in *.
  destruct (IH d1 _ Hc1) as [Hc2 Hs2]. destruct (scan now ems d1) as [d2 rs]. simpl in *.
  rewrite after_app, spaced_app. auto.
Qed.

Lemma Run_spaced ticks d last :
  covers last d -> spaced last (Run ticks d).2.
Proof.
  revert d last. induction ticks as [|[now listed] ticks IH]; intros d last Hc; simpl; [done|].
  assert (covers (after (dispatchDue now listed d).2 last) (dispatchDue now listed d).1 /\
          spaced last (dispatchDue now listed d).2) as [Hc1 Hs1].
  { unfold dispatchDue. destruct listed; [by apply scan_spaced|done]. }
  destruct (dispatchDue now listed d) as [d1 rs]. simpl in *. specialize (IH d1 _ Hc1).
  destruct (Run ticks d1) as [d2 rs']. simpl in *. rewrite spaced_app. auto.
Qed.

(** ** Due monitors *)

(** When the monitor is next due, if a schedule for it is known. *)
Definition due_at (d : Dispatcher S) (em : EnabledMonitor) : option Time :=
  match nextRun d !! m_ID (em_Monitor em) with
  | Some n => Some n
  | None => (fun l => l + interval_of (em_Monitor em)) <$> em_LastCheckedAt em
  end.

Definition is_due (d : Dispatcher S) (now : Time) (em : EnabledMonitor) : bool :=
  match due_at d em with Some t => t <=? now | None => true end.

Lemma scan_monitor_due now em d :
  (if is_due d now em then
     exists r, (scan_monitor now em d).2 = Some r /\ rd_monitor r = em_Monitor em /\ rd_at r = now /\
       nextRun (scan_monitor now em d).1 = <[m_ID (em_Monitor em) := now + interval_of (em_Monitor em)]> (nextRun d)
   else (scan_monitor now em d).2 = None) /\
  (forall id, id <> m_ID (em_Monitor em) -> nextRun (scan_monitor now em d).1 !! id = nextRun d !! id).
Proof.
  unfold scan_monitor, is_due, due_at. cbv zeta.
  assert (forall sf, let '(r, st) := dispatch (em_Monitor em) now sf (live d) in
    rd_monitor r = em_Monitor em /\ rd_at r = now) as Hd.
  { intros sf. pose proof (dispatch_round (em_Monitor em) now sf (live d)). by destruct (dispatch _ _ _ _). }
  destruct (nextRun d !! m_ID (em_Monitor em)) as [n|] eqn:Hn; [|destruct (em_LastCheckedAt em) as [l|]]; simpl.
  - rewrite Z.leb_antisym. destruct (now <? n) eqn:Hlt; simpl; [done|].
    specialize (Hd n). destruct (dispatch _ _ _ _) as [r st]. simpl.
    split; [exists r; naive_solver|]. intros id Hne. by rewrite lookup_insert_ne.
  - rewrite Z.leb_antisym. destruct (now <? _) eqn:Hlt; simpl.
    + split; [done|]. intros id Hne. by rewrite lookup_insert_ne.
    + specialize (Hd (l + interval_of (em_Monitor em))). destruct (dispatch _ _ _ _) as [r st]. simpl.
      split; [exists r; naive_solver|]. intros id Hne. by rewrite lookup_insert_ne.
  - specialize (Hd now). destruct (dispatch _ _ _ _) as [r st]. simpl.
    split; [exists r; naive_solver|]. intros id Hne. by rewrite lookup_insert_ne.
Qed.

Lemma filter_agree {A} (p q : A -> bool) (l : list A) :
  (forall x, x ∈ l -> p x = q x) -> filter (fun x => p x = true) l = filter (fun x => q x = true) l.
Proof.
  induction l as [|x l IH]; intros Hpq; [done|]. rewrite !filter_cons, (Hpq x) by set_solver.
  rewrite IH by set_solver. done.
Qed.

Lemma scan_due now ems d :
  NoDup (m_ID ∘ em_Monitor <$> ems) ->
  (fun r => (rd_monitor r, rd_at r)) <$> (scan now ems d).2 =
  (fun em => (em_Monitor em, now)) <$> filter (fun em => is_due d now em = true) ems.
Proof.
  revert d. induction ems as [|em ems IH]; intros d Hnd; simpl; [done|].
  apply NoDup_cons in Hnd as [Hnotin Hnd].
  destruct (scan_monitor_due now em d) as [Hdue Hother].
  destruct (scan_monitor now em d) as [d1 r] eqn:Hs. simpl in *.
  specialize (IH d1 Hnd). destruct (scan now ems d1) as [d2 rs]. simpl in *.
  rewrite fmap_app, IH, filter_cons.
  assert (filter (fun em => is_due d1 now em = true) ems = filter (fun em => is_due d now em = true) ems) as ->.
  { apply filter_agree. intros em' Hin. unfold is_due, due_at. rewrite Hother; [done|].
    intros Heq. apply Hnotin. rewrite <- Heq. by apply (list_elem_of_fmap_2' (m_ID ∘ em_Monitor) _ em'). }
  destruct (is_due d now em).
  - destruct Hdue as (r' & -> & Hm & Ha & _). simpl. by rewrite Hm, Ha.
  - rewrite Hdue. done.
Qed.
End scheduler.

Lemma dispatch_loop_published {S} `{!HashStore S} marshal Produce m at_ regions (st : option S) :
  (dispatch_loop marshal Produce m at_ regions st).1 =
  filter (fun p => Produce p = true) (publish m at_ <$> regions).
Proof.
  revert st. induction regions as [|r regions IH]; intros st; [done|].
  cbn [dispatch_loop fmap list_fmap]. rewrite filter_cons.
  destruct (Produce (publish m at_ r)) eqn:Hp; cbn [negb]; [|rewrite IH; by rewrite decide_False by done].
  rewrite decide_True by done.
  match goal with |- context [dispatch_loop _ _ _ _ regions ?st'] => specialize (IH st') end.
  destruct (dispatch_loop _ _ _ _ regions _). simpl in *. by rewrite IH.
Qed.

Lemma dispatch_regions_ssl m : m_Type m = MonitorSSL -> length (dispatch_regions m) = 1%nat.
Proof.
  intros Hm. unfold dispatch_regions. rewrite (bool_decide_eq_true_2 _ Hm).
  destruct (m_Regions m) as [|r [|r' rs]]; [done|done|].
  rewrite (proj2 (Z.ltb_lt _ _)) by (simpl length; lia). done.
Qed.

(** ** Properties *)

(** C39: rounds of one monitor are at least its interval apart.  Over any sequence
    of ticks, with any monitors listed, any sends failing and any list reads
    failing, from a dispatcher that starts empty, no monitor is dispatched before
    its previous round plus its interval. *)
Theorem rounds_are_spaced {S} `{!HashStore S} marshal Produce ticks (st : option S) :
  spaced ∅ (Run marshal Produce ticks (New st)).2.
Proof. apply Run_spaced. intros id n. by rewrite lookup_empty. Qed.

(** A scan dispatches exactly the monitors that are due, in the order listed:
    those whose next run has come, those first seen whose last check is an
    interval old, and those never checked. *)
Theorem scan_dispatches_exactly_the_due {S} `{!HashStore S} marshal Produce now ems (d : Dispatcher S) :
  NoDup (m_ID ∘ em_Monitor <$> ems) ->
  (fun r => (rd_monitor r, rd_at r)) <$> (dispatchDue marshal Produce now (Ok ems) d).2 =
  (fun em => (em_Monitor em, now)) <$> filter (fun em => is_due d now em = true) ems.
Proof. apply scan_due. Qed.

(** A round fans out to the monitor's regions: the jobs published are those
    for its regions whose send succeeds, whatever the live-state store does; there
    is at least one region, and exactly one for an ssl monitor. *)
Theorem dispatch_fans_out {S} `{!HashStore S} marshal Produce m at_ sf (st : option S) :
  rd_published (dispatch marshal Produce m at_ sf st).1 =
    filter (fun p => Produce p = true) (publish m at_ <$> dispatch_regions m) /\
  dispatch_regions m <> [] /\
  (m_Type m = MonitorSSL -> length (dispatch_regions m) = 1%nat) /\
  (m_Type m <> MonitorSSL -> m_Regions m <> [] -> dispatch_regions m = m_Regions m).
Proof.
  split; [|split; [|split; [apply dispatch_regions_ssl|]]].
  - pose proof (dispatch_loop_published marshal Produce m at_ (dispatch_regions m) st) as Hp.
    unfold dispatch. by destruct (dispatch_loop _ _ _ _ _ st).
  - unfold dispatch_regions. destruct (m_Regions m) as [|r rs]; by destruct (_ && _).
  - intros Hm Hr. unfold dispatch_regions. rewrite (bool_decide_eq_false_2 _ Hm).
    by destruct (m_Regions m).
Qed.

(** ** Witnesses *)

Definition ex_sched_monitor (id : Z) (t : MonitorType) (regions : list string) : Monitor :=
  mkMonitor id 1 t "m" "https://example.com" "GET" [] "" "2xx" 10 60 true None None 2 regions
    DownPolicyQuorum [].

Definition ex_listed : list EnabledMonitor :=
  [mkEnabled (ex_sched_monitor 1 MonitorHTTP ["eu-central"; "us-east"]) None;
   mkEnabled (ex_sched_monitor 2 MonitorSSL ["eu-central"; "us-east"]) (Some (50 * Second));
   mkEnabled (ex_sched_monitor 3 MonitorHTTP []) (Some (30 * Second))].

Lemma scan_dispatches_exactly_the_due_witness :
  (fun r => (rd_monitor r, rd_at r)) <$>
    (dispatchDue (S:=gmap string (gmap string string)) (fun _ => "") (fun _ => true) (100 * Second)
       (Ok ex_listed) (New None)).2 =
  [(ex_sched_monitor 1 MonitorHTTP ["eu-central"; "us-east"], 100 * Second);
   (ex_sched_monitor 3 MonitorHTTP [], 100 * Second)].
Proof.
  etransitivity.
  - apply (scan_dispatches_exactly_the_due (S:=gmap string (gmap string string)) (fun _ => "") (fun _ => true)
      (100 * Second) ex_listed (New None)).
    vm_compute. repeat (constructor; [set_solver|]). constructor.
  - vm_compute. reflexivity.
Defined.
