(* ===== verification/Entitlements.v ===== *)
(** * Entitlements: what a plan allows (src/internal/entitlements/entitlements.go)

    A plan is a stored string; each limit is a map from the four plan codes, read
    with the fallback the source writes out. *)

From S2P Require Import Prelude Domain.
Open Scope Z_scope.

(** The resolved feature set, and the resolver that grants everything. *)
Record Set_ := mkSet { FailureSnapshot : bool }.
Class Resolver (R : Type) := For : R -> Z -> Set_.
Inductive AllOn := AllOn_.
#[export] Instance AllOn_resolver : Resolver AllOn := fun _ _ => mkSet true.

Definition Plan : Type := string.
Definition PlanTier1 : Plan := "tier1".
Definition PlanTier2 : Plan := "tier2".
Definition PlanTier3 : Plan := "tier3".
Definition PlanTierCustom : Plan := "tierCustom".

Definition ParsePlan (s : string) : Plan :=
  if String.eqb s PlanTier2 then PlanTier2
  else if String.eqb s PlanTier3 then PlanTier3
  else if String.eqb s PlanTierCustom then PlanTierCustom
  else PlanTier1.

Definition IsKnownPlan (s : string) : bool :=
  String.eqb s PlanTier1 || String.eqb s PlanTier2 || String.eqb s PlanTier3 || String.eqb s PlanTierCustom.

(** A per-plan table: the four entries, in the order of the tiers. *)
Definition table {A} (a b c d : A) : gmap string A :=
  list_to_map [(PlanTier1, a); (PlanTier2, b); (PlanTier3, c); (PlanTierCustom, d)].

(** The read the resolvers share: the plan's entry, else the free tier's. *)
Definition or_free {A} (m : gmap string A) (zero : A) (plan : Plan) : A :=
  match m !! plan with Some a => a | None => default zero (m !! PlanTier1) end.

(** ** Seats *)

Definition seatCaps : gmap string Z := table 1 3 10 1000000.
Definition SeatCap (_orgID : Z) (plan : Plan) : Z := or_free seatCaps 0 plan.

Record SeatUsage := mkSeatUsage { su_Used : Z; su_Cap : Z }.
Definition HasFreeSeat (u : SeatUsage) : bool := su_Used u <? su_Cap u.

(** ** Monitors *)

Definition HardIntervalFloorSeconds : Z := 30.

Record MonitorLimits := mkMonitorLimits {
  ml_MonitorsCap : Z;
  ml_MinIntervalSeconds : Z;
  ml_RegionsAllowed : list string;
  ml_RegionsPerMonitorCap : Z;
}.

Definition monitorLimits : gmap string MonitorLimits :=
  table (mkMonitorLimits 10 900 [EUCentral] 1)
        (mkMonitorLimits 25 300 [EUCentral] 1)
        (mkMonitorLimits 50 60 [EUCentral; USEast; USWest; SAEast] 4)
        (mkMonitorLimits 1000 30 [EUCentral; USEast; USWest; SAEast] 4).

Definition MonitorLimits_for (_orgID : Z) (plan : Plan) : MonitorLimits :=
  or_free monitorLimits (mkMonitorLimits 0 0 [] 0) plan.

Definition EffectiveIntervalFloor (l : MonitorLimits) : Z :=
  if HardIntervalFloorSeconds <? ml_MinIntervalSeconds l then ml_MinIntervalSeconds l
  else HardIntervalFloorSeconds.

Definition AllowsRegion (l : MonitorLimits) (region : string) : bool :=
  existsb (fun r => String.eqb r region) (ml_RegionsAllowed l).

(** ** Status pages, retention, features *)

Definition statusPageCaps : gmap string Z := table 1 3 10 1000.
Definition StatusPageCap (_orgID : Z) (plan : Plan) : Z := or_free statusPageCaps 0 plan.

Definition retentionDays : gmap string Z := table 7 30 90 180.
Definition Retention (plan : Plan) : Z := or_free retentionDays 0 plan.

Definition customDomainAllowed : gmap string bool := table false false true true.
Definition apiAccessAllowed : gmap string bool := table false true true true.
Definition apiWriteAllowed : gmap string bool := table false false true true.

(** A Go map read of a missing key is the zero value. *)
Definition CustomDomainAllowed (plan : Plan) : bool := default false (customDomainAllowed !! plan).
Definition APIAccessAllowed (plan : Plan) : bool := default false (apiAccessAllowed !! plan).
Definition APIWriteAllowed (plan : Plan) : bool := default false (apiWriteAllowed !! plan).

Definition apiRatePerMin : gmap string Z := table 30 120 300 600.
Definition APIRatePerMin (plan : Plan) : Z := or_free apiRatePerMin 0 plan.

Definition channelTypesAllowed : gmap string (list string) :=
  table ["discord"; "smtp"; "telegram"]
        ["slack"; "discord"; "smtp"; "email"; "telegram"]
        ["slack"; "discord"; "webhook"; "smtp"; "email"; "telegram"; "pagerduty"; "opsgenie"; "teams"]
        ["slack"; "discord"; "webhook"; "smtp"; "email"; "telegram"; "pagerduty"; "opsgenie"; "teams"; "twilio"].
Definition ChannelTypesAllowed (plan : Plan) : list string := or_free channelTypesAllowed [] plan.

Definition FailureSnapshotAllowed (_plan : Plan) : bool := true.

(** ** Check now *)

Record CheckNowLimits := mkCheckNowLimits {
  cn_CooldownSeconds : Z;
  cn_MaxPerWindow : Z;
  cn_WindowSeconds : Z;
}.
Definition checkNowLimits : gmap string CheckNowLimits :=
  table (mkCheckNowLimits 60 10 1800) (mkCheckNowLimits 30 30 1800)
        (mkCheckNowLimits 20 60 1800) (mkCheckNowLimits 10 200 1800).
Definition CheckNowLimitsFor (plan : Plan) : CheckNowLimits :=
  or_free checkNowLimits (mkCheckNowLimits 0 0 0) plan.

(** ** The catalog *)

Record PlanEntry := mkPlanEntry {
  pe_Plan : Plan;
  pe_MonitorsCap : Z;
  pe_MinIntervalSeconds : Z;
  pe_SeatsCap : Z;
  pe_StatusPagesCap : Z;
  pe_RetentionDays : Z;
  pe_RegionsAllowed : list string;
  pe_RegionsPerMonitorCap : Z;
  pe_CustomDomainAllowed : bool;
  pe_APIAccessAllowed : bool;
  pe_APIWriteAllowed : bool;
  pe_APIRatePerMin : Z;
  pe_ChannelTypes : list string;
}.

Definition catalogOrder : list Plan := [PlanTier1; PlanTier2; PlanTier3; PlanTierCustom].

Definition catalog_entry (p : Plan) : PlanEntry :=
  let ml := default (mkMonitorLimits 0 0 [] 0) (monitorLimits !! p) in
  mkPlanEntry p (ml_MonitorsCap ml) (EffectiveIntervalFloor ml) (default 0 (seatCaps !! p))
    (default 0 (statusPageCaps !! p)) (default 0 (retentionDays !! p)) (ml_RegionsAllowed ml)
    (ml_RegionsPerMonitorCap ml) (default false (customDomainAllowed !! p))
    (default false (apiAccessAllowed !! p)) (default false (apiWriteAllowed !! p))
    (default 0 (apiRatePerMin !! p)) (default [] (channelTypesAllowed !! p)).

Definition Catalog : list PlanEntry := catalog_entry <$> catalogOrder.

(** ** The order of the tiers *)

(** The place of a stored plan in the catalog; an unknown one counts as free. *)
Definition rank (s : string) : Z :=
  if String.eqb s PlanTier2 then 1 else if String.eqb s PlanTier3 then 2
  else if String.eqb s PlanTierCustom then 3 else 0.

(** Every limit of [s] is at most as generous as that of [t]. *)
Definition at_most (s t : Plan) : bool :=
  let ms := MonitorLimits_for 0 s in let mt := MonitorLimits_for 0 t in
  (SeatCap 0 s <=? SeatCap 0 t) && (ml_MonitorsCap ms <=? ml_MonitorsCap mt) &&
  (EffectiveIntervalFloor mt <=? EffectiveIntervalFloor ms) &&
  forallb (AllowsRegion mt) (ml_RegionsAllowed ms) &&
  (ml_RegionsPerMonitorCap ms <=? ml_RegionsPerMonitorCap mt) &&
  (StatusPageCap 0 s <=? StatusPageCap 0 t) && (Retention s <=? Retention t) &&
  implb (CustomDomainAllowed s) (CustomDomainAllowed t) && implb (APIAccessAllowed s) (APIAccessAllowed t) &&
  implb (APIWriteAllowed s) (APIWriteAllowed t) && implb (APIWriteAllowed s) (APIAccessAllowed s) &&
  (APIRatePerMin s <=? APIRatePerMin t) &&
  forallb (fun c => existsb (String.eqb c) (ChannelTypesAllowed t)) (ChannelTypesAllowed s) &&
  (cn_CooldownSeconds (CheckNowLimitsFor t) <=? cn_CooldownSeconds (CheckNowLimitsFor s)) &&
  (cn_MaxPerWindow (CheckNowLimitsFor s) <=? cn_MaxPerWindow (CheckNowLimitsFor t)).

Lemma table_unknown {A} (a b c d : A) s : IsKnownPlan s = false -> table a b c d !! s = None.
Proof.
  unfold IsKnownPlan. rewrite !orb_false_iff, !String.eqb_neq. intros [[[H1 H2] H3] H4].
  unfold table. apply not_elem_of_list_to_map. set_solver.
Qed.

(** An unknown plan reads as the free one, in every limit. *)
Lemma or_free_unknown {A} (a b c d zero : A) s :
  IsKnownPlan s = false -> or_free (table a b c d) zero s = or_free (table a b c d) zero PlanTier1.
Proof. intros Hu. unfold or_free. by rewrite (table_unknown _ _ _ _ _ Hu). Qed.

Lemma flag_unknown b c d s :
  IsKnownPlan s = false -> default false (table false b c d !! s) = default false (table false b c d !! PlanTier1).
Proof. intros Hu. by rewrite (table_unknown _ _ _ _ _ Hu). Qed.

(** All the limits of a plan. *)
Definition limits (s : Plan) :=
  (SeatCap 0 s, MonitorLimits_for 0 s, StatusPageCap 0 s, Retention s, CustomDomainAllowed s,
   APIAccessAllowed s, APIWriteAllowed s, APIRatePerMin s, ChannelTypesAllowed s, CheckNowLimitsFor s).

Lemma limits_unknown s : IsKnownPlan s = false -> limits s = limits PlanTier1.
Proof.
  intros Hu. unfold limits, SeatCap, MonitorLimits_for, StatusPageCap, Retention, CustomDomainAllowed,
    APIAccessAllowed, APIWriteAllowed, APIRatePerMin, ChannelTypesAllowed, CheckNowLimitsFor,
    seatCaps, monitorLimits, statusPageCaps, retentionDays, customDomainAllowed, apiAccessAllowed,
    apiWriteAllowed, apiRatePerMin, channelTypesAllowed, checkNowLimits.
  repeat match goal with |- (_, _) = (_, _) => apply f_equal2 end;
    first [by apply or_free_unknown|by apply flag_unknown].
Qed.

Lemma at_most_limits s s' t t' : limits s = limits s' -> limits t = limits t' -> at_most s t = at_most s' t'.
Proof.
  unfold limits, at_most. intros Hs Ht.
  injection Hs as -> -> -> -> -> -> -> -> -> ->. injection Ht as -> -> -> -> -> -> -> -> -> ->. done.
Qed.

Lemma at_most_unknown s t :
  (IsKnownPlan s = false -> at_most s t = at_most PlanTier1 t) /\
  (IsKnownPlan t = false -> at_most s t = at_most s PlanTier1).
Proof. split; intros Hu; apply at_most_limits; by rewrite ?(limits_unknown _ Hu). Qed.

Lemma rank_unknown s : IsKnownPlan s = false -> rank s = 0.
Proof.
  unfold IsKnownPlan, rank. rewrite !orb_false_iff. by intros [[[_ ->] ->] ->].
Qed.

Lemma known_cases s :
  IsKnownPlan s = true -> s = PlanTier1 \/ s = PlanTier2 \/ s = PlanTier3 \/ s = PlanTierCustom.
Proof. unfold IsKnownPlan. rewrite !orb_true_iff, !String.eqb_eq. tauto. Qed.

Lemma at_most_known s t :
  IsKnownPlan s = true -> IsKnownPlan t = true -> rank s <= rank t -> at_most s t = true.
Proof.
  intros Hs%known_cases Ht%known_cases. destruct_or! Hs; destruct_or! Ht; subst;
    first [intros _; vm_compute; reflexivity|vm_compute; intros H; by destruct H].
Qed.

(** Plans are ordered and fail safe.  For any two stored plan strings, if the
    first does not rank above the second then none of its limits is more generous
    (caps, interval floor, regions, retention, channels, api rights, manual-check
    limits).  A string that is no known plan ranks with the free tier, so it never
    grants more than that, and it is parsed to it. *)
Theorem plans_ordered_and_fail_safe s t :
  rank s <= rank t ->
  at_most s t = true /\ (IsKnownPlan s = false -> ParsePlan s = PlanTier1 /\ at_most s PlanTier1 = true).
Proof.
  assert (forall s t, rank s <= rank t -> at_most s t = true) as Hall.
  { clear. intros s t Hr.
    assert (exists s', IsKnownPlan s' = true /\ rank s' = rank s /\ forall t, at_most s t = at_most s' t) as (s' & Hs & Hrs & ->).
    { destruct (IsKnownPlan s) eqn:E; [by exists s|]. exists PlanTier1. rewrite (rank_unknown _ E).
      split; [done|]. split; [done|]. intros t'. by apply at_most_unknown. }
    destruct (IsKnownPlan t) eqn:E; [apply at_most_known; [done|done|lia]|].
    rewrite (proj2 (at_most_unknown s' t) E). apply at_most_known; [done|done|].
    rewrite (rank_unknown _ E) in Hr. change (rank PlanTier1) with 0. lia. }
  intros Hr. split; [by apply Hall|]. intros Hu. split.
  - unfold ParsePlan. unfold IsKnownPlan in Hu. rewrite !orb_false_iff in Hu. by destruct Hu as [[[_ ->] ->] ->].
  - apply Hall. rewrite (rank_unknown _ Hu). done.
Qed.

Lemma plans_ordered_and_fail_safe_witness :
  at_most "enterprise" PlanTier2 = true /\
  (IsKnownPlan "enterprise" = false -> ParsePlan "enterprise" = PlanTier1 /\ at_most "enterprise" PlanTier1 = true).
Proof. apply (plans_ordered_and_fail_safe "enterprise" PlanTier2). vm_compute. discriminate. Defined.
