(* ===== verification/Worker.v ===== *)
(** * Worker: run a job's check and emit its result (src/internal/worker/worker.go)

    The runner's collaborators are interfaces: the checker ([Checker.Check] over a
    [World]), the entitlement resolver, the live-state store, the producer and
    the writer of debug rows.  [handle] returns the error that leaves the job for
    redelivery, the two store states, and the event it emitted. *)

From S2P Require Import Prelude Domain Checker CheckState Scheduler Entitlements Alerting Store StoreInv AlertingService.
Open Scope Z_scope.

(** [ResultWriter]: the debug rows; their errors are logged and dropped. *)
Class ResultWriter (W : Type) := {
  wr_UpsertMonitorLastFailure : Z -> Z -> ResponseSnapshot -> Time -> W -> result dbError unit * W;
  wr_UpsertMonitorCert : Z -> Z -> CertInfo -> Time -> W -> result dbError unit * W;
}.

Definition TopicCheckResults : string := "check.results".

(** [result.OrgID = job.OrgID; result.Region = job.Region]. *)
Definition stamp (job : CheckJob) (r : CheckResult) : CheckResult :=
  mkResult (r_ID r) (job_OrgID job) (r_MonitorID r) (job_Region job) (r_ScheduledAt r) (r_CheckedAt r)
    (r_Healthy r) (r_FailureReason r) (r_StatusCode r) (r_LatencyMs r) (r_ErrorText r)
    (r_CertExpiresAt r) (r_Snapshot r) (r_CertInfo r).

Inductive workerError := ErrProduce.

Section worker.
Context {S W R : Type} `{!HashStore S, !ResultWriter W, !Resolver R}.
Context (marshal : RegionState -> string) (ents : R) (cfg : Config) (w : World).

Definition markRunning (m : Monitor) (region : string) (st : option S) : option S :=
  match st with
  | None => None
  | Some s => Some (SetRunning marshal (time_now w) (m_ID m) region (m_IntervalSeconds m) s).2
  end.

Definition markResult (m : Monitor) (region : string) (r : CheckResult) (st : option S) : option S :=
  match st with
  | None => None
  | Some s =>
      Some (SetResult marshal (time_done w) (m_ID m) region (m_IntervalSeconds m)
              (mkOutcome (r_Healthy r) (r_StatusCode r) (r_LatencyMs r) (r_FailureReason r)) s).2
  end.

(** A result as its JSON carries it: the snapshot and the certificate detail are tagged "-". *)
Definition json_result (r : CheckResult) : CheckResult :=
  mkResult (r_ID r) (r_OrgID r) (r_MonitorID r) (r_Region r) (r_ScheduledAt r) (r_CheckedAt r) (r_Healthy r)
    (r_FailureReason r) (r_StatusCode r) (r_LatencyMs r) (r_ErrorText r) (r_CertExpiresAt r) None None.

(** [emit]: the event on check.results, keyed by the monitor. *)
Definition result_event (job : CheckJob) (r : CheckResult) : CheckResultEvent :=
  mkCheckResultEvent (job_JobID job) (job_ScheduledAt job) (json_result r).

Definition persist_debug (r : CheckResult) (db : W) : W :=
  let db :=
    match r_Snapshot r with
    | Some sn => (wr_UpsertMonitorLastFailure (r_OrgID r) (r_MonitorID r) sn (r_CheckedAt r) db).2
    | None => db
    end in
  match r_CertInfo r with
  | Some ci => (wr_UpsertMonitorCert (r_OrgID r) (r_MonitorID r) ci (r_CheckedAt r) db).2
  | None => db
  end.

(** [handle]; [None] is a payload that does not unmarshal. *)
Definition handle (produce_ok : bool) (rec : option CheckJob) (st : option S) (db : W) :
    result workerError unit * option S * W * list CheckResultEvent :=
  match rec with
  | None => (Ok tt, st, db, [])
  | Some job =>
      let m := job_Monitor job in
      let st := markRunning m (job_Region job) st in
      let capture := FailureSnapshot (For ents (job_OrgID job)) in
      let result := stamp job (Check cfg w m capture).1 in
      let st := markResult m (job_Region job) result st in
      if negb produce_ok then (Err ErrProduce, st, db, [])
      else (Ok tt, st, persist_debug result db, [result_event job result])
  end.
End worker.

(** ** The database as the writer of debug rows *)

#[export] Instance db_writer : ResultWriter DB := {
  wr_UpsertMonitorLastFailure := UpsertMonitorLastFailure;
  wr_UpsertMonitorCert := UpsertMonitorCert;
}.

(** The tables and sequences alerting depends on. *)
Definition same_core (db1 db2 : DB) : Prop :=
  monitors db1 = monitors db2 /\ check_results db1 = check_results db2 /\ incidents db1 = incidents db2 /\
  seq_monitors db1 = seq_monitors db2 /\ seq_results db1 = seq_results db2 /\
  seq_incidents db1 = seq_incidents db2.

#[export] Instance same_core_equiv : Equivalence same_core.
Proof.
  split; unfold same_core; [by intros db|intros x y|intros x y z]; intuition congruence.
Qed.

Lemma same_core_wf db1 db2 : same_core db1 db2 -> wf db2 -> wf db1.
Proof.
  intros (Hm & Hr & Hi & Hsm & Hsr & Hsi) [? ? ? ? ? ? ? ? ? ? ?].
  split; rewrite ?Hm, ?Hr, ?Hi, ?Hsm, ?Hsr, ?Hsi in *; done.
Qed.

Lemma persist_debug_core r db : same_core (persist_debug r db) db.
Proof.
  unfold persist_debug. cbv zeta.
  assert (forall o m sn t db, same_core (UpsertMonitorLastFailure o m sn t db).2 db) as Hl.
  { clear. intros o m sn t db. unfold UpsertMonitorLastFailure, WithOrg, mbind, tx_bind, check_monitor_fk. simpl.
    by destruct (monitors db !! m). }
  assert (forall o m ci t db, same_core (UpsertMonitorCert o m ci t db).2 db) as Hc.
  { clear. intros o m ci t db. unfold UpsertMonitorCert, WithOrg, mbind, tx_bind, check_monitor_fk. simpl.
    by destruct (monitors db !! m). }
  destruct (r_Snapshot r), (r_CertInfo r); simpl; rewrite ?Hc, ?Hl; done.
Qed.

(** ** What a check keeps of the monitor *)

Lemma Check_monitor cfg w m capture : r_MonitorID (Check cfg w m capture).1 = m_ID m.
Proof.
  unfold Check. case_bool_decide.
  - unfold checkSSL, judge_cert. repeat (case_match; simplify_eq/=; try done).
  - assert (forall res ctx resp, r_MonitorID (assert_response cfg w m capture ctx resp res).1 = r_MonitorID res) as Ha.
    { intros res ctx resp. unfold assert_response, fail_assertion.
      destruct (match m_BodyContains m with Some _ => _ | None => _ end) as [read|e]; [|done].
      rewrite let_pair_1. destruct (status_fails m _); [|destruct (latency_fails w m); [|destruct (body_fails m _)]];
        simpl; destruct capture; by try destruct (snapshot cfg resp read). }
    assert (r_MonitorID (send_request cfg w m capture).1 = m_ID m) as Hs.
    { unfold send_request. cbv zeta. destruct (NewRequest_error _ _ _); [done|].
      destruct (Do _ _ _ _ _) as [[resp|e] evs]; [|done]. by rewrite let_pair_1, Ha. }
    unfold checkHTTP. cbv zeta. destruct (if String.eqb _ "" then _ else _) as [[[reason text]|] evs]; [done|].
    by rewrite let_pair_1.
Qed.

(** The result a job's check produces, as the worker emits it. *)
Definition job_result {R} `{!Resolver R} (ents : R) (cfg : Config) (w : World) (job : CheckJob) : CheckResult :=
  stamp job (Check cfg w (job_Monitor job) (FailureSnapshot (For ents (job_OrgID job)))).1.

Lemma job_result_ids {R} `{!Resolver R} (ents : R) cfg w job :
  r_MonitorID (job_result ents cfg w job) = m_ID (job_Monitor job) /\
  r_OrgID (job_result ents cfg w job) = job_OrgID job /\
  r_Region (job_result ents cfg w job) = job_Region job.
Proof. unfold job_result, stamp. simpl. by rewrite Check_monitor. Qed.

(** ** Properties *)

(** The worker's authoritative output is the event.  When the send succeeds
    it emits exactly one event, carrying the job's id, schedule time, org and
    region and the verdict of the check; when it fails the handler returns an
    error, so that the job is redelivered, and writes no debug row.  Neither the
    live-state store nor the debug rows can change this. *)
Theorem worker_emits_the_verdict {S W R} `{!HashStore S, !ResultWriter W, !Resolver R}
    marshal (ents : R) cfg w job (st : option S) (db : W) :
  let '(r, _, _, evs) := handle marshal ents cfg w true (Some job) st db in
  let '(r', _, db', evs') := handle marshal ents cfg w false (Some job) st db in
  (exists ev, r = Ok tt /\ evs = [ev] /\ cre_JobID ev = job_JobID job /\
     cre_ScheduledAt ev = job_ScheduledAt job /\ r_OrgID (cre_Result ev) = job_OrgID job /\
     r_Region (cre_Result ev) = job_Region job /\ r_MonitorID (cre_Result ev) = m_ID (job_Monitor job) /\
     verdict (cre_Result ev) =
       verdict (Check cfg w (job_Monitor job) (FailureSnapshot (For ents (job_OrgID job)))).1) /\
  r' = Err ErrProduce /\ evs' = [] /\ db' = db.
Proof.
  unfold handle. cbn [negb]. split; [|done].
  destruct (job_result_ids ents cfg w job) as (Hm & Ho & Hr). unfold job_result in *.
  eexists. do 2 (split; [reflexivity|]). simpl in *. rewrite Hm. done.
Qed.

(** C7: one round through the pipeline is one step of the engine.  For a stored
    monitor, the job the scheduler builds for one of its regions, run by the
    worker with the database as its store, yields an event, which carries the
    result without its snapshot and certificate detail, and whose handling by
    alerting advances the monitor's stored alert state by the engine's decision
    on the check's verdict, and puts on the notify topic that decision's
    notification and nothing else. *)
Theorem pipeline_round_is_one_step {S R} `{!HashStore S, !Resolver R} marshal (ents : R) cfg w sha now cipher
    m row db (st : option S) at_ region :
  wf db -> monitor_row (m_OrgID m) (m_ID m) db = Some row -> scanMonitor cipher row = Ok m ->
  let job := job_for m at_ region in
  let rid := seq_results db in
  let iid := seq_incidents db in
  let res := with_id rid (with_scheduled at_ (json_result (job_result ents cfg w job))) in
  let state := state_of_row (m_OrgID m) (m_ID m) row (incidents db) in
  let d := Apply m res state in
  find_row (same_result_key (with_scheduled at_ (job_result ents cfg w job))) (check_results db) = None ->
  exists st' db1 ev db2,
    handle marshal ents cfg w true (Some job) st db = (Ok tt, st', db1, [ev]) /\
    AlertingService.handle (S:=DB) (AlertStore0:=db_store cipher) sha now true (Some ev) db1 =
      (Ok tt, db2,
       match d_Notify d, reported m d iid rid (as_OpenIncident state) with
       | Some n, Some inc => [notify_message sha now m inc res (ne_Type n) (ne_WarnDays n)]
       | _, _ => []
       end) /\
    alert_state (m_OrgID m) (m_ID m) db2 = Some (advance m d iid rid state).
Proof.
  intros Hwf Hrow Hm job rid iid res state d Hun.
  set (r := job_result ents cfg w job).
  pose proof (persist_debug_core r db) as Hcore.
  pose proof (same_core_wf _ _ Hcore Hwf) as Hwf1. destruct Hcore as (Hmon & Hres & Hinc & _ & Hsr & Hsi).
  destruct (job_result_ids ents cfg w job) as (Hid & Horg & _). fold r in Hid, Horg.
  destruct (handle_first_time sha now cipher (result_event job r) (persist_debug r db) row m) as (db2 & Hh & Hst);
    [done| | |done|].
  - unfold unseen. simpl. by rewrite Hres.
  - unfold monitor_row in *. cbn [result_event cre_Result json_result r_OrgID r_MonitorID]. rewrite Hmon, Hid, Horg. exact Hrow.
  - exists (markResult marshal w m region r (markRunning marshal w m region st)), (persist_debug r db),
      (result_event job r), db2.
    rewrite Hsr, Hsi, Hinc in Hh, Hst. split; [reflexivity|]. split; [exact Hh|exact Hst].
Qed.

(** ** Witness *)

(** The monitor of [ex_db_failing], one failure in, checked again against a
    target that resolves to a private address: the incident opens. *)
Lemma pipeline_round_is_one_step_witness :
  exists st' db1 ev db2 msg,
    handle (S:=gmap string (gmap string string)) ex_marshal AllOn_ ex_config (ex_world [[10; 0; 0; 1]]) true
      (Some (job_for (monitor_defaults 1 ex_stored_monitor) 200 "eu-central")) (Some ∅) ex_db_failing =
      (Ok tt, st', db1, [ev]) /\
    AlertingService.handle (S:=DB) (AlertStore0:=db_store (Some ex_cipher)) id 500 true (Some ev) db1 =
      (Ok tt, db2, [msg]) /\
    nm_EventType msg = EventDown /\ r_FailureReason (nm_Check msg) = Some ReasonBlockedTarget.
Proof.
  destruct (pipeline_round_is_one_step (S:=gmap string (gmap string string)) ex_marshal AllOn_ ex_config
    (ex_world [[10; 0; 0; 1]]) id 500 (Some ex_cipher) (monitor_defaults 1 ex_stored_monitor) ex_row
    ex_db_failing (Some ∅) 200 "eu-central") as (st' & db1 & ev & db2 & Hw & Ha & _);
    [apply ex_db_failing_wf|vm_compute; reflexivity..|].
  exists st', db1, ev, db2. eexists. split; [exact Hw|]. split; [rewrite Ha; vm_compute; reflexivity|].
  split; vm_compute; reflexivity.
Defined.
