(* ===== verification/Authz.v ===== *)
(** * Authz: the role gate (src/internal/authz/authz.go)

    The permission matrix as a set of actions per role, the pure decision [Can]
    and its guards. *)

From S2P Require Import Prelude Domain GoStrings.
Open Scope Z_scope.

Inductive Action :=
  | ActionViewMonitoring | ActionManageMonitors | ActionManageChannels | ActionAckIncident
  | ActionCloseIncident | ActionManageStatusPages | ActionConfigureCustomDomain
  | ActionViewMembers | ActionInviteMember | ActionManageInvitation | ActionChangeMemberRole
  | ActionRemoveMember | ActionViewAuditLog | ActionEditOrgSettings | ActionManageAPIKeys
  | ActionManageWebhooks | ActionViewBilling | ActionManageBilling | ActionTransferOwnership
  | ActionDeleteOrganization | ActionCreateOrganization.

#[export] Instance Action_eq_dec : EqDecision Action.
Proof. solve_decision. Defined.

Inductive ActorKind := ActorHuman | ActorAPIKey.
#[export] Instance ActorKind_eq_dec : EqDecision ActorKind.
Proof. solve_decision. Defined.

Record Actor := mkActor {
  ac_Kind : ActorKind;
  ac_UserID : Z;
  ac_KeyID : Z;
  ac_OrgID : Z;
  ac_Role : Role;
}.

(** [rs_NewRole = RoleUnknown] is the empty role of other actions. *)
Record Resource := mkResource {
  res_OrgID : Z;
  res_TargetRole : Role;
  res_NewRole : Role;
  res_OwnerCount : Z;
}.
Definition org_resource (orgID : Z) : Resource := mkResource orgID RoleUnknown RoleUnknown 0.

Record Decision := mkDecision { de_Allowed : bool; de_Reason : string }.
Definition allow : Decision := mkDecision true "".
Definition deny (reason : string) : Decision := mkDecision false reason.

Definition viewer_actions : list Action :=
  [ActionViewMonitoring; ActionViewMembers; ActionCreateOrganization].
Definition member_actions : list Action :=
  viewer_actions ++ [ActionManageMonitors; ActionManageChannels; ActionAckIncident; ActionManageStatusPages].
Definition admin_actions : list Action :=
  member_actions ++
  [ActionCloseIncident; ActionConfigureCustomDomain; ActionInviteMember; ActionManageInvitation;
   ActionChangeMemberRole; ActionRemoveMember; ActionViewAuditLog; ActionEditOrgSettings;
   ActionManageAPIKeys; ActionManageWebhooks; ActionViewBilling].
Definition owner_actions : list Action :=
  admin_actions ++ [ActionManageBilling; ActionTransferOwnership; ActionDeleteOrganization].

(** [roleActions[role]]; a role outside the matrix has no actions. *)
Definition roleActions (r : Role) : list Action :=
  match r with
  | RoleViewer => viewer_actions
  | RoleMember => member_actions
  | RoleAdmin => admin_actions
  | RoleOwner => owner_actions
  | RoleUnknown => []
  end.

Definition ownerOnly (a : Action) : bool :=
  match a with ActionManageBilling | ActionTransferOwnership | ActionDeleteOrganization => true | _ => false end.

Definition isLastOwner (r : Resource) : bool := res_OwnerCount r <=? 1.

Definition guardChangeRole (actor : Actor) (r : Resource) : Decision :=
  if bool_decide (ac_Role actor = RoleAdmin) &&
     (bool_decide (res_TargetRole r = RoleOwner) || bool_decide (res_NewRole r = RoleOwner))
  then deny "admin cannot change a role to or from owner"
  else if bool_decide (res_TargetRole r = RoleOwner) && bool_decide (res_NewRole r <> RoleOwner) && isLastOwner r
  then deny "cannot demote the last owner; transfer ownership first"
  else allow.

Definition guardRemoveMember (actor : Actor) (r : Resource) : Decision :=
  if bool_decide (ac_Role actor = RoleAdmin) && bool_decide (res_TargetRole r = RoleOwner)
  then deny "admin cannot remove an owner"
  else if bool_decide (res_TargetRole r = RoleOwner) && isLastOwner r
  then deny "cannot remove the last owner; transfer ownership first"
  else allow.

Definition Can (actor : Actor) (action : Action) (resource : Resource) : Decision :=
  if bool_decide (action <> ActionCreateOrganization) && negb (res_OrgID resource =? 0) &&
     negb (res_OrgID resource =? ac_OrgID actor)
  then deny "resource belongs to another org"
  else if bool_decide (ac_Kind actor = ActorAPIKey) && ownerOnly action
  then deny "api keys cannot perform owner-only actions"
  else if negb (bool_decide (action ∈ roleActions (ac_Role actor)))
  then deny "role not permitted"
  else
    match action with
    | ActionChangeMemberRole => guardChangeRole actor resource
    | ActionRemoveMember => guardRemoveMember actor resource
    | _ => allow
    end.

Definition EnsureNotLastOwner (targetRole : Role) (ownerCount : Z) : Decision :=
  if bool_decide (targetRole = RoleOwner) && (ownerCount <=? 1)
  then deny "cannot remove the last owner; transfer ownership or delete the org"
  else allow.

(** ** Facts *)

Definition role_rank (r : Role) : Z :=
  match r with RoleUnknown => 0 | RoleViewer => 1 | RoleMember => 2 | RoleAdmin => 3 | RoleOwner => 4 end.

Definition with_role (r : Role) (a : Actor) : Actor :=
  mkActor (ac_Kind a) (ac_UserID a) (ac_KeyID a) (ac_OrgID a) r.

Lemma roleActions_mono r1 r2 a : role_rank r1 <= role_rank r2 -> a ∈ roleActions r1 -> a ∈ roleActions r2.
Proof.
  destruct r1, r2; cbn [role_rank roleActions]; intros Hr; try lia; try done;
    unfold owner_actions, admin_actions, member_actions; rewrite ?elem_of_app; try tauto;
    intros []%elem_of_nil.
Qed.

(** What an allowed action entails. *)
Lemma Can_allowed actor action r :
  de_Allowed (Can actor action r) = true ->
  (action = ActionCreateOrganization \/ res_OrgID r = 0 \/ res_OrgID r = ac_OrgID actor) /\
  (ac_Kind actor = ActorAPIKey -> ownerOnly action = false) /\
  action ∈ roleActions (ac_Role actor).
Proof.
  unfold Can.
  destruct (bool_decide (action <> ActionCreateOrganization) && negb (res_OrgID r =? 0) &&
     negb (res_OrgID r =? ac_OrgID actor)) eqn:Horg; [done|].
  destruct (bool_decide (ac_Kind actor = ActorAPIKey) && ownerOnly action) eqn:Hkey; [done|].
  destruct (bool_decide (action ∈ roleActions (ac_Role actor))) eqn:Hrole; [|done]. intros _.
  split; [|split].
  - rewrite !andb_false_iff, !negb_false_iff, !Z.eqb_eq, bool_decide_eq_false in Horg.
    destruct Horg as [[Hc|?]|?]; [|auto|auto]. left. by apply dec_stable.
  - intros Hk. rewrite (bool_decide_eq_true_2 _ Hk) in Hkey. done.
  - by apply bool_decide_eq_true in Hrole.
Qed.

(** An allowed action passed its guard. *)
Lemma Can_guard actor action r :
  de_Allowed (Can actor action r) = true ->
  de_Allowed (match action with
              | ActionChangeMemberRole => guardChangeRole actor r
              | ActionRemoveMember => guardRemoveMember actor r
              | _ => allow
              end) = true.
Proof. unfold Can. by repeat (case_match; [done|]). Qed.

Lemma admin_or_owner actor action :
  action = ActionChangeMemberRole \/ action = ActionRemoveMember -> action ∈ roleActions (ac_Role actor) ->
  ac_Role actor = RoleAdmin \/ ac_Role actor = RoleOwner.
Proof.
  intros Ha. destruct (ac_Role actor); cbn [roleActions]; auto; unfold member_actions, viewer_actions;
    rewrite ?elem_of_app, ?elem_of_cons, ?elem_of_nil; intuition congruence.
Qed.

(** The guards on roles. *)
Lemma Can_change_role actor r :
  de_Allowed (Can actor ActionChangeMemberRole r) = true ->
  (ac_Role actor = RoleAdmin \/ ac_Role actor = RoleOwner) /\
  (ac_Role actor <> RoleOwner -> res_TargetRole r <> RoleOwner /\ res_NewRole r <> RoleOwner) /\
  (res_TargetRole r = RoleOwner -> res_NewRole r <> RoleOwner -> 1 < res_OwnerCount r).
Proof.
  intros Hc. pose proof (Can_allowed _ _ _ Hc) as (_ & _ & Hin).
  pose proof (admin_or_owner _ _ (or_introl eq_refl) Hin) as Hrole. split; [done|].
  apply Can_guard in Hc. unfold guardChangeRole, isLastOwner in Hc.
  destruct (bool_decide (ac_Role actor = RoleAdmin) && _) eqn:E1; [done|].
  destruct (bool_decide (res_TargetRole r = RoleOwner) && _ && _) eqn:E2; [done|]. split.
  - intros Hno. destruct Hrole as [Ha|?]; [|done]. rewrite (bool_decide_eq_true_2 _ Ha) in E1.
    simpl in E1. by reflect_tests.
  - intros Ht Hn. rewrite (bool_decide_eq_true_2 _ Ht), (bool_decide_eq_true_2 _ Hn) in E2.
    simpl in E2. by reflect_tests.
Qed.

Lemma Can_remove_member actor r :
  de_Allowed (Can actor ActionRemoveMember r) = true ->
  (ac_Role actor = RoleAdmin \/ ac_Role actor = RoleOwner) /\
  (res_TargetRole r = RoleOwner -> ac_Role actor = RoleOwner /\ 1 < res_OwnerCount r).
Proof.
  intros Hc. pose proof (Can_allowed _ _ _ Hc) as (_ & _ & Hin).
  pose proof (admin_or_owner _ _ (or_intror eq_refl) Hin) as Hrole. split; [done|].
  apply Can_guard in Hc. unfold guardRemoveMember, isLastOwner in Hc. intros Ht.
  rewrite (bool_decide_eq_true_2 _ Ht), andb_true_r in Hc. simpl in Hc.
  destruct (bool_decide (ac_Role actor = RoleAdmin)) eqn:E1; [done|].
  destruct (res_OwnerCount r <=? 1) eqn:E2; [done|]. reflect_tests. destruct Hrole; [done|]. done.
Qed.

(** Outside the member guards the decision only grows with the role. *)
Lemma Can_mono actor action res r1 r2 :
  action <> ActionChangeMemberRole -> action <> ActionRemoveMember -> role_rank r1 <= role_rank r2 ->
  de_Allowed (Can (with_role r1 actor) action res) = true ->
  de_Allowed (Can (with_role r2 actor) action res) = true.
Proof.
  intros Hn1 Hn2 Hr Hc. pose proof (Can_allowed _ _ _ Hc) as (_ & _ & Hin). simpl in Hin.
  revert Hc. unfold Can. simpl. rewrite (bool_decide_eq_true_2 _ Hin).
  rewrite (bool_decide_eq_true_2 _ (roleActions_mono _ _ _ Hr Hin)). simpl.
  by repeat case_match.
Qed.

(** ** Properties *)

(** The gate is a lattice of roles with hard limits.  An allowed action is in
    the actor's role set and, unless it creates an org, targets the actor's own
    org; an API key never gets an owner-only action; outside the member guards a
    higher role may do whatever a lower one may.  A role change or a removal is
    only for admins and owners; only an owner touches an owner or makes one; and
    the last owner is neither demoted nor removed. *)
Theorem role_gate_limits actor action res r2 :
  de_Allowed (Can actor action res) = true ->
  action ∈ roleActions (ac_Role actor) /\
  (action = ActionCreateOrganization \/ res_OrgID res = 0 \/ res_OrgID res = ac_OrgID actor) /\
  (ac_Kind actor = ActorAPIKey -> ownerOnly action = false) /\
  (action <> ActionChangeMemberRole -> action <> ActionRemoveMember ->
     role_rank (ac_Role actor) <= role_rank r2 -> de_Allowed (Can (with_role r2 actor) action res) = true) /\
  (action = ActionChangeMemberRole \/ action = ActionRemoveMember ->
     (ac_Role actor = RoleAdmin \/ ac_Role actor = RoleOwner) /\
     (res_TargetRole res = RoleOwner \/ (action = ActionChangeMemberRole /\ res_NewRole res = RoleOwner) ->
        ac_Role actor = RoleOwner) /\
     (res_TargetRole res = RoleOwner -> action = ActionRemoveMember \/ res_NewRole res <> RoleOwner ->
        1 < res_OwnerCount res)).
Proof.
  intros Hc. destruct (Can_allowed _ _ _ Hc) as (Horg & Hkey & Hin).
  split_and!; [done|done|done| |].
  - intros H1 H2 Hr. apply (Can_mono actor action res (ac_Role actor) r2 H1 H2 Hr). by destruct actor.
  - intros [-> | ->].
    + destruct (Can_change_role _ _ Hc) as (Hrole & Hno & Hlast). split; [done|]. split.
      * intros Ht. destruct (decide (ac_Role actor = RoleOwner)) as [|Hn]; [done|].
        destruct (Hno Hn). naive_solver.
      * intros Ht [?|Hn]; [done|]. auto.
    + destruct (Can_remove_member _ _ Hc) as (Hrole & Ht). naive_solver.
Qed.

Lemma role_gate_limits_witness :
  1 < 2 /\ ac_Role (mkActor ActorHuman 1 0 5 RoleOwner) = RoleOwner.
Proof.
  destruct (role_gate_limits (mkActor ActorHuman 1 0 5 RoleOwner) ActionRemoveMember
    (mkResource 5 RoleOwner RoleUnknown 2) RoleOwner) as (_ & _ & _ & _ & Hg); [reflexivity|].
  destruct (Hg (or_intror eq_refl)) as (_ & Ho & Hl).
  split; [apply Hl; [reflexivity|left; reflexivity]|apply Ho; left; reflexivity].
Defined.
