(* ===== verification/Members.v ===== *)
(** * Members: memberships, invitations and seats
    (src/internal/store/memberships.go, invitations.go; src/internal/api/members.go)

    The tables memberships and invitations with their constraints, the last-owner
    trigger of schema.sql included; the store's transactions over them; and the
    handlers of the api, each a sequence of those transactions.  Postgres's
    [lower] and Go's [strings.EqualFold] are parameters. *)

From stdpp Require Import sorting.
From S2P Require Import Prelude Domain GoStrings Entitlements Authz.
Open Scope Z_scope.

(** ** Data *)

Inductive InvitationState := InvitePending | InviteAccepted | InviteRevoked | InviteExpired.
#[export] Instance InvitationState_eq_dec : EqDecision InvitationState.
Proof. solve_decision. Defined.

Record Membership := mkMembership { mb_ID : Z; mb_OrgID : Z; mb_UserID : Z; mb_Role : Role }.

(** [in_TokenHash = None] is the NULL of a row whose token is not minted yet. *)
Record Invitation := mkInvitation {
  in_ID : Z;
  in_OrgID : Z;
  in_Email : string;
  in_Role : Role;
  in_State : InvitationState;
  in_TokenHash : option string;
  in_Locale : string;
  in_CreatedBy : option Z;
  in_ExpiresAt : Time;
  in_AcceptedAt : option Time;
}.

Record Organization := mkOrganization {
  og_Name : string; og_Plan : string; og_DefaultLocale : string; og_Deleted : bool;
}.
Record User := mkUser { us_Email : string; us_EmailVerified : bool; us_Name : string; us_Active : bool }.

Record MDB := mkMDB {
  memberships : gmap Z Membership;
  invitations : gmap Z Invitation;
  organizations : gmap Z Organization;
  users : gmap Z User;
  seq_memberships : Z;
  seq_invitations : Z;
}.

Definition set_memberships (f : gmap Z Membership -> gmap Z Membership) (db : MDB) : MDB :=
  mkMDB (f (memberships db)) (invitations db) (organizations db) (users db) (seq_memberships db) (seq_invitations db).
Definition set_invitations (f : gmap Z Invitation -> gmap Z Invitation) (db : MDB) : MDB :=
  mkMDB (memberships db) (f (invitations db)) (organizations db) (users db) (seq_memberships db) (seq_invitations db).
Definition next_membership (db : MDB) : MDB :=
  mkMDB (memberships db) (invitations db) (organizations db) (users db) (seq_memberships db + 1) (seq_invitations db).
Definition next_invitation (db : MDB) : MDB :=
  mkMDB (memberships db) (invitations db) (organizations db) (users db) (seq_memberships db) (seq_invitations db + 1).

Inductive mError := MNoRows | MUnique | MForeignKey | MLastOwner.

(** ** Memberships (memberships.go) *)

Definition is_member (orgID userID : Z) (m : Membership) : bool :=
  (mb_OrgID m =? orgID) && (mb_UserID m =? userID).
Definition is_owner (orgID : Z) (m : Membership) : bool :=
  (mb_OrgID m =? orgID) && bool_decide (mb_Role m = RoleOwner).

(** INSERT INTO memberships: the unique (org_id, user_id) and the foreign keys. *)
Definition insert_membership (orgID userID : Z) (role : Role) (db : MDB) : result mError Z * MDB :=
  let id := seq_memberships db in
  let db1 := next_membership db in
  if bool_decide (is_Some (find_row (is_member orgID userID) (memberships db))) then (Err MUnique, db1)
  else if bool_decide (organizations db !! orgID = None) || bool_decide (users db !! userID = None)
  then (Err MForeignKey, db1)
  else (Ok id, set_memberships (insert id (mkMembership id orgID userID role)) db1).

Definition CreateMembership (m : Membership) (db : MDB) : result mError Z * MDB :=
  insert_membership (mb_OrgID m) (mb_UserID m) (mb_Role m) db.

Definition GetMembership (userID orgID : Z) (db : MDB) : result mError Membership :=
  match find_row (is_member orgID userID) (memberships db) with
  | Some (_, m) => Ok m
  | None => Err MNoRows
  end.

(** The orders of the list queries. *)
Definition id_asc (m m' : Membership) : Prop := mb_ID m <= mb_ID m'.
#[export] Instance id_asc_dec : RelDecision id_asc.
Proof. unfold id_asc. intros m m'. apply _. Defined.
Definition id_desc (i i' : Invitation) : Prop := in_ID i' <= in_ID i.
#[export] Instance id_desc_dec : RelDecision id_desc.
Proof. unfold id_desc. intros i i'. apply _. Defined.

Definition ListMembers (orgID : Z) (db : MDB) : list Membership :=
  merge_sort id_asc
    (snd <$> rows_where (fun m => mb_OrgID m =? orgID) (memberships db)).

(** The trigger enforce_last_owner (schema.sql) on a row that is deleted
    ([new = None]) or whose role is updated: whether it lets the change through.  It
    sees the committed rows of other transactions only, so two that overlap can both
    pass it; here they run one at a time. *)
Definition enforce_last_owner (k : Z) (old : Membership) (new : option Role) (db : MDB) : bool :=
  if bool_decide (new = Some RoleOwner) then true
  else
    match organizations db !! mb_OrgID old with
    | Some o =>
        if og_Deleted o then true
        else negb (rows_affected (is_owner (mb_OrgID old)) (delete k (memberships db)) =? 0)
    | None => true
    end.

Definition with_role (r : Role) (m : Membership) : Membership :=
  mkMembership (mb_ID m) (mb_OrgID m) (mb_UserID m) r.

Definition UpdateMemberRole (orgID userID : Z) (role : Role) (db : MDB) : result mError Z * MDB :=
  match find_row (is_member orgID userID) (memberships db) with
  | None => (Ok 0, db)
  | Some (k, m) =>
      if enforce_last_owner k m (Some role) db
      then (Ok 1, set_memberships (insert k (with_role role m)) db)
      else (Err MLastOwner, db)
  end.

Definition RemoveMember_tx (orgID userID : Z) (db : MDB) : result mError Z * MDB :=
  match find_row (is_member orgID userID) (memberships db) with
  | None => (Ok 0, db)
  | Some (k, m) =>
      if enforce_last_owner k m None db then (Ok 1, set_memberships (delete k) db)
      else (Err MLastOwner, db)
  end.

Definition CountMembers (orgID : Z) (db : MDB) : Z :=
  rows_affected (fun m => mb_OrgID m =? orgID) (memberships db).
Definition CountOwners (orgID : Z) (db : MDB) : Z := rows_affected (is_owner orgID) (memberships db).

Definition GetUser (id : Z) (db : MDB) : option User := users db !! id.
Definition GetOrganization (id : Z) (db : MDB) : option Organization := organizations db !! id.

(** ** Invitations (invitations.go) *)

Definition is_pending (orgID : Z) (i : Invitation) : bool :=
  (in_OrgID i =? orgID) && bool_decide (in_State i = InvitePending).

Definition with_state (st : InvitationState) (accepted : option Time) (i : Invitation) : Invitation :=
  mkInvitation (in_ID i) (in_OrgID i) (in_Email i) (in_Role i) st (in_TokenHash i) (in_Locale i)
    (in_CreatedBy i) (in_ExpiresAt i) accepted.
Definition with_expiry (t : Time) (i : Invitation) : Invitation :=
  mkInvitation (in_ID i) (in_OrgID i) (in_Email i) (in_Role i) (in_State i) (in_TokenHash i) (in_Locale i)
    (in_CreatedBy i) t (in_AcceptedAt i).
Definition with_token (h : string) (i : Invitation) : Invitation :=
  mkInvitation (in_ID i) (in_OrgID i) (in_Email i) (in_Role i) (in_State i) (Some h) (in_Locale i)
    (in_CreatedBy i) (in_ExpiresAt i) (in_AcceptedAt i).

(** The pending row an UPDATE ... WHERE id AND org_id AND state = 'pending' hits. *)
Definition pending_row (orgID inviteID : Z) (db : MDB) : option Invitation :=
  match invitations db !! inviteID with
  | Some i => if is_pending orgID i then Some i else None
  | None => None
  end.

(** Such an update, with the rows affected. *)
Definition update_pending (orgID inviteID : Z) (f : Invitation -> Invitation) (db : MDB) : Z * MDB :=
  match pending_row orgID inviteID db with
  | Some i => (1, set_invitations (insert inviteID (f i)) db)
  | None => (0, db)
  end.

Section store.
Context (lower : string -> string).

(** The unique partial index on (org_id, lower(email)) of pending rows. *)
Definition same_pending (orgID : Z) (email : string) (i : Invitation) : bool :=
  is_pending orgID i && String.eqb (lower (in_Email i)) (lower email).

(** A token already stored on another row (unique index; NULLs do not clash). *)
Definition token_taken (h : option string) (inviteID : Z) (db : MDB) : bool :=
  match h with
  | None => false
  | Some t => negb (rows_affected (fun i => bool_decide (in_TokenHash i = Some t)) (delete inviteID (invitations db)) =? 0)
  end.

(** The foreign key created_by, which may be NULL. *)
Definition creator_exists (i : Invitation) (db : MDB) : bool :=
  match in_CreatedBy i with None => true | Some u => bool_decide (is_Some (users db !! u)) end.

(** The zero expiry (0) is replaced by seven days from now. *)
Definition CreateInvitation_tx (now : Time) (i : Invitation) (db : MDB) : result mError Z * MDB :=
  let id := seq_invitations db in
  let db1 := next_invitation db in
  let row := mkInvitation id (in_OrgID i) (in_Email i) (in_Role i) InvitePending (in_TokenHash i)
               (if String.eqb (in_Locale i) "" then "en" else in_Locale i) (in_CreatedBy i)
               (if in_ExpiresAt i =? zeroTime then now + 7 * Day else in_ExpiresAt i) None in
  if negb (rows_affected (same_pending (in_OrgID i) (in_Email i)) (invitations db) =? 0) ||
     token_taken (in_TokenHash i) id db
  then (Err MUnique, db1)
  else if bool_decide (organizations db !! in_OrgID i = None) || negb (creator_exists i db)
  then (Err MForeignKey, db1)
  else (Ok id, set_invitations (insert id row) db1).

Definition GetInvitationByToken (tokenHash : string) (db : MDB) : result mError Invitation :=
  match find_row (fun i => bool_decide (in_TokenHash i = Some tokenHash)) (invitations db) with
  | Some (_, i) => Ok i
  | None => Err MNoRows
  end.

Definition ListInvitations (orgID : Z) (db : MDB) : list Invitation :=
  merge_sort id_desc
    (snd <$> rows_where (fun i => in_OrgID i =? orgID) (invitations db)).

Definition CountPendingInvitations (orgID : Z) (db : MDB) : Z :=
  rows_affected (is_pending orgID) (invitations db).

Definition GetInvitation (orgID inviteID : Z) (db : MDB) : result mError Invitation :=
  match invitations db !! inviteID with
  | Some i => if in_OrgID i =? orgID then Ok i else Err MNoRows
  | None => Err MNoRows
  end.

Definition ResendInvitation_tx (orgID inviteID : Z) (expiresAt : Time) : MDB -> Z * MDB :=
  update_pending orgID inviteID (with_expiry expiresAt).

Definition SetInvitationToken (orgID inviteID : Z) (tokenHash : string) (db : MDB) : result mError Z * MDB :=
  match pending_row orgID inviteID db with
  | Some i =>
      if token_taken (Some tokenHash) inviteID db then (Err MUnique, db)
      else (Ok 1, set_invitations (insert inviteID (with_token tokenHash i)) db)
  | None => (Ok 0, db)
  end.

Definition RevokeInvitation_tx (orgID inviteID : Z) : MDB -> Z * MDB :=
  update_pending orgID inviteID (fun i => with_state InviteRevoked (in_AcceptedAt i) i).

(** One transaction: the flip to accepted, then the membership; a failure of the
    second undoes the first. *)
Definition AcceptInvitation_tx (now : Time) (orgID inviteID userID : Z) (db : MDB) : result mError Z * MDB :=
  match pending_row orgID inviteID db with
  | None => (Err MNoRows, db)
  | Some i =>
      let db1 := set_invitations (insert inviteID (with_state InviteAccepted (Some now) i)) db in
      match insert_membership orgID userID (in_Role i) db1 with
      | (Ok id, db2) => (Ok id, db2)
      | (Err e, _) => (Err e, next_membership db)
      end
  end.

Definition ExpireInvitations (now : Time) (db : MDB) : Z * MDB :=
  let due i := bool_decide (in_State i = InvitePending) && (in_ExpiresAt i <=? now) in
  (rows_affected due (invitations db),
   set_invitations (update_where due (fun i => with_state InviteExpired (in_AcceptedAt i) i)) db).
End store.

(** ** The api (members.go) *)

Record Principal := mkPrincipal {
  pr_Kind : ActorKind; pr_UserID : Z; pr_KeyID : Z; pr_OrgID : Z; pr_Role : option Role;
}.

(** [humanInOrg]: a principal with an org and a role ([None] is the empty role). *)
Definition humanInOrg (p : option Principal) : option (Principal * Actor) :=
  match p with
  | Some q =>
      match pr_Role q with
      | Some r =>
          if pr_OrgID q =? 0 then None
          else Some (q, mkActor (pr_Kind q) (pr_UserID q) (pr_KeyID q) (pr_OrgID q) r)
      | None => None
      end
  | None => None
  end.

Inductive Response :=
  | R200 | R201 | R204 | R401 | R402 (limit : Z) | R403 (reason : string) | R404
  | R409 (reason : string) | R422 (reason : string) | R500.

(** What a handler does outside the database. *)
Inductive Effect := InvalidateMemberRole (userID orgID : Z) | PublishInviteEmail (inviteID : Z).

Definition Handled : Type := Response * MDB * list Effect.

Definition isLastOwnerReason (reason : string) : bool := Contains reason "last owner".

Definition validRole (r : Role) : bool :=
  match r with RoleOwner | RoleAdmin | RoleMember | RoleViewer => true | RoleUnknown => false end.

(** A denial of the member guards: 409 for the last owner, 403 otherwise. *)
Definition denied (d : Decision) : Response :=
  if isLastOwnerReason (de_Reason d) then R409 (de_Reason d) else R403 (de_Reason d).

(** The tail of a handler that answers with the member's user. *)
Definition reply_user (userID : Z) (db : MDB) : Response :=
  match GetUser userID db with Some _ => R200 | None => R500 end.

Definition ChangeMemberRole (p : option Principal) (body : option Role) (userId : string) (db : MDB) : Handled :=
  match humanInOrg p with
  | None => (R401, db, [])
  | Some (q, actor) =>
      match body with
      | None => (R422 "body required", db, [])
      | Some newRole =>
          if negb (validRole newRole) then (R422 "invalid role", db, [])
          else
            match Atoi userId with
            | None => (R404, db, [])
            | Some targetID =>
                match GetMembership targetID (pr_OrgID q) db with
                | Err _ => (R404, db, [])
                | Ok target =>
                    let owners := CountOwners (pr_OrgID q) db in
                    let d := Can actor ActionChangeMemberRole
                               (mkResource (pr_OrgID q) (mb_Role target) newRole owners) in
                    if negb (de_Allowed d) then (denied d, db, [])
                    else if bool_decide (newRole = mb_Role target) then (reply_user targetID db, db, [])
                    else
                      match UpdateMemberRole (pr_OrgID q) targetID newRole db with
                      | (Err MLastOwner, db') =>
                          (R409 "cannot demote the last owner; transfer ownership first", db', [])
                      | (Err _, db') => (R500, db', [])
                      | (Ok affected, db') =>
                          if affected =? 0 then (R404, db', [])
                          else (reply_user targetID db', db', [InvalidateMemberRole targetID (pr_OrgID q)])
                      end
                end
            end
      end
  end.

Definition RemoveMember (p : option Principal) (userId : string) (db : MDB) : Handled :=
  match humanInOrg p with
  | None => (R401, db, [])
  | Some (q, actor) =>
      match Atoi userId with
      | None => (R404, db, [])
      | Some targetID =>
          match GetMembership targetID (pr_OrgID q) db with
          | Err _ => (R404, db, [])
          | Ok target =>
              let owners := CountOwners (pr_OrgID q) db in
              let d := Can actor ActionRemoveMember
                         (mkResource (pr_OrgID q) (mb_Role target) RoleUnknown owners) in
              if negb (de_Allowed d) then (denied d, db, [])
              else
                match RemoveMember_tx (pr_OrgID q) targetID db with
                | (Err MLastOwner, db') =>
                    (R409 "cannot remove the last owner; transfer ownership first", db', [])
                | (Err _, db') => (R500, db', [])
                | (Ok affected, db') =>
                    if affected =? 0 then (R404, db', [])
                    else (R204, db', [InvalidateMemberRole targetID (pr_OrgID q)])
                end
          end
      end
  end.

Definition LeaveOrg (p : option Principal) (db : MDB) : Handled :=
  match humanInOrg p with
  | None => (R401, db, [])
  | Some (q, actor) =>
      let d := EnsureNotLastOwner RoleOwner (CountOwners (pr_OrgID q) db) in
      if bool_decide (ac_Role actor = RoleOwner) && negb (de_Allowed d) then (R409 (de_Reason d), db, [])
      else
        match RemoveMember_tx (pr_OrgID q) (pr_UserID q) db with
        | (Err MLastOwner, db') =>
            (R409 "cannot leave as the last owner; transfer ownership or delete the org", db', [])
        | (Err _, db') => (R500, db', [])
        | (Ok affected, db') =>
            if affected =? 0 then (R403 "not a member of this org", db', [])
            else (R204, db', [InvalidateMemberRole (pr_UserID q) (pr_OrgID q)])
        end
  end.

(** [body]: the new owner's id and whether the caller steps down. *)
Definition TransferOwnership (p : option Principal) (body : option (string * option bool)) (db : MDB) : Handled :=
  match humanInOrg p with
  | None => (R401, db, [])
  | Some (q, actor) =>
      let d := Can actor ActionTransferOwnership (org_resource (pr_OrgID q)) in
      if negb (de_Allowed d) then (R403 (de_Reason d), db, [])
      else
        match body with
        | None | Some (EmptyString, _) => (R422 "user_id required", db, [])
        | Some (userId, stepDown) =>
            match Atoi userId with
            | None => (R422 "invalid user_id", db, [])
            | Some targetID =>
                if targetID =? pr_UserID q then (R422 "cannot transfer ownership to yourself", db, [])
                else
                  match GetMembership targetID (pr_OrgID q) db with
                  | Err _ => (R404, db, [])
                  | Ok _ =>
                      match UpdateMemberRole (pr_OrgID q) targetID RoleOwner db with
                      | (Err _, db1) => (R500, db1, [])
                      | (Ok _, db1) =>
                          match stepDown with
                          | Some true =>
                              match UpdateMemberRole (pr_OrgID q) (pr_UserID q) RoleAdmin db1 with
                              | (Err _, db2) => (R500, db2, [InvalidateMemberRole targetID (pr_OrgID q)])
                              | (Ok _, db2) =>
                                  (R204, db2, [InvalidateMemberRole targetID (pr_OrgID q);
                                               InvalidateMemberRole (pr_UserID q) (pr_OrgID q)])
                              end
                          | _ => (R204, db1, [InvalidateMemberRole targetID (pr_OrgID q)])
                          end
                      end
                  end
            end
        end
  end.

Definition inviteTTL : Duration := 7 * 24 * Hour.

(** [orgPlan] (api/entitlements.go): a missing org is on the free plan. *)
Definition orgPlan (orgID : Z) (db : MDB) : Plan :=
  match GetOrganization orgID db with Some o => ParsePlan (og_Plan o) | None => PlanTier1 end.

Definition seatUsage (orgID : Z) (db : MDB) : SeatUsage :=
  mkSeatUsage (CountMembers orgID db + CountPendingInvitations orgID db) (SeatCap orgID (orgPlan orgID db)).

Record InviteBody := mkInviteBody { ib_Email : string; ib_Role : Role; ib_Locale : option string }.

Section api.
Context (lower : string -> string) (EqualFold : string -> string -> bool).

Definition CreateInvitation (now : Time) (p : option Principal) (body : option InviteBody) (db : MDB) : Handled :=
  match humanInOrg p with
  | None => (R401, db, [])
  | Some (q, actor) =>
      let d := Can actor ActionInviteMember (org_resource (pr_OrgID q)) in
      if negb (de_Allowed d) then (R403 (de_Reason d), db, [])
      else
        match body with
        | None => (R422 "body required", db, [])
        | Some b =>
            let email := TrimSpace (ib_Email b) in
            if String.eqb email "" then (R422 "email required", db, [])
            else if negb (validRole (ib_Role b)) then (R422 "invalid role", db, [])
            else if bool_decide (ib_Role b = RoleOwner)
            then (R422 "cannot invite as owner; use transfer ownership", db, [])
            else
              let usage := seatUsage (pr_OrgID q) db in
              if negb (HasFreeSeat usage) then (R402 (su_Cap usage), db, [])
              else
                match GetOrganization (pr_OrgID q) db with
                | None => (R500, db, [])
                | Some org =>
                    let locale := match ib_Locale b with
                                  | Some l => if String.eqb l "" then og_DefaultLocale org else l
                                  | None => og_DefaultLocale org
                                  end in
                    let locale := if String.eqb locale "" then "en" else locale in
                    let inv := mkInvitation 0 (pr_OrgID q) email (ib_Role b) InvitePending None locale
                                 (Some (pr_UserID q)) (now + inviteTTL) None in
                    match CreateInvitation_tx lower now inv db with
                    | (Err MUnique, db') =>
                        (R409 "a pending invitation for this email already exists", db', [])
                    | (Err _, db') => (R500, db', [])
                    | (Ok id, db') => (R201, db', [PublishInviteEmail id])
                    end
                end
        end
  end.

(** The gate and the parse that revoke and resend start with. *)
Definition manage_invitation (p : option Principal) (id : string) (db : MDB)
    (k : Principal -> Z -> Invitation -> Handled) : Handled :=
  match humanInOrg p with
  | None => (R401, db, [])
  | Some (q, actor) =>
      let d := Can actor ActionManageInvitation (org_resource (pr_OrgID q)) in
      if negb (de_Allowed d) then (R403 (de_Reason d), db, [])
      else
        match Atoi id with
        | None => (R404, db, [])
        | Some inviteID =>
            match GetInvitation (pr_OrgID q) inviteID db with
            | Err _ => (R404, db, [])
            | Ok inv => k q inviteID inv
            end
        end
  end.

Definition RevokeInvitation (p : option Principal) (id : string) (db : MDB) : Handled :=
  manage_invitation p id db (fun q inviteID _ =>
    let '(affected, db') := RevokeInvitation_tx (pr_OrgID q) inviteID db in
    if affected =? 0 then (R409 "invitation is no longer pending", db', []) else (R204, db', [])).

Definition ResendInvitation (now : Time) (p : option Principal) (id : string) (db : MDB) : Handled :=
  manage_invitation p id db (fun q inviteID inv =>
    if bool_decide (in_State inv <> InvitePending) then (R409 "invitation is no longer pending", db, [])
    else
      let '(affected, db') := ResendInvitation_tx (pr_OrgID q) inviteID (now + inviteTTL) db in
      if affected =? 0 then (R409 "invitation is no longer pending", db', [])
      else
        match GetOrganization (pr_OrgID q) db' with
        | None => (R500, db', [])
        | Some _ => (R200, db', [PublishInviteEmail inviteID])
        end).

(** [tokenHash] is [crypto.HashToken] of the presented token. *)
Definition AcceptInvitation (now : Time) (p : option Principal) (tokenHash : string) (db : MDB) : Handled :=
  match p with
  | Some q =>
      if bool_decide (pr_Kind q <> ActorHuman) then (R401, db, [])
      else
        match GetInvitationByToken tokenHash db with
        | Err _ => (R404, db, [])
        | Ok inv =>
            if bool_decide (in_State inv <> InvitePending) || (in_ExpiresAt inv <? now)
            then (R409 "this invitation is no longer valid", db, [])
            else
              match GetUser (pr_UserID q) db with
              | None => (R500, db, [])
              | Some u =>
                  if negb (us_EmailVerified u) || negb (EqualFold (us_Email u) (in_Email inv))
                  then (R403 "this invite was sent to another account", db, [])
                  else
                    match GetMembership (pr_UserID q) (in_OrgID inv) db with
                    | Ok _ =>
                        let '(_, db') := RevokeInvitation_tx (in_OrgID inv) (in_ID inv) db in
                        (match GetOrganization (in_OrgID inv) db' with Some _ => R200 | None => R500 end, db', [])
                    | Err _ =>
                        match AcceptInvitation_tx now (in_OrgID inv) (in_ID inv) (pr_UserID q) db with
                        | (Err MNoRows, db') => (R409 "this invitation is no longer valid", db', [])
                        | (Err _, db') => (R500, db', [])
                        | (Ok _, db') =>
                            (match GetOrganization (in_OrgID inv) db' with Some _ => R200 | None => R500 end,
                             db', [InvalidateMemberRole (pr_UserID q) (in_OrgID inv)])
                        end
                    end
              end
        end
  | None => (R401, db, [])
  end.
End api.
