(* ===== verification/MembersInv.v ===== *)
(** * MembersInv: what the membership transactions and handlers preserve

    The invariant of the two tables and its preservation by every store
    transaction, so that it holds under any interleaving of handlers; the
    at-least-one-owner rule; where owners come from; and the seat meter. *)

From S2P Require Import Prelude Domain GoStrings Entitlements Authz Members.
Open Scope Z_scope.

(** ** The steps of the database *)

Section steps.
Context (lower : string -> string).

Inductive mdb_step : MDB -> MDB -> Prop :=
  | step_create_membership m db : mdb_step db (CreateMembership m db).2
  | step_update_role org u r db : mdb_step db (UpdateMemberRole org u r db).2
  | step_remove_member org u db : mdb_step db (RemoveMember_tx org u db).2
  | step_create_invitation now i db : mdb_step db (CreateInvitation_tx lower now i db).2
  | step_resend org id t db : mdb_step db (ResendInvitation_tx org id t db).2
  | step_set_token org id h db : mdb_step db (SetInvitationToken org id h db).2
  | step_revoke org id db : mdb_step db (RevokeInvitation_tx org id db).2
  | step_accept now org id u db : mdb_step db (AcceptInvitation_tx now org id u db).2
  | step_expire now db : mdb_step db (ExpireInvitations now db).2.

(** Keys below their sequence, one membership per (org, user), one pending
    invitation per (org, lower email). *)
Record mwf (db : MDB) : Prop := {
  mwf_mem_key : forall k m, memberships db !! k = Some m -> k < seq_memberships db;
  mwf_inv_key : forall k i, invitations db !! k = Some i -> k < seq_invitations db /\ in_ID i = k;
  mwf_mem_unique : forall k1 k2 m1 m2, memberships db !! k1 = Some m1 -> memberships db !! k2 = Some m2 ->
    mb_OrgID m1 = mb_OrgID m2 -> mb_UserID m1 = mb_UserID m2 -> k1 = k2;
  mwf_inv_unique : forall k1 k2 i1 i2, invitations db !! k1 = Some i1 -> invitations db !! k2 = Some i2 ->
    in_OrgID i1 = in_OrgID i2 -> lower (in_Email i1) = lower (in_Email i2) ->
    in_State i1 = InvitePending -> in_State i2 = InvitePending -> k1 = k2;
}.

(** *** Memberships *)

Lemma insert_membership_cases org u r db :
  ((insert_membership org u r db).2 = next_membership db /\ exists e, (insert_membership org u r db).1 = Err e) \/
  ((insert_membership org u r db).1 = Ok (seq_memberships db) /\
   (insert_membership org u r db).2 =
     set_memberships (insert (seq_memberships db) (mkMembership (seq_memberships db) org u r)) (next_membership db) /\
   find_row (is_member org u) (memberships db) = None).
Proof.
  unfold insert_membership. cbv zeta. case_bool_decide as Hf; [left; eauto|].
  destruct (_ || _); [left; eauto|]. right. split_and!; [done|done|].
  destruct (find_row _ _); [|done]. exfalso. apply Hf. eauto.
Qed.

Lemma mwf_next_membership db : mwf db -> mwf (next_membership db).
Proof.
  intros [H1 H2 H3 H4]. split; simpl; [|done..]. intros k m Hk. specialize (H1 _ _ Hk). lia.
Qed.

Lemma find_member_None org u db :
  find_row (is_member org u) (memberships db) = None ->
  forall k m, memberships db !! k = Some m -> mb_OrgID m = org -> mb_UserID m = u -> False.
Proof.
  rewrite find_row_None. intros Hno k m Hk Ho Hu. specialize (Hno _ _ Hk).
  unfold is_member in Hno. by rewrite Ho, Hu, !Z.eqb_refl in Hno.
Qed.

Lemma mwf_insert_membership org u r db : mwf db -> mwf (insert_membership org u r db).2.
Proof.
  intros Hwf. destruct (insert_membership_cases org u r db) as [[-> _]|(_ & -> & Hno)];
    [by apply mwf_next_membership|].
  pose proof (find_member_None _ _ _ Hno) as Hfresh.
  destruct Hwf as [H1 H2 H3 H4]. split; simpl; [| done | |done].
  - intros k m. rewrite lookup_insert. case_decide; [lia|]. intros Hk. specialize (H1 _ _ Hk). lia.
  - intros k1 k2 m1 m2. rewrite !lookup_insert. repeat case_decide; intros Hk1 Hk2 Ho Hu; simplify_eq/=; try done.
    + exfalso. by eapply Hfresh.
    + exfalso. by eapply Hfresh.
    + by eapply H3.
Qed.

(** Rewriting a row in place without touching its key columns. *)
Lemma mwf_update_role db k m r :
  mwf db -> memberships db !! k = Some m -> mwf (set_memberships (insert k (with_role r m)) db).
Proof.
  intros [H1 H2 H3 H4] Hk. split; simpl; [| done | |done].
  - intros k' m'. rewrite lookup_insert. case_decide; [|apply H1]. subst. intros _. by eapply H1.
  - intros k1 k2 m1 m2. rewrite !lookup_insert. repeat case_decide; intros ? ? ? ?; simplify_eq/=; try done;
      by eapply H3.
Qed.

Lemma mwf_delete_member db k : mwf db -> mwf (set_memberships (delete k) db).
Proof.
  intros [H1 H2 H3 H4]. split; simpl; [| done | |done].
  - intros k' m' [_ Hk]%lookup_delete_Some. eauto.
  - intros k1 k2 m1 m2 [_ Hk1]%lookup_delete_Some [_ Hk2]%lookup_delete_Some. eauto.
Qed.

(** *** Invitations *)

(** Rewriting an invitation without making it pending or changing its address. *)
Definition keeps (f : Invitation -> Invitation) : Prop := forall i,
  in_ID (f i) = in_ID i /\ in_OrgID (f i) = in_OrgID i /\ in_Email (f i) = in_Email i /\
  in_Role (f i) = in_Role i /\ (in_State (f i) = InvitePending -> in_State i = InvitePending).

Lemma mwf_rewrite_invitation db k i f :
  mwf db -> keeps f -> invitations db !! k = Some i -> mwf (set_invitations (insert k (f i)) db).
Proof.
  intros [H1 H2 H3 H4] Hf Hk. destruct (Hf i) as (Fid & Forg & Fem & _ & Fst). split; simpl; [done| |done|].
  - intros k' i'. rewrite lookup_insert. case_decide; [|apply H2]. subst. intros [= <-]. rewrite Fid. by apply H2.
  - intros k1 k2 i1 i2. rewrite !lookup_insert. repeat case_decide; intros ? ? Ho He S1 S2; simplify_eq/=; try done;
      rewrite ?Forg, ?Fem in *; eapply H4; eauto.
Qed.

Lemma pending_row_Some org id db i :
  pending_row org id db = Some i ->
  invitations db !! id = Some i /\ in_OrgID i = org /\ in_State i = InvitePending.
Proof.
  unfold pending_row. destruct (invitations db !! id) as [j|]; [|done].
  destruct (is_pending org j) eqn:E; [|done]. intros [= <-]. unfold is_pending in E. by reflect_tests.
Qed.

Lemma keeps_expiry t : keeps (with_expiry t).
Proof. by intros i. Qed.
Lemma keeps_token h : keeps (with_token h).
Proof. by intros i. Qed.
Lemma keeps_state st g : st <> InvitePending -> keeps (fun i => with_state st (g i) i).
Proof. intros Hst i. by simpl. Qed.
#[local] Hint Resolve keeps_expiry keeps_token keeps_state : pulse.

Lemma mwf_update_pending db org id f : mwf db -> keeps f -> mwf (update_pending org id f db).2.
Proof.
  intros Hwf Hf. unfold update_pending. destruct (pending_row org id db) as [i|] eqn:E; [|done].
  apply pending_row_Some in E as (Hk & _). by apply mwf_rewrite_invitation.
Qed.

Lemma mwf_create_invitation now i db : mwf db -> mwf (CreateInvitation_tx lower now i db).2.
Proof.
  intros Hwf. unfold CreateInvitation_tx. cbv zeta.
  assert (mwf (next_invitation db)) as Hnext.
  { destruct Hwf as [H1 H2 H3 H4]. split; simpl; [done| |done|done].
    intros k j Hk. destruct (H2 _ _ Hk). split; [lia|done]. }
  destruct (_ || _) eqn:Hu; [done|]. destruct (_ || negb _); [done|].
  apply orb_false_iff in Hu as [Hu _]. apply negb_false_iff, Z.eqb_eq in Hu.
  assert (forall k j, invitations db !! k = Some j -> same_pending lower (in_OrgID i) (in_Email i) j = false) as Hno.
  { intros k j Hk. destruct (same_pending _ _ _ j) eqn:E; [|done].
    assert (0 < rows_affected (same_pending lower (in_OrgID i) (in_Email i)) (invitations db)) by
      (apply rows_affected_pos; eauto). lia. }
  destruct Hwf as [H1 H2 H3 H4]. split; simpl; [done| |done|].
  - intros k j. rewrite lookup_insert. case_decide; [intros [= <-]; split; [lia|done]|].
    intros Hk. destruct (H2 _ _ Hk). split; [lia|done].
  - intros k1 k2 i1 i2. rewrite !lookup_insert. repeat case_decide; intros Hk1 Hk2 Ho He S1 S2; simplify_eq/=; try done.
    + exfalso. specialize (Hno _ _ Hk2). unfold same_pending, is_pending in Hno.
      rewrite <- Ho, <- He, S2, Z.eqb_refl, String.eqb_refl in Hno. by rewrite bool_decide_eq_true_2 in Hno.
    + exfalso. specialize (Hno _ _ Hk1). unfold same_pending, is_pending in Hno.
      rewrite Ho, He, S1, Z.eqb_refl, String.eqb_refl in Hno. by rewrite bool_decide_eq_true_2 in Hno.
    + by eapply H4.
Qed.

Lemma mwf_accept now org id u db : mwf db -> mwf (AcceptInvitation_tx now org id u db).2.
Proof.
  intros Hwf. unfold AcceptInvitation_tx. destruct (pending_row org id db) as [i|] eqn:E; [|done].
  apply pending_row_Some in E as (Hk & _). cbv zeta.
  pose proof (mwf_insert_membership org u (in_Role i) _
    (mwf_rewrite_invitation db id i (fun i => with_state InviteAccepted (Some now) i) Hwf
      (keeps_state InviteAccepted (fun _ => Some now) ltac:(done)) Hk)) as Hi.
  destruct (insert_membership _ _ _ _) as [[mid|e] db2]; [done|]. by apply mwf_next_membership.
Qed.

Lemma mwf_expire now db : mwf db -> mwf (ExpireInvitations now db).2.
Proof.
  intros [H1 H2 H3 H4]. unfold ExpireInvitations. simpl. split; simpl; [done| |done|].
  - intros k i. rewrite lookup_update_where, fmap_Some. intros (j & Hj & ->).
    destruct (H2 _ _ Hj). by destruct (_ && _).
  - intros k1 k2 i1 i2. rewrite !lookup_update_where, !fmap_Some. intros (j1 & Hj1 & ->) (j2 & Hj2 & ->).
    destruct (bool_decide (in_State j1 = InvitePending) && _), (bool_decide (in_State j2 = InvitePending) && _);
      simpl; try done. eauto.
Qed.

(** ** The owner rule *)

Definition active (org : Z) (db : MDB) : Prop :=
  exists o, organizations db !! org = Some o /\ og_Deleted o = false.

Definition has_owner (org : Z) (db : MDB) : Prop :=
  exists k m, memberships db !! k = Some m /\ is_owner org m = true.

Lemma has_owner_count org db : has_owner org db <-> 0 < CountOwners org db.
Proof. unfold CountOwners. by rewrite rows_affected_pos. Qed.

(** A change the trigger lets through keeps every active org owned. *)
Lemma trigger_keeps_owner k m new org db (mems' : gmap Z Membership) :
  memberships db !! k = Some m -> enforce_last_owner k m new db = true ->
  (forall k', k' <> k -> mems' !! k' = memberships db !! k') ->
  (new = Some RoleOwner -> exists m', mems' !! k = Some m' /\ is_owner (mb_OrgID m) m' = true) ->
  active org db -> has_owner org db ->
  exists k' m', mems' !! k' = Some m' /\ is_owner org m' = true.
Proof.
  intros Hk Ht Hother Hnew (o & Ho & Hdel) (k0 & m0 & Hk0 & Hown).
  destruct (decide (k0 = k)) as [->|Hne]; [|exists k0, m0; by rewrite Hother].
  simplify_eq. unfold is_owner in Hown. reflect_tests. subst.
  unfold enforce_last_owner in Ht. case_bool_decide as Hnr; [destruct (Hnew Hnr) as (m' & ? & ?); eauto|].
  rewrite Ho, Hdel in Ht. apply negb_true_iff, Z.eqb_neq in Ht.
  pose proof (rows_affected_nonneg (is_owner (mb_OrgID m)) (delete k (memberships db))).
  assert (0 < rows_affected (is_owner (mb_OrgID m)) (delete k (memberships db))) as Hpos by lia.
  apply rows_affected_pos in Hpos as (k1 & m1 & [Hne Hk1]%lookup_delete_Some & Hown1).
  exists k1, m1. by rewrite Hother.
Qed.

Lemma is_owner_with_role r m : is_owner (mb_OrgID m) (with_role r m) = bool_decide (r = RoleOwner).
Proof. unfold is_owner. simpl. by rewrite Z.eqb_refl. Qed.

Lemma owner_insert_membership org u r org' db :
  mwf db -> has_owner org' db -> has_owner org' (insert_membership org u r db).2.
Proof.
  intros Hwf (k & m & Hk & Ho). pose proof (mwf_mem_key _ Hwf _ _ Hk).
  destruct (insert_membership_cases org u r db) as [[-> _]|(_ & -> & _)]; exists k, m; simpl; [done|].
  rewrite lookup_insert_ne by lia. done.
Qed.

Lemma step_preserves db db' :
  mdb_step db db' -> mwf db ->
  mwf db' /\ organizations db' = organizations db /\
  forall org, active org db -> has_owner org db -> has_owner org db'.
Proof.
  intros Hstep Hwf. destruct Hstep.
  - split; [by apply mwf_insert_membership|]. split.
    + unfold CreateMembership. by destruct (insert_membership_cases (mb_OrgID m) (mb_UserID m) (mb_Role m) db)
        as [[-> _]|(_ & -> & _)].
    + intros org' _. by apply owner_insert_membership.
  - unfold UpdateMemberRole. destruct (find_row _ _) as [[k m]|] eqn:Hf; [|done].
    apply find_row_Some in Hf as [Hk _]. destruct (enforce_last_owner _ _ _ _) eqn:Ht; [|done].
    split; [by apply mwf_update_role|]. split; [done|]. intros org' Ha Ho.
    apply (trigger_keeps_owner k m (Some r) org' db); simpl; try done.
    + intros k' Hne. by rewrite lookup_insert_ne.
    + intros [= ->]. rewrite lookup_insert_eq. eexists. split; [done|]. by rewrite is_owner_with_role.
  - unfold RemoveMember_tx. destruct (find_row _ _) as [[k m]|] eqn:Hf; [|done].
    apply find_row_Some in Hf as [Hk _]. destruct (enforce_last_owner _ _ _ _) eqn:Ht; [|done].
    split; [by apply mwf_delete_member|]. split; [done|]. intros org' Ha Ho.
    apply (trigger_keeps_owner k m None org' db); simpl; try done.
    intros k' Hne. by rewrite lookup_delete_ne.
  - split; [by apply mwf_create_invitation|]. unfold CreateInvitation_tx. cbv zeta.
    destruct (_ || _); [done|]. by destruct (_ || negb _).
  - split; [apply mwf_update_pending; auto with pulse|]. unfold ResendInvitation_tx, update_pending.
    by destruct (pending_row _ _ _).
  - unfold SetInvitationToken. destruct (pending_row org id db) as [i|] eqn:E; [|done].
    destruct (token_taken _ _ _); [done|]. apply pending_row_Some in E as (Hk & _).
    split; [by apply mwf_rewrite_invitation; auto with pulse|]. done.
  - split; [apply mwf_update_pending; [done|]; by apply (keeps_state InviteRevoked in_AcceptedAt)|].
    unfold RevokeInvitation_tx, update_pending. by destruct (pending_row _ _ _).
  - split; [by apply mwf_accept|]. unfold AcceptInvitation_tx.
    destruct (pending_row org id db) as [i|] eqn:E; [|done]. cbv zeta.
    apply pending_row_Some in E as (Hk & _).
    set (db1 := set_invitations _ db).
    assert (mwf db1) as Hwf1 by (by apply (mwf_rewrite_invitation db id i (fun i => with_state InviteAccepted (Some now) i));
      [| apply (keeps_state InviteAccepted (fun _ => Some now))|]).
    pose proof (owner_insert_membership org u (in_Role i)) as Hown.
    pose proof (insert_membership_cases org u (in_Role i) db1) as Hc.
    assert (organizations (insert_membership org u (in_Role i) db1).2 = organizations db) as Horg
      by (destruct Hc as [[-> _]|(_ & -> & _)]; done).
    destruct (insert_membership org u (in_Role i) db1) as [[mid|e] db2] eqn:Hi; [|done]. simpl in *.
    split; [done|]. intros org' _ Ho. specialize (Hown org' db1 Hwf1 Ho). by rewrite Hi in Hown.
  - split; [by apply mwf_expire|]. done.
Qed.

Lemma steps_preserve db db' :
  rtc mdb_step db db' -> mwf db ->
  mwf db' /\ organizations db' = organizations db /\
  forall org, active org db -> has_owner org db -> has_owner org db'.
Proof.
  induction 1 as [db|db1 db2 db3 Hs _ IH]; [done|]. intros Hwf.
  destruct (step_preserves _ _ Hs Hwf) as (Hwf2 & Horg & Hown).
  destruct (IH Hwf2) as (Hwf3 & Horg' & Hown'). split; [done|]. split; [congruence|].
  intros org Ha Ho. apply Hown'; [|by apply Hown].
  destruct Ha as (o & Ho' & Hd). exists o. by rewrite Horg.
Qed.
End steps.

(** ** The handlers *)

Inductive Call :=
  | CallChangeRole (p : option Principal) (body : option Role) (userId : string)
  | CallRemove (p : option Principal) (userId : string)
  | CallLeave (p : option Principal)
  | CallTransfer (p : option Principal) (body : option (string * option bool))
  | CallInvite (now : Time) (p : option Principal) (body : option InviteBody)
  | CallRevoke (p : option Principal) (id : string)
  | CallResend (now : Time) (p : option Principal) (id : string)
  | CallAccept (now : Time) (p : option Principal) (tokenHash : string).

Definition caller (c : Call) : option Principal :=
  match c with
  | CallChangeRole p _ _ | CallRemove p _ | CallLeave p | CallTransfer p _ | CallInvite _ p _
  | CallRevoke p _ | CallResend _ p _ | CallAccept _ p _ => p
  end.

Section handlers.
Context (lower : string -> string) (EqualFold : string -> string -> bool).

Definition serve (c : Call) (db : MDB) : Handled :=
  match c with
  | CallChangeRole p body u => ChangeMemberRole p body u db
  | CallRemove p u => RemoveMember p u db
  | CallLeave p => LeaveOrg p db
  | CallTransfer p body => TransferOwnership p body db
  | CallInvite now p body => CreateInvitation lower now p body db
  | CallRevoke p id => RevokeInvitation p id db
  | CallResend now p id => ResendInvitation now p id db
  | CallAccept now p h => AcceptInvitation EqualFold now p h db
  end.

(** What a call can do to the database, with what its gates established. *)
Inductive effect_of (c : Call) (db : MDB) : MDB -> Prop :=
  | eff_none : effect_of c db db
  | eff_change q actor u target r :
      humanInOrg (caller c) = Some (q, actor) -> GetMembership u (pr_OrgID q) db = Ok target ->
      de_Allowed (Can actor ActionChangeMemberRole
        (mkResource (pr_OrgID q) (mb_Role target) r (CountOwners (pr_OrgID q) db))) = true ->
      effect_of c db (UpdateMemberRole (pr_OrgID q) u r db).2
  | eff_remove org u : effect_of c db (RemoveMember_tx org u db).2
  | eff_transfer q actor u :
      humanInOrg (caller c) = Some (q, actor) ->
      de_Allowed (Can actor ActionTransferOwnership (org_resource (pr_OrgID q))) = true ->
      effect_of c db (UpdateMemberRole (pr_OrgID q) u RoleOwner db).2
  | eff_transfer_down q actor u :
      humanInOrg (caller c) = Some (q, actor) ->
      de_Allowed (Can actor ActionTransferOwnership (org_resource (pr_OrgID q))) = true ->
      effect_of c db (UpdateMemberRole (pr_OrgID q) (pr_UserID q) RoleAdmin
                        (UpdateMemberRole (pr_OrgID q) u RoleOwner db).2).2
  | eff_invite now i :
      in_Role i <> RoleOwner -> HasFreeSeat (seatUsage (in_OrgID i) db) = true ->
      effect_of c db (CreateInvitation_tx lower now i db).2
  | eff_revoke org id : effect_of c db (RevokeInvitation_tx org id db).2
  | eff_resend org id t : effect_of c db (ResendInvitation_tx org id t db).2
  | eff_accept now org id u : effect_of c db (AcceptInvitation_tx now org id u db).2.

Lemma negb_negb_allowed b : negb b = false -> b = true.
Proof. apply negb_false_iff. Qed.

Lemma change_effect p body uid db :
  effect_of (CallChangeRole p body uid) db (ChangeMemberRole p body uid db).1.2.
Proof.
  unfold ChangeMemberRole. destruct (humanInOrg p) as [[q actor]|] eqn:Hp; [|apply eff_none].
  destruct body as [r|]; [|apply eff_none]. destruct (negb (validRole r)); [apply eff_none|].
  destruct (Atoi uid) as [u|]; [|apply eff_none].
  destruct (GetMembership u (pr_OrgID q) db) as [target|e] eqn:Hg; [|apply eff_none]. cbv zeta.
  destruct (negb (de_Allowed _)) eqn:Hd; [apply eff_none|]. apply negb_false_iff in Hd.
  case_bool_decide; [apply eff_none|].
  pose proof (eff_change (CallChangeRole p (Some r) uid) db q actor u target r Hp Hg Hd) as He.
  destruct (UpdateMemberRole _ _ _ db) as [[n|e] db']; [by destruct (n =? 0)|by destruct e].
Qed.

Lemma remove_effect p uid db : effect_of (CallRemove p uid) db (RemoveMember p uid db).1.2.
Proof.
  unfold RemoveMember. destruct (humanInOrg p) as [[q actor]|] eqn:Hp; [|apply eff_none].
  destruct (Atoi uid) as [u|]; [|apply eff_none].
  destruct (GetMembership u (pr_OrgID q) db) as [target|e]; [|apply eff_none]. cbv zeta.
  destruct (negb (de_Allowed _)); [apply eff_none|].
  pose proof (eff_remove (CallRemove p uid) db (pr_OrgID q) u) as He.
  destruct (RemoveMember_tx _ _ db) as [[n|e] db']; [by destruct (n =? 0)|by destruct e].
Qed.

Lemma leave_effect p db : effect_of (CallLeave p) db (LeaveOrg p db).1.2.
Proof.
  unfold LeaveOrg. destruct (humanInOrg p) as [[q actor]|]; [|apply eff_none]. cbv zeta.
  destruct (_ && _); [apply eff_none|].
  pose proof (eff_remove (CallLeave p) db (pr_OrgID q) (pr_UserID q)) as He.
  destruct (RemoveMember_tx _ _ db) as [[n|e] db']; [by destruct (n =? 0)|by destruct e].
Qed.

Lemma transfer_effect p body db : effect_of (CallTransfer p body) db (TransferOwnership p body db).1.2.
Proof.
  unfold TransferOwnership. destruct (humanInOrg p) as [[q actor]|] eqn:Hp; [|apply eff_none]. cbv zeta.
  destruct (negb (de_Allowed _)) eqn:Hd; [apply eff_none|]. apply negb_false_iff in Hd.
  destruct body as [[[|a s] down]|]; [apply eff_none| |apply eff_none].
  destruct (Atoi _) as [u|]; [|apply eff_none]. destruct (u =? pr_UserID q); [apply eff_none|].
  destruct (GetMembership u (pr_OrgID q) db); [|apply eff_none].
  pose proof (eff_transfer (CallTransfer p (Some (String a s, down))) db q actor u Hp Hd) as H1.
  pose proof (eff_transfer_down (CallTransfer p (Some (String a s, down))) db q actor u Hp Hd) as H2.
  destruct (UpdateMemberRole _ u _ db) as [[n|e] db1]; [|done].
  destruct down as [[]|]; [|done|done].
  cbn [snd] in H2. by destruct (UpdateMemberRole _ _ RoleAdmin db1) as [[n'|e'] db2].
Qed.

Lemma invite_effect now p body db :
  effect_of (CallInvite now p body) db (CreateInvitation lower now p body db).1.2.
Proof.
  unfold CreateInvitation. destruct (humanInOrg p) as [[q actor]|]; [|apply eff_none]. cbv zeta.
  destruct (negb (de_Allowed _)); [apply eff_none|]. destruct body as [b|]; [|apply eff_none].
  destruct (String.eqb _ ""); [apply eff_none|]. destruct (negb (validRole _)); [apply eff_none|].
  case_bool_decide as Hr; [apply eff_none|].
  destruct (negb (HasFreeSeat _)) eqn:Hs; [apply eff_none|]. apply negb_false_iff in Hs.
  destruct (GetOrganization _ db) as [org|]; [|apply eff_none].
  match goal with |- context [CreateInvitation_tx lower now ?i db] =>
    pose proof (eff_invite (CallInvite now p (Some b)) db now i Hr Hs) as He;
    destruct (CreateInvitation_tx lower now i db) as [[n|e] db'] end; [done|by destruct e].
Qed.

Lemma manage_effect c p id db k :
  (forall q i inv, effect_of c db (k q i inv).1.2) -> effect_of c db (manage_invitation p id db k).1.2.
Proof.
  intros Hk. unfold manage_invitation. destruct (humanInOrg p) as [[q actor]|]; [|apply eff_none]. cbv zeta.
  destruct (negb _); [apply eff_none|]. destruct (Atoi id); [|apply eff_none].
  destruct (GetInvitation _ _ db); [apply Hk|apply eff_none].
Qed.

Lemma accept_effect now p h db :
  effect_of (CallAccept now p h) db (AcceptInvitation EqualFold now p h db).1.2.
Proof.
  unfold AcceptInvitation. destruct p as [q|]; [|apply eff_none]. case_bool_decide; [apply eff_none|].
  destruct (GetInvitationByToken h db) as [inv|e]; [|apply eff_none].
  destruct (_ || _); [apply eff_none|]. destruct (GetUser _ db) as [u|]; [|apply eff_none].
  destruct (_ || _); [apply eff_none|]. destruct (GetMembership _ _ db).
  - pose proof (eff_revoke (CallAccept now (Some q) h) db (in_OrgID inv) (in_ID inv)) as He.
    by destruct (RevokeInvitation_tx _ _ db).
  - pose proof (eff_accept (CallAccept now (Some q) h) db now (in_OrgID inv) (in_ID inv) (pr_UserID q)) as He.
    destruct (AcceptInvitation_tx _ _ _ _ db) as [[n|e'] db']; [done|by destruct e'].
Qed.

Lemma serve_effect c db : effect_of c db (serve c db).1.2.
Proof.
  destruct c; simpl;
    [apply change_effect|apply remove_effect|apply leave_effect|apply transfer_effect|apply invite_effect|
     apply manage_effect|apply manage_effect|apply accept_effect].
  - intros q i inv. pose proof (eff_revoke (CallRevoke p id) db (pr_OrgID q) i) as He.
    destruct (RevokeInvitation_tx _ _ db) as [n db']. by destruct (n =? 0).
  - intros q i inv. case_bool_decide; [apply eff_none|].
    pose proof (eff_resend (CallResend now p id) db (pr_OrgID q) i (now + inviteTTL)) as He.
    destruct (ResendInvitation_tx _ _ _ db) as [n db']. destruct (n =? 0); [done|].
    by destruct (GetOrganization _ db').
Qed.

(** Every handler is a run of store transactions. *)
Lemma serve_steps c db : rtc (mdb_step lower) db (serve c db).1.2.
Proof.
  destruct (serve_effect c db); [done| | | | | | | |]; try (apply rtc_once; constructor).
  eapply rtc_l; [apply step_update_role|]. apply rtc_once. apply step_update_role.
Qed.
End handlers.

(** ** Where owners come from *)

Definition owner_of (org u : Z) (db : MDB) : Prop :=
  exists k m, memberships db !! k = Some m /\ mb_OrgID m = org /\ mb_UserID m = u /\ mb_Role m = RoleOwner.

Definition no_owner_invites (db : MDB) : Prop :=
  forall k i, invitations db !! k = Some i -> in_State i = InvitePending -> in_Role i <> RoleOwner.

Lemma owner_of_update org u o v r db :
  owner_of org u (UpdateMemberRole o v r db).2 ->
  owner_of org u db \/ (r = RoleOwner /\ org = o /\ u = v).
Proof.
  unfold UpdateMemberRole. destruct (find_row _ _) as [[k m]|] eqn:Hf; [|by left].
  apply find_row_Some in Hf as [Hk Hm]. destruct (enforce_last_owner _ _ _ _); [|by left].
  intros (k' & m' & Hk' & Ho & Hu & Hr). simpl in Hk'. rewrite lookup_insert in Hk'. case_decide.
  - simplify_eq/=. unfold is_member in Hm. reflect_tests. auto.
  - left. exists k', m'. auto.
Qed.

Lemma owner_of_remove org u o v db : owner_of org u (RemoveMember_tx o v db).2 -> owner_of org u db.
Proof.
  unfold RemoveMember_tx. destruct (find_row _ _) as [[k m]|]; [|done].
  destruct (enforce_last_owner _ _ _ _); [|done].
  intros (k' & m' & Hk' & Hrest). simpl in Hk'. apply lookup_delete_Some in Hk' as [_ Hk']. by exists k', m'.
Qed.

Lemma owner_of_accept org u now o id v db :
  no_owner_invites db -> owner_of org u (AcceptInvitation_tx now o id v db).2 -> owner_of org u db.
Proof.
  intros Hno. unfold AcceptInvitation_tx. destruct (pending_row o id db) as [i|] eqn:E; [|done].
  apply pending_row_Some in E as (Hk & _ & Hst). cbv zeta.
  pose proof (insert_membership_cases o v (in_Role i)
    (set_invitations (insert id (with_state InviteAccepted (Some now) i)) db)) as Hc.
  destruct (insert_membership _ _ _ _) as [[mid|e] db2]; simpl in *.
  - destruct Hc as [(_ & e & ?)|(_ & -> & _)]; [done|].
    intros (k' & m' & Hk' & Hrest). simpl in Hk'. rewrite lookup_insert in Hk'. case_decide.
    + simplify_eq/=. destruct Hrest as (_ & _ & Hr). by specialize (Hno _ _ Hk Hst).
    + by exists k', m'.
  - done.
Qed.

Lemma transfer_needs_owner actor res :
  de_Allowed (Can actor ActionTransferOwnership res) = true -> ac_Role actor = RoleOwner.
Proof.
  intros Hc. destruct (Can_allowed _ _ _ Hc) as (_ & _ & Hin). revert Hin.
  destruct (ac_Role actor); cbn [roleActions]; [done|..];
    unfold admin_actions, member_actions, viewer_actions; rewrite ?elem_of_app, ?elem_of_cons, ?elem_of_nil;
    intuition congruence.
Qed.

(** Pending invitations never carry the owner role, through every effect. *)
Lemma no_owner_invites_update_pending org id f db :
  keeps f -> no_owner_invites db -> no_owner_invites (update_pending org id f db).2.
Proof.
  intros Hf Hno. unfold update_pending. destruct (pending_row org id db) as [i|] eqn:E; [|done].
  apply pending_row_Some in E as (Hk & _ & Hst). intros k j. simpl. rewrite lookup_insert. case_decide.
  - intros [= <-] _. destruct (Hf i) as (_ & _ & _ & -> & _). by eapply Hno.
  - apply Hno.
Qed.

Lemma no_owner_invites_serve lower c db db' :
  no_owner_invites db -> effect_of lower c db db' -> no_owner_invites db'.
Proof.
  intros Hno [].
  - done.
  - unfold UpdateMemberRole. repeat case_match; done.
  - unfold RemoveMember_tx. repeat case_match; done.
  - unfold UpdateMemberRole. repeat case_match; done.
  - unfold UpdateMemberRole. repeat (case_match; simplify_eq/=; try done).
  - unfold CreateInvitation_tx. cbv zeta. destruct (_ || _); [done|]. destruct (_ || negb _); [done|].
    intros k j. simpl. rewrite lookup_insert. case_decide; [by intros [= <-]|apply Hno].
  - apply no_owner_invites_update_pending; [|done]. by apply (keeps_state InviteRevoked in_AcceptedAt).
  - apply no_owner_invites_update_pending; [|done]. apply keeps_expiry.
  - unfold AcceptInvitation_tx. destruct (pending_row org id db) as [i|]; [|done]. cbv zeta.
    pose proof (insert_membership_cases org u (in_Role i)
      (set_invitations (insert id (with_state InviteAccepted (Some now) i)) db)) as Hc.
    destruct (insert_membership _ _ _ _) as [[mid|e] db2]; [|done]. simpl in *.
    destruct Hc as [(_ & e & ?)|(_ & -> & _)]; [done|]. intros k j. simpl. rewrite lookup_insert.
    case_decide; [by intros [= <-]|apply Hno].
Qed.

Lemma new_owner_effect lower c db db' org u :
  no_owner_invites db -> effect_of lower c db db' -> owner_of org u db' -> ~ owner_of org u db ->
  exists q actor, humanInOrg (caller c) = Some (q, actor) /\ ac_Role actor = RoleOwner /\ pr_OrgID q = org.
Proof.
  intros Hno He Ho Hn. destruct He as [|q actor v target r Hp Hg Hd|org' v|q actor v Hp Hd|q actor v Hp Hd|
    now i Hr Hs|org' id|org' id t|now org' id v].
  - done.
  - destruct (owner_of_update _ _ _ _ _ _ Ho) as [?|(-> & -> & ->)]; [done|]. exists q, actor. split; [done|].
    split; [|done]. destruct (Can_change_role _ _ Hd) as (_ & Hnew & _).
    destruct (decide (ac_Role actor = RoleOwner)) as [|Hno']; [done|]. destruct (Hnew Hno') as [_ Hnr]. done.
  - by apply owner_of_remove in Ho.
  - destruct (owner_of_update _ _ _ _ _ _ Ho) as [?|(_ & -> & _)]; [done|].
    exists q, actor. split; [done|]. split; [by eapply transfer_needs_owner|done].
  - destruct (owner_of_update _ _ _ _ _ _ Ho) as [Ho1|(? & _ & _)]; [|done].
    destruct (owner_of_update _ _ _ _ _ _ Ho1) as [?|(_ & -> & _)]; [done|].
    exists q, actor. split; [done|]. split; [by eapply transfer_needs_owner|done].
  - exfalso. apply Hn. revert Ho. unfold CreateInvitation_tx. cbv zeta. destruct (_ || _); [done|].
    by destruct (_ || negb _).
  - exfalso. apply Hn. revert Ho. unfold RevokeInvitation_tx, update_pending. by destruct (pending_row _ _ _).
  - exfalso. apply Hn. revert Ho. unfold ResendInvitation_tx, update_pending. by destruct (pending_row _ _ _).
  - exfalso. apply Hn. by eapply owner_of_accept.
Qed.

(** ** Seats *)

Definition seats_used (org : Z) (db : MDB) : Z := CountMembers org db + CountPendingInvitations org db.

Lemma seats_update org o u r db : seats_used org (UpdateMemberRole o u r db).2 = seats_used org db.
Proof.
  unfold UpdateMemberRole. destruct (find_row _ _) as [[k m]|] eqn:Hf; [|done].
  apply find_row_Some in Hf as [Hk _]. destruct (enforce_last_owner _ _ _ _); [|done].
  unfold seats_used, CountMembers, CountPendingInvitations. simpl.
  rewrite (rows_affected_replace _ _ _ _ (with_role r m) Hk). simpl. lia.
Qed.

Lemma seats_remove org o u db : seats_used org (RemoveMember_tx o u db).2 <= seats_used org db.
Proof.
  unfold RemoveMember_tx. destruct (find_row _ _) as [[k m]|] eqn:Hf; [|done].
  apply find_row_Some in Hf as [Hk _]. destruct (enforce_last_owner _ _ _ _); [|done].
  unfold seats_used, CountMembers, CountPendingInvitations. simpl.
  rewrite (rows_affected_delete (fun m => mb_OrgID m =? org) _ _ _ Hk). destruct (_ =? _); lia.
Qed.

Lemma pending_keeps f i org : keeps f -> is_pending org (f i) = true -> is_pending org i = true.
Proof.
  intros Hf. destruct (Hf i) as (_ & Ho & _ & _ & Hs). unfold is_pending. rewrite Ho.
  intros [H1 H2%bool_decide_eq_true]%andb_true_iff. rewrite H1. simpl. apply bool_decide_eq_true. auto.
Qed.

Lemma seats_update_pending org o id f db :
  keeps f -> seats_used org (update_pending o id f db).2 <= seats_used org db.
Proof.
  intros Hf. unfold update_pending. destruct (pending_row o id db) as [i|] eqn:E; [|done].
  apply pending_row_Some in E as (Hk & _). unfold seats_used, CountMembers, CountPendingInvitations. simpl.
  rewrite (rows_affected_replace _ _ _ _ (f i) Hk).
  pose proof (pending_keeps f i org Hf). destruct (is_pending org i), (is_pending org (f i)); intuition lia.
Qed.

Lemma seats_create lower org now i db :
  mwf lower db ->
  seats_used org (CreateInvitation_tx lower now i db).2 <= seats_used org db + (if in_OrgID i =? org then 1 else 0).
Proof.
  intros Hwf. unfold CreateInvitation_tx. cbv zeta.
  assert (0 <= (if in_OrgID i =? org then 1 else 0)) by (destruct (_ =? _); lia).
  destruct (_ || _); [unfold seats_used, CountMembers, CountPendingInvitations; simpl; lia|].
  destruct (_ || negb _); [unfold seats_used, CountMembers, CountPendingInvitations; simpl; lia|].
  unfold seats_used, CountMembers, CountPendingInvitations. simpl.
  rewrite rows_affected_insert_new.
  - unfold is_pending. simpl. rewrite andb_true_r. destruct (_ =? _); lia.
  - destruct (invitations db !! seq_invitations db) eqn:E; [|done].
    apply (mwf_inv_key _ _ Hwf) in E as [? _]. lia.
Qed.

(** The reserved seat of an accepted invitation becomes the member's. *)
Lemma seats_accept lower org now o id u db :
  mwf lower db -> seats_used org (AcceptInvitation_tx now o id u db).2 = seats_used org db.
Proof.
  intros Hwf. unfold AcceptInvitation_tx. destruct (pending_row o id db) as [i|] eqn:E; [|done].
  apply pending_row_Some in E as (Hk & Ho & Hst). cbv zeta.
  set (db1 := set_invitations _ db). pose proof (insert_membership_cases o u (in_Role i) db1) as Hc.
  destruct (insert_membership _ _ _ _) as [[mid|e] db2]; [|done]. simpl in *.
  destruct Hc as [(_ & e & ?)|(_ & -> & _)]; [done|].
  unfold seats_used, CountMembers, CountPendingInvitations. simpl.
  rewrite rows_affected_insert_new.
  - rewrite (rows_affected_replace _ _ _ _ (with_state InviteAccepted (Some now) i) Hk).
    unfold is_pending. simpl. rewrite Hst, Ho. simpl. rewrite andb_true_r, andb_false_r. destruct (_ =? _); lia.
  - destruct (memberships db !! seq_memberships db) eqn:E'; [|done].
    apply (mwf_mem_key _ _ Hwf) in E'. lia.
Qed.

Lemma seats_effect lower c db db' org :
  mwf lower db -> effect_of lower c db db' ->
  seats_used org db' <= Z.max (seats_used org db) (SeatCap org (orgPlan org db)).
Proof.
  intros Hwf He. destruct He as [|q actor v target r Hp Hg Hd|org' v|q actor v Hp Hd|q actor v Hp Hd|
    now i Hr Hs|org' id|org' id t|now org' id v].
  - lia.
  - rewrite seats_update. lia.
  - pose proof (seats_remove org org' v db). lia.
  - rewrite seats_update. lia.
  - rewrite !seats_update. lia.
  - pose proof (seats_create lower org now i db Hwf) as Hc. destruct (in_OrgID i =? org) eqn:E; [|lia].
    apply Z.eqb_eq in E. rewrite <- E in *. unfold HasFreeSeat, seatUsage in Hs. simpl in Hs.
    apply Z.ltb_lt in Hs. unfold seats_used in *. lia.
  - pose proof (seats_update_pending org org' id _ db
      (keeps_state InviteRevoked in_AcceptedAt ltac:(done))). unfold RevokeInvitation_tx. lia.
  - pose proof (seats_update_pending org org' id _ db (keeps_expiry t)). unfold ResendInvitation_tx. lia.
  - rewrite (seats_accept lower) by done. lia.
Qed.

(** ** Properties *)

(** C29: an active org keeps an owner, as long as transactions run one at a time.
    Whatever transactions of the store run, one after the other, in whatever order
    and with whatever arguments, an org that is active and has an owner still has
    one; the tables keep their uniqueness constraints; and every handler of the api
    is a run of such transactions, so this holds at every interleaving of handlers
    in which their transactions do not overlap.  Two transactions that overlap under
    READ COMMITTED can each pass the trigger that guards the last owner
    ([last_owner_trigger_race]). *)
Theorem active_org_keeps_an_owner lower EqualFold db db' org :
  mwf lower db -> rtc (mdb_step lower) db db' -> active org db -> 0 < CountOwners org db ->
  0 < CountOwners org db' /\ mwf lower db' /\
  forall c, rtc (mdb_step lower) db' (serve lower EqualFold c db').1.2.
Proof.
  intros Hwf Hsteps Ha Ho. destruct (steps_preserve lower db db' Hsteps Hwf) as (Hwf' & _ & Hown).
  split; [apply has_owner_count, Hown; [done|by apply has_owner_count]|].
  split; [done|]. intros c. apply serve_steps.
Qed.

(** Ownership only comes from an owner.  When a call of the api makes a user an
    owner of an org who was not one before, the caller acted in that org with the
    owner role.  Invitations cannot: no pending invitation carries the owner role,
    and no call changes that. *)
Theorem ownership_comes_from_owners lower EqualFold c db org u :
  no_owner_invites db ->
  let db' := (serve lower EqualFold c db).1.2 in
  no_owner_invites db' /\
  (owner_of org u db' -> ~ owner_of org u db ->
   exists q actor, humanInOrg (caller c) = Some (q, actor) /\ ac_Role actor = RoleOwner /\ pr_OrgID q = org).
Proof.
  intros Hno db'. pose proof (serve_effect lower EqualFold c db) as He. split.
  - by eapply no_owner_invites_serve.
  - by eapply new_owner_effect.
Qed.

(** Calls served one at a time respect the plan's seats: a call never raises
    the members plus pending invitations of an org above the larger of what they
    were and the plan's cap, and accepting an invitation turns its reserved seat
    into the member's without changing the sum. *)
Theorem calls_respect_seat_cap lower EqualFold c db org now o id u :
  mwf lower db ->
  seats_used org (serve lower EqualFold c db).1.2 <=
    Z.max (seats_used org db) (SeatCap org (orgPlan org db)) /\
  seats_used org (AcceptInvitation_tx now o id u db).2 = seats_used org db.
Proof.
  intros Hwf. split.
  - eapply seats_effect; [exact Hwf|]. apply serve_effect.
  - by eapply seats_accept.
Qed.

(** ** Races the checks do not close *)

Definition ex_org (plan : string) : Organization := mkOrganization "acme" plan "en" false.
Definition ex_user (email : string) : User := mkUser email true "u" true.
Definition ex_users : gmap Z User :=
  list_to_map [(1, ex_user "a@x"); (2, ex_user "b@x"); (3, ex_user "c@x")].

(** Two owners of an active org. *)
Definition ex_two_owners : MDB :=
  mkMDB (list_to_map [(1, mkMembership 1 7 1 RoleOwner); (2, mkMembership 2 7 2 RoleOwner)]) ∅
    {[ 7 := ex_org "tier2" ]} ex_users 3 1.

(** Two transactions that each demote one of the two owners: both triggers count
    on the committed rows, where the other one still is an owner, so both pass,
    and the org is left without an owner. *)
Example last_owner_trigger_race :
  enforce_last_owner 1 (mkMembership 1 7 1 RoleOwner) (Some RoleAdmin) ex_two_owners = true /\
  enforce_last_owner 2 (mkMembership 2 7 2 RoleOwner) (Some RoleAdmin) ex_two_owners = true /\
  CountOwners 7 (set_memberships (fun m => <[2 := mkMembership 2 7 2 RoleAdmin]>
    (<[1 := mkMembership 1 7 1 RoleAdmin]> m)) ex_two_owners) = 0.
Proof. vm_compute. done. Qed.

(** Two invitations whose seat checks both run before either insert: the meter
    ends above the cap of three. *)
Example seat_check_race :
  let db0 := ex_two_owners in
  let inv e := mkInvitation 0 7 e RoleMember InvitePending None "en" None 5 None in
  HasFreeSeat (seatUsage 7 db0) = true /\
  let db1 := (CreateInvitation_tx ToLowerASCII 0 (inv "d@x") db0).2 in
  let db2 := (CreateInvitation_tx ToLowerASCII 0 (inv "e@x") db1).2 in
  SeatCap 7 (orgPlan 7 db2) = 3 /\ seats_used 7 db2 = 4.
Proof. vm_compute. done. Qed.

(** ** Witnesses *)

Lemma ex_two_owners_mwf lower : mwf lower ex_two_owners.
Proof.
  split; simpl.
  - intros k m. rewrite !lookup_insert, lookup_empty. repeat case_decide; intros; simplify_eq; lia.
  - intros k i. by rewrite lookup_empty.
  - intros k1 k2 m1 m2. rewrite !lookup_insert, !lookup_empty.
    repeat case_decide; intros; simplify_eq/=; done.
  - intros k1 k2 i1 i2. by rewrite lookup_empty.
Qed.

Definition ex_caller (u : Z) (r : Role) : option Principal := Some (mkPrincipal ActorHuman u 0 7 (Some r)).

Lemma active_org_keeps_an_owner_witness :
  let db' := (RemoveMember_tx 7 2 (RemoveMember_tx 7 1 ex_two_owners).2).2 in
  0 < CountOwners 7 db' /\ mwf ToLowerASCII db' /\
  forall c, rtc (mdb_step ToLowerASCII) db' (serve ToLowerASCII String.eqb c db').1.2.
Proof.
  apply (active_org_keeps_an_owner ToLowerASCII String.eqb ex_two_owners).
  - apply ex_two_owners_mwf.
  - eapply rtc_l; [apply (step_remove_member _ 7 1)|]. apply rtc_once. apply (step_remove_member _ 7 2).
  - exists (ex_org "tier2"). split; reflexivity.
  - vm_compute. reflexivity.
Defined.

Lemma ownership_comes_from_owners_witness :
  no_owner_invites (serve ToLowerASCII String.eqb
    (CallChangeRole (ex_caller 1 RoleOwner) (Some RoleAdmin) "2") ex_two_owners).1.2.
Proof.
  apply (ownership_comes_from_owners ToLowerASCII String.eqb
    (CallChangeRole (ex_caller 1 RoleOwner) (Some RoleAdmin) "2") ex_two_owners 7 2).
  intros k i. simpl. rewrite lookup_empty. discriminate.
Defined.

Lemma calls_respect_seat_cap_witness :
  seats_used 7 (serve ToLowerASCII String.eqb
    (CallInvite 100 (ex_caller 1 RoleOwner) (Some (mkInviteBody " new@x " RoleMember None))) ex_two_owners).1.2 <= 3.
Proof.
  change 3 with (Z.max (seats_used 7 ex_two_owners) (SeatCap 7 (orgPlan 7 ex_two_owners))).
  apply (calls_respect_seat_cap ToLowerASCII String.eqb
    (CallInvite 100 (ex_caller 1 RoleOwner) (Some (mkInviteBody " new@x " RoleMember None))) ex_two_owners 7 0 7 1 3).
  apply ex_two_owners_mwf.
Defined.
