(* ===== verification/Notify.v ===== *)
(** * Notify: dedup, fan-out and retry of notifications
    (src/internal/notify/service.go, notify.go, webhookdeliver.go; the dedup and
    delivery rows of src/internal/store/channels.go)

    The Redis dedup cache is an interface, [DedupCache]; Postgres's dedup table is
    the set [claimed].  Providers, the clock and cancellation are parameters.  The
    goroutines of one dispatch are the interleavings ([merges]) of the channels'
    attempt traces. *)

From S2P Require Import Prelude Domain Alerting Store AlertingService.
Open Scope Z_scope.

Record Channel := mkChannel { ch_ID : Z; ch_OrgID : Z; ch_Type : string; ch_Name : string; ch_Enabled : bool }.

(** ** The manager (notify.go) *)

(** [attempt*attempt] seconds, capped at thirty. *)
Definition defaultBackoff (attempt : Z) : Duration :=
  let d := wrap64 (wrap64 (attempt * attempt) * Second) in
  if 30 * Second <? d then 30 * Second else d.

(** An outcome the recording provider reports: attempts so far and the last error. *)
Record attemptResult := mkAttempt { at_attempts : Z; at_err : option string }.

Section manager.
(** The registry, and per (channel, attempt): whether the context is alive before
    it, what the send returns, and whether the backoff sleep completes. *)
Context (has_provider : string -> bool) (alive : Z -> Z -> bool)
        (Send : Z -> Z -> option string) (slept : Z -> Z -> bool) (maxRetries : Z).

(** The attempt loop, as the records it makes in the collector. *)
Fixpoint send_loop (fuel : nat) (attempt : Z) (ch : Z) : list (Z * attemptResult) :=
  match fuel with
  | O => []
  | S fuel' =>
      if maxRetries <? attempt then []
      else if negb (alive ch attempt) then []
      else
        let err := Send ch attempt in
        (ch, mkAttempt attempt err) ::
        match err with
        | None => []
        | Some _ =>
            if (attempt <? maxRetries) && slept ch attempt then send_loop fuel' (attempt + 1) ch else []
        end
  end.

Definition sendWithRetry (c : Channel) : list (Z * attemptResult) :=
  if has_provider (ch_Type c) then send_loop (Z.to_nat maxRetries) 1 (ch_ID c) else [].

(** The traces of the goroutines [Dispatch] starts. *)
Definition dispatch_traces (channels : list Channel) : list (list (Z * attemptResult)) :=
  sendWithRetry <$> filter (fun c => ch_Enabled c = true) channels.
End manager.

(** Interleavings of several traces. *)
Inductive merges {A} : list (list A) -> list A -> Prop :=
  | merges_done ls : Forall (eq []) ls -> merges ls []
  | merges_step ls k x l out : ls !! k = Some (x :: l) -> merges (<[k := l]> ls) out -> merges ls (x :: out).

(** The collector after a sequence of records: the latest per channel. *)
Definition collect (records : list (Z * attemptResult)) (col : gmap Z attemptResult) : gmap Z attemptResult :=
  fold_left (fun m r => <[r.1 := r.2]> m) records col.

(** ** The dedup id *)

(** [DedupKey]: the parts separated by a zero byte. *)
Definition DedupKey_preimage (incidentID : Z) (eventType : string) : string :=
  pretty incidentID +:+ String Ascii.zero eventType.
Definition DedupKey (sha256hex : string -> string) (incidentID : Z) (eventType : string) : string :=
  sha256hex (DedupKey_preimage incidentID eventType).

(** ** Org webhooks (webhookdeliver.go) *)

Definition orgEventTypes (t : NotifyEventType) : list OrgWebhookEvent :=
  match t with
  | EventDown => [OrgEventMonitorDown; OrgEventIncidentOpened]
  | EventRecovery => [OrgEventMonitorRecover; OrgEventIncidentClosed]
  end.

Definition org_event_string (e : OrgWebhookEvent) : string :=
  match e with
  | OrgEventMonitorDown => "monitor.down" | OrgEventMonitorRecover => "monitor.recovery"
  | OrgEventIncidentOpened => "incident.opened" | OrgEventIncidentClosed => "incident.closed"
  end.

Definition orgEventID (sha256hex : string -> string) (incidentID : Z) (et : OrgWebhookEvent) : string :=
  "evt_" +:+ String.substring 0 32 (sha256hex (pretty incidentID +:+ String Ascii.zero (org_event_string et))).

Record WebhookOutcome := mkWebhookOutcome { wo_hook : Z; wo_event : OrgWebhookEvent; wo_posts : Z; wo_err : option string }.

Section webhooks.
(** Per (webhook, attempt): the context, the clock, the POST, the backoff sleep. *)
Context (alive : Z -> Z -> bool) (clock : Z -> Z -> Time) (post : Z -> Z -> option string)
        (slept : Z -> Z -> bool) (maxAttempts : Z) (budget : Duration).
(** [Duration.String]. *)
Context (duration_text : Duration -> string).

Definition budget_text : string := "retry budget of " +:+ duration_text budget +:+ " elapsed since the event".
Definition ctx_text : string := "context canceled".

(** The retry loop of [deliverOne]: the POSTs made and the last error. *)
Fixpoint deliver_loop (fuel : nat) (attempt : Z) (sentAt : Time) (hook : Z) (lastErr : option string) :
    Z * option string :=
  match fuel with
  | O => (0, lastErr)
  | S fuel' =>
      if maxAttempts <? attempt then (0, lastErr)
      else if negb (alive hook attempt) then (0, Some ctx_text)
      else if (0 <? budget) && negb (sentAt =? zeroTime) && (budget <? clock hook attempt - sentAt)
      then (0, Some budget_text)
      else
        match post hook attempt with
        | None => (1, None)
        | Some e =>
            if attempt <? maxAttempts then
              if slept hook attempt then
                let '(n, r) := deliver_loop fuel' (attempt + 1) sentAt hook (Some e) in (n + 1, r)
              else (1, Some ctx_text)
            else (1, Some e)
        end
  end.

Definition deliverOne (sentAt : Time) (hook : OrgWebhook) (et : OrgWebhookEvent) : WebhookOutcome :=
  let '(n, e) := deliver_loop (Z.to_nat maxAttempts) 1 sentAt (w_ID hook) None in
  mkWebhookOutcome (w_ID hook) et n e.

Definition deliverOrgWebhooks (ev : NotifyMessage) (hooks : list OrgWebhook) : list WebhookOutcome :=
  hook ← filter (fun h => w_Enabled h = true) hooks;
  deliverOne (nm_SentAt ev) hook <$> filter (fun et => Subscribes hook et = true) (orgEventTypes (nm_EventType ev)).
End webhooks.

(** ** The runner (service.go) *)

Inductive notifyError := ErrDedup | ErrChannels.

(** [SetIfAbsent]: true for a new key, an error when Redis is unavailable. *)
Class DedupCache (C : Type) := SetIfAbsent : string -> C -> result unit bool * C.

(** What a run of the handler meets: whether the dedup insert succeeds, the
    channels (or an error) and the webhooks (or an error). *)
Record Env := mkEnv {
  en_claim_ok : bool;
  en_channels : option (list Channel);
  en_webhooks : option (list OrgWebhook);
}.

(** The delivery rows (status, attempts, last error), keyed by org, incident, channel
    and event type. *)
Record NState (C : Type) := mkNState {
  ns_cache : C;
  ns_claimed : gset (Z * string);
  ns_deliveries : gmap (Z * Z * Z * string) (bool * Z * option string);
}.
Arguments mkNState {C} _ _ _.
Arguments ns_cache {C} _.
Arguments ns_claimed {C} _.
Arguments ns_deliveries {C} _.

(** What the handler sent: the event's dedup id, the channel outcomes, the webhooks'. *)
Record Sent := mkSent {
  sn_org : Z; sn_dedup : string; sn_outcomes : list (Z * attemptResult); sn_webhooks : list WebhookOutcome;
}.

Section runner.
Context {C : Type} `{!DedupCache C} (sha256hex : string -> string).
Context (has_provider : string -> bool) (alive : Z -> Z -> bool) (Send : Z -> Z -> option string)
        (slept : Z -> Z -> bool) (maxRetries : Z).
Context (deliver_hooks : NotifyMessage -> list OrgWebhook -> list WebhookOutcome).

(** [ClaimNotifyDedup]: insert or nothing, and whether a row went in. *)
Definition ClaimNotifyDedup (org : Z) (dedupID : string) (claimed : gset (Z * string)) : bool * gset (Z * string) :=
  if bool_decide ((org, dedupID) ∈ claimed) then (false, claimed) else (true, {[ (org, dedupID) ]} ∪ claimed).

Definition dedup_key (dedupID : string) : string := "pulse:notify:dedup:" +:+ dedupID.

Definition dedup (claim_ok : bool) (org : Z) (dedupID : string) (s : NState C) : result notifyError bool * NState C :=
  let '(hit, cache') := SetIfAbsent (dedup_key dedupID) (ns_cache s) in
  let s := mkNState cache' (ns_claimed s) (ns_deliveries s) in
  match hit with
  | Ok false => (Ok false, s)
  | _ =>
      if negb claim_ok then (Err ErrDedup, s)
      else
        let '(claimed, set') := ClaimNotifyDedup org dedupID (ns_claimed s) in
        (Ok claimed, mkNState (ns_cache s) set' (ns_deliveries s))
  end.

(** The outcomes [dispatch] records, from the collector. *)
Definition outcomes (channels : list Channel) (col : gmap Z attemptResult) : list (Z * attemptResult) :=
  omap (fun c => r ← col !! ch_ID c; Some (ch_ID c, r)) (filter (fun c => ch_Enabled c = true) channels).

(** The upsert of an outcome; an empty error text is stored as NULL. *)
Definition RecordDelivery (ev : NotifyMessage) (o : Z * attemptResult)
    (rows : gmap (Z * Z * Z * string) (bool * Z * option string)) : gmap (Z * Z * Z * string) (bool * Z * option string) :=
  <[(nm_OrgID ev, nm_IncidentID ev, o.1, event_type_string (nm_EventType ev)) :=
      (bool_decide (at_err o.2 = None), at_attempts o.2,
       match at_err o.2 with Some EmptyString => None | e => e end)]> rows.

(** One schedule of [dispatch]: the channels one after the other. *)
Definition dispatch (ev : NotifyMessage) (channels : list Channel) : list (Z * attemptResult) :=
  outcomes channels
    (collect (concat (dispatch_traces has_provider alive Send slept maxRetries channels)) ∅).

(** [handle]; [None] is a payload that does not unmarshal. *)
Definition handle (env : Env) (rec : option NotifyMessage) (s : NState C) :
    result notifyError unit * NState C * list Sent :=
  match rec with
  | None => (Ok tt, s, [])
  | Some ev =>
      let dedupID := if String.eqb (nm_DedupKey ev) ""
                     then DedupKey sha256hex (nm_IncidentID ev) (event_type_string (nm_EventType ev))
                     else nm_DedupKey ev in
      match dedup (en_claim_ok env) (nm_OrgID ev) dedupID s with
      | (Err e, s') => (Err e, s', [])
      | (Ok false, s') => (Ok tt, s', [])
      | (Ok true, s') =>
          match en_channels env with
          | None => (Err ErrChannels, s', [])
          | Some channels =>
              let outs := match channels with [] => [] | _ => dispatch ev channels end in
              let hooks := match en_webhooks env with Some hs => deliver_hooks ev hs | None => [] end in
              (Ok tt, mkNState (ns_cache s') (ns_claimed s') (fold_left (fun m o => RecordDelivery ev o m) outs (ns_deliveries s')),
               [mkSent (nm_OrgID ev) dedupID outs hooks])
          end
      end
  end.

(** Records delivered to the handler, in any order and any number of times. *)
Fixpoint consume (recs : list (Env * option NotifyMessage)) (s : NState C) : NState C * list Sent :=
  match recs with
  | [] => (s, [])
  | (env, rec) :: recs' =>
      let '(_, s1, sent) := handle env rec s in
      let '(s2, sent') := consume recs' s1 in (s2, sent ++ sent')
  end.
End runner.

(** ** Interleavings of the goroutines *)

Lemma collect_snoc records r col : collect (records ++ [r]) col = <[r.1 := r.2]> (collect records col).
Proof. unfold collect. by rewrite fold_left_app. Qed.

(** The collector holds the last record of each channel. *)
Lemma collect_lookup records col id :
  collect records col !! id =
  match last (filter (fun r => r.1 = id) records) with Some r => Some r.2 | None => col !! id end.
Proof.
  induction records as [|r records IH] using rev_ind; [done|].
  rewrite collect_snoc, filter_app, filter_cons, filter_nil. rewrite lookup_insert.
  case_decide as Hid.
  - by rewrite last_snoc.
  - by rewrite app_nil_r, IH.
Qed.

(** In an interleaving, the records of the only trace that has [P]-records appear
    in that trace's order. *)
Lemma merges_filter {A} (P : A -> Prop) `{!forall x, base.Decision (P x)} ls out :
  merges ls out -> forall i t, ls !! i = Some t ->
  (forall j l, j <> i -> ls !! j = Some l -> filter P l = []) -> filter P out = filter P t.
Proof.
  induction 1 as [ls Hnil|ls k x l out Hk _ IH]; intros i t Hi Hsep.
  - rewrite Forall_lookup in Hnil. by rewrite <- (Hnil _ _ Hi).
  - assert (k < length ls)%nat as Hlen by (by eapply lookup_lt_Some). rewrite !filter_cons.
    destruct (decide (k = i)) as [->|Hne].
    + simplify_eq. rewrite filter_cons, (IH i l).
      * done.
      * by rewrite list_lookup_insert_eq.
      * intros j l' Hj. rewrite list_lookup_insert_ne by done. by apply Hsep.
    + pose proof (Hsep k _ Hne Hk) as Hx. rewrite filter_cons in Hx. case_decide; [done|].
      apply (IH i t); [by rewrite list_lookup_insert_ne|].
      intros j l' Hj. destruct (decide (j = k)) as [->|Hjk].
      * rewrite list_lookup_insert_eq by done. by intros [= <-].
      * rewrite list_lookup_insert_ne by done. by apply Hsep.
Qed.

Lemma merges_cons_nil {A} (ls : list (list A)) out : merges ls out -> merges ([] :: ls) out.
Proof.
  induction 1 as [ls Hnil|ls k x l out Hk _ IH]; [apply merges_done; by constructor|].
  by apply (merges_step _ (S k) x l).
Qed.

(** Running the goroutines one after the other is one interleaving. *)
Lemma merges_concat {A} (ls : list (list A)) : merges ls (concat ls).
Proof.
  induction ls as [|l ls IH]; [by apply merges_done|]. simpl.
  induction l as [|x l IHl]; [by apply merges_cons_nil|]. by apply (merges_step _ 0 x l).
Qed.

(** The records of a channel's loop are its own. *)
Lemma send_loop_own alive Send slept mx fuel a ch r : r ∈ send_loop alive Send slept mx fuel a ch -> r.1 = ch.
Proof.
  revert a. induction fuel as [|fuel IH]; intros a; simpl; [set_solver|].
  repeat case_match; rewrite ?elem_of_cons, ?elem_of_nil; naive_solver.
Qed.

Section interleaving.
Context (has_provider : string -> bool) (alive : Z -> Z -> bool) (Send : Z -> Z -> option string)
        (slept : Z -> Z -> bool) (maxRetries : Z).
Abbreviation trace := (sendWithRetry has_provider alive Send slept maxRetries).

Lemma trace_own c r : r ∈ trace c -> r.1 = ch_ID c.
Proof. unfold sendWithRetry. case_match; [apply send_loop_own|set_solver]. Qed.

(** Whatever the schedule, the collector ends with each channel's own outcome. *)
Lemma collected_outcome channels out c :
  NoDup (ch_ID <$> channels) ->
  merges (dispatch_traces has_provider alive Send slept maxRetries channels) out ->
  c ∈ channels -> ch_Enabled c = true ->
  collect out ∅ !! ch_ID c = snd <$> last (trace c).
Proof.
  intros Hnd Hm Hc He. rewrite collect_lookup.
  assert (c ∈ filter (fun c => ch_Enabled c = true) channels) as Hin by (by apply list_elem_of_filter).
  apply list_elem_of_lookup_1 in Hin as [i Hi].
  rewrite (merges_filter (fun r => r.1 = ch_ID c) _ _ Hm i (trace c)).
  - rewrite filter_all by (apply Forall_forall; intros r Hr; by apply trace_own). destruct (last (trace c)); simpl; by rewrite ?lookup_empty.
  - unfold dispatch_traces. by rewrite list_lookup_fmap, Hi.
  - intros j l Hj. unfold dispatch_traces. rewrite list_lookup_fmap, fmap_Some. intros (c' & Hc' & ->).
    apply filter_none, Forall_forall. intros r Hr%trace_own Heq. apply Hj.
    assert (NoDup (ch_ID <$> filter (fun c => ch_Enabled c = true) channels)) as Hnd'.
    { eapply sublist_NoDup; [exact Hnd|]. apply fmap_sublist, sublist_filter. }
    rewrite NoDup_alt in Hnd'. apply (Hnd' j i (ch_ID c)); rewrite list_lookup_fmap.
    + rewrite Hc'. simpl. f_equal. congruence.
    + by rewrite Hi.
Qed.

(** The loop, when nothing cancels it: it stops at the first success, or at the
    last attempt. *)
Lemma send_loop_outcome fuel a ch :
  (forall a, alive ch a = true) -> (forall a, slept ch a = true) ->
  a <= maxRetries -> maxRetries - a + 1 <= Z.of_nat fuel ->
  exists r, last (send_loop alive Send slept maxRetries fuel a ch) = Some (ch, r) /\
    a <= at_attempts r <= maxRetries /\ at_err r = Send ch (at_attempts r) /\
    (forall b, a <= b < at_attempts r -> is_Some (Send ch b)) /\
    (is_Some (at_err r) -> at_attempts r = maxRetries).
Proof.
  intros Ha Hs. revert a. induction fuel as [|fuel IH]; intros a Hle Hf; [lia|]. cbn [send_loop].
  rewrite (proj2 (Z.ltb_ge _ _)), Ha by lia. cbn [negb].
  destruct (Send ch a) as [e|] eqn:He.
  - rewrite Hs, andb_true_r. destruct (a <? maxRetries) eqn:Hlt; reflect_tests.
    + destruct (IH (a + 1)) as (r & Hl & Hb & Herr & Hfail & Hmax); [lia|lia|].
      exists r. destruct (send_loop alive Send slept maxRetries fuel (a + 1) ch) as [|x l] eqn:El; [done|].
      rewrite last_cons_cons. split; [done|]. split; [lia|]. split; [done|]. split; [|done].
      intros b Hb'. destruct (decide (b = a)) as [->|]; [by rewrite He|]. apply Hfail. lia.
    + exists (mkAttempt a (Some e)). simpl. split; [done|]. split; [lia|]. split; [done|].
      split; [intros b ?; lia|]. intros _. lia.
  - exists (mkAttempt a None). simpl. split; [done|]. split; [lia|]. split; [done|].
    split; [intros b ?; lia|]. by intros [? ?].
Qed.
End interleaving.

(** ** At most once *)

Section at_most_once.
Context {C : Type} `{!DedupCache C} (sha256hex : string -> string).
Context (has_provider : string -> bool) (alive : Z -> Z -> bool) (Send : Z -> Z -> option string)
        (slept : Z -> Z -> bool) (maxRetries : Z)
        (deliver_hooks : NotifyMessage -> list OrgWebhook -> list WebhookOutcome).
Abbreviation handle_ := (handle sha256hex has_provider alive Send slept maxRetries deliver_hooks).
Abbreviation consume_ := (consume sha256hex has_provider alive Send slept maxRetries deliver_hooks).

(** The keys a list of sends is about. *)
Definition sent_keys (sent : list Sent) : list (Z * string) := (fun s => (sn_org s, sn_dedup s)) <$> sent.

Lemma dedup_claims ok org id (s s' : NState C) r :
  dedup ok org id s = (r, s') ->
  (r = Ok true /\ ((org, id) ∉ ns_claimed s) /\ ns_claimed s' = {[ (org, id) ]} ∪ ns_claimed s) \/
  (r <> Ok true /\ ns_claimed s' = ns_claimed s).
Proof.
  unfold dedup, ClaimNotifyDedup. destruct (SetIfAbsent _ _) as [hit c']. simpl.
  assert ((if negb ok then (Err ErrDedup, mkNState c' (ns_claimed s) (ns_deliveries s))
           else let '(claimed, set') := if bool_decide ((org, id) ∈ ns_claimed s) then (false, ns_claimed s)
                    else (true, {[(org, id)]} ∪ ns_claimed s) in
                (Ok claimed, mkNState c' set' (ns_deliveries s))) = (r, s') ->
    (r = Ok true /\ ((org, id) ∉ ns_claimed s) /\ ns_claimed s' = {[ (org, id) ]} ∪ ns_claimed s) \/
    (r <> Ok true /\ ns_claimed s' = ns_claimed s)) as Hpg.
  { destruct ok; simpl; [|intros [= <- <-]; by right].
    case_bool_decide; intros [= <- <-]; [by right|by left]. }
  destruct hit as [[]|]; [apply Hpg| |apply Hpg]. intros [= <- <-]. by right.
Qed.

(** One handler run sends only a key that was not claimed, and claims it. *)
Lemma handle_claims env rec (s s' : NState C) r sent :
  handle_ env rec s = (r, s', sent) ->
  ns_claimed s ⊆ ns_claimed s' /\
  (sent = [] \/ exists k, sent_keys sent = [k] /\ (k ∉ ns_claimed s) /\ k ∈ ns_claimed s').
Proof.
  unfold handle. destruct rec as [ev|]; [|intros [= <- <- <-]; auto]. cbv zeta.
  set (id := if String.eqb _ _ then _ else _).
  destruct (dedup (en_claim_ok env) (nm_OrgID ev) id s) as [d s1] eqn:Hd.
  destruct (dedup_claims _ _ _ _ _ _ Hd) as [(-> & Hnew & Hset)|(Hne & Hset)].
  - destruct (en_channels env) as [channels|]; intros [= <- <- <-]; simpl; rewrite Hset; (split; [set_solver|]).
    + right. exists (nm_OrgID ev, id). simpl. set_solver.
    + by left.
  - destruct d as [[]|]; [done|..]; intros [= <- <- <-]; rewrite Hset; auto.
Qed.

Lemma consume_claims recs (s s' : NState C) sent :
  consume_ recs s = (s', sent) ->
  ns_claimed s ⊆ ns_claimed s' /\ NoDup (sent_keys sent) /\
  forall k, k ∈ sent_keys sent -> (k ∉ ns_claimed s) /\ k ∈ ns_claimed s'.
Proof.
  revert s s' sent. induction recs as [|[env rec] recs IH]; intros s s' sent; cbn [consume].
  { intros [= <- <-]. split_and!; [done|constructor|set_solver]. }
  destruct (handle_ env rec s) as [[r s1] sent1] eqn:Hh. apply handle_claims in Hh as [Hsub Hh].
  destruct (consume_ recs s1) as [s2 sent2] eqn:Hc. apply IH in Hc as (Hsub2 & Hnd & Hk).
  intros [= <- <-]. unfold sent_keys in *. rewrite fmap_app.
  destruct Hh as [-> |(k & -> & Hnew & Hin)]; simpl.
  - split_and!; [set_solver|done|]. intros k Hk'. destruct (Hk k Hk'). set_solver.
  - split_and!; [set_solver| |].
    + constructor; [|done]. intros Hk'. by destruct (Hk k Hk').
    + intros k' [->|Hk']%elem_of_cons; [set_solver|]. destruct (Hk k' Hk'). set_solver.
Qed.
End at_most_once.

(** ** Lost alerts *)

(** A cache that remembers: a key it reported as new is reported as present from
    then on (within its time to live). *)
Class DedupCacheLaws (C : Type) `{!DedupCache C} := {
  cached : string -> C -> Prop;
  set_new : forall k c c', SetIfAbsent k c = (Ok true, c') -> cached k c';
  set_again : forall k c, cached k c -> SetIfAbsent k c = (Ok false, c);
}.

(** The id the handler dedups an event by. *)
Definition event_dedup (sha256hex : string -> string) (ev : NotifyMessage) : string :=
  if String.eqb (nm_DedupKey ev) "" then DedupKey sha256hex (nm_IncidentID ev) (event_type_string (nm_EventType ev))
  else nm_DedupKey ev.

(** ** Properties *)

(** C32: an alert goes out at most once.  Over any sequence of handler runs, with any
    events, redeliveries and failures and any behaviour of the Redis cache, the
    (org, dedup id) pairs that were dispatched are pairwise distinct and none had
    been claimed before. *)
Theorem alerts_sent_at_most_once {C} `{!DedupCache C} sha has_provider alive Send slept mx hooks recs
    (s s' : NState C) sent :
  consume sha has_provider alive Send slept mx hooks recs s = (s', sent) ->
  NoDup (sent_keys sent) /\ forall k, k ∈ sent_keys sent -> k ∉ ns_claimed s.
Proof.
  intros Hc. apply consume_claims in Hc as (_ & Hnd & Hk). split; [done|]. intros k Hin. by apply Hk.
Qed.

(** A failure after the cache was set loses the alert.  When Redis reports the
    dedup key as new but the Postgres claim or the channel read then fails, the
    handler returns an error and sends nothing; every redelivery, even with all
    stores back, is taken for a duplicate, is committed and sends nothing. *)
Theorem failure_after_cache_loses_alert {C} `{!DedupCache C, !DedupCacheLaws C} sha has_provider alive Send slept mx
    hooks env ev (s : NState C) c' envs :
  SetIfAbsent (dedup_key (event_dedup sha ev)) (ns_cache s) = (Ok true, c') ->
  en_claim_ok env = false \/ (((nm_OrgID ev, event_dedup sha ev) ∉ ns_claimed s) /\ en_channels env = None) ->
  exists e s1, handle sha has_provider alive Send slept mx hooks env (Some ev) s = (Err e, s1, []) /\
    (consume sha has_provider alive Send slept mx hooks ((fun en => (en, Some ev)) <$> envs) s1) = (s1, []).
Proof.
  intros Hset Hfail.
  assert (forall s1 : NState C, cached (dedup_key (event_dedup sha ev)) (ns_cache s1) ->
    consume sha has_provider alive Send slept mx hooks ((fun en => (en, Some ev)) <$> envs) s1 = (s1, [])) as Hre.
  { intros s1 Hc. induction envs as [|en envs IH]; [done|]. cbn [fmap list_fmap consume].
    assert (handle sha has_provider alive Send slept mx hooks en (Some ev) s1 = (Ok tt, s1, [])) as ->.
    { unfold handle, dedup. cbv zeta. fold (event_dedup sha ev). rewrite (set_again _ _ Hc). by destruct s1. }
    by rewrite IH. }
  unfold handle, dedup, ClaimNotifyDedup. cbv zeta. fold (event_dedup sha ev). rewrite Hset. simpl.
  destruct (en_claim_ok env); simpl.
  - destruct Hfail as [?|[Hnew ->]]; [done|]. rewrite (bool_decide_eq_false_2 _ Hnew).
    eexists _, _. split; [done|]. apply Hre. simpl. by eapply set_new.
  - eexists _, _. split; [done|]. apply Hre. simpl. by eapply set_new.
Qed.

(** Retries are independent of the schedule.  Under every interleaving of the
    goroutines of one dispatch, with nothing cancelled, the collector ends, for
    each enabled channel with a provider, with that channel's own outcome: the
    attempt it stopped at, all earlier attempts failed, and a success unless all
    [maxRetries] attempts failed. *)
Theorem dispatch_outcome_any_schedule has_provider alive Send slept mx channels out c :
  NoDup (ch_ID <$> channels) -> 1 <= mx -> (forall a, alive (ch_ID c) a = true) ->
  (forall a, slept (ch_ID c) a = true) -> c ∈ channels -> ch_Enabled c = true -> has_provider (ch_Type c) = true ->
  merges (dispatch_traces has_provider alive Send slept mx channels) out ->
  exists r, collect out ∅ !! ch_ID c = Some r /\ 1 <= at_attempts r <= mx /\
    at_err r = Send (ch_ID c) (at_attempts r) /\
    (forall b, 1 <= b < at_attempts r -> is_Some (Send (ch_ID c) b)) /\
    (is_Some (at_err r) -> at_attempts r = mx).
Proof.
  intros Hnd Hmx Ha Hs Hc He Hp Hm.
  rewrite (collected_outcome has_provider alive Send slept mx channels out c Hnd Hm Hc He).
  unfold sendWithRetry. rewrite Hp.
  destruct (send_loop_outcome alive Send slept mx (Z.to_nat mx) 1 (ch_ID c) Ha Hs Hmx ltac:(lia))
    as (r & -> & Hrest). by exists r.
Qed.

(** The notifier's own dedup id never is the one alerting puts on an event. *)
Lemma dedup_ids_disagree sha i t :
  Inj (=) (=) sha -> DedupKey sha i (event_type_string t) <> dedupKey sha i (event_type_string t) None.
Proof.
  intros Hsha Hk. apply (inj sha) in Hk. unfold DedupKey_preimage, dedup_preimage in Hk.
  induction (pretty i : string) as [|a s IH]; simpl in Hk; [done|]. injection Hk. apply IH.
Qed.

(** Two warnings of one ssl incident have different dedup ids but the same org
    webhook event id. *)
Lemma renotify_shares_event_id sha m inc r1 r2 now w1 w2 et :
  Inj (=) (=) sha -> w1 <> w2 ->
  nm_DedupKey (notify_message sha now m inc r1 EventDown w1) <>
    nm_DedupKey (notify_message sha now m inc r2 EventDown w2) /\
  orgEventID sha (nm_IncidentID (notify_message sha now m inc r1 EventDown w1)) et =
    orgEventID sha (nm_IncidentID (notify_message sha now m inc r2 EventDown w2)) et.
Proof.
  intros Hsha Hne. split; [|done]. simpl. intros Hk. apply (inj sha) in Hk. unfold dedup_preimage in Hk.
  apply (inj _) in Hk. destruct w1, w2; simpl in Hk; simplify_eq/=.
Qed.

(** ** Witnesses *)

(** A cache that keeps its keys. *)
#[export] Instance set_cache : DedupCache (gset string) := fun k c =>
  if bool_decide (k ∈ c) then (Ok false, c) else (Ok true, {[ k ]} ∪ c).

#[export] Instance set_cache_laws : DedupCacheLaws (gset string).
Proof.
  refine {| cached k c := k ∈ c |}.
  - intros k c c'. unfold SetIfAbsent, set_cache. case_bool_decide; [done|]. intros [= <-]. set_solver.
  - intros k c Hk. unfold SetIfAbsent, set_cache. by rewrite bool_decide_eq_true_2.
Defined.

Definition ex_nstate : NState (gset string) := mkNState ∅ ∅ ∅.
Definition ex_channels : list Channel :=
  [mkChannel 3 1 "slack" "ops" true; mkChannel 4 1 "discord" "dev" true; mkChannel 5 1 "slack" "off" false].
(** Channel 3 fails once, channel 4 always. *)
Definition ex_send (ch attempt : Z) : option string :=
  if (ch =? 3) && (2 <=? attempt) then None else Some "HTTP 500".
Definition ex_consume :=
  consume (C:=gset string) id (fun _ => true) (fun _ _ => true) ex_send (fun _ _ => true) 3 (fun _ _ => []).
Definition ex_all_up : Env := mkEnv true (Some ex_channels) (Some []).
Definition ex_claim_down : Env := mkEnv false (Some ex_channels) (Some []).

(** The event delivered twice: one send, with the outcomes of its two channels. *)
Lemma alerts_sent_at_most_once_witness :
  sn_outcomes <$> (ex_consume [(ex_all_up, Some ex_down); (ex_all_up, Some ex_down)] ex_nstate).2 =
    [[(3, mkAttempt 2 None); (4, mkAttempt 3 (Some "HTTP 500"))]] /\
  NoDup (sent_keys (ex_consume [(ex_all_up, Some ex_down); (ex_all_up, Some ex_down)] ex_nstate).2).
Proof.
  split; [vm_compute; reflexivity|].
  apply (alerts_sent_at_most_once id (fun _ => true) (fun _ _ => true) ex_send (fun _ _ => true) 3 (fun _ _ => [])
    [(ex_all_up, Some ex_down); (ex_all_up, Some ex_down)] ex_nstate
    (ex_consume [(ex_all_up, Some ex_down); (ex_all_up, Some ex_down)] ex_nstate).1).
  apply surjective_pairing.
Defined.

Lemma failure_after_cache_loses_alert_witness :
  exists e s1,
    handle (C:=gset string) id (fun _ => true) (fun _ _ => true) ex_send (fun _ _ => true) 3 (fun _ _ => [])
      ex_claim_down (Some ex_down) ex_nstate = (Err e, s1, []) /\
    ex_consume ((fun en => (en, Some ex_down)) <$> [ex_all_up; ex_all_up]) s1 = (s1, []).
Proof.
  apply (failure_after_cache_loses_alert id (fun _ => true) (fun _ _ => true) ex_send (fun _ _ => true) 3
    (fun _ _ => []) ex_claim_down ex_down ex_nstate
    ({[ dedup_key (event_dedup id ex_down) ]} ∪ ∅) [ex_all_up; ex_all_up]); [reflexivity|left; reflexivity].
Defined.

Lemma dispatch_outcome_any_schedule_witness :
  exists r, collect (concat (dispatch_traces (fun _ => true) (fun _ _ => true) ex_send (fun _ _ => true) 3 ex_channels)) ∅
      !! 3 = Some r /\ 1 <= at_attempts r <= 3 /\ at_err r = ex_send 3 (at_attempts r) /\
    (forall b, 1 <= b < at_attempts r -> is_Some (ex_send 3 b)) /\ (is_Some (at_err r) -> at_attempts r = 3).
Proof.
  apply (dispatch_outcome_any_schedule (fun _ => true) (fun _ _ => true) ex_send (fun _ _ => true) 3 ex_channels
    (concat (dispatch_traces (fun _ => true) (fun _ _ => true) ex_send (fun _ _ => true) 3 ex_channels))
    (mkChannel 3 1 "slack" "ops" true)); try reflexivity; try lia.
  - vm_compute. repeat (constructor; [set_solver|]). constructor.
  - left.
  - apply merges_concat.
Defined.
