(* ===== verification/Refresh.v ===== *)
(** * Refresh: rotating refresh tokens
    (src/internal/store/refreshtokens.go, src/internal/authn/refresh.go)

    The table refresh_tokens with the constraints schema.sql puts on it (identity
    key, unique token_hash, the foreign keys to users and to itself, NOT NULL), the
    store's statements over it, and the RefreshService that issues, rotates and
    revokes.  Every database call and the random source can fail ([Faults]); the
    hash of a token is a parameter.  A transaction is serial, except in the last
    section, which interleaves the statements of two rotations. *)

From S2P Require Import Prelude.
Open Scope Z_scope.

(** ** Data *)

Record RefreshToken := mkRefreshToken {
  rt_ID : Z;
  rt_UserID : Z;
  rt_FamilyID : Z;
  rt_ReplacedBy : option Z;
  rt_TokenHash : string;
  rt_CreatedAt : Time;
  rt_ExpiresAt : Time;
  rt_RevokedAt : option Time;
}.

Record RDB := mkRDB { refresh_tokens : gmap Z RefreshToken; rdb_users : gset Z; seq_refresh : Z }.

Definition set_tokens (f : gmap Z RefreshToken -> gmap Z RefreshToken) (db : RDB) : RDB :=
  mkRDB (f (refresh_tokens db)) (rdb_users db) (seq_refresh db).
Definition next_refresh (db : RDB) : RDB :=
  mkRDB (refresh_tokens db) (rdb_users db) (seq_refresh db + 1).

Definition with_family (fam : Z) (r : RefreshToken) : RefreshToken :=
  mkRefreshToken (rt_ID r) (rt_UserID r) fam (rt_ReplacedBy r) (rt_TokenHash r) (rt_CreatedAt r)
    (rt_ExpiresAt r) (rt_RevokedAt r).
Definition with_replaced (id : Z) (r : RefreshToken) : RefreshToken :=
  mkRefreshToken (rt_ID r) (rt_UserID r) (rt_FamilyID r) (Some id) (rt_TokenHash r) (rt_CreatedAt r)
    (rt_ExpiresAt r) (rt_RevokedAt r).
Definition with_revoked (t : Time) (r : RefreshToken) : RefreshToken :=
  mkRefreshToken (rt_ID r) (rt_UserID r) (rt_FamilyID r) (rt_ReplacedBy r) (rt_TokenHash r) (rt_CreatedAt r)
    (rt_ExpiresAt r) (Some t).

Inductive rError :=
  | RNoRows | RUnique | RForeignKey | RNotNull | RUnavailable
  | ErrReuseDetected | ErrRefreshInvalid.
#[export] Instance rError_eq_dec : EqDecision rError.
Proof. solve_decision. Defined.

(** Which of the calls an operation makes fails for a reason outside the model
    (the random source, a lost connection). *)
Record Faults := mkFaults {
  f_token : bool; f_get : bool; f_insert : bool; f_family : bool; f_rotate : bool; f_revoke : bool;
}.
Definition no_faults : Faults := mkFaults false false false false false false.

(** ** The store (refreshtokens.go) *)

Definition has_hash (h : string) (r : RefreshToken) : bool := bool_decide (rt_TokenHash r = h).
Definition unrevoked (r : RefreshToken) : bool := bool_decide (rt_RevokedAt r = None).
(** replaced_by IS NULL AND revoked_at IS NULL *)
Definition live (r : RefreshToken) : bool := bool_decide (rt_ReplacedBy r = None) && unrevoked r.

(** INSERT INTO refresh_tokens: the identity advances on every attempt. *)
Definition insert_refresh (now : Time) (userID familyID : Z) (hash : string) (expires : option Time) (db : RDB)
    : result rError Z * RDB :=
  let id := seq_refresh db in
  let db1 := next_refresh db in
  match expires with
  | None => (Err RNotNull, db1)
  | Some exp =>
      if bool_decide (is_Some (find_row (has_hash hash) (refresh_tokens db))) then (Err RUnique, db1)
      else if negb (bool_decide (userID ∈ rdb_users db)) then (Err RForeignKey, db1)
      else (Ok id, set_tokens (insert id (mkRefreshToken id userID familyID None hash now exp None)) db1)
  end.

(** The new row's id, and its family: the id itself when the caller passed 0.
    The INSERT and the UPDATE are separate statements, each of which can fail. *)
Definition CreateRefreshToken (f : Faults) (now : Time) (rt : RefreshToken) (db : RDB)
    : result rError (Z * Z) * RDB :=
  if f_insert f then (Err RUnavailable, db)
  else
    match insert_refresh now (rt_UserID rt) (rt_FamilyID rt) (rt_TokenHash rt) (Some (rt_ExpiresAt rt)) db with
    | (Err e, db1) => (Err e, db1)
    | (Ok id, db1) =>
        if rt_FamilyID rt =? 0 then
          if f_family f then (Err RUnavailable, db1)
          else (Ok (id, id), set_tokens (update_where (fun r => rt_ID r =? id) (with_family id)) db1)
        else (Ok (id, rt_FamilyID rt), db1)
    end.

Definition GetRefreshTokenByHash (h : string) (db : RDB) : result rError RefreshToken :=
  match find_row (has_hash h) (refresh_tokens db) with
  | Some (_, r) => Ok r
  | None => Err RNoRows
  end.

(** The SELECT of the rotation transaction. *)
Definition rotate_select (oldHash : string) (db : RDB) : option (Z * Z) :=
  match find_row (fun r => has_hash oldHash r && live r) (refresh_tokens db) with
  | Some (_, r) => Some (rt_UserID r, rt_FamilyID r)
  | None => None
  end.

(** Its INSERT and UPDATE; an error rolls the rows back. *)
Definition rotate_apply (now : Time) (sel : Z * Z) (oldHash newHash : string) (db : RDB) : result rError Z * RDB :=
  let expires := (fun kr => rt_ExpiresAt kr.2) <$> find_row (has_hash oldHash) (refresh_tokens db) in
  match insert_refresh now sel.1 sel.2 newHash expires db with
  | (Err e, db1) => (Err e, db1)
  | (Ok newID, db1) => (Ok newID, set_tokens (update_where (has_hash oldHash) (with_replaced newID)) db1)
  end.

Definition RotateRefreshToken (now : Time) (oldHash newHash : string) (db : RDB) : result rError Z * RDB :=
  match rotate_select oldHash db with
  | None => (Err RNoRows, db)
  | Some sel => rotate_apply now sel oldHash newHash db
  end.

Definition in_family (fam : Z) (r : RefreshToken) : bool := (rt_FamilyID r =? fam) && unrevoked r.
Definition of_user (u : Z) (r : RefreshToken) : bool := (rt_UserID r =? u) && unrevoked r.

Definition RevokeRefreshTokenFamily (now : Time) (fam : Z) (db : RDB) : Z * RDB :=
  (rows_affected (in_family fam) (refresh_tokens db),
   set_tokens (update_where (in_family fam) (with_revoked now)) db).

Definition RevokeAllForUser (now : Time) (u : Z) (db : RDB) : Z * RDB :=
  (rows_affected (of_user u) (refresh_tokens db),
   set_tokens (update_where (of_user u) (with_revoked now)) db).

(** The delete fails when a row that stays refers to one that would go. *)
Definition DeleteExpiredRefreshTokens (now : Time) (db : RDB) : result rError Z * RDB :=
  let expired := fun r => rt_ExpiresAt r <=? now in
  let kept := filter (fun kr => expired kr.2 = false) (refresh_tokens db) in
  let dangling := fun r => match rt_ReplacedBy r with
                           | Some j => bool_decide (kept !! j = None)
                           | None => false
                           end in
  if bool_decide (is_Some (find_row dangling kept)) then (Err RForeignKey, db)
  else (Ok (rows_affected expired (refresh_tokens db)), set_tokens (fun _ => kept) db).

(** ** The service (authn/refresh.go) *)

Definition refreshTTL : Duration := 30 * 24 * Hour.

Record IssuedRefresh := mkIssued { ir_Raw : string; ir_FamilyID : Z; ir_Expires : Time }.
Record Rotated := mkRotated { ro_Raw : string; ro_UserID : Z; ro_FamilyID : Z; ro_Expires : Time }.

Section service.
Context (HashToken : string -> string).

(** [raw] is what newOpaqueToken draws; [now] is the clock of the process and of
    the database. *)
Definition Issue (f : Faults) (now : Time) (raw : string) (userID : Z) (db : RDB)
    : result rError IssuedRefresh * RDB :=
  if f_token f then (Err RUnavailable, db)
  else
    let exp := now + refreshTTL in
    let rt := mkRefreshToken 0 userID 0 None (HashToken raw) 0 exp None in
    match CreateRefreshToken f now rt db with
    | (Err e, db1) => (Err e, db1)
    | (Ok (_, fam), db1) => (Ok (mkIssued raw fam exp), db1)
    end.

(** The answer to a reused token: revoke the family, ignoring an error. *)
Definition reuse (f : Faults) (now : Time) (fam : Z) (db : RDB) : result rError Rotated * RDB :=
  (Err ErrReuseDetected, if f_revoke f then db else (RevokeRefreshTokenFamily now fam db).2).

Definition Rotate (f : Faults) (now : Time) (newRaw presentedRaw : string) (db : RDB)
    : result rError Rotated * RDB :=
  let oldHash := HashToken presentedRaw in
  if f_get f then (Err RUnavailable, db)
  else
    match GetRefreshTokenByHash oldHash db with
    | Err _ => (Err ErrRefreshInvalid, db)
    | Ok existing =>
        if bool_decide (is_Some (rt_ReplacedBy existing)) then reuse f now (rt_FamilyID existing) db
        else if bool_decide (is_Some (rt_RevokedAt existing)) || negb (now <? rt_ExpiresAt existing)
        then (Err ErrRefreshInvalid, db)
        else if f_token f then (Err RUnavailable, db)
        else if f_rotate f then (Err RUnavailable, db)
        else
          match RotateRefreshToken now oldHash (HashToken newRaw) db with
          | (Err RNoRows, db1) => reuse f now (rt_FamilyID existing) db1
          | (Err e, db1) => (Err e, db1)
          | (Ok _, db1) =>
              (Ok (mkRotated newRaw (rt_UserID existing) (rt_FamilyID existing) (rt_ExpiresAt existing)), db1)
          end
    end.

Definition RevokeFamily (f : Faults) (now : Time) (presentedRaw : string) (db : RDB) : result rError unit * RDB :=
  if f_get f then (Err RUnavailable, db)
  else
    match GetRefreshTokenByHash (HashToken presentedRaw) db with
    | Err _ => (Ok tt, db)
    | Ok existing =>
        if f_revoke f then (Err RUnavailable, db)
        else (Ok tt, (RevokeRefreshTokenFamily now (rt_FamilyID existing) db).2)
    end.

Definition RevokeAll (f : Faults) (now : Time) (u : Z) (db : RDB) : result rError unit * RDB :=
  if f_revoke f then (Err RUnavailable, db) else (Ok tt, (RevokeAllForUser now u db).2).

(** One call of the service, or one maintenance sweep, with no other call in between its
    statements. *)
Inductive rstep : RDB -> RDB -> Prop :=
  | step_Issue f now raw u db : rstep db (Issue f now raw u db).2
  | step_Rotate f now new old db : rstep db (Rotate f now new old db).2
  | step_RevokeFamily f now raw db : rstep db (RevokeFamily f now raw db).2
  | step_RevokeAll f now u db : rstep db (RevokeAll f now u db).2
  | step_sweep now db : rstep db (DeleteExpiredRefreshTokens now db).2.

Definition init_rdb (us : gset Z) : RDB := mkRDB ∅ us 1.
End service.

(** ** The invariant *)

Record refresh_inv (db : RDB) : Prop := {
  ri_seq : 1 <= seq_refresh db;
  ri_row : forall k r, refresh_tokens db !! k = Some r ->
    rt_ID r = k /\ 1 <= k < seq_refresh db /\ 0 <= rt_FamilyID r < seq_refresh db;
  ri_hash : forall k1 r1 k2 r2, refresh_tokens db !! k1 = Some r1 -> refresh_tokens db !! k2 = Some r2 ->
    rt_TokenHash r1 = rt_TokenHash r2 -> k1 = k2;
  ri_live : forall k1 r1 k2 r2, refresh_tokens db !! k1 = Some r1 -> refresh_tokens db !! k2 = Some r2 ->
    rt_FamilyID r1 = rt_FamilyID r2 -> rt_FamilyID r1 <> 0 -> live r1 = true -> live r2 = true -> k1 = k2;
  ri_chain : forall k r j, refresh_tokens db !! k = Some r -> rt_ReplacedBy r = Some j ->
    exists r', refresh_tokens db !! j = Some r' /\ rt_ExpiresAt r' = rt_ExpiresAt r /\
               rt_FamilyID r' = rt_FamilyID r;
}.

(** Every token of the family is revoked. *)
Definition dead (fam : Z) (db : RDB) : Prop :=
  forall k r, refresh_tokens db !! k = Some r -> rt_FamilyID r = fam -> rt_RevokedAt r <> None.

Lemma init_refresh_inv us : refresh_inv (init_rdb us).
Proof. split; simpl; try lia; intros *; by rewrite lookup_empty. Qed.

Lemma next_refresh_inv db : refresh_inv db -> refresh_inv (next_refresh db).
Proof.
  intros [Hs Hr Hh Hl Hc]. split; simpl; [lia| |done..].
  intros k r Hk. destruct (Hr k r Hk). lia.
Qed.

(** A revocation keeps everything about a row but its liveness. *)
Lemma revoke_inv P now db : refresh_inv db -> refresh_inv (set_tokens (update_where P (with_revoked now)) db).
Proof.
  intros [Hs Hr Hh Hl Hc].
  assert (forall k r', update_where P (with_revoked now) (refresh_tokens db) !! k = Some r' ->
    exists r, refresh_tokens db !! k = Some r /\ rt_ID r' = rt_ID r /\ rt_FamilyID r' = rt_FamilyID r /\
      rt_TokenHash r' = rt_TokenHash r /\ rt_ReplacedBy r' = rt_ReplacedBy r /\
      rt_ExpiresAt r' = rt_ExpiresAt r /\ (live r' = true -> live r = true)) as Hb.
  { intros k r'. rewrite lookup_update_where. intros (r & Hk & ->)%fmap_Some_1.
    exists r. split; [done|]. destruct (P r); simpl; split_and!; try done.
    intros [_ Hu]%andb_true_iff. by apply bool_decide_eq_true in Hu. }
  split; simpl; [done|..].
  - intros k r' (r & Hk & Hi & Hf & _)%Hb. rewrite Hi, Hf. by apply Hr.
  - intros k1 r1' k2 r2' (r1 & H1 & _ & _ & E1 & _)%Hb (r2 & H2 & _ & _ & E2 & _)%Hb Heq.
    eapply Hh; [done..|congruence].
  - intros k1 r1' k2 r2' (r1 & H1 & _ & F1 & _ & _ & _ & L1)%Hb (r2 & H2 & _ & F2 & _ & _ & _ & L2)%Hb Heq Hn ??.
    eapply (Hl k1 r1 k2 r2); [done..|congruence|congruence|auto|auto].
  - intros k r' j (r & Hk & _ & F & _ & Er & Ee & _)%Hb Hj. rewrite Er in Hj.
    destruct (Hc k r j Hk Hj) as (t & Ht & He & Hf). rewrite lookup_update_where, Ht. simpl.
    eexists. split; [done|]. destruct (P t); simpl; split; congruence.
Qed.

(** What the INSERT does. *)
Lemma insert_refresh_cases now u fam h e db :
  (exists err, insert_refresh now u fam h e db = (Err err, next_refresh db)) \/
  (exists exp, e = Some exp /\ (forall k r, refresh_tokens db !! k = Some r -> rt_TokenHash r <> h) /\
     insert_refresh now u fam h e db =
       (Ok (seq_refresh db),
        set_tokens (insert (seq_refresh db) (mkRefreshToken (seq_refresh db) u fam None h now exp None))
          (next_refresh db))).
Proof.
  unfold insert_refresh. destruct e as [exp|]; [|by eauto].
  destruct (bool_decide _) eqn:E; [by eauto|]. destruct (negb _); [by eauto|].
  right. exists exp. repeat split; try done. intros k r Hk Hh.
  apply bool_decide_eq_false in E. apply E, find_row_is_Some.
  exists k, r. split; [done|]. by apply bool_decide_eq_true.
Qed.

Lemma refresh_seq_fresh db : refresh_inv db -> refresh_tokens db !! seq_refresh db = None.
Proof.
  intros Hi. destruct (_ !! _) as [r|] eqn:E; [|done]. apply (ri_row _ Hi) in E. lia.
Qed.

(** A row with a fresh hash in a family that has no live token keeps the invariant. *)
Lemma insert_row_inv db r :
  refresh_inv db ->
  rt_ID r = seq_refresh db -> rt_ReplacedBy r = None -> 0 <= rt_FamilyID r <= seq_refresh db ->
  (forall k r', refresh_tokens db !! k = Some r' -> rt_TokenHash r' <> rt_TokenHash r) ->
  (rt_FamilyID r = 0 \/ rt_FamilyID r = seq_refresh db) ->
  refresh_inv (set_tokens (insert (seq_refresh db) r) (next_refresh db)).
Proof.
  intros Hi HI Hrep Hfam Hfresh Hz. pose proof (refresh_seq_fresh db Hi) as Hnone.
  destruct Hi as [Hs Hr Hh Hl Hc]. split; simpl; [lia|..].
  - intros k r' [[<- <-]|[_ Hk]]%lookup_insert_Some; [lia|]. destruct (Hr k r' Hk). lia.
  - intros k1 r1 k2 r2 [[<- <-]|[_ H1]]%lookup_insert_Some [[<- <-]|[_ H2]]%lookup_insert_Some Heq;
      [done|by apply Hfresh in H2|by apply Hfresh in H1|by eapply Hh].
  - intros k1 r1 k2 r2 [[<- <-]|[_ H1]]%lookup_insert_Some [[<- <-]|[_ H2]]%lookup_insert_Some Heq Hn ??;
      [done| | |by eapply Hl].
    + apply Hr in H2. lia.
    + apply Hr in H1. lia.
  - intros k r' j [[<- <-]|[_ Hk]]%lookup_insert_Some Hj; [congruence|].
    destruct (Hc k r' j Hk Hj) as (t & Ht & ?). exists t. rewrite lookup_insert_ne; [done|congruence].
Qed.

(** Setting the family of the row just inserted. *)
Lemma root_family db r :
  refresh_inv db -> rt_ID r = seq_refresh db ->
  update_where (fun t => rt_ID t =? seq_refresh db) (with_family (seq_refresh db))
    (<[seq_refresh db := r]> (refresh_tokens db)) =
  <[seq_refresh db := with_family (seq_refresh db) r]> (refresh_tokens db).
Proof.
  intros Hi HI. unfold update_where. rewrite fmap_insert, HI, Z.eqb_refl. f_equal.
  apply map_eq. intros k. rewrite lookup_fmap. destruct (refresh_tokens db !! k) as [t|] eqn:E; [|done]. simpl.
  apply (ri_row _ Hi) in E. by rewrite (proj2 (Z.eqb_neq _ _)) by lia.
Qed.

Lemma live_of_select oldHash db sel :
  rotate_select oldHash db = Some sel ->
  exists k r, refresh_tokens db !! k = Some r /\ rt_TokenHash r = oldHash /\ live r = true /\
    sel = (rt_UserID r, rt_FamilyID r).
Proof.
  unfold rotate_select. destruct (find_row _ _) as [[k r]|] eqn:E; [|done]. intros [= <-].
  apply find_row_Some in E as [Hk [Hh Hl]%andb_true_iff]. apply bool_decide_eq_true in Hh. eauto 10.
Qed.

(** Rotation: the rows after it. *)
Lemma rotate_rows now oldHash newHash db k r :
  refresh_inv db -> refresh_tokens db !! k = Some r -> rt_TokenHash r = oldHash -> live r = true ->
  RotateRefreshToken now oldHash newHash db = (Err RUnique, next_refresh db) \/
  RotateRefreshToken now oldHash newHash db = (Err RForeignKey, next_refresh db) \/
  let id := seq_refresh db in
  (forall k' r', refresh_tokens db !! k' = Some r' -> rt_TokenHash r' <> newHash) /\
  RotateRefreshToken now oldHash newHash db =
    (Ok id,
     set_tokens (fun m => <[id := mkRefreshToken id (rt_UserID r) (rt_FamilyID r) None newHash now
                                    (rt_ExpiresAt r) None]> (<[k := with_replaced id r]> m)) (next_refresh db)).
Proof.
  intros Hi Hk Hh Hl.
  assert (find_row (has_hash oldHash) (refresh_tokens db) = Some (k, r)) as Hf1.
  { apply find_row_unique; [done|by apply bool_decide_eq_true|]. intros k' r' Hk' E%bool_decide_eq_true.
    eapply (ri_hash _ Hi); [done..|congruence]. }
  assert (find_row (fun t => has_hash oldHash t && live t) (refresh_tokens db) = Some (k, r)) as Hf2.
  { apply find_row_unique; [done|by rewrite Hl, andb_true_r; apply bool_decide_eq_true|].
    intros k' r' Hk' [E%bool_decide_eq_true _]%andb_true_iff. eapply (ri_hash _ Hi); [done..|congruence]. }
  unfold RotateRefreshToken, rotate_select. rewrite Hf2. unfold rotate_apply. rewrite Hf1. simpl.
  unfold insert_refresh.
  destruct (bool_decide (is_Some (find_row (has_hash newHash) _))) eqn:E; [by left|].
  destruct (negb _) eqn:Eu; [by right; left|]. right; right.
  assert (forall k' r', refresh_tokens db !! k' = Some r' -> rt_TokenHash r' <> newHash) as Hfresh.
  { intros k' r' Hk' Hh'. apply bool_decide_eq_false in E. apply E, find_row_is_Some.
    exists k', r'. split; [done|]. by apply bool_decide_eq_true. }
  split; [done|]. unfold set_tokens. simpl. repeat f_equal. unfold update_where. rewrite fmap_insert.
  assert (has_hash oldHash (mkRefreshToken (seq_refresh db) (rt_UserID r) (rt_FamilyID r) None newHash now
            (rt_ExpiresAt r) None) = false) as ->.
  { apply bool_decide_eq_false. simpl. specialize (Hfresh _ _ Hk). congruence. }
  f_equal. apply map_eq. intros j. rewrite lookup_fmap. destruct (decide (j = k)) as [->|Hne].
  - rewrite Hk, lookup_insert_eq. simpl. unfold has_hash. by rewrite bool_decide_eq_true_2.
  - rewrite lookup_insert_ne by done. destruct (refresh_tokens db !! j) as [t|] eqn:Ej; [|done]. simpl.
    destruct (has_hash oldHash t) eqn:Et; [|done]. apply bool_decide_eq_true in Et.
    destruct Hne. eapply (ri_hash _ Hi); [done..|congruence].
Qed.

(** The rows a rotation leaves keep the invariant. *)
Lemma rotated_inv now newHash db k r :
  refresh_inv db -> refresh_tokens db !! k = Some r -> live r = true ->
  (forall k' r', refresh_tokens db !! k' = Some r' -> rt_TokenHash r' <> newHash) ->
  let id := seq_refresh db in
  refresh_inv (set_tokens (fun m => <[id := mkRefreshToken id (rt_UserID r) (rt_FamilyID r) None newHash now
                                    (rt_ExpiresAt r) None]> (<[k := with_replaced id r]> m)) (next_refresh db)).
Proof.
  intros Hi Hk Hlive Hfresh id. pose proof (refresh_seq_fresh db Hi) as Hnone.
  destruct Hi as [Hs Hr Hh Hl Hc]. pose proof (Hr k r Hk) as Hkr.
  assert (forall j t, <[id := mkRefreshToken id (rt_UserID r) (rt_FamilyID r) None newHash now (rt_ExpiresAt r) None]>
      (<[k := with_replaced id r]> (refresh_tokens db)) !! j = Some t ->
    (j = id /\ t = mkRefreshToken id (rt_UserID r) (rt_FamilyID r) None newHash now (rt_ExpiresAt r) None) \/
    (j = k /\ t = with_replaced id r) \/ (j <> k /\ j <> id /\ refresh_tokens db !! j = Some t)) as Hb.
  { intros j t [[<- <-]|[? [[<- <-]|[? ?]]%lookup_insert_Some]]%lookup_insert_Some; auto. }
  split; simpl; [unfold id in *; lia|..].
  - intros j t [[-> ->]|[[-> ->]|(_ & _ & Hj)]]%Hb; simpl; unfold id in *; [lia..|]. destruct (Hr j t Hj). lia.
  - intros j1 t1 j2 t2 [[-> ->]|[[-> ->]|(? & ? & H1)]]%Hb [[-> ->]|[[-> ->]|(? & ? & H2)]]%Hb; simpl; intros E;
      try done; try (by exfalso; eapply Hfresh; eauto); eapply Hh; eauto.
  - intros j1 t1 j2 t2 [[-> ->]|[[-> ->]|(? & ? & H1)]]%Hb [[-> ->]|[[-> ->]|(? & ? & H2)]]%Hb; simpl;
      intros E Hn L1 L2; try done.
    + by destruct (Hl k r j2 t2 Hk H2 E Hn Hlive L2).
    + rewrite E in Hn. by destruct (Hl k r j1 t1 Hk H1 (eq_sym E) Hn Hlive L1).
    + by eapply Hl.
  - intros j t i [[-> ->]|[[-> ->]|(? & ? & Hj)]]%Hb; simpl; intros Hrep; simplify_eq.
    + eexists. split; [apply lookup_insert_eq|]. done.
    + destruct (Hc j t i Hj Hrep) as (t' & Ht' & He & Hf). rewrite lookup_insert_ne by (subst id; congruence).
      destruct (decide (i = k)) as [->|?].
      * exists (with_replaced id r). rewrite lookup_insert_eq. simplify_eq. by repeat split.
      * exists t'. by rewrite lookup_insert_ne.
Qed.

Section invariant.
Context (HashToken : string -> string).

Lemma Issue_cases f now raw u db :
  refresh_inv db ->
  (Issue HashToken f now raw u db).2 = db \/
  (Issue HashToken f now raw u db).2 = next_refresh db \/
  exists r, (Issue HashToken f now raw u db).2 = set_tokens (insert (seq_refresh db) r) (next_refresh db) /\
    rt_ID r = seq_refresh db /\ rt_ReplacedBy r = None /\
    (rt_FamilyID r = 0 \/ rt_FamilyID r = seq_refresh db) /\
    (forall k r', refresh_tokens db !! k = Some r' -> rt_TokenHash r' <> rt_TokenHash r).
Proof.
  intros Hi. unfold Issue, CreateRefreshToken. destruct (f_token f); [by left|].
  destruct (f_insert f); [by left|]. cbn [rt_UserID rt_FamilyID rt_TokenHash rt_ExpiresAt].
  destruct (insert_refresh_cases now u 0 (HashToken raw) (Some (now + refreshTTL)) db)
    as [[err ->]|(exp & [= <-] & Hfresh & ->)]; [by right; left|]. right; right.
  destruct (f_family f); simpl.
  - eexists. split; [done|]. simpl. auto.
  - eexists. split; [|split; [|split; [|split]]]; cycle 1; [shelve|shelve|shelve|shelve|].
    unfold set_tokens. simpl. by rewrite (root_family db).
    Unshelve. all: simpl; auto.
Qed.

Lemma Rotate_cases f now new old db :
  refresh_inv db ->
  (Rotate HashToken f now new old db).2 = db \/
  (Rotate HashToken f now new old db).2 = next_refresh db \/
  (exists fam, (Rotate HashToken f now new old db).2 = (RevokeRefreshTokenFamily now fam db).2) \/
  exists k r, let id := seq_refresh db in
    refresh_tokens db !! k = Some r /\ live r = true /\
    (forall k' r', refresh_tokens db !! k' = Some r' -> rt_TokenHash r' <> HashToken new) /\
    (Rotate HashToken f now new old db).2 =
    set_tokens (fun m => <[id := mkRefreshToken id (rt_UserID r) (rt_FamilyID r) None (HashToken new) now
                                  (rt_ExpiresAt r) None]> (<[k := with_replaced id r]> m)) (next_refresh db).
Proof.
  intros Hi. unfold Rotate. destruct (f_get f); [by left|]. unfold GetRefreshTokenByHash.
  destruct (find_row _ _) as [[k r]|] eqn:E; [|by left].
  apply find_row_Some in E as [Hk Hh%bool_decide_eq_true].
  destruct (bool_decide (is_Some (rt_ReplacedBy r))) eqn:Hrep.
  { unfold reuse. destruct (f_revoke f); simpl; [by left|]. right; right; left. eauto. }
  destruct (_ || _) eqn:Hv; [by left|]. destruct (f_token f); [by left|]. destruct (f_rotate f); [by left|].
  assert (live r = true) as Hl.
  { apply orb_false_iff in Hv as [Hv _]. apply bool_decide_eq_false in Hrep, Hv.
    apply andb_true_iff; split; apply bool_decide_eq_true; by apply eq_None_not_Some. }
  destruct (rotate_rows now (HashToken old) (HashToken new) db k r Hi Hk Hh Hl) as [->|[->|[Hf ->]]];
    [by right; left..|]. right; right; right. exists k, r. auto.
Qed.

(** The sweep is never stopped by the self-reference: a token expires with its successor. *)
Lemma sweep_succeeds now db :
  refresh_inv db ->
  DeleteExpiredRefreshTokens now db =
    (Ok (rows_affected (fun r => rt_ExpiresAt r <=? now) (refresh_tokens db)),
     set_tokens (filter (fun kr => (rt_ExpiresAt kr.2 <=? now) = false)) db).
Proof.
  intros Hi. unfold DeleteExpiredRefreshTokens. rewrite bool_decide_eq_false_2; [done|].
  intros (k & r & [Hk He]%map_lookup_filter_Some & Hd)%find_row_is_Some. simpl in He.
  destruct (rt_ReplacedBy r) as [j|] eqn:Hj; [|done]. apply bool_decide_eq_true in Hd.
  destruct (ri_chain _ Hi k r j Hk Hj) as (r' & Hr' & Hexp & _).
  assert (filter (fun kr : Z * RefreshToken => (rt_ExpiresAt kr.2 <=? now) = false) (refresh_tokens db) !! j = Some r') as Hin.
  { apply map_lookup_filter_Some. simpl. by rewrite Hexp. }
  congruence.
Qed.

Lemma sweep_inv now db : refresh_inv db -> refresh_inv (DeleteExpiredRefreshTokens now db).2.
Proof.
  intros Hi. rewrite (sweep_succeeds now db Hi). destruct Hi as [Hs Hr Hh Hl Hc].
  split; simpl; [done|..].
  - intros k r [Hk _]%map_lookup_filter_Some. by apply Hr.
  - intros ???? [? _]%map_lookup_filter_Some [? _]%map_lookup_filter_Some. eauto.
  - intros ???? [? _]%map_lookup_filter_Some [? _]%map_lookup_filter_Some. eauto.
  - intros k r j [Hk He]%map_lookup_filter_Some Hj. destruct (Hc k r j Hk Hj) as (t & Ht & Hexp & Hf).
    exists t. split; [|done]. apply map_lookup_filter_Some. split; [done|]. simpl in *. by rewrite Hexp.
Qed.

Lemma rstep_inv db db' : rstep HashToken db db' -> refresh_inv db -> refresh_inv db'.
Proof.
  intros Hst Hi. pose proof (ri_seq _ Hi). destruct Hst as [f now raw u db|f now new old db|f now raw db|f now u db|now db].
  - destruct (Issue_cases f now raw u db Hi) as [->|[->|(r & -> & HI & Hrep & Hf & Hh)]];
      [done|by apply next_refresh_inv|]. apply insert_row_inv; auto. lia.
  - destruct (Rotate_cases f now new old db Hi) as [->|[->|[[fam ->]|(k & r & Hk & Hl & Hf & ->)]]];
      [done|by apply next_refresh_inv|by apply revoke_inv|by apply rotated_inv].
  - unfold RevokeFamily. repeat case_match; simpl; try done. by apply revoke_inv.
  - unfold RevokeAll. case_match; simpl; [done|]. by apply revoke_inv.
  - by apply sweep_inv.
Qed.

Lemma rsteps_inv us db : rtc (rstep HashToken) (init_rdb us) db -> refresh_inv db.
Proof.
  intros Hr. assert (refresh_inv (init_rdb us)) as Hi by apply init_refresh_inv.
  induction Hr as [|x y z Hxy _ IH]; eauto using rstep_inv.
Qed.
End invariant.

(** ** A dead family stays dead *)

Section dead.
Context (HashToken : string -> string).

Lemma revoke_dead P now fam db : dead fam db -> dead fam (set_tokens (update_where P (with_revoked now)) db).
Proof.
  intros Hd k r'. simpl. rewrite lookup_update_where. intros (r & Hk & ->)%fmap_Some_1.
  destruct (P r); simpl; [done|]. by apply Hd with k.
Qed.

Lemma revoked_family_is_dead now fam db : dead fam (RevokeRefreshTokenFamily now fam db).2.
Proof.
  intros k r'. simpl. rewrite lookup_update_where. intros (r & Hk & ->)%fmap_Some_1.
  destruct (in_family fam r) eqn:E; simpl; [done|]. intros Hf Hn. unfold in_family, unrevoked in E.
  rewrite Hf, Z.eqb_refl, Hn in E. done.
Qed.

Lemma rstep_dead fam db db' :
  rstep HashToken db db' -> refresh_inv db -> fam <> 0 -> fam < seq_refresh db ->
  dead fam db -> dead fam db' /\ fam < seq_refresh db'.
Proof.
  intros Hst Hi H0 Hlt Hd. destruct Hst as [f now raw u db|f now new old db|f now raw db|f now u db|now db].
  - destruct (Issue_cases HashToken f now raw u db Hi) as [->|[->|(r & -> & HI & _ & Hf & _)]]; simpl;
      [split; [done|lia]..|]. split; [|lia].
    intros k r'. simpl. intros [[<- <-]|[_ Hk]]%lookup_insert_Some; [lia|]. by eapply Hd.
  - destruct (Rotate_cases HashToken f now new old db Hi) as [->|[->|[[fam' ->]|(k & r & Hk & Hl & _ & ->)]]];
      simpl; [split; [done|lia]..|split; [by apply revoke_dead|lia]|]. split; [|lia].
    apply andb_true_iff in Hl as [_ Hu%bool_decide_eq_true].
    assert (rt_FamilyID r <> fam) as Hne by (intros E; by apply (Hd k r Hk E)).
    intros j t. simpl. intros [[<- <-]|[_ [[<- <-]|[_ Hj]]%lookup_insert_Some]]%lookup_insert_Some; [done..|].
    by eapply Hd.
  - unfold RevokeFamily. repeat case_match; simpl; split; auto using revoke_dead.
  - unfold RevokeAll. case_match; simpl; split; auto using revoke_dead.
  - rewrite (sweep_succeeds now db Hi). simpl. split; [|done].
    intros k r [Hk _]%map_lookup_filter_Some. by eapply Hd.
Qed.

Lemma rsteps_dead fam db db' :
  rtc (rstep HashToken) db db' -> refresh_inv db -> fam <> 0 -> fam < seq_refresh db ->
  dead fam db -> dead fam db' /\ refresh_inv db'.
Proof.
  intros Hr. induction Hr as [|x y z Hxy _ IH]; intros Hi H0 Hlt Hd; [done|].
  destruct (rstep_dead fam x y Hxy Hi H0 Hlt Hd). eauto using rstep_inv.
Qed.

(** A dead family's tokens buy nothing. *)
Lemma dead_rotate_refused fam db f now new old r :
  dead fam db -> GetRefreshTokenByHash (HashToken old) db = Ok r -> rt_FamilyID r = fam ->
  exists e, (Rotate HashToken f now new old db).1 = Err e.
Proof.
  intros Hd Hg Hf. unfold Rotate. rewrite Hg. destruct (f_get f); [by eexists|].
  destruct (bool_decide (is_Some (rt_ReplacedBy r))); [by eexists|].
  rewrite bool_decide_eq_true_2; [by eexists|].
  unfold GetRefreshTokenByHash in Hg. destruct (find_row _ _) as [[k t]|] eqn:E; simplify_eq.
  apply find_row_Some in E as [Hk _]. apply not_eq_None_Some. by eapply Hd.
Qed.
End dead.

(** ** Properties *)

(** C40: in every state the service reaches by logins, rotations and revocations that
    run one at a time, with any of their database calls failing, a login chain whose
    family is set (not 0) has at most one token that is neither rotated away nor
    revoked, and token hashes are unique, so a presented token names one row.  Two
    rotations of one token that overlap can break the first part
    ([concurrent_rotations_fork_the_chain]). *)
Theorem one_live_token_per_family HashToken us db k1 r1 k2 r2 :
  rtc (rstep HashToken) (init_rdb us) db ->
  refresh_tokens db !! k1 = Some r1 -> refresh_tokens db !! k2 = Some r2 ->
  (rt_FamilyID r1 <> 0 /\ rt_FamilyID r1 = rt_FamilyID r2 /\ live r1 = true /\ live r2 = true) \/
  rt_TokenHash r1 = rt_TokenHash r2 ->
  k1 = k2 /\ r1 = r2.
Proof.
  intros Hr%rsteps_inv H1 H2 Hc. assert (k1 = k2) as ->; [|by simplify_eq].
  destruct Hc as [(? & ? & ? & ?)|?]; [by eapply (ri_live _ Hr)|by eapply (ri_hash _ Hr)].
Qed.

(** A login and one rotation. *)
Definition login_then_rotate : RDB :=
  (Rotate id no_faults 20 "b" "a" (Issue id no_faults 10 "a" 7 (init_rdb {[7]})).2).2.

Lemma login_then_rotate_reachable : rtc (rstep id) (init_rdb {[7]}) login_then_rotate.
Proof. eapply rtc_l; [apply step_Issue|]. eapply rtc_once, step_Rotate. Defined.

Lemma one_live_token_per_family_witness :
  exists r, refresh_tokens login_then_rotate !! 2 = Some r /\ rt_FamilyID r = 1 /\ live r = true /\
    (forall k' r', refresh_tokens login_then_rotate !! k' = Some r' -> rt_FamilyID r' = 1 -> live r' = true -> k' = 2).
Proof.
  eexists. split; [by vm_compute|]. split; [done|]. split; [done|]. intros k' r' Hk' Hf Hl.
  eapply (one_live_token_per_family id {[7]} login_then_rotate k' r' 2);
    [apply login_then_rotate_reachable|exact Hk'|by vm_compute|]. left. rewrite Hf. by split_and!.
Defined.

(** Presenting a token that was already rotated away is answered with
    ErrReuseDetected; and if the revocation it triggers reaches the database, no
    token of that login chain is ever honoured again, whatever calls follow. *)
Theorem reuse_ends_the_chain HashToken us db f now new old r db' f' now' new' old' r' :
  rtc (rstep HashToken) (init_rdb us) db ->
  GetRefreshTokenByHash (HashToken old) db = Ok r ->
  is_Some (rt_ReplacedBy r) -> rt_FamilyID r <> 0 ->
  f_get f = false -> f_revoke f = false ->
  rtc (rstep HashToken) (Rotate HashToken f now new old db).2 db' ->
  GetRefreshTokenByHash (HashToken old') db' = Ok r' -> rt_FamilyID r' = rt_FamilyID r ->
  (Rotate HashToken f now new old db).1 = Err ErrReuseDetected /\
  exists e, (Rotate HashToken f' now' new' old' db').1 = Err e.
Proof.
  intros Hreach%rsteps_inv Hg Hrep H0 Hf1 Hf2 Hafter Hg' Hfam.
  assert (Rotate HashToken f now new old db =
    (Err ErrReuseDetected, (RevokeRefreshTokenFamily now (rt_FamilyID r) db).2)) as Hrot.
  { unfold Rotate. rewrite Hf1, Hg, bool_decide_eq_true_2 by done. unfold reuse. by rewrite Hf2. }
  rewrite Hrot in *. split; [done|]. simpl in Hafter.
  assert (0 <= rt_FamilyID r < seq_refresh db) as Hlt.
  { unfold GetRefreshTokenByHash in Hg. destruct (find_row _ _) as [[k t]|] eqn:E; simplify_eq.
    apply find_row_Some in E as [Hk _]. apply (ri_row _ Hreach) in Hk. tauto. }
  destruct (rsteps_dead HashToken (rt_FamilyID r) _ _ Hafter) as [Hd _];
    [by apply revoke_inv|done|simpl; lia|apply revoked_family_is_dead|].
  by eapply dead_rotate_refused.
Qed.

Lemma reuse_ends_the_chain_witness :
  (Rotate id no_faults 30 "c" "a" login_then_rotate).1 = Err ErrReuseDetected /\
  exists e, (Rotate id no_faults 40 "d" "b" (Rotate id no_faults 30 "c" "a" login_then_rotate).2).1 = Err e.
Proof.
  eapply (reuse_ends_the_chain id {[7]} login_then_rotate no_faults 30 "c" "a");
    [apply login_then_rotate_reachable|by vm_compute|by eexists|done|done|done|apply rtc_refl|by vm_compute|done].
Defined.

(** ** Two rotations interleaved

    RotateRefreshToken takes no lock in its SELECT, and its UPDATE does not test
    replaced_by again: when two requests present the same token and both SELECTs run
    before either UPDATE, both get a new token, and the family has two live ones. *)

Definition count_live (fam : Z) (db : RDB) : Z :=
  rows_affected (fun r => (rt_FamilyID r =? fam) && live r) (refresh_tokens db).

Example concurrent_rotations_fork_the_chain :
  let db := (Issue id no_faults 10 "a" 7 (init_rdb {[7]})).2 in
  match rotate_select "a" db, rotate_select "a" db with
  | Some sel1, Some sel2 =>
      let '(res1, db1) := rotate_apply 20 sel1 "a" "b" db in
      let '(res2, db2) := rotate_apply 20 sel2 "a" "c" db1 in
      res1 = Ok 2 /\ res2 = Ok 3 /\ count_live 1 db2 = 2
  | _, _ => False
  end.
Proof. vm_compute. auto. Qed.
