(* ===== verification/Billing.v ===== *)
(** * Billing: subscriptions, payments and the webhook inbox
    (src/internal/store/subscriptions.go, payments.go, billing_events.go, plan_prices.go,
    organizations.go; src/internal/billing/*.go; src/internal/api/billing_*.go, admin.go)

    The billing tables over the account tables of [Members], the store's transactions,
    the webhook handler over the interface [EventApplier], the two adapters, and the
    operator and self-serve handlers over a [Provider].  HMAC, JSON and the Paddle SDK
    are parameters. *)

From S2P Require Import Prelude Domain GoStrings Entitlements Authz Members.
Open Scope Z_scope.

(** ** Data *)

Record Subscription := mkSubscription {
  sb_ID : Z;
  sb_OrgID : Z;
  sb_Plan : string;
  sb_BillingCycle : string;
  sb_Status : string;
  sb_Provider : string;
  sb_ProviderCustomerID : string;
  sb_ProviderSubscriptionID : string;
  sb_ProviderPriceID : string;
  sb_CurrentPeriodEnd : option Time;
  sb_CancelAtPeriodEnd : bool;
  sb_CreatedAt : Time;
  sb_UpdatedAt : Time;
}.

(** A row of subscriptions: the struct and the column ended_at, which no query returns. *)
Record SubscriptionRow := mkSubscriptionRow { sr_sub : Subscription; sr_EndedAt : option Time }.

Record Payment := mkPayment {
  py_ID : Z;
  py_OrgID : Z;
  py_Provider : string;
  py_ProviderPaymentID : string;
  py_Amount : Z;
  py_Currency : string;
  py_Status : string;
  py_Period : string;
  py_HostedInvoiceURL : string;
  py_RefundedAmount : Z;
  py_CreatedAt : Time;
}.

Record PlanPrice := mkPlanPrice {
  pp_Provider : string; pp_Plan : string; pp_Cycle : string; pp_ProviderPriceID : string;
  pp_HasTrial : bool; pp_TrialDays : Z; pp_CustomData : string;
}.

Record BillingEvent := mkBillingEvent {
  be_Type : string; be_Payload : string; be_ReceivedAt : Time; be_ProcessedAt : option Time;
}.

(** The primary keys are the unique indexes the statements conflict on: one
    subscription per org, one payment and one event per provider id, one price per
    plan, cycle and trial. *)
Record BDB := mkBDB {
  accounts : MDB;
  subscriptions : gmap Z SubscriptionRow;
  payments : gmap (string * string) Payment;
  billing_events : gmap (string * string) BillingEvent;
  plan_prices : gmap (string * string * string * bool) PlanPrice;
  seq_subscriptions : Z;
  seq_payments : Z;
}.

Definition set_accounts (a : MDB) (db : BDB) : BDB :=
  mkBDB a (subscriptions db) (payments db) (billing_events db) (plan_prices db) (seq_subscriptions db) (seq_payments db).
Definition set_subscriptions (m : gmap Z SubscriptionRow) (db : BDB) : BDB :=
  mkBDB (accounts db) m (payments db) (billing_events db) (plan_prices db) (seq_subscriptions db) (seq_payments db).
Definition set_payments (m : gmap (string * string) Payment) (db : BDB) : BDB :=
  mkBDB (accounts db) (subscriptions db) m (billing_events db) (plan_prices db) (seq_subscriptions db) (seq_payments db).
Definition set_events (m : gmap (string * string) BillingEvent) (db : BDB) : BDB :=
  mkBDB (accounts db) (subscriptions db) (payments db) m (plan_prices db) (seq_subscriptions db) (seq_payments db).
Definition set_prices (m : gmap (string * string * string * bool) PlanPrice) (db : BDB) : BDB :=
  mkBDB (accounts db) (subscriptions db) (payments db) (billing_events db) m (seq_subscriptions db) (seq_payments db).
Definition next_subscription (db : BDB) : BDB :=
  mkBDB (accounts db) (subscriptions db) (payments db) (billing_events db) (plan_prices db)
    (seq_subscriptions db + 1) (seq_payments db).
Definition next_payment (db : BDB) : BDB :=
  mkBDB (accounts db) (subscriptions db) (payments db) (billing_events db) (plan_prices db)
    (seq_subscriptions db) (seq_payments db + 1).

(** A rolled-back transaction leaves the rows and keeps the sequences. *)
Definition rollback (before after : BDB) : BDB :=
  mkBDB (accounts before) (subscriptions before) (payments before) (billing_events before) (plan_prices before)
    (seq_subscriptions after) (seq_payments after).

Inductive bError := BNoRows | BOrgNotFound | BForeignKey | BRowSecurity | BInvalidJSON | BNoPayment | BTransient.
#[export] Instance bError_eq_dec : EqDecision bError.
Proof. solve_decision. Defined.

(** ** Organizations (organizations.go) *)

Definition set_organizations (f : gmap Z Organization -> gmap Z Organization) (a : MDB) : MDB :=
  mkMDB (memberships a) (invitations a) (f (organizations a)) (users a) (seq_memberships a) (seq_invitations a).

Definition with_plan (plan : string) (o : Organization) : Organization :=
  mkOrganization (og_Name o) plan (og_DefaultLocale o) (og_Deleted o).
Definition with_deleted (o : Organization) : Organization :=
  mkOrganization (og_Name o) (og_Plan o) (og_DefaultLocale o) true.

Definition active_org (orgID : Z) (a : MDB) : option Organization :=
  match organizations a !! orgID with
  | Some o => if og_Deleted o then None else Some o
  | None => None
  end.

(** UPDATE organizations ... WHERE id AND deleted_at IS NULL, with the rows affected. *)
Definition update_active_org (orgID : Z) (f : Organization -> Organization) (a : MDB) : Z * MDB :=
  match active_org orgID a with
  | Some o => (1, set_organizations (insert orgID (f o)) a)
  | None => (0, a)
  end.

Definition SetOrganizationPlan (orgID : Z) (plan : string) (db : BDB) : result bError unit * BDB :=
  let '(n, a) := update_active_org orgID (with_plan plan) (accounts db) in
  if n =? 0 then (Err BNoRows, db) else (Ok tt, set_accounts a db).

Definition SoftDeleteOrganization (orgID : Z) (db : BDB) : result bError unit * BDB :=
  let '(_, a) := update_active_org orgID with_deleted (accounts db) in (Ok tt, set_accounts a db).

(** ** Subscriptions (subscriptions.go) *)

(** status IN ('active','trialing') *)
Definition entitled (status : string) : bool := String.eqb status "active" || String.eqb status "trialing".

(** The upsert: the identity is drawn before the conflict is seen; a new row needs its org. *)
Definition upsertSubscriptionTx (now : Time) (s : Subscription) (db : BDB) : result bError unit * BDB :=
  let db1 := next_subscription db in
  match subscriptions db !! sb_OrgID s with
  | Some old =>
      let row := mkSubscription (sb_ID (sr_sub old)) (sb_OrgID s) (sb_Plan s) (sb_BillingCycle s) (sb_Status s)
                   (sb_Provider s) (sb_ProviderCustomerID s) (sb_ProviderSubscriptionID s) (sb_ProviderPriceID s)
                   (sb_CurrentPeriodEnd s) (sb_CancelAtPeriodEnd s) (sb_CreatedAt (sr_sub old)) now in
      let ended := if entitled (sb_Status s) then None
                   else if entitled (sb_Status (sr_sub old)) then Some now
                   else sr_EndedAt old in
      (Ok tt, set_subscriptions (<[sb_OrgID s := mkSubscriptionRow row ended]> (subscriptions db1)) db1)
  | None =>
      if bool_decide (organizations (accounts db) !! sb_OrgID s = None) then (Err BForeignKey, db1)
      else
        let row := mkSubscription (seq_subscriptions db) (sb_OrgID s) (sb_Plan s) (sb_BillingCycle s) (sb_Status s)
                     (sb_Provider s) (sb_ProviderCustomerID s) (sb_ProviderSubscriptionID s) (sb_ProviderPriceID s)
                     (sb_CurrentPeriodEnd s) (sb_CancelAtPeriodEnd s) now now in
        let ended := if entitled (sb_Status s) then None else Some now in
        (Ok tt, set_subscriptions (<[sb_OrgID s := mkSubscriptionRow row ended]> (subscriptions db1)) db1)
  end.

Definition ApplySubscriptionEvent (now : Time) (sub : Subscription) (db : BDB) : result bError unit * BDB :=
  match upsertSubscriptionTx now sub db with
  | (Err e, db1) => (Err e, rollback db db1)
  | (Ok _, db1) =>
      let '(n, a) := update_active_org (sb_OrgID sub) (with_plan (sb_Plan sub)) (accounts db1) in
      if n =? 0 then (Err BOrgNotFound, rollback db db1) else (Ok tt, set_accounts a db1)
  end.

Definition GetSubscriptionByOrg (orgID : Z) (db : BDB) : result bError Subscription :=
  match subscriptions db !! orgID with Some r => Ok (sr_sub r) | None => Err BNoRows end.

(** UPDATE subscriptions ... WHERE org_id, which is ErrNoRows on no row. *)
Definition update_subscription (orgID : Z) (f : SubscriptionRow -> SubscriptionRow) (db : BDB) : result bError unit * BDB :=
  match subscriptions db !! orgID with
  | Some r => (Ok tt, set_subscriptions (<[orgID := f r]> (subscriptions db)) db)
  | None => (Err BNoRows, db)
  end.

Definition UpdateSubscriptionPlan (now : Time) (orgID : Z) (plan cycle priceID : string) : BDB -> result bError unit * BDB :=
  update_subscription orgID (fun r =>
    let s := sr_sub r in
    mkSubscriptionRow
      (mkSubscription (sb_ID s) (sb_OrgID s) plan cycle (sb_Status s) (sb_Provider s) (sb_ProviderCustomerID s)
         (sb_ProviderSubscriptionID s) priceID (sb_CurrentPeriodEnd s) (sb_CancelAtPeriodEnd s) (sb_CreatedAt s) now)
      (sr_EndedAt r)).

Definition with_cancellation (now : Time) (status : string) (atPeriodEnd : bool) (s : Subscription) : Subscription :=
  mkSubscription (sb_ID s) (sb_OrgID s) (sb_Plan s) (sb_BillingCycle s) status (sb_Provider s) (sb_ProviderCustomerID s)
    (sb_ProviderSubscriptionID s) (sb_ProviderPriceID s) (sb_CurrentPeriodEnd s) atPeriodEnd (sb_CreatedAt s) now.

Definition SetSubscriptionCancelAtPeriodEnd (now : Time) (orgID : Z) : BDB -> result bError unit * BDB :=
  update_subscription orgID (fun r =>
    mkSubscriptionRow (with_cancellation now (sb_Status (sr_sub r)) true (sr_sub r)) (sr_EndedAt r)).

Definition CancelSubscriptionNow (now : Time) (orgID : Z) (db : BDB) : result bError unit * BDB :=
  match update_subscription orgID (fun r =>
    mkSubscriptionRow (with_cancellation now "canceled" false (sr_sub r))
      (if entitled (sb_Status (sr_sub r)) then Some now else sr_EndedAt r)) db with
  | (Err e, db1) => (Err e, db1)
  | (Ok _, db1) =>
      let '(_, a) := update_active_org orgID (with_plan PlanTier1) (accounts db1) in
      (Ok tt, set_accounts a db1)
  end.

(** The function person_had_recent_inactive_subscription of migration 00010. *)
Definition PersonHadRecentInactiveSubscription (now : Time) (userID withinDays : Z) (db : BDB) : bool :=
  existsb (fun m =>
    (mb_UserID m =? userID) && (bool_decide (mb_Role m = RoleOwner) || bool_decide (mb_Role m = RoleAdmin)) &&
    match subscriptions db !! mb_OrgID m with
    | Some r =>
        negb (entitled (sb_Status (sr_sub r))) &&
        match sr_EndedAt r with Some e => now - withinDays * Day <? e | None => false end
    | None => false
    end) (snd <$> map_to_list (memberships (accounts db))).

(** ** Payments (payments.go) *)

(** An existing row of another org is hidden by row-level security, which fails the upsert. *)
Definition ApplyPaymentEvent (now : Time) (pay : Payment) (db : BDB) : result bError unit * BDB :=
  match active_org (py_OrgID pay) (accounts db) with
  | None => (Err BOrgNotFound, db)
  | Some _ =>
      let key := (py_Provider pay, py_ProviderPaymentID pay) in
      let row id orgID created :=
        mkPayment id orgID (py_Provider pay) (py_ProviderPaymentID pay) (py_Amount pay) (py_Currency pay)
          (py_Status pay) (py_Period pay) (py_HostedInvoiceURL pay) (py_RefundedAmount pay) created in
      match payments db !! key with
      | Some old =>
          if py_OrgID old =? py_OrgID pay
          then (Ok tt, set_payments (<[key := row (py_ID old) (py_OrgID old) (py_CreatedAt old)]> (payments db))
                         (next_payment db))
          else (Err BRowSecurity, next_payment db)
      | None =>
          (Ok tt, set_payments (<[key := row (seq_payments db) (py_OrgID pay) now]> (payments db)) (next_payment db))
      end
  end.

(** ** The inbox (billing_events.go) *)

(** [payload::jsonb] fails on a body that Postgres does not read as JSON. *)
Definition RecordBillingEvent (jsonb : string -> bool) (now : Time) (provider eventID eventType payload : string)
    (db : BDB) : result bError bool * BDB :=
  if negb (jsonb payload) then (Err BInvalidJSON, db)
  else
    match billing_events db !! (provider, eventID) with
    | Some e => (Ok (bool_decide (be_ProcessedAt e <> None)), db)
    | None => (Ok false, set_events (<[(provider, eventID) := mkBillingEvent eventType payload now None]> (billing_events db)) db)
    end.

Definition MarkBillingEventProcessed (now : Time) (provider eventID : string) (db : BDB) : result bError unit * BDB :=
  match billing_events db !! (provider, eventID) with
  | Some e =>
      (Ok tt, set_events (<[(provider, eventID) := mkBillingEvent (be_Type e) (be_Payload e) (be_ReceivedAt e) (Some now)]>
                            (billing_events db)) db)
  | None => (Ok tt, db)
  end.

(** The function subscription_org_by_customer: some row, 0 for none. *)
Definition of_customer (provider customerID : string) (r : SubscriptionRow) : bool :=
  String.eqb (sb_Provider (sr_sub r)) provider && String.eqb (sb_ProviderCustomerID (sr_sub r)) customerID.
Definition OrgByCustomer (provider customerID : string) (db : BDB) : result bError Z * BDB :=
  (Ok (match find_row (of_customer provider customerID) (subscriptions db) with Some (_, r) => sb_OrgID (sr_sub r) | None => 0 end), db).

(** ** Prices (plan_prices.go) *)

Definition UpsertPlanPrice (pp : PlanPrice) (db : BDB) : result bError unit * BDB :=
  let cd := if String.eqb (pp_CustomData pp) "" then "{}" else pp_CustomData pp in
  let key := (pp_Provider pp, pp_Plan pp, pp_Cycle pp, pp_HasTrial pp) in
  let row := mkPlanPrice (pp_Provider pp) (pp_Plan pp) (pp_Cycle pp) (pp_ProviderPriceID pp) (pp_HasTrial pp)
               (pp_TrialDays pp) cd in
  (Ok tt, set_prices (<[key := row]> (plan_prices db)) db).

(** In some order: the sort by plan and cycle follows the database's collation. *)
Definition ListPlanPrices (provider : string) (db : BDB) : list PlanPrice :=
  snd <$> rows_where (fun pp => String.eqb (pp_Provider pp) provider) (plan_prices db).

(** ** Events (billing.go) *)

Inductive EventKind := EventKindUnknown | EventKindSubscription | EventKindPayment.
#[export] Instance EventKind_eq_dec : EqDecision EventKind.
Proof. solve_decision. Defined.

Record Money := mkMoney { mo_Minor : Z; mo_Currency : string }.
Inductive CancelWhen := CancelImmediate | CancelPeriodEnd.
#[export] Instance CancelWhen_eq_dec : EqDecision CancelWhen.
Proof. solve_decision. Defined.
Record PlanChange := mkPlanChange { pc_Plan : string; pc_Cycle : string; pc_Mode : string }.

Record EventPayment := mkEventPayment {
  ep_ProviderPaymentID : string;
  ep_Amount : Money;
  ep_Status : string;
  ep_Period : string;
  ep_HostedInvoiceURL : string;
  ep_RefundedAmount : Money;
}.

Record Event := mkEvent {
  ev_ID : string;
  ev_Type : string;
  ev_Kind : EventKind;
  ev_Provider : string;
  ev_OrgID : Z;
  ev_ProviderCustomerID : string;
  ev_ProviderSubscriptionID : string;
  ev_ProviderPriceID : string;
  ev_Plan : string;
  ev_Cycle : string;
  ev_Status : string;
  ev_CurrentPeriodEnd : option Time;
  ev_CancelAtPeriodEnd : bool;
  ev_Payment : option EventPayment;
}.

Inductive verifyError := ErrBadSignature | ErrMalformed.
(** [ErrNotImplemented], or any other failure of the provider's API. *)
Inductive providerError := ErrNotImplemented | ErrProvider (e : string).

(** The seam every adapter implements. *)
Record Provider := mkProvider {
  pv_Name : string;
  pv_SignatureHeader : string;
  pv_Checkout : Z -> string -> string -> bool -> result providerError string;
  pv_PortalURL : string -> string -> result providerError string;
  pv_UpdateSubscription : string -> PlanChange -> result providerError unit;
  pv_CancelSubscription : string -> CancelWhen -> result providerError unit;
  pv_Refund : string -> option Money -> string -> result providerError unit;
  pv_SetCustomPrice : Z -> Money -> string -> result providerError string;
  pv_VerifyWebhook : string -> string -> result verifyError Event;
}.

(** ** The webhook (ingest.go) *)

Class EventApplier (S : Type) := {
  ea_RecordBillingEvent : Time -> string -> string -> string -> string -> S -> result bError bool * S;
  ea_MarkBillingEventProcessed : Time -> string -> string -> S -> result bError unit * S;
  ea_ApplySubscriptionEvent : Time -> Subscription -> S -> result bError unit * S;
  ea_ApplyPaymentEvent : Time -> Payment -> S -> result bError unit * S;
  ea_OrgByCustomer : string -> string -> S -> result bError Z * S;
}.

(** The database is one. *)
Definition db_applier (jsonb : string -> bool) : EventApplier BDB := {|
  ea_RecordBillingEvent := RecordBillingEvent jsonb;
  ea_MarkBillingEventProcessed := MarkBillingEventProcessed;
  ea_ApplySubscriptionEvent := ApplySubscriptionEvent;
  ea_ApplyPaymentEvent := ApplyPaymentEvent;
  ea_OrgByCustomer := OrgByCustomer;
|}.

(** So is a store whose calls fail on a schedule, before they do anything or after
    they committed (the answer is lost); past its end every call works. *)
Inductive fault := Works | FailsBefore | FailsAfter.

Definition faulty {S A} (op : S -> result bError A * S) (s : S * list fault) : result bError A * (S * list fault) :=
  match s.2 with
  | FailsBefore :: fs => (Err BTransient, (s.1, fs))
  | FailsAfter :: fs => (Err BTransient, ((op s.1).2, fs))
  | _ => ((op s.1).1, ((op s.1).2, tail s.2))
  end.

Definition faulty_applier {S} (E : EventApplier S) : EventApplier (S * list fault) := {|
  ea_RecordBillingEvent t p i y b := faulty (ea_RecordBillingEvent t p i y b);
  ea_MarkBillingEventProcessed t p i := faulty (ea_MarkBillingEventProcessed t p i);
  ea_ApplySubscriptionEvent t s := faulty (ea_ApplySubscriptionEvent t s);
  ea_ApplyPaymentEvent t p := faulty (ea_ApplyPaymentEvent t p);
  ea_OrgByCustomer p c := faulty (ea_OrgByCustomer p c);
|}.

Definition maxWebhookBody : Z := 2 ^ 20.

(** The plan an event writes: a known tier, the free one when it cancels. *)
Definition event_plan (ev : Event) : Plan :=
  if String.eqb (ev_Status ev) "canceled" then PlanTier1 else ParsePlan (ev_Plan ev).

Definition event_subscription (orgID : Z) (ev : Event) : Subscription :=
  mkSubscription 0 orgID (event_plan ev) (ev_Cycle ev) (ev_Status ev) (ev_Provider ev) (ev_ProviderCustomerID ev)
    (ev_ProviderSubscriptionID ev) (ev_ProviderPriceID ev) (ev_CurrentPeriodEnd ev) (ev_CancelAtPeriodEnd ev) 0 0.

Definition event_payment (orgID : Z) (ev : Event) (p : EventPayment) : Payment :=
  mkPayment 0 orgID (ev_Provider ev) (ep_ProviderPaymentID p) (mo_Minor (ep_Amount p)) (mo_Currency (ep_Amount p))
    (ep_Status p) (ep_Period p) (ep_HostedInvoiceURL p) (mo_Minor (ep_RefundedAmount p)) 0.

Section ingest.
Context {S : Type} `{!EventApplier S}.

(** The switch on the kind, once the org is known. *)
Definition act_on (now : Time) (orgID : Z) (ev : Event) (s : S) : result bError unit * S :=
  match ev_Kind ev with
  | EventKindSubscription => ea_ApplySubscriptionEvent now (event_subscription orgID ev) s
  | EventKindPayment =>
      match ev_Payment ev with
      | None => (Err BNoPayment, s)
      | Some p => ea_ApplyPaymentEvent now (event_payment orgID ev p) s
      end
  | EventKindUnknown => (Ok tt, s)
  end.

Definition act (now : Time) (ev : Event) (s : S) : result bError unit * S :=
  if bool_decide (ev_Kind ev = EventKindUnknown) then (Ok tt, s)
  else if negb (ev_OrgID ev =? 0) then act_on now (ev_OrgID ev) ev s
  else
    match ea_OrgByCustomer (ev_Provider ev) (ev_ProviderCustomerID ev) s with
    | (Err e, s1) => (Err e, s1)
    | (Ok orgID, s1) => if orgID =? 0 then (Ok tt, s1) else act_on now orgID ev s1
    end.

(** What follows the verification: record, act, mark.  The answer is the HTTP status. *)
Definition ingest (now : Time) (body : string) (ev : Event) (s : S) : Z * S :=
  match ea_RecordBillingEvent now (ev_Provider ev) (ev_ID ev) (ev_Type ev) body s with
  | (Err _, s1) => (500, s1)
  | (Ok true, s1) => (200, s1)
  | (Ok false, s1) =>
      match act now ev s1 with
      | (Ok _, s2) =>
          match ea_MarkBillingEventProcessed now (ev_Provider ev) (ev_ID ev) s2 with
          | (Err _, s3) => (500, s3)
          | (Ok _, s3) => (200, s3)
          end
      | (Err BOrgNotFound, s2) =>
          (200, (ea_MarkBillingEventProcessed now (ev_Provider ev) (ev_ID ev) s2).2)
      | (Err _, s2) => (500, s2)
      end
  end.

(** [readable]: the body could be read; [headers] is [Header.Get]. *)
Definition ServeHTTP (pv : Provider) (now : Time) (path : string) (readable : bool) (body : string)
    (headers : string -> string) (s : S) : Z * S :=
  if negb (String.eqb path (pv_Name pv)) then (404, s)
  else if negb readable || (maxWebhookBody <? Z.of_nat (String.length body)) then (400, s)
  else
    match pv_VerifyWebhook pv body (headers (pv_SignatureHeader pv)) with
    | Err ErrBadSignature => (401, s)
    | Err ErrMalformed => (400, s)
    | Ok ev => if String.eqb (ev_ID ev) "" then (200, s) else ingest now body ev s
    end.
End ingest.

(** ** The stub adapter (stub.go) *)

Record stubPayment := mkStubPayment {
  sp_PaymentID : string; sp_Amount : Z; sp_Currency : string; sp_Status : string; sp_Period : string;
  sp_HostedInvoiceURL : string; sp_RefundedAmount : Z;
}.
Record stubEnvelope := mkStubEnvelope {
  se_ID : string; se_Type : string; se_OrgID : Z;
  se_CustomerID : string; se_SubscriptionID : string; se_PriceID : string; se_Plan : string; se_Cycle : string;
  se_Status : string; se_CurrentPeriodEnd : option Time; se_CancelAtPeriodEnd : bool;
  se_Payment : option stubPayment;
}.

Definition StubSignatureHeader : string := "X-Billing-Signature".
Definition stubSubscriptionEvents : list string :=
  ["subscription.created"; "subscription.activated"; "subscription.updated"; "subscription.canceled";
   "subscription.past_due"; "subscription.paused"; "subscription.resumed"; "subscription.trialing";
   "subscription.imported"].
Definition stubPaymentEvents : list string := ["transaction.completed"; "transaction.paid"].

Definition stubEventKind (eventType : string) : EventKind :=
  if bool_decide (eventType ∈ stubSubscriptionEvents) then EventKindSubscription
  else if bool_decide (eventType ∈ stubPaymentEvents) then EventKindPayment
  else EventKindUnknown.

(** One part of the header: a later field wins over an earlier one. *)
Definition stub_sig_part (acc : string * string) (part : string) : string * string :=
  let '(ts, mac) := acc in
  let '(k, v, ok) := Cut "=" (TrimSpace part) in
  if negb ok then acc
  else if String.eqb k "ts" then (v, mac)
  else if String.eqb k "h1" then (ts, v)
  else acc.

Definition parseStubSig (sig : string) : result verifyError (string * string) :=
  let '(ts, mac) := foldl stub_sig_part ("", "") (Split ";" sig) in
  if String.eqb ts "" || String.eqb mac "" then Err ErrBadSignature else Ok (ts, mac).

Definition stub_event (name : string) (env : stubEnvelope) : Event :=
  mkEvent (se_ID env) (se_Type env) (stubEventKind (se_Type env)) name (se_OrgID env) (se_CustomerID env)
    (se_SubscriptionID env) (se_PriceID env) (se_Plan env) (se_Cycle env) (se_Status env) (se_CurrentPeriodEnd env)
    (se_CancelAtPeriodEnd env)
    (match se_Payment env with
     | Some p =>
         Some (mkEventPayment (sp_PaymentID p) (mkMoney (sp_Amount p) (sp_Currency p)) (sp_Status p) (sp_Period p)
                 (sp_HostedInvoiceURL p) (mkMoney (sp_RefundedAmount p) (sp_Currency p)))
     | None => None
     end).

Definition stubBaseURL : string := "https://stub.billing.local".
Definition fmt_bool (b : bool) : string := if b then "true" else "false".

Section stub.
(** HMAC-SHA256 of a key and a message, [json.Unmarshal] into the envelope, and
    [strings.ToLower]. *)
Context (hmac : string -> string -> string) (unmarshal : string -> option stubEnvelope) (ToLower : string -> string).

Definition stubSign (secret ts body : string) : string := EncodeToString (hmac secret (ts +:+ "." +:+ body)).
Definition SignStubWebhook (secret ts body : string) : string :=
  "ts=" +:+ ts +:+ ";h1=" +:+ stubSign secret ts body.

Definition stub_VerifyWebhook (secret payload sig : string) : result verifyError Event :=
  match parseStubSig sig with
  | Err e => Err e
  | Ok (ts, mac) =>
      if negb (String.eqb (stubSign secret ts payload) mac) then Err ErrBadSignature
      else match unmarshal payload with None => Err ErrMalformed | Some env => Ok (stub_event "stub" env) end
  end.

Definition Stub (secret : string) : Provider := {|
  pv_Name := "stub";
  pv_SignatureHeader := StubSignatureHeader;
  pv_Checkout orgID plan cycle withTrial :=
    Ok (stubBaseURL +:+ "/checkout?org=" +:+ pretty orgID +:+ "&plan=" +:+ plan +:+ "&cycle=" +:+ cycle +:+
        "&trial=" +:+ fmt_bool withTrial);
  pv_PortalURL customerID subID :=
    Ok (stubBaseURL +:+ "/portal?customer=" +:+ customerID +:+ "&subscription=" +:+ subID);
  pv_UpdateSubscription _ _ := Ok tt;
  pv_CancelSubscription _ _ := Ok tt;
  pv_Refund _ _ _ := Ok tt;
  pv_SetCustomPrice orgID amount cycle :=
    Ok ("price_custom_" +:+ pretty orgID +:+ "_" +:+ pretty (mo_Minor amount) +:+ ToLower (mo_Currency amount) +:+
        "_" +:+ cycle);
  pv_VerifyWebhook := stub_VerifyWebhook secret;
|}.
End stub.

(** ** The Paddle adapter (paddle/paddle.go) *)

Definition price_key (plan cycle : string) : string := plan +:+ ":" +:+ cycle.

Definition price_row (acc : gmap string string * gmap string string) (r : PlanPrice) : gmap string string * gmap string string :=
  if pp_HasTrial r then (<[price_key (pp_Plan r) (pp_Cycle r) := pp_ProviderPriceID r]> acc.1, acc.2)
  else (acc.1, <[price_key (pp_Plan r) (pp_Cycle r) := pp_ProviderPriceID r]> acc.2).
Definition PriceMaps (rows : list PlanPrice) : gmap string string * gmap string string := foldl price_row (∅, ∅) rows.

(** The two price maps and the reverse map. *)
Record paddleProvider := mkPaddle {
  pd_prices : gmap string string;
  pd_pricesNoTrial : gmap string string;
  pd_byPrice : gmap string (string * string);
}.

Definition reverse_price (acc : gmap string (string * string)) (kv : string * string) : gmap string (string * string) :=
  let '(plan, cycle, _) := Cut ":" kv.1 in <[kv.2 := (plan, cycle)]> acc.

(** [New] ranges over the two maps; [range] is the order Go visits a map in. *)
Definition paddle_New (range : gmap string string -> list (string * string)) (prices noTrial : gmap string string) : paddleProvider :=
  mkPaddle prices noTrial (foldl reverse_price ∅ (range prices ++ range noTrial)).

Definition priceFor (p : paddleProvider) (plan cycle : string) (withTrial : bool) : option string :=
  let key := price_key plan cycle in
  match (if negb withTrial then pd_pricesNoTrial p !! key else None) with
  | Some id => Some id
  | None => pd_prices p !! key
  end.

(** A value of custom_data: a string, a number (truncated to int64), or neither. *)
Inductive customValue := CVString (s : string) | CVNumber (truncated : Z) | CVOther.

Definition orgIDFromCustomData (org_id : option customValue) : Z :=
  match org_id with
  | Some (CVString x) => ParseInt_value x
  | Some (CVNumber n) => n
  | Some CVOther | None => 0
  end.

(** The data of a subscription event and of a transaction event, as decoded. *)
Record subscriptionData := mkSubscriptionData {
  sd_ID : string; sd_Status : string; sd_CustomerID : string; sd_OrgID : option customValue;
  sd_PeriodEnd : option Time; sd_ScheduledAction : option string; sd_Prices : list string;
}.
Record transactionData := mkTransactionData {
  td_ID : string; td_Status : string; td_CustomerID : string; td_OrgID : option customValue;
  td_Totals : option (string * string);
}.

(** The event with nothing mapped, as [VerifyWebhook] starts it. *)
Definition paddle_event (id typ : string) (kind : EventKind) : Event :=
  mkEvent id typ kind "paddle" 0 "" "" "" "" "" "" None false None.

Definition mapSubscription (p : paddleProvider) (s : subscriptionData) (ev : Event) : Event :=
  let price := default "" (head (sd_Prices s)) in
  let '(plan, cycle) := match sd_Prices s with [] => ("", "") | _ => default ("", "") (pd_byPrice p !! price) end in
  mkEvent (ev_ID ev) (ev_Type ev) (ev_Kind ev) (ev_Provider ev) (orgIDFromCustomData (sd_OrgID s)) (sd_CustomerID s)
    (sd_ID s) price plan cycle (sd_Status s) (sd_PeriodEnd s)
    (match sd_ScheduledAction s with Some a => String.eqb a "cancel" | None => false end) (ev_Payment ev).

Definition mapTransaction (t : transactionData) (ev : Event) : Event :=
  let amount := match td_Totals t with Some (total, cur) => mkMoney (ParseInt_value total) cur | None => mkMoney 0 "" end in
  mkEvent (ev_ID ev) (ev_Type ev) (ev_Kind ev) (ev_Provider ev) (orgIDFromCustomData (td_OrgID t)) (td_CustomerID t)
    (ev_ProviderSubscriptionID ev) (ev_ProviderPriceID ev) (ev_Plan ev) (ev_Cycle ev) (ev_Status ev)
    (ev_CurrentPeriodEnd ev) (ev_CancelAtPeriodEnd ev)
    (Some (mkEventPayment (td_ID t) amount (td_Status t) "" "" (mkMoney 0 ""))).

Section paddle.
(** The SDK's verifier and event names, the decoders, and the calls of the API: the
    hosted checkout of a price for an org id, the portal, cancelling and refunding. *)
Context (verify : string -> string -> bool).
Context (subscriptionEvents paymentEvents : list string).
Context (unmarshal_envelope : string -> option (string * string * string)).
Context (unmarshal_subscription : string -> option subscriptionData).
Context (unmarshal_transaction : string -> option transactionData).

Definition paddle_VerifyWebhook (p : paddleProvider) (payload sig : string) : result verifyError Event :=
  if negb (verify payload sig) then Err ErrBadSignature
  else
    match unmarshal_envelope payload with
    | None => Err ErrMalformed
    | Some (id, typ, data) =>
        if bool_decide (typ ∈ subscriptionEvents) then
          let ev := paddle_event id typ EventKindSubscription in
          Ok (match unmarshal_subscription data with Some s => mapSubscription p s ev | None => ev end)
        else if bool_decide (typ ∈ paymentEvents) then
          let ev := paddle_event id typ EventKindPayment in
          Ok (match unmarshal_transaction data with Some t => mapTransaction t ev | None => ev end)
        else Ok (paddle_event id typ EventKindUnknown)
    end.

Context (createTransaction : string -> string -> result string (option string)).
Context (createPortalSession : string -> option string -> result string string).
Context (cancelSubscription : string -> bool -> result string unit).
Context (createRefund : string -> string -> result string unit).

(** A transaction for the price, with the org id in custom_data; its checkout URL. *)
Definition paddle_Checkout (p : paddleProvider) (orgID : Z) (plan cycle : string) (withTrial : bool) : result providerError string :=
  match priceFor p plan cycle withTrial with
  | None => Err (ErrProvider "no price configured")
  | Some priceID =>
      match createTransaction priceID (pretty orgID) with
      | Err e => Err (ErrProvider e)
      | Ok None | Ok (Some EmptyString) => Err (ErrProvider "no checkout url returned")
      | Ok (Some url) => Ok url
      end
  end.

Definition paddle_PortalURL (customerID subID : string) : result providerError string :=
  if String.eqb customerID "" then Err (ErrProvider "portal session needs a customer id")
  else
    match createPortalSession customerID (if String.eqb subID "" then None else Some subID) with
    | Err e => Err (ErrProvider e)
    | Ok url => Ok url
    end.

Definition paddle_CancelSubscription (subID : string) (when : CancelWhen) : result providerError unit :=
  match cancelSubscription subID (bool_decide (when = CancelImmediate)) with
  | Err e => Err (ErrProvider e) | Ok _ => Ok tt
  end.

Definition paddle_Refund (paymentID : string) (amount : option Money) (reason : string) : result providerError unit :=
  match amount with
  | Some _ => Err (ErrProvider "partial refunds are not supported yet (full refunds only)")
  | None =>
      match createRefund paymentID (if String.eqb reason "" then "requested by operator" else reason) with
      | Err e => Err (ErrProvider e) | Ok _ => Ok tt
      end
  end.

Definition Paddle (p : paddleProvider) : Provider := {|
  pv_Name := "paddle";
  pv_SignatureHeader := "Paddle-Signature";
  pv_Checkout := paddle_Checkout p;
  pv_PortalURL := paddle_PortalURL;
  pv_UpdateSubscription _ _ := Err ErrNotImplemented;
  pv_CancelSubscription := paddle_CancelSubscription;
  pv_Refund := paddle_Refund;
  pv_SetCustomPrice _ _ _ := Err ErrNotImplemented;
  pv_VerifyWebhook := paddle_VerifyWebhook p;
|}.
End paddle.

(** ** The handlers (api/admin.go, billing_admin.go, billing_selfserve.go) *)

(** What a handler does outside the database: calls that move money, and the audit trail. *)
Inductive BEffect :=
  | CallCheckout (orgID : Z) (plan cycle : string) (withTrial : bool)
  | CallPortal (customerID subID : string)
  | CallSetCustomPrice (orgID : Z) (amount : Money) (cycle : string)
  | CallUpdateSubscription (subID : string) (target : PlanChange)
  | CallCancel (subID : string) (when : CancelWhen)
  | CallRefund (paymentID : string) (amount : option Money) (reason : string)
  | Audit (orgID : Z) (actor action : string).

Definition is_audit (e : BEffect) : bool := match e with Audit _ _ _ => true | _ => false end.

(** A response, with the URL of a 200 where the endpoint returns one. *)
Definition BHandled : Type := (Response * string) * BDB * list BEffect.
Definition reply (r : Response) (db : BDB) (effs : list BEffect) : BHandled := ((r, ""), db, effs).

Definition is_unimplemented {A} (r : result providerError A) : bool :=
  match r with Err ErrNotImplemented => true | _ => false end.
(** [perr != nil && !errors.Is(perr, ErrNotImplemented)] *)
Definition refused {A} (r : result providerError A) : bool := negb (is_ok r) && negb (is_unimplemented r).

Definition or_nonempty (d : string) (o : option string) : string :=
  match o with Some s => if String.eqb s "" then d else s | None => d end.

Record SetPlanBody := mkSetPlanBody {
  spb_Plan : string; spb_Cycle : option string; spb_Mode : option string;
  spb_CustomAmount : option Z; spb_CustomCurrency : option string;
}.
Record RefundBody := mkRefundBody {
  rb_PaymentId : string; rb_Amount : option Z; rb_Currency : option string; rb_Reason : option string;
}.

Definition trialDenyWindowDays : Z := 35.
Definition trialEligible (now : Time) (userID : Z) (plan : Plan) (db : BDB) : bool :=
  if negb (String.eqb plan PlanTier1) then false
  else negb (PersonHadRecentInactiveSubscription now userID trialDenyWindowDays db).

Section handlers.
(** The allowlist and [strings.ToLower]; the configured provider, if any. *)
Context (platformAdmins : gset string) (ToLower : string -> string).
Context (billing : option Provider).

Definition isPlatformAdmin (email : string) : bool := bool_decide (ToLower (TrimSpace email) ∈ platformAdmins).

(** The gate of the operator endpoints: a human, on the allowlist. *)
Definition admin_gate (p : option (ActorKind * string)) : result Response string :=
  match p with
  | Some (ActorHuman, email) => if isPlatformAdmin email then Ok email else Err (R403 "platform admin only")
  | _ => Err R401
  end.

(** The provider's part of a plan move: the custom price, the switch, the local row. *)
Definition move_subscription (now : Time) (orgID : Z) (b : SetPlanBody) (cycle mode : string) (pv : Provider)
    (sub : Subscription) (db : BDB) : result unit unit * BDB * list BEffect :=
  let amount := mkMoney (default 0 (spb_CustomAmount b)) (or_nonempty "USD" (spb_CustomCurrency b)) in
  let custom := String.eqb (spb_Plan b) PlanTierCustom && bool_decide (spb_CustomAmount b <> None) in
  let call := if custom then [CallSetCustomPrice orgID amount cycle] else [] in
  let answer := if custom then pv_SetCustomPrice pv orgID amount cycle else Ok "" in
  let priceID := match answer with Ok ref => if String.eqb ref "" then sb_ProviderPriceID sub else ref
                 | Err _ => sb_ProviderPriceID sub end in
  let target := mkPlanChange (spb_Plan b) cycle mode in
  if refused answer then (Err tt, db, call)
  else if refused (pv_UpdateSubscription pv (sb_ProviderSubscriptionID sub) target)
  then (Err tt, db, call ++ [CallUpdateSubscription (sb_ProviderSubscriptionID sub) target])
  else
    let '(r, db') := UpdateSubscriptionPlan now orgID (spb_Plan b) cycle priceID db in
    ((if is_ok r then Ok tt else Err tt), db', call ++ [CallUpdateSubscription (sb_ProviderSubscriptionID sub) target]).

Definition SetAdminOrgPlan (now : Time) (p : option (ActorKind * string)) (orgId : string) (body : option SetPlanBody)
    (db : BDB) : BHandled :=
  match admin_gate p with
  | Err r => reply r db []
  | Ok email =>
      match body with
      | None => reply (R422 "plan is required") db []
      | Some b =>
          match Atoi orgId with
          | None => reply R404 db []
          | Some orgID =>
              if negb (IsKnownPlan (spb_Plan b)) then reply (R422 "unknown plan") db []
              else
                let cycle := or_nonempty "monthly" (spb_Cycle b) in
                let mode := or_nonempty "next_cycle" (spb_Mode b) in
                let '(moved, db1, effs) :=
                  match GetSubscriptionByOrg orgID db, billing with
                  | Ok sub, Some pv => move_subscription now orgID b cycle mode pv sub db
                  | _, _ => (Ok tt, db, [])
                  end in
                if negb (is_ok moved) then reply R500 db1 effs
                else
                  match SetOrganizationPlan orgID (spb_Plan b) db1 with
                  | (Err _, db2) => reply R404 db2 effs
                  | (Ok _, db2) => reply R200 db2 (effs ++ [Audit orgID email "billing.plan_set"])
                  end
          end
      end
  end.

(** [immediate]: the body asks for it; otherwise the cancellation is at period end. *)
Definition CancelAdminOrgSubscription (now : Time) (p : option (ActorKind * string)) (orgId : string) (immediate : bool)
    (db : BDB) : BHandled :=
  match admin_gate p with
  | Err r => reply r db []
  | Ok email =>
      match Atoi orgId with
      | None => reply R404 db []
      | Some orgID =>
          let when := if immediate then CancelImmediate else CancelPeriodEnd in
          match GetSubscriptionByOrg orgID db with
          | Err _ => reply R404 db []
          | Ok sub =>
              let effs := match billing with Some _ => [CallCancel (sb_ProviderSubscriptionID sub) when] | None => [] end in
              let answer := match billing with
                            | Some pv => pv_CancelSubscription pv (sb_ProviderSubscriptionID sub) when
                            | None => Ok tt
                            end in
              if refused answer then reply R500 db effs
              else
                let '(r, db1) := if immediate then CancelSubscriptionNow now orgID db
                                 else SetSubscriptionCancelAtPeriodEnd now orgID db in
                if negb (is_ok r) then reply R500 db1 effs
                else reply (if is_ok (GetSubscriptionByOrg orgID db1) then R200 else R500) db1
                       (effs ++ [Audit orgID email "billing.cancel"])
          end
      end
  end.

Definition RefundAdminOrgPayment (p : option (ActorKind * string)) (orgId : string) (body : option RefundBody)
    (db : BDB) : BHandled :=
  match admin_gate p with
  | Err r => reply r db []
  | Ok email =>
      match Atoi orgId with
      | None => reply R404 db []
      | Some orgID =>
          match body with
          | None => reply (R422 "payment_id is required") db []
          | Some b =>
              if String.eqb (rb_PaymentId b) "" then reply (R422 "payment_id is required") db []
              else
                match billing with
                | None => reply (R422 "billing provider not configured") db []
                | Some pv =>
                    let amount := match rb_Amount b with
                                  | Some n => Some (mkMoney n (or_nonempty "USD" (rb_Currency b)))
                                  | None => None
                                  end in
                    let reason := default "" (rb_Reason b) in
                    let effs := [CallRefund (rb_PaymentId b) amount reason] in
                    match pv_Refund pv (rb_PaymentId b) amount reason with
                    | Err _ => reply R500 db effs
                    | Ok _ => reply R200 db (effs ++ [Audit orgID email "billing.refund"])
                    end
                end
          end
      end
  end.

Definition CreateBillingCheckout (now : Time) (p : option Principal) (body : option (string * string)) (db : BDB) : BHandled :=
  match humanInOrg p with
  | None => reply R401 db []
  | Some (q, actor) =>
      let d := Can actor ActionManageBilling (org_resource (pr_OrgID q)) in
      if negb (de_Allowed d) then reply (R403 (de_Reason d)) db []
      else
        match body with
        | None => reply (R422 "plan and cycle are required") db []
        | Some (plan, cycle) =>
            if negb (String.eqb plan PlanTier2) && negb (String.eqb plan PlanTier3)
            then reply (R422 "only tier2 or tier3 can be bought self-serve") db []
            else
              match billing with
              | None => reply (R422 "billing is not configured") db []
              | Some pv =>
                  let withTrial := trialEligible now (pr_UserID q) (orgPlan (pr_OrgID q) (accounts db)) db in
                  let effs := [CallCheckout (pr_OrgID q) plan cycle withTrial] in
                  match pv_Checkout pv (pr_OrgID q) plan cycle withTrial with
                  | Ok url => ((R200, url), db, effs)
                  | Err ErrNotImplemented => reply (R422 "checkout is not available yet") db effs
                  | Err _ => reply R500 db effs
                  end
              end
        end
  end.

Definition CreateBillingPortal (p : option Principal) (db : BDB) : BHandled :=
  match humanInOrg p with
  | None => reply R401 db []
  | Some (q, actor) =>
      let d := Can actor ActionManageBilling (org_resource (pr_OrgID q)) in
      if negb (de_Allowed d) then reply (R403 (de_Reason d)) db []
      else
        match billing with
        | None => reply (R422 "billing is not configured") db []
        | Some pv =>
            match GetSubscriptionByOrg (pr_OrgID q) db with
            | Err _ => reply (R422 "no billing to manage on this plan") db []
            | Ok sub =>
                if String.eqb (sb_ProviderCustomerID sub) ""
                then reply (R422 "no billing to manage on this plan") db []
                else
                  let effs := [CallPortal (sb_ProviderCustomerID sub) (sb_ProviderSubscriptionID sub)] in
                  match pv_PortalURL pv (sb_ProviderCustomerID sub) (sb_ProviderSubscriptionID sub) with
                  | Ok url => ((R200, url), db, effs)
                  | Err ErrNotImplemented => reply (R422 "the customer portal is not available yet") db effs
                  | Err _ => reply R500 db effs
                  end
            end
        end
  end.
End handlers.
