(* ===== verification/BillingInv.v ===== *)
(** * BillingInv: what the billing code guarantees

    The state two deliveries of an event cannot tell apart ([view]: everything but the
    inbox, surrogate ids and updated_at), the invariant of the tables, and the theorems on
    the webhook, the adapters and the handlers. *)

From S2P Require Import Prelude Domain GoStrings Entitlements Authz Members Billing.
Open Scope Z_scope.

(** ** States up to surrogate ids and the clock of the last write *)

Definition erase (r : SubscriptionRow) : SubscriptionRow :=
  let s := sr_sub r in
  mkSubscriptionRow
    (mkSubscription 0 (sb_OrgID s) (sb_Plan s) (sb_BillingCycle s) (sb_Status s) (sb_Provider s)
       (sb_ProviderCustomerID s) (sb_ProviderSubscriptionID s) (sb_ProviderPriceID s) (sb_CurrentPeriodEnd s)
       (sb_CancelAtPeriodEnd s) (sb_CreatedAt s) 0) (sr_EndedAt r).

Definition erase_payment (p : Payment) : Payment :=
  mkPayment 0 (py_OrgID p) (py_Provider p) (py_ProviderPaymentID p) (py_Amount p) (py_Currency p) (py_Status p)
    (py_Period p) (py_HostedInvoiceURL p) (py_RefundedAmount p) (py_CreatedAt p).

Definition view (db : BDB) : MDB * gmap Z SubscriptionRow * gmap (string * string) Payment :=
  (accounts db, erase <$> subscriptions db, erase_payment <$> payments db).

(** Two databases the product cannot tell apart. *)
Definition same_view (db1 db2 : BDB) : Prop := view db1 = view db2.
Infix "≈" := same_view (at level 70).
#[export] Instance same_view_equiv : Equivalence same_view.
Proof. unfold same_view. split; repeat intro; congruence. Qed.

Lemma view_eq db1 db2 :
  db1 ≈ db2 <->
  accounts db1 = accounts db2 /\ erase <$> subscriptions db1 = erase <$> subscriptions db2 /\
  erase_payment <$> payments db1 = erase_payment <$> payments db2.
Proof. unfold same_view, view. split; [by intros [= ? ? ?]|]. by intros (-> & -> & ->). Qed.

Lemma rollback_view db db' : rollback db db' ≈ db.
Proof. done. Qed.
Lemma events_view m db : set_events m db ≈ db.
Proof. done. Qed.
Lemma next_payment_view db : next_payment db ≈ db.
Proof. done. Qed.
#[export] Hint Resolve rollback_view events_view next_payment_view : pulse.

(** Two lookups in maps that agree up to a function. *)
Lemma lookup_fmap_eq `{Countable K} {A B} (f : A -> B) (m1 m2 : gmap K A) k :
  f <$> m1 = f <$> m2 ->
  match m1 !! k, m2 !! k with Some a, Some b => f a = f b | None, None => True | _, _ => False end.
Proof.
  intros Hm. apply (f_equal (fun m => m !! k)) in Hm. rewrite !lookup_fmap in Hm.
  destruct (m1 !! k), (m2 !! k); simpl in *; by simplify_eq.
Qed.

Lemma erase_eq r1 r2 :
  erase r1 = erase r2 ->
  sb_OrgID (sr_sub r1) = sb_OrgID (sr_sub r2) /\ sb_Status (sr_sub r1) = sb_Status (sr_sub r2) /\
  sb_CreatedAt (sr_sub r1) = sb_CreatedAt (sr_sub r2) /\ sr_EndedAt r1 = sr_EndedAt r2.
Proof. destruct r1 as [[] ?], r2 as [[] ?]. unfold erase. simpl. by intros [=]. Qed.

Lemma erase_payment_eq p1 p2 :
  erase_payment p1 = erase_payment p2 -> py_OrgID p1 = py_OrgID p2 /\ py_CreatedAt p1 = py_CreatedAt p2.
Proof. by intros [=]. Qed.

(** A query that reads neither the id nor updated_at finds the same row. *)
Lemma rows_where_erase P (m : gmap Z SubscriptionRow) :
  (forall r, P (erase r) = P r) ->
  rows_where P (erase <$> m) = prod_map id erase <$> rows_where P m.
Proof.
  intros HP. unfold rows_where. rewrite map_to_list_fmap.
  induction (map_to_list m) as [|[k r] l IH]; [done|].
  rewrite fmap_cons, !filter_cons. simpl. rewrite HP. case_decide; rewrite ?fmap_cons, IH; done.
Qed.

#[export] Instance OrgByCustomer_proper :
  Proper (eq ==> eq ==> same_view ==> eq) (fun p c db => (OrgByCustomer p c db).1).
Proof.
  intros p ? <- c ? <- db1 db2 (_ & Hs & _)%view_eq. unfold OrgByCustomer, find_row. simpl.
  pose proof (rows_where_erase (of_customer p c) (subscriptions db1) (fun _ => eq_refl)) as H1.
  pose proof (rows_where_erase (of_customer p c) (subscriptions db2) (fun _ => eq_refl)) as H2.
  rewrite Hs, H2 in H1.
  destruct (rows_where _ (subscriptions db1)) as [|[k1 r1] l1], (rows_where _ (subscriptions db2)) as [|[k2 r2] l2];
    try done. cbn [fmap list_fmap map prod_map fst snd] in H1. injection H1 as _ Hr. simpl. by rewrite Hr.
Qed.

(** The two transactions behave the same on indistinguishable databases. *)
Definition same_outcome {A} (x y : result bError A * BDB) : Prop := x.1 = y.1 /\ x.2 ≈ y.2.

Lemma fmap_insert_eq `{Countable K} {A B} (f : A -> B) (m1 m2 : gmap K A) k a b :
  f <$> m1 = f <$> m2 -> f a = f b -> f <$> <[k := a]> m1 = f <$> <[k := b]> m2.
Proof. intros Hm Hab. by rewrite !fmap_insert, Hm, Hab. Qed.

Lemma upsert_view now s db1 db2 :
  db1 ≈ db2 -> same_outcome (upsertSubscriptionTx now s db1) (upsertSubscriptionTx now s db2).
Proof.
  intros Hv. pose proof (proj1 (view_eq _ _) Hv) as (Ha & Hs & Hp). unfold upsertSubscriptionTx. rewrite Ha.
  pose proof (lookup_fmap_eq erase _ _ (sb_OrgID s) Hs) as Hl.
  destruct (subscriptions db1 !! _) as [r1|] eqn:E1, (subscriptions db2 !! _) as [r2|] eqn:E2; try done.
  - destruct (erase_eq _ _ Hl) as (_ & Hst & Hc & He). split; [done|]. apply view_eq. simpl. split; [done|]. split; [|done].
    apply fmap_insert_eq; [done|]. unfold erase. simpl. by rewrite Hst, Hc, He.
  - case_bool_decide; [done|]. split; [done|]. apply view_eq. simpl. split; [done|]. split; [|done].
    by apply fmap_insert_eq.
Qed.

Lemma ApplySubscriptionEvent_view now s db1 db2 :
  db1 ≈ db2 -> same_outcome (ApplySubscriptionEvent now s db1) (ApplySubscriptionEvent now s db2).
Proof.
  intros Hv. unfold ApplySubscriptionEvent. destruct (upsert_view now s db1 db2 Hv) as [Hr Hd].
  destruct (upsertSubscriptionTx now s db1) as [r1 d1], (upsertSubscriptionTx now s db2) as [r2 d2]. simpl in *. subst r2.
  destruct r1; [|by split]. pose proof (proj1 (view_eq _ _) Hd) as (Ha & Hs & Hp). rewrite Ha.
  destruct (update_active_org _ _ _) as [n a']. destruct (n =? 0); [by split|].
  split; [done|]. by apply view_eq.
Qed.

Lemma ApplyPaymentEvent_view now p db1 db2 :
  db1 ≈ db2 -> same_outcome (ApplyPaymentEvent now p db1) (ApplyPaymentEvent now p db2).
Proof.
  intros Hv. pose proof (proj1 (view_eq _ _) Hv) as (Ha & Hs & Hp). unfold ApplyPaymentEvent. rewrite Ha.
  destruct (active_org _ _); [|by split].
  pose proof (lookup_fmap_eq erase_payment _ _ (py_Provider p, py_ProviderPaymentID p) Hp) as Hl.
  destruct (payments db1 !! _) as [p1|], (payments db2 !! _) as [p2|]; try done.
  - destruct (erase_payment_eq _ _ Hl) as [-> ->]. case_match; (split; [done|]); [|by apply view_eq].
    apply view_eq. simpl. split; [done|]. split; [done|]. by apply fmap_insert_eq.
  - split; [done|]. apply view_eq. simpl. split; [done|]. split; [done|]. by apply fmap_insert_eq.
Qed.

Section delivery.
Context (jsonb : string -> bool).
#[local] Instance the_applier : EventApplier BDB := db_applier jsonb.

Lemma act_on_view now orgID ev db1 db2 :
  db1 ≈ db2 -> same_outcome (act_on now orgID ev db1) (act_on now orgID ev db2).
Proof.
  intros Hv. unfold act_on. destruct (ev_Kind ev); [by split|by apply ApplySubscriptionEvent_view|].
  destruct (ev_Payment ev); [by apply ApplyPaymentEvent_view|by split].
Qed.

Lemma act_view now ev db1 db2 : db1 ≈ db2 -> same_outcome (act now ev db1) (act now ev db2).
Proof.
  intros Hv. unfold act. case_bool_decide; [by split|]. destruct (negb _); [by apply act_on_view|].
  pose proof (OrgByCustomer_proper (ev_Provider ev) _ eq_refl (ev_ProviderCustomerID ev) _ eq_refl _ _ Hv) as Ho.
  simpl in *. injection Ho as ->. case_match; [by split|by apply act_on_view].
Qed.

(** The status of a delivery does not depend on the clock. *)
Lemma upsert_now t t' s db : (upsertSubscriptionTx t s db).1 = (upsertSubscriptionTx t' s db).1.
Proof. unfold upsertSubscriptionTx. by repeat case_match. Qed.

Lemma upsert_accounts t s db : accounts (upsertSubscriptionTx t s db).2 = accounts db.
Proof. unfold upsertSubscriptionTx. by repeat case_match. Qed.

Lemma act_now t t' ev db : (act t ev db).1 = (act t' ev db).1.
Proof.
  assert (forall o, (act_on t o ev db).1 = (act_on t' o ev db).1) as Hon.
  { intros o. unfold act_on. destruct (ev_Kind ev); [done| |].
    - simpl. unfold ApplySubscriptionEvent. pose proof (upsert_now t t' (event_subscription o ev) db) as Hr.
      pose proof (upsert_accounts t (event_subscription o ev) db) as H1.
      pose proof (upsert_accounts t' (event_subscription o ev) db) as H2.
      destruct (upsertSubscriptionTx t _ db) as [r1 d1], (upsertSubscriptionTx t' _ db) as [r2 d2]. simpl in *. subst r2.
      destruct r1; [|done]. rewrite H1, H2. destruct (update_active_org _ _ _). by destruct (z =? 0).
    - destruct (ev_Payment ev); [|done]. simpl. unfold ApplyPaymentEvent. by repeat case_match. }
  unfold act. case_bool_decide; [done|]. destruct (negb _); [apply Hon|]. simpl. case_match; [done|apply Hon].
Qed.

(** An apply that failed changed nothing. *)
Lemma act_err now ev db e : (act now ev db).1 = Err e -> (act now ev db).2 ≈ db.
Proof.
  assert (forall o, (act_on now o ev db).1 = Err e -> (act_on now o ev db).2 ≈ db) as Hon.
  { intros o. unfold act_on. destruct (ev_Kind ev); [done| |].
    - simpl. unfold ApplySubscriptionEvent. destruct (upsertSubscriptionTx _ _ _) as [[] ?]; [|done].
      destruct (update_active_org _ _ _). by destruct (z =? 0).
    - destruct (ev_Payment ev); [|done]. simpl. unfold ApplyPaymentEvent. by repeat case_match. }
  unfold act. case_bool_decide; [done|]. destruct (negb _); [apply Hon|]. simpl. case_match; [done|apply Hon].
Qed.

(** *** Applying an event again *)

Definition keyed (db : BDB) : Prop := forall k r, subscriptions db !! k = Some r -> sb_OrgID (sr_sub r) = k.

(** The event names its org, or its customer belongs to at most one. *)
Definition settled (ev : Event) (db : BDB) : Prop :=
  ev_OrgID ev <> 0 \/
  forall k1 k2 r1 r2, subscriptions db !! k1 = Some r1 -> subscriptions db !! k2 = Some r2 ->
    of_customer (ev_Provider ev) (ev_ProviderCustomerID ev) r1 = true ->
    of_customer (ev_Provider ev) (ev_ProviderCustomerID ev) r2 = true -> k1 = k2.

Lemma update_active_org_again o f a a' n :
  update_active_org o f a = (n, a') -> (n =? 0) = false -> (forall x, og_Deleted (f x) = og_Deleted x) ->
  (forall x, f (f x) = f x) -> update_active_org o f a' = (n, a').
Proof.
  unfold update_active_org, active_org. intros Hu Hn Hd Hf. destruct (organizations a !! o) as [x|] eqn:E.
  - destruct (og_Deleted x) eqn:Ed; simplify_eq/=. rewrite lookup_insert_eq, Hd, Ed, Hf.
    unfold set_organizations. simpl. by rewrite insert_insert_eq.
  - by simplify_eq.
Qed.

(** The row is the one the upsert of [s] leaves. *)
Definition fits (s : Subscription) (r : SubscriptionRow) : Prop :=
  exists created ended,
    erase r = erase (mkSubscriptionRow
      (mkSubscription 0 (sb_OrgID s) (sb_Plan s) (sb_BillingCycle s) (sb_Status s) (sb_Provider s)
         (sb_ProviderCustomerID s) (sb_ProviderSubscriptionID s) (sb_ProviderPriceID s) (sb_CurrentPeriodEnd s)
         (sb_CancelAtPeriodEnd s) created 0) ended) /\
    (entitled (sb_Status s) = true -> ended = None).

Lemma upsertSubscription_ok t s db :
  (upsertSubscriptionTx t s db).1 = Ok tt ->
  exists r, (upsertSubscriptionTx t s db).2 = set_subscriptions (<[sb_OrgID s := r]> (subscriptions db)) (next_subscription db) /\
            fits s r.
Proof.
  unfold upsertSubscriptionTx. destruct (subscriptions db !! sb_OrgID s) as [old|]; [|case_bool_decide; [done|]];
    intros _; (eexists; split; [reflexivity|]); (eexists _, _; split; [reflexivity|]); intros ->; done.
Qed.

Lemma upsert_again t s db r :
  subscriptions db !! sb_OrgID s = Some r -> fits s r ->
  (upsertSubscriptionTx t s db).1 = Ok tt /\ (upsertSubscriptionTx t s db).2 ≈ db.
Proof.
  intros Hr (created & ended & Hf & He). unfold upsertSubscriptionTx. rewrite Hr. split; [done|].
  apply view_eq. simpl. split; [done|]. split; [|done]. rewrite fmap_insert. apply insert_id. rewrite lookup_fmap, Hr. simpl.
  rewrite Hf. destruct (erase_eq _ _ Hf) as (_ & Hst & Hc & Hen). simpl in *. unfold erase. simpl. rewrite Hst, Hc, Hen.
  do 2 f_equal. destruct (entitled (sb_Status s)); [by rewrite He|done].
Qed.

Lemma ApplySubscriptionEvent_ok t s db :
  (ApplySubscriptionEvent t s db).1 = Ok tt ->
  exists n a r, update_active_org (sb_OrgID s) (with_plan (sb_Plan s)) (accounts db) = (n, a) /\ (n =? 0) = false /\ fits s r /\
    (ApplySubscriptionEvent t s db).2 =
      set_accounts a (set_subscriptions (<[sb_OrgID s := r]> (subscriptions db)) (next_subscription db)).
Proof.
  unfold ApplySubscriptionEvent. pose proof (upsertSubscription_ok t s db) as Hu. destruct (upsertSubscriptionTx t s db) as [[[]|] d1]; [|done].
  destruct (Hu eq_refl) as (r & Hd & Hf). simpl in Hd. subst d1. simpl.
  destruct (update_active_org _ _ _) as [n a] eqn:Ea. destruct (n =? 0) eqn:En; [done|]. eauto 10.
Qed.

Lemma ApplySubscriptionEvent_again t t' s db :
  (ApplySubscriptionEvent t s db).1 = Ok tt ->
  same_outcome (ApplySubscriptionEvent t' s (ApplySubscriptionEvent t s db).2) (ApplySubscriptionEvent t s db).
Proof.
  intros Hok. pose proof (ApplySubscriptionEvent_ok _ _ _ Hok) as (n & a & r & Ha & Hn & Hf & Hd). rewrite Hd.
  set (db1 := set_accounts _ _).
  destruct (upsert_again t' s db1 r) as [Hr Hv]; [apply lookup_insert_eq|done|].
  split; [rewrite Hok|rewrite Hd; fold db1]; unfold ApplySubscriptionEvent at 1;
    destruct (upsertSubscriptionTx t' s db1) as [[[]|] d2]; try done; simpl in Hv;
    pose proof (proj1 (view_eq _ _) Hv) as (Hacc & Hs & Hp); rewrite Hacc; simpl;
    rewrite (update_active_org_again _ _ _ _ _ Ha Hn) by done; rewrite Hn; [done|]. by apply view_eq.
Qed.

Lemma ApplyPaymentEvent_again t t' p db :
  (ApplyPaymentEvent t p db).1 = Ok tt ->
  same_outcome (ApplyPaymentEvent t' p (ApplyPaymentEvent t p db).2) (ApplyPaymentEvent t p db).
Proof.
  unfold ApplyPaymentEvent at 1 3 4. destruct (active_org _ _) as [o|] eqn:Eo; [|done].
  destruct (payments db !! _) as [old|] eqn:Ep; [destruct (py_OrgID old =? py_OrgID p) eqn:Eorg; [|done]|]; intros _;
    simpl; unfold ApplyPaymentEvent; simpl; rewrite Eo, lookup_insert_eq; simpl; rewrite ?Eorg, ?Z.eqb_refl;
    (split; [done|]); apply view_eq; simpl; rewrite insert_insert_eq; done.
Qed.

Lemma act_on_again t t' o ev db :
  (act_on t o ev db).1 = Ok tt -> same_outcome (act_on t' o ev (act_on t o ev db).2) (act_on t o ev db).
Proof.
  unfold act_on. destruct (ev_Kind ev); [done|apply ApplySubscriptionEvent_again|].
  destruct (ev_Payment ev); [apply ApplyPaymentEvent_again|done].
Qed.

Lemma ApplyPaymentEvent_subscriptions t p db : subscriptions (ApplyPaymentEvent t p db).2 = subscriptions db.
Proof. unfold ApplyPaymentEvent. by repeat case_match. Qed.

(** The customer still resolves to the same org. *)
Lemma act_on_customer t o ev db :
  keyed db -> settled ev db -> ev_OrgID ev = 0 -> o <> 0 ->
  (OrgByCustomer (ev_Provider ev) (ev_ProviderCustomerID ev) db).1 = Ok o -> (act_on t o ev db).1 = Ok tt ->
  (OrgByCustomer (ev_Provider ev) (ev_ProviderCustomerID ev) (act_on t o ev db).2).1 = Ok o.
Proof.
  intros Hk [?|Hset] H0 Ho Hc; [done|]. unfold act_on. destruct (ev_Kind ev); [done| |].
  2:{ destruct (ev_Payment ev); [|done]. intros _. revert Hc. unfold OrgByCustomer. simpl. by rewrite ApplyPaymentEvent_subscriptions. }
  intros Hok. pose proof (ApplySubscriptionEvent_ok _ _ _ Hok) as (n & a & r & _ & _ & Hf & Hd).
  simpl in Hd |- *. rewrite Hd. unfold OrgByCustomer in *. simpl in *.
  destruct (find_row _ (subscriptions db)) as [[k old]|] eqn:Ef; [|by simplify_eq]. injection Hc as Hc.
  apply find_row_Some in Ef as [Hkk Hpk]. assert (k = o) as -> by (rewrite <- Hc; symmetry; by apply Hk).
  destruct Hf as (c & e & Her & _).
  assert (of_customer (ev_Provider ev) (ev_ProviderCustomerID ev) r = true /\ sb_OrgID (sr_sub r) = o) as [Hr Hro].
  { assert (of_customer (ev_Provider ev) (ev_ProviderCustomerID ev) (erase r) = true) as <-.
    { rewrite Her. unfold of_customer, erase. simpl. by rewrite !String.eqb_refl. }
    split; [done|]. by destruct (erase_eq _ _ Her) as (-> & _). }
  rewrite (find_row_unique _ _ o r); [by rewrite Hro|apply lookup_insert_eq|done|].
  intros k' r' Hk' Hp'. destruct (decide (k' = o)) as [->|Hne]; [done|].
  rewrite lookup_insert_ne in Hk' by done. by apply (Hset k' o r' old).
Qed.

Lemma act_again t t' ev db :
  keyed db -> settled ev db -> same_outcome (act t' ev (act t ev db).2) (act t ev db).
Proof.
  intros Hk Hset. destruct (act t ev db).1 as [[]|e] eqn:Er.
  2:{ pose proof (act_err _ _ _ _ Er) as Hv. destruct (act_view t' ev _ _ Hv) as [H1 H2].
      split; [by rewrite H1, (act_now t' t), Er|]. rewrite H2, Hv. apply act_err with (e := e). by rewrite (act_now t' t). }
  revert Er. unfold act at 1 3 4. case_bool_decide as Hu; [intros; unfold act; by rewrite bool_decide_eq_true_2|].
  destruct (ev_OrgID ev =? 0) eqn:E0; simpl.
  2:{ intros Hok. unfold act. rewrite bool_decide_eq_false_2, E0 by done. by apply act_on_again. }
  destruct (match find_row _ _ with Some _ => _ | None => _ end =? 0) eqn:Ec.
  - intros _. unfold act. rewrite bool_decide_eq_false_2, E0 by done. simpl. by rewrite Ec.
  - intros Hok. set (o := match find_row _ _ with Some _ => _ | None => _ end) in *.
    apply Z.eqb_eq in E0. apply Z.eqb_neq in Ec.
    pose proof (act_on_customer t o ev db Hk Hset E0 Ec eq_refl Hok) as Hc. simpl in Hc. injection Hc as Hc.
    unfold act. rewrite bool_decide_eq_false_2, E0 by done. simpl. rewrite Hc, (proj2 (Z.eqb_neq _ _) Ec).
    by apply act_on_again.
Qed.

(** *** Faults *)

Fixpoint faults (fs : list fault) : nat :=
  match fs with [] => 0 | Works :: fs' => faults fs' | _ :: fs' => S (faults fs') end.

Lemma faults_tail fs : (faults (tail fs) <= faults fs)%nat.
Proof. destruct fs as [|[] fs]; simpl; lia. Qed.

(** A call does what it does without faults, or fails having spent one. *)
Lemma faulty_cases {A} (op : BDB -> result bError A * BDB) db fs :
  (exists fs', faulty op (db, fs) = ((op db).1, ((op db).2, fs')) /\ (faults fs' <= faults fs)%nat) \/
  (exists fs' db', faulty op (db, fs) = (Err BTransient, (db', fs')) /\ (faults fs' < faults fs)%nat /\
    (db' = db \/ db' = (op db).2)).
Proof.
  unfold faulty. destruct fs as [|[] fs]; simpl.
  - left. by exists [].
  - left. exists fs. split; [done|]. apply (faults_tail (Works :: fs)).
  - right. exists fs, db. split; [done|]. split; [simpl; lia|by left].
  - right. exists fs, (op db).2. split; [done|]. split; [simpl; lia|by right].
Qed.

#[local] Instance the_faulty_applier : EventApplier (BDB * list fault) := faulty_applier the_applier.

Lemma act_faulty t ev db fs :
  (exists fs', act t ev (db, fs) = ((act t ev db).1, ((act t ev db).2, fs')) /\ (faults fs' <= faults fs)%nat) \/
  (exists fs' db', act t ev (db, fs) = (Err BTransient, (db', fs')) /\ (faults fs' < faults fs)%nat /\
    (db' = db \/ db' = (act t ev db).2)).
Proof.
  assert (forall o fs, 
    (exists fs', act_on t o ev (db, fs) = ((act_on t o ev db).1, ((act_on t o ev db).2, fs')) /\ (faults fs' <= faults fs)%nat) \/
    (exists fs' db', act_on t o ev (db, fs) = (Err BTransient, (db', fs')) /\ (faults fs' < faults fs)%nat /\
      (db' = db \/ db' = (act_on t o ev db).2))) as Hon.
  { intros o fs'. unfold act_on. destruct (ev_Kind ev); [left; by exists fs'|apply faulty_cases|].
    destruct (ev_Payment ev); [apply faulty_cases|left; by exists fs']. }
  unfold act. case_bool_decide; [left; by exists fs|]. destruct (negb _); [apply Hon|].
  destruct (faulty_cases (ea_OrgByCustomer (ev_Provider ev) (ev_ProviderCustomerID ev)) db fs)
    as [(fs1 & Hf & Hle)|(fs1 & d1 & Hf & Hlt & Hd)]; cbn [ea_OrgByCustomer the_faulty_applier faulty_applier]; rewrite Hf; simpl.
  - case_match; [left; by exists fs1|]. destruct (Hon (match find_row (of_customer (ev_Provider ev) (ev_ProviderCustomerID ev))
      (subscriptions db) with Some (_, r) => sb_OrgID (sr_sub r) | None => 0 end) fs1) as [(fs2 & -> & H2)|(fs2 & d2 & -> & H2 & Hd2)].
    + left. exists fs2. split; [done|lia].
    + right. exists fs2, d2. split; [done|]. split; [lia|done].
  - right. exists fs1, d1. split; [done|]. split; [done|]. left. by destruct Hd.
Qed.

(** The inbox row of the event is stamped. *)
Definition processed (ev : Event) (db : BDB) : bool :=
  match billing_events db !! (ev_Provider ev, ev_ID ev) with
  | Some e => bool_decide (be_ProcessedAt e <> None)
  | None => false
  end.

Lemma act_events t ev db : billing_events (act t ev db).2 = billing_events db.
Proof.
  assert (forall o, billing_events (act_on t o ev db).2 = billing_events db) as Hon.
  { intros o. unfold act_on. destruct (ev_Kind ev); [done| |].
    - simpl. unfold ApplySubscriptionEvent, upsertSubscriptionTx. repeat case_match; by simplify_eq/=.
    - destruct (ev_Payment ev); [|done]. simpl. unfold ApplyPaymentEvent. by repeat case_match. }
  unfold act. case_bool_decide; [done|]. destruct (negb _); [apply Hon|]. simpl. case_match; [done|apply Hon].
Qed.

Lemma record_spec t ev body db :
  jsonb body = true ->
  let o := RecordBillingEvent jsonb t (ev_Provider ev) (ev_ID ev) (ev_Type ev) body db in
  o.1 = Ok (processed ev db) /\ o.2 ≈ db /\ processed ev o.2 = processed ev db.
Proof.
  intros Hj. unfold RecordBillingEvent, processed. rewrite Hj. simpl.
  destruct (billing_events db !! _) as [e|] eqn:E; simpl; rewrite ?E, ?lookup_insert_eq; done.
Qed.

Lemma mark_spec t ev db :
  (MarkBillingEventProcessed t (ev_Provider ev) (ev_ID ev) db).1 = Ok tt /\
  (MarkBillingEventProcessed t (ev_Provider ev) (ev_ID ev) db).2 ≈ db.
Proof. unfold MarkBillingEventProcessed. by case_match. Qed.

Definition accepted {A} (r : result bError A) : bool := match r with Ok _ | Err BOrgNotFound => true | _ => false end.

(** What one delivery, at time [t], can leave of [(db, fs)]. *)
Record attempt_spec (t : Time) (ev : Event) (db : BDB) (fs : list fault) (code : Z) (db' : BDB) (fs' : list fault) : Prop := {
  at_state : db' ≈ db \/ db' ≈ (act t ev db).2;
  at_ack : code = 200 -> processed ev db = false -> db' ≈ (act t ev db).2;
  at_stamp : processed ev db' = true -> processed ev db = false -> db' ≈ (act t ev db).2;
  at_done : processed ev db = true -> db' ≈ db /\ processed ev db' = true;
  at_faults : (faults fs' <= faults fs)%nat;
  at_spent : code <> 200 -> accepted (act t ev db).1 = true -> (faults fs' < faults fs)%nat;
}.

(** The stamp, after an event was acted on. *)
Lemma attempt_mark t ev db db2 fs fs2 code :
  db2 ≈ (act t ev db).2 -> processed ev db = false -> (faults fs2 <= faults fs)%nat ->
  (code = 200 \/ (code = if is_ok (ea_MarkBillingEventProcessed t (ev_Provider ev) (ev_ID ev) (db2, fs2)).1 then 200 else 500)) ->
  exists db' fs', (ea_MarkBillingEventProcessed t (ev_Provider ev) (ev_ID ev) (db2, fs2)).2 = (db', fs') /\
    attempt_spec t ev db fs code db' fs'.
Proof.
  intros Hv Hp Hf Hcode. destruct (mark_spec t ev db2) as [Hok Hmv].
  destruct (faulty_cases (MarkBillingEventProcessed t (ev_Provider ev) (ev_ID ev)) db2 fs2)
    as [(fs3 & Hm & Hle)|(fs3 & d3 & Hm & Hlt & Hd)]; cbn [ea_MarkBillingEventProcessed the_faulty_applier faulty_applier] in *;
    cbn [ea_MarkBillingEventProcessed the_applier db_applier] in *; rewrite Hm in Hcode |- *; simpl in *.
  - exists (MarkBillingEventProcessed t (ev_Provider ev) (ev_ID ev) db2).2, fs3. split; [done|].
    assert (code = 200) as -> by (rewrite Hok in Hcode; by destruct Hcode).
    pose proof (transitivity Hmv Hv) as Hmd.
    split; try done; [by right|by rewrite Hp|lia].
  - exists d3, fs3. split; [done|]. assert (d3 ≈ (act t ev db).2) as Hd3 by (destruct Hd as [->| ->]; [done|exact (transitivity Hmv Hv)]).
    split; try done; [by right|by rewrite Hp|lia|lia].
Qed.

Lemma webhook_attempt t body ev db fs :
  jsonb body = true ->
  exists db' fs', (ingest t body ev (db, fs)).2 = (db', fs') /\ attempt_spec t ev db fs (ingest t body ev (db, fs)).1 db' fs'.
Proof.
  intros Hj. destruct (record_spec t ev body db Hj) as (Hr & Hrv & Hrp).
  unfold ingest.
  destruct (faulty_cases (RecordBillingEvent jsonb t (ev_Provider ev) (ev_ID ev) (ev_Type ev) body) db fs)
    as [(fs1 & Hm & Hle)|(fs1 & d1 & Hm & Hlt & Hd)];
    cbn [ea_RecordBillingEvent the_faulty_applier faulty_applier the_applier db_applier]; rewrite Hm.
  2:{ exists d1, fs1. split; [done|]. assert (d1 ≈ db /\ processed ev d1 = processed ev db) as [Hd1 Hp1] by (by destruct Hd as [->| ->]).
      split; try done; [by left|congruence|by rewrite Hp1|lia]. }
  rewrite Hr. set (db1 := (RecordBillingEvent _ _ _ _ _ _ db).2) in *. destruct (processed ev db) eqn:Ep.
  { exists db1, fs1. split; [done|]. split; [by left|by rewrite Ep|by rewrite Ep|done|done|done]. }
  destruct (act_view t ev _ _ Hrv) as [Hres Hst].
  destruct (act_faulty t ev db1 fs1) as [(fs2 & -> & H2)|(fs2 & d2 & -> & H2 & Hd2)].
  - destruct (act t ev db1) as [r2 d2] eqn:Ea. simpl in Hres, Hst |- *.
    pose proof (attempt_mark t ev db d2 fs fs2) as Hmk. destruct r2 as [[]|e].
    + destruct (Hmk _ Hst Ep ltac:(lia) (or_intror eq_refl)) as (db' & fs' & Hs & Hspec).
      simpl in Hs, Hspec. exists db', fs'. clear Hmk.
      destruct (faulty _ (d2, fs2)) as [[] [d3 fs3]]; simpl in *; by simplify_eq.
    + destruct (decide (e = BOrgNotFound)) as [->|Hne].
      * destruct (Hmk 200 Hst Ep ltac:(lia) (or_introl eq_refl)) as (db' & fs' & Hs & Hspec). exists db', fs'. by rewrite <- Hs.
      * exists d2, fs2. assert (processed ev d2 = false) as Hp2.
        { pose proof (act_events t ev db1) as He. rewrite Ea in He. simpl in He. unfold processed in *. by rewrite He, Hrp. }
        destruct e; try done; (split; [done|]); (split; [by right|done|by rewrite Hp2|by rewrite Ep|lia|by rewrite <- Hres]).
  - simpl. exists d2, fs2. split; [done|].
    assert (processed ev d2 = false) as Hp2.
    { destruct Hd2 as [->| ->]; [by rewrite Hrp|]. unfold processed in *. by rewrite act_events, Hrp. }
    split; [|done|by rewrite Hp2|by rewrite Ep|lia|lia].
    destruct Hd2 as [->| ->]; [by left|by right].
Qed.

(** An event the database refuses for good is never stamped. *)
Lemma ingest_rejected t body ev db fs e :
  jsonb body = true -> processed ev db = false -> (act t ev db).1 = Err e -> e <> BOrgNotFound ->
  exists db' fs', ingest t body ev (db, fs) = (500, (db', fs')) /\ db' ≈ db /\ processed ev db' = false.
Proof.
  intros Hj Hp He Hne. destruct (record_spec t ev body db Hj) as (Hr & Hrv & Hrp). unfold ingest.
  destruct (faulty_cases (RecordBillingEvent jsonb t (ev_Provider ev) (ev_ID ev) (ev_Type ev) body) db fs)
    as [(fs1 & Hm & _)|(fs1 & d1 & Hm & _ & Hd)];
    cbn [ea_RecordBillingEvent the_faulty_applier faulty_applier the_applier db_applier]; rewrite Hm.
  2:{ exists d1, fs1. split; [done|]. destruct Hd as [->| ->]; [done|]. split; [done|]. congruence. }
  rewrite Hr, Hp. set (db1 := (RecordBillingEvent _ _ _ _ _ _ db).2) in *.
  destruct (act_view t ev _ _ Hrv) as [Hres Hst]. rewrite He in Hres.
  assert ((act t ev db1).2 ≈ db) as Hv by (etrans; [by apply (act_err t ev db1 e)|done]).
  assert (processed ev (act t ev db1).2 = false) as Hpa by (unfold processed in *; by rewrite act_events, Hrp).
  destruct (act_faulty t ev db1 fs1) as [(fs2 & -> & _)|(fs2 & d2 & -> & _ & Hd2)].
  - rewrite Hres. exists (act t ev db1).2, fs2. by destruct e.
  - exists d2, fs2. split; [done|]. destruct Hd2 as [->| ->]; [|done]. split; [done|congruence].
Qed.

(** A stamp stays, whatever else is delivered. *)
Definition keeps_stamps (db db' : BDB) : Prop := forall ev, processed ev db = true -> processed ev db' = true.

Lemma record_keeps t provider id type body db : keeps_stamps db (RecordBillingEvent jsonb t provider id type body db).2.
Proof.
  intros ev. unfold RecordBillingEvent. destruct (negb _); [done|]. destruct (billing_events db !! (provider, id)) as [e|] eqn:He; [done|].
  unfold processed. cbn [snd billing_events set_events]. destruct (decide ((provider, id) = (ev_Provider ev, ev_ID ev))) as [Hk|Hk].
  - rewrite <- Hk, He. done.
  - by rewrite lookup_insert_ne.
Qed.

Lemma mark_keeps t provider id db : keeps_stamps db (MarkBillingEventProcessed t provider id db).2.
Proof.
  intros ev. unfold MarkBillingEventProcessed. destruct (billing_events db !! (provider, id)) as [e|] eqn:He; [|done].
  unfold processed. cbn [snd billing_events set_events]. destruct (decide ((provider, id) = (ev_Provider ev, ev_ID ev))) as [Hk|Hk].
  - rewrite <- Hk, lookup_insert_eq. done.
  - by rewrite lookup_insert_ne.
Qed.

Lemma act_keeps t ev db : keeps_stamps db (act t ev db).2.
Proof. intros ev'. unfold processed. by rewrite act_events. Qed.

Lemma ingest_keeps t body ev db fs : keeps_stamps db (ingest t body ev (db, fs)).2.1.
Proof.
  unfold ingest.
  destruct (faulty_cases (RecordBillingEvent jsonb t (ev_Provider ev) (ev_ID ev) (ev_Type ev) body) db fs)
    as [(fs1 & Hm & _)|(fs1 & d1 & Hm & _ & Hd)];
    cbn [ea_RecordBillingEvent the_faulty_applier faulty_applier the_applier db_applier]; rewrite Hm.
  2:{ cbn. destruct Hd as [->| ->]; [by intros ?|apply record_keeps]. }
  pose proof (record_keeps t (ev_Provider ev) (ev_ID ev) (ev_Type ev) body db) as H1. set (o := RecordBillingEvent _ _ _ _ _ _ db) in *.
  destruct o as [[[]|e] db1]; cbn [fst snd] in *; [done| |done].
  assert (forall d fs2, keeps_stamps db1 d -> keeps_stamps db (ea_MarkBillingEventProcessed t (ev_Provider ev) (ev_ID ev) (d, fs2)).2.1) as Hmark.
  { intros d fs2 Hd ev' Hev. cbn [ea_MarkBillingEventProcessed the_faulty_applier faulty_applier the_applier db_applier].
    destruct (faulty_cases (MarkBillingEventProcessed t (ev_Provider ev) (ev_ID ev)) d fs2) as [(fs3 & -> & _)|(fs3 & d3 & -> & _ & [->| ->])]; cbn;
      [by apply mark_keeps, Hd, H1|by apply Hd, H1|by apply mark_keeps, Hd, H1]. }
  assert (forall (r : result bError unit) d fs2, keeps_stamps db1 d -> keeps_stamps db
    (match r with
     | Ok _ => match ea_MarkBillingEventProcessed t (ev_Provider ev) (ev_ID ev) (d, fs2) with (Err _, s3) => (500, s3) | (Ok _, s3) => (200, s3) end
     | Err BOrgNotFound => (200, (ea_MarkBillingEventProcessed t (ev_Provider ev) (ev_ID ev) (d, fs2)).2)
     | Err _ => (500, (d, fs2))
     end).2.1) as Hend.
  { intros r d fs2 Hd. specialize (Hmark d fs2 Hd). destruct r as [[]|[]]; cbn [snd]; try done; try (intros ev' Hev; by apply Hd, H1).
    by destruct (ea_MarkBillingEventProcessed _ _ _ (d, fs2)) as [[] [d3 fs3]]. }
  destruct (act_faulty t ev db1 fs1) as [(fs2 & -> & _)|(fs2 & d2 & -> & _ & Hd2)].
  - apply Hend, act_keeps.
  - apply (Hend (Err BTransient)). destruct Hd2 as [->| ->]; [by intros ?|apply act_keeps].
Qed.

(** An event that was acted on and acknowledged is stamped. *)
Lemma ack_stamps t body ev db fs :
  jsonb body = true -> (act t ev db).1 = Ok tt -> (ingest t body ev (db, fs)).1 = 200 -> processed ev (ingest t body ev (db, fs)).2.1 = true.
Proof.
  intros Hj Hok. destruct (record_spec t ev body db Hj) as (Hr & Hrv & Hrp). unfold ingest.
  destruct (faulty_cases (RecordBillingEvent jsonb t (ev_Provider ev) (ev_ID ev) (ev_Type ev) body) db fs)
    as [(fs1 & Hm & _)|(fs1 & d1 & Hm & _ & _)];
    cbn [ea_RecordBillingEvent the_faulty_applier faulty_applier the_applier db_applier]; rewrite Hm; [|done].
  rewrite Hr. assert (is_Some (billing_events (RecordBillingEvent jsonb t (ev_Provider ev) (ev_ID ev) (ev_Type ev) body db).2 !! (ev_Provider ev, ev_ID ev))) as [e He].
  { unfold RecordBillingEvent. rewrite Hj. cbn [negb]. destruct (billing_events db !! _) eqn:He; cbn; [by rewrite He|by rewrite lookup_insert_eq]. }
  set (db1 := (RecordBillingEvent _ _ _ _ _ _ db).2) in *. destruct (processed ev db) eqn:Ep; [intros _; cbn; congruence|].
  destruct (act_view t ev _ _ Hrv) as [Hres _]. rewrite Hok in Hres.
  destruct (act_faulty t ev db1 fs1) as [(fs2 & -> & _)|(fs2 & d2 & -> & _ & _)]; [|done]. rewrite Hres.
  destruct (faulty_cases (MarkBillingEventProcessed t (ev_Provider ev) (ev_ID ev)) (act t ev db1).2 fs2) as [(fs3 & Hk & _)|(fs3 & d3 & Hk & _ & _)];
    cbn [ea_MarkBillingEventProcessed the_faulty_applier faulty_applier the_applier db_applier] in *; rewrite Hk; [|done].
  destruct (mark_spec t ev (act t ev db1).2) as [-> _]. intros _. cbn [fst snd]. unfold MarkBillingEventProcessed, processed.
  rewrite act_events, He. cbn. by rewrite lookup_insert_eq.
Qed.

(** Events delivered one after the other, each once. *)
Definition ingest_all (others : list (Time * string * Event)) (s : BDB * list fault) : BDB * list fault :=
  foldl (fun s '(t, b, e) => (ingest t b e s).2) s others.

Lemma ingest_all_keeps others s : keeps_stamps s.1 (ingest_all others s).1.
Proof.
  revert s. induction others as [|[[t b] e] others IH]; intros [db fs] ev Hev; [done|]. cbn. apply IH. by apply ingest_keeps.
Qed.

(** The provider redelivers until it is answered 200. *)
Fixpoint deliver (times : list Time) (body : string) (ev : Event) (s : BDB * list fault) : Z * (BDB * list fault) :=
  match times with
  | [] => (0, s)
  | t :: ts =>
      let '(code, s') := ingest t body ev s in
      if code =? 200 then (200, s') else deliver ts body ev s'
  end.

Section exactly_once.
Context (body : string) (ev : Event) (db0 : BDB).
Hypothesis Hjson : jsonb body = true.
Hypothesis Hkeyed : keyed db0.
Hypothesis Hsettled : settled ev db0.

(** Some delivery of [T] has taken effect, once. *)
Definition applied (T : list Time) (db : BDB) : Prop := exists t, t ∈ T /\ db ≈ (act t ev db0).2.

Lemma applied_again T t db :
  applied T db -> (act t ev db).2 ≈ db /\ (act t ev db).1 = (act t ev db0).1.
Proof using Hkeyed Hsettled.
  intros (t1 & _ & Hv). destruct (act_view t ev _ _ Hv) as [H1 H2]. destruct (act_again t1 t ev db0 Hkeyed Hsettled) as [H3 H4].
  split; [|by rewrite H1, H3, (act_now t1 t)]. etrans; [exact H2|]. etrans; [exact H4|]. by symmetry.
Qed.

(** One more delivery after the effect changes nothing. *)
Lemma attempt_settled T t db fs : applied T db -> (ingest t body ev (db, fs)).2.1 ≈ db.
Proof using Hjson Hkeyed Hsettled.
  intros Ha. destruct (webhook_attempt t body ev db fs Hjson) as (db' & fs' & -> & Hspec).
  destruct (at_state _ _ _ _ _ _ _ Hspec) as [Hv|Hv]; [done|]. etrans; [exact Hv|]. by apply (applied_again T t db Ha).
Qed.

Lemma deliver_settled T times db fs : applied T db -> (deliver times body ev (db, fs)).2.1 ≈ db.
Proof using Hjson Hkeyed Hsettled.
  revert db fs. induction times as [|t times IH]; intros db fs Ha; [done|]. simpl.
  pose proof (attempt_settled T t db fs Ha) as Hv. destruct (ingest t body ev (db, fs)) as [code [db' fs']].
  simpl in Hv. destruct (code =? 200); [done|]. etrans; [|exact Hv]. apply IH.
  destruct Ha as (t1 & Ht & Hd). exists t1. split; [done|]. by etrans.
Qed.

Lemma attempt_step T t db fs :
  (db ≈ db0 \/ applied T db) -> (processed ev db = true -> applied T db) -> accepted (act t ev db0).1 = true ->
  exists code db' fs', ingest t body ev (db, fs) = (code, (db', fs')) /\
    (db' ≈ db0 \/ applied (t :: T) db') /\ (processed ev db' = true -> applied (t :: T) db') /\
    (code = 200 -> applied (t :: T) db' /\ ((act t ev db0).1 = Ok tt -> processed ev db' = true)) /\ (code <> 200 -> (faults fs' < faults fs)%nat).
Proof using Hjson Hkeyed Hsettled.
  intros Hs Hp Hacc. destruct (webhook_attempt t body ev db fs Hjson) as (db' & fs' & He & [A1 A2 A3 A4 A5 A6]).
  pose proof (ack_stamps t body ev db fs Hjson) as Hstamp.
  destruct (ingest t body ev (db, fs)) as [code s']. simpl in *. subst s'. exists code, db', fs'. split; [done|].
  assert (applied T db -> applied (t :: T) db) as Hmono by (intros (t1 & ? & ?); exists t1; split; [by right|done]).
  assert (forall d, d ≈ db -> applied (t :: T) db -> applied (t :: T) d) as Htr
    by (intros d Hd (t1 & ? & ?); exists t1; split; [done|by etrans]).
  assert (db' ≈ (act t ev db).2 -> applied (t :: T) db') as Hact.
  { intros Hv. destruct Hs as [Hs|Ha]; [exists t; split; [by left|]; etrans; [exact Hv|]; by apply act_view|].
    apply (Htr _ (transitivity Hv (proj1 (applied_again T t db Ha)))). by apply Hmono. }
  assert ((act t ev db).1 = (act t ev db0).1) as Hr.
  { destruct Hs as [Hs|Ha]; [by apply act_view|by apply (applied_again T t db Ha)]. }
  split; [|split; [|split]].
  - destruct A1 as [Hv|Hv]; [|right; by apply Hact]. destruct Hs as [Hs|Ha]; [left; by etrans|right; by apply Htr, Hmono].
  - intros Hp'. destruct (processed ev db) eqn:Ep; [apply Htr; [by apply A4|by apply Hmono, Hp]|by apply Hact, A3].
  - intros ->. split; [|intros Hok; apply Hstamp; congruence].
    destruct (processed ev db) eqn:Ep; [apply Htr; [by apply A4|by apply Hmono, Hp]|by apply Hact, A2].
  - intros Hc. apply A6; [done|]. by rewrite Hr.
Qed.

Lemma deliver_aux T times db fs :
  (db ≈ db0 \/ applied T db) -> (processed ev db = true -> applied T db) ->
  (forall t, accepted (act t ev db0).1 = true) -> (faults fs < length times)%nat ->
  exists db' fs', deliver times body ev (db, fs) = (200, (db', fs')) /\ applied (rev times ++ T) db' /\
    ((forall t, (act t ev db0).1 = Ok tt) -> processed ev db' = true).
Proof using Hjson Hkeyed Hsettled.
  revert T db fs. induction times as [|t times IH]; intros T db fs Hs Hp Hacc Hf; simpl in Hf; [lia|]. simpl.
  destruct (attempt_step T t db fs Hs Hp (Hacc t)) as (code & db' & fs' & -> & S1 & S2 & S3 & S4).
  destruct (Z.eqb_spec code 200) as [->|Hne].
  - exists db', fs'. split; [done|]. destruct (S3 eq_refl) as [(t1 & Ht & Hv) Hst]. split; [|by auto]. exists t1. split; [|done]. set_solver.
  - specialize (S4 Hne). destruct (IH (t :: T) db' fs' S1 S2 Hacc) as (db2 & fs2 & Hd & Ha); [lia|].
    exists db2, fs2. split; [done|]. by rewrite <- app_assoc.
Qed.

(** A delivery of a stamped event changes nothing, whatever the state. *)
Lemma deliver_stamped times db fs : processed ev db = true -> (deliver times body ev (db, fs)).2.1 ≈ db.
Proof using Hjson.
  revert db fs. induction times as [|t times IH]; intros db fs Hp; [done|]. simpl.
  destruct (webhook_attempt t body ev db fs Hjson) as (db' & fs' & He & Hspec). destruct (at_done _ _ _ _ _ _ _ Hspec Hp) as [Hv Hp'].
  destruct (ingest t body ev (db, fs)) as [code s']. simpl in He. subst s'. destruct (code =? 200); [done|]. etrans; [by apply IH|done].
Qed.
End exactly_once.

(** Whatever fails, a webhook leaves the state as it was or as the verified event makes it. *)
Lemma ServeHTTP_effect pv now path readable body headers db fs :
  let db' := (ServeHTTP pv now path readable body headers (db, fs)).2.1 in
  db' ≈ db \/ exists ev, pv_VerifyWebhook pv body (headers (pv_SignatureHeader pv)) = Ok ev /\ db' ≈ (act now ev db).2.
Proof.
  unfold ServeHTTP. case_match; [by left|]. case_match; [by left|].
  destruct (pv_VerifyWebhook _ _ _) as [ev|[]] eqn:Ev; [|by left|by left]. case_match; [by left|].
  destruct (jsonb body) eqn:Ej.
  - destruct (webhook_attempt now body ev db fs Ej) as (db' & fs' & Hs & Hspec). simpl. rewrite Hs. simpl.
    destruct (at_state _ _ _ _ _ _ _ Hspec); [by left|right; by exists ev].
  - left. unfold ingest. cbn [ea_RecordBillingEvent the_faulty_applier faulty_applier the_applier db_applier].
    unfold faulty, RecordBillingEvent. rewrite Ej. simpl. by destruct fs as [|[] ?].
Qed.
End delivery.

(** ** The invariant of the tables *)

(** Plans are known tiers, a subscription and a payment have their org, and ended_at is
    set exactly on a subscription that is neither active nor trialing. *)
Record bwf (db : BDB) : Prop := {
  bw_keyed : keyed db;
  bw_org : forall k r, subscriptions db !! k = Some r -> is_Some (organizations (accounts db) !! k);
  bw_plan : forall k r, subscriptions db !! k = Some r -> IsKnownPlan (sb_Plan (sr_sub r)) = true;
  bw_ended : forall k r, subscriptions db !! k = Some r ->
    (sr_EndedAt r = None <-> entitled (sb_Status (sr_sub r)) = true);
  bw_org_plan : forall k o, organizations (accounts db) !! k = Some o -> IsKnownPlan (og_Plan o) = true;
  bw_payment : forall k p, payments db !! k = Some p ->
    k = (py_Provider p, py_ProviderPaymentID p) /\ is_Some (organizations (accounts db) !! py_OrgID p);
}.

(** What one row needs. *)
Definition row_ok (k : Z) (r : SubscriptionRow) : Prop :=
  sb_OrgID (sr_sub r) = k /\ IsKnownPlan (sb_Plan (sr_sub r)) = true /\
  (sr_EndedAt r = None <-> entitled (sb_Status (sr_sub r)) = true).
Definition payment_ok (k : string * string) (p : Payment) : Prop := k = (py_Provider p, py_ProviderPaymentID p).

Lemma row_ok_erase k r1 r2 : erase r1 = erase r2 -> row_ok k r1 -> row_ok k r2.
Proof. unfold row_ok. by intros [= -> -> _ -> _ _ _ _ _ _ _ ->]. Qed.

Lemma bwf_alt db :
  bwf db <->
  map_Forall row_ok (subscriptions db) /\ map_Forall payment_ok (payments db) /\
  (forall k, is_Some (subscriptions db !! k) -> is_Some (organizations (accounts db) !! k)) /\
  map_Forall (fun _ p => is_Some (organizations (accounts db) !! py_OrgID p)) (payments db) /\
  map_Forall (fun _ o => IsKnownPlan (og_Plan o) = true) (organizations (accounts db)).
Proof.
  split.
  - intros [A B C D E F]. split; [|split; [|split; [|split]]].
    + intros k r Hr. split; [by apply A|]. split; [by eapply C|by eapply D].
    + intros k p Hp. by apply F.
    + intros k [r Hr]. by eapply B.
    + intros k p Hp. by eapply F.
    + intros k o Ho. by eapply E.
  - intros (A & B & C & D & E). split.
    + intros k r Hr. by apply A.
    + intros k r Hr. apply C. eauto.
    + intros k r Hr. by apply (A _ _ Hr).
    + intros k r Hr. by apply (A _ _ Hr).
    + intros k o Ho. by apply (E _ _ Ho).
    + intros k p Hp. split; [by apply B|by apply (D _ _ Hp)].
Qed.

Lemma bwf_view db1 db2 : db1 ≈ db2 -> bwf db1 -> bwf db2.
Proof.
  intros (Ha & Hs & Hp)%view_eq. rewrite !bwf_alt. intros (A & B & C & D & E). rewrite <- Ha. split; [|split; [|split; [|split]]].
  - intros k r Hr. pose proof (lookup_fmap_eq erase _ _ k Hs) as Hl. rewrite Hr in Hl.
    destruct (subscriptions db1 !! k) as [r1|] eqn:E1; [|done]. eapply row_ok_erase; [exact Hl|by apply A].
  - intros k p Hpk. pose proof (lookup_fmap_eq erase_payment _ _ k Hp) as Hl. rewrite Hpk in Hl.
    destruct (payments db1 !! k) as [p1|] eqn:E1; [|done]. pose proof (B _ _ E1) as Hk. unfold payment_ok in *.
    injection Hl as _ H1 H2. by rewrite <- H1, <- H2.
  - intros k [r Hr]. apply C. pose proof (lookup_fmap_eq erase _ _ k Hs) as Hl. rewrite Hr in Hl.
    destruct (subscriptions db1 !! k); [by eexists|done].
  - intros k p Hpk. pose proof (lookup_fmap_eq erase_payment _ _ k Hp) as Hl. rewrite Hpk in Hl.
    destruct (payments db1 !! k) as [p1|] eqn:E1; [|done]. destruct (erase_payment_eq _ _ Hl) as [<- _]. by apply (D _ _ E1).
  - done.
Qed.

Lemma update_active_org_keeps orgID f a n a' k :
  update_active_org orgID f a = (n, a') -> is_Some (organizations a !! k) -> is_Some (organizations a' !! k).
Proof.
  unfold update_active_org, active_org. destruct (organizations a !! orgID) eqn:E; [destruct (og_Deleted _)|]; intros [= <- <-] Hk; try done.
  simpl. rewrite lookup_insert_is_Some. destruct (decide (orgID = k)); auto.
Qed.

Lemma bwf_update_org orgID f db n a :
  update_active_org orgID f (accounts db) = (n, a) ->
  (forall o, IsKnownPlan (og_Plan o) = true -> IsKnownPlan (og_Plan (f o)) = true) -> bwf db -> bwf (set_accounts a db).
Proof.
  intros Hu Hf. rewrite !bwf_alt. intros (A & B & C & D & E). simpl.
  pose proof (fun k => update_active_org_keeps orgID f _ _ _ k Hu) as Hk. split; [done|]. split; [done|]. split; [auto|]. split.
  - intros k p Hp. apply Hk. by apply (D _ _ Hp).
  - revert Hu. unfold update_active_org, active_org. destruct (organizations (accounts db) !! orgID) as [o|] eqn:Eo; [destruct (og_Deleted o)|];
      intros [= <- <-]; try done. simpl. apply map_Forall_insert_2; [|done]. apply Hf. by apply (E _ _ Eo).
Qed.

Lemma bwf_insert_row k r db :
  row_ok k r -> is_Some (organizations (accounts db) !! k) -> bwf db -> bwf (set_subscriptions (<[k := r]> (subscriptions db)) db).
Proof.
  intros Hr Ho. rewrite !bwf_alt. intros (A & B & C & D & E). simpl. split; [by apply map_Forall_insert_2|].
  split; [done|]. split; [|done]. intros k'. rewrite lookup_insert_is_Some. intros [<-|[_ Hk]]; auto.
Qed.

Lemma bwf_update_subscription k f db :
  (forall r, row_ok k r -> row_ok k (f r)) -> bwf db -> bwf (update_subscription k f db).2.
Proof.
  intros Hf Hw. unfold update_subscription. destruct (subscriptions db !! k) as [r|] eqn:E; [|done]. simpl.
  apply bwf_insert_row; [|by eapply bw_org|done]. apply Hf. apply bwf_alt in Hw as (A & _). by apply A.
Qed.

Lemma bwf_next_subscription db : bwf db -> bwf (next_subscription db).
Proof. by apply bwf_view. Qed.

Lemma bwf_upsert now s db :
  IsKnownPlan (sb_Plan s) = true -> bwf db -> bwf (upsertSubscriptionTx now s db).2.
Proof.
  intros Hp Hw. unfold upsertSubscriptionTx. destruct (subscriptions db !! sb_OrgID s) as [old|] eqn:E.
  - apply bwf_insert_row; [|exact (bw_org _ Hw _ _ E)|by apply bwf_next_subscription]. split; [done|]. split; [done|]. simpl.
    destruct (entitled (sb_Status s)); [done|]. destruct (entitled (sb_Status (sr_sub old))) eqn:Eo; [done|].
    rewrite (bw_ended _ Hw _ _ E). by rewrite Eo.
  - case_bool_decide as Hn; [by apply bwf_next_subscription|].
    apply bwf_insert_row; [|by apply not_eq_None_Some|by apply bwf_next_subscription]. split; [done|]. split; [done|]. simpl.
    by destruct (entitled (sb_Status s)).
Qed.

Lemma bwf_ApplySubscriptionEvent now s db :
  IsKnownPlan (sb_Plan s) = true -> bwf db -> bwf (ApplySubscriptionEvent now s db).2.
Proof.
  intros Hp Hw. unfold ApplySubscriptionEvent. pose proof (bwf_upsert now s db Hp Hw) as Hu.
  destruct (upsertSubscriptionTx now s db) as [[] d1]; [|by apply (bwf_view db)].
  destruct (update_active_org _ _ _) as [n acc] eqn:Ea. destruct (n =? 0); [by apply (bwf_view db)|].
  by apply (bwf_update_org _ _ _ _ _ Ea).
Qed.

Lemma bwf_ApplyPaymentEvent now p db : bwf db -> bwf (ApplyPaymentEvent now p db).2.
Proof.
  rewrite (bwf_alt db). intros (A & B & C & D & E). unfold ApplyPaymentEvent, active_org.
  destruct (organizations (accounts db) !! py_OrgID p) as [o|] eqn:Eo; [destruct (og_Deleted o)|]; try by apply bwf_alt.
  destruct (payments db !! _) as [old|] eqn:Ep.
  - destruct (Z.eqb_spec (py_OrgID old) (py_OrgID p)) as [Eq|]; [|by apply bwf_alt]. apply bwf_alt. simpl.
    split; [done|]. split; [by apply map_Forall_insert_2|]. split; [done|]. split; [|done].
    apply map_Forall_insert_2; [|done]. simpl. by rewrite Eq, Eo.
  - apply bwf_alt. simpl. split; [done|]. split; [by apply map_Forall_insert_2|]. split; [done|]. split; [|done].
    apply map_Forall_insert_2; [|done]. simpl. by rewrite Eo.
Qed.

Lemma ParsePlan_known s : IsKnownPlan (ParsePlan s) = true.
Proof. unfold ParsePlan. by repeat case_match. Qed.

Lemma bwf_act jsonb now ev db : bwf db -> bwf (act (EventApplier0 := db_applier jsonb) now ev db).2.
Proof.
  intros Hw. assert (forall o, bwf (act_on (EventApplier0 := db_applier jsonb) now o ev db).2) as Hon.
  { intros o. unfold act_on. destruct (ev_Kind ev); [done| |].
    - apply bwf_ApplySubscriptionEvent; [|done]. simpl. unfold event_plan. case_match; [done|apply ParsePlan_known].
    - destruct (ev_Payment ev); [by apply bwf_ApplyPaymentEvent|done]. }
  unfold act. case_bool_decide; [done|]. destruct (negb _); [apply Hon|]. simpl. case_match; [done|apply Hon].
Qed.

(** ** Runs of the billing code *)

Section runs.
Context (jsonb : string -> bool) (platformAdmins : gset string) (ToLower : string -> string) (billing : option Provider).

(** A webhook through any adapter and under any faults, an operator's or an owner's
    request, the deletion of an org, the seeding of a price. *)
Inductive billing_step (db : BDB) : BDB -> Prop :=
  | step_webhook pv now path readable body headers fs :
      billing_step db (ServeHTTP (EventApplier0 := faulty_applier (db_applier jsonb)) pv now path readable body headers (db, fs)).2.1
  | step_set_plan now p orgId body :
      billing_step db (SetAdminOrgPlan platformAdmins ToLower billing now p orgId body db).1.2
  | step_cancel now p orgId immediate :
      billing_step db (CancelAdminOrgSubscription platformAdmins ToLower billing now p orgId immediate db).1.2
  | step_refund p orgId body : billing_step db (RefundAdminOrgPayment platformAdmins ToLower billing p orgId body db).1.2
  | step_checkout now p body : billing_step db (CreateBillingCheckout billing now p body db).1.2
  | step_portal p : billing_step db (CreateBillingPortal billing p db).1.2
  | step_delete orgID : billing_step db (SoftDeleteOrganization orgID db).2
  | step_price pp : billing_step db (UpsertPlanPrice pp db).2.

Lemma refund_state p orgId body db : (RefundAdminOrgPayment platformAdmins ToLower billing p orgId body db).1.2 = db.
Proof. unfold RefundAdminOrgPayment, reply. by repeat case_match. Qed.
Lemma checkout_state now p body db : (CreateBillingCheckout billing now p body db).1.2 = db.
Proof. unfold CreateBillingCheckout, reply. by repeat case_match. Qed.
Lemma portal_state p db : (CreateBillingPortal billing p db).1.2 = db.
Proof. unfold CreateBillingPortal, reply. by repeat case_match. Qed.

(** A property that the two writes of a plan move keep. *)
Lemma set_plan_ind (P : BDB -> Prop) now p orgId body db :
  P db ->
  (forall d o plan cycle price, IsKnownPlan plan = true -> P d -> P (UpdateSubscriptionPlan now o plan cycle price d).2) ->
  (forall d o plan, IsKnownPlan plan = true -> P d -> P (SetOrganizationPlan o plan d).2) ->
  P (SetAdminOrgPlan platformAdmins ToLower billing now p orgId body db).1.2.
Proof.
  intros H0 H1 H2. unfold SetAdminOrgPlan. destruct (admin_gate _ _ _) as [email|]; [|done].
  destruct body as [b|]; [|done]. destruct (Atoi orgId) as [o|]; [|done].
  destruct (IsKnownPlan (spb_Plan b)) eqn:Ek; simpl; [|done].
  set (m := match GetSubscriptionByOrg _ _ with Ok _ => _ | Err _ => _ end).
  assert (P m.1.2) as Hm.
  { subst m. destruct (GetSubscriptionByOrg o db) as [sub|]; [|done]. destruct billing as [pv|]; [|done].
    unfold move_subscription. destruct (refused (if _ : bool then _ else _)); [done|].
    destruct (refused (pv_UpdateSubscription _ _ _)); [done|].
    pose proof (H1 db o (spb_Plan b)) as Hu.
    match goal with |- context [UpdateSubscriptionPlan now o (spb_Plan b) ?c ?q db] => specialize (Hu c q Ek H0) end.
    destruct (UpdateSubscriptionPlan _ _ _ _ _ _). done. }
  destruct m as [[moved db1] effs]. simpl in Hm. case_match; [done|].
  pose proof (H2 db1 o (spb_Plan b) Ek Hm) as Hs. by destruct (SetOrganizationPlan _ _ _) as [[] ?].
Qed.

(** Every write of a cancellation is one of the two updates. *)
Lemma cancel_cases now p orgId immediate db :
  let d := (CancelAdminOrgSubscription platformAdmins ToLower billing now p orgId immediate db).1.2 in
  d = db \/ exists o, d = (CancelSubscriptionNow now o db).2 \/ d = (SetSubscriptionCancelAtPeriodEnd now o db).2.
Proof.
  unfold CancelAdminOrgSubscription. destruct (admin_gate _ _ _); [|by left]. destruct (Atoi orgId) as [o|]; [|by left].
  destruct (GetSubscriptionByOrg o db); [|by left]. case_match; [by left|].
  destruct immediate; right; exists o.
  - left. destruct (CancelSubscriptionNow now o db) as [[] d]; done.
  - right. destruct (SetSubscriptionCancelAtPeriodEnd now o db) as [[] d]; done.
Qed.

Lemma bwf_SetOrganizationPlan o plan db : IsKnownPlan plan = true -> bwf db -> bwf (SetOrganizationPlan o plan db).2.
Proof.
  intros Hp Hw. unfold SetOrganizationPlan. destruct (update_active_org _ _ _) as [n a] eqn:Ea. case_match; [done|].
  by apply (bwf_update_org _ _ _ _ _ Ea).
Qed.

Lemma bwf_CancelSubscriptionNow now o db : bwf db -> bwf (CancelSubscriptionNow now o db).2.
Proof.
  intros Hw. unfold CancelSubscriptionNow.
  match goal with |- context [update_subscription o ?f db] => pose proof (bwf_update_subscription o f db) as Hu end.
  destruct (update_subscription _ _ db) as [[] d1]; simpl in Hu |- *.
  - destruct (update_active_org _ _ _) as [n a'] eqn:Ea. apply (bwf_update_org _ _ _ _ _ Ea); [done|]. apply Hu; [|done].
    intros r (H1 & H2 & H3). split; [done|]. split; [done|]. simpl. destruct (entitled (sb_Status (sr_sub r))) eqn:E; [done|].
    rewrite H3. done.
  - apply Hu; [|done]. intros r (H1 & H2 & H3). split; [done|]. split; [done|]. simpl.
    destruct (entitled (sb_Status (sr_sub r))) eqn:E; [done|]. by rewrite H3.
Qed.

Lemma billing_step_bwf db db' : billing_step db db' -> bwf db -> bwf db'.
Proof.
  intros Hst Hw. destruct Hst.
  - destruct (ServeHTTP_effect jsonb pv now path readable body headers db fs) as [Hv|(ev & _ & Hv)]; symmetry in Hv.
    + by apply (bwf_view _ _ Hv).
    + apply (bwf_view _ _ Hv). by apply bwf_act.
  - apply set_plan_ind; [done| |].
    + intros d o plan cycle price Hp. apply bwf_update_subscription. intros r (H1 & H2 & H3). by split.
    + intros d o plan. apply bwf_SetOrganizationPlan.
  - destruct (cancel_cases now p orgId immediate db) as [->|(o & [->| ->])]; [done|by apply bwf_CancelSubscriptionNow|].
    apply bwf_update_subscription; [|done]. intros r (H1 & H2 & H3). by split.
  - by rewrite refund_state.
  - by rewrite checkout_state.
  - by rewrite portal_state.
  - unfold SoftDeleteOrganization. destruct (update_active_org _ _ _) as [n a] eqn:Ea. by apply (bwf_update_org _ _ _ _ _ Ea).
  - by apply (bwf_view db).
Qed.

(** *** The trial window *)

(** A subscription of [o] that is neither active nor trialing, and when it ended. *)
Definition lapsed (o : Z) (db : BDB) : option (option Time) :=
  match subscriptions db !! o with
  | Some r => if entitled (sb_Status (sr_sub r)) then None else Some (sr_EndedAt r)
  | None => None
  end.

Definition anchored (db db' : BDB) : Prop :=
  forall o e e', lapsed o db = Some e -> lapsed o db' = Some e' -> e' = e.

Lemma lapsed_view o db1 db2 : db1 ≈ db2 -> lapsed o db1 = lapsed o db2.
Proof.
  intros (_ & Hs & _)%view_eq. unfold lapsed. pose proof (lookup_fmap_eq erase _ _ o Hs) as Hl.
  destruct (subscriptions db1 !! o), (subscriptions db2 !! o); try done. by destruct (erase_eq _ _ Hl) as (_ & -> & _ & ->).
Qed.

Lemma anchored_same db db' : (forall o, lapsed o db' = lapsed o db) -> anchored db db'.
Proof. intros Hl o e e' He He'. rewrite Hl in He'. congruence. Qed.

Lemma lapsed_insert o k r db : lapsed o (set_subscriptions (<[k := r]> (subscriptions db)) db) =
  if decide (k = o) then if entitled (sb_Status (sr_sub r)) then None else Some (sr_EndedAt r) else lapsed o db.
Proof. unfold lapsed. simpl. case_decide as Hk; [subst; by rewrite lookup_insert_eq|by rewrite lookup_insert_ne]. Qed.

(** Writing one row keeps the anchor if the row does. *)
Lemma anchored_insert k r db :
  (forall old, subscriptions db !! k = Some old -> entitled (sb_Status (sr_sub old)) = false ->
     entitled (sb_Status (sr_sub r)) = false -> sr_EndedAt r = sr_EndedAt old) ->
  anchored db (set_subscriptions (<[k := r]> (subscriptions db)) db).
Proof.
  intros Hr o e e' He. rewrite lapsed_insert. case_decide as Hk; [subst o|congruence].
  unfold lapsed in He. destruct (subscriptions db !! k) as [old|] eqn:E; [|done].
  destruct (entitled (sb_Status (sr_sub old))) eqn:Eo; [done|]. destruct (entitled (sb_Status (sr_sub r))) eqn:Er; [done|].
  intros [= <-]. injection He as <-. by apply Hr.
Qed.

Lemma anchored_upsert now s db : anchored db (upsertSubscriptionTx now s db).2.
Proof.
  unfold upsertSubscriptionTx. destruct (subscriptions db !! sb_OrgID s) as [old|] eqn:E; simpl.
  - refine (anchored_insert (sb_OrgID s) _ (next_subscription db) _). simpl. intros old'. rewrite E. intros [= <-] Ho Hn. by rewrite Ho, Hn.
  - case_bool_decide; [by apply anchored_same|].
    refine (anchored_insert (sb_OrgID s) _ (next_subscription db) _). simpl. by rewrite E.
Qed.

Lemma anchored_act now ev db : anchored db (act (EventApplier0 := db_applier jsonb) now ev db).2.
Proof.
  assert (anchored db db) as Hrefl by by apply anchored_same.
  assert (forall o, anchored db (act_on (EventApplier0 := db_applier jsonb) now o ev db).2) as Hon.
  { intros o. unfold act_on. destruct (ev_Kind ev); [done| |].
    - simpl. unfold ApplySubscriptionEvent. pose proof (anchored_upsert now (event_subscription o ev) db) as Hu.
      destruct (upsertSubscriptionTx _ _ db) as [[] d1]; [|done]. destruct (update_active_org _ _ _). case_match; done.
    - destruct (ev_Payment ev); [|done]. apply anchored_same. intros o'. unfold lapsed. cbn [ea_ApplyPaymentEvent db_applier].
      by rewrite ApplyPaymentEvent_subscriptions. }
  unfold act. case_bool_decide; [done|]. destruct (negb _); [apply Hon|]. simpl. case_match; [done|apply Hon].
Qed.

Lemma lapsed_update_subscription o k f db :
  (forall r, sb_Status (sr_sub (f r)) = sb_Status (sr_sub r) /\ sr_EndedAt (f r) = sr_EndedAt r) ->
  lapsed o (update_subscription k f db).2 = lapsed o db.
Proof.
  intros Hf. unfold update_subscription. destruct (subscriptions db !! k) as [r|] eqn:E; [|done]. simpl.
  rewrite lapsed_insert. case_decide as Hk; [subst|done]. destruct (Hf r) as [-> ->]. unfold lapsed. by rewrite E.
Qed.

Lemma billing_step_anchored db db' : billing_step db db' -> anchored db db'.
Proof.
  assert (anchored db db) as Hrefl by by apply anchored_same.
  intros Hst. destruct Hst.
  - destruct (ServeHTTP_effect jsonb pv now path readable body headers db fs) as [Hv|(ev & _ & Hv)].
    + apply anchored_same. intros o. by apply lapsed_view.
    + intros o e e' He He'. apply (anchored_act now ev db o e e' He). rewrite <- He'. symmetry. exact (lapsed_view o _ _ Hv).
  - apply anchored_same. apply set_plan_ind; [done| |].
    + intros d o plan cycle price _ Hd o'. rewrite <- Hd. by apply lapsed_update_subscription.
    + intros d o plan _ Hd o'. rewrite <- Hd. unfold SetOrganizationPlan. destruct (update_active_org _ _ _). by case_match.
  - destruct (cancel_cases now p orgId immediate db) as [->|(o & [->| ->])]; [done| |].
    + unfold CancelSubscriptionNow, update_subscription. destruct (subscriptions db !! o) as [r|] eqn:E; [|done].
      destruct (update_active_org _ _ _) as [n a]. simpl.
      match goal with |- anchored _ (set_accounts _ ?d) => change (anchored db d) end.
      apply anchored_insert. simpl. intros old. rewrite E. by intros [= <-] -> _.
    + apply anchored_same. intros o'. by apply lapsed_update_subscription.
  - by rewrite refund_state.
  - by rewrite checkout_state.
  - by rewrite portal_state.
  - unfold SoftDeleteOrganization. destruct (update_active_org _ _ _). by apply anchored_same.
  - by apply anchored_same.
Qed.
End runs.

(** ** Signatures *)

Definition header_char (c : ascii) : bool := graphic c && negb (Ascii.eqb c ";").

Lemma hex_chars a :
  header_char (hex_digit (N_of_ascii a / 16)) = true /\ header_char (hex_digit (N_of_ascii a mod 16)) = true.
Proof. destruct a as [[] [] [] [] [] [] [] []]; vm_compute; by split. Qed.

Lemma EncodeToString_chars s : all_chars header_char (EncodeToString s) = true.
Proof.
  induction s as [|a s IH]; [done|]. cbn [EncodeToString all_chars]. destruct (hex_chars a) as [-> ->]. by rewrite IH.
Qed.

Lemma header_graphic s : all_chars header_char s = true -> all_chars graphic s = true /\ free_of ";" s.
Proof.
  induction s as [|a s IH]; simpl; [done|]. unfold header_char at 1. intros [[Hg Hn]%andb_true_iff Hs]%andb_true_iff.
  destruct (IH Hs) as [-> ?]. rewrite Hg. split; [done|]. split; [|done]. intros ->. by rewrite Ascii.eqb_refl in Hn.
Qed.

Lemma parseStubSig_fields ts mac :
  all_chars header_char ts = true -> all_chars header_char mac = true -> ts <> "" -> mac <> "" ->
  parseStubSig ("ts=" +:+ ts +:+ ";h1=" +:+ mac) = Ok (ts, mac).
Proof.
  intros Hts Hmac Ht Hm. unfold parseStubSig.
  destruct (header_graphic ("ts=" +:+ ts)) as [Hg1 Hf1]; [by rewrite all_chars_app, Hts|].
  destruct (header_graphic ("h1=" +:+ mac)) as [Hg2 Hf2]; [by rewrite all_chars_app, Hmac|].
  change ("ts=" +:+ ts +:+ ";h1=" +:+ mac) with (("ts=" +:+ ts) +:+ String ";" ("h1=" +:+ mac)).
  rewrite (Split_cons_free ";" _ _ Hf1), (Split_free ";" _ Hf2). cbn [foldl]. unfold stub_sig_part.
  rewrite (TrimSpace_graphic _ Hg1), (TrimSpace_graphic _ Hg2).
  change ("ts=" +:+ ts) with ("ts" +:+ String "=" ts). change ("h1=" +:+ mac) with ("h1" +:+ String "=" mac).
  rewrite !Cut_found by (by simpl). simpl.
  by rewrite (proj2 (String.eqb_neq _ _) Ht), (proj2 (String.eqb_neq _ _) Hm).
Qed.

(** ** Prices *)

Section prices.
Context (rows : list PlanPrice).
(** No plan contains the separator, and a price belongs to one plan and cycle. *)
Hypothesis Hsep : forall r, r ∈ rows -> free_of ":" (pp_Plan r).
Hypothesis Hprice : forall r1 r2, r1 ∈ rows -> r2 ∈ rows -> pp_ProviderPriceID r1 = pp_ProviderPriceID r2 ->
  pp_Plan r1 = pp_Plan r2 /\ pp_Cycle r1 = pp_Cycle r2.
Context (range : gmap string string -> list (string * string)).
Hypothesis Hrange : forall m, range m ≡ₚ map_to_list m.

Definition from_rows (kv : string * string) : Prop :=
  exists r, r ∈ rows /\ kv.1 = price_key (pp_Plan r) (pp_Cycle r) /\ kv.2 = pp_ProviderPriceID r.

Lemma PriceMaps_from_rows : 
  map_Forall (fun k v => from_rows (k, v)) (PriceMaps rows).1 /\ map_Forall (fun k v => from_rows (k, v)) (PriceMaps rows).2.
Proof using Type.
  clear Hsep Hprice range Hrange. unfold PriceMaps.
  assert (forall l acc, (forall r, r ∈ l -> r ∈ rows) ->
    map_Forall (fun k v => from_rows (k, v)) acc.1 -> map_Forall (fun k v => from_rows (k, v)) acc.2 ->
    map_Forall (fun k v => from_rows (k, v)) (foldl price_row acc l).1 /\
    map_Forall (fun k v => from_rows (k, v)) (foldl price_row acc l).2) as Hgen.
  { induction l as [|r l IH]; intros acc Hl H1 H2; [done|]. simpl. apply IH; [set_solver| |];
      unfold price_row; destruct (pp_HasTrial r); simpl; try done; apply map_Forall_insert_2; try done;
      exists r; (split; [set_solver|done]). }
  apply Hgen; [done|apply map_Forall_empty|apply map_Forall_empty].
Qed.

Let p := paddle_New range (PriceMaps rows).1 (PriceMaps rows).2.

(** Whatever order the maps are visited in, a price id leads back to its plan and cycle. *)
Lemma byPrice_complete l acc id :
  (forall kv, kv ∈ l -> from_rows kv) -> (exists k, (k, id) ∈ l) ->
  exists r, r ∈ rows /\ pp_ProviderPriceID r = id /\ foldl reverse_price acc l !! id = Some (pp_Plan r, pp_Cycle r).
Proof using Hsep.
  clear Hprice Hrange. revert acc. induction l as [|[k v] l IH] using rev_ind; intros acc Hl [k0 Hk0]; [set_solver|].
  rewrite foldl_app. simpl. unfold reverse_price at 1. simpl.
  destruct (Hl (k, v)) as (r & Hr & Hk & Hv); [set_solver|]. simpl in Hk, Hv.
  change (price_key (pp_Plan r) (pp_Cycle r)) with (pp_Plan r +:+ String ":" (pp_Cycle r)) in Hk.
  rewrite Hk, Cut_found by by apply Hsep.
  destruct (decide (v = id)) as [->|Hne].
  - exists r. split; [done|]. split; [done|]. apply lookup_insert_eq.
  - rewrite lookup_insert_ne by done. apply IH; [set_solver|]. exists k0. set_solver.
Qed.

Lemma price_roundtrip plan cycle trial id :
  free_of ":" plan -> priceFor p plan cycle trial = Some id -> pd_byPrice p !! id = Some (plan, cycle).
Proof using Hsep Hprice Hrange.
  intros Hplan Hid. destruct PriceMaps_from_rows as [H1 H2].
  assert (exists k, (k, id) ∈ range (PriceMaps rows).1 ++ range (PriceMaps rows).2 /\ k = price_key plan cycle) as (k & Hin & ->).
  { exists (price_key plan cycle). split; [|done]. unfold priceFor in Hid. simpl in Hid.
    rewrite elem_of_app, !Hrange, !elem_of_map_to_list. destruct trial; simpl in Hid; [by left|]. case_match; simplify_eq; auto. }
  assert (forall kv, kv ∈ range (PriceMaps rows).1 ++ range (PriceMaps rows).2 -> from_rows kv) as Hall.
  { intros [k v]. rewrite elem_of_app, !Hrange, !elem_of_map_to_list. intros [Hm|Hm]; [by apply H1|by apply H2]. }
  destruct (byPrice_complete _ ∅ id Hall) as (r & Hr & Hrid & Hl); [by eexists|].
  destruct (Hall _ Hin) as (r' & Hr' & Hk & Hid'). simpl in Hk, Hid'.
  destruct (Hprice r r' Hr Hr') as [Hp Hc]; [by rewrite Hrid, <- Hid'|].
  apply sep_inj in Hk as [-> ->]; [|done|by apply Hsep]. subst p. simpl. by rewrite <- Hp, <- Hc.
Qed.
End prices.

(** ** Theorems *)

Abbreviation ingest_faulty jsonb := (ingest (EventApplier0 := faulty_applier (db_applier jsonb))).
Abbreviation db_act jsonb := (act (EventApplier0 := db_applier jsonb)).

(** C11: a webhook takes effect once, whatever fails, when no other event comes between its
    deliveries.  Let an event name its org, or a customer with one subscription; let it be
    unprocessed and acceptable to the database.  For any schedule of store faults, calls that did
    nothing and calls that committed but whose answer was lost, with fewer faults than deliveries,
    the provider's redeliveries, one after the other and with nothing else handled in between, end
    with a 200, and the accounts, subscriptions and payments are what one fault-free application at
    the time of one of the deliveries makes them, up to surrogate ids and updated_at.  Deliveries
    that follow at once change nothing; and, where the event was applied, neither does any later
    delivery of it, whatever other events were handled in the meantime. *)
Theorem webhook_takes_effect_once jsonb body ev db fs times t0 :
  jsonb body = true -> keyed db -> settled ev db -> processed ev db = false ->
  accepted (db_act jsonb t0 ev db).1 = true -> (faults fs < length times)%nat ->
  exists t db' fs', t ∈ times /\ deliver jsonb times body ev (db, fs) = (200, (db', fs')) /\
    db' ≈ (db_act jsonb t ev db).2 /\
    (forall times' fs2, (deliver jsonb times' body ev (db', fs2)).2.1 ≈ db') /\
    ((db_act jsonb t0 ev db).1 = Ok tt -> forall others fs2 times' fs3,
       let db2 := (ingest_all jsonb others (db', fs2)).1 in (deliver jsonb times' body ev (db2, fs3)).2.1 ≈ db2).
Proof.
  intros Hj Hk Hs Hp Ha Hf.
  destruct (deliver_aux jsonb body ev db Hj Hk Hs [] times db fs) as (db' & fs' & Hd & Hap & Hst); [by left|congruence| |done|].
  { intros t. by rewrite (act_now jsonb t t0). }
  rewrite app_nil_r in Hap. destruct Hap as (t & Ht & Hv). exists t, db', fs'. split; [by apply list_elem_of_In, in_rev, list_elem_of_In|]. split; [done|].
  split; [done|]. split.
  - intros times' fs2. apply (deliver_settled jsonb body ev db Hj Hk Hs [t]). exists t. split; [set_solver|done].
  - intros Hok others fs2 times' fs3. apply deliver_stamped; [done|]. apply (ingest_all_keeps jsonb others (db', fs2)), Hst.
    intros t1. by rewrite (act_now jsonb t1 t0).
Qed.

(** C27: an unverified webhook changes nothing.  Whatever the request and the store
    faults, the accounts, subscriptions and payments afterwards are those before, or
    those the event makes that the adapter verified the body and the signature to be;
    when the adapter refuses, even the inbox is untouched, and a bad signature is
    answered 401 on the provider's own path with a readable body in bounds. *)
Theorem webhook_changes_only_verified jsonb pv now path readable body headers db fs :
  let out := ServeHTTP (EventApplier0 := faulty_applier (db_applier jsonb)) pv now path readable body headers (db, fs) in
  (out.2.1 ≈ db \/ exists ev, pv_VerifyWebhook pv body (headers (pv_SignatureHeader pv)) = Ok ev /\ out.2.1 ≈ (db_act jsonb now ev db).2) /\
  (forall e, pv_VerifyWebhook pv body (headers (pv_SignatureHeader pv)) = Err e -> out.2 = (db, fs) /\ out.1 <> 200) /\
  (pv_VerifyWebhook pv body (headers (pv_SignatureHeader pv)) = Err ErrBadSignature -> path = pv_Name pv -> readable = true ->
     Z.of_nat (String.length body) <= maxWebhookBody -> out.1 = 401).
Proof.
  split; [exact (ServeHTTP_effect jsonb pv now path readable body headers db fs)|]. unfold ServeHTTP. split.
  - intros e ->. case_match; [done|]. case_match; [done|]. by destruct e.
  - intros -> -> -> Hlen. rewrite String.eqb_refl. simpl. by rewrite (proj2 (Z.ltb_ge _ _) Hlen).
Qed.

(** The billing tables stay well formed.  Along any run of webhooks (through any
    adapter, under any faults), operator and self-serve requests, deletions of
    organizations and price updates: every plan stored on an organization or a subscription
    is a known tier, every subscription and payment belongs to an existing organization,
    and ended_at is set exactly on the subscriptions that are neither active nor trialing. *)
Theorem billing_tables_well_formed jsonb platformAdmins ToLower billing db db' :
  rtc (billing_step jsonb platformAdmins ToLower billing) db db' -> bwf db -> bwf db'.
Proof. induction 1; [done|]. eauto using billing_step_bwf. Qed.

(** The trial window is anchored.  While a subscription stays ended, no later
    event, cancellation, plan move or redelivery moves the instant it ended, so a person's
    trial eligibility returns when the window since that instant has passed and trailing
    events cannot restart it. *)
Theorem trial_window_anchored jsonb platformAdmins ToLower billing o db db' e :
  lapsed o db = Some e ->
  rtc (fun d d' => billing_step jsonb platformAdmins ToLower billing d d' /\ is_Some (lapsed o d')) db db' ->
  lapsed o db' = Some e.
Proof.
  intros He Hr. revert He. induction Hr as [|d1 d2 d3 [Hst [e' He']] _ IH]; intros He; [done|].
  apply IH. rewrite He'. f_equal. by apply (billing_step_anchored _ _ _ _ _ _ Hst o).
Qed.

(** What is bought is what is granted.  Let the price catalog give each price id to
    one plan and cycle and no plan contain the separator.  For any order in which the maps
    are visited, if checkout charged the price of a paid plan for an active org, with or
    without a trial, then the subscription event the provider sends back, which carries
    that price and the org id as text, is applied and leaves the org on that plan, with
    that cycle on its subscription. *)
Theorem checkout_grants_the_plan_bought jsonb rows range plan cycle trial id orgID o s eid typ now db :
  (forall r, r ∈ rows -> free_of ":" (pp_Plan r)) ->
  (forall r1 r2, r1 ∈ rows -> r2 ∈ rows -> pp_ProviderPriceID r1 = pp_ProviderPriceID r2 ->
     pp_Plan r1 = pp_Plan r2 /\ pp_Cycle r1 = pp_Cycle r2) ->
  (forall m, range m ≡ₚ map_to_list m) ->
  (plan = PlanTier2 \/ plan = PlanTier3) ->
  let p := paddle_New range (PriceMaps rows).1 (PriceMaps rows).2 in
  priceFor p plan cycle trial = Some id ->
  0 < orgID < 2 ^ 63 -> active_org orgID (accounts db) = Some o ->
  head (sd_Prices s) = Some id -> sd_OrgID s = Some (CVString (pretty orgID)) -> sd_Status s <> "canceled" ->
  let '(r, db') := db_act jsonb now (mapSubscription p s (paddle_event eid typ EventKindSubscription)) db in
  r = Ok tt /\ orgPlan orgID (accounts db') = plan /\
  exists row, subscriptions db' !! orgID = Some row /\ sb_Plan (sr_sub row) = plan /\ sb_BillingCycle (sr_sub row) = cycle /\
    sb_ProviderPriceID (sr_sub row) = id.
Proof.
  intros Hsep Hprice Hrange Hplan p Hid Horg Ho Hhead Hcd Hst.
  assert (free_of ":" plan) as Hfree by (destruct Hplan as [->| ->]; by repeat split).
  pose proof (price_roundtrip rows Hsep Hprice range Hrange plan cycle trial id Hfree Hid) as Hback. fold p in Hback. clearbody p.
  set (ev := mapSubscription _ _ _).
  assert (ev_OrgID ev = orgID /\ ev_Plan ev = plan /\ ev_Cycle ev = cycle /\ ev_ProviderPriceID ev = id /\ ev_Status ev = sd_Status s)
    as (E1 & E2 & E3 & E4 & E5).
  { subst ev. unfold mapSubscription. destruct (sd_Prices s) as [|x l]; [done|]. simpl in Hhead. injection Hhead as ->. simpl.
    rewrite Hback, Hcd. simpl. repeat split. apply ParseInt_value_Atoi, Atoi_pretty. lia. }
  assert (ev_Kind ev = EventKindSubscription) as Ek by (subst ev; unfold mapSubscription; by case_match).
  unfold act. rewrite bool_decide_eq_false_2 by (by rewrite Ek). rewrite E1, (proj2 (Z.eqb_neq orgID 0)) by lia. simpl.
  unfold act_on. rewrite Ek. cbn [ea_ApplySubscriptionEvent db_applier].
  assert (event_plan ev = plan) as Ep.
  { unfold event_plan. rewrite E5, (proj2 (String.eqb_neq _ _) Hst), E2. by destruct Hplan as [->| ->]. }
  assert (organizations (accounts db) !! orgID = Some o /\ og_Deleted o = false) as [Hoo Hdel].
  { unfold active_org in Ho. destruct (organizations (accounts db) !! orgID) as [o'|]; [|done]. by destruct (og_Deleted o') eqn:?; simplify_eq. }
  destruct (ApplySubscriptionEvent now (event_subscription orgID ev) db) as [r db'] eqn:Eapp.
  assert (r = Ok tt) as ->.
  { apply (f_equal fst) in Eapp. simpl in Eapp. rewrite <- Eapp. unfold ApplySubscriptionEvent, upsertSubscriptionTx. simpl.
    rewrite bool_decide_eq_false_2 by by rewrite Hoo.
    destruct (subscriptions db !! orgID); simpl; unfold update_active_org; simpl; by rewrite Ho. }
  pose proof (ApplySubscriptionEvent_ok now (event_subscription orgID ev) db) as Hok. rewrite Eapp in Hok.
  destruct (Hok eq_refl) as (n & a & row & Hu & _ & (c & en & Hf & _) & Hd). simpl in Hu, Hd. subst db'.
  split; [done|]. simpl in Hf. rewrite Ep, E3, E4 in Hf. split.
  - unfold update_active_org in Hu. rewrite Ho in Hu. injection Hu as _ <-. unfold orgPlan, GetOrganization. simpl.
    rewrite lookup_insert_eq. simpl. rewrite Ep. by destruct Hplan as [->| ->].
  - exists row. simpl. rewrite lookup_insert_eq. split; [done|]. injection Hf. intros. by repeat split.
Qed.

(** The stub signature round-trips and authenticates.  A body signed with the
    secret, with a timestamp of printable characters other than the separator, verifies
    and yields the event of its envelope; and whenever a webhook verifies, the header
    carried exactly the HMAC of its timestamp and this body under the secret. *)
Theorem stub_signature_roundtrip hmac unmarshal secret ts body :
  all_chars header_char ts = true -> ts <> "" -> (forall k m, hmac k m <> "") ->
  stub_VerifyWebhook hmac unmarshal secret body (SignStubWebhook hmac secret ts body) =
    (match unmarshal body with Some env => Ok (stub_event "stub" env) | None => Err ErrMalformed end) /\
  forall sig ev, stub_VerifyWebhook hmac unmarshal secret body sig = Ok ev ->
    exists ts', parseStubSig sig = Ok (ts', EncodeToString (hmac secret (ts' +:+ "." +:+ body))).
Proof.
  intros Hts Hne Hmac. split.
  - unfold stub_VerifyWebhook, SignStubWebhook. rewrite parseStubSig_fields; [|done|apply EncodeToString_chars|done|].
    + rewrite String.eqb_refl. done.
    + unfold stubSign. pose proof (Hmac secret (ts +:+ "." +:+ body)) as Hm. by destruct (hmac _ _).
  - intros sig ev. unfold stub_VerifyWebhook. destruct (parseStubSig sig) as [[ts' mac]|]; [|done].
    destruct (String.eqb_spec (stubSign hmac secret ts' body) mac) as [<-|]; [|done]. eauto.
Qed.

(** A subscription event for an organization that no longer has a row is never
    acknowledged.  The insert breaks the foreign key before the update can report that
    the org is gone, so every delivery, with or without store faults, is answered 500
    and the event stays unprocessed; an event for a soft-deleted org is acknowledged. *)
Theorem missing_org_event_never_acknowledged jsonb body ev db fs times :
  jsonb body = true -> ev_Kind ev = EventKindSubscription -> ev_OrgID ev <> 0 ->
  organizations (accounts db) !! ev_OrgID ev = None -> subscriptions db !! ev_OrgID ev = None -> processed ev db = false ->
  (deliver jsonb times body ev (db, fs)).1 = 0 /\ (deliver jsonb times body ev (db, fs)).2.1 ≈ db /\
  processed ev (deliver jsonb times body ev (db, fs)).2.1 = false.
Proof.
  intros Hj Hk H0 Ho Hs Hp. revert db fs Ho Hs Hp. induction times as [|t times IH]; intros db fs Ho Hs Hp; [done|].
  assert ((db_act jsonb t ev db).1 = Err BForeignKey) as He.
  { unfold act. rewrite bool_decide_eq_false_2, (proj2 (Z.eqb_neq _ _) H0) by (by rewrite Hk). simpl. unfold act_on. rewrite Hk. simpl.
    unfold ApplySubscriptionEvent, upsertSubscriptionTx. simpl. by rewrite Hs, bool_decide_eq_true_2. }
  destruct (ingest_rejected jsonb t body ev db fs _ Hj Hp He) as (db' & fs' & Hi & Hv & Hp'); [done|].
  simpl. rewrite Hi. simpl. pose proof (proj1 (view_eq _ _) Hv) as (Ha & Hsub & _).
  pose proof (lookup_fmap_eq erase _ _ (ev_OrgID ev) Hsub) as Hl. rewrite Hs in Hl.
  destruct (IH db' fs') as (R1 & R2 & R3); [by rewrite Ha|by destruct (subscriptions db' !! _)|done|].
  split; [done|]. split; [by etrans|done].
Qed.

(** ** Examples *)

Definition ex_org (plan : string) : Organization := mkOrganization "acme" plan "en" false.
Definition ex_accounts : MDB :=
  mkMDB {[ 1 := mkMembership 1 7 3 RoleOwner ]} ∅ {[ 7 := ex_org "tier1" ]}
    {[ 3 := mkUser "ann@acme.test" true "Ann" true ]} 2 1.
Definition ex_bdb : BDB := mkBDB ex_accounts ∅ ∅ ∅ ∅ 1 1.

Definition ex_sub_event (id status plan : string) (org : Z) : Event :=
  mkEvent id "subscription.updated" EventKindSubscription "stub" org "cus_1" "sub_1" "pri_1" plan "monthly" status None false None.
Definition ex_activate : Event := ex_sub_event "evt_1" "active" "tier3" 7.
Definition ex_cancel : Event := ex_sub_event "evt_2" "canceled" "tier3" 7.
Definition all_json (_ : string) : bool := true.

(** The plan of org 7 and the answer after a delivery. *)
Definition ex_serve (t : Time) (ev : Event) (s : BDB * list fault) : Z * Plan * (BDB * list fault) :=
  let '(code, s') := ingest_faulty all_json t "{}" ev s in (code, orgPlan 7 (accounts s'.1), s').

(** Reprocessing an event whose stamp failed is not harmless.  An activation is
    applied but the stamp fails, so it is answered 500; the cancellation that follows is
    processed and drops the org to the free tier; the redelivery of the activation is
    then applied again and acknowledged, and the org is back on the paid tier with an
    active subscription though its last event was the cancellation. *)
Theorem late_redelivery_undoes_a_cancellation :
  let '(c1, p1, (db1, _)) := ex_serve 100 ex_activate (ex_bdb, [Works; Works; FailsBefore]) in
  let '(c2, p2, (db2, _)) := ex_serve 200 ex_cancel (db1, []) in
  let '(c3, p3, (db3, _)) := ex_serve 300 ex_activate (db2, []) in
  (c1, p1) = (500, PlanTier3) /\ (c2, p2) = (200, PlanTier1) /\ (c3, p3) = (200, PlanTier3) /\
  option_map (fun r => sb_Status (sr_sub r)) (subscriptions db3 !! 7) = Some "active" /\ processed ex_cancel db3 = true.
Proof. vm_compute. repeat split. Qed.

Lemma ex_bdb_keyed : keyed ex_bdb.
Proof. intros k r. done. Qed.

Lemma webhook_takes_effect_once_witness :
  exists t db' fs', t ∈ [100; 200; 300] /\
    deliver all_json [100; 200; 300] "{}" ex_activate (ex_bdb, [Works; FailsAfter; Works; Works; FailsAfter]) = (200, (db', fs')) /\
    db' ≈ (db_act all_json t ex_activate ex_bdb).2 /\
    forall fs2 times' fs3, let db2 := (ingest_all all_json [(400, "{}", ex_cancel)] (db', fs2)).1 in
      (deliver all_json times' "{}" ex_activate (db2, fs3)).2.1 ≈ db2.
Proof.
  destruct (webhook_takes_effect_once all_json "{}" ex_activate ex_bdb [Works; FailsAfter; Works; Works; FailsAfter] [100; 200; 300] 0)
    as (t & db' & fs' & Ht & Hd & Hv & _ & Hlater);
    [done|apply ex_bdb_keyed|by left|vm_compute; reflexivity|vm_compute; reflexivity|simpl; lia|].
  exists t, db', fs'. split; [done|]. split; [done|]. split; [done|]. intros fs2 times' fs3. apply Hlater. vm_compute. reflexivity.
Defined.

Definition ex_hmac (k m : string) : string := k +:+ m +:+ "!".
Definition ex_envelope (body : string) : option stubEnvelope :=
  if String.eqb body "" then None
  else Some (mkStubEnvelope "evt_1" "subscription.created" 7 "cus_1" "sub_1" "pri_1" "tier2" "monthly" "active" None false None).
Definition ex_stub : Provider := Stub ex_hmac ex_envelope id "s3cret".

Lemma webhook_changes_only_verified_witness :
  (ServeHTTP (EventApplier0 := faulty_applier (db_applier all_json)) ex_stub 100 "stub" true "{}" (fun _ => "ts=1;h1=00") (ex_bdb, [])).1 = 401.
Proof.
  apply (webhook_changes_only_verified all_json ex_stub 100 "stub" true "{}" (fun _ => "ts=1;h1=00") ex_bdb []);
    [vm_compute; reflexivity|reflexivity|reflexivity|vm_compute; discriminate].
Defined.

Lemma ex_bdb_bwf : bwf ex_bdb.
Proof.
  apply bwf_alt. split; [apply map_Forall_empty|]. split; [apply map_Forall_empty|].
  split; [intros k [r Hr]; done|]. split; [apply map_Forall_empty|]. simpl.
  apply map_Forall_singleton. reflexivity.
Qed.

Lemma billing_tables_well_formed_witness :
  bwf (CancelAdminOrgSubscription {["ops@pulse.test"]} id None 200 (Some (ActorHuman, "ops@pulse.test")) "7" true
    (ServeHTTP (EventApplier0 := faulty_applier (db_applier all_json)) ex_stub 100 "stub" true "{}"
       (fun _ => SignStubWebhook ex_hmac "s3cret" "1" "{}") (ex_bdb, [])).2.1).1.2.
Proof.
  eapply (billing_tables_well_formed all_json {["ops@pulse.test"]} id None ex_bdb).
  - eapply rtc_l; [apply (step_webhook _ _ _ _ _ ex_stub 100 "stub" true "{}" (fun _ => SignStubWebhook ex_hmac "s3cret" "1" "{}") [])|].
    eapply rtc_once. apply step_cancel.
  - apply ex_bdb_bwf.
Defined.

(** Org 7 with a subscription that ended at 200, and a trailing event of the same status. *)
Definition ex_lapsed : BDB := (ex_serve 200 ex_cancel (ex_bdb, [])).2.1.
Definition ex_trailing : BDB :=
  (ServeHTTP (EventApplier0 := faulty_applier (db_applier all_json))
     (Stub ex_hmac (fun _ => Some (mkStubEnvelope "evt_9" "subscription.updated" 7 "cus_1" "sub_1" "pri_1" "tier2" "monthly" "past_due" None false None))
        id "s3cret") 900 "stub" true "{}" (fun _ => SignStubWebhook ex_hmac "s3cret" "1" "{}") (ex_lapsed, [])).2.1.

Lemma trial_window_anchored_witness : lapsed 7 ex_trailing = Some (Some 200).
Proof.
  apply (trial_window_anchored all_json ∅ id None 7 ex_lapsed ex_trailing (Some 200)); [vm_compute; reflexivity|].
  apply rtc_once. split; [apply step_webhook|]. vm_compute. eexists. reflexivity.
Defined.

Definition ex_rows : list PlanPrice :=
  [mkPlanPrice "paddle" "tier2" "monthly" "pri_2m" true 14 "{}"; mkPlanPrice "paddle" "tier2" "monthly" "pri_2n" false 0 "{}";
   mkPlanPrice "paddle" "tier3" "annual" "pri_3a" true 14 "{}"].

Lemma checkout_grants_the_plan_bought_witness :
  let '(r, db') := db_act all_json 50 (mapSubscription (paddle_New map_to_list (PriceMaps ex_rows).1 (PriceMaps ex_rows).2)
      (mkSubscriptionData "sub_1" "active" "ctm_1" (Some (CVString (pretty 7))) None None ["pri_2n"])
      (paddle_event "evt" "subscription.created" EventKindSubscription)) ex_bdb in
  r = Ok tt /\ orgPlan 7 (accounts db') = PlanTier2 /\
  exists row, subscriptions db' !! 7 = Some row /\ sb_Plan (sr_sub row) = PlanTier2 /\ sb_BillingCycle (sr_sub row) = "monthly" /\
    sb_ProviderPriceID (sr_sub row) = "pri_2n".
Proof.
  apply (checkout_grants_the_plan_bought all_json ex_rows map_to_list PlanTier2 "monthly" false "pri_2n" 7 (ex_org "tier1")
    (mkSubscriptionData "sub_1" "active" "ctm_1" (Some (CVString (pretty 7))) None None ["pri_2n"]) "evt" "subscription.created" 50 ex_bdb).
  - intros r Hr. unfold ex_rows in Hr. rewrite !elem_of_cons, elem_of_nil in Hr. by destruct_or! Hr; subst; repeat split.
  - intros r1 r2 H1 H2. unfold ex_rows in *. rewrite !elem_of_cons, elem_of_nil in H1, H2.
    by destruct_or! H1; destruct_or! H2; subst.
  - done.
  - by left.
  - vm_compute. reflexivity.
  - lia.
  - reflexivity.
  - reflexivity.
  - reflexivity.
  - done.
Defined.

Lemma stub_signature_roundtrip_witness :
  stub_VerifyWebhook ex_hmac ex_envelope "s3cret" "{}" (SignStubWebhook ex_hmac "s3cret" "1718000000" "{}") =
    match ex_envelope "{}" with Some env => Ok (stub_event "stub" env) | None => Err ErrMalformed end.
Proof.
  apply (stub_signature_roundtrip ex_hmac ex_envelope "s3cret" "1718000000" "{}"); [reflexivity|done|].
  intros k m. unfold ex_hmac. destruct k, m; done.
Defined.

Lemma missing_org_event_never_acknowledged_witness :
  (deliver all_json [1; 2; 3] "{}" (ex_sub_event "evt_1" "active" "tier2" 8) (ex_bdb, [Works; FailsAfter])).1 = 0.
Proof.
  apply (missing_org_event_never_acknowledged all_json "{}" (ex_sub_event "evt_1" "active" "tier2" 8) ex_bdb [Works; FailsAfter] [1; 2; 3]);
    reflexivity || discriminate.
Defined.
