(* ===== verification/MonitorApi.v ===== *)
(** * MonitorApi: the monitor handlers (src/internal/api/monitors.go; the cache
    operations of src/internal/kv/kv.go)

    The validation of a monitor against the plan, the handlers that create, read, update,
    delete and check a monitor over [Store], and the manual-check limit over Redis.
    URL parsing, [net.SplitHostPort], [strings.ToLower] and the quoting of [%q] are
    parameters. *)

From S2P Require Import Prelude Domain GoStrings Store CheckState Scheduler Entitlements Authz Members.
Open Scope Z_scope.

(** ** Requests and responses *)

Record MonitorHeader := mkMonitorHeader { mh_Key : string; mh_Value : option string; mh_Secret : bool }.

Record MonitorInput := mkMonitorInput {
  mi_Type : string;
  mi_Name : string;
  mi_Url : string;
  mi_Method : string;
  mi_Headers : list MonitorHeader;
  mi_Body : string;
  mi_ExpectedStatusCodes : string;
  mi_TimeoutSeconds : Z;
  mi_IntervalSeconds : Z;
  mi_Enabled : bool;
  mi_MaxLatencyMs : option Z;
  mi_BodyContains : option string;
  mi_FailureThreshold : Z;
  mi_NotificationChannelIds : list string;
  mi_Regions : list string;
  mi_DownPolicy : string;
}.

(** The API's Monitor: an input with its ids. *)
Record MonitorDTO := mkMonitorDTO { dto_Id : string; dto_OrgId : string; dto_Fields : MonitorInput }.

Definition maxMonitorNameLen : Z := 200.
Definition maxBodyContainsLen : Z := 1000.
Definition maxBodyBytes : Z := 2 ^ 20.
Definition maxHeaders : Z := 50.
Definition sslIntervalSeconds : Z := 86400.
Definition sslTimeoutSeconds : Z := 10.

Definition slen (s : string) : Z := Z.of_nat (String.length s).

(** The wire strings of the enumerations. *)
Definition type_text (t : MonitorType) : string :=
  match t with MonitorHTTP => "http" | MonitorSSL => "ssl" | MonitorUnset => "" | MonitorOther => "?" end.
Definition parse_type (s : string) : MonitorType :=
  if String.eqb s "" then MonitorHTTP
  else if String.eqb s "http" then MonitorHTTP else if String.eqb s "ssl" then MonitorSSL else MonitorOther.
Definition policy_text (p : DownPolicy) : string :=
  match p with DownPolicyAny => "any" | DownPolicyQuorum => "quorum" | DownPolicyAll => "all" | DownPolicyUnset => "" end.
(** [None]: a string that is no policy. *)
Definition parse_policy (s : string) : option DownPolicy :=
  if String.eqb s "" then Some DownPolicyQuorum
  else if String.eqb s "any" then Some DownPolicyAny
  else if String.eqb s "quorum" then Some DownPolicyQuorum
  else if String.eqb s "all" then Some DownPolicyAll else None.

(** ** Validation *)

Definition validMethod (m : string) : bool :=
  existsb (String.eqb m) ["GET"; "POST"; "PUT"; "PATCH"; "DELETE"; "HEAD"].
Definition bodyAllowed (m : string) : bool := existsb (String.eqb m) ["POST"; "PUT"; "PATCH"].
Definition validDownPolicy (d : option DownPolicy) : bool := bool_decide (d <> None).

(** One token of the list: blank, a class, or a code. *)
Definition valid_token (tok : string) : bool :=
  if existsb (String.eqb (ToLowerASCII tok)) ["2xx"; "3xx"; "4xx"; "5xx"; "1xx"] then true
  else match Atoi tok with Some n => (100 <=? n) && (n <=? 599) | None => false end.

Definition validExpectedStatusCodes (raw : string) : bool :=
  let toks := filter (fun t => t <> "") (TrimSpace <$> Split "," raw) in
  forallb valid_token toks && bool_decide (toks <> []).

(** [strings.ContainsAny(raw, "/ ")]. *)
Fixpoint contains_slash_or_space (s : string) : bool :=
  match s with EmptyString => false | String a r => Ascii.eqb a "/" || Ascii.eqb a " " || contains_slash_or_space r end.

Fixpoint parse_channel_ids (l : list string) : option (list Z) :=
  match l with
  | [] => Some []
  | raw :: l' =>
      match Atoi raw with
      | Some n => match parse_channel_ids l' with Some ns => Some (n :: ns) | None => None end
      | None => None
      end
  end.

Definition parseChannelIDs (l : list string) : list Z * string :=
  match parse_channel_ids l with Some ns => (ns, "") | None => ([], "notification_channel_ids must be channel ids") end.

Definition belowFloorMessage (floor : Z) : string :=
  "your plan's minimum check interval is " +:+ pretty floor +:+ " seconds".

(** The error of a field, if its message is not empty, in front of the others. *)
Definition field (name msg : string) (errs : gmap string string) : gmap string string :=
  if String.eqb msg "" then errs else <[name := msg]> errs.

Section validation.
(** [url.Parse] as scheme and host (an absolute URL has a scheme), [net.SplitHostPort]. *)
Context (parse_url : string -> option (string * string)) (SplitHostPort : string -> option (string * string)).
Context (ToLower Quote : string -> string).

Definition validURL (raw : string) : bool :=
  match parse_url raw with
  | None => false
  | Some (scheme, host) =>
      (String.eqb scheme "http" || String.eqb scheme "https") && negb (String.eqb host "")
  end.

Definition validSSLTarget (raw0 : string) : bool :=
  let raw := TrimSpace raw0 in
  if String.eqb raw "" then false
  else
    match parse_url raw with
    | Some (String a scheme, host) => negb (String.eqb host "")
    | _ =>
        if contains_slash_or_space raw then false
        else match SplitHostPort raw with Some (host, _) => negb (String.eqb host "") | None => true end
    end.

(** The loop over the headers; [seen] holds the lowered keys. *)
Fixpoint validate_headers (l : list MonitorHeader) (seen : gset string) : result string (list Header) :=
  match l with
  | [] => Ok []
  | h :: l' =>
      let key := TrimSpace (mh_Key h) in
      if String.eqb key "" then Err "header keys cannot be empty"
      else if bool_decide (ToLower key ∈ seen) then Err "header keys must be unique"
      else
        hs ← validate_headers l' ({[ ToLower key ]} ∪ seen);
        Ok (mkHeader key (default "" (mh_Value h)) (mh_Secret h) :: hs)
  end.

Definition validateHeaders (l : list MonitorHeader) : list Header * string :=
  if maxHeaders <? Z.of_nat (length l) then ([], "at most " +:+ pretty maxHeaders +:+ " headers are allowed")
  else match validate_headers l ∅ with Ok hs => (hs, "") | Err e => ([], e) end.

Definition regionNotInPlanMessage (region : string) : string :=
  "region " +:+ Quote region +:+ " is not included in your plan".

Fixpoint validate_regions (l : list string) (seen : gset string) (limits : MonitorLimits) : result string (list string) :=
  match l with
  | [] => Ok []
  | r :: l' =>
      let region := TrimSpace r in
      if String.eqb region "" then Err "region codes cannot be empty"
      else if bool_decide (region ∈ seen) then Err "regions must not contain duplicates"
      else if negb (AllowsRegion limits region) then Err (regionNotInPlanMessage region)
      else rs ← validate_regions l' ({[ region ]} ∪ seen) limits; Ok (region :: rs)
  end.

Definition validateRegions (l : list string) (limits : MonitorLimits) : list string * string :=
  match l with
  | [] => ([], "at least one region is required")
  | _ =>
      match validate_regions l ∅ limits with
      | Err e => ([], e)
      | Ok rs =>
          if ml_RegionsPerMonitorCap limits <? Z.of_nat (length rs)
          then ([], "your plan allows at most " +:+ pretty (ml_RegionsPerMonitorCap limits) +:+ " regions per monitor")
          else (rs, "")
      end
  end.

Definition name_error (name : string) : string :=
  if String.eqb name "" then "name is required"
  else if maxMonitorNameLen <? slen name then "name must be at most " +:+ pretty maxMonitorNameLen +:+ " characters"
  else "".

Definition url_error (isSSL : bool) (url : string) : string :=
  if isSSL then if validSSLTarget url then "" else "url must be a host (https URL or host[:port])"
  else if validURL url then "" else "url must be an absolute http or https URL with a host".

Definition body_error (method body : string) : string :=
  if String.eqb body "" then ""
  else if negb (bodyAllowed method) then "body is only allowed for POST, PUT, or PATCH"
  else if maxBodyBytes <? slen body then "body is too large" else "".

(** The switch over the interval: the hard floor, the timeout, the plan's floor. *)
Definition interval_error (limits : MonitorLimits) (interval timeout : Z) : string :=
  let floor := EffectiveIntervalFloor limits in
  if interval <? HardIntervalFloorSeconds then "interval_seconds must be at least " +:+ pretty HardIntervalFloorSeconds
  else if (1 <=? timeout) && (timeout <=? 60) && (interval <? timeout)
  then "interval_seconds must be greater than or equal to timeout_seconds"
  else if interval <? floor then belowFloorMessage floor
  else "".

(** The error of expected_status_codes: a bad list, or nothing to assert at all. *)
Definition expected_error (expected : string) (bodyContains : option string) (maxLatency : option Z) : string :=
  let hasBodyContains := match bodyContains with Some b => negb (String.eqb (TrimSpace b) "") | None => false end in
  let hasMaxLatency := match maxLatency with Some n => 0 <? n | None => false end in
  if negb (String.eqb expected "") && negb (validExpectedStatusCodes expected)
  then "expected_status_codes must be codes (100..599) and/or 2xx/3xx/4xx/5xx"
  else if String.eqb expected "" && negb hasBodyContains && negb hasMaxLatency
  then "set at least one assertion: expected status codes, body contains, or max latency"
  else "".

Definition when (b : bool) (msg : string) : string := if b then msg else "".

(** The fields both kinds share, the fields of an http monitor, and the whole map. *)
Definition common_errors (i : MonitorInput) : gmap string string :=
  let typ := parse_type (mi_Type i) in
  field "type" (when (bool_decide (typ = MonitorOther)) "type must be one of http, ssl")
  (field "name" (name_error (TrimSpace (mi_Name i)))
  (field "url" (url_error (bool_decide (typ = MonitorSSL)) (mi_Url i))
  (field "notification_channel_ids" (parseChannelIDs (mi_NotificationChannelIds i)).2 ∅))).

Definition http_errors (i : MonitorInput) (limits : MonitorLimits) (errs : gmap string string) : gmap string string :=
  let method := if String.eqb (mi_Method i) "" then "GET" else mi_Method i in
  let timeout := mi_TimeoutSeconds i in
  field "method" (when (negb (validMethod method)) "method must be one of GET, POST, PUT, PATCH, DELETE, HEAD")
  (field "body" (body_error method (mi_Body i))
  (field "expected_status_codes" (expected_error (TrimSpace (mi_ExpectedStatusCodes i)) (mi_BodyContains i) (mi_MaxLatencyMs i))
  (field "timeout_seconds" (when ((timeout <? 1) || (60 <? timeout)) "timeout_seconds must be between 1 and 60")
  (field "interval_seconds" (interval_error limits (mi_IntervalSeconds i) timeout)
  (field "max_latency_ms" (when (match mi_MaxLatencyMs i with Some n => n <=? 0 | None => false end)
     "max_latency_ms must be a positive integer")
  (field "body_contains" (when (match mi_BodyContains i with Some b => maxBodyContainsLen <? slen b | None => false end)
     ("body_contains must be at most " +:+ pretty maxBodyContainsLen +:+ " characters"))
  (field "failure_threshold" (when (mi_FailureThreshold i <? 1) "failure_threshold must be at least 1")
  (field "headers" (validateHeaders (mi_Headers i)).2
  (field "down_policy" (when (negb (validDownPolicy (parse_policy (mi_DownPolicy i)))) "down_policy must be one of any, quorum, all")
  (field "regions" (validateRegions (mi_Regions i) limits).2 errs)))))))))).

(** An invalid policy is reported, so the policy of the returned monitor is then not used. *)
Definition monitorFromInput (orgID id : Z) (i : MonitorInput) (limits : MonitorLimits) : Monitor * gmap string string :=
  let typ := parse_type (mi_Type i) in
  let isSSL := bool_decide (typ = MonitorSSL) in
  let channels := (parseChannelIDs (mi_NotificationChannelIds i)).1 in
  let name := TrimSpace (mi_Name i) in
  if isSSL then
    (mkMonitor id orgID typ name (mi_Url i) "GET" [] "" "200" sslTimeoutSeconds sslIntervalSeconds (mi_Enabled i)
       None None 1 [region_Default] DownPolicyAny channels,
     common_errors i)
  else
    (mkMonitor id orgID typ name (mi_Url i) (if String.eqb (mi_Method i) "" then "GET" else mi_Method i)
       (validateHeaders (mi_Headers i)).1 (mi_Body i) (TrimSpace (mi_ExpectedStatusCodes i)) (mi_TimeoutSeconds i)
       (mi_IntervalSeconds i) (mi_Enabled i) (mi_MaxLatencyMs i) (mi_BodyContains i) (mi_FailureThreshold i)
       (validateRegions (mi_Regions i) limits).1 (default DownPolicyUnset (parse_policy (mi_DownPolicy i))) channels,
     http_errors i limits (common_errors i)).
End validation.

(** ** Mapping *)

Definition header_dto (h : Header) : MonitorHeader :=
  mkMonitorHeader (h_Key h) (if h_Secret h then None else Some (h_Value h)) (h_Secret h).

Definition monitorDTO (m : Monitor) : MonitorDTO :=
  mkMonitorDTO (pretty (m_ID m)) (pretty (m_OrgID m))
    (mkMonitorInput (type_text (m_Type m)) (m_Name m) (m_URL m) (m_Method m) (header_dto <$> m_Headers m) (m_Body m)
       (m_ExpectedStatusCodes m) (m_TimeoutSeconds m) (m_IntervalSeconds m) (m_Enabled m) (m_MaxLatencyMs m)
       (m_BodyContains m) (m_FailureThreshold m) (pretty <$> m_ChannelIDs m) (m_Regions m) (policy_text (m_DownPolicy m))).

(** [lastCheckedAt.Add(time.Duration(intervalSeconds) * time.Second)]. *)
Definition nextCheckAt (enabled : bool) (lastCheckedAt : option Time) (intervalSeconds : Z) : option Time :=
  if negb enabled then None
  else match lastCheckedAt with Some t => Some (t + wrap64 (intervalSeconds * Second)) | None => None end.

Record MonitorListRow := mkMonitorListRow {
  ml_Monitor : Monitor; ml_LastCheckedAt : option Time; ml_LastLatencyMs : option Z; ml_LastHealthy : option bool; ml_IncidentOpen : bool;
  ml_CertExpiresAt : option Time;
}.
Record MonitorListItem := mkMonitorListItem {
  li_Id : string; li_Type : string; li_Name : string; li_Url : string; li_Enabled : bool; li_Status : Status;
  li_LastCheckAt : option Time; li_NextCheckAt : option Time; li_IntervalSeconds : Z; li_LastLatencyMs : option Z;
  li_IncidentOpen : bool; li_CertExpiresAt : option Time;
}.

Definition monitorListItemDTO (row : MonitorListRow) (intervalFloor : Z) : MonitorListItem :=
  let m := ml_Monitor row in
  let status := DeriveStatus (m_Enabled m) (bool_decide (ml_LastCheckedAt row <> None)) (ml_IncidentOpen row) in
  let eff := if m_IntervalSeconds m <? intervalFloor then intervalFloor else m_IntervalSeconds m in
  mkMonitorListItem (pretty (m_ID m)) (type_text (m_Type m)) (m_Name m) (m_URL m) (m_Enabled m) status (ml_LastCheckedAt row)
    (nextCheckAt (m_Enabled m) (ml_LastCheckedAt row) eff) eff (ml_LastLatencyMs row) (ml_IncidentOpen row) (ml_CertExpiresAt row).

Definition parseMonitorID (raw : string) : option Z :=
  match Atoi raw with Some id => if id <=? 0 then None else Some id | None => None end.

Definition rangeSince (now : Time) (r : option string) : Time :=
  match r with
  | Some "7d" => now - 7 * 24 * Hour
  | Some "90d" => now - 90 * 24 * Hour
  | _ => now - 24 * Hour
  end.

(** ** The manual-check limit *)

Class CheckNowGate (G : Type) := {
  cg_SetIfAbsent : Time -> string -> string -> Duration -> G -> result kvError bool * G;
  cg_TTL : Time -> string -> G -> result kvError Duration;
  cg_Incr : Time -> string -> G -> result kvError Z * G;
  cg_Expire : Time -> string -> Duration -> G -> result kvError unit * G;
  cg_GetCache : Time -> string -> G -> result kvError (option string);
}.

Record rateDecision := mkRate {
  rt_allowed : bool; rt_retryAfter : Z; rt_limit : string; rt_scope : string; rt_max : Z; rt_windowSeconds : Z;
}.
Definition rate_ok : rateDecision := mkRate true 0 "" "" 0 0.

Section gate.
Context {G : Type} `{!CheckNowGate G}.

(** Whole seconds, towards zero as the float conversion truncates, and at least one. *)
Definition retryAfterFrom (now : Time) (key : string) (full : Duration) (g : G) : Z :=
  let remaining := match cg_TTL now key g with Ok ttl => if 0 <? ttl then ttl else full | Err _ => full end in
  Z.max 1 (Z.quot remaining Second).

Definition cdKey (orgID monitorID : Z) : string := "checknow:cd:" +:+ pretty orgID +:+ ":" +:+ pretty monitorID.
Definition winKey (orgID : Z) : string := "checknow:win:" +:+ pretty orgID.

(** The peek at the org's window: whether its budget is spent. *)
Definition window_spent (now : Time) (orgID : Z) (lim : CheckNowLimits) (g : G) : bool :=
  match cg_GetCache now (winKey orgID) g with
  | Ok (Some v) => match Atoi v with Some n => cn_MaxPerWindow lim <=? n | None => false end
  | _ => false
  end.

Definition window_denied (now : Time) (orgID : Z) (lim : CheckNowLimits) (g : G) : rateDecision :=
  mkRate false (retryAfterFrom now (winKey orgID) (cn_WindowSeconds lim * Second) g) "window" "org"
    (cn_MaxPerWindow lim) (cn_WindowSeconds lim).

Definition checkNowAllowed (now : Time) (orgID monitorID : Z) (lim : CheckNowLimits) (g : G) : rateDecision * G :=
  let window := cn_WindowSeconds lim * Second in
  let cooldown := cn_CooldownSeconds lim * Second in
  if window_spent now orgID lim g then (window_denied now orgID lim g, g)
  else
    match cg_SetIfAbsent now (cdKey orgID monitorID) "1" cooldown g with
    | (Err _, g1) => (rate_ok, g1)
    | (Ok false, g1) =>
        (mkRate false (retryAfterFrom now (cdKey orgID monitorID) cooldown g1) "burst" "monitor" 1 (cn_CooldownSeconds lim), g1)
    | (Ok true, g1) =>
        match cg_Incr now (winKey orgID) g1 with
        | (Err _, g2) => (rate_ok, g2)
        | (Ok n, g2) =>
            let g3 := if n =? 1 then (cg_Expire now (winKey orgID) window g2).2 else g2 in
            if cn_MaxPerWindow lim <? n then (window_denied now orgID lim g3, g3) else (rate_ok, g3)
        end
    end.
End gate.

(** Redis: a key holds a value and, if it expires, when. *)
Abbreviation Redis := (gmap string (string * option Time)).

Definition live_at (now : Time) (k : string) (r : Redis) : option (string * option Time) :=
  match r !! k with
  | Some (v, Some e) => if now <? e then Some (v, Some e) else None
  | o => o
  end.

(** SET NX EX, TTL (in whole seconds, rounded; -1 ns without expiry and -2 ns without key, as the
    client returns them), INCR (which keeps the expiry and refuses a value that is no integer), EXPIRE, GET. *)
Definition SetIfAbsent (now : Time) (k v : string) (ttl : Duration) (r : Redis) : result kvError bool * Redis :=
  match live_at now k r with
  | Some _ => (Ok false, r)
  | None => (Ok true, <[k := (v, if ttl <=? 0 then None else Some (now + ttl))]> r)
  end.
Definition redis_TTL (now : Time) (k : string) (r : Redis) : result kvError Duration :=
  Ok (match live_at now k r with Some (_, Some e) => (((e - now) / 1000000 + 500) / 1000) * Second | Some (_, None) => -1 | None => -2 end).
Definition Incr (now : Time) (k : string) (r : Redis) : result kvError Z * Redis :=
  match live_at now k r with
  | None => (Ok 1, <[k := ("1", None)]> r)
  | Some (v, e) =>
      match Atoi v with
      | Some n => if n =? 2 ^ 63 - 1 then (Err ErrRedis, r) else (Ok (n + 1), <[k := (pretty (n + 1), e)]> r)
      | None => (Err ErrRedis, r)
      end
  end.
Definition redis_Expire (now : Time) (k : string) (ttl : Duration) (r : Redis) : result kvError unit * Redis :=
  match live_at now k r with
  | Some (v, _) => (Ok tt, if ttl <=? 0 then delete k r else <[k := (v, Some (now + ttl))]> r)
  | None => (Ok tt, r)
  end.
Definition GetCache (now : Time) (k : string) (r : Redis) : result kvError (option string) :=
  Ok (match live_at now k r with Some (v, _) => Some v | None => None end).

#[export] Instance redis_gate : CheckNowGate Redis := {|
  cg_SetIfAbsent := SetIfAbsent; cg_TTL := redis_TTL; cg_Incr := Incr; cg_Expire := redis_Expire; cg_GetCache := GetCache;
|}.

(** ** Handlers *)

Inductive MResponse :=
  | Plain (r : Response)
  | Invalid (fields : gmap string string)
  | WithMonitor (r : Response) (m : MonitorDTO) (cert : option CertInfo)
  | Accepted (regions : list string)
  | RateLimited (d : rateDecision).

Inductive monitorAction := authzView | authzManage.
Definition canMonitor (q : Principal) (actor : Actor) (action : monitorAction) : Authz.Decision :=
  Can actor (match action with authzManage => ActionManageMonitors | authzView => ActionViewMonitoring end)
    (org_resource (pr_OrgID q)).

Definition MHandled : Type := MResponse * DB * list (Z * Z).

(** The gate every handler starts with: a member of the org, with the action's right. *)
Definition with_right (p : option Principal) (action : monitorAction) (db : DB) (k : Principal -> MHandled) : MHandled :=
  match humanInOrg p with
  | None => (Plain R401, db, [])
  | Some (q, actor) =>
      let d := canMonitor q actor action in
      if negb (de_Allowed d) then (Plain (R403 (de_Reason d)), db, []) else k q
  end.

Section handlers.
Context (parse_url : string -> option (string * string)) (SplitHostPort : string -> option (string * string)).
Context (ToLower Quote : string -> string) (cipher : option secretCipher).

Definition monitorLimits_of (orgID : Z) (accounts : MDB) : MonitorLimits :=
  MonitorLimits_for orgID (orgPlan orgID accounts).

(** The INT columns refuse a value that does not fit 32 bits; the request then fails. *)
Definition int4 (z : Z) : bool := (- 2 ^ 31 <=? z) && (z <? 2 ^ 31).
Definition fits_columns (m : Monitor) : bool :=
  int4 (m_TimeoutSeconds m) && int4 (m_IntervalSeconds m) && int4 (m_FailureThreshold m) &&
  match m_MaxLatencyMs m with Some n => int4 n | None => true end.

(** At the cap of enabled monitors. *)
Definition at_cap (orgID : Z) (limits : MonitorLimits) (db : DB) : bool :=
  match (CountEnabledMonitors orgID db).1 with
  | Ok used => ml_MonitorsCap limits <=? used
  | Err _ => false
  end.

(** The third component lists the monitor.changed signals (org, monitor). *)
Definition CreateMonitor (nonce : Z) (accounts : MDB) (p : option Principal) (body : option MonitorInput) (db : DB) : MHandled :=
  with_right p authzManage db (fun q =>
    match body with
    | None => (Plain (R422 "body required"), db, [])
    | Some i =>
        let limits := monitorLimits_of (pr_OrgID q) accounts in
        let '(m, errs) := monitorFromInput parse_url SplitHostPort ToLower Quote (pr_OrgID q) 0 i limits in
        if negb (bool_decide (errs = ∅)) then (Invalid errs, db, [])
        else if m_Enabled m && at_cap (pr_OrgID q) limits db then (Plain (R402 (ml_MonitorsCap limits)), db, [])
        else if negb (fits_columns m) then (Plain R500, db, [])
        else
          match Store.CreateMonitor cipher nonce m db with
          | (Err _, db') => (Plain R500, db', [])
          | (Ok id, db') => (WithMonitor R201 (monitorDTO (monitor_defaults id m)) None, db', [(pr_OrgID q, id)])
          end
    end).

Definition GetMonitor (p : option Principal) (id : string) (db : DB) : MHandled :=
  with_right p authzView db (fun q =>
    match parseMonitorID id with
    | None => (Plain R404, db, [])
    | Some mid =>
        match Store.GetMonitor cipher (pr_OrgID q) mid db with
        | (Err ErrNoRows, _) => (Plain R404, db, [])
        | (Err _, _) => (Plain R500, db, [])
        | (Ok m, _) =>
            if bool_decide (m_Type m = MonitorSSL) then
              match (Store.GetMonitorCert (pr_OrgID q) mid db).1 with
              | Err _ => (Plain R500, db, [])
              | Ok cert => (WithMonitor R200 (monitorDTO m) cert, db, [])
              end
            else (WithMonitor R200 (monitorDTO m) None, db, [])
        end
    end).

Definition UpdateMonitor (nonce : Z) (accounts : MDB) (p : option Principal) (id : string) (body : option MonitorInput)
    (db : DB) : MHandled :=
  with_right p authzManage db (fun q =>
    match body with
    | None => (Plain (R422 "body required"), db, [])
    | Some i =>
        match parseMonitorID id with
        | None => (Plain R404, db, [])
        | Some mid =>
            match Store.GetMonitor cipher (pr_OrgID q) mid db with
            | (Err ErrNoRows, _) => (Plain R404, db, [])
            | (Err _, _) => (Plain R500, db, [])
            | (Ok existing, _) =>
                let limits := monitorLimits_of (pr_OrgID q) accounts in
                let '(m, errs) := monitorFromInput parse_url SplitHostPort ToLower Quote (pr_OrgID q) mid i limits in
                if negb (bool_decide (errs = ∅)) then (Invalid errs, db, [])
                else if m_Enabled m && negb (m_Enabled existing) && at_cap (pr_OrgID q) limits db
                then (Plain (R402 (ml_MonitorsCap limits)), db, [])
                else if negb (fits_columns m) then (Plain R500, db, [])
                else
                  match Store.UpdateMonitor cipher nonce m db with
                  | (Err ErrNoRows, db') => (Plain R404, db', [])
                  | (Err _, db') => (Plain R500, db', [])
                  | (Ok updated, db') => (WithMonitor R200 (monitorDTO updated) None, db', [(pr_OrgID q, m_ID updated)])
                  end
            end
        end
    end).

Definition DeleteMonitor (p : option Principal) (id : string) (db : DB) : MHandled :=
  with_right p authzManage db (fun q =>
    match parseMonitorID id with
    | None => (Plain R204, db, [])
    | Some mid =>
        match Store.DeleteMonitor (pr_OrgID q) mid db with
        | (Err _, db') => (Plain R500, db', [])
        | (Ok _, db') => (Plain R204, db', [(pr_OrgID q, mid)])
        end
    end).

(** [CheckNow]: the limiter, the live state and the bus are optional; [PublishCheckJob]
    says which sends succeed.  It returns the gate, the live state and the jobs. *)
Section check_now.
Context {G S : Type} `{!CheckNowGate G} `{!HashStore S} (marshal : RegionState -> string).
Context (PublishCheckJob : CheckJob -> bool).

Definition checknow_job (now : Time) (orgID : Z) (m : Monitor) (region : string) : CheckJob :=
  mkJob ("checknow:" +:+ pretty (m_ID m) +:+ ":" +:+ region +:+ ":" +:+ pretty (now / Second)) orgID region now m.

(** The loop over the regions, which stops at the first failure. *)
Fixpoint fan_out (now : Time) (orgID : Z) (m : Monitor) (jobs : bool) (regions : list string) (st : option S) :
    bool * list CheckJob * option S :=
  match regions with
  | [] => (true, [], st)
  | region :: regions' =>
      let '(ok, st1) := match st with
                        | None => (true, None)
                        | Some s => let '(r, s') := SetScheduled marshal now (m_ID m) region (m_IntervalSeconds m) s in (is_ok r, Some s')
                        end in
      if negb ok then (false, [], st1)
      else if negb jobs then fan_out now orgID m jobs regions' st1
      else
        let job := checknow_job now orgID m region in
        if negb (PublishCheckJob job) then (false, [], st1)
        else let '(done, js, st2) := fan_out now orgID m jobs regions' st1 in (done, job :: js, st2)
  end.

Definition checknow_regions (m : Monitor) : list string := match m_Regions m with [] => [region_Default] | rs => rs end.

Definition CheckNow (now : Time) (accounts : MDB) (p : option Principal) (id : string) (db : DB)
    (gate : option G) (jobs : bool) (st : option S) : MResponse * option G * list CheckJob * option S :=
  match humanInOrg p with
  | None => (Plain R401, gate, [], st)
  | Some (q, actor) =>
      let d := canMonitor q actor authzManage in
      if negb (de_Allowed d) then (Plain (R403 (de_Reason d)), gate, [], st)
      else
        let plan := orgPlan (pr_OrgID q) accounts in
        if bool_decide (pr_Kind q = ActorAPIKey) && negb (APIWriteAllowed plan)
        then (Plain (R403 "api_write_not_allowed"), gate, [], st)
        else
          match parseMonitorID id with
          | None => (Plain R404, gate, [], st)
          | Some mid =>
              match (Store.GetMonitor cipher (pr_OrgID q) mid db).1 with
              | Err ErrNoRows => (Plain R404, gate, [], st)
              | Err _ => (Plain R500, gate, [], st)
              | Ok m =>
                  if negb (m_Enabled m) then (Plain (R409 "monitor_disabled"), gate, [], st)
                  else
                    let '(dec, gate') :=
                      match gate with
                      | None => (rate_ok, None)
                      | Some g => let '(dec, g') := checkNowAllowed now (pr_OrgID q) (m_ID m) (CheckNowLimitsFor plan) g in (dec, Some g')
                      end in
                    if negb (rt_allowed dec) then (RateLimited dec, gate', [], st)
                    else
                      let '(done, js, st') := fan_out now (pr_OrgID q) m jobs (checknow_regions m) st in
                      (if done then Accepted (checknow_regions m) else Plain R500, gate', js, st')
              end
          end
  end.
End check_now.
End handlers.
