(* ===== verification/MonitorApiInv.v ===== *)
(** * MonitorApiInv: what the monitor api guarantees

    Accepted monitors are well formed and within the plan, stored ones stay well formed,
    a monitor survives being read and written back but for its secrets, the two readers of
    expected_status_codes agree, and manual checks are bounded in time. *)

From S2P Require Import Prelude Domain GoStrings StatusCodes Store StoreInv CheckState Scheduler Entitlements Authz Members MonitorApi.
Open Scope Z_scope.

(** ** Well-formed monitors *)

Section well_formed.
Context (ToLower : string -> string).

(** Whatever the plan: what the checker, the scheduler and the engine rely on. *)
Record monitor_ok (m : Monitor) : Prop := {
  ok_type : m_Type m = MonitorHTTP \/ m_Type m = MonitorSSL;
  ok_name : m_Name m <> "" /\ slen (m_Name m) <= maxMonitorNameLen /\ TrimSpace (m_Name m) = m_Name m;
  ok_method : validMethod (m_Method m) = true;
  ok_body : m_Body m = "" \/ (bodyAllowed (m_Method m) = true /\ slen (m_Body m) <= maxBodyBytes);
  ok_timeout : 1 <= m_TimeoutSeconds m <= 60;
  ok_interval : HardIntervalFloorSeconds <= m_IntervalSeconds m /\ m_TimeoutSeconds m <= m_IntervalSeconds m;
  ok_threshold : 1 <= m_FailureThreshold m;
  ok_latency : forall n, m_MaxLatencyMs m = Some n -> 0 < n;
  ok_contains : forall b, m_BodyContains m = Some b -> slen b <= maxBodyContainsLen;
  ok_expected : TrimSpace (m_ExpectedStatusCodes m) = m_ExpectedStatusCodes m /\
    (m_ExpectedStatusCodes m = "" \/ validExpectedStatusCodes (m_ExpectedStatusCodes m) = true);
  ok_asserts : m_ExpectedStatusCodes m <> "" \/ (exists n, m_MaxLatencyMs m = Some n) \/
    (exists b, m_BodyContains m = Some b /\ TrimSpace b <> "");
  ok_headers : NoDup (ToLower <$> (h_Key <$> m_Headers m)) /\ (length (h_Key <$> m_Headers m) <= 50)%nat /\
    Forall (fun k => k <> "" /\ TrimSpace k = k) (h_Key <$> m_Headers m);
  ok_policy : m_DownPolicy m <> DownPolicyUnset;
  ok_regions : m_Regions m <> [] /\ NoDup (m_Regions m) /\ Forall (fun r => r <> "" /\ TrimSpace r = r) (m_Regions m);
  ok_ssl : m_Type m = MonitorSSL ->
    m_Regions m = [region_Default] /\ m_Method m = "GET" /\ m_Headers m = [] /\ m_Body m = "" /\ m_ExpectedStatusCodes m = "200" /\
    m_TimeoutSeconds m = sslTimeoutSeconds /\ m_IntervalSeconds m = sslIntervalSeconds /\ m_MaxLatencyMs m = None /\
    m_BodyContains m = None /\ m_FailureThreshold m = 1 /\ m_DownPolicy m = DownPolicyAny;
}.

(** What the plan of the org adds. *)
Definition within_plan (limits : MonitorLimits) (m : Monitor) : Prop :=
  EffectiveIntervalFloor limits <= m_IntervalSeconds m /\
  Forall (fun r => AllowsRegion limits r = true) (m_Regions m) /\
  Z.of_nat (length (m_Regions m)) <= ml_RegionsPerMonitorCap limits.
End well_formed.

(** ** Validation *)

Lemma field_empty name msg errs : field name msg errs = ∅ <-> msg = "" /\ errs = ∅.
Proof.
  unfold field. destruct (String.eqb_spec msg "") as [->|Hne]; [naive_solver|].
  split; [|naive_solver]. intros He. by apply insert_non_empty in He.
Qed.

Lemma when_empty b msg : msg <> "" -> when b msg = "" <-> b = false.
Proof. by destruct b. Qed.

(** The messages are never empty. *)
Ltac message := unfold belowFloorMessage; done.

Lemma validate_headers_ok ToLower l seen hs :
  validate_headers ToLower l seen = Ok hs ->
  NoDup (ToLower <$> (h_Key <$> hs)) /\ Forall (fun h => ToLower (h_Key h) ∉ seen) hs /\ length hs = length l /\
  Forall (fun h => h_Key h <> "" /\ TrimSpace (h_Key h) = h_Key h) hs.
Proof.
  revert seen hs. induction l as [|h l IH]; intros seen hs; simpl.
  - intros [= <-]. split; [apply NoDup_nil_2|]. by repeat split; constructor.
  - destruct (String.eqb_spec (TrimSpace (mh_Key h)) "") as [|Hne]; [done|]. case_bool_decide as Hs; [done|].
    intros (hs' & Hh & [= <-])%result_bind_ok. destruct (IH _ _ Hh) as (Hnd & Hns & Hlen & Hok). simpl.
    split; [|split; [|split]].
    + apply NoDup_cons. split; [|done]. rewrite !list_elem_of_fmap. intros (k & Hk & (h' & -> & Hin)%list_elem_of_fmap).
      rewrite Forall_forall in Hns. specialize (Hns _ Hin). rewrite <- Hk in Hns. set_solver.
    + constructor; [done|]. eapply Forall_impl; [exact Hns|]. set_solver.
    + lia.
    + constructor; [|done]. split; [done|]. apply TrimSpace_idem.
Qed.

Lemma validateHeaders_ok ToLower l :
  (validateHeaders ToLower l).2 = "" ->
  NoDup (ToLower <$> (h_Key <$> (validateHeaders ToLower l).1)) /\ (length (h_Key <$> (validateHeaders ToLower l).1) <= 50)%nat /\
  Forall (fun k => k <> "" /\ TrimSpace k = k) (h_Key <$> (validateHeaders ToLower l).1).
Proof.
  unfold validateHeaders. destruct (maxHeaders <? _) eqn:El; [done|]. apply Z.ltb_ge in El. unfold maxHeaders in El.
  destruct (validate_headers ToLower l ∅) as [hs|e] eqn:Ev; simpl.
  - intros _. destruct (validate_headers_ok _ _ _ _ Ev) as (H1 & _ & H3 & H4). split; [done|].
    rewrite length_fmap. split; [lia|]. by apply Forall_fmap.
  - intros _. split; [apply NoDup_nil_2|]. simpl. split; [lia|constructor].
Qed.

Lemma validate_regions_ok Quote l seen limits rs :
  validate_regions Quote l seen limits = Ok rs ->
  NoDup rs /\ Forall (fun r => r ∉ seen) rs /\ length rs = length l /\
  Forall (fun r => r <> "" /\ TrimSpace r = r) rs /\ Forall (fun r => AllowsRegion limits r = true) rs.
Proof.
  revert seen rs. induction l as [|r l IH]; intros seen rs; simpl.
  - intros [= <-]. split; [apply NoDup_nil_2|]. by repeat split; constructor.
  - destruct (String.eqb_spec (TrimSpace r) "") as [|Hne]; [done|]. case_bool_decide as Hs; [done|].
    destruct (AllowsRegion limits (TrimSpace r)) eqn:Ea; simpl; [|done].
    intros (rs' & Hr & [= <-])%result_bind_ok. destruct (IH _ _ Hr) as (Hnd & Hns & Hlen & Hok & Hal).
    split; [|split; [|split; [|split]]].
    + apply NoDup_cons. split; [|done]. intros Hin. rewrite Forall_forall in Hns. specialize (Hns _ Hin). set_solver.
    + constructor; [done|]. eapply Forall_impl; [exact Hns|]. set_solver.
    + simpl. lia.
    + constructor; [|done]. split; [done|]. apply TrimSpace_idem.
    + by constructor.
Qed.

Lemma validate_regions_err Quote l seen limits e : validate_regions Quote l seen limits = Err e -> e <> "".
Proof.
  revert seen. induction l as [|r l IH]; intros seen; simpl; [done|].
  repeat (case_match; [by intros [= <-]|]). intros [He|(? & _ & [=])]%result_bind_err. by apply (IH _ He).
Qed.

Lemma validateRegions_ok Quote l limits :
  (validateRegions Quote l limits).2 = "" ->
  let rs := (validateRegions Quote l limits).1 in
  rs <> [] /\ NoDup rs /\ Forall (fun r => r <> "" /\ TrimSpace r = r) rs /\ Forall (fun r => AllowsRegion limits r = true) rs /\
  Z.of_nat (length rs) <= ml_RegionsPerMonitorCap limits.
Proof.
  unfold validateRegions. destruct l as [|r l]; [done|]. destruct (validate_regions _ _ _ _) as [rs|e] eqn:Ev; simpl.
  - destruct (_ <? _) eqn:Ec; [done|]. intros _. apply Z.ltb_ge in Ec.
    destruct (validate_regions_ok _ _ _ _ _ Ev) as (H1 & _ & H3 & H4 & H5). by destruct rs.
  - intros ->. by apply validate_regions_err in Ev.
Qed.

(** The plans' limits admit the fixed schedule of certificate checks. *)
Lemma plan_admits_ssl orgID plan :
  let limits := MonitorLimits_for orgID plan in
  EffectiveIntervalFloor limits <= sslIntervalSeconds /\ AllowsRegion limits region_Default = true /\
  1 <= ml_RegionsPerMonitorCap limits.
Proof.
  destruct (IsKnownPlan plan) eqn:E.
  - apply known_cases in E. destruct_or! E; subst; vm_compute; by repeat split.
  - unfold MonitorLimits_for, monitorLimits. rewrite or_free_unknown by done. vm_compute. by repeat split.
Qed.

Lemma parse_type_cases s : parse_type s = MonitorHTTP \/ parse_type s = MonitorSSL \/ parse_type s = MonitorOther.
Proof. unfold parse_type. repeat case_match; auto. Qed.

Lemma parse_policy_set s : parse_policy s <> Some DownPolicyUnset.
Proof. unfold parse_policy. by repeat case_match. Qed.

Section accepted.
Context (parse_url SplitHostPort : string -> option (string * string)) (ToLower Quote : string -> string).
Abbreviation from_input := (monitorFromInput parse_url SplitHostPort ToLower Quote).

Lemma common_errors_ok i :
  common_errors parse_url SplitHostPort i = ∅ ->
  parse_type (mi_Type i) <> MonitorOther /\ TrimSpace (mi_Name i) <> "" /\ slen (TrimSpace (mi_Name i)) <= maxMonitorNameLen /\
  (parseChannelIDs (mi_NotificationChannelIds i)).2 = "".
Proof using Type.
  unfold common_errors. rewrite !field_empty. intros (Ht & Hn & _ & Hc & _).
  apply when_empty, bool_decide_eq_false in Ht; [|done]. split; [done|]. unfold name_error in Hn.
  destruct (String.eqb_spec (TrimSpace (mi_Name i)) ""); [done|]. destruct (_ <? _) eqn:El; [done|].
  apply Z.ltb_ge in El. done.
Qed.

Lemma interval_error_ok limits interval timeout :
  interval_error limits interval timeout = "" -> 1 <= timeout <= 60 ->
  HardIntervalFloorSeconds <= interval /\ timeout <= interval /\ EffectiveIntervalFloor limits <= interval.
Proof using Type.
  unfold interval_error. intros He Ht. destruct (interval <? HardIntervalFloorSeconds) eqn:E1; [done|].
  rewrite (proj2 (Z.leb_le _ _) (proj1 Ht)), (proj2 (Z.leb_le _ _) (proj2 Ht)) in He. simpl in He.
  destruct (interval <? timeout) eqn:E2; [done|]. destruct (interval <? EffectiveIntervalFloor limits) eqn:E3; [done|].
  reflect_tests. lia.
Qed.

Lemma expected_error_ok expected contains latency :
  expected_error expected contains latency = "" ->
  (expected = "" \/ validExpectedStatusCodes expected = true) /\
  (expected <> "" \/ (exists n, latency = Some n) \/ (exists b, contains = Some b /\ TrimSpace b <> "")).
Proof using Type.
  unfold expected_error. destruct (String.eqb_spec expected "") as [->|Hne]; simpl.
  - intros He. split; [by left|]. right. destruct contains as [b|]; [destruct (String.eqb_spec (TrimSpace b) "")|]; simpl in He; eauto;
      (destruct latency; simpl in He; [eauto|done]).
  - destruct (validExpectedStatusCodes expected) eqn:Ev; simpl; [|done]. intros _. auto.
Qed.

Lemma http_errors_ok orgID id i limits :
  parse_type (mi_Type i) = MonitorHTTP ->
  http_errors ToLower Quote i limits (common_errors parse_url SplitHostPort i) = ∅ ->
  monitor_ok ToLower (from_input orgID id i limits).1 /\ within_plan limits (from_input orgID id i limits).1.
Proof using Type.
  intros Hty. unfold http_errors. rewrite !field_empty.
  intros (Hm & Hb & He & Ht & Hi & Hl & Hbc & Hf & Hh & Hp & Hr & Hc).
  destruct (common_errors_ok i Hc) as (_ & Hn1 & Hn2 & _).
  apply when_empty, negb_false_iff in Hm; [|done]. apply when_empty in Ht; [|done]. apply when_empty in Hl; [|done].
  apply when_empty in Hbc; [|done]. apply when_empty in Hf; [|done]. apply when_empty, negb_false_iff in Hp; [|done].
  apply orb_false_iff in Ht as [Ht1%Z.ltb_ge Ht2%Z.ltb_ge]. apply Z.ltb_ge in Hf.
  destruct (interval_error_ok _ _ _ Hi (conj Ht1 Ht2)) as (Hi1 & Hi2 & Hi3).
  destruct (expected_error_ok _ _ _ He) as [He1 He2]. destruct (validateHeaders_ok _ _ Hh) as (Hh1 & Hh2 & Hh3).
  destruct (validateRegions_ok _ _ _ Hr) as (Hr1 & Hr2 & Hr3 & Hr4 & Hr5).
  unfold monitorFromInput. rewrite Hty. simpl. split; [|by repeat split].
  split; simpl; try done.
  - by left.
  - split; [done|]. split; [done|]. apply TrimSpace_idem.
  - unfold body_error in Hb. destruct (String.eqb_spec (mi_Body i) "") as [->|]; [by left|]. right.
    destruct (bodyAllowed _); [|done]. simpl in Hb. destruct (_ <? _) eqn:El; [done|]. apply Z.ltb_ge in El. done.
  - intros n Hn. rewrite Hn in Hl. by apply Z.leb_gt in Hl.
  - intros b Hn. rewrite Hn in Hbc. by apply Z.ltb_ge in Hbc.
  - split; [apply TrimSpace_idem|done].
  - apply bool_decide_eq_true in Hp. pose proof (parse_policy_set (mi_DownPolicy i)). destruct (parse_policy _); simpl; congruence.
Qed.

Lemma accepted_ok orgID id i plan :
  let limits := MonitorLimits_for orgID plan in
  (from_input orgID id i limits).2 = ∅ ->
  monitor_ok ToLower (from_input orgID id i limits).1 /\ within_plan limits (from_input orgID id i limits).1.
Proof using Type.
  intros limits Herr. destruct (bool_decide (parse_type (mi_Type i) = MonitorSSL)) eqn:Es.
  - unfold monitorFromInput in Herr |- *. rewrite Es in Herr |- *. simpl in *. destruct (common_errors_ok i Herr) as (Ht & Hn1 & Hn2 & _).
    apply bool_decide_eq_true in Es. destruct (plan_admits_ssl orgID plan) as (P1 & P2 & P3). fold limits in P1, P2, P3.
    split; [|split; simpl; [done|]; split; [by constructor|lia]].
    split; simpl; try done.
    + by right.
    + split; [done|]. split; [done|]. apply TrimSpace_idem.
    + by left.
    + split; [reflexivity|]. right. reflexivity.
    + by left.
    + split; [apply NoDup_nil_2|]. simpl. split; [lia|constructor].
    + split; [done|]. split; [apply NoDup_singleton|]. by repeat constructor.
  - apply http_errors_ok.
    + unfold monitorFromInput in Herr. rewrite Es in Herr. simpl in Herr. apply bool_decide_eq_false in Es.
      unfold http_errors in Herr. rewrite !field_empty in Herr. destruct Herr as (_ & _ & _ & _ & _ & _ & _ & _ & _ & _ & _ & Hc).
      destruct (common_errors_ok i Hc) as (Ho & _). by destruct (parse_type_cases (mi_Type i)) as [?|[?|?]].
    + unfold monitorFromInput in Herr. by rewrite Es in Herr.
Qed.
End accepted.

(** ** Stored monitors *)

Lemma encodeHeaders_keys cipher n hs hs' : encodeHeaders cipher n hs = Ok hs' -> h_Key <$> hs' = h_Key <$> hs.
Proof.
  revert n hs'. induction hs as [|h hs IH]; intros n hs'; simpl; [by intros [= <-]|].
  intros (h' & Hh & (hs0 & Hs & [= <-])%result_bind_ok)%result_bind_ok. rewrite !fmap_cons, (IH _ _ Hs). f_equal.
  unfold encode_header in Hh. destruct cipher; [|by simplify_eq]. case_match; [|by simplify_eq].
  by apply result_bind_ok in Hh as (e & _ & [= <-]).
Qed.

Lemma monitor_ok_stored ToLower id hs m :
  monitor_ok ToLower m -> h_Key <$> hs = h_Key <$> m_Headers m -> monitor_ok ToLower (with_headers hs (monitor_defaults id m)).
Proof.
  intros [] Hk. destruct m as [mid org ty name url meth hdrs body exp to iv en lat bc th regs pol ch]. simpl in *.
  assert (monitor_defaults id (mkMonitor mid org ty name url meth hdrs body exp to iv en lat bc th regs pol ch) =
          mkMonitor id org ty name url meth hdrs body exp to iv en lat bc th regs pol ch) as ->.
  { unfold monitor_defaults. simpl. destruct ok_type0; subst ty; destruct regs; try (by destruct ok_regions0); by destruct pol. }
  split; simpl; rewrite ?Hk; try done.
  intros Hs. destruct (ok_ssl0 Hs) as (A & B & -> & C). split; [done|]. split; [done|]. split; [by destruct hs|done].
Qed.

(** Every row of the monitors table is well formed. *)
Definition monitors_ok (ToLower : string -> string) (db : DB) : Prop :=
  map_Forall (fun _ row => monitor_ok ToLower (mr_monitor row) /\ fits_columns (mr_monitor row) = true) (monitors db).

Lemma fits_columns_stored id hs m : fits_columns (with_headers hs (monitor_defaults id m)) = fits_columns m.
Proof. done. Qed.

(** Storing a well-formed monitor keeps the table well formed. *)
Lemma create_monitors_ok ToLower cipher n m db :
  monitor_ok ToLower m -> fits_columns m = true -> monitors_ok ToLower db -> monitors_ok ToLower (Store.CreateMonitor cipher n m db).2.
Proof.
  intros Hm Hf Hdb. unfold Store.CreateMonitor, mbind, tx_bind, lift.
  destruct (encodeHeaders cipher n (m_Headers m)) as [hs|] eqn:He; [|done]. simpl.
  apply map_Forall_insert_2; [|done]. simpl. split; [|by rewrite fits_columns_stored].
  by apply monitor_ok_stored, (encodeHeaders_keys _ _ _ _ He).
Qed.

Lemma update_monitors_ok ToLower cipher n m db :
  monitor_ok ToLower m -> fits_columns m = true -> monitors_ok ToLower db -> monitors_ok ToLower (Store.UpdateMonitor cipher n m db).2.
Proof.
  intros Hm Hf Hdb. unfold Store.UpdateMonitor, mbind, tx_bind, lift.
  destruct (encodeHeaders cipher n (m_Headers m)) as [hs|] eqn:He; [|done].
  unfold WithOrg, select_row. destruct (monitor_row _ _ db) as [row|]; [|done]. simpl.
  destruct (scanMonitor cipher _) as [m'|]; simpl; [|done].
  apply map_Forall_insert_2; [|done]. simpl. split; [|by rewrite fits_columns_stored].
  by apply monitor_ok_stored, (encodeHeaders_keys _ _ _ _ He).
Qed.

Lemma delete_monitors_ok ToLower org id db : monitors_ok ToLower db -> monitors_ok ToLower (Store.DeleteMonitor org id db).2.
Proof.
  intros Hdb. unfold Store.DeleteMonitor, WithOrg, mbind, tx_bind, select. destruct (monitor_row org id db); simpl; [|done].
  by apply map_Forall_delete.
Qed.

(** A transaction that only writes other tables, or the counters of a monitor. *)
Definition same_config (db db' : DB) : Prop := (mr_monitor <$> monitors db') = (mr_monitor <$> monitors db).

Lemma same_config_ok ToLower db db' : same_config db db' -> monitors_ok ToLower db -> monitors_ok ToLower db'.
Proof.
  intros Hc Hdb k row Hr. assert ((mr_monitor <$> monitors db) !! k = Some (mr_monitor row)) as Hk by (rewrite <- Hc, lookup_fmap, Hr; done).
  rewrite lookup_fmap in Hk. destruct (monitors db !! k) as [r0|] eqn:E; [|done]. simpl in Hk. injection Hk as <-. by apply (Hdb k).
Qed.

(** Transactions that leave the configuration of monitors alone, compositionally. *)
Definition keeps {A} (c : Tx A) : Prop := forall db, same_config db (c db).2.

Lemma keeps_bind {A B} (c : Tx A) (f : A -> Tx B) : keeps c -> (forall a, keeps (f a)) -> keeps (c ≫= f).
Proof.
  intros Hc Hf db. unfold mbind, tx_bind. specialize (Hc db). destruct (c db) as [[a|e] db1]; [|done].
  specialize (Hf a db1). unfold same_config in *. simpl in *. congruence.
Qed.
Lemma keeps_WithOrg {A} (c : Tx A) : keeps c -> keeps (WithOrg c).
Proof. intros Hc db. unfold WithOrg. specialize (Hc db). by destruct (c db) as [[a|e] db1]. Qed.
Lemma keeps_ret {A} (a : A) : keeps (mret a).
Proof. done. Qed.
Lemma keeps_throw {A} e : keeps (throw (A := A) e).
Proof. done. Qed.
Lemma keeps_select {A} (q : DB -> A) : keeps (select q).
Proof. done. Qed.
Lemma keeps_select_row {A} (q : DB -> option A) : keeps (select_row q).
Proof. intros db. unfold select_row. by destruct (q db). Qed.
Lemma keeps_exec f : (forall db, same_config db (f db)) -> keeps (exec f).
Proof. intros Hf db. apply Hf. Qed.
Lemma keeps_check_monitor_fk id : keeps (check_monitor_fk id).
Proof. intros db. unfold check_monitor_fk. by case_match. Qed.
Lemma keeps_check_result_fk id : keeps (check_result_fk id).
Proof. intros db. unfold check_result_fk. by repeat case_match. Qed.
Lemma keeps_write_counters m rid d : keeps (write_counters m rid d).
Proof.
  apply keeps_exec. intros db. unfold monitor_row. destruct (monitors db !! m_ID m) as [row|] eqn:E; [|done].
  repeat case_match; simplify_eq; try done. unfold same_config. simpl. rewrite fmap_insert. simpl. apply insert_id. by rewrite lookup_fmap, E.
Qed.

Create HintDb keeps discriminated.
#[export] Hint Resolve keeps_bind keeps_WithOrg keeps_ret keeps_throw keeps_select keeps_select_row keeps_check_monitor_fk
  keeps_check_result_fk keeps_write_counters : keeps.

(** Walk through a transaction: binds, branches, and writes to other tables. *)
Ltac keeps_tac :=
  repeat first
    [ apply keeps_WithOrg | apply keeps_bind; [|intros ?] | solve [eauto with keeps]
    | apply keeps_exec; done | case_match | done ].

Lemma keeps_UpsertCheckResult r : keeps (UpsertCheckResult r).
Proof. unfold UpsertCheckResult. keeps_tac. Qed.
Lemma keeps_InsertCheckResult r : keeps (InsertCheckResult r).
Proof. unfold InsertCheckResult. keeps_tac. Qed.
Lemma keeps_ApplyAlertDecision m rid first d : keeps (ApplyAlertDecision m rid first d).
Proof. unfold ApplyAlertDecision, getOpenIncidentTx, apply_open, apply_close. keeps_tac. Qed.
Lemma keeps_ManualCloseIncident org id by_ t : keeps (ManualCloseIncident org id by_ t).
Proof. unfold ManualCloseIncident. keeps_tac. Qed.
Lemma keeps_AddIncidentAnnotation org iid a note t : keeps (AddIncidentAnnotation org iid a note t).
Proof. unfold AddIncidentAnnotation. keeps_tac. Qed.
Lemma keeps_CreateIncident i : keeps (CreateIncident i).
Proof. unfold CreateIncident. keeps_tac. Qed.
Lemma keeps_UpsertMonitorLastFailure o m s t : keeps (UpsertMonitorLastFailure o m s t).
Proof. unfold UpsertMonitorLastFailure. keeps_tac. Qed.
Lemma keeps_UpsertMonitorCert o m c t : keeps (UpsertMonitorCert o m c t).
Proof. unfold UpsertMonitorCert. keeps_tac. Qed.

(** ** The handlers *)

Section api.
Context (parse_url SplitHostPort : string -> option (string * string)) (ToLower Quote : string -> string).
Context (cipher : option secretCipher).
Abbreviation api_create := (MonitorApi.CreateMonitor parse_url SplitHostPort ToLower Quote cipher).
Abbreviation api_update := (MonitorApi.UpdateMonitor parse_url SplitHostPort ToLower Quote cipher).

Lemma from_input_ids orgID id i limits :
  m_OrgID (monitorFromInput parse_url SplitHostPort ToLower Quote orgID id i limits).1 = orgID /\
  m_ID (monitorFromInput parse_url SplitHostPort ToLower Quote orgID id i limits).1 = id.
Proof using Type. unfold monitorFromInput. by case_match. Qed.

(** A create leaves the tables, or stores an accepted monitor that the cap admits. *)
Lemma create_cases nonce accounts p body db :
  let db' := (api_create nonce accounts p body db).1.2 in
  db' = db \/ exists q m limits,
    limits = monitorLimits_of (m_OrgID m) accounts /\ fst <$> humanInOrg p = Some q /\ m_OrgID m = pr_OrgID q /\
    monitor_ok ToLower m /\ within_plan limits m /\ fits_columns m = true /\
    (m_Enabled m = true -> at_cap (m_OrgID m) limits db = false) /\ db' = (Store.CreateMonitor cipher nonce m db).2.
Proof using Type.
  unfold MonitorApi.CreateMonitor, with_right. destruct (humanInOrg p) as [[q actor]|]; [|by left].
  destruct (negb (de_Allowed _)); [by left|]. destruct body as [i|]; [|by left].
  pose proof (accepted_ok parse_url SplitHostPort ToLower Quote (pr_OrgID q) 0 i (orgPlan (pr_OrgID q) accounts)) as Hok.
  pose proof (from_input_ids (pr_OrgID q) 0 i (monitorLimits_of (pr_OrgID q) accounts)) as [Horg _].
  unfold monitorLimits_of in *. destruct (monitorFromInput _ _ _ _ _ _ _ _) as [m errs]. simpl in *.
  case_bool_decide as He; simpl; [|by left]. destruct (Hok He) as [H1 H2]. destruct (m_Enabled m && at_cap _ _ _) eqn:Ec; [by left|].
  destruct (fits_columns m) eqn:Ef; simpl; [|by left]. right. exists q, m, (MonitorLimits_for (pr_OrgID q) (orgPlan (pr_OrgID q) accounts)).
  rewrite Horg. split; [done|]. split; [done|]. split; [done|]. split; [done|]. split; [done|]. split; [done|].
  split; [intros Hen; by rewrite Hen in Ec|]. by destruct (Store.CreateMonitor _ _ _ _) as [[] ?].
Qed.

Lemma update_cases nonce accounts p id body db :
  let db' := (api_update nonce accounts p id body db).1.2 in
  db' = db \/ exists q m limits existing,
    limits = monitorLimits_of (m_OrgID m) accounts /\ fst <$> humanInOrg p = Some q /\ m_OrgID m = pr_OrgID q /\
    monitor_ok ToLower m /\ within_plan limits m /\ fits_columns m = true /\
    (Store.GetMonitor cipher (m_OrgID m) (m_ID m) db).1 = Ok existing /\
    (m_Enabled m = true -> m_Enabled existing = false -> at_cap (m_OrgID m) limits db = false) /\
    db' = (Store.UpdateMonitor cipher nonce m db).2.
Proof using Type.
  unfold MonitorApi.UpdateMonitor, with_right. destruct (humanInOrg p) as [[q actor]|]; [|by left].
  destruct (negb (de_Allowed _)); [by left|]. destruct body as [i|]; [|by left]. destruct (parseMonitorID id) as [mid|]; [|by left].
  destruct (Store.GetMonitor cipher (pr_OrgID q) mid db) as [[existing|[]] db0] eqn:Eg; try by left.
  pose proof (accepted_ok parse_url SplitHostPort ToLower Quote (pr_OrgID q) mid i (orgPlan (pr_OrgID q) accounts)) as Hok.
  pose proof (from_input_ids (pr_OrgID q) mid i (monitorLimits_of (pr_OrgID q) accounts)) as [Horg Hid].
  unfold monitorLimits_of in *. destruct (monitorFromInput _ _ _ _ _ _ _ _) as [m errs]. simpl in *.
  case_bool_decide as He; simpl; [|by left]. destruct (Hok He) as [H1 H2].
  destruct (m_Enabled m && negb (m_Enabled existing) && at_cap _ _ _) eqn:Ec; [by left|].
  destruct (fits_columns m) eqn:Ef; simpl; [|by left]. right.
  exists q, m, (MonitorLimits_for (pr_OrgID q) (orgPlan (pr_OrgID q) accounts)), existing.
  rewrite Horg, Hid, Eg. split; [done|]. split; [done|]. split; [done|]. split; [done|]. split; [done|]. split; [done|]. split; [done|].
  split; [intros Hen Hex; by rewrite Hen, Hex in Ec|]. by destruct (Store.UpdateMonitor _ _ _ _) as [[|[]] ?].
Qed.

Lemma delete_cases p id db :
  let db' := (MonitorApi.DeleteMonitor p id db).1.2 in
  db' = db \/ exists q mid, fst <$> humanInOrg p = Some q /\ db' = (Store.DeleteMonitor (pr_OrgID q) mid db).2.
Proof using Type.
  unfold MonitorApi.DeleteMonitor, with_right. destruct (humanInOrg p) as [[q actor]|]; [|by left].
  destruct (negb (de_Allowed _)); [by left|]. destruct (parseMonitorID id) as [mid|]; [|by left].
  right. exists q, mid. split; [done|]. by destruct (Store.DeleteMonitor _ _ _) as [[] ?].
Qed.

(** What writes the monitoring tables: the api, and the pipeline's transactions. *)
Inductive api_step (db : DB) : DB -> Prop :=
  | api_creates nonce accounts p body : api_step db (api_create nonce accounts p body db).1.2
  | api_updates nonce accounts p id body : api_step db (api_update nonce accounts p id body db).1.2
  | api_deletes p id : api_step db (MonitorApi.DeleteMonitor p id db).1.2
  | pipe_result r : api_step db (UpsertCheckResult r db).2
  | pipe_insert r : api_step db (InsertCheckResult r db).2
  | pipe_decide m rid first d : api_step db (ApplyAlertDecision m rid first d db).2
  | pipe_failure o m s t : api_step db (UpsertMonitorLastFailure o m s t db).2
  | pipe_cert o m c t : api_step db (UpsertMonitorCert o m c t db).2
  | api_closes org id by_ t : api_step db (ManualCloseIncident org id by_ t db).2
  | api_annotates org iid a note t : api_step db (AddIncidentAnnotation org iid a note t db).2
  | api_incident i : api_step db (CreateIncident i db).2.

Lemma api_step_ok db db' : api_step db db' -> monitors_ok ToLower db -> monitors_ok ToLower db'.
Proof using Type.
  intros Hst Hdb. destruct Hst.
  - destruct (create_cases nonce accounts p body db) as [->|(q & m & lim & _ & _ & _ & H1 & _ & H3 & _ & ->)]; [done|].
    by apply create_monitors_ok.
  - destruct (update_cases nonce accounts p id body db) as [->|(q & m & lim & ex & _ & _ & _ & H1 & _ & H3 & _ & _ & ->)]; [done|].
    by apply update_monitors_ok.
  - destruct (delete_cases p id db) as [->|(q & mid & _ & ->)]; [done|]. by apply delete_monitors_ok.
  - apply (same_config_ok _ db); [apply keeps_UpsertCheckResult|done].
  - apply (same_config_ok _ db); [apply keeps_InsertCheckResult|done].
  - apply (same_config_ok _ db); [apply keeps_ApplyAlertDecision|done].
  - apply (same_config_ok _ db); [apply keeps_UpsertMonitorLastFailure|done].
  - apply (same_config_ok _ db); [apply keeps_UpsertMonitorCert|done].
  - apply (same_config_ok _ db); [apply keeps_ManualCloseIncident|done].
  - apply (same_config_ok _ db); [apply keeps_AddIncidentAnnotation|done].
  - apply (same_config_ok _ db); [apply keeps_CreateIncident|done].
Qed.
End api.

(** ** The cap on enabled monitors *)

Definition enabled_of (orgID : Z) (row : MonitorRow) : bool := (m_OrgID (mr_monitor row) =? orgID) && m_Enabled (mr_monitor row).
Definition enabled_count (orgID : Z) (db : DB) : Z := rows_affected (enabled_of orgID) (monitors db).

Lemma at_cap_false orgID limits db : at_cap orgID limits db = false -> enabled_count orgID db < ml_MonitorsCap limits.
Proof. unfold at_cap, CountEnabledMonitors, WithOrg, select. simpl. intros H%Z.leb_gt. exact H. Qed.

Lemma enabled_create cipher n m db o :
  wf db -> enabled_count o (Store.CreateMonitor cipher n m db).2 <=
           enabled_count o db + (if (m_OrgID m =? o) && m_Enabled m then 1 else 0).
Proof.
  intros Hwf. unfold Store.CreateMonitor, mbind, tx_bind, lift.
  destruct (encodeHeaders cipher n (m_Headers m)) as [hs|] eqn:He; simpl; [|case_match; lia].
  unfold enabled_count. simpl. rewrite rows_affected_insert_new.
  - unfold enabled_of at 1. simpl. lia.
  - destruct (monitors db !! seq_monitors db) eqn:E; [|done]. pose proof (wf_mon_id _ Hwf _ _ E). lia.
Qed.

Lemma enabled_update cipher n m db o existing :
  (Store.GetMonitor cipher (m_OrgID m) (m_ID m) db).1 = Ok existing ->
  enabled_count o (Store.UpdateMonitor cipher n m db).2 <=
    enabled_count o db + (if (m_OrgID m =? o) && m_Enabled m && negb (m_Enabled existing) then 1 else 0).
Proof.
  intros Hg. unfold Store.UpdateMonitor, mbind, tx_bind, lift.
  destruct (encodeHeaders cipher n (m_Headers m)) as [hs|] eqn:He; simpl; [|case_match; lia].
  unfold Store.GetMonitor, WithOrg, mbind, tx_bind, select_row, lift in *.
  destruct (monitor_row (m_OrgID m) (m_ID m) db) as [row|] eqn:Er; [|done].
  pose proof Er as (Hrow & Horg)%monitor_row_Some.
  assert (m_Enabled existing = m_Enabled (mr_monitor row)) as ->.
  { revert Hg. unfold scanMonitor. destruct (decodeHeaders cipher _) as [hs'|]; simpl; [by intros [= <-]|done]. }
  clear Hg. destruct (scanMonitor cipher _) as [m'|]; simpl; [|unfold enabled_count; simpl; case_match; lia].
  unfold enabled_count. simpl. rewrite (rows_affected_replace _ _ _ row) by done. unfold enabled_of. simpl. rewrite Horg.
  destruct (m_OrgID m =? o), (m_Enabled m), (m_Enabled (mr_monitor row)); simpl; lia.
Qed.

Lemma enabled_delete org id db o : enabled_count o (Store.DeleteMonitor org id db).2 <= enabled_count o db.
Proof.
  unfold Store.DeleteMonitor, WithOrg, mbind, tx_bind, select. destruct (monitor_row org id db) as [row|] eqn:Er; simpl; [|lia].
  apply monitor_row_Some in Er as [Hrow _]. unfold enabled_count. simpl. rewrite (rows_affected_delete _ _ _ _ Hrow). case_match; lia.
Qed.

Section cap.
Context (parse_url SplitHostPort : string -> option (string * string)) (ToLower Quote : string -> string).
Context (cipher : option secretCipher) (accounts : MDB).

(** Serial calls of the monitor handlers under one state of the accounts. *)
Inductive monitor_call (db : DB) : DB -> Prop :=
  | call_create nonce p body :
      monitor_call db (MonitorApi.CreateMonitor parse_url SplitHostPort ToLower Quote cipher nonce accounts p body db).1.2
  | call_update nonce p id body :
      monitor_call db (MonitorApi.UpdateMonitor parse_url SplitHostPort ToLower Quote cipher nonce accounts p id body db).1.2
  | call_delete p id : monitor_call db (MonitorApi.DeleteMonitor p id db).1.2.

Lemma call_wf db db' : monitor_call db db' -> wf db -> wf db'.
Proof using Type.
  intros Hc Hwf. destruct Hc.
  - destruct (create_cases parse_url SplitHostPort ToLower Quote cipher nonce accounts p body db)
      as [->|(q & m & lim & _ & _ & _ & _ & _ & _ & _ & ->)]; [done|]. by apply wf_CreateMonitor.
  - destruct (update_cases parse_url SplitHostPort ToLower Quote cipher nonce accounts p id body db)
      as [->|(q & m & lim & ex & _ & _ & _ & _ & _ & _ & _ & _ & ->)]; [done|]. by apply wf_UpdateMonitor.
  - destruct (delete_cases p id db) as [->|(q & mid & _ & ->)]; [done|]. by apply wf_DeleteMonitor.
Qed.

Lemma call_cap db db' o :
  monitor_call db db' -> wf db ->
  enabled_count o db' <= Z.max (enabled_count o db) (ml_MonitorsCap (monitorLimits_of o accounts)).
Proof using Type.
  intros Hc Hwf. destruct Hc.
  - destruct (create_cases parse_url SplitHostPort ToLower Quote cipher nonce accounts p body db)
      as [->|(q & m & lim & -> & _ & _ & _ & _ & _ & Hcap & ->)]; [lia|].
    pose proof (enabled_create cipher nonce m db o Hwf) as He.
    destruct (Z.eqb_spec (m_OrgID m) o) as [<-|]; simpl in He; [|lia]. destruct (m_Enabled m); [|lia].
    pose proof (at_cap_false _ _ _ (Hcap eq_refl)). lia.
  - destruct (update_cases parse_url SplitHostPort ToLower Quote cipher nonce accounts p id body db)
      as [->|(q & m & lim & ex & -> & _ & _ & _ & _ & _ & Hg & Hcap & ->)]; [lia|].
    pose proof (enabled_update cipher nonce m db o ex Hg) as He.
    destruct (Z.eqb_spec (m_OrgID m) o) as [<-|]; simpl in He; [|lia]. destruct (m_Enabled m); simpl in He; [|lia].
    destruct (m_Enabled ex); simpl in He; [lia|]. pose proof (at_cap_false _ _ _ (Hcap eq_refl eq_refl)). lia.
  - destruct (delete_cases p id db) as [->|(q & mid & _ & ->)]; [lia|]. pose proof (enabled_delete (pr_OrgID q) mid db o). lia.
Qed.
End cap.

(** ** Reading a monitor and writing it back *)

(** A monitor as a client sees it: the values of secret headers are gone. *)
Definition redact (m : Monitor) : Monitor :=
  with_headers ((fun h => if h_Secret h then mkHeader (h_Key h) "" true else h) <$> m_Headers m) m.

Lemma validate_headers_dto ToLower hs seen :
  NoDup (ToLower <$> (h_Key <$> hs)) -> Forall (fun h => ToLower (h_Key h) ∉ seen) hs ->
  Forall (fun k => k <> "" /\ TrimSpace k = k) (h_Key <$> hs) ->
  validate_headers ToLower (header_dto <$> hs) seen = Ok ((fun h => if h_Secret h then mkHeader (h_Key h) "" true else h) <$> hs).
Proof.
  revert seen. induction hs as [|h hs IH]; intros seen Hnd Hs Hk; [done|].
  apply Forall_cons in Hs as [Hh Hs]. apply Forall_cons in Hk as [[Hne Ht] Hk].
  rewrite !fmap_cons in Hnd. apply NoDup_cons in Hnd as [Hni Hnd].
  rewrite !fmap_cons. cbn [validate_headers header_dto mh_Key mh_Value mh_Secret]. rewrite Ht, (proj2 (String.eqb_neq _ _) Hne).
  rewrite bool_decide_eq_false_2 by done. rewrite IH; [|done| |done].
  - destruct h as [k v []]; done.
  - rewrite Forall_forall in Hs |- *. intros h' Hin [He%elem_of_singleton|?]%elem_of_union; [|by apply (Hs h')].
    apply Hni. rewrite <- He. by apply list_elem_of_fmap_2, list_elem_of_fmap_2.
Qed.

Lemma validate_regions_id Quote rs seen limits :
  NoDup rs -> Forall (fun r => r ∉ seen) rs -> Forall (fun r => r <> "" /\ TrimSpace r = r) rs ->
  Forall (fun r => AllowsRegion limits r = true) rs -> validate_regions Quote rs seen limits = Ok rs.
Proof.
  revert seen. induction rs as [|r rs IH]; intros seen Hnd Hs Hk Ha; [done|].
  apply NoDup_cons in Hnd as [Hni Hnd]. apply Forall_cons in Hs as [Hr Hs]. apply Forall_cons in Hk as [[Hne Ht] Hk].
  apply Forall_cons in Ha as [Har Ha]. simpl. rewrite Ht, (proj2 (String.eqb_neq _ _) Hne), bool_decide_eq_false_2, Har by done. simpl.
  rewrite IH; [done|done| |done|done]. rewrite Forall_forall in Hs |- *. set_solver.
Qed.

Lemma parse_channel_ids_pretty ids : Forall (fun z => - 2 ^ 63 <= z < 2 ^ 63) ids -> parse_channel_ids (pretty <$> ids) = Some ids.
Proof. induction 1 as [|z ids Hz _ IH]; [done|]. rewrite fmap_cons. cbn [parse_channel_ids]. by rewrite Atoi_pretty_int64, IH. Qed.

Lemma field_none name errs : field name "" errs = errs.
Proof. done. Qed.

Section read_write.
Context (parse_url SplitHostPort : string -> option (string * string)) (ToLower Quote : string -> string).

Lemma parse_policy_text p : p <> DownPolicyUnset -> parse_policy (policy_text p) = Some p.
Proof using Type. by destruct p. Qed.

Lemma name_error_ok name : name <> "" -> slen name <= maxMonitorNameLen -> name_error name = "".
Proof using Type.
  intros Hn Hl. unfold name_error. by rewrite (proj2 (String.eqb_neq _ _) Hn), (proj2 (Z.ltb_ge _ _) Hl).
Qed.

Lemma common_errors_dto m :
  monitor_ok ToLower m -> Forall (fun z => - 2 ^ 63 <= z < 2 ^ 63) (m_ChannelIDs m) ->
  url_error parse_url SplitHostPort (bool_decide (m_Type m = MonitorSSL)) (m_URL m) = "" ->
  common_errors parse_url SplitHostPort (dto_Fields (monitorDTO m)) = ∅.
Proof using Type.
  intros Hok Hch Hurl. destruct (ok_name _ _ Hok) as (Hn & Hl & Ht). unfold common_errors, parseChannelIDs. simpl.
  assert (parse_type (type_text (m_Type m)) = m_Type m) as -> by (destruct (ok_type _ _ Hok) as [->| ->]; done).
  rewrite (parse_channel_ids_pretty _ Hch), Ht, Hurl, (name_error_ok _ Hn Hl). simpl.
  rewrite bool_decide_eq_false_2 by (destruct (ok_type _ _ Hok); congruence). done.
Qed.

Lemma http_errors_dto m limits :
  monitor_ok ToLower m -> within_plan limits m ->
  http_errors ToLower Quote (dto_Fields (monitorDTO m)) limits ∅ = ∅ /\
  validateHeaders ToLower (header_dto <$> m_Headers m) =
    ((fun h => if h_Secret h then mkHeader (h_Key h) "" true else h) <$> m_Headers m, "") /\
  validateRegions Quote (m_Regions m) limits = (m_Regions m, "").
Proof using Type.
  intros [] (Hfl & Hal & Hcap).
  assert (validateHeaders ToLower (header_dto <$> m_Headers m) =
    ((fun h => if h_Secret h then mkHeader (h_Key h) "" true else h) <$> m_Headers m, "")) as Hh.
  { destruct ok_headers0 as (H1 & H2 & H3). unfold validateHeaders. rewrite length_fmap in H2. rewrite length_fmap.
    rewrite (proj2 (Z.ltb_ge _ _)) by (unfold maxHeaders; lia). rewrite validate_headers_dto; [done|done| |done]. by apply Forall_forall. }
  assert (validateRegions Quote (m_Regions m) limits = (m_Regions m, "")) as Hr.
  { destruct ok_regions0 as (H1 & H2 & H3). unfold validateRegions. rewrite validate_regions_id; [|done|by apply Forall_forall|done|done].
    rewrite (proj2 (Z.ltb_ge _ _)) by lia. by destruct (m_Regions m). }
  split; [|done]. unfold http_errors. simpl. rewrite Hh, Hr. simpl.
  assert (m_Method m <> "") as Hm by (by intros Hm; rewrite Hm in ok_method0).
  rewrite (proj2 (String.eqb_neq _ _) Hm), ok_method0, (parse_policy_text _ ok_policy0). simpl.
  assert (body_error (m_Method m) (m_Body m) = "") as ->.
  { unfold body_error. destruct ok_body0 as [->|[-> Hl]]; [done|]. simpl. rewrite (proj2 (Z.ltb_ge _ _) Hl). by destruct (String.eqb _ _). }
  destruct ok_expected0 as [-> Hexp].
  assert (expected_error (m_ExpectedStatusCodes m) (m_BodyContains m) (m_MaxLatencyMs m) = "") as ->.
  { unfold expected_error. destruct (String.eqb_spec (m_ExpectedStatusCodes m) "") as [He|He]; simpl.
    - destruct ok_asserts0 as [?|[(n & Hn)|(b & -> & Hb)]]; [done| |].
      + rewrite Hn, (proj2 (Z.ltb_lt _ _) (ok_latency0 _ Hn)). simpl. by rewrite andb_false_r.
      + by rewrite (proj2 (String.eqb_neq _ _) Hb).
    - by destruct Hexp as [?| ->]. }
  rewrite (proj2 (Z.ltb_ge (m_TimeoutSeconds m) 1)), (proj2 (Z.ltb_ge 60 (m_TimeoutSeconds m))), (proj2 (Z.ltb_ge (m_FailureThreshold m) 1)) by lia.
  simpl. assert (interval_error limits (m_IntervalSeconds m) (m_TimeoutSeconds m) = "") as ->.
  { unfold interval_error. rewrite !(proj2 (Z.ltb_ge (m_IntervalSeconds m) _)) by lia. by rewrite andb_false_r. }
  assert (match m_MaxLatencyMs m with Some n => n <=? 0 | None => false end = false) as ->.
  { destruct (m_MaxLatencyMs m); [|done]. apply Z.leb_gt. by apply ok_latency0. }
  assert (match m_BodyContains m with Some b => maxBodyContainsLen <? slen b | None => false end = false) as ->.
  { destruct (m_BodyContains m); [|done]. apply Z.ltb_ge. by apply ok_contains0. }
  done.
Qed.

Lemma from_input_dto m limits :
  monitor_ok ToLower m -> within_plan limits m -> Forall (fun z => - 2 ^ 63 <= z < 2 ^ 63) (m_ChannelIDs m) ->
  url_error parse_url SplitHostPort (bool_decide (m_Type m = MonitorSSL)) (m_URL m) = "" ->
  monitorFromInput parse_url SplitHostPort ToLower Quote (m_OrgID m) (m_ID m) (dto_Fields (monitorDTO m)) limits = (redact m, ∅).
Proof using Type.
  intros Hok Hplan Hch Hurl. pose proof (common_errors_dto m Hok Hch Hurl) as Hc. unfold monitorFromInput. rewrite Hc.
  destruct (http_errors_dto m limits Hok Hplan) as (He & Hh & Hr). unfold parseChannelIDs. simpl.
  rewrite (parse_channel_ids_pretty _ Hch). simpl. destruct (ok_name _ _ Hok) as (_ & _ & ->).
  assert (parse_type (type_text (m_Type m)) = m_Type m) as -> by (destruct (ok_type _ _ Hok) as [->| ->]; done).
  case_bool_decide as Hs.
  - destruct (ok_ssl _ _ Hok Hs) as (R1 & R2 & R3 & R4 & R5 & R6 & R7 & R8 & R9 & R10 & R11).
    unfold redact, with_headers. rewrite R1, R2, R3, R4, R5, R6, R7, R8, R9, R10, R11. done.
  - simpl in He. rewrite He, Hh, Hr, (parse_policy_text _ (ok_policy _ _ Hok)). destruct (ok_expected _ _ Hok) as [-> _]. simpl.
    assert (m_Method m <> "") as Hm by (intros Hm; pose proof (ok_method _ _ Hok) as H; by rewrite Hm in H).
    by rewrite (proj2 (String.eqb_neq _ _) Hm).
Qed.
End read_write.

(** ** The two readers of expected_status_codes *)

Lemma lower_x b : Ascii.eqb (lower_ascii b) "x" = true -> digit_value b = None.
Proof. by destruct b as [[] [] [] [] [] [] [] []]. Qed.

Lemma shorthand_lower part a : shorthand part = Some a -> ToLowerASCII part = String a "xx".
Proof.
  unfold shorthand. destruct (ToLowerASCII part) as [|x [|y [|z []]]]; try done.
  destruct (Ascii.eqb_spec y "x"), (Ascii.eqb_spec z "x"); simpl; try done. by intros [= ->]; subst.
Qed.

Lemma shorthand_not_number part a : shorthand part = Some a -> Atoi part = None.
Proof.
  intros Hl%shorthand_lower. destruct part as [|x [|y [|z [|]]]]; try done. simpl in Hl. injection Hl as _ Hy Hz.
  assert (digit_value y = None) as Dy by (apply lower_x; by rewrite Hy).
  assert (digits 0 (String x (String y (String z ""))) = None) as D1 by (cbn [digits]; destruct (digit_value x); by rewrite ?Dy).
  assert (digits 0 (String y (String z "")) = None) as D2 by (cbn [digits]; by rewrite Dy).
  unfold Atoi. destruct x as [[] [] [] [] [] [] [] []]; cbn [String.eqb Ascii.eqb Bool.eqb andb]; rewrite ?D1, ?D2; try done.
Qed.

Lemma class_in_range a :
  existsb (String.eqb (String a "xx")) ["2xx"; "3xx"; "4xx"; "5xx"; "1xx"] = negb ((leading_digit a <? 1) || (5 <? leading_digit a)).
Proof. by destruct a as [[] [] [] [] [] [] [] []]. Qed.

Lemma class_is_shorthand part :
  shorthand part = None -> existsb (String.eqb (ToLowerASCII part)) ["2xx"; "3xx"; "4xx"; "5xx"; "1xx"] = false.
Proof.
  unfold shorthand. intros Hs. apply not_true_is_false. intros Hx. apply existsb_exists in Hx as (c & Hin & Hc%String.eqb_eq).
  rewrite Hc in Hs. simpl in Hin. by destruct_or! Hin; subst c.
Qed.

(** On an entry that is not blank the two agree. *)
Lemma token_agrees raw m : TrimSpace raw <> "" -> is_ok (parse_entry raw m) = valid_token (TrimSpace raw).
Proof.
  intros Hne. unfold parse_entry, valid_token. rewrite (proj2 (String.eqb_neq _ _) Hne).
  destruct (shorthand (TrimSpace raw)) as [a|] eqn:Es.
  - rewrite (shorthand_lower _ _ Es), class_in_range, (shorthand_not_number _ _ Es). by destruct (_ || _).
  - rewrite (class_is_shorthand _ Es). destruct (Atoi _) as [n|]; [|done].
    rewrite (Z.ltb_antisym 100 n), (Z.ltb_antisym n 599). by destruct (100 <=? n), (n <=? 599).
Qed.

Lemma entries_agree parts m :
  is_ok (parse_entries parts m) = true <->
  Forall (fun p => TrimSpace p <> "") parts /\ forallb valid_token (TrimSpace <$> parts) = true.
Proof.
  revert m. induction parts as [|raw parts IH]; intros m.
  - split; [by repeat constructor|done].
  - rewrite fmap_cons, Forall_cons. cbn [parse_entries forallb].
    destruct (String.eqb_spec (TrimSpace raw) "") as [Hb|Hne].
    + unfold parse_entry at 1. rewrite Hb. simpl. split; [done|]. by intros [[? _] _].
    + pose proof (token_agrees raw m Hne) as Ht. destruct (parse_entry raw m) as [m'|]; simpl in Ht |- *; rewrite <- Ht; simpl.
      * rewrite IH. naive_solver.
      * naive_solver.
Qed.

Lemma filter_nonblank l : Forall (fun p => p <> "") l -> filter (fun t : string => t <> "") l = l.
Proof. induction 1 as [|p l Hp _ IH]; [done|]. by rewrite filter_cons_True, IH. Qed.

(** ** Manual checks *)

(** A well-formed monitor is checked by hand in the regions the scheduler uses. *)
Lemma checknow_regions_scheduled ToLower m : monitor_ok ToLower m -> checknow_regions m = dispatch_regions m.
Proof.
  intros Hok. unfold checknow_regions, dispatch_regions. case_bool_decide as Hs; simpl; [|done].
  destruct (ok_ssl _ _ Hok Hs) as (-> & _). done.
Qed.

Lemma fan_out_done {S} `{!HashStore S} marshal publish now org m regions (st : option S) js st' :
  fan_out marshal publish now org m true regions st = (true, js, st') -> js = checknow_job now org m <$> regions.
Proof.
  revert st js st'. induction regions as [|r rs IH]; intros st js st'; [by intros [= <- <-]|].
  cbn [fan_out]. destruct (match st with None => _ | Some s => _ end) as [ok st1]. destruct ok; simpl; [|done].
  destruct (publish _); simpl; [|done]. destruct (fan_out _ _ _ _ _ _ rs st1) as [[d js1] st2] eqn:E.
  intros [= -> <- <-]. by rewrite (IH _ _ _ E).
Qed.

(** ** Theorems *)

(** C28: an accepted monitor is well formed.  Whatever the input, if validation reports no
    field then the monitor has a known type, a trimmed name within its limit, a known
    method, a body only where one is sent, a timeout of 1 to 60 seconds, an interval no
    shorter than 30 seconds, the timeout and the plan's floor, a positive threshold,
    something to assert, trimmed headers with distinct keys, distinct regions that the plan
    allows and no more of them than it allows, and a policy; a certificate monitor has
    the fixed daily schedule from one region. *)
Theorem accepted_monitor_well_formed parse_url SplitHostPort ToLower Quote orgID id i plan :
  let limits := MonitorLimits_for orgID plan in
  let '(m, errs) := monitorFromInput parse_url SplitHostPort ToLower Quote orgID id i limits in
  errs = ∅ -> monitor_ok ToLower m /\ within_plan limits m /\ m_OrgID m = orgID /\ m_ID m = id.
Proof.
  cbv zeta. pose proof (accepted_ok parse_url SplitHostPort ToLower Quote orgID id i plan) as Hok. cbv zeta in Hok.
  pose proof (from_input_ids parse_url SplitHostPort ToLower Quote orgID id i (MonitorLimits_for orgID plan)) as [H1 H2].
  destruct (monitorFromInput _ _ _ _ _ _ _ _) as [m errs]. simpl in *. intros He. by destruct (Hok He).
Qed.

(** Stored monitors stay well formed.  Along any run of the api's monitor calls by
    any callers, the pipeline's transactions and manual incident work, every stored monitor
    is well formed; so its failure threshold is positive, as the alerting engine needs, and
    its interval in nanoseconds fits 64 bits, so the scheduler's interval is the stored one
    and at least thirty seconds. *)
Theorem stored_monitors_well_formed parse_url SplitHostPort ToLower Quote cipher db db' :
  rtc (api_step parse_url SplitHostPort ToLower Quote cipher) db db' -> monitors_ok ToLower db ->
  monitors_ok ToLower db' /\
  forall k row, monitors db' !! k = Some row ->
    1 <= m_FailureThreshold (mr_monitor row) /\ interval_of (mr_monitor row) = m_IntervalSeconds (mr_monitor row) * Second /\
    30 * Second <= interval_of (mr_monitor row).
Proof.
  intros Hr Hdb. assert (monitors_ok ToLower db') as Hdb' by (induction Hr; eauto using api_step_ok). split; [done|].
  intros k row Hk. destruct (Hdb' k row Hk) as [Hok Hfit]. split; [apply (ok_threshold _ _ Hok)|].
  pose proof (ok_interval _ _ Hok) as [Hi _]. unfold HardIntervalFloorSeconds in Hi.
  unfold fits_columns, int4 in Hfit. rewrite !andb_true_iff, !Z.ltb_lt in Hfit. destruct Hfit as [[[_ [_ Hlt]] _] _].
  unfold interval_of. rewrite wrap64_id by (unfold Second; lia). unfold Second. rewrite (proj2 (Z.leb_gt _ _)) by lia. lia.
Qed.

(** The plan caps enabled monitors.  Over any serial calls that create, change or
    delete monitors, by anyone, the number of an organization's enabled monitors never
    exceeds the larger of what it was and the cap of its plan. *)
Theorem enabled_monitors_capped parse_url SplitHostPort ToLower Quote cipher accounts db db' o :
  rtc (monitor_call parse_url SplitHostPort ToLower Quote cipher accounts) db db' -> wf db ->
  enabled_count o db' <= Z.max (enabled_count o db) (ml_MonitorsCap (monitorLimits_of o accounts)).
Proof.
  induction 1 as [|d1 d2 d3 Hc _ IH]; intros Hwf; [lia|].
  pose proof (call_cap _ _ _ _ _ _ _ _ o Hc Hwf). specialize (IH (call_wf _ _ _ _ _ _ _ _ Hc Hwf)). lia.
Qed.

(** Reading a monitor and writing it back.  What the api returns for a well-formed
    monitor within the plan is accepted as an update and restores the same monitor, except
    that the values of its secret headers, which are never returned, come back empty:
    a client that reads, edits and writes a monitor erases its secrets. *)
Theorem read_then_write_erases_only_secrets parse_url SplitHostPort ToLower Quote m limits :
  monitor_ok ToLower m -> within_plan limits m -> Forall (fun z => - 2 ^ 63 <= z < 2 ^ 63) (m_ChannelIDs m) ->
  url_error parse_url SplitHostPort (bool_decide (m_Type m = MonitorSSL)) (m_URL m) = "" ->
  monitorFromInput parse_url SplitHostPort ToLower Quote (m_OrgID m) (m_ID m) (dto_Fields (monitorDTO m)) limits =
    (redact m, ∅) /\
  (Forall (fun h => h_Secret h = false) (m_Headers m) -> redact m = m) /\
  Forall (fun h => h_Secret h = true -> h_Value h = "") (m_Headers (redact m)).
Proof.
  intros H1 H2 H3 H4. split; [by apply from_input_dto|]. unfold redact. split.
  - intros Hs. assert ((fun h => if h_Secret h then mkHeader (h_Key h) "" true else h) <$> m_Headers m = m_Headers m) as ->.
    { induction Hs as [|h l Hh _ IH]; [done|]. rewrite fmap_cons, IH, Hh. done. }
    by destruct m.
  - apply Forall_fmap, Forall_forall. intros h _. simpl. destruct (h_Secret h) eqn:E; simpl; [done|congruence].
Qed.

(** The two readers of expected_status_codes.  For a trimmed specification, the api's
    validator and the checker's parser agree except on blank entries: the parser accepts
    exactly the specifications the validator accepts that have no blank entry. *)
Theorem expected_codes_readers_agree spec :
  TrimSpace spec = spec ->
  is_ok (ParseStatusCodes spec) = true <->
  validExpectedStatusCodes spec = true /\ Forall (fun p => TrimSpace p <> "") (Split "," spec).
Proof.
  intros Ht. unfold ParseStatusCodes, validExpectedStatusCodes. rewrite Ht.
  destruct (String.eqb_spec spec "") as [->|Hne]; [split; [done|by intros [? _]]|].
  rewrite entries_agree. split.
  - intros [Hb Hv]. split; [|done]. rewrite (filter_nonblank (TrimSpace <$> Split "," spec)) by (by apply Forall_fmap).
    rewrite Hv. simpl. apply bool_decide_eq_true. destruct (Split "," spec) eqn:E; [|done].
    destruct spec; simpl in E; [done|]. by repeat case_match.
  - intros [[Hv _]%andb_true_iff Hb]. split; [done|]. by rewrite (filter_nonblank (TrimSpace <$> Split "," spec)) in Hv by (by apply Forall_fmap).
Qed.

(** A manual check is a scheduled one.  When the api accepts a manual check of a stored
    monitor, with the bus wired, it has published exactly one job for each region the
    scheduler would dispatch the monitor to, and answers with those regions. *)
Theorem check_now_fans_out_like_the_scheduler {G S : Type} `{!CheckNowGate G} `{!HashStore S} ToLower cipher marshal publish
    now accounts p q actor id mid m db (gate gate' : option G) (st st' : option S) regions js :
  humanInOrg p = Some (q, actor) -> parseMonitorID id = Some mid ->
  (Store.GetMonitor cipher (pr_OrgID q) mid db).1 = Ok m -> monitor_ok ToLower m ->
  CheckNow cipher marshal publish now accounts p id db gate true st = (Accepted regions, gate', js, st') ->
  regions = dispatch_regions m /\ js = checknow_job now (pr_OrgID q) m <$> dispatch_regions m /\ m_Enabled m = true.
Proof.
  intros Hp Hid Hg Hok. unfold CheckNow. rewrite Hp, Hid, Hg. destruct (negb (de_Allowed _)); [done|].
  destruct (bool_decide _ && _); [done|]. destruct (m_Enabled m); simpl; [|done].
  destruct (match gate with None => _ | Some g => _ end) as [dec g']. destruct (rt_allowed dec); simpl; [|done].
  destruct (fan_out _ _ _ _ _ _ _ _) as [[done js'] st''] eqn:E. destruct done; [|done]. intros [= <- <- <- <-].
  rewrite (fan_out_done _ _ _ _ _ _ _ _ _ E). by rewrite (checknow_regions_scheduled _ _ Hok).
Qed.

(** ** Examples *)

(** A trailing comma passes the api and is refused by the checker. *)
Lemma trailing_comma : validExpectedStatusCodes "200," = true /\ is_ok (ParseStatusCodes "200,") = false.
Proof. by split. Qed.

Definition ex_url (_ : string) : option (string * string) := Some ("https", "acme.test").
Definition ex_split (_ : string) : option (string * string) := None.
Definition ex_input (name : string) (enabled : bool) : MonitorInput :=
  mkMonitorInput "http" name "https://acme.test/health" "POST"
    [mkMonitorHeader "Authorization" (Some "Bearer abc") true; mkMonitorHeader "Accept" (Some "text/plain") false] "ping" "2xx, 304" 10 900
    enabled (Some 500) None 2 ["5"] [EUCentral] "quorum".
Definition ex_from (name : string) : Monitor * gmap string string :=
  monitorFromInput ex_url ex_split ToLowerASCII id 7 0 (ex_input name true) (MonitorLimits_for 7 PlanTier1).

Lemma accepted_monitor_well_formed_witness :
  monitor_ok ToLowerASCII (ex_from " Acme ").1 /\ within_plan (MonitorLimits_for 7 PlanTier1) (ex_from " Acme ").1 /\
  m_OrgID (ex_from " Acme ").1 = 7 /\ m_ID (ex_from " Acme ").1 = 0.
Proof.
  apply (accepted_monitor_well_formed ex_url ex_split ToLowerASCII id 7 0 (ex_input " Acme " true) PlanTier1). vm_compute. reflexivity.
Defined.

Definition ex_member : option Principal := Some (mkPrincipal ActorHuman 3 0 7 (Some RoleMember)).
Definition ex_orgs : MDB := mkMDB ∅ ∅ {[ 7 := mkOrganization "acme" "tier1" "en" false ]} ∅ 1 1.
Definition ex_created : DB :=
  (MonitorApi.CreateMonitor ex_url ex_split ToLowerASCII id None 0 ex_orgs ex_member (Some (ex_input "Acme" true)) empty_db).1.2.

Lemma stored_monitors_well_formed_witness : monitors_ok ToLowerASCII ex_created /\ size (monitors ex_created) = 1%nat.
Proof.
  split; [|vm_compute; reflexivity].
  apply (stored_monitors_well_formed ex_url ex_split ToLowerASCII id None empty_db ex_created); [|apply map_Forall_empty].
  apply rtc_once. apply api_creates.
Defined.

Lemma enabled_monitors_capped_witness : enabled_count 7 ex_created <= 10 /\ enabled_count 7 ex_created = 1.
Proof.
  split; [|vm_compute; reflexivity].
  apply (enabled_monitors_capped ex_url ex_split ToLowerASCII id None ex_orgs empty_db ex_created 7); [|apply wf_empty].
  apply rtc_once. apply call_create.
Defined.

Lemma read_then_write_erases_only_secrets_witness :
  monitorFromInput ex_url ex_split ToLowerASCII id 7 0 (dto_Fields (monitorDTO (ex_from "Acme").1)) (MonitorLimits_for 7 PlanTier1) =
    (redact (ex_from "Acme").1, ∅) /\ h_Value <$> m_Headers (redact (ex_from "Acme").1) = [""; "text/plain"].
Proof.
  split; [|vm_compute; reflexivity].
  destruct (accepted_ok ex_url ex_split ToLowerASCII id 7 0 (ex_input "Acme" true) PlanTier1) as [H1 H2]; [vm_compute; reflexivity|].
  apply (read_then_write_erases_only_secrets ex_url ex_split ToLowerASCII id (ex_from "Acme").1 (MonitorLimits_for 7 PlanTier1) H1 H2).
  - assert (m_ChannelIDs (ex_from "Acme").1 = [5]) as -> by (vm_compute; reflexivity). repeat constructor; lia.
  - reflexivity.
Defined.

Lemma expected_codes_readers_agree_witness : is_ok (ParseStatusCodes "2xx, 304") = true.
Proof.
  apply (expected_codes_readers_agree "2xx, 304"); [reflexivity|]. split; [reflexivity|].
  assert (Forall (fun p => p <> "") (TrimSpace <$> Split "," "2xx, 304")) as Hb.
  { assert (TrimSpace <$> Split "," "2xx, 304" = ["2xx"; "304"]) as -> by (vm_compute; reflexivity). by repeat constructor. }
  exact (proj1 (Forall_fmap _ _ _) Hb).
Defined.

#[local] Instance ex_hash : HashStore (gmap string (gmap string string)) := {|
  HSet k f v s := (Ok tt, <[k := <[f := v]> (default ∅ (s !! k))]> s);
  HGetAll k s := Ok (default ∅ (s !! k));
  Expire _ _ s := (Ok tt, s);
|}.
Definition ex_check : MResponse * option Redis * list CheckJob * option (gmap string (gmap string string)) :=
  CheckNow None (fun _ => "") (fun _ => true) 5 ex_orgs ex_member "1" ex_created (Some ∅) true (Some ∅).

Definition ex_stored_api : Monitor := Eval vm_compute in monitor_defaults 1 (ex_from "Acme").1.

Lemma ex_stored_api_ok : monitor_ok ToLowerASCII ex_stored_api.
Proof.
  destruct (accepted_ok ex_url ex_split ToLowerASCII id 7 0 (ex_input "Acme" true) PlanTier1) as [H1 _]; [vm_compute; reflexivity|].
  pose proof (monitor_ok_stored ToLowerASCII 1 _ _ H1 eq_refl) as Hok.
  match type of Hok with monitor_ok _ ?m => assert (m = ex_stored_api) as Hm by (vm_compute; reflexivity) end.
  by rewrite Hm in Hok.
Qed.

Lemma check_now_fans_out_like_the_scheduler_witness :
  ex_check.1.2 = checknow_job 5 7 ex_stored_api <$> dispatch_regions ex_stored_api /\ length ex_check.1.2 = 1%nat.
Proof.
  split; [|vm_compute; reflexivity].
  assert (ex_check = (Accepted [EUCentral], ex_check.1.1.2, ex_check.1.2, ex_check.2)) as Hc by (vm_compute; reflexivity).
  assert ((Store.GetMonitor None 7 1 ex_created).1 = Ok ex_stored_api) as Hg by (vm_compute; reflexivity).
  assert (humanInOrg ex_member = Some (mkPrincipal ActorHuman 3 0 7 (Some RoleMember), mkActor ActorHuman 3 0 7 RoleMember)) as Hp
    by (vm_compute; reflexivity).
  assert (parseMonitorID "1" = Some 1) as Hid by (vm_compute; reflexivity).
  revert Hc. generalize ex_check.1.1.2 ex_check.1.2 ex_check.2. unfold ex_check. intros g js st Hc.
  exact (proj1 (proj2 (check_now_fans_out_like_the_scheduler _ _ _ _ _ _ _ _ _ _ _ _ _ _ _ _ _ _ _ Hp Hid Hg ex_stored_api_ok Hc))).
Defined.
