(* ===== verification/CheckNowLimit.v ===== *)
(** * CheckNowLimit: the manual-check limit over time (src/internal/api/monitors.go)

    A run of manual checks of any organizations against one Redis, each request at its
    time.  Ghost entries record when a check was allowed and the end of the window that
    counted it; the invariant ties them to the keys, and the bounds follow. *)

From S2P Require Import Prelude Domain GoStrings CheckState Entitlements MonitorApi.
Open Scope Z_scope.

(** ** Keys *)

Lemma cdKey_inj o1 m1 o2 m2 : cdKey o1 m1 = cdKey o2 m2 -> o1 = o2 /\ m1 = m2.
Proof.
  unfold cdKey. intros He%string_app_inj_l.
  apply (sep_inj ":") in He as [Ho Hm]; [|apply pretty_Z_no_colon|apply pretty_Z_no_colon].
  split; by eapply (inj pretty).
Qed.
Lemma winKey_inj o1 o2 : winKey o1 = winKey o2 -> o1 = o2.
Proof. unfold winKey. intros He%string_app_inj_l. by eapply (inj pretty). Qed.
Lemma cdKey_winKey o m o' : cdKey o m <> winKey o'.
Proof. unfold cdKey, winKey. done. Qed.

(** ** The ghost history *)

Record checked := mkChecked { ck_at : Time; ck_org : Z; ck_monitor : Z; ck_window : Time }.

Definition counted_in (org w : Z) (x : checked) : bool := (ck_org x =? org) && (ck_window x =? w).
Definition count_in (org w : Z) (hist : list checked) : nat := length (List.filter (counted_in org w) hist).

Lemma counted_elem org w hist :
  (0 < count_in org w hist)%nat -> exists x, x ∈ hist /\ ck_org x = org /\ ck_window x = w.
Proof.
  unfold count_in. destruct (List.filter _ hist) as [|x l] eqn:Ef; simpl; [lia|]. intros _. exists x.
  assert (In x (List.filter (counted_in org w) hist)) as Hin by (rewrite Ef; by left).
  apply filter_In in Hin as [Hin [Ho%Z.eqb_eq Hw%Z.eqb_eq]%andb_true_iff]. by rewrite list_elem_of_In.
Qed.

Section limit.
Context (plan : Z -> Plan).
Definition lim (org : Z) : CheckNowLimits := CheckNowLimitsFor (plan org).
Definition cooldown (org : Z) : Duration := cn_CooldownSeconds (lim org) * Second.
Definition window (org : Z) : Duration := cn_WindowSeconds (lim org) * Second.
Definition budget (org : Z) : Z := cn_MaxPerWindow (lim org).

(** Every plan has a cooldown, a window and a budget. *)
Lemma limits_positive org : 0 < cooldown org /\ 0 < window org /\ 1 <= budget org < 2 ^ 62.
Proof.
  unfold cooldown, window, budget, lim. destruct (IsKnownPlan (plan org)) eqn:E.
  - apply known_cases in E. destruct_or! E; rewrite E; vm_compute; by repeat split.
  - unfold CheckNowLimitsFor, checkNowLimits. rewrite or_free_unknown by done. vm_compute. by repeat split.
Qed.

(** A later check of the same monitor is a cooldown after the earlier one. *)
Definition apart (later earlier : checked) : Prop :=
  ck_org later = ck_org earlier -> ck_monitor later = ck_monitor earlier -> ck_at earlier + cooldown (ck_org earlier) <= ck_at later.

(** The counter of an org's window, against the history. *)
Definition window_inv (r : Redis) (hist : list checked) (org : Z) : Prop :=
  match r !! winKey org with
  | None => forall x, x ∈ hist -> ck_org x <> org
  | Some (v, oe) => exists n e, v = pretty n /\ oe = Some e /\ 1 <= n <= budget org /\ Z.of_nat (count_in org e hist) = n /\
      forall x, x ∈ hist -> ck_org x = org -> ck_window x = e \/ ck_window x + window org <= e
  end.

Record gate_inv (now : Time) (r : Redis) (hist : list checked) : Prop := {
  gi_cooldown : forall x, x ∈ hist -> exists v e,
    r !! cdKey (ck_org x) (ck_monitor x) = Some (v, Some e) /\ ck_at x + cooldown (ck_org x) <= e;
  gi_no_eternal : forall org m v, r !! cdKey org m <> Some (v, None);
  gi_window : forall org, window_inv r hist org;
  gi_inside : forall x, x ∈ hist -> ck_window x - window (ck_org x) <= ck_at x < ck_window x /\ ck_at x <= now;
  gi_disjoint : forall x y, x ∈ hist -> y ∈ hist -> ck_org x = ck_org y ->
    ck_window x = ck_window y \/ ck_window x + window (ck_org x) <= ck_window y \/ ck_window y + window (ck_org x) <= ck_window x;
  gi_budget : forall org w, Z.of_nat (count_in org w hist) <= budget org;
  gi_apart : ForallOrdPairs apart hist;
}.

Lemma gate_inv_later now t r hist : gate_inv now r hist -> now <= t -> gate_inv t r hist.
Proof.
  intros [] Ht. split; try done. intros x Hx. destruct (gi_inside0 x Hx). lia.
Qed.

(** What the window's key holds for a request at [t]. *)
Lemma window_live t r hist org :
  window_inv r hist org ->
  (exists n e, live_at t (winKey org) r = Some (pretty n, Some e) /\ r !! winKey org = Some (pretty n, Some e) /\ t < e /\
     1 <= n <= budget org /\ Z.of_nat (count_in org e hist) = n /\
     forall x, x ∈ hist -> ck_org x = org -> ck_window x = e \/ ck_window x + window org <= e) \/
  (live_at t (winKey org) r = None /\ forall x, x ∈ hist -> ck_org x = org -> ck_window x <= t).
Proof.
  destruct (limits_positive org) as (_ & HW & _). unfold window_inv, live_at. destruct (r !! winKey org) as [[v oe]|].
  - intros (n & e & -> & -> & Hn & Hc & Hw). destruct (Z.ltb_spec t e).
    + left. exists n, e. auto 10.
    + right. split; [done|]. intros x Hx Ho. destruct (Hw x Hx Ho); lia.
  - intros Hno. right. split; [done|]. intros x Hx Ho. by destruct (Hno x Hx).
Qed.

(** An allowed check: its cooldown key was free, and its window [e] has room. *)
Lemma gate_inv_allow now t r hist org mid n e :
  gate_inv now r hist -> now <= t -> live_at t (cdKey org mid) r = None ->
  e - window org <= t < e -> 1 <= n <= budget org -> Z.of_nat (count_in org e hist) + 1 = n ->
  (forall x, x ∈ hist -> ck_org x = org -> ck_window x = e \/ ck_window x + window org <= e) ->
  gate_inv t (<[winKey org := (pretty n, Some e)]> (<[cdKey org mid := ("1", Some (t + cooldown org))]> r))
    (mkChecked t org mid e :: hist).
Proof.
  intros [] Ht Hcd He Hn Hc Hw. split.
  - intros x [->|Hx]%elem_of_cons; cbn [ck_org ck_monitor ck_at].
    + rewrite lookup_insert_ne by (intros Hk; by apply (cdKey_winKey org mid org)). rewrite lookup_insert_eq. eexists _, _. split; [done|lia].
    + destruct (gi_cooldown0 x Hx) as (v & e0 & Hr & Hle). rewrite lookup_insert_ne by (apply not_eq_sym, cdKey_winKey).
      destruct (decide (cdKey (ck_org x) (ck_monitor x) = cdKey org mid)) as [Hk|Hk].
      * rewrite Hk, lookup_insert_eq. apply cdKey_inj in Hk as [-> Hm]. eexists _, _. split; [done|].
        pose proof (gi_inside0 x Hx). lia.
      * rewrite lookup_insert_ne by done. eauto.
  - intros o m v. rewrite lookup_insert_ne by (apply not_eq_sym, cdKey_winKey). rewrite lookup_insert. case_decide; [done|apply gi_no_eternal0].
  - intros o. unfold window_inv. destruct (decide (o = org)) as [->|Ho].
    + rewrite lookup_insert_eq. exists n, e. split; [done|]. split; [done|]. split; [done|]. split.
      * unfold count_in in *. simpl. unfold counted_in at 1. simpl. rewrite !Z.eqb_refl. simpl. lia.
      * intros x [->|Hx]%elem_of_cons; simpl; [by left|]. by apply Hw.
    + rewrite lookup_insert_ne by (intros H%winKey_inj; done). rewrite lookup_insert_ne by apply cdKey_winKey.
      specialize (gi_window0 o). unfold window_inv in gi_window0. destruct (r !! winKey o) as [[v oe]|].
      * destruct gi_window0 as (n0 & e0 & -> & -> & Hn0 & Hc0 & Hw0). exists n0, e0. split; [done|]. split; [done|]. split; [done|].
        split; [|intros x [->|Hx]%elem_of_cons; simpl; [by intros <-|by apply Hw0]].
        unfold count_in in *. simpl. unfold counted_in at 1. simpl. by rewrite (proj2 (Z.eqb_neq org o)).
      * intros x [->|Hx]%elem_of_cons; simpl; [done|by apply gi_window0].
  - intros x [->|Hx]%elem_of_cons; simpl; [lia|]. pose proof (gi_inside0 x Hx). lia.
  - intros x y [->|Hx]%elem_of_cons [->|Hy]%elem_of_cons; simpl.
    + auto.
    + intros Ho. destruct (Hw y Hy (eq_sym Ho)); auto.
    + intros Ho. destruct (Hw x Hx Ho); rewrite ?Ho; auto.
    + by apply gi_disjoint0.
  - intros o w. unfold count_in in *. simpl. unfold counted_in at 1. simpl.
    destruct (Z.eqb_spec org o) as [<-|]; [|apply gi_budget0]. destruct (Z.eqb_spec e w) as [<-|]; [|apply gi_budget0]. simpl. lia.
  - constructor; [|done]. apply Forall_forall. intros x Hx Ho Hm. simpl in *. subst.
    destruct (gi_cooldown0 x Hx) as (v & e0 & Hr & Hle). unfold live_at in Hcd. rewrite Hr in Hcd. destruct (Z.ltb_spec t e0); [done|lia].
Qed.

(** One request. *)
Lemma request_step now t r hist org mid dec r' :
  gate_inv now r hist -> now <= t -> checkNowAllowed t org mid (lim org) r = (dec, r') ->
  if rt_allowed dec then exists w, gate_inv t r' (mkChecked t org mid w :: hist) else gate_inv t r' hist.
Proof.
  intros Hinv Ht Hreq. pose proof (gate_inv_later _ _ _ _ Hinv Ht) as Hlater. destruct (limits_positive org) as (HC & HW & HB).
  unfold checkNowAllowed in Hreq. destruct (window_spent t org (lim org) r) eqn:Es; [by simplify_eq/=|].
  unfold window_spent, cg_GetCache, redis_gate, GetCache in Es.
  cbn [cg_SetIfAbsent redis_gate] in Hreq. unfold SetIfAbsent in Hreq.
  destruct (live_at t (cdKey org mid) r) eqn:Ecd; [by simplify_eq/=|].
  fold (cooldown org) in Hreq. rewrite (proj2 (Z.leb_gt _ _) HC) in Hreq.
  set (r1 := <[cdKey org mid := ("1", Some (t + cooldown org))]> r) in *.
  assert (live_at t (winKey org) r1 = live_at t (winKey org) r) as Hl.
  { unfold live_at, r1. by rewrite lookup_insert_ne by apply cdKey_winKey. }
  cbn [cg_Incr cg_Expire redis_gate] in Hreq. unfold Incr in Hreq. rewrite Hl in Hreq.
  destruct (window_live t r hist org (gi_window _ _ _ Hinv org)) as [(n & e & Hlv & _ & Hte & Hn & Hc & Hw)|[Hlv Hw]]; rewrite Hlv in Hreq, Es.
  - rewrite Atoi_pretty in Es, Hreq by lia. apply Z.leb_gt in Es. fold (budget org) in Es.
    rewrite (proj2 (Z.eqb_neq n _)), (proj2 (Z.eqb_neq (n + 1) 1)), (proj2 (Z.ltb_ge (cn_MaxPerWindow (lim org)) (n + 1))) in Hreq
      by (unfold budget in *; lia).
    injection Hreq as <- <-. simpl. exists e. apply (gate_inv_allow now); try done; try lia.
    split; [|done]. destruct (counted_elem org e hist) as (x & Hx & Ho & Hxe); [lia|].
    pose proof (gi_inside _ _ _ Hinv x Hx) as [Hin Hnow]. rewrite Hxe, Ho in Hin. lia.
  - assert (live_at t (winKey org) (<[winKey org := ("1", None)]> r1) = Some ("1", None)) as Hl2 by (unfold live_at; by rewrite lookup_insert_eq).
    unfold redis_Expire in Hreq. rewrite Hl2 in Hreq. simpl in Hreq. fold (window org) in Hreq.
    rewrite (proj2 (Z.leb_gt _ _) HW), (proj2 (Z.ltb_ge (cn_MaxPerWindow (lim org)) 1)) in Hreq by (unfold budget in *; lia).
    injection Hreq as <- <-. simpl. exists (t + window org). rewrite insert_insert_eq. change "1" with (pretty 1) at 1.
    apply (gate_inv_allow now); try done; try lia.
    + destruct (Nat.eq_dec (count_in org (t + window org) hist) 0) as [->|Hne]; [done|]. exfalso.
      destruct (counted_elem org (t + window org) hist) as (x & Hx & Ho & Hxw); [lia|]. specialize (Hw x Hx Ho). lia.
    + intros x Hx Ho. right. specialize (Hw x Hx Ho). lia.
Qed.

(** ** Runs *)

(** The checks allowed, in the order of the requests (time, org, monitor). *)
Fixpoint manual_checks (reqs : list (Time * Z * Z)) (r : Redis) : list (Time * Z * Z) :=
  match reqs with
  | [] => []
  | (t, org, mid) :: reqs' =>
      let '(dec, r') := checkNowAllowed t org mid (lim org) r in
      (if rt_allowed dec then [(t, org, mid)] else []) ++ manual_checks reqs' r'
  end.

Definition request_of (x : checked) : Time * Z * Z := (ck_at x, ck_org x, ck_monitor x).

(** Requests come in time order, none before [now]. *)
Fixpoint in_order (now : Time) (reqs : list (Time * Z * Z)) : Prop :=
  match reqs with [] => True | (t, _, _) :: reqs' => now <= t /\ in_order t reqs' end.

Lemma run_inv now r hist reqs :
  gate_inv now r hist -> in_order now reqs ->
  exists now' r' hist', gate_inv now' r' (hist' ++ hist) /\ request_of <$> rev hist' = manual_checks reqs r.
Proof.
  revert now r hist. induction reqs as [|[[t org] mid] reqs IH]; intros now r hist Hinv Hord; [by exists now, r, []|].
  destruct Hord as [Ht Hord]. cbn [manual_checks]. destruct (checkNowAllowed t org mid (lim org) r) as [dec r1] eqn:E.
  pose proof (request_step _ _ _ _ _ _ _ _ Hinv Ht E) as Hstep. destruct (rt_allowed dec).
  - destruct Hstep as [w Hstep]. destruct (IH _ _ _ Hstep Hord) as (now' & r' & hist' & Hi & He).
    exists now', r', (hist' ++ [mkChecked t org mid w]). rewrite <- app_assoc. split; [done|].
    rewrite rev_app_distr, fmap_app, He. done.
  - destruct (IH _ _ _ Hstep Hord) as (now' & r' & hist' & Hi & He). by exists now', r', hist'.
Qed.

(** Checks of an org within one window's length of [a]. *)
Definition within (org a : Z) (q : Time * Z * Z) : bool :=
  let '(t, o, _) := q in (o =? org) && (a <=? t) && (t <? a + window org).

Lemma length_filter_split {A} (p q : A -> bool) l :
  (length (List.filter p l) <= length (List.filter (fun x => p x && q x) l) + length (List.filter (fun x => p x && negb (q x)) l))%nat.
Proof. induction l as [|x l IH]; simpl; [lia|]. destruct (p x), (q x); simpl; lia. Qed.

Lemma length_filter_mono {A} (p q : A -> bool) l :
  (forall x, x ∈ l -> p x = true -> q x = true) -> (length (List.filter p l) <= length (List.filter q l))%nat.
Proof.
  induction l as [|x l IH]; intros Hpq; simpl; [lia|].
  assert (length (List.filter p l) <= length (List.filter q l))%nat by (apply IH; set_solver).
  destruct (p x) eqn:Ep; [rewrite (Hpq x) by (set_solver || done)|destruct (q x)]; simpl; lia.
Qed.

(** At most two windows reach into such an interval. *)
Lemma two_windows now r hist org a :
  gate_inv now r hist -> Z.of_nat (length (List.filter (fun x => within org a (request_of x)) hist)) <= 2 * budget org.
Proof.
  intros [_ _ _ Hin Hdis Hbud _]. destruct (limits_positive org) as (_ & HW & HB).
  set (P := fun x => within org a (request_of x)).
  assert (forall x, P x = true -> ck_org x = org /\ a <= ck_at x < a + window org) as HP.
  { intros x. unfold P, within, request_of. rewrite !andb_true_iff, Z.eqb_eq, Z.leb_le, Z.ltb_lt. tauto. }
  destruct (List.filter P hist) as [|x1 l1] eqn:E1; [simpl; lia|]. rewrite <- E1.
  assert (x1 ∈ hist /\ P x1 = true) as [Hx1 Hp1] by (rewrite list_elem_of_In, <- filter_In, E1; by left).
  pose proof (length_filter_split P (counted_in org (ck_window x1)) hist) as Hs.
  assert (forall w, (length (List.filter (fun x => P x && counted_in org w x) hist) <= count_in org w hist)%nat) as Hle.
  { intros w. apply length_filter_mono. intros x _ [_ ?]%andb_true_iff. done. }
  pose proof (Hle (ck_window x1)). pose proof (Hbud org (ck_window x1)).
  destruct (List.filter (fun x => P x && negb (counted_in org (ck_window x1) x)) hist) as [|x2 l2] eqn:E2; [simpl in Hs; lia|].
  rewrite <- E2 in Hs.
  assert (x2 ∈ hist /\ P x2 = true /\ ck_window x2 <> ck_window x1) as (Hx2 & Hp2 & Hne).
  { assert (In x2 (List.filter (fun x => P x && negb (counted_in org (ck_window x1) x)) hist)) as Hi by (rewrite E2; by left).
    apply filter_In in Hi as [Hi [Hp Hc]%andb_true_iff]. rewrite list_elem_of_In. split; [done|]. split; [done|].
    intros Hw. unfold counted_in in Hc. destruct (HP _ Hp) as [Ho _]. by rewrite Ho, Hw, !Z.eqb_refl in Hc. }
  assert (length (List.filter (fun x => P x && negb (counted_in org (ck_window x1) x)) hist) <= count_in org (ck_window x2) hist)%nat.
  { apply length_filter_mono. intros x Hx [Hp Hc]%andb_true_iff. destruct (HP _ Hp) as [Ho Ht]. unfold counted_in in *. rewrite Ho, Z.eqb_refl in *.
    simpl in *. apply negb_true_iff, Z.eqb_neq in Hc. apply Z.eqb_eq.
    destruct (HP _ Hp1) as [Ho1 Ht1], (HP _ Hp2) as [Ho2 Ht2].
    pose proof (Hin x Hx) as [I _]. pose proof (Hin x1 Hx1) as [I1 _]. pose proof (Hin x2 Hx2) as [I2 _].
    pose proof (Hdis x x1 Hx Hx1 ltac:(congruence)) as D1. pose proof (Hdis x x2 Hx Hx2 ltac:(congruence)) as D2.
    pose proof (Hdis x1 x2 Hx1 Hx2 ltac:(congruence)) as D3. rewrite Ho, ?Ho1, ?Ho2 in *. lia. }
  pose proof (Hbud org (ck_window x2)). lia.
Qed.
End limit.

Lemma Incr_other t k k' r : k <> k' -> (Incr t k r).2 !! k' = r !! k'.
Proof. intros Hk. unfold Incr. repeat case_match; simpl; by rewrite ?lookup_insert_ne. Qed.
Lemma Expire_other t k k' ttl r : k <> k' -> (redis_Expire t k ttl r).2 !! k' = r !! k'.
Proof. intros Hk. unfold redis_Expire. repeat case_match; simpl; by rewrite ?lookup_insert_ne, ?lookup_delete_ne. Qed.

(** A counter whose expiry was never set keeps counting and never expires. *)
Lemma eternal_counter plan reqs r org n :
  r !! winKey org = Some (pretty n, None) -> 1 <= n < 2 ^ 62 ->
  Z.of_nat (length (List.filter (fun q => q.1.2 =? org) (manual_checks plan reqs r))) <= Z.max 0 (budget plan org - n).
Proof.
  revert r n. induction reqs as [|[[t o] mid] reqs IH]; intros r n Hr Hn; [simpl; lia|]. cbn [manual_checks].
  destruct (limits_positive plan o) as (HC & HW & HB).
  destruct (checkNowAllowed t o mid (lim plan o) r) as [dec r'] eqn:E.
  assert (r' !! winKey org = Some (pretty n, None) /\ (rt_allowed dec = true -> o <> org) \/
          o = org /\ n < budget plan org /\ r' !! winKey org = Some (pretty (n + 1), None)) as Hcases.
  { unfold checkNowAllowed in E. destruct (window_spent _ _ _ _) eqn:Es; [by simplify_eq/=; left|].
    cbn [cg_SetIfAbsent redis_gate] in E. unfold SetIfAbsent in E.
    destruct (live_at t (cdKey o mid) r); [by simplify_eq/=; left|]. cbn [cg_Incr cg_Expire redis_gate] in E.
    set (r1 := <[cdKey o mid := _]> r) in *.
    assert (r1 !! winKey org = Some (pretty n, None)) as Hr1 by (unfold r1; by rewrite lookup_insert_ne by apply cdKey_winKey).
    destruct (decide (o = org)) as [->|Ho].
    - right. split; [done|]. unfold window_spent in Es. cbn [cg_GetCache redis_gate] in Es. unfold GetCache, live_at in Es.
      rewrite Hr, Atoi_pretty in Es by lia. apply Z.leb_gt in Es. split; [done|]. unfold Incr, live_at in E. rewrite Hr1, Atoi_pretty in E by lia.
      rewrite (proj2 (Z.eqb_neq n _)), (proj2 (Z.eqb_neq (n + 1) 1)), (proj2 (Z.ltb_ge (cn_MaxPerWindow (lim plan org)) (n + 1))) in E
        by (unfold budget in *; lia). injection E as <- <-. apply lookup_insert_eq.
    - left. split; [|done]. assert (winKey o <> winKey org) as Hk by (by intros Hk%winKey_inj).
      pose proof (Incr_other t (winKey o) (winKey org) r1 Hk) as Hi. destruct (Incr t (winKey o) r1) as [[k|] g2]; [|by simplify_eq/=; rewrite Hi].
      pose proof (Expire_other t (winKey o) (winKey org) (cn_WindowSeconds (lim plan o) * Second) g2 Hk) as Hx. simpl in Hi.
      assert ((if k =? 1 then (redis_Expire t (winKey o) (cn_WindowSeconds (lim plan o) * Second) g2).2 else g2) !! winKey org =
              Some (pretty n, None)) as Hg by (destruct (k =? 1); congruence).
      destruct (_ <? k); injection E as _ <-; exact Hg. }
  rewrite List.filter_app, length_app.
  assert (length (List.filter (fun q : Time * Z * Z => (q.1.2 =? org)%Z) (if rt_allowed dec then [(t, o, mid)] else [])) <=
          if (rt_allowed dec && (o =? org)%Z)%bool then 1 else 0)%nat as Hhead.
  { destruct (rt_allowed dec); simpl; [|lia]. destruct (o =? org); simpl; lia. }
  destruct Hcases as [[Hr' Ha]|(-> & Hlt & Hr')].
  - specialize (IH r' n Hr' Hn). revert Hhead Ha. destruct (rt_allowed dec); intros Hhead Ha; simpl in Hhead |- *; [|lia].
    rewrite (proj2 (Z.eqb_neq o org)) by (by apply Ha). simpl. lia.
  - destruct (limits_positive plan org) as (_ & _ & HBo). specialize (IH r' (n + 1) Hr' ltac:(lia)).
    revert Hhead. destruct (rt_allowed dec); intros Hhead; simpl in Hhead |- *; rewrite ?Z.eqb_refl in *; simpl in *; lia.
Qed.

(** ** Theorems *)

Lemma ForallOrdPairs_snoc {A} (R : A -> A -> Prop) l x :
  ForallOrdPairs R l -> (forall y, y ∈ l -> R y x) -> ForallOrdPairs R (l ++ [x]).
Proof.
  induction 1 as [|y l Hy _ IH]; intros Hx; simpl; [repeat constructor|].
  constructor; [|apply IH; set_solver]. apply Forall_app. split; [done|]. constructor; [apply Hx; set_solver|constructor].
Qed.

(** Nothing of the limiter is in Redis yet. *)
Definition unused (r : Redis) : Prop := forall org, r !! winKey org = None /\ forall m, r !! cdKey org m = None.

Lemma gate_inv_start plan now r : unused r -> gate_inv plan now r [].
Proof.
  intros Hu. split; try (intros; set_solver).
  - intros org m v. by rewrite (proj2 (Hu org)).
  - intros org. unfold window_inv. rewrite (proj1 (Hu org)). set_solver.
  - intros org w. unfold count_in. simpl. destruct (limits_positive plan org) as (_ & _ & HB). lia.
  - constructor.
Qed.

(** C38: manual checks are bounded in time.  For any requests of any organizations, served one after
    the other in time order by a Redis that answers (the limit fails open where it does not), with
    plans that do not change meanwhile and counters not used before: two allowed checks of one
    monitor are at least the plan's cooldown apart, and in any stretch as long as the plan's window
    an organization gets at most twice its budget of checks (two windows can meet in it). *)
Theorem manual_checks_bounded plan now reqs r :
  unused r -> in_order now reqs ->
  ForallOrdPairs (fun q1 q2 => q1.1.2 = q2.1.2 -> q1.2 = q2.2 -> q1.1.1 + cooldown plan q1.1.2 <= q2.1.1) (manual_checks plan reqs r) /\
  forall org a, Z.of_nat (length (List.filter (within plan org a) (manual_checks plan reqs r))) <= 2 * budget plan org.
Proof.
  intros Hu Hord. destruct (run_inv plan now r [] reqs (gate_inv_start plan now r Hu) Hord) as (now' & r' & hist & Hinv & <-).
  rewrite app_nil_r in Hinv. split.
  - pose proof (gi_apart _ _ _ _ Hinv) as Hap. clear Hinv. induction Hap as [|x l Hx _ IH]; [constructor|].
    simpl. rewrite fmap_app. apply ForallOrdPairs_snoc; [done|].
    intros q1 (y & -> & Hy)%list_elem_of_fmap. simpl. intros Ho Hm.
    rewrite Forall_forall in Hx. unfold apart in Hx. apply Hx; [|done|done]. by apply list_elem_of_In, in_rev, list_elem_of_In.
  - intros org a. etrans; [|exact (two_windows plan now' r' hist org a Hinv)].
    apply inj_le. clear. generalize (within plan org a). intros P. induction hist as [|x l IH]; [done|].
    simpl. rewrite fmap_app, List.filter_app, length_app. simpl. destruct (P (request_of x)); simpl; lia.
Qed.

(** Redis when EXPIRE fails. *)
Definition expire_fails : CheckNowGate Redis := {|
  cg_SetIfAbsent := SetIfAbsent; cg_TTL := redis_TTL; cg_Incr := Incr; cg_Expire _ _ _ r := (Err ErrRedis, r); cg_GetCache := GetCache;
|}.

(** A failed expiry limits the organization's manual checks for good.  If setting the
    expiry of the counter fails on the first manual check of an organization, that check is
    allowed, but from then on, however much time passes and with Redis working again, no
    more than the rest of one window's budget is ever allowed to that organization, though
    the limit is documented to fail open. *)
Theorem failed_expire_limits_for_ever plan t org mid r reqs :
  unused r ->
  let '(dec, r') := checkNowAllowed (CheckNowGate0 := expire_fails) t org mid (lim plan org) r in
  rt_allowed dec = true /\
  Z.of_nat (length (List.filter (fun q => q.1.2 =? org) (manual_checks plan reqs r'))) <= budget plan org - 1.
Proof.
  intros Hu. destruct (Hu org) as [Hw Hc]. destruct (limits_positive plan org) as (HC & _ & HB).
  unfold checkNowAllowed, window_spent. cbn [cg_GetCache cg_SetIfAbsent cg_Incr cg_Expire expire_fails].
  unfold GetCache, SetIfAbsent, live_at. rewrite Hw, (Hc mid). unfold Incr, live_at.
  rewrite lookup_insert_ne by apply cdKey_winKey. rewrite Hw. simpl.
  rewrite (proj2 (Z.ltb_ge (cn_MaxPerWindow (lim plan org)) 1)) by (unfold budget in HB; lia). split; [done|].
  pose proof (eternal_counter plan reqs (<[winKey org := ("1", None)]> (<[cdKey org mid := ("1", if cooldown plan org <=? 0 then None else Some (t + cooldown plan org))]> r))
    org 1 (lookup_insert_eq _ _ _) ltac:(lia)) as He. unfold cooldown in He. lia.
Qed.

(** ** Examples *)

Definition ex_plan (_ : Z) : Plan := PlanTier1.
Definition ex_reqs : list (Time * Z * Z) := [(0, 1, 7); (10 * Second, 1, 7); (60 * Second, 1, 7); (61 * Second, 1, 8)].

Lemma unused_empty : unused ∅.
Proof. done. Qed.

Lemma manual_checks_bounded_witness :
  manual_checks ex_plan ex_reqs ∅ = [(0, 1, 7); (60 * Second, 1, 7); (61 * Second, 1, 8)] /\
  ForallOrdPairs (fun q1 q2 => q1.1.2 = q2.1.2 -> q1.2 = q2.2 -> q1.1.1 + cooldown ex_plan q1.1.2 <= q2.1.1) (manual_checks ex_plan ex_reqs ∅) /\
  forall org a, Z.of_nat (length (List.filter (within ex_plan org a) (manual_checks ex_plan ex_reqs ∅))) <= 2 * budget ex_plan org.
Proof.
  split; [vm_compute; reflexivity|]. apply (manual_checks_bounded ex_plan 0 ex_reqs ∅ unused_empty).
  simpl. unfold Second. lia.
Defined.

Lemma failed_expire_limits_for_ever_witness :
  Z.of_nat (length (List.filter (fun q => q.1.2 =? 1)
    (manual_checks ex_plan [(100 * Day, 1, 8)] (checkNowAllowed (CheckNowGate0 := expire_fails) 0 1 7 (lim ex_plan 1) ∅).2))) <= 9.
Proof. apply (failed_expire_limits_for_ever ex_plan 0 1 7 ∅ [(100 * Day, 1, 8)] unused_empty). Defined.
