(* ===== verification/StatusPages.v ===== *)
(** * StatusPages: public status pages
    (src/internal/store/statuspages.go, src/internal/api/statuspages.go)

    The pages and the monitors they display, beside the monitoring tables; the management
    handlers; the public read with its row-level-security policies (schema.sql).  [lower] is
    the database's lower().  Percentages are exact rationals, row timestamps are left out, and
    rows that tie in an ORDER BY are ordered by id. *)

From S2P Require Import Prelude Domain GoStrings Store Entitlements Authz Members MonitorApi.
From Stdlib Require Import QArith.
Open Scope Z_scope.

(** ** Data *)

Definition ThemeLight : string := "light".
Definition ThemeDark : string := "dark".

Record StatusPage := mkPage {
  sp_ID : Z;
  sp_OrgID : Z;
  sp_Name : string;
  sp_Slug : string;
  sp_LogoURL : string;
  sp_AccentColor : string;
  sp_Theme : string;
  sp_Published : bool;
  sp_CustomDomain : option string;
}.
Definition State (sp : StatusPage) : string := if sp_Published sp then "published" else "draft".

Record StatusPageMonitor := mkEntry {
  e_ID : Z;
  e_OrgID : Z;
  e_PageID : Z;
  e_MonitorID : Z;
  e_DisplayName : string;
  e_SortOrder : Z;
}.

Record UptimeSummary := mkUptime {
  Uptime24h : Q; Uptime7d : Q; Uptime90d : Q; Has24h : bool; Has7d : bool; Has90d : bool;
}.
Record PublicHistoryPoint := mkPoint { hp_At : Time; hp_Up : bool }.
Record PublicDisplayedMonitor := mkDisplayed {
  pd_DisplayName : string; pd_Status : PublicStatus; pd_Uptime : UptimeSummary; pd_History : list PublicHistoryPoint;
}.
Record PublicIncident := mkPublicIncident {
  pi_DisplayName : string; pi_StartedAt : Time; pi_EndedAt : option Time; pi_DurationSeconds : option Z; pi_Resolved : bool;
}.
Record PublicStatusPage := mkPublicPage {
  pp_Name : string;
  pp_Slug : string;
  pp_LogoURL : string;
  pp_AccentColor : string;
  pp_Theme : string;
  pp_Banner : PublicBanner;
  pp_Monitors : list PublicDisplayedMonitor;
  pp_Incidents : list PublicIncident;
  pp_UptimeMaxWindow : string;
}.

(** The two tables, beside the monitoring tables they refer to. *)
Record SDB := mkSDB {
  core : DB;
  pages : gmap Z StatusPage;
  entries : gmap Z StatusPageMonitor;
  seq_pages : Z;
  seq_entries : Z;
}.

Definition set_pages (m : gmap Z StatusPage) (db : SDB) : SDB := mkSDB (core db) m (entries db) (seq_pages db) (seq_entries db).
Definition set_entries (m : gmap Z StatusPageMonitor) (db : SDB) : SDB := mkSDB (core db) (pages db) m (seq_pages db) (seq_entries db).
Definition next_page (db : SDB) : SDB := mkSDB (core db) (pages db) (entries db) (seq_pages db + 1) (seq_entries db).
Definition next_entry (db : SDB) : SDB := mkSDB (core db) (pages db) (entries db) (seq_pages db) (seq_entries db + 1).

(** The monitoring tables move on; the foreign key drops the entries of deleted monitors. *)
Definition with_core (c : DB) (db : SDB) : SDB :=
  mkSDB c (pages db) (filter (fun kv => is_Some (monitors c !! e_MonitorID kv.2)) (entries db)) (seq_pages db) (seq_entries db).

Inductive spError := SPNoRows | ErrSlugTaken | ErrStatusPageNotFound | ErrMonitorNotInOrg | SPUnique | SPForeignKey | SPCheck.

(** ** Pages (store) *)

Section store.
Context (lower : string -> string).

Definition default_theme (t : string) : string := if String.eqb t "" then ThemeLight else t.
Definition valid_theme (t : string) : bool := String.eqb t ThemeLight || String.eqb t ThemeDark.

(** The unique index on lower(slug), for a row with key [id]. *)
Definition slug_taken (id : Z) (slug : string) (db : SDB) : bool :=
  bool_decide (is_Some (find_row (fun sp => String.eqb (lower (sp_Slug sp)) (lower slug) && negb (sp_ID sp =? id)) (pages db))).

Definition page_with (id : Z) (published : bool) (sp : StatusPage) : StatusPage :=
  mkPage id (sp_OrgID sp) (sp_Name sp) (sp_Slug sp) (sp_LogoURL sp) (sp_AccentColor sp) (default_theme (sp_Theme sp)) published
    (sp_CustomDomain sp).

Definition CreateStatusPage (sp : StatusPage) (db : SDB) : result spError StatusPage * SDB :=
  let id := seq_pages db in
  let db1 := next_page db in
  let row := page_with id (sp_Published sp) sp in
  if negb (valid_theme (sp_Theme row)) then (Err SPCheck, db1)
  else if slug_taken id (sp_Slug row) db then (Err ErrSlugTaken, db1)
  else (Ok row, set_pages (<[id := row]> (pages db1)) db1).

(** WHERE id = $1 AND org_id = $2 *)
Definition page_row (orgID id : Z) (db : SDB) : option StatusPage :=
  match pages db !! id with
  | Some sp => if sp_OrgID sp =? orgID then Some sp else None
  | None => None
  end.

Definition GetStatusPage (orgID id : Z) (db : SDB) : result spError StatusPage :=
  match page_row orgID id db with Some sp => Ok sp | None => Err SPNoRows end.

Definition ListStatusPages (orgID : Z) (db : SDB) : list StatusPage :=
  sort_by (fun a b => sp_ID b <=? sp_ID a) (snd <$> rows_where (fun sp => sp_OrgID sp =? orgID) (pages db)).

Definition CountStatusPages (orgID : Z) (db : SDB) : Z := rows_affected (fun sp => sp_OrgID sp =? orgID) (pages db).

Definition UpdateStatusPage (sp : StatusPage) (db : SDB) : result spError StatusPage * SDB :=
  match page_row (sp_OrgID sp) (sp_ID sp) db with
  | None => (Err SPNoRows, db)
  | Some _ =>
      let row := page_with (sp_ID sp) (sp_Published sp) sp in
      if negb (valid_theme (sp_Theme row)) then (Err SPCheck, db)
      else if slug_taken (sp_ID sp) (sp_Slug row) db then (Err ErrSlugTaken, db)
      else (Ok row, set_pages (<[sp_ID sp := row]> (pages db)) db)
  end.

(** The entries of the page go with it. *)
Definition DeleteStatusPage (orgID id : Z) (db : SDB) : Z * SDB :=
  match page_row orgID id db with
  | None => (0, db)
  | Some _ => (1, set_entries (filter (fun kv => e_PageID kv.2 <> id) (entries db)) (set_pages (delete id (pages db)) db))
  end.

Definition entry_le (a b : StatusPageMonitor) : bool := lex_le (e_SortOrder a, e_ID a) (e_SortOrder b, e_ID b).

Definition ListStatusPageMonitors (orgID pageID : Z) (db : SDB) : list StatusPageMonitor :=
  sort_by entry_le (snd <$> rows_where (fun e => (e_PageID e =? pageID) && (e_OrgID e =? orgID)) (entries db)).

Definition distinctCount (ids : list Z) : Z := Z.of_nat (size (list_to_set ids : gset Z)).

Definition count_in_org (orgID : Z) (ids : list Z) (db : SDB) : Z :=
  Z.of_nat (size (filter (fun kv => m_OrgID (mr_monitor kv.2) = orgID /\ kv.1 ∈ ids) (monitors (core db)))).

(** The inserts, in order, with the unique key (page, monitor) and the foreign key. *)
Fixpoint insert_entries (orgID pageID i : Z) (l : list StatusPageMonitor) (db : SDB) : result spError unit * SDB :=
  match l with
  | [] => (Ok tt, db)
  | e :: l' =>
      let id := seq_entries db in
      let db1 := next_entry db in
      if bool_decide (is_Some (find_row (fun f => (e_PageID f =? pageID) && (e_MonitorID f =? e_MonitorID e)) (entries db1)))
      then (Err SPUnique, db1)
      else if bool_decide (monitors (core db1) !! e_MonitorID e = None) then (Err SPForeignKey, db1)
      else insert_entries orgID pageID (i + 1) l'
             (set_entries (<[id := mkEntry id orgID pageID (e_MonitorID e) (e_DisplayName e) i]> (entries db1)) db1)
  end.

(** A rollback restores the tables and keeps the sequences. *)
Definition sp_rollback (before after : SDB) : SDB :=
  mkSDB (core before) (pages before) (entries before) (seq_pages after) (seq_entries after).

Definition SetStatusPageMonitors (orgID pageID : Z) (l : list StatusPageMonitor) (db : SDB) : result spError unit * SDB :=
  match page_row orgID pageID db with
  | None => (Err ErrStatusPageNotFound, db)
  | Some _ =>
      let ids := e_MonitorID <$> l in
      if negb (bool_decide (ids = [])) && negb (count_in_org orgID ids db =? distinctCount ids) then (Err ErrMonitorNotInOrg, db)
      else
        let db1 := set_entries (filter (fun kv => ~ (e_PageID kv.2 = pageID /\ e_OrgID kv.2 = orgID)) (entries db)) db in
        match insert_entries orgID pageID 0 l db1 with
        | (Ok _, db2) => (Ok tt, db2)
        | (Err e, db2) => (Err e, sp_rollback db db2)
        end
  end.
End store.

(** ** The public read (store) *)

Record publicMonitorRow := mkPublicRow {
  pub_monitorID : Z;
  pub_displayName : string;
  pub_enabled : bool;
  pub_hasResults : bool;
  pub_openInc : bool;
  pub_lastInc : option (Time * option Time);
}.

Section public.
Context (lower : string -> string) (slug : string).

(** The policies: no org is in context, so a row is visible only through the page that
    [app.public_page_slug] names. *)
Definition page_visible (sp : StatusPage) : bool :=
  sp_Published sp && negb (String.eqb slug "") && String.eqb (lower (sp_Slug sp)) (lower slug).
Definition entry_visible (db : SDB) (e : StatusPageMonitor) : bool :=
  match pages db !! e_PageID e with Some sp => page_visible sp | None => false end.
Definition monitor_visible (db : SDB) (mid : Z) : bool :=
  bool_decide (is_Some (find_row (fun e => (e_MonitorID e =? mid) && entry_visible db e) (entries db))).

Definition results_of (db : SDB) (mid : Z) : list (Z * CheckResult) :=
  rows_where (fun r => (r_MonitorID r =? mid) && monitor_visible db (r_MonitorID r)) (check_results (core db)).
Definition incidents_of (db : SDB) (mid : Z) : list (Z * Incident) :=
  rows_where (fun i => (i_MonitorID i =? mid) && monitor_visible db (i_MonitorID i)) (incidents (core db)).

(** ORDER BY started_at DESC LIMIT 1 *)
Definition newest_incident (l : list (Z * Incident)) : option (Time * option Time) :=
  (fun '(_, (s, e)) => (s, e)) <$>
    head (sort_by (fun a b : Z * (Time * option Time) => lex_le (b.2.1, b.1) (a.2.1, a.1))
           ((fun '(k, i) => (k, (i_StartedAt i, i_EndedAt i))) <$> l)).

(** The join of one entry with its monitor. *)
Definition public_row (db : SDB) (e : StatusPageMonitor) : option publicMonitorRow :=
  match monitors (core db) !! e_MonitorID e with
  | Some row =>
      if monitor_visible db (e_MonitorID e) then
        Some (mkPublicRow (e_MonitorID e) (e_DisplayName e) (m_Enabled (mr_monitor row))
                (negb (Z.of_nat (length (results_of db (e_MonitorID e))) =? 0))
                (existsb (fun ki => bool_decide (i_EndedAt ki.2 = None)) (incidents_of db (e_MonitorID e)))
                (newest_incident (incidents_of db (e_MonitorID e))))
      else None
  | None => None
  end.

Definition displayed_rows (db : SDB) (pageID : Z) : list publicMonitorRow :=
  omap (public_row db)
    (sort_by entry_le (snd <$> rows_where (fun e => (e_PageID e =? pageID) && entry_visible db e) (entries db))).

(** One window: the results since then, and how many of them were healthy. *)
Definition window (since : Time) (rs : list (Z * CheckResult)) : Q * bool :=
  let total := Z.of_nat (length (filter (fun kr => since <= r_CheckedAt kr.2) rs)) in
  let healthy := Z.of_nat (length (filter (fun kr => since <= r_CheckedAt kr.2 /\ r_Healthy kr.2 = true) rs)) in
  if total =? 0 then (inject_Z 100, false) else ((healthy # Z.to_pos total) * inject_Z 100, true)%Q.

(** The last thirty checks, oldest first. *)
Definition history (rs : list (Z * CheckResult)) : list PublicHistoryPoint :=
  reverse ((fun '(_, (t, up)) => mkPoint t up) <$>
    take 30 (sort_by (fun a b : Z * (Time * bool) => lex_le (b.2.1, b.1) (a.2.1, a.1))
              ((fun '(k, r) => (k, (r_CheckedAt r, r_Healthy r))) <$> rs))).

Definition publicMonitorUptime (now : Time) (db : SDB) (mid : Z) : UptimeSummary * list PublicHistoryPoint :=
  let rs := results_of db mid in
  let '(p1, h1) := window (now - 24 * Hour) rs in
  let '(p2, h2) := window (now - 7 * 24 * Hour) rs in
  let '(p3, h3) := window (now - 90 * 24 * Hour) rs in
  (mkUptime p1 p2 p3 h1 h2 h3, history rs).

Definition next_window (maxWindow : string) (s : UptimeSummary) : string :=
  if Has90d s then "90d"
  else if Has7d s && negb (String.eqb maxWindow "90d") then "7d"
  else if Has24h s && String.eqb maxWindow "" then "24h"
  else maxWindow.

Definition public_incident (r : publicMonitorRow) : option PublicIncident :=
  match pub_lastInc r with
  | None => None
  | Some (start, None) => Some (mkPublicIncident (pub_displayName r) start None None false)
  | Some (start, Some end_) =>
      Some (mkPublicIncident (pub_displayName r) start (Some end_) (Some (Z.quot (end_ - start) Second)) true)
  end.

(** One turn of the loop over the displayed rows. *)
Definition add_displayed (now : Time) (db : SDB)
    (acc : list PublicStatus * list PublicDisplayedMonitor * list PublicIncident * string) (r : publicMonitorRow) :
    list PublicStatus * list PublicDisplayedMonitor * list PublicIncident * string :=
  let '(statuses, mons, incs, maxWindow) := acc in
  let st := DerivePublicStatus (DeriveStatus (pub_enabled r) (pub_hasResults r) (pub_openInc r)) in
  if bool_decide (st = PublicHidden) then acc
  else
    let '(summary, hist) := publicMonitorUptime now db (pub_monitorID r) in
    (statuses ++ [st], mons ++ [mkDisplayed (pub_displayName r) st summary hist],
     incs ++ option_list (public_incident r), next_window maxWindow summary).

Definition GetPublicStatusPage (now : Time) (db : SDB) : result spError PublicStatusPage :=
  match find_row page_visible (pages db) with
  | None => Err SPNoRows
  | Some (_, sp) =>
      let '(statuses, mons, incs, maxWindow) := fold_left (add_displayed now db) (displayed_rows db (sp_ID sp)) ([], [], [], "") in
      Ok (mkPublicPage (sp_Name sp) (sp_Slug sp) (sp_LogoURL sp) (sp_AccentColor sp) (sp_Theme sp) (DeriveBanner statuses)
            mons incs maxWindow)
  end.
End public.

(** ** Validation (api) *)

Definition maxStatusPageNameLen : Z := 200.
Definition maxStatusPageSlugLen : Z := 63.
Definition maxDisplayNameLen : Z := 200.
Definition maxAccentColorLen : Z := 32.
Definition maxLogoURLLen : Z := 2048.

(** [^[a-z0-9]+(?:-[a-z0-9]+)*$]: [need] while a letter or digit must come next. *)
Definition slug_char (a : ascii) : bool := byte_in 97 122 a || byte_in 48 57 a.
Fixpoint slug_from (need : bool) (s : string) : bool :=
  match s with
  | EmptyString => negb need
  | String a r => if slug_char a then slug_from false r else byte_is 45 a && negb need && slug_from true r
  end.
Definition slugPattern (s : string) : bool := slug_from true s.

Record DisplayMonitorInput := mkDisplayInput { di_MonitorId : string; di_DisplayName : string }.
Record StatusPageInput := mkPageInput {
  si_Name : string;
  si_Slug : string;
  si_LogoUrl : string;
  si_AccentColor : string;
  si_Theme : string;
  si_CustomDomain : option string;
  si_DisplayMonitors : list DisplayMonitorInput;
}.

Definition display_key (i : Z) (f : string) : string := "display_monitors." +:+ pretty i +:+ "." +:+ f.

Fixpoint display_entries (orgID i : Z) (l : list DisplayMonitorInput) (seen : gset Z) (errs : gmap string string) :
    list StatusPageMonitor * gmap string string :=
  match l with
  | [] => ([], errs)
  | e :: l' =>
      let dn := TrimSpace (di_DisplayName e) in
      if String.eqb dn "" then display_entries orgID (i + 1) l' seen (<[display_key i "display_name" := "display_name is required"]> errs)
      else if maxDisplayNameLen <? slen dn
      then display_entries orgID (i + 1) l' seen (<[display_key i "display_name" := "display_name is too long"]> errs)
      else
        match Atoi (di_MonitorId e) with
        | Some mid =>
            if mid <=? 0
            then display_entries orgID (i + 1) l' seen (<[display_key i "monitor_id" := "monitor_id must be a monitor id"]> errs)
            else if bool_decide (mid ∈ seen)
            then display_entries orgID (i + 1) l' seen (<[display_key i "monitor_id" := "a monitor can appear once on a page"]> errs)
            else
              let '(es, errs') := display_entries orgID (i + 1) l' ({[mid]} ∪ seen) errs in
              (mkEntry 0 orgID 0 mid dn i :: es, errs')
        | None => display_entries orgID (i + 1) l' seen (<[display_key i "monitor_id" := "monitor_id must be a monitor id"]> errs)
        end
  end.

Definition page_name_error (name : string) : string :=
  if String.eqb name "" then "name is required"
  else if maxStatusPageNameLen <? slen name then "name must be at most 200 characters" else "".
Definition slug_error (slug : string) : string :=
  if String.eqb slug "" then "slug is required"
  else if maxStatusPageSlugLen <? slen slug then "slug must be at most 63 characters"
  else if negb (slugPattern slug) then "slug must be lowercase letters, digits, and hyphens" else "".

Definition custom_domain_of (d : option string) : option string :=
  match d with Some s => if String.eqb (TrimSpace s) "" then None else Some (TrimSpace s) | None => None end.

Section api.
Context (lower ToLower : string -> string).

Definition statusPageFromInput (orgID id : Z) (i : StatusPageInput) : StatusPage * list StatusPageMonitor * gmap string string :=
  let name := TrimSpace (si_Name i) in
  let slug := ToLower (TrimSpace (si_Slug i)) in
  let theme := default_theme (si_Theme i) in
  let errs :=
    field "name" (page_name_error name)
    (field "slug" (slug_error slug)
    (field "theme" (when (negb (valid_theme theme)) "theme must be light or dark")
    (field "accent_color" (when (maxAccentColorLen <? slen (si_AccentColor i)) "accent_color is too long")
    (field "logo_url" (when (maxLogoURLLen <? slen (si_LogoUrl i)) "logo_url is too long") ∅)))) in
  let '(es, errs') := display_entries orgID 0 (si_DisplayMonitors i) ∅ errs in
  (mkPage id orgID name slug (si_LogoUrl i) (si_AccentColor i) theme false (custom_domain_of (si_CustomDomain i)), es, errs').

(** ** Handlers (api) *)

Record StatusPageMonitorEntry := mkEntryDTO { ed_MonitorId : string; ed_DisplayName : string; ed_Order : Z }.
Record StatusPageDTO := mkPageDTO {
  sd_Id : string; sd_OrgId : string; sd_Name : string; sd_Slug : string; sd_LogoUrl : string; sd_AccentColor : string;
  sd_Theme : string; sd_State : string; sd_CustomDomain : option string; sd_DisplayMonitors : list StatusPageMonitorEntry;
}.

Definition statusPageDTO (sp : StatusPage) (es : list StatusPageMonitor) : StatusPageDTO :=
  mkPageDTO (pretty (sp_ID sp)) (pretty (sp_OrgID sp)) (sp_Name sp) (sp_Slug sp) (sp_LogoURL sp) (sp_AccentColor sp)
    (sp_Theme sp) (State sp) (sp_CustomDomain sp)
    ((fun e => mkEntryDTO (pretty (e_MonitorID e)) (e_DisplayName e) (e_SortOrder e)) <$> es).

Inductive SPResponse :=
  | SPlain (r : Response)
  | SInvalid (fields : gmap string string)
  | SPage (r : Response) (page : StatusPageDTO)
  | SPages (pages : list StatusPageDTO)
  | SPublic (page : PublicStatusPage).

Inductive statusPageAction := statusPageView | statusPageManage.
Definition canStatusPage (q : Principal) (actor : Actor) (action : statusPageAction) : Authz.Decision :=
  Can actor (match action with statusPageManage => ActionManageStatusPages | statusPageView => ActionViewMonitoring end)
    (org_resource (pr_OrgID q)).

Definition SPHandled : Type := SPResponse * SDB.

Definition page_right (p : option Principal) (action : statusPageAction) (db : SDB) (k : Principal -> SPHandled) : SPHandled :=
  match humanInOrg p with
  | None => (SPlain R401, db)
  | Some (q, actor) =>
      let d := canStatusPage q actor action in
      if negb (de_Allowed d) then (SPlain (R403 (de_Reason d)), db) else k q
  end.

Definition loadStatusPage (orgID id : Z) (db : SDB) : result spError (StatusPage * list StatusPageMonitor) :=
  sp ← GetStatusPage orgID id db; Ok (sp, ListStatusPageMonitors orgID id db).

(** The page as the last read of a handler answers it. *)
Definition answer_page (r : Response) (orgID id : Z) (db : SDB) : SPHandled :=
  match loadStatusPage orgID id db with
  | Ok (sp, es) => (SPage r (statusPageDTO sp es), db)
  | Err _ => (SPlain R500, db)
  end.

(** [applyMonitors]: the response of a refusal, or [None]. *)
Definition applyMonitors (orgID pageID : Z) (es : list StatusPageMonitor) (db : SDB) : option SPResponse * SDB :=
  match SetStatusPageMonitors orgID pageID es db with
  | (Ok _, db') => (None, db')
  | (Err ErrMonitorNotInOrg, db') => (Some (SInvalid {[ "display_monitors" := "a monitor is not in this org" ]}), db')
  | (Err ErrStatusPageNotFound, db') => (Some (SPlain (R422 "status page not found")), db')
  | (Err _, db') => (Some (SPlain R500), db')
  end.

Definition apply_and_answer (r : Response) (orgID id : Z) (es : list StatusPageMonitor) (db : SDB) : SPHandled :=
  match applyMonitors orgID id es db with
  | (Some resp, db') => (resp, db')
  | (None, db') => answer_page r orgID id db'
  end.

Definition slug_refusal : SPResponse := SInvalid {[ "slug" := "slug is already taken" ]}.

Definition api_ListStatusPages (p : option Principal) (db : SDB) : SPHandled :=
  page_right p statusPageView db (fun q =>
    (SPages ((fun sp => statusPageDTO sp (ListStatusPageMonitors (pr_OrgID q) (sp_ID sp) db)) <$> ListStatusPages (pr_OrgID q) db), db)).

Definition api_GetStatusPage (p : option Principal) (id : string) (db : SDB) : SPHandled :=
  page_right p statusPageView db (fun q =>
    match parseMonitorID id with
    | None => (SPlain R404, db)
    | Some pid =>
        match loadStatusPage (pr_OrgID q) pid db with
        | Ok (sp, es) => (SPage R200 (statusPageDTO sp es), db)
        | Err SPNoRows => (SPlain R404, db)
        | Err _ => (SPlain R500, db)
        end
    end).

Definition statusPageCap (orgID : Z) (accounts : MDB) : Z := StatusPageCap orgID (orgPlan orgID accounts).

Definition api_CreateStatusPage (accounts : MDB) (p : option Principal) (body : option StatusPageInput) (db : SDB) : SPHandled :=
  page_right p statusPageManage db (fun q =>
    match body with
    | None => (SPlain (R422 "body required"), db)
    | Some i =>
        let '(sp, es, errs) := statusPageFromInput (pr_OrgID q) 0 i in
        if negb (bool_decide (errs = ∅)) then (SInvalid errs, db)
        else
          let cap := statusPageCap (pr_OrgID q) accounts in
          if cap <=? CountStatusPages (pr_OrgID q) db then (SPlain (R402 cap), db)
          else
            match CreateStatusPage lower sp db with
            | (Err ErrSlugTaken, db') => (slug_refusal, db')
            | (Err _, db') => (SPlain R500, db')
            | (Ok created, db') => apply_and_answer R201 (pr_OrgID q) (sp_ID created) es db'
            end
    end).

Definition api_UpdateStatusPage (p : option Principal) (id : string) (body : option StatusPageInput) (db : SDB) : SPHandled :=
  page_right p statusPageManage db (fun q =>
    match body, parseMonitorID id with
    | None, _ => (SPlain (R422 "body required"), db)
    | Some _, None => (SPlain R404, db)
    | Some i, Some pid =>
        match GetStatusPage (pr_OrgID q) pid db with
        | Err SPNoRows => (SPlain R404, db)
        | Err _ => (SPlain R500, db)
        | Ok existing =>
            let '(sp, es, errs) := statusPageFromInput (pr_OrgID q) pid i in
            if negb (bool_decide (errs = ∅)) then (SInvalid errs, db)
            else
              let sp' := mkPage (sp_ID sp) (sp_OrgID sp) (sp_Name sp) (sp_Slug sp) (sp_LogoURL sp) (sp_AccentColor sp) (sp_Theme sp)
                           (sp_Published existing) (sp_CustomDomain sp) in
              match UpdateStatusPage lower sp' db with
              | (Err SPNoRows, db') => (SPlain R404, db')
              | (Err ErrSlugTaken, db') => (slug_refusal, db')
              | (Err _, db') => (SPlain R500, db')
              | (Ok _, db') => apply_and_answer R200 (pr_OrgID q) pid es db'
              end
        end
    end).

Definition api_PublishStatusPage (p : option Principal) (id : string) (body : option bool) (db : SDB) : SPHandled :=
  page_right p statusPageManage db (fun q =>
    match body, parseMonitorID id with
    | None, _ => (SPlain (R422 "body required"), db)
    | Some _, None => (SPlain R404, db)
    | Some published, Some pid =>
        match GetStatusPage (pr_OrgID q) pid db with
        | Err SPNoRows => (SPlain R404, db)
        | Err _ => (SPlain R500, db)
        | Ok sp =>
            let sp' := mkPage (sp_ID sp) (sp_OrgID sp) (sp_Name sp) (sp_Slug sp) (sp_LogoURL sp) (sp_AccentColor sp) (sp_Theme sp)
                         published (sp_CustomDomain sp) in
            match UpdateStatusPage lower sp' db with
            | (Err _, db') => (SPlain R500, db')
            | (Ok _, db') => answer_page R200 (pr_OrgID q) pid db'
            end
        end
    end).

Definition api_DeleteStatusPage (p : option Principal) (id : string) (db : SDB) : SPHandled :=
  page_right p statusPageManage db (fun q =>
    match parseMonitorID id with
    | None => (SPlain R204, db)
    | Some pid => (SPlain R204, (DeleteStatusPage (pr_OrgID q) pid db).2)
    end).

(** No principal: the slug is all a request carries. *)
Definition api_GetPublicStatusPage (now : Time) (slug : string) (db : SDB) : SPResponse :=
  let slug := TrimSpace slug in
  if String.eqb slug "" then SPlain R404
  else
    match GetPublicStatusPage lower slug now db with
    | Ok page => SPublic page
    | Err SPNoRows => SPlain R404
    | Err _ => SPlain R500
    end.
End api.
