(* ===== verification/StatusPagesInv.v ===== *)
(** * StatusPagesInv: what the status pages guarantee

    The public read depends on nothing but the public columns of the one published page the
    visitor names and of its monitors; every displayed monitor belongs to the org of its page;
    the displayed list is stored as given; only publishing changes what is public. *)

From S2P Require Import Prelude Domain GoStrings Store StoreInv Entitlements Authz Members MonitorApi MonitorApiInv StatusPages.
From Stdlib Require Import QArith.
Open Scope Z_scope.

(** ** Integrity of the two tables *)

Record spwf (lower : string -> string) (db : SDB) : Prop := {
  pg_keyed : forall k sp, pages db !! k = Some sp -> sp_ID sp = k /\ k < seq_pages db;
  pg_slug : forall k k' sp sp', pages db !! k = Some sp -> pages db !! k' = Some sp' ->
    lower (sp_Slug sp) = lower (sp_Slug sp') -> k = k';
  en_keyed : forall k e, entries db !! k = Some e -> e_ID e = k /\ k < seq_entries db;
  en_unique : forall k k' e e', entries db !! k = Some e -> entries db !! k' = Some e' ->
    e_PageID e = e_PageID e' -> e_MonitorID e = e_MonitorID e' -> k = k';
  en_page : forall k e, entries db !! k = Some e -> exists sp, pages db !! e_PageID e = Some sp /\ sp_OrgID sp = e_OrgID e;
  en_monitor : forall k e, entries db !! k = Some e ->
    exists row, monitors (core db) !! e_MonitorID e = Some row /\ m_OrgID (mr_monitor row) = e_OrgID e;
}.

(** ** What the public sees *)

(** Every column the public page must not depend on, blanked. *)
Definition scrub_page (sp : StatusPage) : StatusPage :=
  mkPage (sp_ID sp) 0 (sp_Name sp) (sp_Slug sp) (sp_LogoURL sp) (sp_AccentColor sp) (sp_Theme sp) true None.
Definition scrub_entry (e : StatusPageMonitor) : StatusPageMonitor :=
  mkEntry (e_ID e) 0 (e_PageID e) (e_MonitorID e) (e_DisplayName e) (e_SortOrder e).
Definition scrub_row (row : MonitorRow) : MonitorRow :=
  mkMonitorRow (mkMonitor 0 0 MonitorHTTP "" "" "" [] "" "" 0 0 (m_Enabled (mr_monitor row)) None None 0 [] DownPolicyUnset [])
    0 None None None.
Definition scrub_result (r : CheckResult) : CheckResult :=
  mkResult 0 0 (r_MonitorID r) "" 0 (r_CheckedAt r) (r_Healthy r) None None None None None None None.
Definition scrub_incident (i : Incident) : Incident :=
  mkIncident 0 0 (i_MonitorID i) (i_StartedAt i) (i_EndedAt i) None None None None.

(** What is meant to be public, on the columns of the tables: the page of a slug, when it is
    published; the entries of that page; and the monitors those entries name. *)
Definition public_page (lower : string -> string) (slug : string) (sp : StatusPage) : Prop :=
  sp_Published sp = true /\ slug <> "" /\ lower (sp_Slug sp) = lower slug.
Definition public_entry (lower : string -> string) (slug : string) (db : SDB) (e : StatusPageMonitor) : Prop :=
  map_Exists (fun k sp => k = e_PageID e /\ public_page lower slug sp) (pages db).
Definition public_monitor (lower : string -> string) (slug : string) (db : SDB) (mid : Z) : Prop :=
  map_Exists (fun _ e => e_MonitorID e = mid /\ public_entry lower slug db e) (entries db).
#[export] Instance public_page_dec lower slug sp : base.Decision (public_page lower slug sp).
Proof. unfold public_page. apply _. Defined.
#[export] Instance public_entry_dec lower slug db e : base.Decision (public_entry lower slug db e).
Proof. unfold public_entry. apply _. Defined.
#[export] Instance public_monitor_dec lower slug db mid : base.Decision (public_monitor lower slug db mid).
Proof. unfold public_monitor. apply _. Defined.

(** The database with only what is public, scrubbed. *)
Definition scrub (lower : string -> string) (slug : string) (db : SDB) : SDB :=
  mkSDB
    (mkDB (scrub_row <$> filter (fun kv => public_monitor lower slug db kv.1) (monitors (core db)))
       (scrub_result <$> filter (fun kv => public_monitor lower slug db (r_MonitorID kv.2)) (check_results (core db)))
       (scrub_incident <$> filter (fun kv => public_monitor lower slug db (i_MonitorID kv.2)) (incidents (core db)))
       ∅ ∅ ∅ 0 0 0 0)
    (scrub_page <$> filter (fun kv => public_page lower slug kv.2) (pages db))
    (scrub_entry <$> filter (fun kv => public_entry lower slug db kv.2) (entries db)) 0 0.

(** The policies let through what is public and nothing else. *)
Lemma page_visible_public lower slug sp : page_visible lower slug sp = true <-> public_page lower slug sp.
Proof. unfold page_visible, public_page. rewrite !andb_true_iff, negb_true_iff, String.eqb_neq, String.eqb_eq. tauto. Qed.

Lemma entry_visible_public lower slug db e : entry_visible lower slug db e = true <-> public_entry lower slug db e.
Proof.
  unfold entry_visible, public_entry, map_Exists. split.
  - destruct (pages db !! e_PageID e) as [sp|] eqn:Hp; [|done]. intros Hv%page_visible_public. by exists (e_PageID e), sp.
  - intros (k & sp & Hk & -> & Hp). rewrite Hk. by apply page_visible_public.
Qed.

Lemma monitor_visible_public lower slug db mid : monitor_visible lower slug db mid = true <-> public_monitor lower slug db mid.
Proof.
  unfold monitor_visible, public_monitor, map_Exists. rewrite bool_decide_eq_true, find_row_is_Some.
  split; intros (k & e & Hk & He); exists k, e; (split; [done|]).
  - apply andb_true_iff in He as [Hm Hv]. rewrite Z.eqb_eq in Hm. by apply entry_visible_public in Hv.
  - destruct He as [Hm Hv]. apply entry_visible_public in Hv. by rewrite Hv, (proj2 (Z.eqb_eq _ _) Hm).
Qed.

(** The same, by what the policies let through. *)
Definition scrub_seen (lower : string -> string) (slug : string) (db : SDB) : SDB :=
  let seen mid := monitor_visible lower slug db mid in
  mkSDB
    (mkDB (scrub_row <$> filter (fun kv => seen kv.1 = true) (monitors (core db)))
       (scrub_result <$> filter (fun kv => seen (r_MonitorID kv.2) = true) (check_results (core db)))
       (scrub_incident <$> filter (fun kv => seen (i_MonitorID kv.2) = true) (incidents (core db)))
       ∅ ∅ ∅ 0 0 0 0)
    (scrub_page <$> filter (fun kv => page_visible lower slug kv.2 = true) (pages db))
    (scrub_entry <$> filter (fun kv => entry_visible lower slug db kv.2 = true) (entries db)) 0 0.

Lemma scrub_visible lower slug db : scrub lower slug db = scrub_seen lower slug db.
Proof.
  unfold scrub, scrub_seen. cbv zeta. f_equal; [f_equal| |]; f_equal; apply map_filter_ext; intros k x _; cbn; symmetry;
    first [apply monitor_visible_public|apply page_visible_public|apply entry_visible_public].
Qed.

Section scrubbing.
Context (lower : string -> string) (slug : string) (db : SDB).
Abbreviation db' := (scrub_seen lower slug db).

Lemma scrub_page_visible sp : page_visible lower slug sp = true -> page_visible lower slug (scrub_page sp) = true.
Proof using Type. unfold page_visible, scrub_page. simpl. by destruct (sp_Published sp). Qed.

Lemma lookup_scrub_pages k sp' :
  pages db' !! k = Some sp' <-> exists sp, pages db !! k = Some sp /\ page_visible lower slug sp = true /\ sp' = scrub_page sp.
Proof using Type.
  simpl. rewrite lookup_fmap, fmap_Some. setoid_rewrite map_lookup_filter_Some. simpl. naive_solver.
Qed.

Lemma entry_visible_scrub e : entry_visible lower slug db' (scrub_entry e) = entry_visible lower slug db e.
Proof using Type.
  unfold entry_visible. simpl. rewrite lookup_fmap. destruct (pages db !! e_PageID e) as [sp|] eqn:E.
  - destruct (page_visible lower slug sp) eqn:Ev.
    + rewrite (proj2 (map_lookup_filter_Some _ _ _ _) (conj E Ev)). simpl. by apply scrub_page_visible.
    + by rewrite (proj2 (map_lookup_filter_None _ _ _)) by (right; naive_solver congruence).
  - by rewrite (proj2 (map_lookup_filter_None _ _ _)) by (by left).
Qed.

Lemma monitor_visible_scrub mid : monitor_visible lower slug db' mid = monitor_visible lower slug db mid.
Proof using Type.
  unfold monitor_visible. apply bool_decide_ext. rewrite !find_row_is_Some. simpl. split.
  - intros (k & e' & He' & [Hm Hp]%andb_true_iff). rewrite lookup_fmap in He'. apply fmap_Some in He' as (e & [He Hv]%map_lookup_filter_Some & ->).
    exists k, e. split; [done|]. simpl in *. by rewrite Hm, Hv.
  - intros (k & e & He & [Hm Hv]%andb_true_iff). exists k, (scrub_entry e).
    rewrite lookup_fmap, (proj2 (map_lookup_filter_Some _ _ _ _) (conj He Hv)). split; [done|].
    rewrite entry_visible_scrub, Hv. cbn [scrub_entry e_MonitorID]. by rewrite Hm.
Qed.

Lemma results_scrub mid : results_of lower slug db' mid ≡ₚ prod_map id scrub_result <$> results_of lower slug db mid.
Proof using Type.
  apply (rows_where_scrub _ _ (fun kv => monitor_visible lower slug db (r_MonitorID kv.2))). intros k r _. simpl.
  rewrite monitor_visible_scrub. by destruct (_ =? _), (monitor_visible _ _ _ _).
Qed.

Lemma incidents_scrub mid : incidents_of lower slug db' mid ≡ₚ prod_map id scrub_incident <$> incidents_of lower slug db mid.
Proof using Type.
  apply (rows_where_scrub _ _ (fun kv => monitor_visible lower slug db (i_MonitorID kv.2))). intros k i _. simpl.
  rewrite monitor_visible_scrub. by destruct (_ =? _), (monitor_visible _ _ _ _).
Qed.

Lemma newest_scrub mid : newest_incident (incidents_of lower slug db' mid) = newest_incident (incidents_of lower slug db mid).
Proof using Type.
  unfold newest_incident. do 2 f_equal. symmetry.
  apply (sort_by_key (fun a : Z * (Time * option Time) => (a.2.1, a.1)) fst).
  - done.
  - rewrite <- list_fmap_compose. erewrite list_fmap_ext; [apply (rows_where_keys (fun i => (i_MonitorID i =? mid) && _))|].
    by intros ? [].
  - rewrite incidents_scrub, <- list_fmap_compose. erewrite list_fmap_ext; [done|]. by intros ? [].
Qed.

Lemma history_scrub mid : history (results_of lower slug db' mid) = history (results_of lower slug db mid).
Proof using Type.
  unfold history. do 3 f_equal. symmetry.
  apply (sort_by_key (fun a : Z * (Time * bool) => (a.2.1, a.1)) fst).
  - done.
  - rewrite <- list_fmap_compose. erewrite list_fmap_ext; [apply (rows_where_keys (fun r => (r_MonitorID r =? mid) && _))|].
    by intros ? [].
  - rewrite results_scrub, <- list_fmap_compose. erewrite list_fmap_ext; [done|]. by intros ? [].
Qed.

Lemma length_filter_scrub (P : Z * CheckResult -> Prop) `{!forall x, base.Decision (P x)} mid :
  (forall k r, P (k, scrub_result r) <-> P (k, r)) ->
  length (filter P (results_of lower slug db' mid)) = length (filter P (results_of lower slug db mid)).
Proof using Type.
  intros Hp. rewrite results_scrub. induction (results_of lower slug db mid) as [|[k r] l IH]; [done|].
  rewrite fmap_cons, !filter_cons. simpl. specialize (Hp k r). do 2 case_decide; simpl; rewrite ?IH; tauto.
Qed.

Lemma uptime_scrub now mid : publicMonitorUptime lower slug now db' mid = publicMonitorUptime lower slug now db mid.
Proof using Type.
  unfold publicMonitorUptime. rewrite history_scrub.
  assert (forall since, window since (results_of lower slug db' mid) = window since (results_of lower slug db mid)) as Hw.
  { intros since. unfold window. by rewrite !length_filter_scrub. }
  by rewrite !Hw.
Qed.

Lemma public_row_scrub e :
  entry_visible lower slug db e = true -> public_row lower slug db' (scrub_entry e) = public_row lower slug db e.
Proof using Type.
  intros Hv. unfold public_row. simpl. rewrite lookup_fmap, monitor_visible_scrub.
  destruct (monitors (core db) !! e_MonitorID e) as [row|] eqn:E.
  - destruct (monitor_visible lower slug db (e_MonitorID e)) eqn:Em.
    + rewrite (proj2 (map_lookup_filter_Some _ _ _ _) (conj E Em)). simpl.
      rewrite newest_scrub, results_scrub, length_fmap, incidents_scrub. do 2 f_equal.
      induction (incidents_of _ _ _ _) as [|[k i] l IH]; [done|]. rewrite fmap_cons. cbn [existsb]. by rewrite IH.
    + by destruct (filter _ _ !! _).
  - by rewrite (proj2 (map_lookup_filter_None _ _ _)) by (by left).
Qed.

Hypothesis Hwf : spwf lower db.

Lemma displayed_scrub pid : displayed_rows lower slug db' pid = displayed_rows lower slug db pid.
Proof using Hwf.
  unfold displayed_rows.
  set (l := rows_where (fun e => (e_PageID e =? pid) && entry_visible lower slug db e) (entries db)).
  assert (rows_where (fun e => (e_PageID e =? pid) && entry_visible lower slug db' e) (entries db') ≡ₚ prod_map id scrub_entry <$> l) as Hl.
  { apply (rows_where_scrub _ _ (fun kv => entry_visible lower slug db kv.2)). intros k e _.
    rewrite entry_visible_scrub. simpl. by destruct (_ =? _), (entry_visible _ _ _ _). }
  assert (NoDup (e_ID <$> l.*2)) as Hnd.
  { assert (e_ID <$> l.*2 = l.*1) as ->; [|apply rows_where_keys]. rewrite <- list_fmap_compose. apply list_fmap_ext.
    intros i [k e] Hi%list_elem_of_lookup_2. apply rows_where_elem in Hi as [Hi _]. by destruct (en_keyed _ _ Hwf _ _ Hi). }
  transitivity (omap (public_row lower slug db') (sort_by entry_le (scrub_entry <$> l.*2))).
  { f_equal. symmetry. apply (sort_by_key (fun e => (e_SortOrder e, e_ID e)) e_ID); [done|by rewrite <- list_fmap_compose|].
    rewrite Hl, <- !list_fmap_compose. done. }
  rewrite (sort_by_fmap scrub_entry entry_le entry_le) by done.
  assert (forall e, e ∈ sort_by entry_le l.*2 -> entry_visible lower slug db e = true) as Hv.
  { intros e. rewrite sort_by_perm. intros ([k e'] & -> & [_ Hp]%rows_where_elem)%list_elem_of_fmap.
    by apply andb_true_iff in Hp as [_ ?]. }
  induction (sort_by entry_le l.*2) as [|e es IH]; [done|]. rewrite fmap_cons. cbn [omap list_omap].
  rewrite public_row_scrub by (apply Hv; left). rewrite IH by (intros; apply Hv; by right). done.
Qed.

Lemma find_page_scrub : find_row (page_visible lower slug) (pages db') = prod_map id scrub_page <$> find_row (page_visible lower slug) (pages db).
Proof using Hwf.
  destruct (find_row (page_visible lower slug) (pages db)) as [[k sp]|] eqn:E; simpl.
  - apply find_row_Some in E as [Hk Hv]. apply find_row_unique.
    + apply lookup_scrub_pages. eauto.
    + by apply scrub_page_visible.
    + intros k2 v2 (sp2 & Hk2 & Hv2 & ->)%lookup_scrub_pages _. apply (pg_slug _ _ Hwf _ _ _ _ Hk2 Hk).
      unfold page_visible in Hv, Hv2. rewrite !andb_true_iff, !String.eqb_eq in Hv, Hv2. destruct Hv, Hv2. congruence.
  - rewrite find_row_None in E |- *. intros k v (sp & Hk & Hv & _)%lookup_scrub_pages. by rewrite (E _ _ Hk) in Hv.
Qed.

Lemma public_scrub now : GetPublicStatusPage lower slug now db' = GetPublicStatusPage lower slug now db.
Proof using Hwf.
  unfold GetPublicStatusPage. rewrite find_page_scrub.
  destruct (find_row _ (pages db)) as [[k sp]|]; simpl; [|done]. rewrite displayed_scrub.
  assert (forall l acc, fold_left (add_displayed lower slug now db') l acc = fold_left (add_displayed lower slug now db) l acc) as Hf.
  { induction l as [|r l IH]; intros acc; [done|]. simpl. rewrite IH. f_equal. unfold add_displayed. by rewrite uptime_scrub. }
  by rewrite Hf.
Qed.
End scrubbing.

(** ** Monitors never change hands *)

Definition orgs_kept (db db' : DB) : Prop :=
  forall k row row', monitors db !! k = Some row -> monitors db' !! k = Some row' ->
    m_OrgID (mr_monitor row') = m_OrgID (mr_monitor row).

Lemma same_config_orgs db db' : same_config db db' -> orgs_kept db db'.
Proof.
  intros Hc k row row' Hr Hr'. pose proof (f_equal (.!! k) Hc) as Hk. simpl in Hk. rewrite !lookup_fmap, Hr, Hr' in Hk.
  simpl in Hk. congruence.
Qed.

Lemma create_monitor_orgs cipher n m db : wf db -> orgs_kept db (Store.CreateMonitor cipher n m db).2.
Proof.
  intros Hwf k row row' Hr. unfold Store.CreateMonitor, lift. cbn [mbind tx_bind].
  destruct (encodeHeaders _ _ _); simpl; [|congruence]. rewrite lookup_insert_ne; [congruence|].
  destruct (wf_mon_id _ Hwf _ _ Hr). lia.
Qed.

Lemma update_monitor_orgs cipher n m db : orgs_kept db (Store.UpdateMonitor cipher n m db).2.
Proof.
  intros k row row' Hr. unfold Store.UpdateMonitor, mbind at 1, tx_bind at 1, lift. destruct (encodeHeaders _ _ _); [|simpl; congruence].
  unfold WithOrg, mbind, tx_bind, select_row.
  destruct (monitor_row (m_OrgID m) (m_ID m) db) as [old|] eqn:E; [|simpl; congruence]. apply monitor_row_Some in E as [Ho He].
  unfold lift, scanMonitor, mbind, result_bind; simpl. destruct (decodeHeaders cipher a); simpl; [|congruence].
  rewrite lookup_insert. case_decide; [|congruence]. intros [= <-]. simpl. congruence.
Qed.

Lemma delete_monitor_orgs org id db : orgs_kept db (Store.DeleteMonitor org id db).2.
Proof.
  intros k row row' Hr. unfold Store.DeleteMonitor, WithOrg, mbind, tx_bind, select.
  destruct (monitor_row org id db); simpl; [|congruence]. rewrite lookup_delete. case_decide; congruence.
Qed.

Lemma db_step_orgs cipher db db' : db_step cipher db db' -> wf db -> orgs_kept db db'.
Proof.
  intros Hst Hwf. destruct Hst.
  - by apply create_monitor_orgs.
  - apply update_monitor_orgs.
  - apply delete_monitor_orgs.
  - apply same_config_orgs, keeps_UpsertCheckResult.
  - apply same_config_orgs, keeps_InsertCheckResult.
  - apply same_config_orgs, keeps_ApplyAlertDecision.
  - apply same_config_orgs, keeps_ManualCloseIncident.
  - apply same_config_orgs, keeps_AddIncidentAnnotation.
  - apply same_config_orgs, keeps_CreateIncident.
Qed.

(** ** Every operation preserves integrity *)

Section integrity.
Context (lower : string -> string).
Abbreviation ok := (spwf lower).

Lemma spwf_seqs db s t : ok db -> seq_pages db <= s -> seq_entries db <= t -> ok (mkSDB (core db) (pages db) (entries db) s t).
Proof using Type.
  intros [H1 H2 H3 H4 H5 H6] Hs Ht. split; simpl; eauto.
  - intros k sp Hk. destruct (H1 _ _ Hk). split; [done|lia].
  - intros k e Hk. destruct (H3 _ _ Hk). split; [done|lia].
Qed.

Lemma spwf_filter_entries (P : Z * StatusPageMonitor -> Prop) `{!forall x, base.Decision (P x)} db :
  ok db -> ok (set_entries (filter P (entries db)) db).
Proof using Type.
  intros [H1 H2 H3 H4 H5 H6]. split; simpl; eauto.
  - intros k e [Hk _]%map_lookup_filter_Some. eauto.
  - intros k k' e e' [Hk _]%map_lookup_filter_Some [Hk' _]%map_lookup_filter_Some. eauto.
  - intros k e [Hk _]%map_lookup_filter_Some. eauto.
  - intros k e [Hk _]%map_lookup_filter_Some. eauto.
Qed.

Lemma slug_free id slug db :
  slug_taken lower id slug db = false ->
  forall k sp, pages db !! k = Some sp -> lower (sp_Slug sp) = lower slug -> sp_ID sp = id.
Proof using Type.
  unfold slug_taken. intros Hf%bool_decide_eq_false_1 k sp Hk Hs. apply dec_stable. intros Hne. apply Hf, find_row_is_Some.
  exists k, sp. split; [done|]. rewrite Hs, String.eqb_refl, (proj2 (Z.eqb_neq _ _) Hne). done.
Qed.

(** A page is written under its id: a new one, or one of the same org. *)
Lemma spwf_write_page db sp :
  ok db -> sp_ID sp < seq_pages db -> slug_taken lower (sp_ID sp) (sp_Slug sp) db = false ->
  (forall old, pages db !! sp_ID sp = Some old -> sp_OrgID old = sp_OrgID sp) ->
  ok (set_pages (<[sp_ID sp := sp]> (pages db)) db).
Proof using Type.
  intros [H1 H2 H3 H4 H5 H6] Hlt Hfree Hold. pose proof (slug_free _ _ _ Hfree) as Hs. split; simpl; eauto.
  - intros k s. rewrite lookup_insert. case_decide as Hk; [intros [= <-]; subst; done|]. apply H1.
  - intros k k' s s'. rewrite !lookup_insert. do 2 case_decide; try congruence.
    + intros [= <-] Hk' He. subst. rewrite <- (Hs _ _ Hk' (eq_sym He)). by destruct (H1 _ _ Hk').
    + intros Hk [= <-] He. subst. rewrite <- (Hs _ _ Hk He). symmetry. by destruct (H1 _ _ Hk).
    + intros Hk Hk'. by apply (H2 k k' s s').
  - intros k e Hk. destruct (H5 _ _ Hk) as (s & Hp & Ho). rewrite lookup_insert. case_decide as Hc; [|eauto].
    exists sp. split; [done|]. rewrite <- Ho. symmetry. apply Hold. by rewrite Hc.
Qed.

Lemma page_row_Some org id db sp : page_row org id db = Some sp -> pages db !! id = Some sp /\ sp_OrgID sp = org.
Proof using Type. unfold page_row. intros. repeat case_match; simplify_eq. split; [done|]. by apply Z.eqb_eq. Qed.

Lemma spwf_CreateStatusPage sp db : ok db -> ok (CreateStatusPage lower sp db).2.
Proof using Type.
  intros Hwf. unfold CreateStatusPage.
  assert (ok (next_page db)) as Hn by (apply spwf_seqs; [done|lia|lia]).
  destruct (valid_theme _); simpl; [|done]. destruct (slug_taken _ _ _ _) eqn:Es; simpl; [done|].
  apply (spwf_write_page (next_page db) (page_with (seq_pages db) (sp_Published sp) sp)); simpl; [done|lia|exact Es|].
  intros old Hold. destruct (pg_keyed _ _ Hwf _ _ Hold). lia.
Qed.

Lemma spwf_UpdateStatusPage sp db : ok db -> ok (UpdateStatusPage lower sp db).2.
Proof using Type.
  intros Hwf. unfold UpdateStatusPage. destruct (page_row _ _ db) as [old|] eqn:E; simpl; [|done].
  apply page_row_Some in E as [Hk Ho]. destruct (valid_theme _); simpl; [|done]. destruct (slug_taken _ _ _ _) eqn:Es; simpl; [done|].
  apply (spwf_write_page db (page_with (sp_ID sp) (sp_Published sp) sp)); simpl; [done| |exact Es|].
  - by destruct (pg_keyed _ _ Hwf _ _ Hk).
  - intros old' Hold. congruence.
Qed.

Lemma spwf_DeleteStatusPage org id db : ok db -> ok (DeleteStatusPage org id db).2.
Proof using Type.
  intros [H1 H2 H3 H4 H5 H6]. unfold DeleteStatusPage. destruct (page_row org id db); simpl; [|by split].
  split; simpl.
  - intros k sp [_ Hk]%lookup_delete_Some. eauto.
  - intros k k' sp sp' [_ Hk]%lookup_delete_Some [_ Hk']%lookup_delete_Some. eauto.
  - intros k e [Hk _]%map_lookup_filter_Some. eauto.
  - intros k k' e e' [Hk _]%map_lookup_filter_Some [Hk' _]%map_lookup_filter_Some. eauto.
  - intros k e [Hk Hp]%map_lookup_filter_Some. simpl in Hp. destruct (H5 _ _ Hk) as (sp & Hs & Ho).
    exists sp. by rewrite lookup_delete_ne by congruence.
  - intros k e [Hk _]%map_lookup_filter_Some. eauto.
Qed.

Lemma spwf_insert_entry db e :
  ok db -> e_ID e < seq_entries db -> entries db !! e_ID e = None ->
  find_row (fun f => (e_PageID f =? e_PageID e) && (e_MonitorID f =? e_MonitorID e)) (entries db) = None ->
  (exists sp, pages db !! e_PageID e = Some sp /\ sp_OrgID sp = e_OrgID e) ->
  (exists row, monitors (core db) !! e_MonitorID e = Some row /\ m_OrgID (mr_monitor row) = e_OrgID e) ->
  ok (set_entries (<[e_ID e := e]> (entries db)) db).
Proof using Type.
  intros [H1 H2 H3 H4 H5 H6] Hlt Hnew Hu Hp Hm. rewrite find_row_None in Hu.
  assert (forall k f, entries db !! k = Some f -> e_PageID f = e_PageID e -> e_MonitorID f = e_MonitorID e -> False) as Hu'.
  { intros k f Hk Ha Hb. specialize (Hu _ _ Hk). by rewrite Ha, Hb, !Z.eqb_refl in Hu. }
  split; simpl; eauto.
  - intros k f. rewrite lookup_insert. case_decide; [intros [= <-]; by subst|]. apply H3.
  - intros k k' f f'. rewrite !lookup_insert. do 2 case_decide; try congruence.
    + intros [= <-] Hk' Ha Hb. by destruct (Hu' _ _ Hk').
    + intros Hk [= <-] Ha Hb. by destruct (Hu' _ _ Hk).
    + apply H4.
  - intros k f. rewrite lookup_insert. case_decide; [by intros [= <-]|]. apply H5.
  - intros k f. rewrite lookup_insert. case_decide; [by intros [= <-]|]. apply H6.
Qed.

Lemma spwf_insert_entries org pid i l db :
  ok db -> (exists sp, pages db !! pid = Some sp /\ sp_OrgID sp = org) ->
  (forall e, e ∈ l -> exists row, monitors (core db) !! e_MonitorID e = Some row /\ m_OrgID (mr_monitor row) = org) ->
  ok (insert_entries org pid i l db).2 /\ seq_entries db <= seq_entries (insert_entries org pid i l db).2 /\
  seq_pages db <= seq_pages (insert_entries org pid i l db).2.
Proof using Type.
  revert i db. induction l as [|e l IH]; intros i db Hwf Hp Hl; [simpl; split; [done|lia]|]. cbn [insert_entries].
  assert (ok (next_entry db)) as Hn by (apply spwf_seqs; [done|lia|lia]).
  case_bool_decide as Hu; [simpl; split; [done|lia]|]. apply eq_None_not_Some in Hu.
  case_bool_decide as Hm; [simpl; split; [done|lia]|]. simpl in *.
  set (e' := mkEntry (seq_entries db) org pid (e_MonitorID e) (e_DisplayName e) i).
  destruct (IH (i + 1) (set_entries (<[e_ID e' := e']> (entries db)) (next_entry db))) as (H1 & H2 & H3).
  - apply (spwf_insert_entry (next_entry db) e'); simpl; [done|lia| |done|done|by apply Hl; left].
    destruct (entries db !! seq_entries db) as [f|] eqn:E; [|done]. destruct (en_keyed _ _ Hwf _ _ E). lia.
  - done.
  - intros f Hf. apply Hl. by right.
  - split; [exact H1|]. simpl in *. unfold set_entries, next_entry in *. simpl in *. lia.
Qed.

(** The count of distinct ids found equals the count asked for: all are the org's. *)
Lemma all_in_org org ids db :
  count_in_org org ids db = distinctCount ids ->
  forall id, id ∈ ids -> exists row, monitors (core db) !! id = Some row /\ m_OrgID (mr_monitor row) = org.
Proof using Type.
  unfold count_in_org, distinctCount. intros Hc%Nat2Z.inj id Hid. rewrite <- size_dom in Hc.
  assert (id ∈ dom (filter (fun kv : Z * MonitorRow => m_OrgID (mr_monitor kv.2) = org /\ kv.1 ∈ ids) (monitors (core db)))) as Hd.
  { refine (proj2 (set_subseteq_size_equiv _ (list_to_set ids) _ _ id) _); [|lia|by apply elem_of_list_to_set].
    intros k [row [_ [_ Hk]]%map_lookup_filter_Some]%elem_of_dom. by apply elem_of_list_to_set. }
  apply elem_of_dom in Hd as [row [Hr [Ho _]]%map_lookup_filter_Some]. eauto.
Qed.

Lemma spwf_SetStatusPageMonitors org pid l db : ok db -> ok (SetStatusPageMonitors org pid l db).2.
Proof using Type.
  intros Hwf. unfold SetStatusPageMonitors. destruct (page_row org pid db) as [sp|] eqn:E; [|done].
  apply page_row_Some in E as [Hk Ho].
  destruct (negb (bool_decide _) && negb _) eqn:Ec; [done|].
  set (db1 := set_entries _ db). assert (ok db1) as H1 by (by apply spwf_filter_entries).
  destruct (spwf_insert_entries org pid 0 l db1 H1) as (H2 & H3 & H4); [by exists sp| |].
  { intros e He. apply (all_in_org org (e_MonitorID <$> l) db); [|by apply list_elem_of_fmap_2].
    case_bool_decide as Hn; simpl in Ec; [|by apply negb_false_iff, Z.eqb_eq in Ec].
    apply fmap_nil_inv in Hn. subst. set_solver. }
  destruct (insert_entries org pid 0 l db1) as [[[]|e] db2]; [done|]. by apply spwf_seqs.
Qed.

Lemma spwf_with_core cipher c db :
  db_step cipher (core db) c -> wf (core db) -> ok db -> ok (with_core c db) /\ wf c.
Proof using Type.
  intros Hst Hw Hwf. split; [|by eapply wf_step]. pose proof (db_step_orgs _ _ _ Hst Hw) as Horg.
  pose proof (spwf_filter_entries (fun kv => is_Some (monitors c !! e_MonitorID kv.2)) db Hwf) as [H1 H2 H3 H4 H5 H6]. split; simpl in *; eauto.
  intros k e Hk. destruct (H6 _ _ Hk) as (row & Hr & Ho). apply map_lookup_filter_Some in Hk as [_ [row' Hr']]. simpl in Hr'.
  exists row'. split; [done|]. rewrite <- Ho. by apply (Horg (e_MonitorID e)).
Qed.

(** ** Runs *)

(** The store's transactions on the two tables. *)
Inductive page_op (db : SDB) : SDB -> Prop :=
  | op_create sp : page_op db (CreateStatusPage lower sp db).2
  | op_update sp : page_op db (UpdateStatusPage lower sp db).2
  | op_delete org id : page_op db (DeleteStatusPage org id db).2
  | op_set org pid l : page_op db (SetStatusPageMonitors org pid l db).2.

Lemma core_insert_entries org pid i l db : core (insert_entries org pid i l db).2 = core db.
Proof using Type. revert i db. induction l as [|e l IH]; intros i db; [done|]. simpl. do 2 (case_bool_decide; [done|]). by rewrite IH. Qed.

Lemma page_op_ok db db' : page_op db db' -> ok db -> ok db' /\ core db' = core db.
Proof using Type.
  intros [sp|sp|org id|org pid l] Hwf.
  - split; [by apply spwf_CreateStatusPage|]. unfold CreateStatusPage. by repeat case_match.
  - split; [by apply spwf_UpdateStatusPage|]. unfold UpdateStatusPage. by repeat case_match.
  - split; [by apply spwf_DeleteStatusPage|]. unfold DeleteStatusPage. by case_match.
  - split; [by apply spwf_SetStatusPageMonitors|]. unfold SetStatusPageMonitors. destruct (page_row org pid db); [|done].
    destruct (_ && _); [done|]. match goal with |- context [insert_entries org pid 0 l ?d] =>
      pose proof (core_insert_entries org pid 0 l d) as H; by destruct (insert_entries org pid 0 l d) as [[[]|] ?] end.
Qed.

Lemma page_ops_ok db db' : rtc page_op db db' -> ok db -> ok db' /\ core db' = core db.
Proof using Type.
  induction 1 as [|d1 d2 d3 Ho _ IH]; [done|]. intros Hwf. destruct (page_op_ok _ _ Ho Hwf) as [H1 H2].
  destruct (IH H1) as [H3 H4]. split; [done|congruence].
Qed.

(** A handler is a sequence of them. *)
Lemma answer_page_db r org id db : (answer_page r org id db).2 = db.
Proof using Type. unfold answer_page. by destruct (loadStatusPage _ _ _) as [[]|]. Qed.

Lemma apply_ops r org id es db : rtc page_op db (apply_and_answer r org id es db).2.
Proof using Type.
  pose proof (op_set db org id es) as Ho. unfold apply_and_answer, applyMonitors.
  destruct (SetStatusPageMonitors org id es db) as [[|[]] db1]; rewrite ?answer_page_db; by apply rtc_once.
Qed.

Context (ToLower : string -> string) (cipher : option secretCipher).

Lemma create_ops accounts p body db : rtc page_op db (api_CreateStatusPage lower ToLower accounts p body db).2.
Proof using Type.
  unfold api_CreateStatusPage, page_right. destruct (humanInOrg p) as [[q actor]|]; [|done].
  destruct (negb (de_Allowed _)); [done|]. destruct body as [i|]; [|done].
  destruct (statusPageFromInput _ _ _ _) as [[sp es] errs]. destruct (negb _); [done|]. destruct (_ <=? _); [done|].
  pose proof (op_create db sp) as Hc. destruct (CreateStatusPage lower sp db) as [[created|[]] db1]; try by apply rtc_once.
  eapply rtc_l; [exact Hc|apply apply_ops].
Qed.

Lemma update_ops p id body db : rtc page_op db (api_UpdateStatusPage lower ToLower p id body db).2.
Proof using Type.
  unfold api_UpdateStatusPage, page_right. destruct (humanInOrg p) as [[q actor]|]; [|done].
  destruct (negb (de_Allowed _)); [done|]. destruct body as [i|], (parseMonitorID id) as [pid|]; try done.
  destruct (GetStatusPage _ _ _) as [existing|[]]; try done.
  destruct (statusPageFromInput _ _ _ _) as [[sp es] errs]. destruct (negb _); [done|].
  match goal with |- context [UpdateStatusPage lower ?s db] => pose proof (op_update db s) as Hc; destruct (UpdateStatusPage lower s db) as [[u|[]] db1] end;
    try by apply rtc_once. eapply rtc_l; [exact Hc|apply apply_ops].
Qed.

Lemma publish_ops p id body db : rtc page_op db (api_PublishStatusPage lower p id body db).2.
Proof using Type.
  unfold api_PublishStatusPage, page_right. destruct (humanInOrg p) as [[q actor]|]; [|done].
  destruct (negb (de_Allowed _)); [done|]. destruct body as [b|], (parseMonitorID id) as [pid|]; try done.
  destruct (GetStatusPage _ _ _) as [sp|[]]; try done.
  match goal with |- context [UpdateStatusPage lower ?s db] => pose proof (op_update db s) as Hc; destruct (UpdateStatusPage lower s db) as [[u|[]] db1] end;
    rewrite ?answer_page_db; by apply rtc_once.
Qed.

Lemma delete_ops p id db : rtc page_op db (api_DeleteStatusPage p id db).2.
Proof using Type.
  unfold api_DeleteStatusPage, page_right. destruct (humanInOrg p) as [[q actor]|]; [|done].
  destruct (negb (de_Allowed _)); [done|]. destruct (parseMonitorID id); [|done]. apply rtc_once, op_delete.
Qed.

(** The management calls, by anyone, and any transaction on the monitoring tables. *)
Inductive sp_step (db : SDB) : SDB -> Prop :=
  | sp_creates accounts p body : sp_step db (api_CreateStatusPage lower ToLower accounts p body db).2
  | sp_updates p id body : sp_step db (api_UpdateStatusPage lower ToLower p id body db).2
  | sp_publishes p id body : sp_step db (api_PublishStatusPage lower p id body db).2
  | sp_deletes p id : sp_step db (api_DeleteStatusPage p id db).2
  | sp_monitoring c : db_step cipher (core db) c -> sp_step db (with_core c db).

Lemma sp_step_ok db db' : sp_step db db' -> ok db -> wf (core db) -> ok db' /\ wf (core db').
Proof using Type.
  assert (forall d, rtc page_op db d -> ok db -> wf (core db) -> ok d /\ wf (core d)) as Hops.
  { intros d Hd Hwf Hw. destruct (page_ops_ok _ _ Hd Hwf) as [H1 H2]. by rewrite H2. }
  intros [] Hwf Hw; eauto using create_ops, update_ops, publish_ops, delete_ops. by eapply spwf_with_core.
Qed.

Lemma sp_run_ok db db' : rtc sp_step db db' -> ok db -> wf (core db) -> ok db' /\ wf (core db').
Proof using Type. induction 1 as [|d1 d2 d3 Hs _ IH]; [done|]. intros H1 H2. destruct (sp_step_ok _ _ Hs H1 H2). eauto. Qed.
End integrity.

(** ** The displayed list *)

(** The rows a list of entries becomes. *)
Fixpoint stored_entries (orgID pageID i s : Z) (l : list StatusPageMonitor) : list StatusPageMonitor :=
  match l with
  | [] => []
  | e :: l' => mkEntry s orgID pageID (e_MonitorID e) (e_DisplayName e) i :: stored_entries orgID pageID (i + 1) (s + 1) l'
  end.

Lemma stored_entries_bound org pid i s l e : e ∈ stored_entries org pid i s l -> i <= e_SortOrder e /\ s <= e_ID e.
Proof.
  revert i s. induction l as [|x l IH]; intros i s; cbn [stored_entries]; [by intros ?%not_elem_of_nil|].
  rewrite elem_of_cons. intros [->|He]; [simpl; lia|]. specialize (IH _ _ He). lia.
Qed.

Lemma stored_entries_NoDup org pid i s l : NoDup (e_ID <$> stored_entries org pid i s l).
Proof.
  revert i s. induction l as [|x l IH]; intros i s; cbn [stored_entries]; [constructor|]. rewrite fmap_cons. apply NoDup_cons.
  split; [|done]. intros (e & He & Hin)%list_elem_of_fmap. apply stored_entries_bound in Hin. simpl in He. lia.
Qed.

Lemma stored_entries_sorted org pid i s l : sort_by entry_le (stored_entries org pid i s l) = stored_entries org pid i s l.
Proof.
  revert i s. induction l as [|x l IH]; intros i s; [done|]. cbn [stored_entries sort_by foldr].
  change (foldr (insert_by entry_le) [] ?z) with (sort_by entry_le z). rewrite IH. destruct l as [|y l]; [done|].
  cbn [stored_entries insert_by]. unfold entry_le at 1, lex_le. simpl. by rewrite (proj2 (Z.ltb_lt i (i + 1))) by lia.
Qed.

Lemma stored_entries_elem org pid i s l e : e ∈ stored_entries org pid i s l -> e_PageID e = pid /\ e_OrgID e = org.
Proof.
  revert i s. induction l as [|x l IH]; intros i s; cbn [stored_entries]; [by intros ?%not_elem_of_nil|].
  rewrite elem_of_cons. intros [->|He]; [done|]. eauto.
Qed.

Lemma stored_entries_shape org pid i s l :
  (fun e => (e_MonitorID e, e_DisplayName e, e_SortOrder e)) <$> stored_entries org pid i s l =
  imap (fun j e => (e_MonitorID e, e_DisplayName e, i + Z.of_nat j)) l.
Proof.
  revert i s. induction l as [|x l IH]; intros i s; [done|]. cbn [stored_entries]. rewrite fmap_cons, IH. simpl. f_equal.
  - f_equal. lia.
  - apply imap_ext. intros j e _. simpl. f_equal. lia.
Qed.

Section set_list.
Context (lower : string -> string).

(** The inserts succeed on fresh pairs, and add exactly these rows. *)
Lemma insert_entries_rows org pid i l db :
  spwf lower db -> (exists sp, pages db !! pid = Some sp /\ sp_OrgID sp = org) ->
  (forall e, e ∈ l -> exists row, monitors (core db) !! e_MonitorID e = Some row /\ m_OrgID (mr_monitor row) = org) ->
  NoDup (e_MonitorID <$> l) ->
  (forall k f e, entries db !! k = Some f -> e ∈ l -> e_PageID f = pid -> e_MonitorID f = e_MonitorID e -> False) ->
  exists db', insert_entries org pid i l db = (Ok tt, db') /\ spwf lower db' /\
    map_to_list (entries db') ≡ₚ ((fun e => (e_ID e, e)) <$> stored_entries org pid i (seq_entries db) l) ++ map_to_list (entries db).
Proof using Type.
  revert i db. induction l as [|e l IH]; intros i db Hwf Hp Hl Hnd Hfresh; [by eexists|].
  cbn [insert_entries stored_entries]. rewrite fmap_cons in Hnd. apply NoDup_cons in Hnd as [Hne Hnd].
  assert (find_row (fun f => (e_PageID f =? pid) && (e_MonitorID f =? e_MonitorID e)) (entries (next_entry db)) = None) as Hf.
  { apply find_row_None. intros k f Hk. apply not_true_iff_false. intros [Hq%Z.eqb_eq He%Z.eqb_eq]%andb_true_iff.
    apply (Hfresh k f e Hk); [left|done|done]. }
  rewrite Hf, bool_decide_eq_false_2 by (by intros [? ?]).
  destruct (Hl e (list_elem_of_here _ _)) as (row & Hr & Ho). simpl. rewrite Hr, bool_decide_eq_false_2 by done.
  set (e' := mkEntry (seq_entries db) org pid (e_MonitorID e) (e_DisplayName e) i).
  assert (entries db !! seq_entries db = None) as Hnew.
  { destruct (entries db !! seq_entries db) as [f|] eqn:E; [|done]. destruct (en_keyed _ _ Hwf _ _ E). lia. }
  destruct (IH (i + 1) (set_entries (<[e_ID e' := e']> (entries db)) (next_entry db))) as (db2 & H1 & H2 & H3).
  - apply (spwf_insert_entry _ (next_entry db) e'); simpl; [apply spwf_seqs; [done|lia|lia]|lia|done|done|done|eauto].
  - done.
  - intros f Hin. apply Hl. by right.
  - done.
  - intros k f x. simpl. rewrite lookup_insert. case_decide.
    + intros [= <-] Hx _ Hm. simpl in Hm. apply Hne. rewrite Hm. by apply list_elem_of_fmap_2.
    + intros Hk Hx. apply (Hfresh k f x Hk). by right.
  - exists db2. split; [exact H1|]. split; [done|]. rewrite H3. simpl. rewrite (map_to_list_insert _ _ _ Hnew).
    rewrite Permutation_middle. done.
Qed.
End set_list.

Lemma in_org_count org ids db :
  (forall id, id ∈ ids -> exists row, monitors (core db) !! id = Some row /\ m_OrgID (mr_monitor row) = org) ->
  count_in_org org ids db = distinctCount ids.
Proof.
  intros Hall. unfold count_in_org, distinctCount. rewrite <- size_dom. do 2 f_equal. apply set_eq. intros id.
  rewrite elem_of_list_to_set, elem_of_dom. split.
  - by intros [row [_ [_ Hk]]%map_lookup_filter_Some].
  - intros Hid. destruct (Hall _ Hid) as (row & Hr & Ho). exists row. by apply map_lookup_filter_Some.
Qed.

(** The rows of the table that a list query selects, before and after an insert of rows. *)
Lemma list_after org pid db db' new :
  map_to_list (entries db') ≡ₚ ((fun e => (e_ID e, e)) <$> new) ++ map_to_list (entries db) ->
  snd <$> rows_where (fun e => (e_PageID e =? pid) && (e_OrgID e =? org)) (entries db') ≡ₚ
  filter (fun e => ((e_PageID e =? pid) && (e_OrgID e =? org)) = true) new ++
  (snd <$> rows_where (fun e => (e_PageID e =? pid) && (e_OrgID e =? org)) (entries db)).
Proof.
  intros Hp. unfold rows_where. rewrite Hp, filter_app, fmap_app. apply Permutation_app; [|done]. clear Hp.
  induction new as [|e l IH]; [done|]. rewrite fmap_cons, !filter_cons. simpl. case_decide; [by rewrite fmap_cons, IH|exact IH].
Qed.

Lemma entry_keys (P : StatusPageMonitor -> bool) lower db : spwf lower db -> NoDup (e_ID <$> (snd <$> rows_where P (entries db))).
Proof.
  intros Hwf. assert (e_ID <$> (snd <$> rows_where P (entries db)) = (rows_where P (entries db)).*1) as ->; [|apply rows_where_keys].
  rewrite <- list_fmap_compose. apply list_fmap_ext. intros i [k e] Hi%list_elem_of_lookup_2.
  apply rows_where_elem in Hi as [Hi _]. by destruct (en_keyed _ _ Hwf _ _ Hi).
Qed.

Lemma sort_entries l l' : NoDup (e_ID <$> l) -> l ≡ₚ l' -> sort_by entry_le l = sort_by entry_le l'.
Proof. intros Hn Hp. by apply (sort_by_key (fun e => (e_SortOrder e, e_ID e)) e_ID). Qed.

Lemma cleared_page lower org pid sp db :
  spwf lower db -> page_row org pid db = Some sp ->
  forall k f, filter (fun kv => ~ (e_PageID kv.2 = pid /\ e_OrgID kv.2 = org)) (entries db) !! k = Some f -> e_PageID f <> pid.
Proof.
  intros Hwf [Hk Ho]%page_row_Some k f [Hf Hn]%map_lookup_filter_Some Hpid. apply Hn. simpl. split; [done|].
  destruct (en_page _ _ Hwf _ _ Hf) as (sp' & Hs & Hoo). congruence.
Qed.

(** ** Theorems *)

(** C4: the privacy boundary of the public page.  The public read of a slug gives the same
    answer on the database that keeps nothing but the published page of that slug with its
    branding, the display names and order of its monitors, whether each is enabled, when it was
    checked and whether it was healthy, and when its incidents began and ended.  So no other
    org, page, draft, monitor or column can influence what a visitor sees. *)
Theorem public_page_reveals_only_public_data lower now slug db :
  spwf lower db ->
  api_GetPublicStatusPage lower now slug (scrub lower (TrimSpace slug) db) = api_GetPublicStatusPage lower now slug db.
Proof. intros Hwf. rewrite scrub_visible. unfold api_GetPublicStatusPage. by rewrite (public_scrub lower (TrimSpace slug) db Hwf now). Qed.

(** Pages display only monitors of their own org.  Along any run of management calls by
    any callers and of transactions on the monitoring tables (deletions of monitors included),
    the two tables keep their integrity, and a monitor displayed on a page exists and belongs
    to the org of the page. *)
Theorem displayed_monitors_are_the_orgs lower ToLower cipher db db' :
  rtc (sp_step lower ToLower cipher) db db' -> spwf lower db -> wf (core db) ->
  spwf lower db' /\
  forall k e, entries db' !! k = Some e ->
    exists sp row, pages db' !! e_PageID e = Some sp /\ monitors (core db') !! e_MonitorID e = Some row /\
      m_OrgID (mr_monitor row) = sp_OrgID sp.
Proof.
  intros Hr H1 H2. destruct (sp_run_ok _ _ _ _ _ Hr H1 H2) as [Hok _]. split; [done|]. intros k e Hk.
  destruct (en_page _ _ Hok _ _ Hk) as (sp & Hp & Ho). destruct (en_monitor _ _ Hok _ _ Hk) as (row & Hm & Hmo).
  exists sp, row. split; [done|]. split; [done|]. congruence.
Qed.

(** The displayed list is stored as given.  Setting the monitors of a page of the org to
    distinct monitors of the org succeeds; reading the list back gives the same monitors and
    names in the same order, numbered from zero, and the list of every other page is as before. *)
Theorem displayed_list_roundtrip lower org pid sp l db :
  spwf lower db -> page_row org pid db = Some sp -> NoDup (e_MonitorID <$> l) ->
  (forall id, id ∈ (e_MonitorID <$> l) -> exists row, monitors (core db) !! id = Some row /\ m_OrgID (mr_monitor row) = org) ->
  exists db', SetStatusPageMonitors org pid l db = (Ok tt, db') /\
    (fun e => (e_MonitorID e, e_DisplayName e, e_SortOrder e)) <$> ListStatusPageMonitors org pid db' =
      imap (fun i e => (e_MonitorID e, e_DisplayName e, Z.of_nat i)) l /\
    forall org' pid', pid' <> pid -> ListStatusPageMonitors org' pid' db' = ListStatusPageMonitors org' pid' db.
Proof.
  intros Hwf Hp Hnd Hin. pose proof (cleared_page _ _ _ _ _ Hwf Hp) as Hclear. unfold SetStatusPageMonitors. rewrite Hp.
  rewrite (in_org_count _ _ _ Hin), Z.eqb_refl, andb_false_r.
  set (db1 := set_entries (filter _ (entries db)) db). assert (spwf lower db1) as Hwf1 by (by apply spwf_filter_entries).
  destruct (insert_entries_rows lower org pid 0 l db1) as (db2 & -> & Hwf2 & Hrows); [done| | |done| |].
  { apply page_row_Some in Hp as [? ?]. by exists sp. }
  { intros e He. apply Hin. by apply list_elem_of_fmap_2. }
  { intros k f e Hf _ Hpid _. by apply (Hclear k f). }
  exists db2. split; [done|]. split.
  - assert (ListStatusPageMonitors org pid db2 = stored_entries org pid 0 (seq_entries db1) l) as ->.
    { unfold ListStatusPageMonitors. rewrite <- stored_entries_sorted. apply sort_entries; [by eapply entry_keys|].
      rewrite (list_after org pid db1 db2 _ Hrows).
      assert (rows_where (fun e => (e_PageID e =? pid) && (e_OrgID e =? org)) (entries db1) = []) as ->.
      { destruct (rows_where _ _) as [|[k f] r] eqn:E; [done|]. assert ((k, f) ∈ rows_where (fun e => (e_PageID e =? pid) && (e_OrgID e =? org)) (entries db1)) as Hk by (rewrite E; left).
        apply rows_where_elem in Hk as [Hk [Hq%Z.eqb_eq _]%andb_true_iff]. by destruct (Hclear _ _ Hk). }
      rewrite app_nil_r. rewrite filter_all; [done|]. apply Forall_forall. intros e He.
      destruct (stored_entries_elem _ _ _ _ _ _ He) as [-> ->]. by rewrite !Z.eqb_refl. }
    rewrite stored_entries_shape. apply imap_ext. intros. f_equal.
  - intros org' pid' Hne. unfold ListStatusPageMonitors. apply sort_entries; [by eapply entry_keys|].
    rewrite (list_after org' pid' db1 db2 _ Hrows). rewrite filter_none.
    + simpl. apply fmap_Permutation, rows_where_filter. intros k f _ [Hq%Z.eqb_eq _]%andb_true_iff. simpl. naive_solver.
    + apply Forall_forall. intros e He. destruct (stored_entries_elem _ _ _ _ _ _ He) as [-> _].
      by rewrite (proj2 (Z.eqb_neq pid pid')) by done.
Qed.

(** Publishing is what makes a page public.  When a publish call answers with the page,
    it has changed nothing but the page's state; afterwards the page's slug resolves for the
    public if the page was published and is unknown, like any other, if it was unpublished. *)
Theorem publish_controls_visibility lower now p id b db dto db' :
  spwf lower db -> api_PublishStatusPage lower p id (Some b) db = (SPage R200 dto, db') ->
  exists pid sp, pages db !! pid = Some sp /\ pages db' = <[pid := page_with pid b sp]> (pages db) /\
    entries db' = entries db /\ core db' = core db /\
    (sp_Slug sp <> "" -> is_ok (GetPublicStatusPage lower (sp_Slug sp) now db') = b) /\
    (b = false -> GetPublicStatusPage lower (sp_Slug sp) now db' = Err SPNoRows).
Proof.
  intros Hwf. unfold api_PublishStatusPage, page_right. destruct (humanInOrg p) as [[q actor]|]; [|done].
  destruct (negb (de_Allowed _)); [done|]. destruct (parseMonitorID id) as [pid|]; [|done].
  unfold GetStatusPage. destruct (page_row (pr_OrgID q) pid db) as [sp|] eqn:E; [|done]. apply page_row_Some in E as [Hk Ho].
  destruct (pg_keyed _ _ Hwf _ _ Hk) as [Hid _]. unfold UpdateStatusPage, page_row. cbn [sp_ID sp_OrgID sp_Slug sp_Published].
  rewrite Hid, Hk, Z.eqb_refl. destruct (valid_theme _); [|done]. destruct (slug_taken _ _ _ _); [done|]. cbn [negb].
  intros Ha. assert (db' = set_pages (<[pid := page_with pid b sp]> (pages db)) db) as ->.
  { apply (f_equal snd) in Ha. rewrite answer_page_db in Ha. exact (eq_sym Ha). }
  exists pid, sp. split; [done|]. split; [done|]. split; [done|]. split; [done|].
  assert (b = false -> GetPublicStatusPage lower (sp_Slug sp) now (set_pages (<[pid := page_with pid b sp]> (pages db)) db) = Err SPNoRows) as Hf.
  { intros ->. unfold GetPublicStatusPage. rewrite (proj2 (find_row_None _ _)); [done|]. intros k v. simpl. rewrite lookup_insert.
    case_decide as Hc; [by intros [= <-]|]. intros Hv. unfold page_visible. apply not_true_iff_false.
    rewrite !andb_true_iff, String.eqb_eq. intros [_ He]. apply Hc. by apply (pg_slug _ _ Hwf _ _ _ _ Hk Hv). }
  split; [|exact Hf]. intros Hne. destruct b; [|by rewrite Hf].
  unfold GetPublicStatusPage. destruct (find_row _ _) as [[k v]|] eqn:Ef.
  - by destruct (fold_left _ _ _) as [[[? ?] ?] ?].
  - rewrite find_row_None in Ef. specialize (Ef pid (page_with pid true sp)). simpl in Ef. rewrite lookup_insert_eq in Ef.
    specialize (Ef eq_refl). unfold page_visible in Ef. simpl in Ef.
    by rewrite (proj2 (String.eqb_neq _ _) Hne), String.eqb_refl in Ef.
Qed.

(** A window has data when a check lies in it. *)
Lemma window_has s rs : (window s rs).2 = true <-> exists kr, kr ∈ rs /\ s <= r_CheckedAt kr.2.
Proof.
  unfold window. destruct (filter (fun kr : Z * CheckResult => s <= r_CheckedAt kr.2) rs) as [|kr l] eqn:E; simpl; split; try done.
  - intros (kr & Hin & Hs). assert (kr ∈ filter (fun kr : Z * CheckResult => s <= r_CheckedAt kr.2) rs) as Hk by (by apply list_elem_of_filter).
    rewrite E in Hk. by apply not_elem_of_nil in Hk.
  - intros _. assert (kr ∈ filter (fun kr : Z * CheckResult => s <= r_CheckedAt kr.2) rs) as Hk by (rewrite E; left).
    apply list_elem_of_filter in Hk as [? ?]. eauto.
Qed.

(** A check within a day or a week lies within ninety days. *)
Lemma window_90_days now rs :
  (window (now - 24 * Hour) rs).2 = true \/ (window (now - 7 * 24 * Hour) rs).2 = true -> (window (now - 90 * 24 * Hour) rs).2 = true.
Proof.
  rewrite !window_has. unfold Hour, Minute, Second. intros [(kr & Hin & Hs)|(kr & Hin & Hs)]; exists kr; (split; [done|lia]).
Qed.

Lemma max_window_is_all_or_nothing lower slug now db page :
  GetPublicStatusPage lower slug now db = Ok page -> pp_UptimeMaxWindow page = "" \/ pp_UptimeMaxWindow page = "90d".
Proof.
  unfold GetPublicStatusPage. destruct (find_row _ _) as [[k sp]|]; [|done].
  assert (forall l acc, acc.2 = "" \/ acc.2 = "90d" ->
    (fold_left (add_displayed lower slug now db) l acc).2 = "" \/ (fold_left (add_displayed lower slug now db) l acc).2 = "90d") as Hf.
  { induction l as [|r l IH]; intros [[[? ?] ?] w] Hw; [done|]. cbn [fold_left]. apply IH. unfold add_displayed.
    case_bool_decide; [done|]. unfold publicMonitorUptime.
    pose proof (window_90_days now (results_of lower slug db (pub_monitorID r))) as H90.
    destruct (window (now - 24 * Hour) _) as [? h1], (window (now - 7 * 24 * Hour) _) as [? h2], (window (now - 90 * 24 * Hour) _) as [? h3].
    simpl in *. unfold next_window. simpl. destruct h3; [by right|]. destruct h1, h2; simpl; naive_solver. }
  specialize (Hf (displayed_rows lower slug db (sp_ID sp)) ([], [], [], "") (or_introl eq_refl)).
  destruct (fold_left _ _ _) as [[[? ?] ?] ?]. by intros [= <-].
Qed.

(** ** Accepted input *)

Lemma display_entries_empty org i l seen errs :
  (display_entries org i l seen errs).2 = ∅ ->
  errs = ∅ /\ NoDup (e_MonitorID <$> (display_entries org i l seen errs).1) /\
  Forall (fun e => 0 < e_MonitorID e /\ (e_MonitorID e ∉ seen) /\ e_DisplayName e <> "") (display_entries org i l seen errs).1 /\
  length (display_entries org i l seen errs).1 = length l.
Proof.
  revert i seen errs. induction l as [|e l IH]; intros i seen errs; cbn [display_entries]; [simpl; intros ->; by repeat constructor|].
  assert (forall k m, (display_entries org (i + 1) l seen (<[k := m]> errs)).2 = ∅ -> False) as Hno.
  { intros k m H. apply IH in H as [H _]. by apply insert_non_empty in H. }
  destruct (String.eqb_spec (TrimSpace (di_DisplayName e)) "") as [|Hdn]; [by intros ?%Hno|].
  destruct (_ <? _); [by intros ?%Hno|]. destruct (Atoi _) as [mid|]; [|by intros ?%Hno].
  destruct (mid <=? 0) eqn:Em; [by intros ?%Hno|]. apply Z.leb_gt in Em. case_bool_decide as Hs; [by intros ?%Hno|].
  specialize (IH (i + 1) ({[mid]} ∪ seen) errs). destruct (display_entries org (i + 1) l ({[mid]} ∪ seen) errs) as [es errs'].
  simpl in *. intros He. destruct (IH He) as (H1 & H2 & H3 & H4). split; [done|]. split; [|split].
  - apply NoDup_cons. split; [|done]. intros (f & Hf & Hin)%list_elem_of_fmap. rewrite Forall_forall in H3.
    destruct (H3 _ Hin) as (_ & Hm & _). set_solver.
  - constructor; [done|]. eapply Forall_impl; [exact H3|]. simpl. set_solver.
  - lia.
Qed.

(** A page the validation lets through. *)
Lemma accepted_page ToLower org id i sp es :
  statusPageFromInput ToLower org id i = (sp, es, ∅) ->
  slugPattern (sp_Slug sp) = true /\ valid_theme (sp_Theme sp) = true /\ sp_OrgID sp = org /\ sp_ID sp = id /\ sp_Published sp = false /\
  sp_Name sp <> "" /\ NoDup (e_MonitorID <$> es) /\ length es = length (si_DisplayMonitors i).
Proof.
  unfold statusPageFromInput.
  match goal with |- context [display_entries ?o ?n ?l ?s ?e] => pose proof (display_entries_empty o n l s e) as H; destruct (display_entries o n l s e) as [es' errs'] end.
  intros [= <- <- ->]. simpl in *. destruct (H eq_refl) as (He & H2 & _ & H4). rewrite !field_empty in He.
  destruct He as (Hn & Hs & Ht & _). split; [|split; [|split; [done|split; [done|split; [done|split; [|split; done]]]]]].
  - unfold slug_error in Hs. repeat case_match; try done. by apply negb_false_iff.
  - by destruct (valid_theme _).
  - intros E. unfold page_name_error in Hn. by rewrite E in Hn.
Qed.

(** A refused create leaves its page behind.  A create whose input is valid but names a
    monitor of another org answers 422 and yet has stored the page, without monitors: the same
    request sent again, corrected or not, is refused because the slug is taken (or the cap is reached). *)
Theorem refused_create_keeps_the_page lower ToLower accounts p q actor i sp es db :
  humanInOrg p = Some (q, actor) -> de_Allowed (canStatusPage q actor statusPageManage) = true ->
  statusPageFromInput ToLower (pr_OrgID q) 0 i = (sp, es, ∅) ->
  CountStatusPages (pr_OrgID q) db < statusPageCap (pr_OrgID q) accounts ->
  slug_taken lower (seq_pages db) (sp_Slug sp) db = false -> pages db !! seq_pages db = None ->
  es <> [] -> count_in_org (pr_OrgID q) (e_MonitorID <$> es) db <> distinctCount (e_MonitorID <$> es) ->
  let '(resp, db1) := api_CreateStatusPage lower ToLower accounts p (Some i) db in
  resp = SInvalid {[ "display_monitors" := "a monitor is not in this org" ]} /\
  pages db1 = <[seq_pages db := page_with (seq_pages db) false sp]> (pages db) /\ entries db1 = entries db /\
  forall i' sp' es', statusPageFromInput ToLower (pr_OrgID q) 0 i' = (sp', es', ∅) -> sp_Slug sp' = sp_Slug sp ->
    let '(resp2, db2) := api_CreateStatusPage lower ToLower accounts p (Some i') db1 in
    (resp2 = slug_refusal \/ resp2 = SPlain (R402 (statusPageCap (pr_OrgID q) accounts))) /\ pages db2 = pages db1.
Proof.
  intros Hp Hd Hi Hcap Hslug Hnew Hes Hforeign. destruct (accepted_page _ _ _ _ _ _ Hi) as (_ & Hth & Ho & _ & Hpub & _).
  assert (forall t, valid_theme t = true -> default_theme t = t) as Hdt.
  { intros t Ht. unfold default_theme. destruct (String.eqb_spec t "") as [->|]; done. }
  unfold api_CreateStatusPage, page_right at 1. rewrite Hp, Hd, Hi. cbn [negb]. rewrite bool_decide_eq_true_2 by done. cbn [negb].
  rewrite (proj2 (Z.leb_gt _ _) Hcap). unfold CreateStatusPage at 1. cbn [page_with sp_Theme sp_Slug sp_ID].
  rewrite (Hdt _ Hth), Hth, Hslug, Hpub. cbn [negb sp_ID].
  unfold apply_and_answer, applyMonitors, SetStatusPageMonitors, page_row. cbn [pages set_pages next_page].
  rewrite lookup_insert_eq. cbn [page_with sp_OrgID]. rewrite Ho, Z.eqb_refl.
  match goal with |- context [count_in_org ?a ?b ?c] => change (count_in_org a b c) with (count_in_org a b db) end.
  rewrite (proj2 (Z.eqb_neq _ _) Hforeign), bool_decide_eq_false_2 by (by intros ?%fmap_nil_inv). cbn [negb andb].
  split; [done|]. split; [unfold page_with; by rewrite ?(Hdt _ Hth), ?Hpub|]. split; [done|].
  intros i' sp' es' Hi' Hs'. destruct (accepted_page _ _ _ _ _ _ Hi') as (_ & Hth' & _ & _ & Hpub' & _).
  unfold page_right. rewrite Hp, Hd, Hi'. cbn [negb]. rewrite bool_decide_eq_true_2 by done. cbn [negb].
  destruct (_ <=? _); [by split; [right|]|]. unfold CreateStatusPage. cbn [page_with sp_Theme sp_Slug sp_ID].
  rewrite (Hdt _ Hth'), Hth'. cbn [negb].
  match goal with |- context [slug_taken ?a ?b ?c ?d] => assert (slug_taken a b c d = true) as -> end; [|by split; [left|]].
  apply bool_decide_eq_true_2, find_row_is_Some. eexists _, _. cbn [pages set_pages next_page seq_pages].
  split; [apply lookup_insert_eq|]. cbn [page_with sp_Slug sp_ID]. rewrite Hs', String.eqb_refl. simpl.
  apply negb_true_iff, Z.eqb_neq. lia.
Qed.

(** ** Examples *)

Lemma spwf_empty lower c : spwf lower (mkSDB c ∅ ∅ 1 1).
Proof. split; simpl; intros; by rewrite lookup_empty in *. Qed.

Lemma ex_created_wf : wf ex_created.
Proof.
  apply (call_wf ex_url ex_split ToLowerASCII id None ex_orgs empty_db); [apply call_create|apply wf_empty].
Qed.

Definition ex_sp0 : SDB := mkSDB ex_created ∅ ∅ 1 1.
Definition ex_page_input (monitor : string) : StatusPageInput :=
  mkPageInput "Acme" " Acme" "" "#fff" "dark" None [mkDisplayInput monitor "Site"].
Definition ex_sp1 : SDB := (api_CreateStatusPage ToLowerASCII ToLowerASCII ex_orgs ex_member (Some (ex_page_input "1")) ex_sp0).2.
Definition ex_sp2 : SDB := (api_PublishStatusPage ToLowerASCII ex_member "1" (Some true) ex_sp1).2.

Lemma ex_sp_run : rtc (sp_step ToLowerASCII ToLowerASCII None) ex_sp0 ex_sp2.
Proof. eapply rtc_l; [apply sp_creates|]. eapply rtc_l; [apply sp_publishes|]. apply rtc_refl. Qed.

Lemma ex_sp1_ok : spwf ToLowerASCII ex_sp1.
Proof.
  destruct (sp_step_ok ToLowerASCII ToLowerASCII None ex_sp0 ex_sp1) as [H _]; [apply sp_creates|apply spwf_empty|apply ex_created_wf|done].
Qed.
Lemma ex_sp2_ok : spwf ToLowerASCII ex_sp2.
Proof.
  destruct (sp_run_ok ToLowerASCII ToLowerASCII None _ _ ex_sp_run) as [H _]; [apply spwf_empty|apply ex_created_wf|done].
Qed.

Definition is_public (r : SPResponse) : bool := match r with SPublic _ => true | _ => false end.

Lemma public_page_reveals_only_public_data_witness :
  api_GetPublicStatusPage ToLowerASCII 5 "acme" (scrub ToLowerASCII (TrimSpace "acme") ex_sp2) =
    api_GetPublicStatusPage ToLowerASCII 5 "acme" ex_sp2 /\
  is_public (api_GetPublicStatusPage ToLowerASCII 5 "acme" ex_sp2) = true.
Proof.
  split; [|vm_compute; reflexivity]. apply (public_page_reveals_only_public_data ToLowerASCII 5 "acme" ex_sp2 ex_sp2_ok).
Defined.

Lemma displayed_monitors_are_the_orgs_witness : spwf ToLowerASCII ex_sp2 /\ size (entries ex_sp2) = 1%nat.
Proof.
  split; [|vm_compute; reflexivity].
  apply (displayed_monitors_are_the_orgs ToLowerASCII ToLowerASCII None ex_sp0 ex_sp2 ex_sp_run (spwf_empty _ _) ex_created_wf).
Defined.

Lemma displayed_list_roundtrip_witness :
  exists sp db', SetStatusPageMonitors 7 1 [mkEntry 0 7 0 1 "Api" 0] ex_sp1 = (Ok tt, db') /\ page_row 7 1 ex_sp1 = Some sp.
Proof.
  assert (exists sp, page_row 7 1 ex_sp1 = Some sp) as [sp Hp] by (vm_compute; eauto).
  assert (exists row, monitors (core ex_sp1) !! 1 = Some row /\ m_OrgID (mr_monitor row) = 7) as Hm by (vm_compute; eauto).
  destruct (displayed_list_roundtrip ToLowerASCII 7 1 sp [mkEntry 0 7 0 1 "Api" 0] ex_sp1 ex_sp1_ok Hp) as (db' & Hs & _).
  - apply NoDup_singleton.
  - intros k ->%list_elem_of_singleton. exact Hm.
  - by exists sp, db'.
Defined.

Lemma publish_controls_visibility_witness :
  is_ok (GetPublicStatusPage ToLowerASCII "acme" 5 ex_sp2) = true.
Proof.
  assert (exists dto, api_PublishStatusPage ToLowerASCII ex_member "1" (Some true) ex_sp1 = (SPage R200 dto, ex_sp2)) as [dto Hd]
    by (vm_compute; eauto).
  destruct (publish_controls_visibility ToLowerASCII 5 ex_member "1" true ex_sp1 dto ex_sp2 ex_sp1_ok Hd) as (pid & sp & Hk & _ & _ & _ & Hv & _).
  assert (sp_Slug sp = "acme") as Hs.
  { assert (map_Forall (fun _ s => sp_Slug s = "acme") (pages ex_sp1)) as Hall by (apply (bool_decide_unpack _); vm_compute; exact I).
    exact (Hall _ _ Hk). }
  rewrite <- Hs. apply Hv. by rewrite Hs.
Defined.

Lemma refused_create_keeps_the_page_witness :
  (api_CreateStatusPage ToLowerASCII ToLowerASCII ex_orgs ex_member (Some (ex_page_input "2")) ex_sp0).1 =
    SInvalid {[ "display_monitors" := "a monitor is not in this org" ]}.
Proof.
  pose proof (refused_create_keeps_the_page ToLowerASCII ToLowerASCII ex_orgs ex_member (mkPrincipal ActorHuman 3 0 7 (Some RoleMember))
    (mkActor ActorHuman 3 0 7 RoleMember) (ex_page_input "2") (mkPage 0 7 "Acme" "acme" "" "#fff" "dark" false None)
    [mkEntry 0 7 0 2 "Site" 0] ex_sp0) as H.
  specialize (H ltac:(reflexivity) ltac:(reflexivity) ltac:(vm_compute; reflexivity) ltac:(vm_compute; reflexivity)
    ltac:(vm_compute; reflexivity) ltac:(vm_compute; reflexivity) ltac:(discriminate) ltac:(vm_compute; discriminate)).
  destruct (api_CreateStatusPage _ _ _ _ _ _) as [resp db1]. exact (proj1 H).
Defined.
