(* ===== verification/Auth.v ===== *)
(** * Auth: who a request is
    (src/internal/authn/apikey.go, src/internal/authn/middleware.go,
    src/internal/store/apikeys.go, src/internal/api/apikeys.go)

    API keys with their table, their cache and their handlers; the resolution of a request to a
    principal, with the cached role of a member.  The SHA-256 of a token, the JSON of a cached
    descriptor, the access-token verification and the random source are parameters; the caches
    are behind an interface that may fail. *)

From S2P Require Import Prelude Domain GoStrings Entitlements CheckState Authz Members MonitorApi.
Open Scope Z_scope.

(** ** The cache *)

(** The subset of the key-value client that both caches use. *)
Class KeyCache (C : Type) := {
  kc_GetCache : Time -> string -> C -> result kvError (option string) * C;
  kc_SetCache : Time -> string -> string -> Duration -> C -> result kvError unit * C;
  kc_DelCache : Time -> string -> C -> result kvError unit * C;
}.

Definition SetCache (now : Time) (k v : string) (ttl : Duration) (r : Redis) : result kvError unit * Redis :=
  (Ok tt, <[k := (v, if ttl <=? 0 then None else Some (now + ttl))]> r).
Definition DelCache (_now : Time) (k : string) (r : Redis) : result kvError unit * Redis := (Ok tt, delete k r).

#[export] Instance redis_cache : KeyCache Redis := {|
  kc_GetCache now k r := (GetCache now k r, r); kc_SetCache := SetCache; kc_DelCache := DelCache;
|}.

(** ** API keys: the table (store) *)

Record APIKey := mkAPIKey {
  ak_ID : Z;
  ak_OrgID : Z;
  ak_Name : string;
  ak_Prefix : string;
  ak_TokenHash : string;
  ak_Role : Role;
  ak_CreatedBy : option Z;
  ak_CreatedAt : Time;
  ak_LastUsedAt : option Time;
  ak_RevokedAt : option Time;
}.

Record KDB := mkKDB { kaccounts : MDB; api_keys : gmap Z APIKey; seq_keys : Z }.
Definition set_keys (m : gmap Z APIKey) (db : KDB) : KDB := mkKDB (kaccounts db) m (seq_keys db).
Definition next_key (db : KDB) : KDB := mkKDB (kaccounts db) (api_keys db) (seq_keys db + 1).

Inductive kError := KNoRows | KUnique | KForeignKey | KCheck.

Definition key_hash (h : string) (k : APIKey) : bool := String.eqb (ak_TokenHash k) h.

(** CHECK (role IN ('member','admin')) *)
Definition key_role (r : Role) : bool := match r with RoleMember | RoleAdmin => true | _ => false end.

Definition CreateAPIKey_tx (now : Time) (k : APIKey) (db : KDB) : result kError Z * KDB :=
  let id := seq_keys db in
  let db1 := next_key db in
  let a := kaccounts db in
  if negb (key_role (ak_Role k)) then (Err KCheck, db1)
  else if bool_decide (is_Some (find_row (key_hash (ak_TokenHash k)) (api_keys db))) then (Err KUnique, db1)
  else if bool_decide (organizations a !! ak_OrgID k = None) ||
          match ak_CreatedBy k with Some u => bool_decide (users a !! u = None) | None => false end
  then (Err KForeignKey, db1)
  else (Ok id, set_keys (<[id := mkAPIKey id (ak_OrgID k) (ak_Name k) (ak_Prefix k) (ak_TokenHash k) (ak_Role k) (ak_CreatedBy k)
                                   now None None]> (api_keys db1)) db1).

Definition GetAPIKeyByHash (h : string) (db : KDB) : result kError APIKey :=
  match find_row (key_hash h) (api_keys db) with Some (_, k) => Ok k | None => Err KNoRows end.

(** WHERE id = $1 AND org_id = $2 *)
Definition key_row (orgID keyID : Z) (db : KDB) : option APIKey :=
  match api_keys db !! keyID with
  | Some k => if ak_OrgID k =? orgID then Some k else None
  | None => None
  end.
Definition GetAPIKey (orgID keyID : Z) (db : KDB) : result kError APIKey :=
  match key_row orgID keyID db with Some k => Ok k | None => Err KNoRows end.

Definition ListAPIKeys (orgID : Z) (db : KDB) : list APIKey :=
  sort_by (fun a b => ak_ID b <=? ak_ID a) (snd <$> rows_where (fun k => ak_OrgID k =? orgID) (api_keys db)).

Definition with_revoked (now : Time) (k : APIKey) : APIKey :=
  mkAPIKey (ak_ID k) (ak_OrgID k) (ak_Name k) (ak_Prefix k) (ak_TokenHash k) (ak_Role k) (ak_CreatedBy k) (ak_CreatedAt k)
    (ak_LastUsedAt k) (Some now).

Definition RevokeAPIKey_tx (now : Time) (orgID keyID : Z) (db : KDB) : Z * KDB :=
  match key_row orgID keyID db with
  | Some k =>
      match ak_RevokedAt k with
      | None => (1, set_keys (<[keyID := with_revoked now k]> (api_keys db)) db)
      | Some _ => (0, db)
      end
  | None => (0, db)
  end.

(** ** API keys: the verification (authn/apikey.go) *)

Definition APIKeyPrefix : string := "pulse_sk_".
Definition apiKeyCacheTTL : Duration := 5 * Minute.
Definition apiKeyNegTTL : Duration := 30 * Second.

Record KeyPrincipal := mkKeyPrincipal { kp_KeyID : Z; kp_OrgID : Z; kp_Role : Role }.
(** The empty role of a negative descriptor is [RoleUnknown]. *)
Record cachedDescriptor := mkDescriptor { cd_KeyID : Z; cd_OrgID : Z; cd_Role : Role; cd_Revoked : bool }.
Definition revoked_descriptor : cachedDescriptor := mkDescriptor 0 0 RoleUnknown true.

Inductive authError := ErrAPIKeyInvalid | errNotMember | AuthStore.

Definition cacheKey (hash : string) : string := "apikey:" +:+ hash.

Definition HasPrefix (s p : string) : bool := String.prefix p s.

Section auth.
Context (HashToken : string -> string) (marshal : cachedDescriptor -> string) (unmarshal : string -> option cachedDescriptor).
Context {C : Type} `{!KeyCache C}.

Definition cacheDescriptor (now : Time) (ck : string) (d : cachedDescriptor) (ttl : Duration) (cache : option C) : option C :=
  match cache with
  | None => None
  | Some c => Some (kc_SetCache now ck (marshal d) ttl c).2
  end.

(** The cache's answer, if there is a usable one. *)
Definition cached_key (now : Time) (ck : string) (cache : option C) : option cachedDescriptor * option C :=
  match cache with
  | None => (None, None)
  | Some c =>
      match kc_GetCache now ck c with
      | (Ok (Some raw), c') => (unmarshal raw, Some c')
      | (_, c') => (None, Some c')
      end
  end.

Definition principal_of (d : cachedDescriptor) : result authError KeyPrincipal :=
  if cd_Revoked d then Err ErrAPIKeyInvalid else Ok (mkKeyPrincipal (cd_KeyID d) (cd_OrgID d) (cd_Role d)).

(** Malformed: no request to the cache or the database. *)
Definition well_formed_key (presented : string) : bool :=
  HasPrefix presented APIKeyPrefix && (slen APIKeyPrefix <? slen presented).

(** The source of truth, and the cache write that follows. *)
Definition verify_stored (now : Time) (hash : string) (db : KDB) (cache : option C) : result authError KeyPrincipal * option C :=
  let ck := cacheKey hash in
  match GetAPIKeyByHash hash db with
  | Err KNoRows => (Err ErrAPIKeyInvalid, cacheDescriptor now ck revoked_descriptor apiKeyNegTTL cache)
  | Err _ => (Err AuthStore, cache)
  | Ok key =>
      match ak_RevokedAt key with
      | Some _ => (Err ErrAPIKeyInvalid, cacheDescriptor now ck revoked_descriptor apiKeyNegTTL cache)
      | None =>
          (Ok (mkKeyPrincipal (ak_ID key) (ak_OrgID key) (ak_Role key)),
           cacheDescriptor now ck (mkDescriptor (ak_ID key) (ak_OrgID key) (ak_Role key) false) apiKeyCacheTTL cache)
      end
  end.

Definition Verify (now : Time) (presented : string) (db : KDB) (cache : option C) : result authError KeyPrincipal * option C :=
  if negb (well_formed_key presented) then (Err ErrAPIKeyInvalid, cache)
  else
    match cached_key now (cacheKey (HashToken presented)) cache with
    | (Some d, cache1) => (principal_of d, cache1)
    | (None, cache1) => verify_stored now (HashToken presented) db cache1
    end.

Definition InvalidateAPIKey (now : Time) (hash : string) (cache : option C) : option C :=
  match cache with None => None | Some c => Some (kc_DelCache now (cacheKey hash) c).2 end.

(** ** The request (authn/middleware.go) *)

(** What the middleware reads of a request: the Authorization header, the access cookie, the
    path value orgId and the X-Pulse-Org header; absent is empty. *)
Record HTTPRequest := mkRequest { rq_Authorization : string; rq_AccessCookie : string; rq_orgId : string; rq_XPulseOrg : string }.

Definition bearerToken (r : HTTPRequest) : option string :=
  let h := rq_Authorization r in
  if (7 <? slen h) && String.eqb (ToLowerASCII (String.substring 0 7 h)) "bearer "
  then Some (TrimSpace (String.substring 7 (String.length h - 7) h))
  else None.

Definition bearerAPIKey (r : HTTPRequest) : option string :=
  match bearerToken r with Some tok => if HasPrefix tok APIKeyPrefix then Some tok else None | None => None end.

Definition accessJWT (r : HTTPRequest) : option string :=
  if negb (String.eqb (rq_AccessCookie r) "") then Some (rq_AccessCookie r)
  else match bearerToken r with Some tok => if HasPrefix tok APIKeyPrefix then None else Some tok | None => None end.

Definition orgIDFromRequest (r : HTTPRequest) : option Z :=
  if negb (String.eqb (rq_orgId r) "") then Atoi (rq_orgId r)
  else if negb (String.eqb (rq_XPulseOrg r) "") then Atoi (rq_XPulseOrg r)
  else None.

(** [JWTIssuer.Verify]: the user of a valid access token. *)
Context (jwt_Verify : Time -> string -> option Z).

(** Status and principal: 401 without one. *)
Definition Identify (now : Time) (r : HTTPRequest) (db : KDB) (cache : option C) : result Z Principal * option C :=
  match bearerAPIKey r with
  | Some raw =>
      match Verify now raw db cache with
      | (Err _, cache') => (Err 401, cache')
      | (Ok kp, cache') => (Ok (mkPrincipal ActorAPIKey 0 (kp_KeyID kp) (kp_OrgID kp) (Some (kp_Role kp))), cache')
      end
  | None =>
      match accessJWT r with
      | None => (Err 401, cache)
      | Some raw =>
          match jwt_Verify now raw with
          | None => (Err 401, cache)
          | Some userID => (Ok (mkPrincipal ActorHuman userID 0 0 None), cache)
          end
      end
  end.

Definition memberRoleTTL : Duration := 5 * Minute.
Definition memberRoleCacheKey (userID orgID : Z) : string := "member:" +:+ pretty userID +:+ ":" +:+ pretty orgID.

Definition role_text (r : Role) : string :=
  match r with RoleOwner => "owner" | RoleAdmin => "admin" | RoleMember => "member" | RoleViewer => "viewer" | RoleUnknown => "?" end.
Definition parse_role (s : string) : Role :=
  if String.eqb s "owner" then RoleOwner else if String.eqb s "admin" then RoleAdmin
  else if String.eqb s "member" then RoleMember else if String.eqb s "viewer" then RoleViewer else RoleUnknown.

Definition cached_role (now : Time) (ck : string) (cache : option C) : option string * option C :=
  match cache with
  | None => (None, None)
  | Some c =>
      match kc_GetCache now ck c with
      | (Ok (Some v), c') => (Some v, Some c')
      | (_, c') => (None, Some c')
      end
  end.

Definition cache_role (now : Time) (ck v : string) (cache : option C) : option C :=
  match cache with None => None | Some c => Some (kc_SetCache now ck v memberRoleTTL c).2 end.

Definition resolveRole (now : Time) (userID orgID : Z) (db : MDB) (cache : option C) : result authError Role * option C :=
  let ck := memberRoleCacheKey userID orgID in
  match cached_role now ck cache with
  | (Some v, cache1) => (if String.eqb v "" then Err errNotMember else Ok (parse_role v), cache1)
  | (None, cache1) =>
      match GetMembership userID orgID db with
      | Err MNoRows => (Err errNotMember, cache_role now ck "" cache1)
      | Err _ => (Err AuthStore, cache1)
      | Ok m => (Ok (mb_Role m), cache_role now ck (role_text (mb_Role m)) cache1)
      end
  end.

Definition RequireOrg (now : Time) (r : HTTPRequest) (p : option Principal) (db : MDB) (cache : option C) :
    result Z Principal * option C :=
  match p with
  | None => (Err 401, cache)
  | Some q =>
      if bool_decide (pr_Kind q = ActorAPIKey) then (Ok q, cache)
      else
        match orgIDFromRequest r with
        | None => (Err 400, cache)
        | Some orgID =>
            match resolveRole now (pr_UserID q) orgID db cache with
            | (Err errNotMember, cache') => (Err 403, cache')
            | (Err _, cache') => (Err 500, cache')
            | (Ok role, cache') => (Ok (mkPrincipal (pr_Kind q) (pr_UserID q) (pr_KeyID q) orgID (Some role)), cache')
            end
        end
  end.

Definition InvalidateMemberRole_cache (now : Time) (userID orgID : Z) (cache : option C) : option C :=
  match cache with None => None | Some c => Some (kc_DelCache now (memberRoleCacheKey userID orgID) c).2 end.

(** The chain of an org route. *)
Definition authenticate (now : Time) (r : HTTPRequest) (db : KDB) (cache : option C) : result Z Principal * option C :=
  match Identify now r db cache with
  | (Err s, cache') => (Err s, cache')
  | (Ok p, cache') => RequireOrg now r (Some p) (kaccounts db) cache'
  end.

(** ** Key management (api/apikeys.go) *)

Definition apiKeyPrefixLen : nat := 6.
Definition apiKeyListablePrefix (secret : string) : string :=
  let body := if HasPrefix secret APIKeyPrefix
              then String.substring (String.length APIKeyPrefix) (String.length secret - String.length APIKeyPrefix) secret else secret in
  APIKeyPrefix +:+ String.substring 0 (Nat.min apiKeyPrefixLen (String.length body)) body.

(** The random part drawn, or [None] when the random source fails. *)
Definition newAPIKeySecret (random : option string) : option string := (fun b => APIKeyPrefix +:+ b) <$> random.

Record APIKeyDTO := mkKeyDTO { kd_Id : string; kd_Name : string; kd_Prefix : string; kd_Role : Role; kd_CreatedBy : option string;
  kd_CreatedAt : Time; kd_LastUsedAt : option Time }.
Definition apiKeyDTO (k : APIKey) : APIKeyDTO :=
  mkKeyDTO (pretty (ak_ID k)) (ak_Name k) (ak_Prefix k) (ak_Role k) (pretty <$> ak_CreatedBy k) (ak_CreatedAt k) (ak_LastUsedAt k).

Inductive KResponse := KPlain (r : Response) | KCreated (key : APIKeyDTO) (secret : string) | KList (keys : list APIKeyDTO).

Definition keys_right (p : option Principal) (st : KDB * option C) (k : Principal -> KResponse * (KDB * option C)) :
    KResponse * (KDB * option C) :=
  match humanInOrg p with
  | None => (KPlain R401, st)
  | Some (q, actor) =>
      let d := Can actor ActionManageAPIKeys (org_resource (pr_OrgID q)) in
      if negb (de_Allowed d) then (KPlain (R403 (de_Reason d)), st) else k q
  end.

Definition api_ListAPIKeys (p : option Principal) (st : KDB * option C) : KResponse * (KDB * option C) :=
  keys_right p st (fun q => (KList (apiKeyDTO <$> ListAPIKeys (pr_OrgID q) st.1), st)).

Definition api_CreateAPIKey (now : Time) (random : option string) (p : option Principal) (body : option (string * Role))
    (st : KDB * option C) : KResponse * (KDB * option C) :=
  keys_right p st (fun q =>
    let '(db, cache) := st in
    if negb (APIAccessAllowed (orgPlan (pr_OrgID q) (kaccounts db))) then (KPlain (R403 "api keys are not available on your plan; upgrade to use the API"), st)
    else
      match body with
      | None => (KPlain (R422 "body required"), st)
      | Some (name0, role) =>
          let name := TrimSpace name0 in
          if String.eqb name "" then (KPlain (R422 "name required"), st)
          else if negb (key_role role) then (KPlain (R422 "role must be member or admin"), st)
          else
            match newAPIKeySecret random with
            | None => (KPlain R500, st)
            | Some secret =>
                let k := mkAPIKey 0 (pr_OrgID q) name (apiKeyListablePrefix secret) (HashToken secret) role (Some (pr_UserID q)) 0 None None in
                match CreateAPIKey_tx now k db with
                | (Err _, db') => (KPlain R500, (db', cache))
                | (Ok id, db') =>
                    match GetAPIKey (pr_OrgID q) id db' with
                    | Err _ => (KPlain R500, (db', cache))
                    | Ok stored => (KCreated (apiKeyDTO stored) secret, (db', cache))
                    end
                end
            end
      end).

Definition api_RevokeAPIKey (now : Time) (p : option Principal) (id : string) (st : KDB * option C) : KResponse * (KDB * option C) :=
  keys_right p st (fun q =>
    let '(db, cache) := st in
    match Atoi id with
    | None => (KPlain R404, st)
    | Some keyID =>
        match GetAPIKey (pr_OrgID q) keyID db with
        | Err KNoRows => (KPlain R404, st)
        | Err _ => (KPlain R500, st)
        | Ok key => (KPlain R204, ((RevokeAPIKey_tx now (pr_OrgID q) keyID db).2, InvalidateAPIKey now (ak_TokenHash key) cache))
        end
    end).
End auth.
