(* ===== verification/AuthInv.v ===== *)
(** * AuthInv: what authentication guarantees

    Both caches are read-through caches over one Redis: a value read from the source is written
    back later, in its own step, while the source changes and entries are deleted.  Under any
    interleaving an answer is at most the lifetime of an entry older than the source; so a revoked
    key and a changed role die out in bounded time.  Rights come from the tables, and a new key
    works with exactly the rights asked for. *)

From S2P Require Import Prelude Domain GoStrings Entitlements CheckState Authz Members MonitorApi Auth.
Open Scope Z_scope.

(** ** Read-through caches *)

Section read_through.
Context {K V : Type} (key : K -> string) (enc : V -> string) (dec : string -> option V) (ttl : V -> Duration).
Context `{!Inj (=) (=) key} (dec_enc : forall v, dec (enc v) = Some v) (ttl_pos : forall v, 0 < ttl v).
(** The value of the source at every instant; the longest time from a read of it to the write of the cache. *)
Context (source : Time -> K -> V) (delay : Duration) (delay_nonneg : 0 <= delay).

(** The clock, Redis, and the writes in flight: what was read, and when. *)
Record RT := mkRT { rt_clock : Time; rt_redis : Redis; rt_pending : list (K * V * Time) }.

Inductive rt_step (s : RT) : RT -> Prop :=
  | rt_tick t : rt_clock s <= t -> (forall k v r, (k, v, r) ∈ rt_pending s -> t <= r + delay) ->
      rt_step s (mkRT t (rt_redis s) (rt_pending s))
  | rt_read k : (* a miss, or an error of the cache, and the read of the source *)
      rt_step s (mkRT (rt_clock s) (rt_redis s) ((k, source (rt_clock s) k, rt_clock s) :: rt_pending s))
  | rt_fill l1 k v r l2 : rt_pending s = l1 ++ (k, v, r) :: l2 ->
      rt_step s (mkRT (rt_clock s) (SetCache (rt_clock s) (key k) (enc v) (ttl v) (rt_redis s)).2 (l1 ++ l2))
  | rt_lost l1 k v r l2 : rt_pending s = l1 ++ (k, v, r) :: l2 -> (* the write failed *)
      rt_step s (mkRT (rt_clock s) (rt_redis s) (l1 ++ l2))
  | rt_other redis : (* invalidations, evictions, and the other users of this Redis *)
      (forall k, redis !! key k = rt_redis s !! key k \/ redis !! key k = None) -> rt_step s (mkRT (rt_clock s) redis (rt_pending s)).

Definition rt_inv (s : RT) : Prop :=
  (forall k raw x, rt_redis s !! key k = Some (raw, x) ->
     exists v e t, raw = enc v /\ x = Some e /\ source t k = v /\ t <= rt_clock s /\ e <= t + delay + ttl v) /\
  (forall k v r, (k, v, r) ∈ rt_pending s -> source r k = v /\ r <= rt_clock s <= r + delay).

Lemma rt_inv_step s s' : rt_step s s' -> rt_inv s -> rt_inv s'.
Proof using All.
  intros Hst [Hc Hp]. destruct Hst as [t Ht Hd|k|l1 k v r l2 E|l1 k v r l2 E|redis Ho]; (split; simpl).
  - intros k raw x Hk. destruct (Hc _ _ _ Hk) as (v & e & t0 & ? & ? & ? & ? & ?). exists v, e, t0. repeat split; try done. lia.
  - intros k v r Hin. destruct (Hp _ _ _ Hin) as (? & ?). pose proof (Hd _ _ _ Hin). split; [done|lia].
  - exact Hc.
  - intros k' v' r'. rewrite elem_of_cons. intros [[= -> -> ->]|Hin]; [split; [done|lia]|]. by apply Hp.
  - assert ((k, v, r) ∈ rt_pending s) as Hin by (rewrite E; set_solver). destruct (Hp _ _ _ Hin) as (Hs & Hr).
    intros k' raw x. rewrite lookup_insert. case_decide as Hk; [|apply Hc]. apply (inj key) in Hk as <-.
    rewrite (proj2 (Z.leb_gt _ _) (ttl_pos v)). intros [= <- <-]. exists v, (rt_clock s + ttl v), r.
    repeat split; try done; lia.
  - intros k' v' r' Hin. apply Hp. rewrite E. set_solver.
  - exact Hc.
  - intros k' v' r' Hin. apply Hp. rewrite E. set_solver.
  - intros k raw x Hk. destruct (Ho k) as [He|He]; rewrite He in Hk; [|done]. by apply Hc.
  - exact Hp.
Qed.

Definition rt_start (t : Time) : RT := mkRT t ∅ [].

Lemma rt_run_inv t s : rtc rt_step (rt_start t) s -> rt_inv s.
Proof using All.
  intros Hr. assert (rt_inv (rt_start t)) as H0.
  { split; simpl; [intros k raw x; by rewrite lookup_empty|]. by intros k v r ?%not_elem_of_nil. }
  induction Hr; eauto using rt_inv_step.
Qed.

(** An answer of the cache is a value the source had less than a lifetime and a delay ago. *)
Lemma bounded_staleness t s k raw v :
  rtc rt_step (rt_start t) s -> GetCache (rt_clock s) (key k) (rt_redis s) = Ok (Some raw) -> dec raw = Some v ->
  exists t0, source t0 k = v /\ rt_clock s - ttl v - delay < t0 <= rt_clock s.
Proof using All.
  intros Hr%rt_run_inv. destruct Hr as [Hc _]. unfold GetCache, live_at.
  destruct (rt_redis s !! key k) as [[raw' [e|]]|] eqn:E; simpl; [|destruct (Hc _ _ _ E) as (? & ? & ? & _ & [=] & _)|done].
  destruct (_ <? e) eqn:Ee; simpl; [|done]. apply Z.ltb_lt in Ee. intros [= ->] Hd.
  destruct (Hc _ _ _ E) as (v' & e' & t0 & -> & [= <-] & Hs & ? & ?). rewrite dec_enc in Hd. simplify_eq. exists t0. split; [done|lia].
Qed.
End read_through.

(** ** Keys *)

(** What the database says of a hash, as a descriptor. *)
Definition key_descriptor (db : KDB) (h : string) : cachedDescriptor :=
  match find_row (key_hash h) (api_keys db) with
  | Some (_, k) => match ak_RevokedAt k with None => mkDescriptor (ak_ID k) (ak_OrgID k) (ak_Role k) false | Some _ => revoked_descriptor end
  | None => revoked_descriptor
  end.
Definition descriptor_ttl (d : cachedDescriptor) : Duration := if cd_Revoked d then apiKeyNegTTL else apiKeyCacheTTL.

Record kwf (db : KDB) : Prop := {
  kw_id : forall i k, api_keys db !! i = Some k -> ak_ID k = i /\ i < seq_keys db;
  kw_hash : forall i j k k', api_keys db !! i = Some k -> api_keys db !! j = Some k' -> ak_TokenHash k = ak_TokenHash k' -> i = j;
  kw_role : forall i k, api_keys db !! i = Some k -> key_role (ak_Role k) = true;
}.

(** The statements on the table. *)
Inductive key_op (db : KDB) : KDB -> Prop :=
  | op_create_key now k : key_op db (CreateAPIKey_tx now k db).2
  | op_revoke_key now org id : key_op db (RevokeAPIKey_tx now org id db).2
  | op_accounts a : key_op db (mkKDB a (api_keys db) (seq_keys db)).

Lemma key_row_Some org id db k : key_row org id db = Some k -> api_keys db !! id = Some k /\ ak_OrgID k = org.
Proof. unfold key_row. intros. repeat case_match; simplify_eq. split; [done|]. by apply Z.eqb_eq. Qed.

Lemma kwf_op db db' : key_op db db' -> kwf db -> kwf db'.
Proof.
  intros [now k|now org id|a] [H1 H2 H3].
  - unfold CreateAPIKey_tx. assert (kwf (next_key db)) as Hn.
    { split; simpl; [|done|done]. intros i k' Hk. destruct (H1 _ _ Hk). split; [done|lia]. }
    destruct (key_role (ak_Role k)) eqn:Er; simpl; [|done]. case_bool_decide as Hu; simpl; [done|].
    destruct (_ || _); simpl; [done|]. apply eq_None_not_Some in Hu. rewrite find_row_None in Hu.
    assert (forall i k', api_keys db !! i = Some k' -> ak_TokenHash k' = ak_TokenHash k -> False) as Hh.
    { intros i k' Hk He. specialize (Hu _ _ Hk). unfold key_hash in Hu. by rewrite He, String.eqb_refl in Hu. }
    split; simpl.
    + intros i k'. rewrite lookup_insert. case_decide; [intros [= <-]; subst; split; [done|lia]|]. intros Hk. destruct (H1 _ _ Hk). split; [done|lia].
    + intros i j k1 k2. rewrite !lookup_insert. do 2 case_decide; try congruence.
      * intros [= <-] Hk He. simpl in He. destruct (Hh _ _ Hk). congruence.
      * intros Hk [= <-] He. simpl in He. by destruct (Hh _ _ Hk).
      * apply H2.
    + intros i k'. rewrite lookup_insert. case_decide; [by intros [= <-]|]. apply H3.
  - unfold RevokeAPIKey_tx. destruct (key_row org id db) as [k|] eqn:E; simpl; [|by split]. apply key_row_Some in E as [Hk _].
    destruct (ak_RevokedAt k); simpl; [by split|]. split; simpl.
    + intros i k'. rewrite lookup_insert. case_decide; [intros [= <-]; subst; simpl; by apply H1|]. apply H1.
    + intros i j k1 k2. rewrite !lookup_insert. do 2 case_decide; try congruence.
      * intros [= <-] Hk2 He. subst. by apply (H2 _ _ _ _ Hk Hk2).
      * intros Hk1 [= <-] He. subst. by apply (H2 _ _ _ _ Hk1 Hk).
      * apply H2.
    + intros i k'. rewrite lookup_insert. case_decide; [intros [= <-]; simpl; by apply (H3 id k)|]. apply H3.
  - by split.
Qed.

Lemma kwf_ops db db' : rtc key_op db db' -> kwf db -> kwf db'.
Proof. induction 1; eauto using kwf_op. Qed.

(** A revocation is for ever. *)
Lemma revoked_stays db db' i k :
  key_op db db' -> kwf db -> api_keys db !! i = Some k -> ak_RevokedAt k <> None -> api_keys db' !! i = Some k.
Proof.
  intros [now k0|now org id|a] Hwf Hk Hr; [| |done].
  - unfold CreateAPIKey_tx. destruct (negb _); [done|]. case_bool_decide; [done|]. destruct (_ || _); [done|]. simpl. rewrite lookup_insert_ne; [done|]. destruct (kw_id _ Hwf _ _ Hk). lia.
  - unfold RevokeAPIKey_tx. destruct (key_row org id db) as [k'|] eqn:E; simpl; [|done]. apply key_row_Some in E as [Hk' _].
    destruct (ak_RevokedAt k') eqn:Er; simpl; [done|]. rewrite lookup_insert_ne; [done|]. intros ->. congruence.
Qed.

Lemma revoked_for_ever db db' i k :
  rtc key_op db db' -> kwf db -> api_keys db !! i = Some k -> ak_RevokedAt k <> None -> kwf db' /\ api_keys db' !! i = Some k.
Proof. induction 1 as [|d1 d2 d3 Ho _ IH]; [done|]. intros Hwf Hk Hr. eauto using kwf_op, revoked_stays. Qed.

Lemma revoked_descriptor_of db i k :
  kwf db -> api_keys db !! i = Some k -> ak_RevokedAt k <> None -> key_descriptor db (ak_TokenHash k) = revoked_descriptor.
Proof.
  intros Hwf Hk Hr. unfold key_descriptor.
  rewrite (find_row_unique (key_hash (ak_TokenHash k)) (api_keys db) i k); [by destruct (ak_RevokedAt k)|done|apply String.eqb_refl|].
  intros j k' Hk' He%String.eqb_eq. by apply (kw_hash _ Hwf _ _ _ _ Hk' Hk).
Qed.

Lemma cacheKey_inj : Inj (=) (=) cacheKey.
Proof. intros a b [= H]. exact H. Qed.

Section verify.
Context (HashToken : string -> string) (marshal : cachedDescriptor -> string) (unmarshal : string -> option cachedDescriptor).

(** The table's answer, and what the cache is told. *)
Lemma verify_stored_eq now h db (cache : option Redis) :
  verify_stored marshal now h db cache =
  (principal_of (key_descriptor db h), cacheDescriptor marshal now (cacheKey h) (key_descriptor db h) (descriptor_ttl (key_descriptor db h)) cache).
Proof using Type.
  unfold verify_stored, GetAPIKeyByHash, key_descriptor. destruct (find_row _ _) as [[i k]|]; [|done]. by destruct (ak_RevokedAt k).
Qed.

(** A verification answers from the cache or from the table. *)
Lemma Verify_answer now presented db (r : Redis) :
  (Verify HashToken marshal unmarshal now presented db (Some r)).1 = Err ErrAPIKeyInvalid \/
  exists d, (Verify HashToken marshal unmarshal now presented db (Some r)).1 = principal_of d /\
    (d = key_descriptor db (HashToken presented) \/
     exists raw, GetCache now (cacheKey (HashToken presented)) r = Ok (Some raw) /\ unmarshal raw = Some d).
Proof using Type.
  unfold Verify, cached_key. destruct (well_formed_key presented); cbn [negb]; [right|by left].
  cbn [kc_GetCache redis_cache]. destruct (GetCache now _ r) as [[raw|]|] eqn:Eg.
  2,3: rewrite verify_stored_eq; eexists; split; [done|]; by left.
  destruct (unmarshal raw) as [d|] eqn:Eu; [exists d; split; [done|]; right; eauto|].
  rewrite verify_stored_eq. eexists. split; [done|]. by left.
Qed.

(** A serial verification is a run of the read-through cache. *)
Lemma Verify_run keysAt delay s presented :
  exists r', (Verify HashToken marshal unmarshal (rt_clock s) presented (keysAt (rt_clock s)) (Some (rt_redis s))).2 = Some r' /\
    rtc (rt_step cacheKey marshal descriptor_ttl (fun t => key_descriptor (keysAt t)) delay) s (mkRT (rt_clock s) r' (rt_pending s)).
Proof using Type.
  assert (rtc (rt_step cacheKey marshal descriptor_ttl (fun t => key_descriptor (keysAt t)) delay) s (mkRT (rt_clock s) (rt_redis s) (rt_pending s))) as Hrefl
    by (by destruct s).
  unfold Verify, cached_key. destruct (well_formed_key presented); cbn [negb]; [|by eexists].
  assert (forall h, exists r', (verify_stored marshal (rt_clock s) h (keysAt (rt_clock s)) (Some (rt_redis s))).2 = Some r' /\
    rtc (rt_step cacheKey marshal descriptor_ttl (fun t => key_descriptor (keysAt t)) delay) s (mkRT (rt_clock s) r' (rt_pending s))) as Hv.
  { intros h. rewrite verify_stored_eq. eexists. split; [done|]. eapply rtc_l; [apply (rt_read _ _ _ _ _ _ h)|].
    eapply rtc_once, (rt_fill _ _ _ _ _ (mkRT _ _ _) [] h _ _ (rt_pending s)). done. }
  cbn [kc_GetCache redis_cache]. destruct (GetCache _ _ _) as [[raw|]|]; [|by apply Hv..].
  destruct (unmarshal raw); [by eexists|apply Hv].
Qed.
End verify.

Lemma descriptor_ttl_pos d : 0 < descriptor_ttl d.
Proof. unfold descriptor_ttl, apiKeyNegTTL, apiKeyCacheTTL, Minute, Second. destruct (cd_Revoked d); lia. Qed.

(** ** Roles *)

Definition role_value (db : MDB) (p : Z * Z) : string :=
  match GetMembership p.1 p.2 db with Ok m => role_text (mb_Role m) | Err _ => "" end.
Definition role_key (p : Z * Z) : string := memberRoleCacheKey p.1 p.2.

Lemma role_key_inj : Inj (=) (=) role_key.
Proof.
  intros [u o] [u' o']. unfold role_key, memberRoleCacheKey. cbn [fst snd]. intros [= H].
  apply sep_inj in H as [H1 H2]; [|apply pretty_Z_no_colon..]. f_equal; [by apply (inj pretty)|by apply (inj pretty)].
Qed.

Lemma parse_role_text r : parse_role (role_text r) = r.
Proof. by destruct r. Qed.

Lemma resolveRole_answer now u o db (r : Redis) role :
  (resolveRole now u o db (Some r)).1 = Ok role ->
  exists v, v <> "" /\ parse_role v = role /\ (v = role_value db (u, o) \/ GetCache now (role_key (u, o)) r = Ok (Some v)).
Proof.
  unfold resolveRole, cached_role, role_value, role_key. cbn [kc_GetCache redis_cache fst snd].
  assert (forall (cache : option Redis), (match GetMembership u o db with
    | Ok m => (Ok (mb_Role m), cache_role now (memberRoleCacheKey u o) (role_text (mb_Role m)) cache)
    | Err MNoRows => (Err errNotMember, cache_role now (memberRoleCacheKey u o) "" cache)
    | Err _ => (Err AuthStore, cache) end).1 = Ok role ->
    exists v, v <> "" /\ parse_role v = role /\ v = match GetMembership u o db with Ok m => role_text (mb_Role m) | Err _ => "" end) as Hdb.
  { intros cache. destruct (GetMembership u o db) as [m|[]]; try done. intros [= <-]. exists (role_text (mb_Role m)).
    split; [by destruct (mb_Role m)|]. by rewrite parse_role_text. }
  destruct (GetCache _ _ _) as [[v|]|] eqn:E.
  2,3: intros (v & H1 & H2 & H3)%Hdb; exists v; auto.
  simpl. destruct (String.eqb_spec v "") as [|Hne]; [done|]. intros [= <-]. exists v. auto.
Qed.

(** ** Theorems *)

(** C16: a revoked key dies in bounded time.  However verifications, cache writes, failed or
    lost invalidations and other traffic of Redis interleave, once a key is revoked no
    verification accepts it from five minutes after the revocation on, plus the longest time a
    verification in flight takes from reading the table to writing the cache. *)
Theorem revoked_key_dies HashToken marshal unmarshal keysAt delay start s i k revokedAt presented :
  (forall d, unmarshal (marshal d) = Some d) -> 0 <= delay ->
  (forall t t', t <= t' -> rtc key_op (keysAt t) (keysAt t')) -> kwf (keysAt revokedAt) ->
  api_keys (keysAt revokedAt) !! i = Some k -> ak_RevokedAt k <> None -> HashToken presented = ak_TokenHash k ->
  rtc (rt_step cacheKey marshal descriptor_ttl (fun t => key_descriptor (keysAt t)) delay) (rt_start start) s ->
  revokedAt + apiKeyCacheTTL + delay <= rt_clock s ->
  (Verify HashToken marshal unmarshal (rt_clock s) presented (keysAt (rt_clock s)) (Some (rt_redis s))).1 = Err ErrAPIKeyInvalid.
Proof.
  intros Hjson Hd Hhist Hwf Hk Hr Hh Hrun Ht.
  assert (forall t, revokedAt <= t -> key_descriptor (keysAt t) (HashToken presented) = revoked_descriptor) as Hrev.
  { intros t Hle. destruct (revoked_for_ever _ _ _ _ (Hhist _ _ Hle) Hwf Hk Hr) as [Hwf' Hk']. rewrite Hh. by eapply revoked_descriptor_of. }
  assert (0 < apiKeyCacheTTL) by (unfold apiKeyCacheTTL, Minute, Second; lia).
  destruct (Verify_answer HashToken marshal unmarshal (rt_clock s) presented (keysAt (rt_clock s)) (rt_redis s)) as [->|(d & -> & Hd')]; [done|].
  assert (cd_Revoked d = true) as Hrd; [|unfold principal_of; by rewrite Hrd].
  destruct Hd' as [->|(raw & Hg & Hu)]; [rewrite Hrev; [done|lia]|].
  destruct (cd_Revoked d) eqn:E; [done|].
  destruct (@bounded_staleness _ _ cacheKey marshal unmarshal descriptor_ttl cacheKey_inj Hjson descriptor_ttl_pos _ delay Hd start s
    (HashToken presented) raw d Hrun Hg Hu) as (t0 & Hs & Hb & _).
  unfold descriptor_ttl in Hb. rewrite E in Hb. rewrite Hrev in Hs by lia. by subst d.
Qed.

(** A role change takes effect in bounded time.  Under any interleaving, if from some
    instant on a user does not have a role in an org, then no request of the user is given that
    role from five minutes later on, plus the longest delay of a cache write. *)
Theorem role_change_takes_effect membersAt delay start s u o role changedAt :
  0 <= delay -> role <> RoleUnknown ->
  (forall t m, changedAt <= t -> GetMembership u o (membersAt t) = Ok m -> mb_Role m <> role) ->
  rtc (rt_step role_key (fun v => v) (fun _ => memberRoleTTL) (fun t => role_value (membersAt t)) delay) (rt_start start) s ->
  changedAt + memberRoleTTL + delay <= rt_clock s ->
  (resolveRole (rt_clock s) u o (membersAt (rt_clock s)) (Some (rt_redis s))).1 <> Ok role.
Proof.
  intros Hd Hk Hnot Hrun Ht Hok.
  assert (forall t, changedAt <= t -> parse_role (role_value (membersAt t) (u, o)) <> role) as Hrev.
  { intros t Hle. unfold role_value. cbn [fst snd]. destruct (GetMembership u o (membersAt t)) as [m|] eqn:E; [rewrite parse_role_text; eauto|].
    intros He. apply Hk. rewrite <- He. done. }
  assert (0 < memberRoleTTL) as Hpos by (unfold memberRoleTTL, Minute, Second; lia).
  destruct (resolveRole_answer _ _ _ _ _ _ Hok) as (v & Hne & Hp & [->|Hg]); [by apply (Hrev (rt_clock s)); [lia|]|].
  destruct (@bounded_staleness _ _ role_key (fun v => v) Some (fun _ => memberRoleTTL) role_key_inj ltac:(done) ltac:(done)
    (fun t => role_value (membersAt t)) delay Hd start s (u, o) v v Hrun Hg eq_refl) as (t0 & Hs & Hb & _).
  apply (Hrev t0); [lia|]. by rewrite Hs.
Qed.

(** Rights come from the tables.  Without caches, a request that passes the middleware of
    an org route acts with the org and role of a live API key, which is member or admin, or with
    the role its user's membership has in the org the request names. *)
Theorem rights_come_from_the_tables HashToken marshal unmarshal jwt_Verify now r db p (c' : option Redis) :
  kwf db ->
  authenticate HashToken marshal unmarshal jwt_Verify now r db None = (Ok p, c') ->
  (exists raw i k, bearerAPIKey r = Some raw /\ api_keys db !! i = Some k /\ ak_TokenHash k = HashToken raw /\ ak_RevokedAt k = None /\
     p = mkPrincipal ActorAPIKey 0 (ak_ID k) (ak_OrgID k) (Some (ak_Role k)) /\ (ak_Role k = RoleMember \/ ak_Role k = RoleAdmin)) \/
  (exists raw u o m, bearerAPIKey r = None /\ accessJWT r = Some raw /\ jwt_Verify now raw = Some u /\ orgIDFromRequest r = Some o /\
     GetMembership u o (kaccounts db) = Ok m /\ p = mkPrincipal ActorHuman u 0 o (Some (mb_Role m))).
Proof.
  intros Hwf. unfold authenticate, Identify. destruct (bearerAPIKey r) as [raw|] eqn:Eb.
  - unfold Verify. destruct (well_formed_key raw); cbn [negb cached_key]; [|done]. rewrite verify_stored_eq.
    unfold principal_of, key_descriptor. destruct (find_row _ _) as [[i k]|] eqn:Ef; [|done]. apply find_row_Some in Ef as [Hk Hh%String.eqb_eq].
    destruct (ak_RevokedAt k) eqn:Er; [done|]. simpl. intros [= <- <-]. left. exists raw, i, k.
    split; [done|]. split; [done|]. split; [done|]. split; [done|]. split; [done|].
    pose proof (kw_role _ Hwf _ _ Hk) as Hrole. destruct (ak_Role k); auto; done.
  - destruct (accessJWT r) as [raw|] eqn:Ea; [|done]. destruct (jwt_Verify now raw) as [u|] eqn:Ej; [|done].
    unfold RequireOrg. cbn [pr_Kind pr_UserID]. rewrite bool_decide_eq_false_2 by done. destruct (orgIDFromRequest r) as [o|] eqn:Eo; [|done].
    unfold resolveRole, cached_role. destruct (GetMembership u o (kaccounts db)) as [m|[]] eqn:Em; try done.
    intros [= <- <-]. right. by exists raw, u, o, m.
Qed.

(** The two caches of one Redis at an instant, filled by any interleaving from the tables as they
    were. *)
Definition caches_at (marshal : cachedDescriptor -> string) (tablesAt : Time -> KDB) (delay : Duration) (now : Time) (redis : Redis) : Prop :=
  exists start s s', rt_clock s = now /\ rt_redis s = redis /\ rt_clock s' = now /\ rt_redis s' = redis /\
    rtc (rt_step cacheKey marshal descriptor_ttl (fun t => key_descriptor (tablesAt t)) delay) (rt_start start) s /\
    rtc (rt_step role_key (fun v => v) (fun _ => memberRoleTTL) (fun t => role_value (kaccounts (tablesAt t))) delay) (rt_start start) s'.

Lemma principal_of_Ok db h kp : principal_of (key_descriptor db h) = Ok kp ->
  exists i k, api_keys db !! i = Some k /\ ak_TokenHash k = h /\ ak_RevokedAt k = None /\ kp = mkKeyPrincipal (ak_ID k) (ak_OrgID k) (ak_Role k).
Proof.
  unfold principal_of, key_descriptor. destruct (find_row _ _) as [[i k]|] eqn:Ef; [|done]. apply find_row_Some in Ef as [Hk Hh%String.eqb_eq].
  destruct (ak_RevokedAt k) eqn:Er; [done|]. intros [= <-]. by exists i, k.
Qed.

Lemma parse_role_value db u o v role : v = role_value db (u, o) -> v <> "" -> parse_role v = role -> exists m, GetMembership u o db = Ok m /\ mb_Role m = role.
Proof.
  intros -> Hne <-. unfold role_value in *. cbn [fst snd] in *. destruct (GetMembership u o db) as [m|]; [|done]. exists m. by rewrite parse_role_text.
Qed.

(** Rights are those of the tables, at most five minutes and a delay ago. *)
Lemma rights_are_recent HashToken marshal unmarshal jwt_Verify tablesAt delay now redis r p (c' : option Redis) :
  (forall d, unmarshal (marshal d) = Some d) -> 0 <= delay -> caches_at marshal tablesAt delay now redis ->
  authenticate HashToken marshal unmarshal jwt_Verify now r (tablesAt now) (Some redis) = (Ok p, c') ->
  exists t0, now - 5 * Minute - delay < t0 <= now /\
  ((exists raw i k, bearerAPIKey r = Some raw /\ api_keys (tablesAt t0) !! i = Some k /\ ak_TokenHash k = HashToken raw /\ ak_RevokedAt k = None /\
      p = mkPrincipal ActorAPIKey 0 (ak_ID k) (ak_OrgID k) (Some (ak_Role k))) \/
   (exists raw u o m, bearerAPIKey r = None /\ accessJWT r = Some raw /\ jwt_Verify now raw = Some u /\ orgIDFromRequest r = Some o /\
      GetMembership u o (kaccounts (tablesAt t0)) = Ok m /\ p = mkPrincipal ActorHuman u 0 o (Some (mb_Role m)))).
Proof.
  intros Hjson Hd (start & s & s' & Hc1 & Hr1 & Hc2 & Hr2 & Hrun & Hrun'). unfold authenticate, Identify.
  assert (now - 5 * Minute - delay < now <= now) as Hnow by (unfold Minute, Second; lia). destruct (bearerAPIKey r) as [raw|] eqn:Eb.
  - pose proof (Verify_answer HashToken marshal unmarshal now raw (tablesAt now) redis) as Hv.
    destruct (Verify _ _ _ _ _ _ _) as [[kp|] c1]; [|done]. simpl in Hv |- *. intros [= <- _].
    assert (exists t0, now - 5 * Minute - delay < t0 <= now /\ principal_of (key_descriptor (tablesAt t0) (HashToken raw)) = Ok kp) as (t0 & Ht & Hp).
    { destruct Hv as [|(d & Hkp & [->|(enc & Hg & Hu)])]; [done|by exists now|]. rewrite <- Hc1, <- Hr1 in Hg.
      destruct (@bounded_staleness _ _ cacheKey marshal unmarshal descriptor_ttl cacheKey_inj Hjson descriptor_ttl_pos _ delay Hd start s
        (HashToken raw) enc d Hrun Hg Hu) as (t0 & Hs & Hb). exists t0. rewrite Hs, <- Hkp. split; [|done].
      assert (descriptor_ttl d = apiKeyCacheTTL) as Httl by (unfold descriptor_ttl; unfold principal_of in Hkp; by destruct (cd_Revoked d)).
      rewrite Httl, Hc1 in Hb. exact Hb. }
    apply principal_of_Ok in Hp as (i & k & Hk & Hh & Hr & ->). exists t0. split; [done|]. left. by exists raw, i, k.
  - destruct (accessJWT r) as [raw|] eqn:Ea; [|done]. destruct (jwt_Verify now raw) as [u|] eqn:Ej; [|done].
    unfold RequireOrg. cbn [pr_Kind pr_UserID pr_KeyID]. rewrite bool_decide_eq_false_2 by done. destruct (orgIDFromRequest r) as [o|] eqn:Eo; [|done].
    destruct (resolveRole now u o (kaccounts (tablesAt now)) (Some redis)) as [[role|[]] c1] eqn:Er; try done. intros [= <- _].
    apply (f_equal fst), resolveRole_answer in Er as (v & Hne & Hp & Hv).
    assert (exists t0, now - 5 * Minute - delay < t0 <= now /\ v = role_value (kaccounts (tablesAt t0)) (u, o)) as (t0 & Ht & Hv').
    { destruct Hv as [->|Hg]; [by exists now|]. rewrite <- Hc2, <- Hr2 in Hg.
      destruct (@bounded_staleness _ _ role_key (fun v => v) Some (fun _ => memberRoleTTL) role_key_inj ltac:(done) ltac:(done)
        (fun t => role_value (kaccounts (tablesAt t))) delay Hd start s' (u, o) v v Hrun' Hg eq_refl) as (t0 & Hs & Hb).
      exists t0. rewrite Hc2 in Hb. done. }
    destruct (parse_role_value _ _ _ _ _ Hv' Hne Hp) as (m & Hm & <-). exists t0. split; [done|]. right. by exists raw, u, o, m.
Qed.

(** A created key works, with exactly the rights asked for.  The secret a create call
    returns is accepted at once as the new key, with the org of the caller and the role of the
    request, which is member or admin; the secret itself is not in the table. *)
Theorem created_key_verifies HashToken marshal unmarshal now now' random p body db key secret db' (r : Redis) c' :
  kwf db -> (forall rnd, random = Some rnd -> rnd <> "") ->
  api_CreateAPIKey HashToken now random p body (db, Some r) = (KCreated key secret, (db', c')) ->
  GetCache now' (cacheKey (HashToken secret)) r = Ok None ->
  exists q actor name role, humanInOrg p = Some (q, actor) /\ body = Some (name, role) /\ (role = RoleMember \/ role = RoleAdmin) /\
    (Verify HashToken marshal unmarshal now' secret db' c').1 = Ok (mkKeyPrincipal (seq_keys db) (pr_OrgID q) role) /\
    kd_Id key = pretty (seq_keys db) /\ kd_Role key = role.
Proof.
  intros Hwf Hrnd. unfold api_CreateAPIKey, keys_right. destruct (humanInOrg p) as [[q actor]|]; [|done].
  destruct (negb (de_Allowed _)); [done|]. destruct (negb (APIAccessAllowed _)); [done|].
  destruct body as [[name role]|]; [|done]. destruct (String.eqb _ ""); [done|]. destruct (key_role role) eqn:Er; [|done]. cbn [negb].
  destruct random as [rnd|]; [|done]. specialize (Hrnd rnd eq_refl). cbn [newAPIKeySecret fmap option_fmap option_map].
  set (sec := APIKeyPrefix +:+ rnd). set (k := mkAPIKey 0 (pr_OrgID q) _ _ _ _ _ 0 None None).
  pose proof (kwf_op _ _ (op_create_key db now k) Hwf) as Hwf'. unfold CreateAPIKey_tx in *. cbn [ak_Role k] in *. rewrite Er in *. cbn [negb] in *.
  case_bool_decide; [done|]. destruct (_ || _); [done|]. unfold GetAPIKey, key_row. simpl (api_keys _). rewrite lookup_insert_eq. simpl (ak_OrgID _).
  rewrite Z.eqb_refl. intros [= <- <- <- <-] Hg. exists q, actor, name, role.
  split; [done|]. split; [done|]. split; [by destruct role; auto|]. split; [|done].
  unfold Verify. assert (well_formed_key sec = true) as ->.
  { unfold well_formed_key, sec, slen. apply andb_true_iff. split; [by destruct rnd|]. destruct rnd; [done|]. simpl. apply Z.ltb_lt. lia. }
  cbn [negb cached_key kc_GetCache redis_cache]. rewrite Hg, verify_stored_eq. cbn [fst].
  unfold key_descriptor. cbn [api_keys set_keys next_key]. match goal with |- context [find_row ?P (<[_ := ?K]> _)] =>
    rewrite (find_row_unique P _ (seq_keys db) K (lookup_insert_eq _ _ _)) end; [done|apply String.eqb_refl|].
  intros j k' Hj He%String.eqb_eq. by eapply (kw_hash _ Hwf' _ _ _ _ Hj (lookup_insert_eq _ _ _)).
Qed.

(** With the cache up, a revocation is immediate.  After a revoke call has answered 204 and
    its invalidation went through, the key is refused at every later instant until a
    verification that had read the table before writes the cache. *)
Theorem revocation_is_immediate HashToken marshal unmarshal now now' p id db (r : Redis) db' c' presented :
  kwf db -> api_RevokeAPIKey now p id (db, Some r) = (KPlain R204, (db', c')) ->
  exists keyID k, Atoi id = Some keyID /\ api_keys db !! keyID = Some k /\
    (HashToken presented = ak_TokenHash k -> (Verify HashToken marshal unmarshal now' presented db' c').1 = Err ErrAPIKeyInvalid).
Proof.
  intros Hwf. unfold api_RevokeAPIKey, keys_right. destruct (humanInOrg p) as [[q actor]|]; [|done].
  destruct (negb (de_Allowed _)); [done|]. destruct (Atoi id) as [keyID|]; [|done]. unfold GetAPIKey.
  destruct (key_row (pr_OrgID q) keyID db) as [k|] eqn:E; [|done]. intros [= <- <-]. pose proof (key_row_Some _ _ _ _ E) as [Hk Ho].
  exists keyID, k. split; [done|]. split; [done|]. intros Hh. unfold Verify. destruct (well_formed_key presented); [|done]. cbn [negb].
  unfold InvalidateAPIKey, cached_key. cbn [kc_DelCache kc_GetCache redis_cache DelCache snd]. rewrite Hh.
  assert (GetCache now' (cacheKey (ak_TokenHash k)) (delete (cacheKey (ak_TokenHash k)) r) = Ok None) as ->.
  { unfold GetCache, live_at. by rewrite lookup_delete_eq. }
  rewrite verify_stored_eq. cbn [fst].
  assert (exists k', api_keys (RevokeAPIKey_tx now (pr_OrgID q) keyID db).2 !! keyID = Some k' /\ ak_TokenHash k' = ak_TokenHash k /\ ak_RevokedAt k' <> None)
    as (k' & Hk' & Hh' & Hr').
  { unfold RevokeAPIKey_tx. rewrite E. destruct (ak_RevokedAt k) eqn:Er; simpl; [exists k; rewrite Er; done|].
    exists (with_revoked now k). by rewrite lookup_insert_eq. }
  rewrite <- Hh'. by rewrite (revoked_descriptor_of _ _ _ (kwf_op _ _ (op_revoke_key db now _ _) Hwf) Hk' Hr').
Qed.

(** ** Examples *)

#[export] Instance descriptor_eq_dec : EqDecision cachedDescriptor.
Proof. solve_decision. Defined.
#[export] Program Instance descriptor_countable : Countable cachedDescriptor :=
  inj_countable (fun d => (cd_KeyID d, cd_OrgID d, role_text (cd_Role d), cd_Revoked d))
    (fun '(k, o, r, b) => Some (mkDescriptor k o (parse_role r) b)) _.
Next Obligation. intros [k o r b]. simpl. by rewrite parse_role_text. Qed.

Definition ex_marshal_key (d : cachedDescriptor) : string := bits_of (encode d).
Definition ex_unmarshal_key (s : string) : option cachedDescriptor := countable.decode (of_bits s).
Lemma ex_key_codec d : ex_unmarshal_key (ex_marshal_key d) = Some d.
Proof. unfold ex_unmarshal_key, ex_marshal_key. by rewrite of_bits_of, decode_encode. Qed.

Definition ex_accounts : MDB :=
  mkMDB {[ 1 := mkMembership 1 7 3 RoleAdmin ]} ∅ {[ 7 := mkOrganization "acme" "tier3" "en" false ]} {[ 3 := mkUser "a@x" true "A" true ]} 2 1.
Definition ex_kdb0 : KDB := mkKDB ex_accounts ∅ 1.
Definition ex_admin : option Principal := Some (mkPrincipal ActorHuman 3 0 7 (Some RoleAdmin)).
Definition ex_hash (s : string) : string := s.
Definition ex_created_key : KResponse * (KDB * option Redis) :=
  api_CreateAPIKey ex_hash 0 (Some "abcdefgh") ex_admin (Some ("ci", RoleMember)) (ex_kdb0, Some ∅).
Definition ex_kdb1 : KDB := ex_created_key.2.1.
Definition ex_kdb2 : KDB := (RevokeAPIKey_tx 10 7 1 ex_kdb1).2.
Definition ex_secret : string := "pulse_sk_abcdefgh".

Lemma kwf_empty a : kwf (mkKDB a ∅ 1).
Proof. split; simpl; intros; by rewrite lookup_empty in *. Qed.
Lemma ex_kdb1_run : rtc key_op ex_kdb0 ex_kdb1.
Proof.
  apply rtc_once. exact (op_create_key ex_kdb0 0 (mkAPIKey 0 7 "ci" (apiKeyListablePrefix ex_secret) (ex_hash ex_secret) RoleMember (Some 3) 0 None None)).
Qed.
Lemma ex_kdb1_wf : kwf ex_kdb1.
Proof. apply (kwf_ops _ _ ex_kdb1_run), kwf_empty. Qed.

(** The table's history: the key is revoked at instant 10. *)
Definition ex_keysAt (t : Time) : KDB := if t <? 10 then ex_kdb1 else ex_kdb2.
Lemma ex_keys_history t t' : t <= t' -> rtc key_op (ex_keysAt t) (ex_keysAt t').
Proof.
  intros Ht. unfold ex_keysAt. destruct (t <? 10) eqn:E1, (t' <? 10) eqn:E2; try done; [apply rtc_once, op_revoke_key|].
  apply Z.ltb_ge in E1. apply Z.ltb_lt in E2. lia.
Qed.

(** A verification reads the table just before the revocation and writes the cache just after. *)
Definition ex_race_redis : Redis :=
  (SetCache 11 (cacheKey ex_secret) (ex_marshal_key (key_descriptor ex_kdb1 ex_secret)) apiKeyCacheTTL ∅).2.

(** A verification in flight outlives a revocation.  A verification that read the table
    before the revocation and writes the cache after the invalidation makes the revoked key valid
    again: a minute later it is accepted although the table has it revoked, against the
    documented immediate effect of a revocation. *)
Theorem in_flight_verification_outlives_revocation :
  exists s, rtc (rt_step cacheKey ex_marshal_key descriptor_ttl (fun t => key_descriptor (ex_keysAt t)) 5) (rt_start 9) s /\
    rt_clock s = 11 + Minute /\ ak_RevokedAt <$> api_keys (ex_keysAt (rt_clock s)) !! 1 = Some (Some 10) /\
    (Verify ex_hash ex_marshal_key ex_unmarshal_key (rt_clock s) ex_secret (ex_keysAt (rt_clock s)) (Some (rt_redis s))).1 =
      Ok (mkKeyPrincipal 1 7 RoleMember).
Proof.
  exists (mkRT (11 + Minute) ex_race_redis []). split.
  - eapply rtc_l; [apply (rt_read _ _ _ _ _ _ ex_secret)|].
    eapply rtc_l; [apply (rt_tick _ _ _ _ _ _ 11); [done|]|].
    { intros k v r. simpl. rewrite list_elem_of_singleton. intros [= -> -> ->]. done. }
    eapply rtc_l; [apply (rt_other _ _ _ _ _ _ ∅); intros k; by left|].
    eapply rtc_l; [eapply (rt_fill _ _ _ _ _ _ [] ex_secret _ _ []); done|].
    apply rtc_once. apply (rt_tick _ _ _ _ _ (mkRT 11 ex_race_redis []) (11 + Minute)); [done|]. by intros k v r ?%not_elem_of_nil.
  - vm_compute. done.
Qed.

Lemma revoked_key_dies_witness :
  (Verify ex_hash ex_marshal_key ex_unmarshal_key (10 + apiKeyCacheTTL) ex_secret (ex_keysAt (10 + apiKeyCacheTTL)) (Some ∅)).1 = Err ErrAPIKeyInvalid.
Proof.
  assert (exists k, api_keys (ex_keysAt 10) !! 1 = Some k /\ ak_RevokedAt k <> None /\ ex_hash ex_secret = ak_TokenHash k) as (k & H1 & H2 & H3).
  { exists (with_revoked 10 (mkAPIKey 1 7 "ci" (apiKeyListablePrefix ex_secret) (ex_hash ex_secret) RoleMember (Some 3) 0 None None)).
    vm_compute. done. }
  apply (revoked_key_dies ex_hash ex_marshal_key ex_unmarshal_key ex_keysAt 0 (10 + apiKeyCacheTTL) (rt_start (10 + apiKeyCacheTTL)) 1 k 10 ex_secret
    ex_key_codec); [lia|apply ex_keys_history|apply (kwf_op ex_kdb1); [apply op_revoke_key|apply ex_kdb1_wf]|exact H1|exact H2|exact H3|apply rtc_refl|done].
Defined.

Lemma role_change_takes_effect_witness :
  (resolveRole memberRoleTTL 3 7 ex_accounts (Some (∅ : Redis))).1 <> Ok RoleOwner.
Proof.
  apply (role_change_takes_effect (fun _ => ex_accounts) 0 memberRoleTTL (rt_start memberRoleTTL) 3 7 RoleOwner 0);
    [lia|done| |apply rtc_refl|done].
  intros t m _. vm_compute. intros [= <-]. done.
Defined.

Definition ex_request : HTTPRequest := mkRequest ("Bearer " +:+ ex_secret) "" "9" "".
Lemma rights_come_from_the_tables_witness :
  (authenticate ex_hash ex_marshal_key ex_unmarshal_key (fun _ _ => None) 5 ex_request ex_kdb1 (None : option Redis)).1 =
    Ok (mkPrincipal ActorAPIKey 0 1 7 (Some RoleMember)) /\ bearerAPIKey ex_request <> None.
Proof.
  assert (authenticate ex_hash ex_marshal_key ex_unmarshal_key (fun _ _ => None) 5 ex_request ex_kdb1 (None : option Redis) =
    (Ok (mkPrincipal ActorAPIKey 0 1 7 (Some RoleMember)), None)) as Ha by (vm_compute; reflexivity).
  destruct (rights_come_from_the_tables ex_hash ex_marshal_key ex_unmarshal_key (fun _ _ => None) 5 ex_request ex_kdb1 _ None ex_kdb1_wf Ha)
    as [(raw & i & k & Hb & _)|(raw & u & o & m & _ & _ & [=] & _)].
  rewrite Ha, Hb. done.
Defined.

Lemma created_key_verifies_witness :
  exists q actor, humanInOrg ex_admin = Some (q, actor) /\
    (Verify ex_hash ex_marshal_key ex_unmarshal_key 5 ex_secret ex_kdb1 (Some (∅ : Redis))).1 = Ok (mkKeyPrincipal 1 (pr_OrgID q) RoleMember).
Proof.
  assert (exists key, ex_created_key = (KCreated key ex_secret, (ex_kdb1, Some ∅))) as [key Hk] by (eexists; vm_compute; reflexivity).
  destruct (created_key_verifies ex_hash ex_marshal_key ex_unmarshal_key 0 5 (Some "abcdefgh") ex_admin (Some ("ci", RoleMember)) ex_kdb0 key ex_secret
    ex_kdb1 ∅ (Some ∅) (kwf_empty _) ltac:(by intros ? [= <-]) Hk eq_refl) as (q & actor & name & role & Hp & [= <- <-] & _ & Hv & _).
  exists q, actor. split; [exact Hp|exact Hv].
Defined.

Lemma revocation_is_immediate_witness :
  (Verify ex_hash ex_marshal_key ex_unmarshal_key 11 ex_secret (api_RevokeAPIKey 10 ex_admin "1" (ex_kdb1, Some (∅ : Redis))).2.1
     (api_RevokeAPIKey 10 ex_admin "1" (ex_kdb1, Some (∅ : Redis))).2.2).1 = Err ErrAPIKeyInvalid.
Proof.
  assert (api_RevokeAPIKey 10 ex_admin "1" (ex_kdb1, Some (∅ : Redis)) = (KPlain R204, (ex_kdb2, Some ∅))) as Hr by (vm_compute; reflexivity).
  destruct (revocation_is_immediate ex_hash ex_marshal_key ex_unmarshal_key 10 11 ex_admin "1" ex_kdb1 ∅ ex_kdb2 (Some ∅) ex_secret ex_kdb1_wf Hr)
    as (keyID & k & Hid & Hk & Hv).
  vm_compute in Hid. injection Hid as <-. rewrite Hr. apply Hv. assert (api_keys ex_kdb1 !! 1 = Some (mkAPIKey 1 7 "ci" (apiKeyListablePrefix ex_secret) (ex_hash ex_secret) RoleMember (Some 3) 0 None None)) as Hk'
    by (vm_compute; reflexivity). rewrite Hk' in Hk. by injection Hk as <-.
Defined.
