(* ===== verification/Accounts.v ===== *)
(** * Accounts: users, identities and organizations
    (src/internal/store/users.go, src/internal/store/organizations.go, src/internal/api/api.go)

    The three global tables with the unique indexes, foreign keys and checks of schema.sql, the
    store's statements and transactions over them, and the account handlers of the api.  The
    memberships and invitations are those of [Members]: [view] is what its operations see of these
    tables.  Postgres's [lower], Go's [strings.ToLower] and the random source are parameters. *)

From S2P Require Import Prelude Domain GoStrings Entitlements Authz Members.
Open Scope Z_scope.

(** ** Data *)

Inductive UserStatus := UserActive | UserDeletionPending | UserDeleted.
#[export] Instance UserStatus_eq_dec : EqDecision UserStatus.
Proof. solve_decision. Defined.

Record AUser := mkAUser {
  au_Email : string;
  au_EmailVerified : bool;
  au_Name : string;
  au_AvatarURL : string;
  au_Locale : string;
  au_Timezone : string;
  au_Status : UserStatus;
  au_LastLoginAt : option Time;
}.

Record AOrg := mkAOrg {
  ao_Name : string;
  ao_Slug : string;
  ao_Plan : string;
  ao_DefaultLocale : string;
  ao_DefaultTimezone : string;
  ao_CreatedAt : Time;
  ao_DeletedAt : option Time;
}.

Record UserIdentity := mkIdentity {
  ui_ID : Z; ui_UserID : Z; ui_Provider : string; ui_ProviderUserID : string; ui_CreatedAt : Time;
}.

Record ADB := mkADB {
  a_users : gmap Z AUser;
  a_identities : gmap Z UserIdentity;
  a_orgs : gmap Z AOrg;
  a_memberships : gmap Z Membership;
  a_invitations : gmap Z Invitation;
  seq_users : Z;
  seq_identities : Z;
  seq_orgs : Z;
  seq_mem : Z;
  seq_inv : Z;
}.

Definition set_users (m : gmap Z AUser) (db : ADB) : ADB :=
  mkADB m (a_identities db) (a_orgs db) (a_memberships db) (a_invitations db)
    (seq_users db) (seq_identities db) (seq_orgs db) (seq_mem db) (seq_inv db).
Definition set_identities (m : gmap Z UserIdentity) (db : ADB) : ADB :=
  mkADB (a_users db) m (a_orgs db) (a_memberships db) (a_invitations db)
    (seq_users db) (seq_identities db) (seq_orgs db) (seq_mem db) (seq_inv db).
Definition set_orgs (m : gmap Z AOrg) (db : ADB) : ADB :=
  mkADB (a_users db) (a_identities db) m (a_memberships db) (a_invitations db)
    (seq_users db) (seq_identities db) (seq_orgs db) (seq_mem db) (seq_inv db).
Definition next_user (db : ADB) : ADB :=
  mkADB (a_users db) (a_identities db) (a_orgs db) (a_memberships db) (a_invitations db)
    (seq_users db + 1) (seq_identities db) (seq_orgs db) (seq_mem db) (seq_inv db).
Definition next_identity (db : ADB) : ADB :=
  mkADB (a_users db) (a_identities db) (a_orgs db) (a_memberships db) (a_invitations db)
    (seq_users db) (seq_identities db + 1) (seq_orgs db) (seq_mem db) (seq_inv db).
Definition next_org (db : ADB) : ADB :=
  mkADB (a_users db) (a_identities db) (a_orgs db) (a_memberships db) (a_invitations db)
    (seq_users db) (seq_identities db) (seq_orgs db + 1) (seq_mem db) (seq_inv db).

(** *** What the membership operations see *)

Definition org_row (o : AOrg) : Organization :=
  mkOrganization (ao_Name o) (ao_Plan o) (ao_DefaultLocale o) (bool_decide (is_Some (ao_DeletedAt o))).
Definition user_row (u : AUser) : User :=
  mkUser (au_Email u) (au_EmailVerified u) (au_Name u) (bool_decide (au_Status u = UserActive)).
Definition view (db : ADB) : MDB :=
  mkMDB (a_memberships db) (a_invitations db) (org_row <$> a_orgs db) (user_row <$> a_users db) (seq_mem db) (seq_inv db).

(** A membership operation: it writes memberships and invitations only. *)
Definition set_members (m : MDB) (db : ADB) : ADB :=
  mkADB (a_users db) (a_identities db) (a_orgs db) (memberships m) (invitations m)
    (seq_users db) (seq_identities db) (seq_orgs db) (seq_memberships m) (seq_invitations m).
Definition with_members {A} (op : MDB -> A * MDB) (db : ADB) : A * ADB :=
  let '(a, m) := op (view db) in (a, set_members m db).

Inductive aError := ANoRows | AUnique | AForeignKey | ACheck | ErrSlugTaken.

(** A rolled-back transaction: the tables of before, the sequences of after. *)
Definition rollback (before after : ADB) : ADB :=
  mkADB (a_users before) (a_identities before) (a_orgs before) (a_memberships before) (a_invitations before)
    (seq_users after) (seq_identities after) (seq_orgs after) (seq_mem after) (seq_inv after).

Definition or_default (s d : string) : string := if String.eqb s "" then d else s.

(** ** Text *)

(** The bytes a slug keeps: letters and digits as they are, separators as dashes; the bytes of a
    rune beyond ASCII are all dropped. *)
Definition slug_byte (a : ascii) : option ascii :=
  if byte_in 97 122 a || byte_in 48 57 a then Some a
  else if byte_is 32 a || byte_is 45 a || byte_is 95 a || byte_is 46 a then Some "-"%char
  else None.
Fixpoint slug_bytes (s : string) : list ascii :=
  match s with
  | EmptyString => []
  | String a r => match slug_byte a with Some b => b :: slug_bytes r | None => slug_bytes r end
  end.
Fixpoint drop_dashes (l : list ascii) : list ascii :=
  match l with a :: r => if byte_is 45 a then drop_dashes r else l | [] => [] end.
Definition Trim_dash (l : list ascii) : string :=
  string_of_list_ascii (reverse (drop_dashes (reverse (drop_dashes l)))).

Section accounts.
Context (lower ToLower : string -> string).

Definition slugify (s : string) : string := or_default (Trim_dash (slug_bytes (ToLower s))) "workspace".

(** [random] is the base64url text of the four bytes drawn. *)
Definition deriveSlug (name random : string) : string := slugify name +:+ "-" +:+ ToLower random.

(** ** Users *)

Definition has_email (email : string) (u : AUser) : bool :=
  String.eqb (lower (au_Email u)) (lower email) && negb (bool_decide (au_Status u = UserDeleted)).

(** INSERT INTO users: the unique index on lower(email) of the rows that are not deleted. *)
Definition insert_user (email : string) (verified : bool) (name avatar locale timezone : string) (db : ADB) : result aError Z * ADB :=
  let id := seq_users db in
  let db1 := next_user db in
  if bool_decide (is_Some (find_row (has_email email) (a_users db))) then (Err AUnique, db1)
  else (Ok id, set_users (<[id := mkAUser email verified name avatar locale timezone UserActive None]> (a_users db1)) db1).

Definition CreateUser (u : AUser) (db : ADB) : result aError Z * ADB :=
  insert_user (au_Email u) (au_EmailVerified u) (au_Name u) (au_AvatarURL u)
    (or_default (au_Locale u) "en") (or_default (au_Timezone u) "UTC") db.

Definition a_GetUser (id : Z) (db : ADB) : result aError AUser :=
  match a_users db !! id with Some u => Ok u | None => Err ANoRows end.

Definition GetUserByEmail (email : string) (db : ADB) : result aError (Z * AUser) :=
  match find_row (has_email email) (a_users db) with Some r => Ok r | None => Err ANoRows end.

Definition with_profile (name avatar locale timezone : string) (u : AUser) : AUser :=
  mkAUser (au_Email u) (au_EmailVerified u) name avatar locale timezone (au_Status u) (au_LastLoginAt u).
Definition UpdateUser (id : Z) (u : AUser) (db : ADB) : ADB :=
  set_users (alter (with_profile (au_Name u) (au_AvatarURL u) (au_Locale u) (au_Timezone u)) id (a_users db)) db.

Definition with_login (now : Time) (u : AUser) : AUser :=
  mkAUser (au_Email u) (au_EmailVerified u) (au_Name u) (au_AvatarURL u) (au_Locale u) (au_Timezone u) (au_Status u) (Some now).
Definition SetLastLogin (now : Time) (id : Z) (db : ADB) : ADB := set_users (alter (with_login now) id (a_users db)) db.

(** ** Identities *)

(** CHECK (provider IN ('google','github','dev')) *)
Definition known_provider (p : string) : bool := existsb (String.eqb p) ["google"; "github"; "dev"].
Definition same_subject (provider subject : string) (i : UserIdentity) : bool :=
  String.eqb (ui_Provider i) provider && String.eqb (ui_ProviderUserID i) subject.
Definition same_user_provider (userID : Z) (provider : string) (i : UserIdentity) : bool :=
  (ui_UserID i =? userID) && String.eqb (ui_Provider i) provider.

Definition insert_identity (now : Time) (userID : Z) (provider subject : string) (db : ADB) : result aError Z * ADB :=
  let id := seq_identities db in
  let db1 := next_identity db in
  if negb (known_provider provider) then (Err ACheck, db1)
  else if bool_decide (is_Some (find_row (same_user_provider userID provider) (a_identities db))) ||
          bool_decide (is_Some (find_row (same_subject provider subject) (a_identities db)))
  then (Err AUnique, db1)
  else if bool_decide (a_users db !! userID = None) then (Err AForeignKey, db1)
  else (Ok id, set_identities (<[id := mkIdentity id userID provider subject now]> (a_identities db1)) db1).

Definition LinkIdentity (now : Time) (i : UserIdentity) (db : ADB) : result aError Z * ADB :=
  insert_identity now (ui_UserID i) (ui_Provider i) (ui_ProviderUserID i) db.

Definition UnlinkIdentity (userID : Z) (provider : string) (db : ADB) : Z * ADB :=
  (rows_affected (same_user_provider userID provider) (a_identities db),
   set_identities (filter (fun kv => same_user_provider userID provider kv.2 = false) (a_identities db)) db).

Definition GetIdentity (provider subject : string) (db : ADB) : result aError UserIdentity :=
  match find_row (same_subject provider subject) (a_identities db) with Some (_, i) => Ok i | None => Err ANoRows end.

Definition ListIdentitiesForUser (userID : Z) (db : ADB) : list UserIdentity :=
  sort_by (fun a b => ui_ID a <=? ui_ID b) (snd <$> rows_where (fun i => ui_UserID i =? userID) (a_identities db)).

(** ** Organizations *)

Definition has_slug (slug : string) (o : AOrg) : bool :=
  String.eqb (lower (ao_Slug o)) (lower slug) && bool_decide (ao_DeletedAt o = None).

(** INSERT INTO organizations: the unique index on lower(slug) of the rows that are not deleted. *)
Definition insert_org (now : Time) (name slug locale timezone : string) (db : ADB) : result aError Z * ADB :=
  let id := seq_orgs db in
  let db1 := next_org db in
  if bool_decide (is_Some (find_row (has_slug slug) (a_orgs db))) then (Err AUnique, db1)
  else (Ok id, set_orgs (<[id := mkAOrg name slug "tier1" locale timezone now None]> (a_orgs db1)) db1).

Definition CreateOrganization (now : Time) (o : AOrg) (db : ADB) : result aError Z * ADB :=
  insert_org now (ao_Name o) (ao_Slug o) (or_default (ao_DefaultLocale o) "en") (or_default (ao_DefaultTimezone o) "UTC") db.

Definition of_merror (e : mError) : aError :=
  match e with MNoRows => ANoRows | MUnique => AUnique | MForeignKey => AForeignKey | MLastOwner => ACheck end.

(** INSERT INTO memberships (org_id, user_id, role) VALUES ($1,$2,'owner') *)
Definition insert_owner (orgID userID : Z) (db : ADB) : result aError Z * ADB :=
  match with_members (insert_membership orgID userID RoleOwner) db with
  | (Ok id, db') => (Ok id, db')
  | (Err e, db') => (Err (of_merror e), db')
  end.

(** *** Transactions *)

Definition andThen {A B} (r : result aError A * ADB) (k : A -> ADB -> result aError B * ADB) : result aError B * ADB :=
  match r with (Ok a, db) => k a db | (Err e, db) => (Err e, db) end.
Definition transaction {A} (body : ADB -> result aError A * ADB) (db : ADB) : result aError A * ADB :=
  match body db with (Ok a, db') => (Ok a, db') | (Err e, db') => (Err e, rollback db db') end.

Record FirstSignIn := mkFirstSignIn { fs_UserID : Z; fs_IdentityID : Z; fs_OrgID : Z; fs_MembershipID : Z }.

(** The identity is optional: a magic link has none. *)
Definition link_optional (now : Time) (userID : Z) (idn : option (string * string)) (db : ADB) : result aError Z * ADB :=
  match idn with
  | Some (provider, subject) => insert_identity now userID provider subject db
  | None => (Ok 0, db)
  end.

Definition CreateUserWithPersonalOrg (now : Time) (u : AUser) (idn : option (string * string)) (orgName orgSlug : string) :
    ADB -> result aError FirstSignIn * ADB :=
  transaction (fun db0 =>
    andThen (CreateUser u db0) (fun userID db1 =>
    andThen (link_optional now userID idn db1) (fun identityID db2 =>
    andThen (insert_org now orgName orgSlug "en" "UTC" db2) (fun orgID db3 =>
    andThen (insert_owner orgID userID db3) (fun membershipID db4 =>
    (Ok (mkFirstSignIn userID identityID orgID membershipID), db4)))))).

(** One attempt of CreateOrgWithOwner: the org and its owner in one transaction. *)
Definition create_org_tx (now : Time) (name slug : string) (ownerID : Z) : ADB -> result aError (Z * AOrg) * ADB :=
  transaction (fun db0 =>
    andThen (insert_org now name slug "en" "UTC" db0) (fun orgID db1 =>
    andThen (insert_owner orgID ownerID db1) (fun _ db2 =>
    (Ok (orgID, mkAOrg name slug "tier1" "en" "UTC" now None), db2)))).

Definition isUniqueViolation (e : aError) : bool := match e with AUnique => true | _ => false end.

Definition maxTries : Z := 5.

(** The variables of the retry loop. *)
Record TryState := mkTryState { ts_attempt : Z; ts_slug : string; ts_db : ADB }.

(** One turn: the loop's test and body.  It either leaves the function with its result or goes on
    with the next attempt; [draw i] is the i-th random text. *)
Definition try_turn (now : Time) (name : string) (explicitSlug : bool) (ownerID : Z) (draw : nat -> string) (s : TryState) :
    (result aError (Z * AOrg * Role) * ADB) + TryState :=
  if ts_attempt s <? maxTries then
    match create_org_tx now name (ts_slug s) ownerID (ts_db s) with
    | (Ok (id, org), db') => inl (Ok (id, org, RoleOwner), db')
    | (Err e, db') =>
        if isUniqueViolation e then
          if explicitSlug then inl (Err ErrSlugTaken, db')
          else inr (mkTryState (ts_attempt s + 1) (deriveSlug name (draw (S (Z.to_nat (ts_attempt s))))) db')
        else inl (Err e, db')
    end
  else inl (Err ErrSlugTaken, ts_db s).

(** The loop, for at most [fuel] turns. *)
Fixpoint try_loop (fuel : nat) (now : Time) (name : string) (explicitSlug : bool) (ownerID : Z) (draw : nat -> string) (s : TryState) :
    option (result aError (Z * AOrg * Role) * ADB) :=
  match fuel with
  | O => None
  | S fuel' =>
      match try_turn now name explicitSlug ownerID draw s with
      | inl r => Some r
      | inr s' => try_loop fuel' now name explicitSlug ownerID draw s'
      end
  end.

Definition CreateOrgWithOwner (fuel : nat) (now : Time) (name slug : string) (ownerID : Z) (draw : nat -> string) (db : ADB) :
    option (result aError (Z * AOrg * Role) * ADB) :=
  let explicitSlug := negb (String.eqb slug "") in
  let slug' := if String.eqb slug "" then deriveSlug name (draw 0%nat) else slug in
  try_loop fuel now name explicitSlug ownerID draw (mkTryState 0 slug' db).

Definition a_GetOrganization (id : Z) (db : ADB) : result aError AOrg :=
  match a_orgs db !! id with Some o => Ok o | None => Err ANoRows end.

Definition GetOrganizationBySlug (slug : string) (db : ADB) : result aError (Z * AOrg) :=
  match find_row (has_slug slug) (a_orgs db) with Some r => Ok r | None => Err ANoRows end.

(** The join of the user's memberships with the organizations that are not deleted. *)
Definition ListOrganizationsForUser (userID : Z) (db : ADB) : list (Z * AOrg) :=
  sort_by (fun a b => a.1 <=? b.1)
    (omap (fun m => match a_orgs db !! mb_OrgID m with
                    | Some o => match ao_DeletedAt o with None => Some (mb_OrgID m, o) | Some _ => None end
                    | None => None
                    end)
       (snd <$> rows_where (fun m => mb_UserID m =? userID) (a_memberships db))).

Definition with_org_fields (name slug locale timezone : string) (o : AOrg) : AOrg :=
  mkAOrg name slug (ao_Plan o) locale timezone (ao_CreatedAt o) (ao_DeletedAt o).

(** UPDATE organizations SET name, slug, ...: the unique index again. *)
Definition UpdateOrganization (id : Z) (o : AOrg) (db : ADB) : result aError unit * ADB :=
  match a_orgs db !! id with
  | None => (Ok tt, db)
  | Some old =>
      if bool_decide (ao_DeletedAt old = None) &&
         bool_decide (is_Some (find_row (has_slug (ao_Slug o)) (delete id (a_orgs db))))
      then (Err AUnique, db)
      else (Ok tt, set_orgs (<[id := with_org_fields (ao_Name o) (ao_Slug o) (ao_DefaultLocale o) (ao_DefaultTimezone o) old]> (a_orgs db)) db)
  end.

(** ORDER BY created_at DESC, id DESC *)
Definition newer (a b : Z * AOrg) : bool :=
  (ao_CreatedAt b.2 <? ao_CreatedAt a.2) || ((ao_CreatedAt a.2 =? ao_CreatedAt b.2) && (b.1 <=? a.1)).
Definition AdminListOrganizations (db : ADB) : list (Z * AOrg) :=
  sort_by newer (rows_where (fun o => bool_decide (ao_DeletedAt o = None)) (a_orgs db)).

Definition with_plan (plan : string) (o : AOrg) : AOrg :=
  mkAOrg (ao_Name o) (ao_Slug o) plan (ao_DefaultLocale o) (ao_DefaultTimezone o) (ao_CreatedAt o) (ao_DeletedAt o).
Definition a_SetOrganizationPlan (id : Z) (plan : string) (db : ADB) : result aError unit * ADB :=
  match a_orgs db !! id with
  | Some o =>
      match ao_DeletedAt o with
      | None => (Ok tt, set_orgs (<[id := with_plan plan o]> (a_orgs db)) db)
      | Some _ => (Err ANoRows, db)
      end
  | None => (Err ANoRows, db)
  end.

Definition with_deleted (now : Time) (o : AOrg) : AOrg :=
  mkAOrg (ao_Name o) (ao_Slug o) (ao_Plan o) (ao_DefaultLocale o) (ao_DefaultTimezone o) (ao_CreatedAt o)
    (match ao_DeletedAt o with None => Some now | t => t end).
Definition SoftDeleteOrganization (now : Time) (id : Z) (db : ADB) : ADB :=
  set_orgs (alter (with_deleted now) id (a_orgs db)) db.

(** ** The account handlers (api/api.go) *)

Context (platformAdmins : string -> bool).
Definition isPlatformAdmin (email : string) : bool := platformAdmins (ToLower (TrimSpace email)).

Record OrgMembership := mkOrgMembership { om_OrgId : string; om_Name : string; om_Slug : string; om_Role : Role; om_Plan : Plan }.
Definition orgMembershipDTO (id : Z) (o : AOrg) (role : Role) : OrgMembership :=
  mkOrgMembership (pretty id) (ao_Name o) (ao_Slug o) role (ParsePlan (ao_Plan o)).

(** The role is read per org; an org whose membership is gone meanwhile is skipped.  A list and a
    lookup of one snapshot here. *)
Definition orgMemberships (userID : Z) (db : ADB) : list OrgMembership :=
  omap (fun o => match GetMembership userID o.1 (view db) with
                 | Ok m => Some (orgMembershipDTO o.1 o.2 (mb_Role m))
                 | Err _ => None
                 end) (ListOrganizationsForUser userID db).

Record Me := mkMe {
  me_UserId : string; me_Email : string; me_Name : string; me_AvatarUrl : option string; me_Locale : string; me_Timezone : string;
  me_Orgs : list OrgMembership; me_IsPlatformAdmin : bool;
}.

Record IdentityDTO := mkIdentityDTO { id_Provider : string; id_ProviderUserId : string; id_CreatedAt : Time }.

Inductive AResponse :=
  | APlain (r : Response)
  | AMe (m : Me)
  | AIdentities (l : list IdentityDTO)
  | AOrgs (l : list OrgMembership)
  | AOrgOk (o : OrgMembership)
  | AOrgCreated (o : OrgMembership).

Definition buildMe (userID : Z) (db : ADB) : AResponse :=
  match a_GetUser userID db with
  | Err _ => APlain R500
  | Ok u =>
      AMe (mkMe (pretty userID) (au_Email u) (au_Name u) (if String.eqb (au_AvatarURL u) "" then None else Some (au_AvatarURL u))
             (au_Locale u) (au_Timezone u) (orgMemberships userID db) (isPlatformAdmin (au_Email u)))
  end.

(** The signed-in human, or 401. *)
Definition signed_in (p : option Principal) (db : ADB) (k : Z -> AResponse * ADB) : AResponse * ADB :=
  match p with
  | Some q => if bool_decide (pr_Kind q = ActorHuman) then k (pr_UserID q) else (APlain R401, db)
  | None => (APlain R401, db)
  end.

Definition GetMe (p : option Principal) (db : ADB) : AResponse * ADB := signed_in p db (fun u => (buildMe u db, db)).

Record UpdateMeBody := mkUpdateMe { um_Name : option string; um_Locale : option string; um_Timezone : option string }.

Definition UpdateMe (p : option Principal) (body : option UpdateMeBody) (db : ADB) : AResponse * ADB :=
  signed_in p db (fun userID =>
    match body with
    | None => (APlain (R422 "body required"), db)
    | Some b =>
        match a_GetUser userID db with
        | Err _ => (APlain R500, db)
        | Ok u =>
            if bool_decide (um_Name b = Some "") then (APlain (R422 "name cannot be empty"), db)
            else
              let u' := with_profile (default (au_Name u) (um_Name b)) (au_AvatarURL u) (default (au_Locale u) (um_Locale b))
                          (default (au_Timezone u) (um_Timezone b)) u in
              let db' := UpdateUser userID u' db in
              (buildMe userID db', db')
        end
    end).

Definition ListMyIdentities (p : option Principal) (db : ADB) : AResponse * ADB :=
  signed_in p db (fun u =>
    (AIdentities ((fun i => mkIdentityDTO (ui_Provider i) (ui_ProviderUserID i) (ui_CreatedAt i)) <$> ListIdentitiesForUser u db), db)).

(** The decision, on the identities the handler read. *)
Definition unlink_decision (provider : string) (idns : list UserIdentity) : option Response :=
  if negb (existsb (fun i => String.eqb (ui_Provider i) provider) idns) then Some R404
  else if (Z.of_nat (length idns) <=? 1) then Some (R409 "cannot unlink your only sign-in method")
  else None.

Definition UnlinkMyIdentity (p : option Principal) (provider : string) (db : ADB) : AResponse * ADB :=
  signed_in p db (fun u =>
    match unlink_decision provider (ListIdentitiesForUser u db) with
    | Some r => (APlain r, db)
    | None => (APlain R204, (UnlinkIdentity u provider db).2)
    end).

Definition ListOrgs (p : option Principal) (db : ADB) : AResponse * ADB := signed_in p db (fun u => (AOrgs (orgMemberships u db), db)).

Definition CreateOrg (fuel : nat) (now : Time) (p : option Principal) (body : option (string * option string)) (draw : nat -> string)
    (db : ADB) : option (AResponse * ADB) :=
  match p with
  | Some q =>
      if negb (bool_decide (pr_Kind q = ActorHuman)) then Some (APlain R401, db)
      else
        match body with
        | None => Some (APlain (R422 "name required"), db)
        | Some (name, slug) =>
            if String.eqb name "" then Some (APlain (R422 "name required"), db)
            else
              match CreateOrgWithOwner fuel now name (default "" slug) (pr_UserID q) draw db with
              | None => None
              | Some (Ok (id, org, role), db') => Some (AOrgCreated (orgMembershipDTO id org role), db')
              | Some (Err ErrSlugTaken, db') => Some (APlain (R422 "slug already taken"), db')
              | Some (Err _, db') => Some (APlain R500, db')
              end
        end
  | None => Some (APlain R401, db)
  end.

(** The org of the path, with the role the middleware resolved. *)
Definition GetOrg (p : option Principal) (orgId : string) (db : ADB) : AResponse * ADB :=
  match p with
  | Some q =>
      if negb (bool_decide (pr_Kind q = ActorHuman)) then (APlain R401, db)
      else
        match Atoi orgId with
        | None => (APlain (R403 "not a member of this org"), db)
        | Some orgID =>
            match a_GetOrganization orgID db with
            | Err _ => (APlain (R403 "not a member of this org"), db)
            | Ok o => (AOrgOk (orgMembershipDTO orgID o (default RoleUnknown (pr_Role q))), db)
            end
        end
  | None => (APlain R401, db)
  end.

End accounts.
