(* ===== verification/AccountsInv.v ===== *)
(** * AccountsInv: what the account transactions preserve

    The unique indexes, the references between the tables and the owner of every live org, kept by
    every transaction of [Accounts] and [Members] in any order; that creating an org ends within
    five attempts with the org and its owner or with nothing; and when an identity may be unlinked. *)

From S2P Require Import Prelude Domain GoStrings Entitlements Authz Members MembersInv Accounts.
Open Scope Z_scope.

(** ** Unique indexes *)

(** A unique index, partial when [key] is [None] on some rows. *)
Definition unique_on {V K} (key : V -> option K) (m : gmap Z V) : Prop :=
  forall i j v w x, m !! i = Some v -> m !! j = Some w -> key v = Some x -> key w = Some x -> i = j.
Definition keys_below {V} (m : gmap Z V) (n : Z) : Prop := forall k v, m !! k = Some v -> k < n.

Section unique.
Context {V K : Type} (key : V -> option K).
Implicit Types (m : gmap Z V).

Lemma unique_insert m i v :
  unique_on key m -> (forall j w x, j <> i -> m !! j = Some w -> key w = Some x -> key v = Some x -> False) ->
  unique_on key (<[i := v]> m).
Proof.
  intros Hu Hno a b v1 v2 x. rewrite !lookup_insert. repeat case_decide; intros; simplify_eq; try done.
  - exfalso. by eapply (Hno b).
  - exfalso. by eapply (Hno a).
  - by eapply Hu.
Qed.

(** Rewriting rows without giving them a new key. *)
Lemma unique_alter m i f :
  unique_on key m -> (forall v x, key (f v) = Some x -> key v = Some x) -> unique_on key (alter f i m).
Proof.
  intros Hu Hf. assert (forall k v, alter f i m !! k = Some v -> exists w, m !! k = Some w /\ forall x, key v = Some x -> key w = Some x) as Ha.
  { intros k v. rewrite lookup_alter. case_decide; [|eauto]. destruct (m !! i) eqn:E; [|done]. simpl. intros [= <-]. subst. eauto. }
  intros a b v w x (v' & Hv & Kv)%Ha (w' & Hw & Kw)%Ha ??. eapply Hu; eauto.
Qed.

Lemma unique_subseteq m m' : unique_on key m -> m' ⊆ m -> unique_on key m'.
Proof. intros Hu Hs a b v w x Ha Hb. eapply Hu; by eapply lookup_weaken. Qed.

Lemma unique_empty : unique_on key ∅.
Proof. intros a b v w x. by rewrite lookup_empty. Qed.
End unique.

Lemma keys_below_insert {V} (m : gmap Z V) n v : keys_below m n -> keys_below (<[n := v]> m) (n + 1).
Proof. intros Hb k w. rewrite lookup_insert. case_decide; [lia|]. intros ?%Hb. lia. Qed.
Lemma keys_below_mono {V} (m : gmap Z V) n n' : keys_below m n -> n <= n' -> keys_below m n'.
Proof. intros Hb ? k v ?%Hb. lia. Qed.
Lemma keys_below_alter {V} (m : gmap Z V) n f i : keys_below m n -> keys_below (alter f i m) n.
Proof.
  intros Hb k v. rewrite lookup_alter. case_decide; [|apply Hb]. subst. destruct (m !! k) eqn:E; [|done]. intros _. by eapply Hb.
Qed.
Lemma keys_below_fresh {V} (m : gmap Z V) n : keys_below m n -> m !! n = None.
Proof. intros Hb. destruct (m !! n) eqn:E; [|done]. apply Hb in E. lia. Qed.
#[export] Hint Resolve keys_below_insert keys_below_mono keys_below_alter keys_below_fresh : pulse.

Definition subject_key (i : UserIdentity) : option (string * string) := Some (ui_Provider i, ui_ProviderUserID i).
Definition user_provider_key (i : UserIdentity) : option (Z * string) := Some (ui_UserID i, ui_Provider i).

Section invariant.
Context (lower : string -> string).

Definition email_key (u : AUser) : option string :=
  if bool_decide (au_Status u = UserDeleted) then None else Some (lower (au_Email u)).
Definition slug_key (o : AOrg) : option string :=
  if bool_decide (ao_DeletedAt o = None) then Some (lower (ao_Slug o)) else None.

Lemma has_email_key e u : has_email lower e u = true <-> email_key u = Some (lower e).
Proof.
  unfold has_email, email_key. case_bool_decide; simpl; rewrite ?andb_false_r, ?andb_true_r, ?String.eqb_eq; split; congruence.
Qed.
Lemma has_slug_key s o : has_slug lower s o = true <-> slug_key o = Some (lower s).
Proof.
  unfold has_slug, slug_key. case_bool_decide; simpl; rewrite ?andb_false_r, ?andb_true_r, ?String.eqb_eq; split; congruence.
Qed.
Lemma same_subject_key p s i : same_subject p s i = true <-> subject_key i = Some (p, s).
Proof. unfold same_subject, subject_key. rewrite andb_true_iff, !String.eqb_eq. split; [by intros [-> ->]|by intros [= -> ->]]. Qed.
Lemma same_user_provider_key u p i : same_user_provider u p i = true <-> user_provider_key i = Some (u, p).
Proof. unfold same_user_provider, user_provider_key. rewrite andb_true_iff, Z.eqb_eq, String.eqb_eq. split; [by intros [-> ->]|by intros [= -> ->]]. Qed.

(** ** The invariant *)

(** What holds between the statements of a transaction too. *)
Record awf (db : ADB) : Prop := {
  aw_users : keys_below (a_users db) (seq_users db);
  aw_idents : keys_below (a_identities db) (seq_identities db);
  aw_orgs : keys_below (a_orgs db) (seq_orgs db);
  aw_ident_id : forall k i, a_identities db !! k = Some i -> ui_ID i = k /\ is_Some (a_users db !! ui_UserID i);
  aw_email : unique_on email_key (a_users db);
  aw_subject : unique_on subject_key (a_identities db);
  aw_user_provider : unique_on user_provider_key (a_identities db);
  aw_slug : unique_on slug_key (a_orgs db);
  aw_members : mwf lower (view db);
  aw_refs : forall k m, a_memberships db !! k = Some m -> is_Some (a_orgs db !! mb_OrgID m) /\ is_Some (a_users db !! mb_UserID m);
}.

(** Every org that is not deleted has an owner. *)
Definition owned (db : ADB) : Prop :=
  forall id o, a_orgs db !! id = Some o -> ao_DeletedAt o = None -> has_owner id (view db).

(** *** Statements *)

Lemma find_row_taken {V K} (key : V -> option K) (P : V -> bool) m k :
  (forall v, P v = true <-> key v = Some k) -> ~ is_Some (find_row P m) ->
  forall (j : Z) w, m !! j = Some w -> key w = Some k -> False.
Proof.
  intros HP Hf j w Hj Hk. apply Hf, find_row_is_Some. exists j, w. split; [done|]. by apply HP.
Qed.

Lemma mwf_view db db' :
  a_memberships db' = a_memberships db -> a_invitations db' = a_invitations db -> seq_mem db <= seq_mem db' -> seq_inv db <= seq_inv db' ->
  mwf lower (view db) -> mwf lower (view db').
Proof.
  intros Hm Hi Hs Hs' [H1 H2 H3 H4]. split; simpl in *; rewrite ?Hm, ?Hi; [| |done|done].
  - intros k m ?%H1. lia.
  - intros k i ?%H2. split; [lia|naive_solver].
Qed.

Lemma awf_next db db' :
  a_users db' = a_users db -> a_identities db' = a_identities db -> a_orgs db' = a_orgs db ->
  a_memberships db' = a_memberships db -> a_invitations db' = a_invitations db ->
  seq_users db <= seq_users db' -> seq_identities db <= seq_identities db' -> seq_orgs db <= seq_orgs db' ->
  seq_mem db <= seq_mem db' -> seq_inv db <= seq_inv db' -> awf db -> awf db'.
Proof.
  intros Hu Hi Ho Hm Hv S1 S2 S3 S4 S5 []. split; rewrite ?Hu, ?Hi, ?Ho, ?Hm; eauto with pulse.
  eapply mwf_view; [..|done]; congruence || done.
Qed.

Ltac view_kept := solve [eapply mwf_view; [..|eassumption]; simpl; reflexivity || lia].

Lemma awf_insert_user e v n a l t db : awf db -> awf (insert_user lower e v n a l t db).2.
Proof.
  intros Hwf. unfold insert_user. case_bool_decide as Hf; simpl; [by eapply awf_next; [..|done]; simpl; done || lia|].
  destruct Hwf. split; simpl; eauto with pulse; try view_kept.
  - intros k i Hk. destruct (aw_ident_id0 k i Hk) as [? ?]. split; [done|]. rewrite lookup_insert. by case_decide.
  - apply unique_insert; [done|]. intros j w x _ Hj Hx Hx'. unfold email_key in Hx' at 1. simplify_eq/=.
    eapply (find_row_taken email_key _ _ (lower e)); [by apply has_email_key|done..].
  - intros k m Hk. destruct (aw_refs0 k m Hk). split; [done|]. rewrite lookup_insert. by case_decide.
Qed.

Lemma awf_insert_identity now u p s db : awf db -> awf (insert_identity now u p s db).2.
Proof.
  intros Hwf. unfold insert_identity. assert (awf (next_identity db)) as Hn by (eapply awf_next; [..|done]; simpl; done || lia).
  destruct (negb _); simpl; [done|]. case_bool_decide as Hf1; simpl; [done|]. case_bool_decide as Hf2; simpl; [done|].
  case_bool_decide as Hu; simpl; [done|]. destruct Hwf. split; simpl; eauto with pulse; try view_kept.
  - intros k i. rewrite lookup_insert. case_decide; [|eauto]. intros [= <-]. simpl. split; [done|]. by apply not_eq_None_Some.
  - apply unique_insert; [done|]. intros j w x _ Hj Hx Hx'. unfold subject_key in Hx' at 1. simplify_eq/=.
    eapply (find_row_taken subject_key _ _ (p, s)); [by apply same_subject_key|done..].
  - apply unique_insert; [done|]. intros j w x _ Hj Hx Hx'. unfold user_provider_key in Hx' at 1. simplify_eq/=.
    eapply (find_row_taken user_provider_key _ _ (u, p)); [by apply same_user_provider_key|done..].
Qed.

Lemma awf_insert_org now n s l t db : awf db -> awf (insert_org lower now n s l t db).2.
Proof.
  intros Hwf. unfold insert_org. case_bool_decide as Hf; simpl; [by eapply awf_next; [..|done]; simpl; done || lia|].
  destruct Hwf. split; simpl; eauto with pulse; try view_kept.
  - apply unique_insert; [done|]. intros j w x _ Hj Hx Hx'. unfold slug_key in Hx' at 1. simplify_eq/=.
    eapply (find_row_taken slug_key _ _ (lower s)); [by apply has_slug_key|done..].
  - intros k m Hk. destruct (aw_refs0 k m Hk). split; [|done]. rewrite lookup_insert. by case_decide.
Qed.

Lemma awf_alter_user f i db :
  awf db -> (forall u x, email_key (f u) = Some x -> email_key u = Some x) -> awf (set_users (alter f i (a_users db)) db).
Proof.
  intros [] Hf. split; simpl; eauto with pulse; try view_kept.
  - intros k v Hk. destruct (aw_ident_id0 k v Hk). split; [done|]. rewrite lookup_alter. case_decide; [by apply fmap_is_Some; subst|done].
  - by apply unique_alter.
  - intros k m Hk. destruct (aw_refs0 k m Hk). split; [done|]. rewrite lookup_alter. case_decide; [by apply fmap_is_Some; subst|done].
Qed.

Lemma awf_unlink u p db : awf db -> awf (UnlinkIdentity u p db).2.
Proof.
  intros []. assert (filter (fun kv => same_user_provider u p kv.2 = false) (a_identities db) ⊆ a_identities db) as Hs by apply map_filter_subseteq.
  split; simpl; eauto using unique_subseteq; try view_kept.
  - intros k i Hk. by eapply aw_idents0, lookup_weaken.
  - intros k i Hk. by eapply aw_ident_id0, lookup_weaken.
Qed.

(** A row of organizations rewritten in place. *)
Lemma awf_write_org id o o' db :
  awf db -> a_orgs db !! id = Some o ->
  (forall x j w, slug_key o' = Some x -> j <> id -> a_orgs db !! j = Some w -> slug_key w = Some x -> False) ->
  awf (set_orgs (<[id := o']> (a_orgs db)) db).
Proof.
  intros [] Ho Hs. split; simpl; eauto with pulse; try view_kept.
  - intros k v. rewrite lookup_insert. case_decide; [|apply aw_orgs0]. intros _. subst. by eapply aw_orgs0.
  - apply unique_insert; [done|]. intros j w x Hne Hj Hx Hx'. by eapply (Hs x j w).
  - intros k m Hk. destruct (aw_refs0 k m Hk). split; [|done]. rewrite lookup_insert. by case_decide.
Qed.

(** Where the rows of memberships come from. *)
Lemma insert_membership_refs org u r db k x :
  memberships (insert_membership org u r db).2 !! k = Some x ->
  memberships db !! k = Some x \/ (is_Some (organizations db !! mb_OrgID x) /\ is_Some (users db !! mb_UserID x)).
Proof.
  unfold insert_membership. cbv zeta. case_bool_decide; simpl; [by left|]. case_bool_decide as Ho; simpl; [by left|].
  case_bool_decide as Hu; simpl; [by left|]. rewrite lookup_insert. case_decide; [|by left]. intros [= <-]. right. simpl.
  split; by apply not_eq_None_Some.
Qed.

Lemma step_refs m m' :
  mdb_step lower m m' -> forall k x, memberships m' !! k = Some x ->
  (exists k' x', memberships m !! k' = Some x' /\ mb_OrgID x' = mb_OrgID x /\ mb_UserID x' = mb_UserID x) \/
  (is_Some (organizations m !! mb_OrgID x) /\ is_Some (users m !! mb_UserID x)).
Proof.
  assert (forall k x m, memberships m !! k = Some x ->
    exists k' x', memberships m !! k' = Some x' /\ mb_OrgID x' = mb_OrgID x /\ mb_UserID x' = mb_UserID x) as Hsame by eauto.
  intros Hs k x. destruct Hs; simpl.
  - intros [Hk|Hk]%insert_membership_refs; eauto.
  - unfold UpdateMemberRole. destruct (find_row _ _) as [[i y]|] eqn:E; [|eauto]. apply find_row_Some in E as [Hi _].
    destruct (enforce_last_owner _ _ _ _); [|eauto]. simpl. rewrite lookup_insert. case_decide; [|eauto]. intros [= <-]. left. eauto.
  - unfold RemoveMember_tx. destruct (find_row _ _) as [[i y]|]; [|eauto]. destruct (enforce_last_owner _ _ _ _); [|eauto].
    simpl. intros [_ Hk]%lookup_delete_Some. eauto.
  - unfold CreateInvitation_tx. cbv zeta. destruct (_ || _); [eauto|]. destruct (_ || negb _); eauto.
  - unfold ResendInvitation_tx, update_pending. destruct (pending_row _ _ _); eauto.
  - unfold SetInvitationToken. destruct (pending_row _ _ _); [|eauto]. destruct (token_taken _ _ _); eauto.
  - unfold RevokeInvitation_tx, update_pending. destruct (pending_row _ _ _); eauto.
  - unfold AcceptInvitation_tx. destruct (pending_row _ _ _) as [i|]; [|eauto]. cbv zeta.
    destruct (insert_membership _ _ _ _) as [[mid|e] db2] eqn:E; simpl; [|eauto].
    intros Hk. assert (db2 = (insert_membership org u (in_Role i) (set_invitations (insert id (with_state InviteAccepted (Some now) i)) db)).2) as -> by (by rewrite E).
    apply insert_membership_refs in Hk as [Hk|Hk]; eauto.
  - eauto.
Qed.

Lemma awf_members db m' : awf db -> mdb_step lower (view db) m' -> awf (set_members m' db).
Proof.
  intros [] Hs. destruct (step_preserves _ _ _ Hs aw_members0) as (Hm & _ & _). split; simpl; eauto.
  - destruct Hm. by split.
  - intros k x [(k' & x' & Hk & <- & <-)|[[? Ho] [? Hu]]]%(step_refs _ _ Hs); [by eapply aw_refs0|].
    simpl in Ho, Hu. rewrite lookup_fmap in Ho. rewrite lookup_fmap in Hu. by destruct (a_orgs db !! _), (a_users db !! _).
Qed.

Lemma insert_owner_step org u db : exists r m', insert_owner org u db = (r, set_members m' db) /\ mdb_step lower (view db) m'.
Proof.
  unfold insert_owner, with_members.
  pose proof (step_create_membership lower (mkMembership 0 org u RoleOwner) (view db)) as Hs. unfold CreateMembership in Hs. simpl in Hs.
  destruct (insert_membership org u RoleOwner (view db)) as [[id|e] m']; eauto.
Qed.

(** *** Transactions *)

(** No row of any table differs. *)
Definition same_tables (db db' : ADB) : Prop :=
  a_users db' = a_users db /\ a_identities db' = a_identities db /\ a_orgs db' = a_orgs db /\
  a_memberships db' = a_memberships db /\ a_invitations db' = a_invitations db.
Definition seqs_le (db db' : ADB) : Prop :=
  seq_users db <= seq_users db' /\ seq_identities db <= seq_identities db' /\ seq_orgs db <= seq_orgs db' /\
  seq_mem db <= seq_mem db' /\ seq_inv db <= seq_inv db'.

#[local] Instance seqs_le_pre : PreOrder seqs_le.
Proof. split; [intros a|intros a b c H1 H2]; unfold seqs_le in *; lia. Qed.

Lemma awf_same db db' : same_tables db db' -> seqs_le db db' -> awf db -> awf db'.
Proof. intros (? & ? & ? & ? & ?) (? & ? & ? & ? & ?). by apply awf_next. Qed.

Lemma owned_same db db' : same_tables db db' -> owned db -> owned db'.
Proof. intros (_ & _ & Ho & Hm & _) H id o. rewrite Ho. intros Hi Hd. destruct (H id o Hi Hd) as (k & m & Hk). exists k, m. simpl in *. by rewrite Hm. Qed.

(** The org [o] with the row that makes [u] its owner. *)
Definition with_owned_org (o : AOrg) (u : Z) (db : ADB) : ADB :=
  mkADB (a_users db) (a_identities db) (<[seq_orgs db := o]> (a_orgs db))
    (<[seq_mem db := mkMembership (seq_mem db) (seq_orgs db) u RoleOwner]> (a_memberships db)) (a_invitations db)
    (seq_users db) (seq_identities db) (seq_orgs db + 1) (seq_mem db + 1) (seq_inv db).

Lemma insert_owner_fresh org u db :
  (forall k m, a_memberships db !! k = Some m -> mb_OrgID m <> org) -> is_Some (a_orgs db !! org) ->
  (insert_owner org u db).1 = (if bool_decide (is_Some (a_users db !! u)) then Ok (seq_mem db) else Err AForeignKey) /\
  (is_Some (a_users db !! u) ->
   (insert_owner org u db).2 = set_members (set_memberships (insert (seq_mem db) (mkMembership (seq_mem db) org u RoleOwner)) (next_membership (view db))) db) /\
  seqs_le db (insert_owner org u db).2.
Proof.
  intros Hno [o Ho]. unfold insert_owner, with_members, insert_membership. cbv zeta.
  rewrite bool_decide_eq_false_2; cycle 1.
  { rewrite find_row_is_Some. intros (k & m & Hk & Hm). unfold is_member in Hm. reflect_tests. by eapply Hno. }
  simpl. rewrite !lookup_fmap, Ho. simpl. destruct (a_users db !! u) as [x|]; simpl;
    (split; [done|]; split; [try (by intros [? [=]]); done|unfold seqs_le; simpl; lia]).
Qed.

(** The org and its owner, given a free slug and an existing user. *)
Lemma new_org_with_owner now name slug u db :
  awf db -> find_row (has_slug lower slug) (a_orgs db) = None ->
  let o := mkAOrg name slug "tier1" "en" "UTC" now None in
  let r := andThen (insert_org lower now name slug "en" "UTC" db) (fun id db1 => andThen (insert_owner id u db1) (fun mid db2 => (Ok (id, mid), db2))) in
  if bool_decide (is_Some (a_users db !! u)) then r = (Ok (seq_orgs db, seq_mem db), with_owned_org o u db)
  else r.1 = Err AForeignKey /\ seqs_le db r.2.
Proof.
  intros Hwf Hf o. cbv zeta. unfold insert_org. rewrite Hf. rewrite (bool_decide_eq_false_2 (is_Some None)) by (by intros [? [=]]). simpl.
  fold o. set (db1 := set_orgs _ (next_org db)).
  destruct (insert_owner_fresh (seq_orgs db) u db1) as (H1 & H2 & H3).
  { intros k m Hk He. destruct (aw_refs _ Hwf k m Hk) as [[x Hx] _]. rewrite He in Hx. apply (aw_orgs _ Hwf) in Hx. lia. }
  { simpl. rewrite lookup_insert_eq. eauto. }
  assert (a_users db1 = a_users db) as Eu by done. rewrite Eu in *. case_bool_decide as Hu.
  - destruct (insert_owner _ _ db1) as [r2 db2]. simpl in *. subst r2. simpl. rewrite (H2 Hu). done.
  - destruct (insert_owner _ _ db1) as [r2 db2]. simpl in *. subst r2. simpl. split; [done|]. unfold seqs_le in *. simpl in *. lia.
Qed.

Lemma awf_new_org now name slug u db :
  awf db -> find_row (has_slug lower slug) (a_orgs db) = None -> is_Some (a_users db !! u) ->
  awf (with_owned_org (mkAOrg name slug "tier1" "en" "UTC" now None) u db).
Proof.
  intros Hwf Hf Hu. pose proof (new_org_with_owner now name slug u db Hwf Hf) as Hn. cbv zeta in Hn.
  rewrite bool_decide_eq_true_2 in Hn by done. set (db' := with_owned_org _ u db) in *. clearbody db'.
  pose proof (awf_insert_org now name slug "en" "UTC" db Hwf) as H1.
  destruct (insert_org _ _ _ _ _ _ _) as [[id|e] db1]; simpl in *; [|done].
  destruct (insert_owner_step id u db1) as (r2 & m' & E & Hs). rewrite E in Hn.
  destruct r2; simpl in Hn; [|done]. assert (db' = set_members m' db1) as -> by congruence. by apply awf_members.
Qed.

Lemma awf_with_owned_org now name slug u db :
  awf db -> owned db -> find_row (has_slug lower slug) (a_orgs db) = None -> is_Some (a_users db !! u) ->
  let db' := with_owned_org (mkAOrg name slug "tier1" "en" "UTC" now None) u db in awf db' /\ owned db'.
Proof.
  intros Hwf Ho Hf Hu. split; [by apply awf_new_org|].
  intros id o. simpl. rewrite lookup_insert. case_decide as Hid.
  - intros [= <-] _. subst. exists (seq_mem db), (mkMembership (seq_mem db) (seq_orgs db) u RoleOwner). simpl.
    rewrite lookup_insert_eq. split; [done|]. unfold is_owner. simpl. by rewrite Z.eqb_refl.
  - intros Hi Hd. destruct (Ho id o Hi Hd) as (k & m & Hk & Hown). exists k, m. simpl in *. split; [|done].
    rewrite lookup_insert_ne; [done|]. apply (mwf_mem_key _ _ (aw_members _ Hwf)) in Hk. simpl in Hk. lia.
Qed.

Lemma rollback_same db db' : same_tables db (rollback db db').
Proof. by split_and!. Qed.
Lemma rollback_seqs db db' : seqs_le db db' -> seqs_le db (rollback db db').
Proof. done. Qed.
#[local] Hint Resolve rollback_same rollback_seqs : core.

Lemma create_org_tx_cases now name slug u db :
  awf db ->
  let o := mkAOrg name slug "tier1" "en" "UTC" now None in
  let '(r, db') := create_org_tx lower now name slug u db in
  seqs_le db db' /\
  match find_row (has_slug lower slug) (a_orgs db) with
  | Some _ => r = Err AUnique /\ same_tables db db'
  | None =>
      if bool_decide (is_Some (a_users db !! u)) then r = Ok (seq_orgs db, o) /\ db' = with_owned_org o u db
      else r = Err AForeignKey /\ same_tables db db'
  end.
Proof.
  intros Hwf o. unfold create_org_tx, transaction. destruct (find_row _ _) as [row|] eqn:Hf.
  { unfold insert_org. rewrite Hf. rewrite bool_decide_eq_true_2 by eauto. simpl. split_and!; unfold seqs_le; simpl; lia || done. }
  pose proof (new_org_with_owner now name slug u db Hwf Hf) as Hn. cbv zeta in Hn. fold o in Hn.
  destruct (insert_org _ _ _ _ _ _ _) as [[id|e] db1]; simpl in *; [|case_bool_decide; [done|naive_solver]].
  destruct (insert_owner id u db1) as [[mid|e] db2]; simpl in *; case_bool_decide; simplify_eq/=; try naive_solver.
  split; [|done]. unfold seqs_le. simpl. lia.
Qed.

Lemma awf_create_org_tx now name slug u db :
  awf db -> owned db -> awf (create_org_tx lower now name slug u db).2 /\ owned (create_org_tx lower now name slug u db).2.
Proof.
  intros Hwf Ho. pose proof (create_org_tx_cases now name slug u db Hwf) as Hc. cbv zeta in Hc.
  destruct (create_org_tx _ _ _ _ _ _) as [r db']. destruct Hc as [Hs Hc]. simpl. destruct (find_row _ _) eqn:Hf.
  - destruct Hc as [_ Hc]. split; [by eapply awf_same|by eapply owned_same].
  - case_bool_decide.
    + destruct Hc as [_ ->]. by apply awf_with_owned_org.
    + destruct Hc as [_ Hc]. split; [by eapply awf_same|by eapply owned_same].
Qed.

(** The identity a first sign-in stores with the user. *)
Definition with_identity (now : Time) (u : Z) (idn : option (string * string)) (id : Z) (m : gmap Z UserIdentity) : gmap Z UserIdentity :=
  match idn with Some (p, s) => <[id := mkIdentity id u p s now]> m | None => m end.

Lemma link_optional_cases now u idn db :
  let '(r, db') := link_optional now u idn db in
  seqs_le db db' /\
  match r with
  | Ok _ => a_users db' = a_users db /\ a_orgs db' = a_orgs db /\ a_memberships db' = a_memberships db /\ a_invitations db' = a_invitations db /\
            a_identities db' = with_identity now u idn (seq_identities db) (a_identities db) /\
            seq_orgs db' = seq_orgs db /\ seq_mem db' = seq_mem db /\
            (forall p s, idn = Some (p, s) -> find_row (same_subject p s) (a_identities db) = None)
  | Err _ => same_tables db db'
  end.
Proof.
  destruct idn as [[p s]|]; simpl; [|split; [reflexivity|by split_and!]]. unfold insert_identity.
  destruct (negb _); simpl; [split; [unfold seqs_le; simpl; lia|by split_and!]|].
  destruct (_ || _) eqn:Eu; simpl; [split; [unfold seqs_le; simpl; lia|by split_and!]|].
  destruct (bool_decide (a_users db !! u = None)); simpl; [split; [unfold seqs_le; simpl; lia|by split_and!]|].
  split; [unfold seqs_le; simpl; lia|]. split_and!; try done. intros ?? [= <- <-].
  apply orb_false_iff in Eu as [_ Eu]. apply bool_decide_eq_false in Eu. by apply eq_None_not_Some.
Qed.

Definition stored_user (u : AUser) : AUser :=
  mkAUser (au_Email u) (au_EmailVerified u) (au_Name u) (au_AvatarURL u) (or_default (au_Locale u) "en") (or_default (au_Timezone u) "UTC") UserActive None.

Lemma CreateUser_cases u db :
  let '(r, db') := CreateUser lower u db in
  match find_row (has_email lower (au_Email u)) (a_users db) with
  | Some _ => r = Err AUnique /\ db' = next_user db
  | None => r = Ok (seq_users db) /\ db' = set_users (<[seq_users db := stored_user u]> (a_users db)) (next_user db)
  end.
Proof.
  unfold CreateUser, insert_user. destruct (find_row _ _) eqn:E.
  - by rewrite bool_decide_eq_true_2 by eauto.
  - by rewrite bool_decide_eq_false_2 by (by intros [? [=]]).
Qed.

(** A first sign-in stores the user, its identity, its org and its ownership, or nothing. *)
Lemma first_sign_in_cases now u idn name slug db :
  awf db ->
  let '(r, db') := CreateUserWithPersonalOrg lower now u idn name slug db in
  seqs_le db db' /\
  match r with
  | Err _ => same_tables db db'
  | Ok fs =>
      exists db2, db' = with_owned_org (mkAOrg name slug "tier1" "en" "UTC" now None) (seq_users db) db2 /\ awf db2 /\ same_tables db2
          (mkADB (<[seq_users db := stored_user u]> (a_users db)) (with_identity now (seq_users db) idn (seq_identities db) (a_identities db))
             (a_orgs db) (a_memberships db) (a_invitations db) 0 0 0 0 0) /\
        seq_orgs db2 = seq_orgs db /\ seq_mem db2 = seq_mem db /\
        find_row (has_email lower (au_Email u)) (a_users db) = None /\ find_row (has_slug lower slug) (a_orgs db) = None /\
        (forall p s, idn = Some (p, s) -> find_row (same_subject p s) (a_identities db) = None) /\
        fs_UserID fs = seq_users db /\ fs_OrgID fs = seq_orgs db /\ fs_MembershipID fs = seq_mem db
  end.
Proof.
  intros Hwf. unfold CreateUserWithPersonalOrg, transaction.
  pose proof (CreateUser_cases u db) as H1. pose proof (awf_insert_user (au_Email u) (au_EmailVerified u) (au_Name u) (au_AvatarURL u)
    (or_default (au_Locale u) "en") (or_default (au_Timezone u) "UTC") db Hwf) as W1. fold (CreateUser lower u db) in W1.
  destruct (CreateUser lower u db) as [r1 db1]. simpl in W1. destruct (find_row (has_email _ _) _) eqn:Ee; destruct H1 as [-> E1]; simpl.
  { split; [|done]. subst. unfold seqs_le. simpl. lia. }
  pose proof (link_optional_cases now (seq_users db) idn db1) as H2.
  assert (awf (link_optional now (seq_users db) idn db1).2) as W2
    by (destruct idn as [[p s]|]; [by apply awf_insert_identity|done]).
  destruct (link_optional now (seq_users db) idn db1) as [r2 db2]. simpl in W2. destruct H2 as [S2 H2].
  assert (seqs_le db db2) as Sdb by (etrans; [|exact S2]; subst db1; unfold seqs_le; simpl; lia).
  destruct r2 as [iid|e]; simpl; [|done]. destruct H2 as (Tu & To & Tm & Ti & Tid & So & Sm & Hfree).
  destruct (find_row (has_slug lower slug) (a_orgs db2)) eqn:Es.
  { unfold insert_org. rewrite Es, bool_decide_eq_true_2 by eauto. simpl. split; [|done]. unfold seqs_le in *. simpl. lia. }
  pose proof (new_org_with_owner now name slug (seq_users db) db2 W2 Es) as Hn. cbv zeta in Hn.
  rewrite bool_decide_eq_true_2 in Hn by (rewrite Tu; subst db1; simpl; rewrite lookup_insert_eq; eauto).
  destruct (insert_org _ _ _ _ _ _ db2) as [[oid|e] db3]; simpl in *; [|done].
  destruct (insert_owner oid _ db3) as [[mid|e] db4]; simpl in *; [|done]. injection Hn as -> -> ->.
  split; [unfold seqs_le in *; simpl; lia|]. exists db2. subst db1. unfold same_tables. simpl in *. rewrite To in Es. naive_solver.
Qed.

(** ** The steps of the database *)

(** Every transaction the program runs on these tables, the membership ones included. *)
Inductive account_step (db : ADB) : ADB -> Prop :=
  | step_first_sign_in now u idn name slug : account_step db (CreateUserWithPersonalOrg lower now u idn name slug db).2
  | step_create_user u : account_step db (CreateUser lower u db).2
  | step_update_user id u : account_step db (UpdateUser id u db)
  | step_last_login now id : account_step db (SetLastLogin now id db)
  | step_link now i : account_step db (LinkIdentity now i db).2
  | step_unlink u p : account_step db (UnlinkIdentity u p db).2
  | step_create_org now name slug u : account_step db (create_org_tx lower now name slug u db).2
  | step_update_org id o : account_step db (UpdateOrganization lower id o db).2
  | step_set_plan id plan : account_step db (a_SetOrganizationPlan id plan db).2
  | step_soft_delete now id : account_step db (SoftDeleteOrganization now id db)
  | step_member m' : mdb_step lower (view db) m' -> account_step db (set_members m' db).

Lemma owned_kept db db' :
  a_memberships db' = a_memberships db ->
  (forall id o, a_orgs db' !! id = Some o -> ao_DeletedAt o = None -> exists o', a_orgs db !! id = Some o' /\ ao_DeletedAt o' = None) ->
  owned db -> owned db'.
Proof.
  intros Hm Ho H id o Hi Hd. destruct (Ho id o Hi Hd) as (o' & Hi' & Hd'). destruct (H id o' Hi' Hd') as (k & m & Hk & ?).
  exists k, m. simpl in *. by rewrite Hm.
Qed.

Lemma owned_orgs db db' : a_memberships db' = a_memberships db -> a_orgs db' = a_orgs db -> owned db -> owned db'.
Proof. intros Hm Ho. apply owned_kept; [done|]. rewrite Ho. eauto. Qed.

Lemma UpdateOrganization_inv id o db : awf db -> owned db -> awf (UpdateOrganization lower id o db).2 /\ owned (UpdateOrganization lower id o db).2.
Proof.
  intros Hwf Ho. unfold UpdateOrganization. destruct (a_orgs db !! id) as [old|] eqn:E; [|done].
  destruct (_ && _) eqn:Ec; [done|]. simpl. split.
  - eapply awf_write_org; [done|done|]. unfold slug_key at 1. simpl. case_bool_decide as Hd; [|done].
    intros x j w [= <-] Hne Hj Hw. simpl in Ec. apply bool_decide_eq_false in Ec.
    apply Ec, find_row_is_Some. exists j, w. rewrite lookup_delete_ne by done. split; [done|]. by apply has_slug_key.
  - eapply owned_kept; [..|done]; [done|]. simpl. intros i o'. rewrite lookup_insert. case_decide; [|eauto]. intros [= <-] Hd. subst. eauto.
Qed.

Lemma a_SetOrganizationPlan_inv id plan db : awf db -> owned db -> awf (a_SetOrganizationPlan id plan db).2 /\ owned (a_SetOrganizationPlan id plan db).2.
Proof.
  intros Hwf Ho. unfold a_SetOrganizationPlan. destruct (a_orgs db !! id) as [old|] eqn:E; [|done].
  destruct (ao_DeletedAt old) eqn:Ed; [done|]. simpl. split.
  - eapply awf_write_org; [done|done|]. intros x j w Hx Hne Hj Hw. apply Hne. by eapply (aw_slug _ Hwf).
  - eapply owned_kept; [..|done]; [done|]. simpl. intros i o'. rewrite lookup_insert. case_decide; [|eauto]. intros [= <-] Hd. subst. eauto.
Qed.

Lemma SoftDelete_inv now id db : awf db -> owned db -> awf (SoftDeleteOrganization now id db) /\ owned (SoftDeleteOrganization now id db).
Proof.
  intros Hwf Ho. unfold SoftDeleteOrganization. split.
  - destruct (a_orgs db !! id) as [old|] eqn:E.
    + assert (alter (with_deleted now) id (a_orgs db) = <[id := with_deleted now old]> (a_orgs db)) as ->.
      { apply map_eq. intros k. rewrite lookup_alter, lookup_insert. case_decide; [|done]. subst. by rewrite E. }
      eapply awf_write_org; [done|done|]. intros x j w Hx. unfold slug_key in Hx at 1. simpl in Hx. destruct (ao_DeletedAt old); discriminate.
    + assert (alter (with_deleted now) id (a_orgs db) = a_orgs db) as ->; [|by destruct db].
      apply map_eq. intros k. rewrite lookup_alter. case_decide; [|done]. subst. by rewrite E.
  - eapply owned_kept; [..|done]; [done|]. simpl. intros i o'. rewrite lookup_alter. case_decide; [|eauto]. subst.
    destruct (a_orgs db !! i) as [o|]; simpl; [|done]. intros [= <-]. simpl. destruct (ao_DeletedAt o) eqn:Ed; [done|]. eauto.
Qed.

Lemma first_sign_in_inv now u idn name slug db :
  awf db -> owned db -> let db' := (CreateUserWithPersonalOrg lower now u idn name slug db).2 in awf db' /\ owned db'.
Proof.
  intros Hwf Ho. pose proof (first_sign_in_cases now u idn name slug db Hwf) as Hc.
  destruct (CreateUserWithPersonalOrg _ _ _ _ _ _ _) as [[fs|e] db']; destruct Hc as [Hs Hc]; simpl.
  - destruct Hc as (db2 & -> & Hwf2 & (Tu & Tid & To & Tm & Ti) & So & Sm & He & Hslug & _). simpl in *.
    apply awf_with_owned_org; [done| |by rewrite <- To|rewrite <- Tu, lookup_insert_eq; eauto].
    eapply owned_orgs; [by symmetry|by symmetry|done].
  - split; [by eapply awf_same|by eapply owned_same].
Qed.

Lemma email_key_profile n a l t u : email_key (with_profile n a l t u) = email_key u.
Proof. done. Qed.

Lemma account_step_inv db db' : account_step db db' -> awf db -> owned db -> awf db' /\ owned db'.
Proof.
  intros Hs Hwf Ho. destruct Hs as [now u idn name slug|u|id u|now id|now i|u p|now name slug u|id o|id plan|now id|m' Hm].
  - by apply first_sign_in_inv.
  - split; [by apply awf_insert_user|]. eapply owned_orgs; [..|done]; unfold CreateUser, insert_user; by case_bool_decide.
  - split; [by apply awf_alter_user|]. by eapply owned_orgs; [..|done].
  - split; [by apply awf_alter_user|]. by eapply owned_orgs; [..|done].
  - split; [by apply awf_insert_identity|]. eapply owned_orgs; [..|done]; unfold LinkIdentity, insert_identity; by repeat case_match.
  - split; [by apply awf_unlink|]. by eapply owned_orgs; [..|done].
  - by apply awf_create_org_tx.
  - by apply UpdateOrganization_inv.
  - by apply a_SetOrganizationPlan_inv.
  - by apply SoftDelete_inv.
  - split; [by apply awf_members|]. intros id o Hi Hd. simpl in Hi.
    destruct (step_preserves _ _ _ Hm (aw_members _ Hwf)) as (_ & _ & Hown).
    assert (has_owner id m') as (k & x & Hk & Hx).
    { apply Hown; [|by eapply Ho]. exists (org_row o). simpl. rewrite lookup_fmap, Hi. split; [done|]. simpl. rewrite Hd.
      apply bool_decide_eq_false_2. by intros [? [=]]. }
    by exists k, x.
Qed.

Definition empty_adb : ADB := mkADB ∅ ∅ ∅ ∅ ∅ 1 1 1 1 1.

Lemma empty_adb_inv : awf empty_adb /\ owned empty_adb.
Proof.
  assert (mwf lower (view empty_adb)) as Hm by (split; simpl; intros *; by rewrite lookup_empty).
  split; [|intros id o; simpl; by rewrite lookup_empty].
  split; simpl; try apply unique_empty; try done; intros k v; by rewrite lookup_empty.
Qed.

Lemma account_steps_inv db db' : rtc account_step db db' -> awf db -> owned db -> awf db' /\ owned db'.
Proof. induction 1 as [|db1 db2 db3 Hs _ IH]; [done|]. intros Hwf Ho. destruct (account_step_inv _ _ Hs Hwf Ho). by apply IH. Qed.
End invariant.

(** ** Creating an org *)

Section create_org.
Context (lower ToLower : string -> string).
Implicit Types (db : ADB).

Definition slug_free (slug : string) (db : ADB) : bool :=
  match find_row (has_slug lower slug) (a_orgs db) with None => true | Some _ => false end.

(** The slugs an attempt may use, in their order. *)
Definition tried (name slug : string) (draw : nat -> string) : list string :=
  if String.eqb slug "" then (fun i => deriveSlug ToLower name (draw i)) <$> seq 0 5 else [slug].

(** What became of the request: the first free slug decides. *)
Definition org_outcome (now : Time) (name : string) (u : Z) (slugs : list string) (db : ADB) (r : result aError (Z * AOrg * Role)) (db' : ADB) : Prop :=
  seqs_le db db' /\
  match find (fun s => slug_free s db) slugs with
  | None => r = Err ErrSlugTaken /\ same_tables db db'
  | Some s =>
      if bool_decide (is_Some (a_users db !! u)) then
        exists id mid, let o := mkAOrg name s "tier1" "en" "UTC" now None in
        r = Ok (id, o, RoleOwner) /\ a_orgs db !! id = None /\ a_memberships db !! mid = None /\
        a_users db' = a_users db /\ a_identities db' = a_identities db /\ a_invitations db' = a_invitations db /\
        a_orgs db' = <[id := o]> (a_orgs db) /\
        a_memberships db' = <[mid := mkMembership mid id u RoleOwner]> (a_memberships db)
      else r = Err AForeignKey /\ same_tables db db'
  end.

Lemma same_tables_trans db1 db2 db3 : same_tables db1 db2 -> same_tables db2 db3 -> same_tables db1 db3.
Proof. unfold same_tables. intros (-> & -> & -> & -> & ->). done. Qed.

(** After an attempt that met a taken slug, the rest of the slugs decide. *)
Lemma org_outcome_later now name u s slugs db db1 r db' :
  slug_free s db = false -> same_tables db db1 -> seqs_le db db1 ->
  org_outcome now name u slugs db1 r db' -> org_outcome now name u (s :: slugs) db r db'.
Proof.
  intros Hs Ht Hq [Hq' Ho]. split; [unfold seqs_le in *; lia|]. simpl. rewrite Hs.
  assert (forall x, slug_free x db1 = slug_free x db) as Hf by (intros x; unfold slug_free; by destruct Ht as (_ & _ & -> & _)).
  assert (find (fun x => slug_free x db1) slugs = find (fun x => slug_free x db) slugs) as <-.
  { clear -Hf. induction slugs as [|x l IH]; [done|]. simpl. by rewrite Hf, IH. }
  destruct (find _ slugs); [|destruct Ho as [? ?]; split; [done|by eapply same_tables_trans]].
  destruct Ht as (Tu & Ti & To & Tm & Tv). rewrite <- Tu. case_bool_decide.
  - destruct Ho as (id & mid & Ho). exists id, mid. cbv zeta in *. by rewrite Ti, To, Tm, Tv in Ho.
  - destruct Ho as [-> Ho]. split; [done|]. by eapply same_tables_trans; [split_and!|].
Qed.

(** One turn within the bound: it ends on a free slug; on a taken one it ends for an explicit slug
    and goes on with the tables untouched otherwise. *)
Lemma try_turn_cases now name explicit u draw a s0 db rest :
  awf lower db -> a < maxTries ->
  if slug_free s0 db then
    exists r db', try_turn lower ToLower now name explicit u draw (mkTryState a s0 db) = inl (r, db') /\ org_outcome now name u (s0 :: rest) db r db'
  else
    exists db1, same_tables db db1 /\ seqs_le db db1 /\
      try_turn lower ToLower now name explicit u draw (mkTryState a s0 db) =
        if explicit then inl (Err ErrSlugTaken, db1) else inr (mkTryState (a + 1) (deriveSlug ToLower name (draw (S (Z.to_nat a)))) db1).
Proof.
  intros Hwf Ha. apply Z.ltb_lt in Ha. unfold slug_free, try_turn. simpl. rewrite Ha.
  pose proof (create_org_tx_cases lower now name s0 u db Hwf) as Hc. cbv zeta in Hc.
  destruct (create_org_tx _ _ _ _ _ _) as [r1 db1]. destruct Hc as [Hq Hc].
  destruct (find_row (has_slug lower s0) (a_orgs db)) as [row|] eqn:Ef.
  { destruct Hc as [-> Ht]. exists db1. simpl. by destruct explicit. }
  unfold org_outcome. simpl. unfold slug_free. rewrite Ef. case_bool_decide.
  - destruct Hc as [-> ->]. do 2 eexists. split; [done|]. split; [done|]. exists (seq_orgs db), (seq_mem db). split_and!; try done.
    + by apply keys_below_fresh, aw_orgs with lower.
    + apply keys_below_fresh. intros k m Hk. by apply (mwf_mem_key _ _ (aw_members _ _ Hwf) k m).
  - destruct Hc as [-> Ht]. by do 2 eexists.
Qed.

Lemma try_loop_spec n fuel now name (explicit : bool) u draw s0 db a rest :
  awf lower db -> a = maxTries - Z.of_nat (S n) -> (S n < fuel)%nat ->
  rest = (if explicit then [] else (fun i => deriveSlug ToLower name (draw i)) <$> seq (S (Z.to_nat a)) n) -> 0 <= a ->
  exists r db', try_loop lower ToLower fuel now name explicit u draw (mkTryState a s0 db) = Some (r, db') /\
    org_outcome now name u (s0 :: rest) db r db'.
Proof.
  revert fuel a s0 db rest. induction n as [|n IH]; intros fuel a s0 db rest Hwf Ha Hfuel Hrest Ha0; (destruct fuel as [|fuel]; [lia|]);
    pose proof (try_turn_cases now name explicit u draw a s0 db rest Hwf ltac:(lia)) as Ht; cbn [try_loop];
    (destruct (slug_free s0 db) eqn:Ef; [destruct Ht as (r & db' & -> & Ho); eauto|]); destruct Ht as (db1 & Hs & Hq & ->);
    (assert (org_outcome now name u [s0] db (Err ErrSlugTaken) db1) as Hend by (split; [done|]; simpl; by rewrite Ef)).
  - destruct explicit; subst rest; [by eauto|]. destruct fuel as [|fuel]; [lia|]. cbn [try_loop]. unfold try_turn. simpl.
    assert ((a + 1 <? maxTries) = false) as -> by (apply Z.ltb_ge; lia). by eauto.
  - destruct explicit; subst rest; [by eauto|].
    destruct (IH fuel (a + 1) (deriveSlug ToLower name (draw (S (Z.to_nat a)))) db1
      ((fun i => deriveSlug ToLower name (draw i)) <$> seq (S (Z.to_nat (a + 1))) n)) as (r & db' & -> & Ho);
      [by eapply awf_same|lia|lia|done|lia|].
    exists r, db'. split; [done|]. replace (Z.to_nat (a + 1)) with (S (Z.to_nat a)) in Ho by lia. by eapply org_outcome_later.
Qed.

(** A loop that ends does not use the rest of its fuel. *)
Lemma try_loop_more n fuel now name explicit u draw s r :
  try_loop lower ToLower n now name explicit u draw s = Some r -> (n <= fuel)%nat ->
  try_loop lower ToLower fuel now name explicit u draw s = Some r.
Proof.
  revert fuel s. induction n as [|n IH]; intros [|fuel] s; simpl; try done; [lia|].
  destruct (try_turn _ _ _ _ _ _ _ _); [done|]. intros Hl Hf. apply IH; [done|lia].
Qed.

Lemma try_loop_steps fuel now name explicit u draw s r db' :
  try_loop lower ToLower fuel now name explicit u draw s = Some (r, db') -> rtc (account_step lower) (ts_db s) db'.
Proof.
  revert s. induction fuel as [|fuel IH]; intros s; simpl; [done|]. unfold try_turn.
  destruct (ts_attempt s <? maxTries); [|by intros [= _ <-]].
  pose proof (step_create_org lower (ts_db s) now name (ts_slug s) u) as Hs.
  destruct (create_org_tx _ _ _ _ _ _) as [[[id o]|e] db1]; simpl in Hs; [intros [= _ <-]; by apply rtc_once|].
  destruct (isUniqueViolation e); [|intros [= _ <-]; by apply rtc_once].
  destruct explicit; [intros [= _ <-]; by apply rtc_once|]. intros H%IH. by eapply rtc_l.
Qed.
End create_org.

(** ** Unlinking *)

Lemma ListIdentities_elem u db i :
  i ∈ ListIdentitiesForUser u db <-> exists k, a_identities db !! k = Some i /\ ui_UserID i = u.
Proof.
  unfold ListIdentitiesForUser. rewrite sort_by_perm, list_elem_of_fmap. split.
  - intros ([k j] & -> & [Hk Hu]%rows_where_elem). exists k. split; [done|]. by apply Z.eqb_eq.
  - intros (k & Hk & <-). exists (k, i). split; [done|]. apply rows_where_elem. split; [done|]. apply Z.eqb_refl.
Qed.

Lemma ListIdentities_NoDup lower u db : awf lower db -> NoDup (ListIdentitiesForUser u db).
Proof.
  intros Hwf. unfold ListIdentitiesForUser. rewrite sort_by_perm. apply (NoDup_fmap_1 ui_ID). rewrite <- list_fmap_compose.
  rewrite (list_fmap_ext _ fst); [apply rows_where_keys|].
  intros i [k x] Hi%list_elem_of_lookup_2. apply rows_where_elem in Hi as [Hk _]. simpl. by apply (aw_ident_id _ _ Hwf).
Qed.

(** Of two identities one is of another provider. *)
Lemma ListIdentities_two lower db u provider :
  awf lower db -> 1 < Z.of_nat (length (ListIdentitiesForUser u db)) ->
  exists y, y ∈ ListIdentitiesForUser u db /\ ui_Provider y <> provider.
Proof.
  intros Hwf Hl. pose proof (ListIdentities_NoDup lower u db Hwf) as Hnd.
  pose proof (ListIdentities_elem u db) as He. destruct (ListIdentitiesForUser u db) as [|x [|y l]]; simpl in Hl; [lia..|].
  destruct (decide (ui_Provider x = provider)) as [Hx|Hx]; [|exists x; set_solver].
  exists y. split; [set_solver|]. intros Hy. apply NoDup_cons in Hnd as [Hn _]. apply Hn.
  assert (x ∈ x :: y :: l) as (i & Hi & Ui)%He by set_solver. assert (y ∈ x :: y :: l) as (j & Hj & Uj)%He by set_solver.
  assert (i = j) as ->; [|simplify_eq; set_solver].
  eapply (aw_user_provider _ _ Hwf i j x y _ Hi Hj); unfold user_provider_key; [done|congruence].
Qed.

(** ** Properties *)

(** C21: the account tables stay sound, as long as transactions run one at a time.  Whatever
    transactions the program runs from an empty database, one after the other, in whatever order: two users that are not deleted never share an e-mail address, case
    aside; a provider's account belongs to one identity, a user has one identity per provider, and
    every identity belongs to an existing user; two orgs that are not deleted never share a slug;
    and every org that is not deleted has an owner, who is an existing user.  The last clause can
    fail when two transactions overlap under READ COMMITTED
    ([last_owner_trigger_race] of the members). *)
Theorem accounts_stay_sound lower db :
  rtc (account_step lower) empty_adb db ->
  (forall i j u v, a_users db !! i = Some u -> a_users db !! j = Some v -> au_Status u <> UserDeleted -> au_Status v <> UserDeleted ->
     lower (au_Email u) = lower (au_Email v) -> i = j) /\
  (forall i j x y, a_identities db !! i = Some x -> a_identities db !! j = Some y -> ui_Provider x = ui_Provider y ->
     (ui_ProviderUserID x = ui_ProviderUserID y \/ ui_UserID x = ui_UserID y) -> i = j) /\
  (forall i x, a_identities db !! i = Some x -> is_Some (a_users db !! ui_UserID x)) /\
  (forall i j o p, a_orgs db !! i = Some o -> a_orgs db !! j = Some p -> ao_DeletedAt o = None -> ao_DeletedAt p = None ->
     lower (ao_Slug o) = lower (ao_Slug p) -> i = j) /\
  (forall i o, a_orgs db !! i = Some o -> ao_DeletedAt o = None ->
     exists k m, a_memberships db !! k = Some m /\ mb_OrgID m = i /\ mb_Role m = RoleOwner /\ is_Some (a_users db !! mb_UserID m)).
Proof.
  intros Hr. destruct (empty_adb_inv lower) as [W0 O0]. destruct (account_steps_inv lower _ _ Hr W0 O0) as [Hwf Ho]. split_and!.
  - intros i j u v Hi Hj Su Sv He. eapply (aw_email _ _ Hwf i j u v (lower (au_Email u)) Hi Hj); unfold email_key; rewrite bool_decide_eq_false_2; congruence.
  - intros i j x y Hi Hj Hp [Hs|Hu].
    + eapply (aw_subject _ _ Hwf i j x y _ Hi Hj); unfold subject_key; [done|congruence].
    + eapply (aw_user_provider _ _ Hwf i j x y _ Hi Hj); unfold user_provider_key; [done|congruence].
  - intros i x Hi. by destruct (aw_ident_id _ _ Hwf i x Hi).
  - intros i j o p Hi Hj Do Dp Hs. eapply (aw_slug _ _ Hwf i j o p (lower (ao_Slug o)) Hi Hj); unfold slug_key; rewrite bool_decide_eq_true_2; congruence.
  - intros i o Hi Hd. destruct (Ho i o Hi Hd) as (k & m & Hk & Hm). exists k, m. unfold is_owner in Hm. reflect_tests.
    destruct (aw_refs _ _ Hwf k m Hk). by split_and!.
Qed.

(** C35: creating an org ends.  The retry loop of CreateOrgWithOwner leaves after at most five
    attempts, whatever the random source yields; more turns change nothing.  The first slug it
    tried that no live org uses (the given one, or one of the five derived ones) decides: if the
    caller exists it is the new org's owner, by one new row in each of the two tables and no other
    change; if every slug is taken, or the caller does not exist, no table has changed. *)
Theorem create_org_terminates lower ToLower fuel now name slug u draw db :
  awf lower db -> (6 <= fuel)%nat ->
  exists r db', CreateOrgWithOwner lower ToLower fuel now name slug u draw db = Some (r, db') /\
    CreateOrgWithOwner lower ToLower 6 now name slug u draw db = Some (r, db') /\
    org_outcome lower now name u (tried ToLower name slug draw) db r db'.
Proof.
  intros Hwf Hf.
  assert (forall f, (6 <= f)%nat -> exists r db', CreateOrgWithOwner lower ToLower f now name slug u draw db = Some (r, db') /\
    org_outcome lower now name u (tried ToLower name slug draw) db r db') as Hall.
  { intros f Hf'. unfold CreateOrgWithOwner, tried. destruct (String.eqb slug "") eqn:Es.
    - apply (try_loop_spec lower ToLower 4 f now name false u draw _ db 0); [done|done|lia|done|lia].
    - apply (try_loop_spec lower ToLower 4 f now name true u draw _ db 0); [done|done|lia|done|lia]. }
  destruct (Hall 6%nat ltac:(lia)) as (r & db' & E & Ho). exists r, db'. split; [|done].
  unfold CreateOrgWithOwner in *. by apply (try_loop_more lower ToLower 6).
Qed.

(** Unlinking keeps a way to sign in.  When the handler answers 204 the identity of that
    provider is gone, every other identity of every user is still there and the user has at least
    one left; any other answer changes nothing, and 409 means it was the only one. *)
Theorem unlink_keeps_a_sign_in lower db u keyID orgID role provider r db' :
  awf lower db -> UnlinkMyIdentity (Some (mkPrincipal ActorHuman u keyID orgID role)) provider db = (r, db') ->
  match r with
  | APlain R204 =>
      (exists i, i ∈ ListIdentitiesForUser u db') /\
      (forall k i, a_identities db' !! k = Some i <-> a_identities db !! k = Some i /\ ~ (ui_UserID i = u /\ ui_Provider i = provider))
  | APlain (R409 _) => db' = db /\ exists i, ListIdentitiesForUser u db = [i] /\ ui_Provider i = provider
  | _ => db' = db
  end.
Proof.
  intros Hwf. unfold UnlinkMyIdentity, signed_in, unlink_decision. simpl.
  set (l := ListIdentitiesForUser u db). destruct (existsb _ l) eqn:Ex; simpl; [|by intros [= <- <-]].
  apply existsb_exists in Ex as (x & Hx & Hp). rewrite <- list_elem_of_In in Hx. apply String.eqb_eq in Hp.
  destruct (Z.leb_spec (Z.of_nat (length l)) 1) as [Hl|Hl]; intros [= <- <-].
  { split; [done|]. destruct l as [|y [|]]; simpl in Hl; [by apply not_elem_of_nil in Hx| |lia].
    exists y. by apply list_elem_of_singleton in Hx as ->. }
  assert (forall k i, filter (fun kv => same_user_provider u provider kv.2 = false) (a_identities db) !! k = Some i <->
    a_identities db !! k = Some i /\ ~ (ui_UserID i = u /\ ui_Provider i = provider)) as Hf.
  { intros k i. rewrite map_lookup_filter_Some. simpl. unfold same_user_provider.
    rewrite andb_false_iff, Z.eqb_neq, String.eqb_neq. destruct (decide (ui_UserID i = u)); naive_solver. }
  split; [|done].
  assert (exists y, y ∈ l /\ ui_Provider y <> provider) as (y & Hy & Hne).
  { by apply (ListIdentities_two lower). }
  apply ListIdentities_elem in Hy as (k & Hk & Hu). exists y. apply ListIdentities_elem. exists k. simpl. rewrite Hf. naive_solver.
Qed.

(** Two unlink requests of one user, each of which read the identities before the other deleted. *)
Definition concurrent_unlinks (u : Z) (p q : string) (db : ADB) : option Response * option Response * ADB :=
  let idns := ListIdentitiesForUser u db in
  let d1 := unlink_decision p idns in
  let d2 := unlink_decision q idns in
  let db1 := match d1 with None => (UnlinkIdentity u p db).2 | Some _ => db end in
  let db2 := match d2 with None => (UnlinkIdentity u q db1).2 | Some _ => db1 end in
  (d1, d2, db2).

(** The check and the delete are separate statements: two requests for the two different providers
    of a user can both pass and leave the user without an identity. *)
Lemma concurrent_unlinks_leave_none lower db u x y :
  awf lower db -> ListIdentitiesForUser u db = [x; y] ->
  concurrent_unlinks u (ui_Provider x) (ui_Provider y) db =
    (None, None, (UnlinkIdentity u (ui_Provider y) (UnlinkIdentity u (ui_Provider x) db).2).2) /\
  forall i, i ∉ ListIdentitiesForUser u (concurrent_unlinks u (ui_Provider x) (ui_Provider y) db).2.
Proof.
  intros Hwf Hl.
  assert (concurrent_unlinks u (ui_Provider x) (ui_Provider y) db =
    (None, None, (UnlinkIdentity u (ui_Provider y) (UnlinkIdentity u (ui_Provider x) db).2).2)) as ->.
  { unfold concurrent_unlinks, unlink_decision. rewrite Hl. simpl. by rewrite !String.eqb_refl, orb_true_r. }
  split; [done|]. intros i (k & Hk & Hu)%ListIdentities_elem. simpl in Hk.
  apply map_lookup_filter_Some in Hk as [Hk Hy]. apply map_lookup_filter_Some in Hk as [Hk Hx]. simpl in *.
  assert (i ∈ [x; y]) as Hi by (rewrite <- Hl; apply ListIdentities_elem; eauto).
  unfold same_user_provider in Hx, Hy. rewrite Hu, Z.eqb_refl in Hx, Hy. simpl in *.
  apply elem_of_cons in Hi as [->| ->%list_elem_of_singleton]; by rewrite String.eqb_refl in *.
Qed.

(** Each handler is a run of the transactions above. *)
Lemma account_handlers_step lower ToLower admins p db :
  (forall body, rtc (account_step lower) db (UpdateMe ToLower admins p body db).2) /\
  (forall provider, rtc (account_step lower) db (UnlinkMyIdentity p provider db).2) /\
  (forall fuel now body draw r db', CreateOrg lower ToLower fuel now p body draw db = Some (r, db') -> rtc (account_step lower) db db').
Proof.
  split_and!.
  - intros body. unfold UpdateMe, signed_in. destruct p as [q|]; [|done]. destruct (bool_decide _); [|done].
    destruct body as [b|]; [|done]. destruct (a_GetUser _ _); [|done]. destruct (bool_decide _); [done|]. apply rtc_once, step_update_user.
  - intros provider. unfold UnlinkMyIdentity, signed_in. destruct p as [q|]; [|done]. destruct (bool_decide _); [|done].
    destruct (unlink_decision _ _); [done|]. apply rtc_once, step_unlink.
  - intros fuel now body draw r db'. unfold CreateOrg. destruct p as [q|]; [|by intros [= _ <-]].
    destruct (negb _); [by intros [= _ <-]|]. destruct body as [[name slug]|]; [|by intros [= _ <-]].
    destruct (String.eqb name ""); [by intros [= _ <-]|]. unfold CreateOrgWithOwner.
    destruct (try_loop _ _ _ _ _ _ _ _ _) as [[r1 db1]|] eqn:E; [|done]. apply try_loop_steps in E. simpl in E.
    intros Hr. assert (db' = db1) as -> by (destruct r1 as [[[] ]|[]]; congruence). done.
Qed.

(** *** Witnesses *)

Definition ex_user (e : string) : AUser := mkAUser e true "" "" "" "" UserActive None.
Definition ex_accounts : ADB :=
  (LinkIdentity 5 (mkIdentity 0 1 "github" "77" 0)
    (CreateUserWithPersonalOrg ToLowerASCII 3 (ex_user "eve@x.io") None "Eve's workspace" "eve-2"
      (CreateUserWithPersonalOrg ToLowerASCII 1 (ex_user "dev@x.io") (Some ("google", "g1")) "Dev's workspace" "dev-1" empty_adb).2).2).2.

Lemma ex_accounts_run : rtc (account_step ToLowerASCII) empty_adb ex_accounts.
Proof.
  eapply rtc_l; [apply step_first_sign_in|]. eapply rtc_l; [apply step_first_sign_in|]. apply rtc_once, step_link.
Qed.
Lemma ex_accounts_awf : awf ToLowerASCII ex_accounts.
Proof. destruct (empty_adb_inv ToLowerASCII). by apply (account_steps_inv ToLowerASCII _ _ ex_accounts_run). Qed.

Lemma accounts_stay_sound_witness :
  size (a_users ex_accounts) = 2%nat /\ size (a_identities ex_accounts) = 2%nat /\
  exists k m, a_memberships ex_accounts !! k = Some m /\ mb_OrgID m = 2 /\ mb_Role m = RoleOwner /\ is_Some (a_users ex_accounts !! mb_UserID m).
Proof.
  split; [reflexivity|]. split; [reflexivity|].
  refine (proj2 (proj2 (proj2 (proj2 (accounts_stay_sound ToLowerASCII ex_accounts ex_accounts_run)))) 2
    (mkAOrg "Eve's workspace" "eve-2" "tier1" "en" "UTC" 3 None) _ _); reflexivity.
Defined.

(** The derived slugs of the first three attempts are taken. *)
Definition ex_draw (i : nat) : string := match i with 0%nat | 1%nat | 2%nat => "1" | _ => "9" end.

Lemma create_org_terminates_witness :
  exists r db', CreateOrgWithOwner ToLowerASCII ToLowerASCII 6 9 "Dev" "" 2 ex_draw ex_accounts = Some (r, db') /\
    CreateOrgWithOwner ToLowerASCII ToLowerASCII 6 9 "Dev" "" 2 ex_draw ex_accounts = Some (r, db') /\
    org_outcome ToLowerASCII 9 "Dev" 2 (tried ToLowerASCII "Dev" "" ex_draw) ex_accounts r db'.
Proof. apply (create_org_terminates ToLowerASCII ToLowerASCII 6 9 "Dev" "" 2 ex_draw ex_accounts ex_accounts_awf). lia. Defined.

Lemma unlink_keeps_a_sign_in_witness :
  (exists i, i ∈ ListIdentitiesForUser 1 (UnlinkIdentity 1 "google" ex_accounts).2) /\
  (forall k i, a_identities (UnlinkIdentity 1 "google" ex_accounts).2 !! k = Some i <->
    a_identities ex_accounts !! k = Some i /\ ~ (ui_UserID i = 1 /\ ui_Provider i = "google")).
Proof.
  apply (unlink_keeps_a_sign_in ToLowerASCII ex_accounts 1 0 0 None "google" (APlain R204)); [apply ex_accounts_awf|].
  vm_compute. reflexivity.
Defined.

Example ex_create_org_slug :
  (fun r => (fun x => (x.1.1.1, ao_Slug x.1.1.2)) <$> match r with (Ok x, d) => Some (x, d) | _ => None end) <$>
    CreateOrgWithOwner ToLowerASCII ToLowerASCII 6 9 "Dev" "" 2 ex_draw ex_accounts = Some (Some (6, "dev-9")).
Proof. vm_compute. reflexivity. Qed.
