(* ===== verification/Login.v ===== *)
(** * Login: how a browser becomes a session
    (src/internal/authn/login.go, src/internal/authn/magiclink.go, src/internal/maglink/maglink.go,
    src/internal/api/maglink.go, src/internal/api/devlogin.go, the auth handlers of
    src/internal/api/router.go and the magic-link mail of src/internal/notify/emailintent.go)

    The social login with its one-time flow record, the magic link with its one-time token, the dev
    login, and the resolution of each to an account of [Accounts]; then the session of [Refresh] and
    the redirect.  The providers' HTTP exchange, the JSON of the stored records, the hash, the random
    source and the access token are parameters. *)

From S2P Require Import Prelude Domain GoStrings Entitlements CheckState Authz Members MonitorApi Auth Accounts Refresh.
Open Scope Z_scope.

(** ** Text *)

(** The one prefix check of a redirect target: a single slash first. *)
Definition safeReturnTo (returnTo : string) : string :=
  match returnTo with
  | EmptyString => "/"
  | String a _ =>
      if negb (Ascii.eqb a "/") then "/"
      else if GoStrings.HasPrefix returnTo "//" || GoStrings.HasPrefix returnTo (String "/" (String "\" "")) then "/"
      else returnTo
  end.

(** strings.IndexByte *)
Fixpoint IndexByte (c : ascii) (s : string) : option nat :=
  match s with
  | EmptyString => None
  | String a r => if Ascii.eqb a c then Some 0%nat else S <$> IndexByte c r
  end.

Definition looksLikeEmail (s : string) : bool :=
  match IndexByte "@" s with
  | None => false
  | Some at_ =>
      if (at_ =? 0)%nat || (at_ =? String.length s - 1)%nat then false
      else
        let domainPart := String.substring (S at_) (String.length s - S at_) s in
        match IndexByte "@" domainPart with
        | Some _ => false
        | None =>
            match IndexByte "." domainPart with
            | None => false
            | Some dot => (0 <? dot)%nat && (dot <? String.length domainPart - 1)%nat
            end
        end
  end.

(** strings.Split(email, "@")[0] *)
Definition nameFromEmail (email : string) : string := default "" (head (Split "@" email)).

Definition first6 (s : string) : string := String.substring 0 (Nat.min 6 (String.length s)) s.

(** ** The stored records *)

Inductive FlowKind := FlowLogin | FlowLink.
#[export] Instance FlowKind_eq_dec : EqDecision FlowKind.
Proof. solve_decision. Defined.

Record flowState := mkFlow {
  fl_Provider : string; fl_Verifier : string; fl_Nonce : string; fl_Flow : FlowKind; fl_ReturnTo : string; fl_LinkUserID : Z;
}.
Definition flowTTL : Duration := 10 * Minute.
Definition flowKey (state : string) : string := "oauth_flow:" +:+ state.

Record Profile := mkProfile { pf_Provider : string; pf_ProviderUserID : string; pf_Email : string; pf_Name : string; pf_AvatarURL : string }.

Record CallbackResult := mkCallback { cb_UserID : Z; cb_Email : string; cb_IsNew : bool; cb_OrgID : Z; cb_ReturnTo : string }.

Inductive loginError :=
  | ErrStateMismatch | ErrLinkNeedsSession | ErrLinkedElsewhere | ErrUnknownProvider | ErrExchange | ErrToken | ErrFlowStore
  | ErrAccounts (e : aError) | ErrMagicLinkInvalid.

(** The magic-link record. *)
Record linkRecord := mkLink { ml_Email : string; ml_CreatedAt : Time }.
Definition linkTTL : Duration := 15 * Minute.
Definition linkKey (tokenHash : string) : string := "magiclink:" +:+ tokenHash.

(** The store of the magic-link records: SET with expiry and the atomic GETDEL. *)
Class LinkStore (C : Type) := {
  ls_SetCache : Time -> string -> string -> Duration -> C -> result kvError unit * C;
  ls_GetDelCache : Time -> string -> C -> result kvError (option string) * C;
}.
Definition GetDelCache (now : Time) (k : string) (r : Redis) : result kvError (option string) * Redis :=
  match live_at now k r with Some (v, _) => (Ok (Some v), delete k r) | None => (Ok None, r) end.
#[export] Instance redis_links : LinkStore Redis := {| ls_SetCache := SetCache; ls_GetDelCache := GetDelCache |}.

Section login.
Context (lower ToLower : string -> string).

(** ** Resolving a profile to a user (login.go) *)

(** [suffix] is the random text, empty when the source fails. *)
Definition personalOrgNaming (p : Profile) (suffix : string) : string * string :=
  let base := if String.eqb (pf_Name p) "" then nameFromEmail (pf_Email p) else pf_Name p in
  (base +:+ "'s workspace", slugify ToLower base +:+ "-" +:+ ToLower (first6 suffix)).

Definition resolveLogin (now : Time) (p : Profile) (returnTo suffix : string) (db : ADB) : result loginError CallbackResult * ADB :=
  match GetIdentity (pf_Provider p) (pf_ProviderUserID p) db with
  | Ok idn => (Ok (mkCallback (ui_UserID idn) (pf_Email p) false 0 returnTo), SetLastLogin now (ui_UserID idn) db)
  | Err ANoRows =>
      match GetUserByEmail lower (pf_Email p) db with
      | Ok (id, _) =>
          match LinkIdentity now (mkIdentity 0 id (pf_Provider p) (pf_ProviderUserID p) 0) db with
          | (Err e, db') => (Err (ErrAccounts e), db')
          | (Ok _, db') => (Ok (mkCallback id (pf_Email p) false 0 returnTo), SetLastLogin now id db')
          end
      | Err ANoRows =>
          let u := mkAUser (pf_Email p) true (pf_Name p) (pf_AvatarURL p) "" "" UserActive None in
          let '(name, slug) := personalOrgNaming p suffix in
          match CreateUserWithPersonalOrg lower now u (Some (pf_Provider p, pf_ProviderUserID p)) name slug db with
          | (Err e, db') => (Err (ErrAccounts e), db')
          | (Ok fs, db') => (Ok (mkCallback (fs_UserID fs) (pf_Email p) true (fs_OrgID fs) returnTo), db')
          end
      | Err e => (Err (ErrAccounts e), db)
      end
  | Err e => (Err (ErrAccounts e), db)
  end.

Definition resolveLink (now : Time) (linkUserID : Z) (p : Profile) (returnTo : string) (db : ADB) : result loginError CallbackResult * ADB :=
  if linkUserID =? 0 then (Err ErrLinkNeedsSession, db)
  else
    match GetIdentity (pf_Provider p) (pf_ProviderUserID p) db with
    | Ok existing =>
        if negb (ui_UserID existing =? linkUserID) then (Err ErrLinkedElsewhere, db)
        else (Ok (mkCallback linkUserID (pf_Email p) false 0 returnTo), db)
    | Err ANoRows =>
        match LinkIdentity now (mkIdentity 0 linkUserID (pf_Provider p) (pf_ProviderUserID p) 0) db with
        | (Err e, db') => (Err (ErrAccounts e), db')
        | (Ok _, db') => (Ok (mkCallback linkUserID (pf_Email p) false 0 returnTo), db')
        end
    | Err e => (Err (ErrAccounts e), db)
    end.

(** ** The flow (login.go) *)

(** The registered providers: the authorize URL, and the exchange of a code for a verified profile. *)
Context (known : string -> bool) (AuthCodeURL : string -> string -> string -> string -> string)
  (Exchange : string -> string -> string -> string -> option Profile) (pkceChallenge : string -> string)
  (marshal_flow : flowState -> string) (unmarshal_flow : string -> option flowState).
Context {C : Type} `{!KeyCache C}.

(** [tok] are the three draws of the random source: state, nonce and verifier. *)
Definition StartLogin (now : Time) (tok : option string * option string * option string) (provider : string) (flow : FlowKind)
    (returnTo : string) (linkUserID : Z) (c : C) : result loginError (string * string) * C :=
  if negb (known provider) then (Err ErrUnknownProvider, c)
  else
    match tok with
    | (Some state, Some nonce, Some verifier) =>
        let rec_ := mkFlow provider verifier nonce flow (safeReturnTo returnTo) linkUserID in
        match kc_SetCache now (flowKey state) (marshal_flow rec_) flowTTL c with
        | (Err _, c') => (Err ErrFlowStore, c')
        | (Ok _, c') => (Ok (state, AuthCodeURL provider state nonce (pkceChallenge verifier)), c')
        end
    | _ => (Err ErrToken, c)
    end.

Definition HandleCallback (now : Time) (cookieState queryState code suffix : string) (db : ADB) (c : C) :
    result loginError CallbackResult * ADB * C :=
  if String.eqb queryState "" || negb (String.eqb cookieState queryState) then (Err ErrStateMismatch, db, c)
  else
    match kc_GetCache now (flowKey queryState) c with
    | (Err _, c1) => (Err ErrFlowStore, db, c1)
    | (Ok None, c1) => (Err ErrStateMismatch, db, c1)
    | (Ok (Some raw), c1) =>
        let c2 := (kc_DelCache now (flowKey queryState) c1).2 in
        match unmarshal_flow raw with
        | None => (Err ErrStateMismatch, db, c2)
        | Some rec_ =>
            if negb (known (fl_Provider rec_)) then (Err ErrUnknownProvider, db, c2)
            else
              match Exchange (fl_Provider rec_) code (fl_Verifier rec_) (fl_Nonce rec_) with
              | None => (Err ErrExchange, db, c2)
              | Some profile =>
                  let '(r, db') := match fl_Flow rec_ with
                                   | FlowLink => resolveLink now (fl_LinkUserID rec_) profile (fl_ReturnTo rec_) db
                                   | FlowLogin => resolveLogin now profile (fl_ReturnTo rec_) suffix db
                                   end in
                  (r, db', c2)
              end
        end
    end.
End login.

(** ** The magic link (maglink.go, magiclink.go) *)

Section magic.
Context (lower ToLower HashToken : string -> string) (marshal_link : linkRecord -> string) (unmarshal_link : string -> option linkRecord).
Context {C : Type} `{!LinkStore C}.

(** [token] is the draw of the random source. *)
Definition Mint (now : Time) (token : option string) (email : string) (c : C) : result loginError string * C :=
  match token with
  | None => (Err ErrToken, c)
  | Some raw =>
      match ls_SetCache now (linkKey (HashToken raw)) (marshal_link (mkLink email now)) linkTTL c with
      | (Err _, c') => (Err ErrFlowStore, c')
      | (Ok _, c') => (Ok raw, c')
      end
  end.

Definition Consume (now : Time) (rawToken : string) (c : C) : result loginError string * C :=
  if String.eqb rawToken "" then (Err ErrMagicLinkInvalid, c)
  else
    match ls_GetDelCache now (linkKey (HashToken rawToken)) c with
    | (Err _, c') => (Err ErrFlowStore, c')
    | (Ok None, c') => (Err ErrMagicLinkInvalid, c')
    | (Ok (Some raw), c') =>
        match unmarshal_link raw with
        | None => (Err ErrMagicLinkInvalid, c')
        | Some r => (Ok (ml_Email r), c')
        end
    end.

Definition normalizeEmail (email : string) : string := ToLower (TrimSpace email).
Definition Start (now : Time) (token : option string) (email : string) (c : C) : result loginError string * C :=
  Mint now token (normalizeEmail email) c.

Definition magicLinkOrgNaming (email suffix : string) : string * string :=
  let base := nameFromEmail email in
  (base +:+ "'s workspace", slugify ToLower base +:+ "-" +:+ ToLower (first6 suffix)).

(** The account of a proved address: the one that has it, or a new one without an identity. *)
Definition resolveEmail (now : Time) (email suffix : string) (db : ADB) : result loginError (Z * string * bool) * ADB :=
  match GetUserByEmail lower email db with
  | Ok (id, _) => (Ok (id, email, false), SetLastLogin now id db)
  | Err ANoRows =>
      let u := mkAUser email true (nameFromEmail email) "" "" "" UserActive None in
      let '(name, slug) := magicLinkOrgNaming email suffix in
      match CreateUserWithPersonalOrg lower now u None name slug db with
      | (Err e, db') => (Err (ErrAccounts e), db')
      | (Ok fs, db') => (Ok (fs_UserID fs, email, true), db')
      end
  | Err e => (Err (ErrAccounts e), db)
  end.

Definition magic_Verify (now : Time) (rawToken suffix : string) (db : ADB) (c : C) : result loginError (Z * string * bool) * ADB * C :=
  match Consume now rawToken c with
  | (Err e, c') => (Err e, db, c')
  | (Ok email, c') => let '(r, db') := resolveEmail now email suffix db in (r, db', c')
  end.

(** The notifier's side: mint, then send; an error leaves the intent for redelivery.  [Send] says
    whether the mailer took the mail with that link. *)
Definition sendMagicLink (Send : string -> string -> bool) (now : Time) (token : option string) (payload : option string) (c : C) :
    result loginError unit * C :=
  match payload with
  | None => (Ok tt, c)
  | Some email =>
      if String.eqb email "" then (Ok tt, c)
      else
        match Mint now token email c with
        | (Err e, c') => (Err e, c')
        | (Ok raw, c') => (if Send email raw then Ok tt else Err ErrExchange, c')
        end
  end.

(** ** The dev login (devlogin.go) *)

Definition devOrgNaming (name email suffix : string) : string * string :=
  let base := if String.eqb name "" then nameFromEmail email else name in
  (base +:+ "'s workspace", slugify ToLower base +:+ "-" +:+ ToLower (first6 suffix)).

Definition resolveDevUser (now : Time) (email name0 suffix : string) (db : ADB) : result loginError Z * ADB :=
  match GetUserByEmail lower email db with
  | Ok (id, _) => (Ok id, SetLastLogin now id db)
  | Err ANoRows =>
      let name := if String.eqb name0 "" then nameFromEmail email else name0 in
      let u := mkAUser email true name "" "" "" UserActive None in
      let '(orgName, orgSlug) := devOrgNaming name email suffix in
      match CreateUserWithPersonalOrg lower now u (Some ("dev", email)) orgName orgSlug db with
      | (Err e, db') => (Err (ErrAccounts e), db')
      | (Ok fs, db') => (Ok (fs_UserID fs), db')
      end
  | Err e => (Err (ErrAccounts e), db)
  end.
End magic.

(** ** The rate limit of the start handler (api/maglink.go) *)

Section limits.
Context {G : Type} `{!CheckNowGate G}.

Definition magicLinkPerEmailLimit : Z := 3.
Definition magicLinkPerEmailWindow : Duration := 15 * Minute.
Definition magicLinkPerIPLimit : Z := 10.
Definition magicLinkPerIPWindow : Duration := Hour.

Definition overLimit (now : Time) (key : string) (limit : Z) (window : Duration) (g : G) : bool * G :=
  match cg_Incr now key g with
  | (Err _, g1) => (false, g1)
  | (Ok n, g1) => (limit <? n, if n =? 1 then (cg_Expire now key window g1).2 else g1)
  end.

(** The first hop of X-Forwarded-For, or the host of the connection ([host], empty when the
    address has no port). *)
Definition clientIP (xff remoteAddr : string) (host : option string) : string :=
  if negb (String.eqb xff "") then
    match IndexByte "," xff with
    | Some i => TrimSpace (String.substring 0 i xff)
    | None => TrimSpace xff
    end
  else match host with Some h => h | None => remoteAddr end.

(** Both counters move on every request; without a client nothing is limited. *)
Definition magicLimited (now : Time) (email ip : string) (redis : option G) : bool * option G :=
  match redis with
  | None => (false, None)
  | Some g =>
      let '(emailOver, g1) := overLimit now ("ratelimit:magiclink:email:" +:+ email) magicLinkPerEmailLimit magicLinkPerEmailWindow g in
      let '(ipOver, g2) := overLimit now ("ratelimit:magiclink:ip:" +:+ ip) magicLinkPerIPLimit magicLinkPerIPWindow g1 in
      (emailOver || ipOver, Some g2)
  end.

Definition magicLinkLocale (ToLower : string -> string) (acceptLanguage : string) : string :=
  let al := ToLower (TrimSpace acceptLanguage) in
  if (2 <=? String.length al)%nat then String.substring 0 2 al else "en".
End limits.

(** ** The handlers (api/router.go, api/maglink.go, api/devlogin.go) *)

(** What a handler does to the browser's cookies. *)
Inductive CookieEffect :=
  | SetOAuthState (state : string) (ttl : Duration)
  | ClearOAuthState
  | SetSession (access refresh csrf : string) (accessExp refreshExp : Time)
  | ClearSession.

Inductive HReply := Redirect (target : string) | Envelope (status : Z) (code message : string) | NoContent.

(** The accounts and the refresh tokens. *)
Record LDB := mkLDB { l_accounts : ADB; l_tokens : gmap Z RefreshToken; l_seq_refresh : Z }.
Definition set_accounts (db : ADB) (l : LDB) : LDB := mkLDB db (l_tokens l) (l_seq_refresh l).
Definition tokens_view (l : LDB) : RDB := mkRDB (l_tokens l) (dom (a_users (l_accounts l))) (l_seq_refresh l).
Definition set_refresh (r : RDB) (l : LDB) : LDB := mkLDB (l_accounts l) (refresh_tokens r) (seq_refresh r).

Section handlers.
Context (lower ToLower HashToken : string -> string) (appBaseURL : string).
(** The access token of a user with its expiry, or [None] when it cannot be signed; its verification. *)
Context (jwt_Issue : Time -> Z -> string -> option (string * Time)) (jwt_Verify : Time -> string -> option Z).

Definition redirectToApp (dest0 : string) : HReply :=
  let dest := match dest0 with String a _ => if Ascii.eqb a "/" then dest0 else "/" | EmptyString => "/" end in
  Redirect (if String.eqb appBaseURL "" then dest else appBaseURL +:+ dest).

(** A refresh family, an access token and a CSRF token, then the three cookies; [raw] and [csrf]
    are draws of the random source. *)
Definition issueSession (f : Faults) (now : Time) (raw : string) (csrf : option string) (userID : Z) (email : string) (l : LDB) :
    option CookieEffect * LDB :=
  match Issue HashToken f now raw userID (tokens_view l) with
  | (Err _, r) => (None, set_refresh r l)
  | (Ok issued, r) =>
      let l' := set_refresh r l in
      match jwt_Issue now userID email, csrf with
      | Some (access, accessExp), Some c => (Some (SetSession access (ir_Raw issued) c accessExp (ir_Expires issued)), l')
      | _, _ => (None, l')
      end
  end.

(** The end of the two browser flows: a session and the redirect into the app. *)
Definition session_redirect (f : Faults) (now : Time) (raw : string) (csrf : option string) (userID : Z) (email dest : string) (l : LDB) :
    HReply * list CookieEffect * LDB :=
  match issueSession f now raw csrf userID email l with
  | (None, l') => (redirectToApp "/login?error=session_failed", [], l')
  | (Some ck, l') => (redirectToApp dest, [ck], l')
  end.

Section oauth.
Context (known : string -> bool) (AuthCodeURL : string -> string -> string -> string -> string)
  (Exchange : string -> string -> string -> string -> option Profile) (pkceChallenge : string -> string)
  (marshal_flow : flowState -> string) (unmarshal_flow : string -> option flowState).
Context {C : Type} `{!KeyCache C}.

Definition start_reply (r : result loginError (string * string) * C) : HReply * list CookieEffect * C :=
  match r with
  | (Err _, c') => (Envelope 400 "invalid_provider" "unknown or misconfigured provider", [], c')
  | (Ok (state, url), c') => (Redirect url, [SetOAuthState state (10 * Minute)], c')
  end.

Definition handleLogin (now : Time) (tok : option string * option string * option string) (provider returnTo : string) (c : C) :
    HReply * list CookieEffect * C :=
  start_reply (StartLogin known AuthCodeURL pkceChallenge marshal_flow now tok provider FlowLogin returnTo 0 c).

Definition handleLinkStart (now : Time) (tok : option string * option string * option string) (p : option Principal) (provider returnTo : string)
    (c : C) : HReply * list CookieEffect * C :=
  match p with
  | Some q =>
      if negb (bool_decide (pr_Kind q = ActorHuman)) then (Envelope 401 "unauthenticated" "sign in required", [], c)
      else start_reply (StartLogin known AuthCodeURL pkceChallenge marshal_flow now tok provider FlowLink returnTo (pr_UserID q) c)
  | None => (Envelope 401 "unauthenticated" "sign in required", [], c)
  end.

(** [cookieState] is empty without the cookie. *)
Definition handleCallback (f : Faults) (now : Time) (cookieState queryState code suffix raw : string) (csrf : option string) (l : LDB) (c : C) :
    HReply * list CookieEffect * LDB * C :=
  match HandleCallback lower ToLower known Exchange unmarshal_flow now cookieState queryState code suffix (l_accounts l) c with
  | (Err _, db', c') => (redirectToApp "/login?error=auth_failed", [ClearOAuthState], set_accounts db' l, c')
  | (Ok res, db', c') =>
      let dest := if cb_IsNew res then "/onboarding" else if String.eqb (cb_ReturnTo res) "" then "/" else cb_ReturnTo res in
      let '(reply, cks, l') := session_redirect f now raw csrf (cb_UserID res) (cb_Email res) dest (set_accounts db' l) in
      (reply, ClearOAuthState :: cks, l', c')
  end.
End oauth.

Section email.
Context (marshal_link : linkRecord -> string) (unmarshal_link : string -> option linkRecord).
Context {C : Type} `{!LinkStore C} {G : Type} `{!CheckNowGate G}.

Definition magicLinkNeutralMessage : string := "if that email has an account, we sent a link".

(** The intent published, when there is a publisher; its outcome does not show. *)
Definition handleEmailStart (now : Time) (body : option string) (ip : string) (publisher : bool) (redis : option G) :
    HReply * option string * option G :=
  match body with
  | None => (Envelope 422 "validation_failed" "invalid JSON body", None, redis)
  | Some e =>
      let email := ToLower (TrimSpace e) in
      if negb (looksLikeEmail email) then (Envelope 422 "validation_failed" "a valid email is required", None, redis)
      else
        let '(limited, redis') := magicLimited now email ip redis in
        if limited then (Envelope 429 "rate_limited" magicLinkNeutralMessage, None, redis')
        else (Envelope 200 "ok" magicLinkNeutralMessage, if publisher then Some email else None, redis')
  end.

Definition handleEmailVerify (f : Faults) (now : Time) (token suffix raw : string) (csrf : option string) (l : LDB) (magic : option C) :
    HReply * list CookieEffect * LDB * option C :=
  match magic with
  | None => (redirectToApp "/login?error=auth_failed", [], l, None)
  | Some c =>
      match magic_Verify lower ToLower HashToken unmarshal_link now token suffix (l_accounts l) c with
      | (Err _, db', c') => (redirectToApp "/login?error=auth_failed", [], set_accounts db' l, Some c')
      | (Ok (userID, email, isNew), db', c') =>
          let '(reply, cks, l') := session_redirect f now raw csrf userID email (if isNew then "/onboarding" else "/") (set_accounts db' l) in
          (reply, cks, l', Some c')
      end
  end.
End email.

Definition handleDevLogin (f : Faults) (now : Time) (body : option (string * string)) (suffix raw : string) (csrf : option string) (l : LDB) :
    HReply * list CookieEffect * LDB :=
  match body with
  | None => (Envelope 422 "validation_failed" "invalid JSON body", [], l)
  | Some (e, n) =>
      let email := TrimSpace e in
      if negb (looksLikeEmail email) then (Envelope 422 "validation_failed" "a valid email is required", [], l)
      else
        match resolveDevUser lower ToLower now email (TrimSpace n) suffix (l_accounts l) with
        | (Err _, db') => (Envelope 500 "internal" "could not sign in", [], set_accounts db' l)
        | (Ok userID, db') =>
            match issueSession f now raw csrf userID email (set_accounts db' l) with
            | (None, l') => (Envelope 500 "internal" "could not issue session", [], l')
            | (Some ck, l') => (NoContent, [ck], l')
            end
        end
  end.

(** The refresh cookie, [None] when absent or empty.  A failed CSRF draw is ignored. *)
Definition handleRefresh (f : Faults) (now : Time) (newRaw : string) (csrf : option string) (cookie : option string) (l : LDB) :
    HReply * list CookieEffect * LDB :=
  match cookie with
  | None => (Envelope 401 "unauthenticated" "no refresh token", [], l)
  | Some presented =>
      match Rotate HashToken f now newRaw presented (tokens_view l) with
      | (Err _, r) => (Envelope 401 "unauthenticated" "refresh failed, please sign in again", [ClearSession], set_refresh r l)
      | (Ok rot, r) =>
          match jwt_Issue now (ro_UserID rot) "" with
          | None => (Envelope 500 "internal" "could not issue token", [], set_refresh r l)
          | Some (access, accessExp) =>
              (NoContent, [SetSession access (ro_Raw rot) (default "" csrf) accessExp (ro_Expires rot)], set_refresh r l)
          end
      end
  end.

Definition handleLogout (f : Faults) (now : Time) (cookie : option string) (l : LDB) : HReply * list CookieEffect * LDB :=
  (NoContent, [ClearSession],
   match cookie with Some presented => set_refresh (RevokeFamily HashToken f now presented (tokens_view l)).2 l | None => l end).

Definition handleLogoutAll (f : Faults) (now : Time) (newRaw : string) (access refresh : option string) (l : LDB) :
    HReply * list CookieEffect * LDB :=
  let fromAccess := match access with Some a => default 0 (jwt_Verify now a) | None => 0 end in
  let '(userID, l1) :=
    if fromAccess =? 0 then
      match refresh with
      | Some presented =>
          match Rotate HashToken f now newRaw presented (tokens_view l) with
          | (Ok rot, r) => (ro_UserID rot, set_refresh r l)
          | (Err _, r) => (0, set_refresh r l)
          end
      | None => (0, l)
      end
    else (fromAccess, l) in
  if userID =? 0 then (Envelope 401 "unauthenticated" "sign in required", [], l1)
  else (NoContent, [ClearSession], set_refresh (RevokeAll f now userID (tokens_view l1)).2 l1).
End handlers.
