(* ===== verification/LoginInv.v ===== *)
(** * LoginInv: what a sign-in guarantees

    A magic link signs in once and within its fifteen minutes; a callback acts only for the browser
    and the flow that started it and never moves an identity to another user; every way to prove an
    address leads to the same account; the redirect after a login stays in the app. *)

From S2P Require Import Prelude Domain GoStrings Entitlements CheckState Authz Members MembersInv MonitorApi Auth Accounts AccountsInv Refresh Login.
Open Scope Z_scope.

(** ** The magic link *)

Lemma live_at_Some t k (r : Redis) v e : live_at t k r = Some (v, e) -> r !! k = Some (v, e) /\ forall x, e = Some x -> t < x.
Proof.
  unfold live_at. destruct (r !! k) as [[v' [x|]]|]; [|naive_solver..].
  destruct (t <? x) eqn:E; [|done]. apply Z.ltb_lt in E. naive_solver.
Qed.


Section link.
Context (lower ToLower HashToken : string -> string) (marshal_link : linkRecord -> string) (unmarshal_link : string -> option linkRecord).
Context (HashToken_inj : forall a b, HashToken a = HashToken b -> a = b).
Context (codec : forall r, unmarshal_link (marshal_link r) = Some r).

(** A time, the token and the address. *)
Definition link_event : Type := Time * string * string.
Definition of_token (raw : string) (e : link_event) : bool := String.eqb e.1.2 raw.
Definition count_token (raw : string) (l : list link_event) : nat := length (List.filter (of_token raw) l).

Record link_state := mkLinkState { lk_clock : Time; lk_redis : Redis; lk_minted : list link_event; lk_used : list link_event }.

(** The notifier mints, the api verifies against any database, and anything else happens to the
    other keys; the clock does not run backwards. *)
Inductive link_step (s : link_state) : link_state -> Prop :=
  | step_mint t raw email r' : lk_clock s <= t -> Mint HashToken marshal_link t (Some raw) email (lk_redis s) = (Ok raw, r') ->
      link_step s (mkLinkState t r' ((t, raw, email) :: lk_minted s) (lk_used s))
  | step_signed_in t raw suffix db u email isNew db' r' : lk_clock s <= t ->
      magic_Verify lower ToLower HashToken unmarshal_link t raw suffix db (lk_redis s) = (Ok (u, email, isNew), db', r') ->
      link_step s (mkLinkState t r' (lk_minted s) ((t, raw, email) :: lk_used s))
  | step_refused t raw suffix db e db' r' : lk_clock s <= t ->
      magic_Verify lower ToLower HashToken unmarshal_link t raw suffix db (lk_redis s) = (Err e, db', r') ->
      link_step s (mkLinkState t r' (lk_minted s) (lk_used s))
  | step_elsewhere t r' : lk_clock s <= t -> (forall h, r' !! linkKey h = lk_redis s !! linkKey h) ->
      link_step s (mkLinkState t r' (lk_minted s) (lk_used s)).

Definition link_start (t : Time) (r : Redis) : link_state := mkLinkState t r [] [].

Lemma linkKey_inj a b : linkKey a = linkKey b -> a = b.
Proof. unfold linkKey. intros H. by apply (inj (String.append "magiclink:")) in H. Qed.

Definition present (raw : string) (r : Redis) : nat := match r !! linkKey (HashToken raw) with Some _ => 1 | None => 0 end.

Record link_inv (s : link_state) : Prop := {
  li_stored : forall raw v e, lk_redis s !! linkKey (HashToken raw) = Some (v, e) ->
    exists t0 email, (t0, raw, email) ∈ lk_minted s /\ v = marshal_link (mkLink email t0) /\ e = Some (t0 + linkTTL) /\ t0 <= lk_clock s;
  li_used : forall t raw email, (t, raw, email) ∈ lk_used s -> exists t0, (t0, raw, email) ∈ lk_minted s /\ t0 <= t < t0 + linkTTL;
  li_count : forall raw, (count_token raw (lk_used s) + present raw (lk_redis s) <= count_token raw (lk_minted s))%nat;
}.

Lemma count_token_cons raw t raw' email l :
  count_token raw ((t, raw', email) :: l) = ((if String.eqb raw' raw then 1 else 0) + count_token raw l)%nat.
Proof. unfold count_token, of_token. simpl. by destruct (String.eqb raw' raw). Qed.

(** What a verification does to the store. *)
Lemma verify_store t raw suffix db r0 out db' r' :
  magic_Verify lower ToLower HashToken unmarshal_link t raw suffix db r0 = (out, db', r') ->
  (r' = r0 /\ exists e, out = Err e) \/
  exists v e, raw <> "" /\ live_at t (linkKey (HashToken raw)) r0 = Some (v, e) /\ r' = delete (linkKey (HashToken raw)) r0 /\
    match out with Ok (_, email, _) => exists rec_, unmarshal_link v = Some rec_ /\ email = ml_Email rec_ | Err _ => True end.
Proof using Type.
  unfold magic_Verify, Consume. destruct (String.eqb raw "") eqn:Er; [intros [= <- <- <-]; left; eauto|]. apply String.eqb_neq in Er.
  cbn [ls_GetDelCache redis_links]. unfold GetDelCache. destruct (live_at t _ r0) as [[v e]|]; [|intros [= <- <- <-]; left; eauto].
  destruct (unmarshal_link v) as [rec_|] eqn:Eu.
  - destruct (resolveEmail _ _ _ _ _ _) as [o d] eqn:Eo. intros [= <- <- <-]. right. exists v, e. split_and!; try done.
    destruct o as [[[u em] isNew]|]; [|done]. exists rec_. split; [done|].
    unfold resolveEmail in Eo. repeat case_match; simplify_eq; done.
  - intros [= <- <- <-]. right. eauto 8.
Qed.

Lemma present_delete raw raw' r : present raw (delete (linkKey (HashToken raw')) r) = if String.eqb raw' raw then 0%nat else present raw r.
Proof using HashToken_inj.
  unfold present. destruct (String.eqb raw' raw) eqn:E.
  - apply String.eqb_eq in E as ->. by rewrite lookup_delete_eq.
  - apply String.eqb_neq in E. rewrite lookup_delete_ne; [done|]. intros ?%linkKey_inj%HashToken_inj. done.
Qed.

Lemma link_inv_step s s' : link_step s s' -> link_inv s -> link_inv s'.
Proof using All.
  intros Hs [Hst Hu Hc]. destruct Hs as [t raw email r' Ht Hm|t raw suffix db u email isNew db' r' Ht Hv|t raw suffix db e db' r' Ht Hv|t r' Ht Hr].
  - unfold Mint in Hm. cbn [ls_SetCache redis_links SetCache] in Hm. unfold linkTTL, Minute in Hm. simplify_eq/=. split; simpl.
    + intros raw' v e. rewrite lookup_insert. case_decide as Hk.
      * apply linkKey_inj, HashToken_inj in Hk. subst. intros [= <- <-]. exists t, email. split_and!; [set_solver|done|done|lia].
      * intros (t0 & em & ? & ? & ? & ?)%Hst. exists t0, em. split_and!; [set_solver|done|done|lia].
    + intros t' raw' em (t0 & ? & ?)%Hu. exists t0. split; [set_solver|done].
    + intros raw'. specialize (Hc raw'). rewrite count_token_cons. unfold present in *. rewrite lookup_insert. case_decide as Hk.
      * apply linkKey_inj, HashToken_inj in Hk. subst. rewrite String.eqb_refl. lia.
      * destruct (String.eqb raw raw'); lia.
  - apply verify_store in Hv as [[_ [? [=]]]|(v & e & _ & Hl & -> & rec_ & Hdec & ->)]. apply live_at_Some in Hl as [Hl He].
    destruct (Hst _ _ _ Hl) as (t0 & em & Hin & -> & -> & ?). rewrite codec in Hdec. simplify_eq/=. specialize (He _ eq_refl). split; simpl.
    + intros raw' v e [_ Hk]%lookup_delete_Some. destruct (Hst _ _ _ Hk) as (t1 & em1 & ? & ? & ? & ?). exists t1, em1. split_and!; try done; lia.
    + intros t' raw' em' [[= -> -> ->]|Hin']%elem_of_cons; [|by apply Hu]. exists t0. split; [done|]. lia.
    + intros raw'. specialize (Hc raw'). rewrite count_token_cons, present_delete. destruct (String.eqb raw raw') eqn:E; [|lia].
      apply String.eqb_eq in E as <-. unfold present in Hc. rewrite Hl in Hc. lia.
  - apply verify_store in Hv as [[-> _]|(v & x & _ & Hl & -> & _)]; split; simpl; try done.
    + intros raw' v x Hk. destruct (Hst _ _ _ Hk) as (t1 & em1 & ? & ? & ? & ?). exists t1, em1. split_and!; try done; lia.
    + intros raw' v' x' [_ Hk]%lookup_delete_Some. destruct (Hst _ _ _ Hk) as (t1 & em1 & ? & ? & ? & ?). exists t1, em1. split_and!; try done; lia.
    + intros raw'. specialize (Hc raw'). rewrite present_delete. destruct (String.eqb raw raw'); lia.
  - split; simpl; [|done|intros raw; unfold present; rewrite Hr; apply Hc].
    intros raw' v e. rewrite Hr. intros (t1 & em1 & ? & ? & ? & ?)%Hst. exists t1, em1. split_and!; try done; lia.
Qed.

Lemma link_run_inv t r s : (forall h, r !! linkKey h = None) -> rtc link_step (link_start t r) s -> link_inv s.
Proof using All.
  intros Hr Hs. assert (link_inv (link_start t r)) as H0.
  { split; simpl; [intros raw v e; by rewrite Hr|by intros ??? ?%not_elem_of_nil|]. intros raw. unfold present. rewrite Hr. done. }
  induction Hs; eauto using link_inv_step.
Qed.
End link.

(** ** Identities and accounts *)

Section accounts.
Context (lower ToLower : string -> string).
Implicit Types (db : ADB) (p : Profile).

(** The user behind a provider's account. *)
Definition identity_user (provider subject : string) (db : ADB) : option Z :=
  match GetIdentity provider subject db with Ok i => Some (ui_UserID i) | Err _ => None end.
Definition email_user (email : string) (db : ADB) : option Z :=
  match GetUserByEmail lower email db with Ok (id, _) => Some id | Err _ => None end.

Lemma identity_user_lookup db k i :
  awf lower db -> a_identities db !! k = Some i -> identity_user (ui_Provider i) (ui_ProviderUserID i) db = Some (ui_UserID i).
Proof.
  intros Hwf Hk. unfold identity_user, GetIdentity.
  rewrite (find_row_unique _ _ k i Hk); [done|by apply same_subject_key|].
  intros k' i' Hk' Hs%same_subject_key. by eapply (aw_subject _ _ Hwf k' k i' i _ Hk' Hk).
Qed.

Lemma identity_user_None provider s db : identity_user provider s db = None -> find_row (same_subject provider s) (a_identities db) = None.
Proof. unfold identity_user, GetIdentity. by destruct (find_row _ _) as [[]|]. Qed.

Lemma email_user_lookup db id u e :
  awf lower db -> a_users db !! id = Some u -> au_Status u <> UserDeleted -> lower (au_Email u) = lower e -> email_user e db = Some id.
Proof.
  intros Hwf Hu Hs He. unfold email_user, GetUserByEmail.
  assert (email_key lower u = Some (lower e)) as Hk by (unfold email_key; rewrite bool_decide_eq_false_2; congruence).
  rewrite (find_row_unique _ _ id u Hu); [done|by apply has_email_key|].
  intros k' u' Hk' He'%has_email_key. by eapply (aw_email _ _ Hwf k' id u' u _ Hk' Hu).
Qed.

Lemma email_user_Some db e id :
  email_user e db = Some id -> exists u, a_users db !! id = Some u /\ au_Status u <> UserDeleted /\ lower (au_Email u) = lower e.
Proof.
  unfold email_user, GetUserByEmail. destruct (find_row _ _) as [[k u]|] eqn:E; [|done]. intros [= ->].
  apply find_row_Some in E as [Hk He%has_email_key]. unfold email_key in He. case_bool_decide; [done|].
  exists u. split_and!; [done..|]. by injection He.
Qed.

(** The rows a resolution may add: one identity, of the resolved user and the presented account. *)
Definition identities_grow (p : Profile) (u : Z) (db db' : ADB) : Prop :=
  (forall k i, a_identities db !! k = Some i -> a_identities db' !! k = Some i) /\
  (forall k i, a_identities db' !! k = Some i -> a_identities db !! k = Some i \/
     ui_UserID i = u /\ ui_Provider i = pf_Provider p /\ ui_ProviderUserID i = pf_ProviderUserID p).

Lemma identities_grow_insert p u now db db' :
  awf lower db -> a_identities db' = <[seq_identities db := mkIdentity (seq_identities db) u (pf_Provider p) (pf_ProviderUserID p) now]> (a_identities db) ->
  identities_grow p u db db'.
Proof.
  unfold identities_grow. intros Hwf ->. split; intros k i; rewrite lookup_insert; case_decide as Hk; [|done| |by left].
  - subst. intros ?%(aw_idents _ _ Hwf). lia.
  - intros [= <-]. by right.
Qed.

Lemma LinkIdentity_Ok now u provider subject db id db' :
  LinkIdentity now (mkIdentity 0 u provider subject 0) db = (Ok id, db') ->
  a_identities db' = <[seq_identities db := mkIdentity (seq_identities db) u provider subject now]> (a_identities db) /\
  a_users db' = a_users db /\ is_Some (a_users db !! u) /\ a_orgs db' = a_orgs db /\ a_memberships db' = a_memberships db.
Proof.
  unfold LinkIdentity, insert_identity. simpl. destruct (negb _); [done|]. destruct (_ || _); [done|].
  destruct (bool_decide (a_users db !! u = None)) eqn:E; [done|]. intros [= _ <-]. simpl. split_and!; try done.
  apply bool_decide_eq_false in E. by apply not_eq_None_Some.
Qed.

(** Which account a verified profile is, and what a successful resolution does. *)
Definition resolved (flow : FlowKind) (link : Z) (p : Profile) (db : ADB) (res : CallbackResult) (db' : ADB) : Prop :=
  match identity_user (pf_Provider p) (pf_ProviderUserID p) db with
  | Some owner => cb_UserID res = owner /\ cb_IsNew res = false /\ (flow = FlowLink -> link = owner)
  | None =>
      match flow with
      | FlowLink => cb_UserID res = link /\ link <> 0 /\ cb_IsNew res = false
      | FlowLogin =>
          match email_user (pf_Email p) db with
          | Some id => cb_UserID res = id /\ cb_IsNew res = false
          | None => cb_IsNew res = true /\ a_users db !! cb_UserID res = None /\ a_orgs db !! cb_OrgID res = None /\
                    exists k, a_memberships db' !! k = Some (mkMembership k (cb_OrgID res) (cb_UserID res) RoleOwner)
          end
      end
  end.

Lemma resolveLink_spec now link p returnTo db res db' :
  awf lower db -> resolveLink now link p returnTo db = (Ok res, db') ->
  cb_ReturnTo res = returnTo /\ cb_Email res = pf_Email p /\ resolved FlowLink link p db res db' /\
  identity_user (pf_Provider p) (pf_ProviderUserID p) db' = Some (cb_UserID res) /\
  identities_grow p (cb_UserID res) db db'.
Proof.
  intros Hwf. unfold resolveLink, resolved, identity_user at 1 2. destruct (link =? 0) eqn:E0; [done|]. apply Z.eqb_neq in E0.
  destruct (GetIdentity _ _ db) as [i|[]] eqn:Eg; try done.
  - destruct (ui_UserID i =? link) eqn:Ei; simpl; [|done]. apply Z.eqb_eq in Ei. intros [= <- <-]. simpl. subst link. rewrite Eg.
    split_and!; try done. split; [done|by left].
  - destruct (LinkIdentity _ _ db) as [[id|e] db1] eqn:El; [|done]. intros [= <- <-]. simpl.
    assert (awf lower db1) as Hwf1.
    { pose proof (awf_insert_identity lower now link (pf_Provider p) (pf_ProviderUserID p) db Hwf) as H. unfold LinkIdentity in El. simpl in El. by rewrite El in H. }
    apply LinkIdentity_Ok in El as (Hi & _). split_and!; try done.
    + apply (identity_user_lookup db1 (seq_identities db) (mkIdentity (seq_identities db) link (pf_Provider p) (pf_ProviderUserID p) now)); [done|].
      by rewrite Hi, lookup_insert_eq.
    + by eapply identities_grow_insert.
Qed.

Lemma awf_login now id db : awf lower db -> awf lower (SetLastLogin now id db).
Proof. intros Hwf. by apply awf_alter_user. Qed.

Lemma awf_link_result now u provider subject db r db' :
  awf lower db -> LinkIdentity now (mkIdentity 0 u provider subject 0) db = (r, db') -> awf lower db'.
Proof.
  intros Hwf E. pose proof (awf_insert_identity lower now u provider subject db Hwf) as H. unfold LinkIdentity in E. simpl in E. by rewrite E in H.
Qed.

(** What a first sign-in leaves behind. *)
Lemma first_sign_in_Ok now u idn name slug db fs db' :
  awf lower db -> CreateUserWithPersonalOrg lower now u idn name slug db = (Ok fs, db') ->
  awf lower db' /\ fs_UserID fs = seq_users db /\ a_users db !! fs_UserID fs = None /\ a_orgs db !! fs_OrgID fs = None /\
  a_users db' !! fs_UserID fs = Some (stored_user u) /\
  a_identities db' = with_identity now (fs_UserID fs) idn (seq_identities db) (a_identities db) /\
  exists k, a_memberships db' !! k = Some (mkMembership k (fs_OrgID fs) (fs_UserID fs) RoleOwner).
Proof.
  intros Hwf E. pose proof (first_sign_in_cases lower now u idn name slug db Hwf) as Hc. rewrite E in Hc.
  destruct Hc as [_ (db2 & -> & Hwf2 & (Tu & Tid & To & Tm & Ti) & So & Sm & He & Hslug & _ & Eu & Eo & Em)]. simpl in *.
  split_and!; rewrite ?Eu, ?Eo; try done.
  - apply (awf_new_org lower); [done|by rewrite <- To|]. rewrite <- Tu, lookup_insert_eq. eauto.
  - by apply keys_below_fresh, (aw_users _ _ Hwf).
  - by apply keys_below_fresh, (aw_orgs _ _ Hwf).
  - by rewrite <- Tu, lookup_insert_eq.
  - exists (seq_mem db2). rewrite lookup_insert_eq, So. done.
Qed.

Lemma resolveLogin_spec now p returnTo suffix db res db' :
  awf lower db -> resolveLogin lower ToLower now p returnTo suffix db = (Ok res, db') ->
  awf lower db' /\ cb_ReturnTo res = returnTo /\ cb_Email res = pf_Email p /\ resolved FlowLogin 0 p db res db' /\
  identity_user (pf_Provider p) (pf_ProviderUserID p) db' = Some (cb_UserID res) /\
  identities_grow p (cb_UserID res) db db'.
Proof.
  intros Hwf. unfold resolveLogin, resolved, identity_user at 1, email_user.
  destruct (GetIdentity _ _ db) as [i|[]] eqn:Eg; try done.
  { intros [= <- <-]. simpl. split_and!; try done; [by apply awf_login| |split; [done|by left]].
    unfold identity_user, GetIdentity in *. simpl. by destruct (find_row _ _) as [[? ?]|]; simplify_eq. }
  destruct (GetUserByEmail lower (pf_Email p) db) as [[id x]|[]] eqn:Ee; try done.
  - destruct (LinkIdentity _ _ db) as [[iid|e] db1] eqn:El; [|done]. intros [= <- <-]. simpl.
    pose proof (awf_link_result _ _ _ _ _ _ _ Hwf El) as Hwf1. apply LinkIdentity_Ok in El as (Hi & _).
    pose proof (awf_login now id _ Hwf1) as Hwf2. split_and!; try done.
    + apply (identity_user_lookup (SetLastLogin now id db1) (seq_identities db)
        (mkIdentity (seq_identities db) id (pf_Provider p) (pf_ProviderUserID p) now)); [done|]. simpl. by rewrite Hi, lookup_insert_eq.
    + by eapply identities_grow_insert.
  - destruct (personalOrgNaming _ _ _) as [name slug]. destruct (CreateUserWithPersonalOrg _ _ _ _ _ _ db) as [[fs|e] db1] eqn:Ec; [|done].
    intros [= <- <-]. apply (first_sign_in_Ok _ _ _ _ _ _ _ _ Hwf) in Ec as (Hwf1 & Eu & Nu & No & Hu & Hi & k & Hk). simpl in *.
    split_and!; try done; [by eauto| |].
    + apply (identity_user_lookup db1 (seq_identities db)
        (mkIdentity (seq_identities db) (fs_UserID fs) (pf_Provider p) (pf_ProviderUserID p) now)); [done|]. by rewrite Hi, lookup_insert_eq.
    + by eapply identities_grow_insert.
Qed.
End accounts.

(** A login with a known address and an unknown account fails only on the two other constraints. *)
Lemma refused_login lower ToLower now p returnTo suffix db u x e db' :
  identity_user (pf_Provider p) (pf_ProviderUserID p) db = None -> GetUserByEmail lower (pf_Email p) db = Ok (u, x) ->
  resolveLogin lower ToLower now p returnTo suffix db = (Err e, db') ->
  same_tables db db' /\
  (known_provider (pf_Provider p) = false \/ exists k i, a_identities db !! k = Some i /\ ui_UserID i = u /\ ui_Provider i = pf_Provider p).
Proof.
  intros Hid Hu. pose proof (identity_user_None _ _ _ Hid) as Hf.
  assert (is_Some (a_users db !! u)) as [y Hy].
  { unfold GetUserByEmail in Hu. destruct (find_row _ _) as [[k v]|] eqn:E; simplify_eq. apply find_row_Some in E as [? _]. eauto. }
  unfold resolveLogin, GetIdentity. rewrite Hf, Hu. unfold LinkIdentity, insert_identity. simpl.
  destruct (known_provider (pf_Provider p)) eqn:Ek; simpl; [|intros [= <- <-]; split; [done|by left]].
  destruct (bool_decide (is_Some (find_row (same_user_provider _ _) _))) eqn:Eb; simpl.
  - intros [= <- <-]. split; [done|]. right. apply bool_decide_eq_true, find_row_is_Some in Eb as (k & i & Hk & Hs).
    apply same_user_provider_key in Hs. unfold user_provider_key in Hs. injection Hs as ??. eauto.
  - rewrite Hf. rewrite (bool_decide_eq_false_2 (is_Some None)) by (by intros [? [=]]). rewrite Hy. simpl. done.
Qed.

(** *** Text *)

(** A path of this site: one slash, and neither a second one nor a backslash after it. *)
Definition local_path (s : string) : Prop :=
  exists r, s = String "/" r /\ match r with String c _ => c <> "/"%char /\ c <> "\"%char | EmptyString => True end.

Lemma prefix_slash b c r : String.prefix (String "/" (String b "")) (String "/" (String c r)) = Ascii.eqb b c.
Proof.
  cbn [String.prefix]. destruct (ascii_dec "/" "/") as [_|]; [|done].
  destruct (ascii_dec b c) as [<-|Hn]; [rewrite Ascii.eqb_refl; by destruct r|]. symmetry. by apply Ascii.eqb_neq.
Qed.

Lemma safeReturnTo_cons a r :
  safeReturnTo (String a r) =
    if negb (Ascii.eqb a "/") then "/"
    else match r with String c _ => if Ascii.eqb "/" c || Ascii.eqb "\" c then "/" else String a r | EmptyString => String a r end.
Proof.
  unfold safeReturnTo, GoStrings.HasPrefix. destruct (Ascii.eqb a "/") eqn:Ea; [|done]. apply Ascii.eqb_eq in Ea as ->. cbn [negb].
  destruct r as [|c r]; [done|]. by rewrite !prefix_slash.
Qed.

Lemma safeReturnTo_local s : local_path (safeReturnTo s).
Proof.
  assert (local_path "/") as H1 by (by exists ""). destruct s as [|a s]; [done|]. rewrite safeReturnTo_cons.
  destruct (Ascii.eqb a "/") eqn:Ea; cbn [negb]; [|done]. apply Ascii.eqb_eq in Ea as ->. destruct s as [|c s]; [done|].
  destruct (Ascii.eqb "/" c) eqn:E1; cbn [orb]; [done|]. destruct (Ascii.eqb "\" c) eqn:E2; [done|].
  apply Ascii.eqb_neq in E1, E2. eexists. split; [done|]. split; congruence.
Qed.

Lemma safeReturnTo_kept s : local_path s -> safeReturnTo s = s.
Proof.
  intros (r & -> & Hr). rewrite safeReturnTo_cons, Ascii.eqb_refl. cbn [negb]. destruct r as [|c r]; [done|]. destruct Hr as [H1 H2].
  apply not_eq_sym, Ascii.eqb_neq in H1. apply not_eq_sym, Ascii.eqb_neq in H2. by rewrite H1, H2.
Qed.

(** ** Properties *)

(** C12: a magic link signs in once, and in time.  Over any run in which the notifier mints links,
    the api verifies tokens against any state of the accounts and the rest of the program uses the
    other keys: every sign-in by a token is for the address that token was minted for, less than
    fifteen minutes after the minting; and no token signs in more often than it was minted. *)
Theorem magic_link_signs_in_once lower ToLower HashToken marshal_link unmarshal_link t r s :
  (forall a b, HashToken a = HashToken b -> a = b) -> (forall x, unmarshal_link (marshal_link x) = Some x) ->
  (forall h, r !! linkKey h = None) ->
  rtc (link_step lower ToLower HashToken marshal_link unmarshal_link) (link_start t r) s ->
  (forall t' raw email, (t', raw, email) ∈ lk_used s -> exists t0, (t0, raw, email) ∈ lk_minted s /\ t0 <= t' < t0 + 15 * Minute) /\
  (forall raw, (count_token raw (lk_used s) <= count_token raw (lk_minted s))%nat).
Proof.
  intros Hh Hc Hr Hs. destruct (link_run_inv _ _ _ _ _ Hh Hc t r s Hr Hs) as [_ Hu Hn].
  split; [apply Hu|]. intros raw. specialize (Hn raw). lia.
Qed.

(** C20: a callback acts for the flow that started it and takes nobody's identity.  A callback that
    succeeds came with the state of its cookie, and with a stored flow of that state.  The account
    it signs in to is the one the provider's account already belongs to (for a link flow, it must be
    the user who started it); else, for a link flow, the user who started it; else the user with the
    verified address; else a new user, who owns a new org.  Afterwards the provider's account
    belongs to that user, every identity of before is unchanged, and at most that one is added. *)
Theorem callback_takes_over_no_identity {C} `{!KeyCache C} lower ToLower known Exchange unmarshal_flow now cookieState queryState code suffix
    db (c : C) res db' c' :
  awf lower db ->
  HandleCallback lower ToLower known Exchange unmarshal_flow now cookieState queryState code suffix db c = (Ok res, db', c') ->
  cookieState = queryState /\ queryState <> "" /\
  exists raw rec_ p, (kc_GetCache now (flowKey queryState) c).1 = Ok (Some raw) /\ unmarshal_flow raw = Some rec_ /\
    Exchange (fl_Provider rec_) code (fl_Verifier rec_) (fl_Nonce rec_) = Some p /\
    cb_ReturnTo res = fl_ReturnTo rec_ /\
    resolved lower (fl_Flow rec_) (fl_LinkUserID rec_) p db res db' /\
    identity_user (pf_Provider p) (pf_ProviderUserID p) db' = Some (cb_UserID res) /\
    identities_grow p (cb_UserID res) db db'.
Proof.
  intros Hwf. unfold HandleCallback. destruct (String.eqb queryState "") eqn:E1; simpl; [done|].
  destruct (String.eqb cookieState queryState) eqn:E2; simpl; [|done]. apply String.eqb_neq in E1. apply String.eqb_eq in E2.
  destruct (kc_GetCache _ _ c) as [[[raw|]|] c1]; [|done..]. destruct (unmarshal_flow raw) as [rec_|] eqn:Eu; [|done].
  destruct (known _); simpl; [|done]. destruct (Exchange _ _ _ _) as [p|] eqn:Ex; [|done]. intros E. do 2 (split; [done|]).
  exists raw, rec_, p. split; [done|]. split; [done|]. split; [done|]. destruct (fl_Flow rec_).
  - destruct (resolveLogin _ _ _ _ _ _ _) as [r1 db1] eqn:El. simplify_eq.
    destruct (resolveLogin_spec _ _ _ _ _ _ _ _ _ Hwf El) as (_ & ? & _ & Hres & ? & ?). split_and!; try done.
    unfold resolved in *. by destruct (identity_user _ _ db); [naive_solver|].
  - destruct (resolveLink _ _ _ _ _) as [r1 db1] eqn:El. simplify_eq.
    destruct (resolveLink_spec _ _ _ _ _ _ _ _ Hwf El) as (? & _ & Hres & ? & ?). by split_and!.
Qed.

(** The accounts an e-mail proves agree: lemma for the two ways without an identity. *)
Lemma resolveEmail_spec lower ToLower now email suffix db u e isNew db' :
  awf lower db -> resolveEmail lower ToLower now email suffix db = (Ok (u, e, isNew), db') ->
  awf lower db' /\ e = email /\ email_user lower email db' = Some u /\
  (isNew = false -> email_user lower email db = Some u /\ a_identities db' = a_identities db) /\
  (isNew = true -> email_user lower email db = None /\ a_users db !! u = None /\
     exists k org, a_orgs db !! org = None /\ a_memberships db' !! k = Some (mkMembership k org u RoleOwner)).
Proof.
  intros Hwf. unfold resolveEmail, email_user at 2 3. destruct (GetUserByEmail lower email db) as [[id x]|[]] eqn:Ee; try done.
  - intros [= <- <- <- <-]. pose proof (awf_login lower now id db Hwf) as Hwf'. split_and!; try done.
    unfold GetUserByEmail in Ee. destruct (find_row _ _) as [[k v]|] eqn:Ef; simplify_eq.
    assert (email_user lower email db = Some id) as Hu by (unfold email_user, GetUserByEmail; by rewrite Ef).
    destruct (email_user_Some lower db email id Hu) as (w & Hw & Hs & He).
    apply (email_user_lookup lower _ id (with_login now w)); [done|simpl; by rewrite lookup_alter_eq, Hw|done|done].
  - destruct (magicLinkOrgNaming _ _ _) as [name slug]. destruct (CreateUserWithPersonalOrg _ _ _ _ _ _ db) as [[fs|er] db1] eqn:Ec; [|done].
    intros [= <- <- <- <-]. apply (first_sign_in_Ok lower _ _ _ _ _ _ _ _ Hwf) in Ec as (Hwf1 & Eu & Nu & No & Hu & Hi & k & Hk).
    split_and!; try done; [|by eauto 8].
    by apply (email_user_lookup lower db1 (fs_UserID fs) _ email Hwf1 Hu).
Qed.

(** One address is one account.  After a magic link for an address signed in as [u]: a later
    magic link and the dev login for that address, whatever its case, sign in as [u] again and
    create nothing; and a social login with that verified address, by an account not linked yet,
    signs in as [u] and links the account to [u] (or is refused, when [u] has another account of
    that provider).  A first sign-in made a user who owns a new org. *)
Theorem one_address_is_one_account lower ToLower now email suffix db u e isNew db' email' :
  awf lower db -> resolveEmail lower ToLower now email suffix db = (Ok (u, e, isNew), db') -> lower email' = lower email ->
  (forall t sfx, (resolveEmail lower ToLower t email' sfx db').1 = Ok (u, email', false)) /\
  (forall t name sfx, (resolveDevUser lower ToLower t email' name sfx db').1 = Ok u) /\
  (forall t p returnTo sfx, pf_Email p = email' -> identity_user (pf_Provider p) (pf_ProviderUserID p) db' = None ->
     match resolveLogin lower ToLower t p returnTo sfx db' with
     | (Ok res, db'') => cb_UserID res = u /\ cb_IsNew res = false /\ identity_user (pf_Provider p) (pf_ProviderUserID p) db'' = Some u
     | (Err _, db'') => same_tables db' db'' /\
         (known_provider (pf_Provider p) = false \/ exists k i, a_identities db' !! k = Some i /\ ui_UserID i = u /\ ui_Provider i = pf_Provider p)
     end) /\
  (isNew = true -> a_users db !! u = None /\
     exists k org, a_orgs db !! org = None /\ a_memberships db' !! k = Some (mkMembership k org u RoleOwner)).
Proof.
  intros Hwf Hr He. destruct (resolveEmail_spec _ _ _ _ _ _ _ _ _ _ Hwf Hr) as (Hwf' & -> & Hu & _ & Hnew).
  assert (GetUserByEmail lower email' db' = GetUserByEmail lower email db') as Hsame.
  { unfold GetUserByEmail. replace (find_row (has_email lower email')) with (find_row (K := Z) (has_email lower email)); [done|].
    unfold has_email. by rewrite He. }
  unfold email_user in Hu. destruct (GetUserByEmail lower email db') as [[id x]|] eqn:Eg; [|done]. injection Hu as ->.
  split_and!.
  - intros t sfx. unfold resolveEmail. by rewrite Hsame.
  - intros t name sfx. unfold resolveDevUser. by rewrite Hsame.
  - intros t p returnTo sfx Hp Hid.
    destruct (resolveLogin lower ToLower t p returnTo sfx db') as [[res|er] db''] eqn:El.
    + destruct (resolveLogin_spec _ _ _ _ _ _ _ _ _ Hwf' El) as (_ & _ & _ & Hres & Hi & _). unfold resolved in Hres.
      rewrite Hid, Hp in Hres. unfold email_user in Hres. rewrite Hsame in Hres. destruct Hres as [Hru Hrn]. by rewrite Hru in *.
    + by apply (refused_login lower ToLower t p returnTo sfx db' u x er db''); rewrite ?Hp.
  - intros ->. by apply Hnew.
Qed.

(** A started login comes back as it was started.  Within ten minutes, and while nobody else
    writes its record, the callback with the state in cookie and query exchanges the code with the
    very verifier and nonce of the start, at the provider of the start, and resolves the profile
    with the flow, the user and the return path of the start, that path being a local one; the
    record is then gone, so a second callback is a state mismatch.  After ten minutes the first one
    is a state mismatch too, and so is any callback whose cookie differs. *)
Theorem started_login_comes_back lower ToLower known AuthCodeURL Exchange pkceChallenge marshal_flow unmarshal_flow
    t0 state nonce verifier provider flow returnTo link (r r0 : Redis) url :
  (forall x, unmarshal_flow (marshal_flow x) = Some x) -> state <> "" ->
  StartLogin known AuthCodeURL pkceChallenge marshal_flow t0 (Some state, Some nonce, Some verifier) provider flow returnTo link r = (Ok (state, url), r0) ->
  let callback := HandleCallback lower ToLower known Exchange unmarshal_flow in
  local_path (safeReturnTo returnTo) /\
  (forall t cookie code suffix db r1, cookie <> state -> callback t cookie state code suffix db r1 = (Err ErrStateMismatch, db, r1)) /\
  (forall t code suffix db r1, r1 !! flowKey state = r0 !! flowKey state -> t0 <= t ->
     if t <? t0 + 10 * Minute then
       callback t state state code suffix db r1 =
         (match Exchange provider code verifier nonce with
          | None => (Err ErrExchange, db)
          | Some p => match flow with
                      | FlowLogin => resolveLogin lower ToLower t p (safeReturnTo returnTo) suffix db
                      | FlowLink => resolveLink t link p (safeReturnTo returnTo) db
                      end
          end, delete (flowKey state) r1) /\
       (forall t' code' suffix' db', callback t' state state code' suffix' db' (delete (flowKey state) r1) =
          (Err ErrStateMismatch, db', delete (flowKey state) r1))
     else callback t state state code suffix db r1 = (Err ErrStateMismatch, db, r1)).
Proof.
  intros Hc Hne Hs. cbv zeta. split; [apply safeReturnTo_local|]. apply String.eqb_neq in Hne. split.
  { intros t cookie code suffix db r1 Hck. unfold HandleCallback. apply String.eqb_neq in Hck. by rewrite Hck, orb_true_r. }
  unfold StartLogin in Hs. destruct (known provider) eqn:Ek; simpl in Hs; [|done].
  unfold flowTTL, Minute in Hs. cbn [kc_SetCache redis_cache SetCache] in Hs. simplify_eq/=.
  intros t code suffix db r1. rewrite lookup_insert_eq. intros Hr Ht. unfold HandleCallback. rewrite String.eqb_refl, Hne. cbn [orb negb].
  cbn [kc_GetCache kc_DelCache redis_cache DelCache]. unfold GetCache, live_at at 1 3. rewrite Hr.
  change (10 * Minute) with (10 * (60 * Second)). destruct (t <? t0 + 10 * (60 * Second)) eqn:El; cbn [fst snd]; [|done]. split.
  - rewrite Hc. simpl. rewrite Ek. simpl. destruct (Exchange _ _ _ _); [|done]. by destruct flow; [destruct (resolveLogin _ _ _ _ _ _ _)|destruct (resolveLink _ _ _ _ _)].
  - intros t' code' suffix' db'. unfold live_at. by rewrite lookup_delete_eq.
Qed.

(** *** Witnesses *)

Definition ex_link_marshal (r : linkRecord) : string := bits_of (encode (ml_Email r, ml_CreatedAt r)).
Definition ex_link_unmarshal (s : string) : option linkRecord := (fun x => mkLink x.1 x.2) <$> countable.decode (of_bits s).
Lemma ex_link_codec r : ex_link_unmarshal (ex_link_marshal r) = Some r.
Proof. unfold ex_link_unmarshal, ex_link_marshal. rewrite of_bits_of, decode_encode. by destruct r. Qed.

Definition ex_flow_marshal (f : flowState) : string :=
  bits_of (encode (fl_Provider f, fl_Verifier f, fl_Nonce f, bool_decide (fl_Flow f = FlowLink), fl_ReturnTo f, fl_LinkUserID f)).
Definition ex_flow_unmarshal (s : string) : option flowState :=
  (fun x : string * string * string * bool * string * Z =>
     let '(p, v, n, k, r, u) := x in mkFlow p v n (if k then FlowLink else FlowLogin) r u) <$> countable.decode (of_bits s).
Lemma ex_flow_codec f : ex_flow_unmarshal (ex_flow_marshal f) = Some f.
Proof. unfold ex_flow_unmarshal, ex_flow_marshal. rewrite of_bits_of, decode_encode. by destruct f as [? ? ? []]. Qed.

Definition ex_minted : Redis := (Mint id ex_link_marshal 5 (Some "tok") "new@x.io" (∅ : Redis)).2.

(** Minted, used, used again. *)
Lemma magic_link_signs_in_once_witness :
  exists s, rtc (link_step ToLowerASCII ToLowerASCII id ex_link_marshal ex_link_unmarshal) (link_start 0 ∅) s /\
    length (lk_used s) = 1%nat /\
    (forall t' raw email, (t', raw, email) ∈ lk_used s -> exists t0, (t0, raw, email) ∈ lk_minted s /\ t0 <= t' < t0 + 15 * Minute) /\
    (forall raw, (count_token raw (lk_used s) <= count_token raw (lk_minted s))%nat).
Proof.
  exists (mkLinkState 7 ∅ [(5, "tok", "new@x.io")] [(6, "tok", "new@x.io")]).
  assert (rtc (link_step ToLowerASCII ToLowerASCII id ex_link_marshal ex_link_unmarshal) (link_start 0 ∅)
    (mkLinkState 7 ∅ [(5, "tok", "new@x.io")] [(6, "tok", "new@x.io")])) as Hrun.
  { apply (rtc_l _ _ (mkLinkState 5 ex_minted [(5, "tok", "new@x.io")] [])).
    { apply (step_mint _ _ _ _ _ (link_start 0 ∅) 5 "tok" "new@x.io" ex_minted); [simpl; lia|reflexivity]. }
    apply (rtc_l _ _ (mkLinkState 6 ∅ [(5, "tok", "new@x.io")] [(6, "tok", "new@x.io")])).
    { apply (step_signed_in _ _ _ _ _ (mkLinkState 5 ex_minted [(5, "tok", "new@x.io")] []) 6 "tok" "s" ex_accounts 3 "new@x.io" true
        (resolveEmail ToLowerASCII ToLowerASCII 6 "new@x.io" "s" ex_accounts).2 ∅); [simpl; lia|]. vm_compute. reflexivity. }
    apply rtc_once. apply (step_refused _ _ _ _ _ (mkLinkState 6 ∅ [(5, "tok", "new@x.io")] [(6, "tok", "new@x.io")]) 7 "tok" "s" ex_accounts
      ErrMagicLinkInvalid ex_accounts ∅); [simpl; lia|reflexivity]. }
  split; [exact Hrun|]. split; [reflexivity|].
  apply (magic_link_signs_in_once ToLowerASCII ToLowerASCII id ex_link_marshal ex_link_unmarshal 0 ∅); [done|apply ex_link_codec|intros h; apply lookup_empty|exact Hrun].
Defined.

Definition ex_known (p : string) : bool := String.eqb p "google" || String.eqb p "github".
Definition ex_exchange (p code v n : string) : option Profile := Some (mkProfile p "g9" "EVE@x.io" "Eve" "").
Definition ex_started : Redis :=
  (StartLogin ex_known (fun _ _ _ _ => "https://idp") id ex_flow_marshal 100 (Some "st", Some "no", Some "ve") "google" FlowLogin "/monitors" 0 (∅ : Redis)).2.
Definition ex_callback := HandleCallback ToLowerASCII ToLowerASCII ex_known ex_exchange ex_flow_unmarshal 200 "st" "st" "code" "sfx" ex_accounts ex_started.

(** Eve, known by her address, signs in with Google for the first time. *)
Lemma callback_takes_over_no_identity_witness :
  exists res, ex_callback.1.1 = Ok res /\ cb_UserID res = 2 /\ "st" <> "" /\
    exists raw rec_ p, (kc_GetCache 200 (flowKey "st") ex_started).1 = Ok (Some raw) /\ ex_flow_unmarshal raw = Some rec_ /\
    ex_exchange (fl_Provider rec_) "code" (fl_Verifier rec_) (fl_Nonce rec_) = Some p /\
    cb_ReturnTo res = fl_ReturnTo rec_ /\
    resolved ToLowerASCII (fl_Flow rec_) (fl_LinkUserID rec_) p ex_accounts res ex_callback.1.2 /\
    identity_user (pf_Provider p) (pf_ProviderUserID p) ex_callback.1.2 = Some (cb_UserID res) /\
    identities_grow p (cb_UserID res) ex_accounts ex_callback.1.2.
Proof.
  exists (mkCallback 2 "EVE@x.io" false 0 "/monitors"). split; [vm_compute; reflexivity|]. split; [reflexivity|].
  refine (proj2 (callback_takes_over_no_identity ToLowerASCII ToLowerASCII ex_known ex_exchange ex_flow_unmarshal 200 "st" "st" "code" "sfx"
    ex_accounts ex_started (mkCallback 2 "EVE@x.io" false 0 "/monitors") ex_callback.1.2 ex_callback.2 ex_accounts_awf _)).
  vm_compute. reflexivity.
Defined.

Definition ex_first := resolveEmail ToLowerASCII ToLowerASCII 6 "new@x.io" "s" ex_accounts.

Lemma one_address_is_one_account_witness :
  (forall t sfx, (resolveEmail ToLowerASCII ToLowerASCII t "New@X.io" sfx ex_first.2).1 = Ok (3, "New@X.io", false)) /\
  exists k org, a_orgs ex_accounts !! org = None /\ a_memberships ex_first.2 !! k = Some (mkMembership k org 3 RoleOwner).
Proof.
  destruct (one_address_is_one_account ToLowerASCII ToLowerASCII 6 "new@x.io" "s" ex_accounts 3 "new@x.io" true ex_first.2 "New@X.io"
    ex_accounts_awf ltac:(vm_compute; reflexivity) ltac:(reflexivity)) as (H & _ & _ & Hn).
  split; [exact H|]. exact (proj2 (Hn eq_refl)).
Defined.

Lemma started_login_comes_back_witness :
  local_path (safeReturnTo "/monitors") /\
  ex_callback.1.1 = Ok (mkCallback 2 "EVE@x.io" false 0 "/monitors") /\
  HandleCallback ToLowerASCII ToLowerASCII ex_known ex_exchange ex_flow_unmarshal 700000000000 "st" "st" "code" "sfx" ex_accounts ex_started =
    (Err ErrStateMismatch, ex_accounts, ex_started).
Proof.
  destruct (started_login_comes_back ToLowerASCII ToLowerASCII ex_known (fun _ _ _ _ => "https://idp") ex_exchange id ex_flow_marshal ex_flow_unmarshal
    100 "st" "no" "ve" "google" FlowLogin "/monitors" 0 ∅ ex_started "https://idp" ex_flow_codec ltac:(done) ltac:(vm_compute; reflexivity)) as (H1 & _ & H2).
  split; [exact H1|]. split; [vm_compute; reflexivity|]. refine (H2 700000000000 "code" "sfx" ex_accounts ex_started eq_refl _). lia.
Defined.

(** A control character between the slashes is a local path for the check; a browser that drops it
    reads a host. *)
Example tab_is_local : safeReturnTo (String "/" (String "009" "/evil.example")) = String "/" (String "009" "/evil.example").
Proof. reflexivity. Qed.
