(* ===== verification/Channels.v ===== *)
(** * Channels: notification channels and their secrets
    (src/internal/notify/registry.go, descriptor.go, catalog.go and the descriptors of the
    providers; src/internal/store/channels.go; src/internal/api/channels.go)

    The registry of channel types, a config as the JSON object it is, the encryption of its secret
    values at rest, the table, and the handlers.  The cipher, the quoting of [%q], the rendering
    of [%v] on floats, lists and objects, and what Postgres takes as a row are parameters. *)

From Stdlib Require Import QArith Qround.
From S2P Require Import Prelude Domain GoStrings Store Entitlements Authz Members MonitorApi.
Open Scope Z_scope.

(** ** Config values *)

(** A decoded JSON value, Go's [any]; a number is a float64, a rational here. *)
#[warnings="-register-all"]
Inductive any :=
  | ANil
  | AString (s : string)
  | ANumber (q : Q)
  | ABool (b : bool)
  | AList (l : list any)
  | AMap (m : gmap string any).

Abbreviation Config := (gmap string any) (only parsing).

(** [!present || v == nil || v == ""]. *)
Definition blank (v : option any) : bool :=
  match v with None | Some ANil | Some (AString EmptyString) => true | _ => false end.

Definition min_int64 : Z := - 2 ^ 63.
Definition in_int64 (z : Z) : bool := (min_int64 <=? z) && (z <? 2 ^ 63).

(** [int64(t)]: towards zero; out of range it is the smallest int64, as on amd64. *)
Definition int64_of (q : Q) : Z :=
  let z := Z.quot (Qnum q) (Zpos (Qden q)) in if in_int64 z then z else min_int64.

(** [t == float64(int64(t))]. *)
Definition is_int64 (q : Q) : bool := Qeq_bool q (inject_Z (int64_of q)).

(** ** Descriptors (descriptor.go) *)

Inductive FieldType := FieldString | FieldInt | FieldBool | FieldEnum | FieldStringList | FieldMemberList.

Definition field_type_text (t : FieldType) : string :=
  match t with
  | FieldString => "string" | FieldInt => "int" | FieldBool => "bool" | FieldEnum => "enum"
  | FieldStringList => "stringlist" | FieldMemberList => "memberlist"
  end.

Record ConfigField := mkField {
  cf_Key : string;
  cf_Label : string;
  cf_Type : FieldType;
  cf_Required : bool;
  cf_Secret : bool;
  cf_Enum : list string;
  cf_Default : string;
  cf_Help : string;
}.

(** [Factory] is the [Validate] of the provider it makes; its [Send] is in [Providers]. *)
Record Descriptor := mkDesc {
  de_Type : string;
  de_DisplayName : string;
  de_Capability : string;
  de_ConfigFields : list ConfigField;
  de_Validate : Config -> option string;
}.

Section registry.
(** [fmt.Sprintf] of [%q] on a string and of [%v] on a value. *)
Context (Quote : string -> string) (Sprint : any -> string).

(** [cfgString] (notify.go). *)
Definition cfgString (cfg : Config) (key : string) : string :=
  match cfg !! key with
  | None | Some ANil => ""
  | Some (AString t) => t
  | Some (ANumber q) => if is_int64 q then pretty (int64_of q) else Sprint (ANumber q)
  | Some (ABool b) => if b then "true" else "false"
  | Some v => Sprint v
  end.

(** [toMemberID] (platformemail.go) and the [add] of [parseMemberIDs] (api/channels.go). *)
Definition toMemberID (v : any) : option Z :=
  match v with
  | AString t => Atoi t
  | ANumber q => Some (int64_of q)
  | _ => None
  end.

Definition memberIDs_of (raw : option any) : list Z :=
  match raw with
  | None | Some ANil => []
  | Some (AList l) => omap toMemberID l
  | Some v => omap toMemberID [v]
  end.
Definition memberIDs (cfg : Config) : list Z := memberIDs_of (cfg !! "members").

(** [recipients] (smtp.go). *)
Definition recipients (cfg : Config) : list string :=
  match cfg !! "to" with
  | Some (AString t) => filter (fun p => p <> "") (TrimSpace <$> Split "," t)
  | Some (AList l) =>
      filter (fun p => p <> "") (omap (fun v => match v with AString s => Some (TrimSpace s) | _ => None end) l)
  | _ => []
  end.

(** ** The ten types (the init functions of the provider files) *)

Definition missing (cfg : Config) (key : string) : bool := String.eqb (cfgString cfg key) "".

Definition slack : Descriptor := mkDesc "slack" "Slack" "channel.slack"
  [mkField "webhook_url" "Webhook URL" FieldString true true [] "" "Slack incoming-webhook URL (https)"]
  (fun _ => None).

Definition discord : Descriptor := mkDesc "discord" "Discord" "channel.discord"
  [mkField "webhook_url" "Webhook URL" FieldString true true [] "" "Discord incoming-webhook URL (https)"]
  (fun _ => None).

Definition webhook : Descriptor := mkDesc "webhook" "Webhook" "channel.webhook"
  [mkField "url" "URL" FieldString true true [] "" "absolute https URL the envelope is POSTed to";
   mkField "custom_headers" "Custom headers" FieldStringList false true [] ""
     "optional headers sent with each request; values treated as secret"]
  (fun _ => None).

Definition smtp : Descriptor := mkDesc "smtp" "Email (SMTP)" "channel.smtp"
  [mkField "host" "Host" FieldString true false [] "" "SMTP host";
   mkField "port" "Port" FieldInt true false [] "587" "1..65535, typically 587 or 465";
   mkField "username" "Username" FieldString false false [] "" "SMTP auth user (blank = unauthenticated relay)";
   mkField "password" "Password" FieldString false true [] "" "SMTP auth password";
   mkField "from" "From" FieldString true false [] "" "sender address";
   mkField "to" "To" FieldStringList true false [] "" "one or more recipient addresses";
   mkField "tls" "TLS mode" FieldEnum false false ["starttls"; "implicit"; "none"] "starttls"
     "starttls is recommended; none is discouraged"]
  (fun cfg =>
    if missing cfg "host" then Some "smtp: missing host"
    else if missing cfg "from" then Some "smtp: missing from address"
    else if bool_decide (recipients cfg = []) then Some "smtp: missing recipients" else None).

Definition email : Descriptor := mkDesc "email" "Team email" "channel.email"
  [mkField "members" "Members" FieldMemberList true false [] "" "the org members to email; addresses are looked up at send time"]
  (fun cfg => if bool_decide (memberIDs cfg = []) then Some "email: select at least one member" else None).

Definition pagerduty : Descriptor := mkDesc "pagerduty" "PagerDuty" "channel.pagerduty"
  [mkField "routing_key" "Integration (routing) key" FieldString true true [] "" "Events API v2 integration key"]
  (fun cfg => if missing cfg "routing_key" then Some "pagerduty: missing routing_key" else None).

Definition opsgenie : Descriptor := mkDesc "opsgenie" "Opsgenie" "channel.opsgenie"
  [mkField "api_key" "API key" FieldString true true [] "" "Opsgenie API integration key";
   mkField "region" "Region" FieldEnum false false ["us"; "eu"] "us" "Opsgenie account region (endpoint host)"]
  (fun cfg => if missing cfg "api_key" then Some "opsgenie: missing api_key" else None).

Definition telegram : Descriptor := mkDesc "telegram" "Telegram" "channel.telegram"
  [mkField "bot_token" "Bot token" FieldString true true [] "" "Telegram bot token from BotFather";
   mkField "chat_id" "Chat ID" FieldString true false [] "" "numeric chat id or @channelusername"]
  (fun cfg =>
    if missing cfg "bot_token" then Some "telegram: missing bot_token"
    else if missing cfg "chat_id" then Some "telegram: missing chat_id" else None).

Definition teams : Descriptor := mkDesc "teams" "Microsoft Teams" "channel.teams"
  [mkField "webhook_url" "Workflow webhook URL" FieldString true true [] ""
     "Power Automate Workflows incoming-webhook URL (O365 connectors are retired)"]
  (fun cfg => if missing cfg "webhook_url" then Some "teams: missing webhook_url" else None).

Definition twilio : Descriptor := mkDesc "twilio" "SMS (Twilio)" "channel.twilio"
  [mkField "account_sid" "Account SID" FieldString true false [] "" "Twilio Account SID";
   mkField "auth_token" "Auth token" FieldString true true [] "" "Twilio auth token";
   mkField "from" "From number" FieldString true false [] "" "Twilio sender number (E.164)";
   mkField "to" "To number" FieldString true false [] "" "recipient number (E.164)"]
  (fun cfg =>
    if missing cfg "account_sid" || missing cfg "auth_token" then Some "twilio: missing account_sid or auth_token"
    else if missing cfg "from" || missing cfg "to" then Some "twilio: missing from or to number" else None).

(** ** The registry (registry.go) *)

Abbreviation Registry := (gmap string Descriptor) (only parsing).

Definition NewRegistry : Registry := ∅.
Definition Register (d : Descriptor) (r : Registry) : Registry := <[de_Type d := d]> r.

(** The package-level registry, once every init function ran. *)
Definition Default : Registry :=
  fold_right Register NewRegistry [discord; email; opsgenie; pagerduty; slack; smtp; teams; telegram; twilio; webhook].

Definition type_le (d d' : Descriptor) : bool := String.leb (de_Type d) (de_Type d').
Definition List (r : Registry) : list Descriptor := sort_by type_le (snd <$> map_to_list r).

Definition SecretKeys (r : Registry) (t : string) : list string :=
  match r !! t with
  | None => []
  | Some d => cf_Key <$> filter (fun f => cf_Secret f = true) (de_ConfigFields d)
  end.

Definition isIntLike (v : any) : bool :=
  match v with ANumber _ => true | AString t => bool_decide (is_Some (Atoi t)) | _ => false end.
Definition isListLike (v : any) : bool :=
  match v with AList _ | AMap _ => true | _ => false end.

(** [%v] of a list of strings. *)
Definition list_text (l : list string) : string := "[" +:+ Join " " l +:+ "]".

Definition validateField (f : ConfigField) (cfg : Config) : option string :=
  let raw := cfg !! cf_Key f in
  if blank raw then
    if cf_Required f then Some ("field " +:+ Quote (cf_Key f) +:+ " is required") else None
  else
    let v := default ANil raw in
    match cf_Type f with
    | FieldInt => if isIntLike v then None else Some ("field " +:+ Quote (cf_Key f) +:+ " must be an integer")
    | FieldBool =>
        match v with
        | ABool _ | AString _ => None
        | _ => Some ("field " +:+ Quote (cf_Key f) +:+ " must be a bool")
        end
    | FieldEnum =>
        let got := cfgString cfg (cf_Key f) in
        if existsb (String.eqb got) (cf_Enum f) then None
        else Some ("field " +:+ Quote (cf_Key f) +:+ " must be one of " +:+ list_text (cf_Enum f) +:+ ", got " +:+ Quote got)
    | FieldStringList | FieldMemberList =>
        if isListLike v then None else Some ("field " +:+ Quote (cf_Key f) +:+ " must be a list")
    | FieldString => None
    end.

Fixpoint validateFields (fs : list ConfigField) (cfg : Config) : option string :=
  match fs with
  | [] => None
  | f :: fs' => match validateField f cfg with Some e => Some e | None => validateFields fs' cfg end
  end.

Definition ValidateConfig (r : Registry) (t : string) (cfg : Config) : option string :=
  match r !! t with
  | None => Some ("unknown channel type " +:+ Quote t)
  | Some d => match validateFields (de_ConfigFields d) cfg with Some e => Some e | None => de_Validate d cfg end
  end.

Definition AvailableFor (r : Registry) (allowed : gset string) : list Descriptor :=
  filter (fun d => de_Type d ∈ allowed) (List r).

Definition CheckAllowed (t : string) (allowed : gset string) : option string :=
  if bool_decide (t ∈ allowed) then None else Some ("channel type " +:+ Quote t +:+ " is not included in your plan").
End registry.

(** ** The catalog (catalog.go) *)

Record LocalizedString := mkLocalized { ls_Code : string; ls_Message : string }.

Record CatalogField := mkCatalogField {
  kf_Key : string; kf_Type : string; kf_Required : bool; kf_Secret : bool; kf_Enum : list string; kf_Default : string;
  kf_Label : LocalizedString; kf_Help : LocalizedString;
}.

Record CatalogEntry := mkCatalogEntry {
  ke_Type : string; ke_DisplayName : string; ke_Available : bool; ke_ConfigFields : list CatalogField;
}.

Definition catalog_field (typ : string) (f : ConfigField) : CatalogField :=
  let code part := "channel." +:+ typ +:+ ".config." +:+ cf_Key f +:+ part in
  mkCatalogField (cf_Key f) (field_type_text (cf_Type f)) (cf_Required f) (cf_Secret f) (cf_Enum f) (cf_Default f)
    (mkLocalized (code ".label") (cf_Label f))
    (if String.eqb (cf_Help f) "" then mkLocalized "" "" else mkLocalized (code ".help") (cf_Help f)).

Definition Catalog (r : gmap string Descriptor) (allowed : gset string) : list CatalogEntry :=
  (fun d => mkCatalogEntry (de_Type d) (de_DisplayName d) (bool_decide (de_Type d ∈ allowed))
              (catalog_field (de_Type d) <$> de_ConfigFields d)) <$> List r.

(** ** The channels table (store/channels.go) *)

Record Channel := mkChannel {
  ch_ID : Z;
  ch_OrgID : Z;
  ch_Name : string;
  ch_Type : string;
  ch_Config : Config;
  ch_Enabled : bool;
}.

(** A row; the config holds the secrets as they are at rest. *)
Record ChannelRow := mkChannelRow {
  cr_OrgID : Z; cr_Name : string; cr_Type : string; cr_Config : Config; cr_Enabled : bool;
}.

Record CDB := mkCDB { caccounts : MDB; channels : gmap Z ChannelRow; seq_channels : Z }.
Definition set_channels (m : gmap Z ChannelRow) (db : CDB) : CDB := mkCDB (caccounts db) m (seq_channels db).
Definition next_channel (db : CDB) : CDB := mkCDB (caccounts db) (channels db) (seq_channels db + 1).

(** A map rewritten value by value, with the error of a value that fails. *)
Section traverse.
Context {E V W : Type}.
Implicit Types (f : string -> V -> result E W).

Definition failures f (m : gmap string V) : list E :=
  omap (fun kv => match f kv.1 kv.2 with Ok _ => None | Err e => Some e end) (map_to_list m).

Definition traverse f (m : gmap string V) : result E (gmap string W) :=
  match failures f m with
  | e :: _ => Err e
  | [] => Ok (map_imap (fun k v => match f k v with Ok w => Some w | Err _ => None end) m)
  end.
End traverse.

Section secrets.
Context (cipher : option secretCipher) (secretKeysFor : string -> list string).

(** The loop both directions share: [f] on the value of each secret key that is present and not nil. *)
Fixpoint map_secrets (f : string -> any -> result dbError any) (keys : list string) (cfg : Config) : result dbError Config :=
  match keys with
  | [] => Ok cfg
  | key :: keys' =>
      match cfg !! key with
      | None | Some ANil => map_secrets f keys' cfg
      | Some v => v' ← f key v; map_secrets f keys' (<[key := v']> cfg)
      end
  end.

(** A non-empty string, or the non-empty strings of an object. *)
Definition on_strings (g : option string -> string -> result dbError string) (v : any) : result dbError any :=
  let on hk v := match v with
                 | AString s => if String.eqb s "" then Ok v else AString <$> g hk s
                 | _ => Ok v
                 end in
  match v with
  | AMap m => AMap <$> traverse (fun hk hv => on (Some hk) hv) m
  | _ => on None v
  end.

Definition decryptChannelConfig (t : string) (cfg : Config) : result dbError Config :=
  match cipher with
  | None => Ok cfg
  | Some c => map_secrets (fun _ => on_strings (fun _ s => Decrypt c s)) (secretKeysFor t) cfg
  end.

(** The nonce of a call is named by the config key and, inside an object, the key there. *)
Definition EncryptChannelConfig (nonce : string -> option string -> Z) (t : string) (cfg : Config) : result dbError Config :=
  match cipher with
  | None => Ok cfg
  | Some c => map_secrets (fun key => on_strings (fun hk s => Encrypt c (nonce key hk) s)) (secretKeysFor t) cfg
  end.

Definition scanChannel (id : Z) (r : ChannelRow) : result dbError Channel :=
  cfg ← decryptChannelConfig (cr_Type r) (cr_Config r);
  Ok (mkChannel id (cr_OrgID r) (cr_Name r) (cr_Type r) cfg (cr_Enabled r)).

Fixpoint scan_all (rows : list (Z * ChannelRow)) : result dbError (list Channel) :=
  match rows with
  | [] => Ok []
  | (id, r) :: rows' => ch ← scanChannel id r; chs ← scan_all rows'; Ok (ch :: chs)
  end.

(** ORDER BY id. *)
Definition by_id {V} (x y : Z * V) : bool := x.1 <=? y.1.
Definition rows_by_id (P : Z -> ChannelRow -> bool) (db : CDB) : list (Z * ChannelRow) :=
  sort_by by_id (filter (fun kv => P kv.1 kv.2 = true) (map_to_list (channels db))).

Definition attached (orgID monitorID : Z) (mon : DB) (id : Z) (r : ChannelRow) : bool :=
  match monitors mon !! monitorID with
  | Some m =>
      (m_OrgID (mr_monitor m) =? orgID) && (cr_OrgID r =? orgID) && cr_Enabled r &&
      bool_decide (id ∈ m_ChannelIDs (mr_monitor m))
  | None => false
  end.

Definition GetChannelsForMonitor (orgID monitorID : Z) (mon : DB) (db : CDB) : result dbError (list Channel) :=
  scan_all (rows_by_id (attached orgID monitorID mon) db).

Definition ListChannels (orgID : Z) (db : CDB) : result dbError (list Channel) :=
  scan_all (rows_by_id (fun _ r => cr_OrgID r =? orgID) db).

Definition channel_row (orgID id : Z) (db : CDB) : option ChannelRow :=
  match channels db !! id with
  | Some r => if cr_OrgID r =? orgID then Some r else None
  | None => None
  end.

Definition GetChannel (orgID id : Z) (db : CDB) : result dbError Channel :=
  match channel_row orgID id db with
  | Some r => scanChannel id r
  | None => Err ErrNoRows
  end.

(** Whether Postgres takes the texts and the JSON of a row: it has no zero byte. *)
Context (accepts : ChannelRow -> bool).

(** The identity is drawn before the row is refused; the org must exist. *)
Definition CreateChannel_tx (nonce : string -> option string -> Z) (ch : Channel) (db : CDB) : result dbError Z * CDB :=
  match EncryptChannelConfig nonce (ch_Type ch) (ch_Config ch) with
  | Err e => (Err e, db)
  | Ok cfg =>
      let row := mkChannelRow (ch_OrgID ch) (ch_Name ch) (ch_Type ch) cfg (ch_Enabled ch) in
      if negb (accepts row) then (Err ErrInvalidText, db)
      else if bool_decide (organizations (caccounts db) !! ch_OrgID ch = None) then (Err ErrForeignKey, next_channel db)
      else (Ok (seq_channels db), set_channels (<[seq_channels db := row]> (channels db)) (next_channel db))
  end.

Definition UpdateChannel_tx (nonce : string -> option string -> Z) (ch : Channel) (db : CDB) : result dbError unit * CDB :=
  match EncryptChannelConfig nonce (ch_Type ch) (ch_Config ch) with
  | Err e => (Err e, db)
  | Ok cfg =>
      let row := mkChannelRow (ch_OrgID ch) (ch_Name ch) (ch_Type ch) cfg (ch_Enabled ch) in
      if negb (accepts row) then (Err ErrInvalidText, db)
      else
        match channel_row (ch_OrgID ch) (ch_ID ch) db with
        | Some _ => (Ok tt, set_channels (<[ch_ID ch := row]> (channels db)) db)
        | None => (Err ErrNoRows, db)
        end
  end.

Definition DeleteChannel_tx (orgID id : Z) (db : CDB) : bool * CDB :=
  match channel_row orgID id db with
  | Some _ => (true, set_channels (delete id (channels db)) db)
  | None => (false, db)
  end.
End secrets.

(** ** Members of a Team email channel (memberships.go) *)

(** The active members of the org among the ids: a membership and an active user. *)
Definition active_among (orgID : Z) (userIDs : list Z) (db : MDB) (m : Membership) : bool :=
  (mb_OrgID m =? orgID) && bool_decide (mb_UserID m ∈ userIDs) &&
  match users db !! mb_UserID m with Some u => us_Active u | None => false end.

(** ORDER BY email, the collation taken as the order of the bytes. *)
Definition ActiveMemberEmails (orgID : Z) (userIDs : list Z) (db : MDB) : list string :=
  sort_by String.leb (omap (fun km => us_Email <$> users db !! mb_UserID km.2) (rows_where (active_among orgID userIDs db) (memberships db))).

Fixpoint dedupe (seen : gset Z) (ids : list Z) : list Z :=
  match ids with
  | [] => []
  | id :: ids' => if bool_decide (id ∈ seen) then dedupe seen ids' else id :: dedupe ({[ id ]} ∪ seen) ids'
  end.
Definition dedupeIDs (ids : list Z) : list Z := dedupe ∅ ids.

(** count(DISTINCT m.user_id) against the distinct ids. *)
Definition AreActiveMembers (orgID : Z) (userIDs : list Z) (db : MDB) : bool :=
  match userIDs with
  | [] => false
  | _ =>
      let matched : gset Z := list_to_set ((fun km => mb_UserID km.2) <$> rows_where (active_among orgID userIDs db) (memberships db)) in
      Z.of_nat (size matched) =? Z.of_nat (length (dedupeIDs userIDs))
  end.

(** ** The api (api/channels.go) *)

Record ChannelInput := mkChannelInput { ci_Name : string; ci_Type : string; ci_Enabled : bool; ci_Config : option Config }.
Record ChannelDTO := mkChannelDTO {
  cd_Id : string; cd_OrgId : string; cd_Name : string; cd_Type : string; cd_Enabled : bool; cd_Config : Config;
}.

(** The catalog on the wire: optionals are absent when empty. *)
Record CatalogFieldDTO := mkCatalogFieldDTO {
  fd_Key : string; fd_Type : string; fd_Required : bool; fd_Secret : bool; fd_Label : LocalizedString;
  fd_Default : option string; fd_Enum : option (list string); fd_Help : option LocalizedString;
}.
Record CatalogEntryDTO := mkCatalogEntryDTO {
  ed_Type : string; ed_DisplayName : string; ed_Available : bool; ed_ConfigFields : list CatalogFieldDTO;
  ed_UnavailableReason : option LocalizedString;
}.

Definition catalogFieldDTO (f : CatalogField) : CatalogFieldDTO :=
  mkCatalogFieldDTO (kf_Key f) (kf_Type f) (kf_Required f) (kf_Secret f) (kf_Label f)
    (if String.eqb (kf_Default f) "" then None else Some (kf_Default f))
    (match kf_Enum f with [] => None | e => Some e end)
    (if String.eqb (ls_Code (kf_Help f)) "" && String.eqb (ls_Message (kf_Help f)) "" then None else Some (kf_Help f)).

Definition catalogEntryDTO (e : CatalogEntry) : CatalogEntryDTO :=
  mkCatalogEntryDTO (ke_Type e) (ke_DisplayName e) (ke_Available e) (catalogFieldDTO <$> ke_ConfigFields e)
    (if ke_Available e then None
     else Some (mkLocalized ("channel." +:+ ke_Type e +:+ ".unavailable") "This channel type is not available on your plan yet.")).

(** [ChannelType.Valid] (apigen). *)
Definition ChannelTypes : list string :=
  ["discord"; "email"; "opsgenie"; "pagerduty"; "slack"; "smtp"; "teams"; "telegram"; "twilio"; "webhook"].
Definition Valid (t : string) : bool := existsb (String.eqb t) ChannelTypes.

Fixpoint mergeKeptSecrets (inn existing : Config) (secretKeys : list string) : Config :=
  match secretKeys with
  | [] => inn
  | key :: keys' =>
      let inn' :=
        if negb (blank (inn !! key)) then inn
        else if blank (existing !! key) then inn
        else match existing !! key with Some old => <[key := old]> inn | None => inn end in
      mergeKeptSecrets inn' existing keys'
  end.

Definition stripConfigErrors (errs : gmap string string) : gmap string string := delete "config" errs.

Definition redact_header (v : any) : any :=
  match v with AString s => if String.eqb s "" then v else AString "" | _ => v end.
Definition redact_value (v : any) : any :=
  match v with
  | AString s => if String.eqb s "" then v else AString ""
  | AMap m => AMap (redact_header <$> m)
  | _ => v
  end.

Fixpoint redactSecretConfig (cfg : Config) (secretKeys : list string) : Config :=
  match secretKeys with
  | [] => cfg
  | key :: keys' =>
      match cfg !! key with
      | None | Some ANil => redactSecretConfig cfg keys'
      | Some v => redactSecretConfig (<[key := redact_value v]> cfg) keys'
      end
  end.

Definition channelDTO (secretKeysFor : string -> list string) (ch : Channel) : ChannelDTO :=
  mkChannelDTO (pretty (ch_ID ch)) (pretty (ch_OrgID ch)) (ch_Name ch) (ch_Type ch) (ch_Enabled ch)
    (redactSecretConfig (ch_Config ch) (secretKeysFor (ch_Type ch))).

Inductive CResponse :=
  | CPlain (r : Response)
  | CInvalid (fields : gmap string string)
  | CChannel (r : Response) (ch : ChannelDTO)
  | CList (chs : list ChannelDTO)
  | CCatalog (entries : list CatalogEntryDTO).

(** The intent a Team email test publishes: channel, name, org, address. *)
Record ChannelTestRequested := mkTestRequested { ct_ChannelID : Z; ct_ChannelName : string; ct_OrgID : Z; ct_RequestedByEmail : string }.

Section handlers.
Context (Quote : string -> string) (Sprint : any -> string) (cipher : option secretCipher) (accepts : ChannelRow -> bool).
Context (registry : gmap string Descriptor).
Abbreviation keysFor := (SecretKeys registry).

Definition allowedChannelTypes (orgID : Z) (db : MDB) : gset string :=
  list_to_set (ChannelTypesAllowed (orgPlan orgID db)).

Definition validateChannelConfig (typ : string) (cfg : Config) : gmap string string :=
  match ValidateConfig Quote Sprint registry typ cfg with Some e => {[ "config" := e ]} | None => ∅ end.

(** The query does not fail here, so its error message has no case. *)
Definition validateEmailMembers (orgID : Z) (cfg : Config) (db : MDB) : string :=
  match memberIDs_of (cfg !! "members") with
  | [] => ""
  | ids => if AreActiveMembers orgID ids db then "" else "one or more selected members are not active members of this org"
  end.

Definition channelFromInput (orgID : Z) (i : ChannelInput) (db : MDB) : string * string * Config * gmap string string :=
  let name := TrimSpace (ci_Name i) in
  let typ := ci_Type i in
  let cfg := default ∅ (ci_Config i) in
  let errs := field "name" (when (String.eqb name "") "name is required") ∅ in
  let errs := field "type" (if negb (Valid typ) then "unknown channel type"
                            else when (negb (bool_decide (typ ∈ allowedChannelTypes orgID db))) "channel type is not included in your plan") errs in
  let errs := if Valid typ then validateChannelConfig typ cfg ∪ errs else errs in
  let errs := if Valid typ && String.eqb typ "email" then field "members" (validateEmailMembers orgID cfg db) errs else errs in
  (name, typ, cfg, errs).

Definition channel_right (p : option Principal) (db : CDB) (k : Principal -> CResponse * CDB) : CResponse * CDB :=
  match humanInOrg p with
  | None => (CPlain R401, db)
  | Some (q, actor) =>
      let d := Can actor ActionManageChannels (org_resource (pr_OrgID q)) in
      if negb (de_Allowed d) then (CPlain (R403 (de_Reason d)), db) else k q
  end.

Definition GetChannelTypes (p : option Principal) (db : CDB) : CResponse * CDB :=
  channel_right p db (fun q =>
    (CCatalog (catalogEntryDTO <$> Catalog registry (allowedChannelTypes (pr_OrgID q) (caccounts db))), db)).

Definition api_ListChannels (p : option Principal) (db : CDB) : CResponse * CDB :=
  channel_right p db (fun q =>
    match ListChannels cipher keysFor (pr_OrgID q) db with
    | Err _ => (CPlain R500, db)
    | Ok chs => (CList (channelDTO keysFor <$> chs), db)
    end).

Definition CreateChannel (nonce : string -> option string -> Z) (p : option Principal) (body : option ChannelInput) (db : CDB) :
    CResponse * CDB :=
  channel_right p db (fun q =>
    match body with
    | None => (CPlain (R422 "body required"), db)
    | Some i =>
        let '(name, typ, cfg, errs) := channelFromInput (pr_OrgID q) i (caccounts db) in
        if negb (bool_decide (errs = ∅)) then (CInvalid errs, db)
        else
          let ch := mkChannel 0 (pr_OrgID q) name typ cfg (ci_Enabled i) in
          match CreateChannel_tx cipher keysFor accepts nonce ch db with
          | (Err _, db') => (CPlain R500, db')
          | (Ok id, db') =>
              (CChannel R201 (channelDTO keysFor (mkChannel id (pr_OrgID q) name typ cfg (ci_Enabled i))), db')
          end
    end).

(** The config and errors an update goes on with: secrets kept when the type is unchanged. *)
Definition update_config (existing : Channel) (typ : string) (cfg : Config) (errs : gmap string string) :
    Config * gmap string string :=
  if negb (bool_decide (errs = ∅)) then
    if String.eqb typ (ch_Type existing) then
      let cfg' := mergeKeptSecrets cfg (ch_Config existing) (keysFor typ) in
      (cfg', if bool_decide (validateChannelConfig typ cfg' = ∅) then stripConfigErrors errs else errs)
    else (cfg, errs)
  else if String.eqb typ (ch_Type existing) then (mergeKeptSecrets cfg (ch_Config existing) (keysFor typ), errs)
  else (cfg, errs).

Definition UpdateChannel (nonce : string -> option string -> Z) (p : option Principal) (id : string) (body : option ChannelInput)
    (db : CDB) : CResponse * CDB :=
  channel_right p db (fun q =>
    match body with
    | None => (CPlain (R422 "body required"), db)
    | Some i =>
        match parseMonitorID id with
        | None => (CPlain R404, db)
        | Some cid =>
            match GetChannel cipher keysFor (pr_OrgID q) cid db with
            | Err ErrNoRows => (CPlain R404, db)
            | Err _ => (CPlain R500, db)
            | Ok existing =>
                let '(name, typ, cfg, errs) := channelFromInput (pr_OrgID q) i (caccounts db) in
                let '(cfg, errs) := update_config existing typ cfg errs in
                if negb (bool_decide (errs = ∅)) then (CInvalid errs, db)
                else
                  let ch := mkChannel (ch_ID existing) (ch_OrgID existing) name typ cfg (ci_Enabled i) in
                  match UpdateChannel_tx cipher keysFor accepts nonce ch db with
                  | (Err ErrNoRows, db') => (CPlain R404, db')
                  | (Err _, db') => (CPlain R500, db')
                  | (Ok _, db') => (CChannel R200 (channelDTO keysFor ch), db')
                  end
            end
        end
    end).

Definition DeleteChannel (p : option Principal) (id : string) (db : CDB) : CResponse * CDB :=
  channel_right p db (fun q =>
    match parseMonitorID id with
    | None => (CPlain R204, db)
    | Some cid => (CPlain R204, (DeleteChannel_tx (pr_OrgID q) cid db).2)
    end).

(** [email] is the principal's address, [publish] the e-mail producer if there is one, [tester]
    the manager's [Test]; with the intents published. *)
Definition TestChannel (publish : option (ChannelTestRequested -> bool)) (tester : Channel -> option string)
    (p : option Principal) (email : string) (id : string) (db : CDB) : CResponse * list ChannelTestRequested :=
  match humanInOrg p with
  | None => (CPlain R401, [])
  | Some (q, actor) =>
      let d := Can actor ActionManageChannels (org_resource (pr_OrgID q)) in
      if negb (de_Allowed d) then (CPlain (R403 (de_Reason d)), [])
      else
        match parseMonitorID id with
        | None => (CPlain R404, [])
        | Some cid =>
            match GetChannel cipher keysFor (pr_OrgID q) cid db with
            | Err ErrNoRows => (CPlain R404, [])
            | Err _ => (CPlain R500, [])
            | Ok ch =>
                if String.eqb (ch_Type ch) "email" then
                  if String.eqb email "" then (CPlain (R422 "a Team email test can only be sent by a signed-in user"), [])
                  else
                    match publish with
                    | None => (CPlain R204, [])
                    | Some pub =>
                        let intent := mkTestRequested (ch_ID ch) (ch_Name ch) (pr_OrgID q) email in
                        if pub intent then (CPlain R204, [intent])
                        else (CPlain (R422 "could not queue test message"), [])
                    end
                else
                  match tester ch with
                  | Some e => (CPlain (R422 ("could not deliver test message: " +:+ e)), [])
                  | None => (CPlain R204, [])
                  end
            end
        end
  end.
End handlers.
