(* ===== verification/ChannelsInv.v ===== *)
(** * ChannelsInv: what the channel code guarantees

    Pointwise descriptions of the loops over secret keys; encryption at rest is inverted by
    reading; what a response shows depends on no secret string; reading a channel and writing it
    back; every stored channel stays valid for its type; calls stay in their org. *)

From Stdlib Require Import QArith.
From S2P Require Import Prelude Domain GoStrings Store StoreInv Entitlements Authz Members MonitorApi MonitorApiInv Channels.
Open Scope Z_scope.

(** ** Rewriting a map value by value *)

Lemma failures_nil {E V W} (f : string -> V -> result E W) m :
  failures f m = [] <-> forall k v, m !! k = Some v -> is_ok (f k v) = true.
Proof.
  unfold failures. split.
  - intros Hf k v Hk%elem_of_map_to_list. destruct (f k v) as [|e] eqn:E1; [done|]. exfalso.
    assert (e ∈ ([] : list E)) as Hin; [|by apply elem_of_nil in Hin].
    rewrite <- Hf. apply list_elem_of_omap. exists (k, v). simpl. by rewrite E1.
  - intros Hok. apply elem_of_nil_inv. intros e ([k v] & Hk%elem_of_map_to_list & He)%list_elem_of_omap.
    simpl in He. specialize (Hok k v Hk). by destruct (f k v).
Qed.

Lemma traverse_Ok {E V W} (f : string -> V -> result E W) m m' :
  traverse f m = Ok m' <->
  forall k, match m !! k with Some v => exists w, f k v = Ok w /\ m' !! k = Some w | None => m' !! k = None end.
Proof.
  unfold traverse. split.
  - destruct (failures f m) eqn:Hf; [|done]. intros [= <-] k. rewrite map_lookup_imap.
    destruct (m !! k) as [v|] eqn:Hk; [|done]. pose proof (proj1 (failures_nil f m) Hf k v Hk) as Ho.
    simpl. destruct (f k v) as [w|]; [|done]. by exists w.
  - intros Hm. destruct (failures f m) as [|e l] eqn:Hf.
    + f_equal. apply map_eq. intros k. rewrite map_lookup_imap. specialize (Hm k).
      destruct (m !! k); simpl; [|done]. destruct Hm as (w & -> & ->). done.
    + assert (failures f m = []) as Hn; [|congruence]. apply failures_nil. intros k v Hk. specialize (Hm k).
      rewrite Hk in Hm. by destruct Hm as (w & -> & _).
Qed.

(** ** The loop over the secret keys, pointwise *)

Definition skipped (v : option any) : bool := match v with None | Some ANil => true | _ => false end.

Lemma map_secrets_Ok f keys cfg cfg' : NoDup keys ->
  map_secrets f keys cfg = Ok cfg' <->
  forall k, if decide (k ∈ keys)
            then match cfg !! k with
                 | None | Some ANil => cfg' !! k = cfg !! k
                 | Some v => exists v', f k v = Ok v' /\ cfg' !! k = Some v'
                 end
            else cfg' !! k = cfg !! k.
Proof.
  intros Hnd. revert cfg. induction Hnd as [|key keys Hkey Hnd IH]; intros cfg.
  - simpl. split; [by intros [= ->]|]. intros Hk. f_equal. apply map_eq. intros k. symmetry. apply Hk.
  - assert (forall k, k <> key -> (if decide (k ∈ key :: keys) then true else false) = (if decide (k ∈ keys) then true else false)) as Hd.
    { intros k Hne. repeat case_decide; set_solver. }
    simpl. destruct (skipped (cfg !! key)) eqn:Hsk.
    + transitivity (map_secrets f keys cfg = Ok cfg'); [destruct (cfg !! key) as [[]|]; done|].
      rewrite IH. split; intros Hall k; specialize (Hall k).
      * destruct (decide (k = key)) as [->|Hne].
        -- rewrite decide_False in Hall by done. rewrite decide_True by left. destruct (cfg !! key) as [[]|]; done.
        -- specialize (Hd k Hne). repeat case_decide; done.
      * destruct (decide (k = key)) as [->|Hne].
        -- rewrite decide_False by done. rewrite decide_True in Hall by left. destruct (cfg !! key) as [[]|]; done.
        -- specialize (Hd k Hne). repeat case_decide; done.
    + destruct (cfg !! key) as [v|] eqn:Hv; [|done].
      transitivity (exists v', f key v = Ok v' /\ map_secrets f keys (<[key := v']> cfg) = Ok cfg').
      { assert (v <> ANil) by (by intros ->). destruct v; try done; apply result_bind_ok. }
      split.
      * intros (v' & Hf & Hm) k. rewrite IH in Hm. specialize (Hm k). destruct (decide (k = key)) as [->|Hne].
        -- rewrite decide_False in Hm by done. rewrite lookup_insert_eq in Hm. rewrite decide_True by left. rewrite Hv.
           destruct v; try done; eauto.
        -- rewrite lookup_insert_ne in Hm by done. specialize (Hd k Hne). repeat case_decide; done.
      * intros Hall. pose proof (Hall key) as Hk. rewrite decide_True, Hv in Hk by left.
        assert (exists v', f key v = Ok v' /\ cfg' !! key = Some v') as (v' & Hf & Hc) by (destruct v; done).
        exists v'. split; [done|]. rewrite IH. intros k. destruct (decide (k = key)) as [->|Hne].
        -- rewrite decide_False by done. by rewrite lookup_insert_eq.
        -- rewrite lookup_insert_ne by done. specialize (Hall k). specialize (Hd k Hne). repeat case_decide; done.
Qed.

Lemma merge_lookup inn existing keys k :
  mergeKeptSecrets inn existing keys !! k =
  if bool_decide (k ∈ keys) && blank (inn !! k) && negb (blank (existing !! k)) then existing !! k else inn !! k.
Proof.
  revert inn. induction keys as [|key keys IH]; intros inn; simpl; [done|]. rewrite IH. clear IH.
  destruct (decide (k = key)) as [->|Hne].
  - rewrite (bool_decide_eq_true_2 (key ∈ key :: keys)) by left. simpl.
    destruct (blank (inn !! key)) eqn:Hb; simpl; [|rewrite Hb; by rewrite andb_false_r].
    destruct (blank (existing !! key)) eqn:He; simpl; [by rewrite Hb, !andb_false_r|].
    destruct (existing !! key) as [old|]; [|done]. by rewrite lookup_insert_eq, He, andb_false_r.
  - rewrite (bool_decide_ext (k ∈ key :: keys) (k ∈ keys)) by set_solver.
    assert (forall inn', (if negb (blank (inn !! key)) then inn
      else if blank (existing !! key) then inn
      else match existing !! key with Some old => <[key:=old]> inn | None => inn end) = inn' -> inn' !! k = inn !! k) as Hin.
    { intros inn' <-. repeat case_match; [done..| |done]. by apply lookup_insert_ne. }
    by rewrite (Hin _ eq_refl).
Qed.

Lemma redact_idem v : redact_value (redact_value v) = redact_value v.
Proof.
  destruct v as [|[]| | | |m]; simpl; try done. f_equal. rewrite <- map_fmap_compose. apply map_fmap_ext.
  intros ? [|[]| | | |] _; done.
Qed.

Lemma redact_lookup cfg keys k :
  redactSecretConfig cfg keys !! k = if bool_decide (k ∈ keys) then redact_value <$> cfg !! k else cfg !! k.
Proof.
  revert cfg. induction keys as [|key keys IH]; intros cfg; [done|].
  assert (redactSecretConfig cfg (key :: keys) = redactSecretConfig (match cfg !! key with Some v => <[key := redact_value v]> cfg | None => cfg end) keys) as ->.
  { simpl. destruct (cfg !! key) as [[]|] eqn:E; try done. simpl. by rewrite insert_id. }
  rewrite IH. clear IH. destruct (decide (k = key)) as [->|Hne].
  - rewrite (bool_decide_eq_true_2 (key ∈ key :: keys)) by left.
    destruct (cfg !! key) as [v|] eqn:E; [|rewrite E; by case_bool_decide]. rewrite lookup_insert_eq. simpl.
    case_bool_decide; [|done]. f_equal. apply redact_idem.
  - rewrite (bool_decide_ext (k ∈ key :: keys) (k ∈ keys)) by set_solver.
    destruct (cfg !! key); [|done]. by rewrite lookup_insert_ne.
Qed.

(** ** Encryption at rest *)

Section at_rest.
Context (c : secretCipher) `{!CipherLaws c}.

Lemma on_strings_round_trip g v v' :
  (forall hk s e, g hk s = Ok e -> Decrypt c e = Ok s /\ e <> "") ->
  on_strings g v = Ok v' -> on_strings (fun _ s => Decrypt c s) v' = Ok v.
Proof.
  intros Hg. assert (forall hk s v',
    (if String.eqb s "" then Ok (AString s) else AString <$> g hk s) = Ok v' ->
    exists s', v' = AString s' /\ (if String.eqb s' "" then Ok (AString s') else AString <$> Decrypt c s') = Ok (AString s)) as Hs.
  { intros hk s w. destruct (String.eqb_spec s "") as [->|]; [intros [= <-]; by exists ""|].
    destruct (g hk s) as [e|] eqn:E; [|done]. intros [= <-]. exists e. split; [done|].
    apply Hg in E as [-> He]. by rewrite (proj2 (String.eqb_neq _ _) He). }
  unfold on_strings. destruct v as [|s| | | |m]; try (by intros [= <-]).
  - intros (s' & -> & H)%Hs. exact H.
  - destruct (traverse _ m) as [m'|] eqn:Ht; [|done]. intros [= <-].
    assert (traverse (fun (_ : string) hv => match hv with
      | AString s => if String.eqb s "" then Ok hv else AString <$> Decrypt c s | _ => Ok hv end) m' = Ok m) as ->; [|done].
    rewrite traverse_Ok in Ht. rewrite traverse_Ok. intros k. specialize (Ht k).
    destruct (m !! k) as [w|]; [|by rewrite Ht]. destruct Ht as (w' & Hw & ->). exists w. split; [|done].
    destruct w as [|s| | | |]; try (by injection Hw as <-). apply Hs in Hw as (s' & -> & Hw). exact Hw.
Qed.

Lemma on_strings_nil g v : on_strings g v = Ok ANil -> v = ANil.
Proof.
  unfold on_strings. destruct v as [|s| | | |m]; try done.
  - destruct (String.eqb s ""); [done|]. by destruct (g None s).
  - by destruct (traverse _ m).
Qed.
End at_rest.

(** Reading what was stored gives the config that was given, whatever its values. *)
Lemma decrypt_encrypt_config cipher keysFor nonce t cfg stored :
  (forall c, cipher = Some c -> CipherLaws c) -> NoDup (keysFor t) ->
  EncryptChannelConfig cipher keysFor nonce t cfg = Ok stored ->
  decryptChannelConfig cipher keysFor t stored = Ok cfg.
Proof.
  intros Hlaws Hnd. unfold EncryptChannelConfig, decryptChannelConfig. destruct cipher as [c|]; [|by intros [= <-]].
  pose proof (Hlaws c eq_refl) as Hc. rewrite !map_secrets_Ok by done. intros Henc k. specialize (Henc k).
  case_decide; [|done]. assert (forall v v', on_strings (fun hk s => Encrypt c (nonce k hk) s) v = Ok v' ->
      on_strings (fun _ s => Decrypt c s) v' = Ok v) as Hrt.
  { intros v v'. apply on_strings_round_trip. intros hk s e He. split; [by eapply decrypt_encrypt|by eapply encrypt_nonempty]. }
  destruct (cfg !! k) as [v|] eqn:Hv; [|by rewrite Henc].
  assert (forall w : any, w = ANil \/ w <> ANil) as Hnil by (intros []; (by left) || (by right)).
  destruct (Hnil v) as [->|Hn]; [by rewrite Henc|].
  assert (exists v', on_strings (fun hk s => Encrypt c (nonce k hk) s) v = Ok v' /\ stored !! k = Some v') as (v' & He & ->)
    by (destruct v; done).
  destruct (Hnil v') as [->|Hn']; [|destruct v'; try done; eauto].
  exfalso. by apply Hn, (on_strings_nil _ v He).
Qed.

(** ** What a response shows *)

(** Values that differ only in strings, at the top or directly inside an object. *)
Inductive alike : any -> any -> Prop :=
  | alike_same v : alike v v
  | alike_strings s s' : alike (AString s) (AString s').
Inductive hidden : any -> any -> Prop :=
  | hidden_value v v' : alike v v' -> hidden v v'
  | hidden_object m m' : (forall k, option_Forall2 alike (m !! k) (m' !! k)) -> hidden (AMap m) (AMap m').

(** Configs that differ only in the secret strings of these keys. *)
Definition hidden_in (keys : list string) (cfg cfg' : gmap string any) : Prop :=
  forall k, if bool_decide (k ∈ keys) then option_Forall2 hidden (cfg !! k) (cfg' !! k) else cfg !! k = cfg' !! k.

Lemma redact_header_alike v v' : redact_header v = redact_header v' <-> alike v v'.
Proof.
  split.
  - destruct v as [|[]| | | |], v' as [|[]| | | |]; simpl; intros [=]; subst; constructor.
  - intros [w|[] []]; done.
Qed.

Lemma redact_value_hidden v v' : redact_value v = redact_value v' <-> hidden v v'.
Proof.
  split.
  - destruct v as [|[]| | | |m], v' as [|[]| | | |m']; simpl; try (intros [=]; subst; by do 2 constructor).
    intros [= Hm]. apply hidden_object. intros k. assert (redact_header <$> m !! k = redact_header <$> m' !! k) as Hk.
    { by rewrite <- !lookup_fmap, Hm. }
    destruct (m !! k), (m' !! k); simplify_eq/=; constructor. by apply redact_header_alike.
  - intros [w w' [|[] []]|m m' Hm]; try done. simpl. f_equal. apply map_eq. intros k. rewrite !lookup_fmap.
    destruct (Hm k); simpl; [|done]. f_equal. by apply redact_header_alike.
Qed.

Lemma redact_hidden keys cfg cfg' :
  redactSecretConfig cfg keys = redactSecretConfig cfg' keys <-> hidden_in keys cfg cfg'.
Proof.
  rewrite map_eq_iff. unfold hidden_in. apply forall_proper. intros k. rewrite !redact_lookup. case_bool_decide; [|done].
  destruct (cfg !! k), (cfg' !! k); simpl; split; intros Hr; simplify_eq/=; try (by inversion Hr); try constructor.
  - by apply redact_value_hidden.
  - inversion Hr; subst. f_equal. by apply redact_value_hidden.
Qed.

(** *** Rows in the order of their ids *)

Lemma rows_by_id_elem P db id r : (id, r) ∈ rows_by_id P db <-> channels db !! id = Some r /\ P id r = true.
Proof.
  unfold rows_by_id. rewrite sort_by_perm, list_elem_of_filter, elem_of_map_to_list. naive_solver.
Qed.

(** Two tables with the same ids, zipped, list their selected rows in step. *)
Lemma rows_by_id_zip P P' db db' (z : gmap Z (ChannelRow * ChannelRow)) :
  channels db = fst <$> z -> channels db' = snd <$> z ->
  (forall id rr, z !! id = Some rr -> P id rr.1 = P' id rr.2) ->
  exists l, rows_by_id P db = prod_map id fst <$> l /\ rows_by_id P' db' = prod_map id snd <$> l /\
    forall kr, kr ∈ l -> z !! kr.1 = Some kr.2.
Proof.
  intros Hz Hz' HP. set (sel := filter (fun kv : Z * (ChannelRow * ChannelRow) => P kv.1 kv.2.1 = true) (map_to_list z)).
  assert (forall B (f : ChannelRow * ChannelRow -> B) (Q : Z -> B -> bool) (l : list (Z * (ChannelRow * ChannelRow))),
    (forall kv, kv ∈ l -> Q kv.1 (f kv.2) = P kv.1 kv.2.1) ->
    filter (fun kv : Z * B => Q kv.1 kv.2 = true) (prod_map id f <$> l) =
    prod_map id f <$> filter (fun kv : Z * (ChannelRow * ChannelRow) => P kv.1 kv.2.1 = true) l) as Hf.
  { intros B f Q l. induction l as [|[k v] l IH]; intros HQ; [done|]. rewrite fmap_cons, !filter_cons. simpl.
    pose proof (HQ (k, v) (list_elem_of_here _ _)) as Hk. simpl in Hk. rewrite Hk, IH; [|intros; apply HQ; by right].
    by case_decide. }
  exists (sort_by by_id sel). unfold rows_by_id. rewrite Hz, Hz', !map_to_list_fmap. split_and!.
  - rewrite Hf by (intros [k v] Hk%elem_of_map_to_list; done). by apply sort_by_fmap.
  - rewrite Hf by (intros [k v] Hk%elem_of_map_to_list; symmetry; by apply HP). by apply sort_by_fmap.
  - intros [k v]. rewrite sort_by_perm. unfold sel. by intros [_ Hk%elem_of_map_to_list]%list_elem_of_filter.
Qed.

Section responses.
Context (cipher : option secretCipher) (registry : gmap string Descriptor).
Abbreviation keysFor := (SecretKeys registry).

(** Rows that agree but for the secret strings of their configs. *)
Definition row_hidden (r r' : ChannelRow) : Prop :=
  cr_OrgID r = cr_OrgID r' /\ cr_Name r = cr_Name r' /\ cr_Type r = cr_Type r' /\ cr_Enabled r = cr_Enabled r' /\
  exists cfg cfg', decryptChannelConfig cipher keysFor (cr_Type r) (cr_Config r) = Ok cfg /\
    decryptChannelConfig cipher keysFor (cr_Type r') (cr_Config r') = Ok cfg' /\ hidden_in (keysFor (cr_Type r)) cfg cfg'.

Definition tables_hidden (db db' : CDB) : Prop :=
  caccounts db = caccounts db' /\ forall id, option_Forall2 row_hidden (channels db !! id) (channels db' !! id).

Lemma scan_hidden id r r' : row_hidden r r' ->
  exists ch ch', scanChannel cipher keysFor id r = Ok ch /\ scanChannel cipher keysFor id r' = Ok ch' /\
    channelDTO keysFor ch = channelDTO keysFor ch'.
Proof.
  intros (Ho & Hn & Ht & He & cfg & cfg' & Hc & Hc' & Hh). unfold scanChannel. rewrite Hc, Hc'. simpl.
  do 2 eexists. split_and!; [done..|]. unfold channelDTO. simpl. rewrite Ho, Hn, Ht, He. f_equal.
  rewrite Ht in Hh. by apply redact_hidden.
Qed.

Lemma scan_all_hidden (l : list (Z * (ChannelRow * ChannelRow))) : (forall kr, kr ∈ l -> row_hidden kr.2.1 kr.2.2) ->
  exists chs chs', scan_all cipher keysFor (prod_map id fst <$> l) = Ok chs /\ scan_all cipher keysFor (prod_map id snd <$> l) = Ok chs' /\
    channelDTO keysFor <$> chs = channelDTO keysFor <$> chs'.
Proof.
  induction l as [|[k [r r']] l IH]; intros Hl; [by exists [], []|].
  destruct (scan_hidden k r r') as (ch & ch' & Hs & Hs' & Hd); [apply (Hl (k, (r, r'))); left|].
  destruct IH as (chs & chs' & Ha & Ha' & Hds); [intros; apply Hl; by right|].
  rewrite !fmap_cons. unfold prod_map at 1 3. simpl. rewrite Hs, Hs'. simpl. rewrite Ha, Ha'. simpl.
  exists (ch :: chs), (ch' :: chs'). split_and!; [done..|]. rewrite !fmap_cons. by rewrite Hd, Hds.
Qed.

(** C5: what the channel list shows of the stored configs is nothing of their secrets: two
    tables that differ only in the strings held by secret fields, or directly inside a secret
    object, give the same response to every caller. *)
Theorem channel_list_hides_secrets p db db' :
  tables_hidden db db' -> (api_ListChannels cipher registry p db).1 = (api_ListChannels cipher registry p db').1.
Proof.
  intros [Ha Ht]. unfold api_ListChannels, channel_right. destruct (humanInOrg p) as [[q actor]|]; [|done].
  destruct (de_Allowed _); [|done]. simpl. unfold ListChannels.
  destruct (rows_by_id_zip (fun _ r => cr_OrgID r =? pr_OrgID q) (fun _ r => cr_OrgID r =? pr_OrgID q) db db'
    (map_zip (channels db) (channels db'))) as (l & -> & -> & Hl).
  - apply map_eq. intros id. rewrite lookup_fmap, map_lookup_zip_with. by destruct (Ht id).
  - apply map_eq. intros id. rewrite lookup_fmap, map_lookup_zip_with. by destruct (Ht id).
  - intros id rr. rewrite map_lookup_zip_with. destruct (Ht id) as [r r' (Ho & _)|]; [|done]. intros [= <-]. simpl. by rewrite Ho.
  - destruct (scan_all_hidden l) as (chs & chs' & -> & -> & Hd).
    + intros [k [r r']] Hk%Hl. simpl in *. rewrite map_lookup_zip_with in Hk. destruct (Ht k) as [? ? Hr|]; [|done].
      by injection Hk as <- <-.
    + simpl. by rewrite Hd.
Qed.
End responses.

(** ** Valid configs *)

Section validity.
Context (Quote : string -> string) (Sprint : any -> string).

Lemma validateField_local f cfg cfg' :
  cfg !! cf_Key f = cfg' !! cf_Key f -> validateField Quote Sprint f cfg = validateField Quote Sprint f cfg'.
Proof. intros Hk. unfold validateField, cfgString. by rewrite Hk. Qed.

Lemma validateFields_None fs cfg :
  validateFields Quote Sprint fs cfg = None <-> forall f, f ∈ fs -> validateField Quote Sprint f cfg = None.
Proof.
  induction fs as [|f fs IH]; simpl; [set_solver|]. destruct (validateField Quote Sprint f cfg) eqn:E.
  - split; [done|]. intros Hall. specialize (Hall f (list_elem_of_here _ _)). congruence.
  - rewrite IH. set_solver.
Qed.

(** What the channel code relies on of a registry: the secret keys of a type are distinct, their
    fields are strings or lists, and giving a secret another non-blank value does not break a
    provider's own validation. *)
Class RegistryLaws (r : gmap string Descriptor) : Prop := {
  rl_distinct : forall t, NoDup (SecretKeys r t);
  rl_kinds : forall t d f, r !! t = Some d -> f ∈ de_ConfigFields d -> cf_Key f ∈ SecretKeys r t ->
    cf_Type f = FieldString \/ cf_Type f = FieldStringList;
  rl_secrets : forall t d cfg cfg', r !! t = Some d -> de_Validate d cfg = None ->
    (forall k, cfg' !! k = cfg !! k \/ (k ∈ SecretKeys r t /\ blank (cfg' !! k) = false)) -> de_Validate d cfg' = None;
}.

(** A valid config whose secrets are replaced by non-blank values valid for their fields. *)
Lemma valid_mix r `{!RegistryLaws r} t cfg cfg' :
  ValidateConfig Quote Sprint r t cfg = None ->
  (forall k, cfg' !! k = cfg !! k \/
    (k ∈ SecretKeys r t /\ blank (cfg' !! k) = false /\
     forall d f, r !! t = Some d -> f ∈ de_ConfigFields d -> cf_Key f = k -> validateField Quote Sprint f cfg' = None)) ->
  ValidateConfig Quote Sprint r t cfg' = None.
Proof.
  unfold ValidateConfig. destruct (r !! t) as [d|] eqn:Hd; [|done].
  destruct (validateFields Quote Sprint (de_ConfigFields d) cfg) eqn:Hf; [done|]. intros Hv Hmix.
  rewrite validateFields_None in Hf. rewrite (proj2 (validateFields_None _ _)).
  - eapply rl_secrets; [done|exact Hv|]. intros k. destruct (Hmix k) as [|(? & ? & _)]; [by left|by right].
  - intros f Hin. destruct (Hmix (cf_Key f)) as [Hk|(_ & _ & Hk)]; [|by apply (Hk d)].
    rewrite (validateField_local f cfg' cfg) by done. by apply Hf.
Qed.

Lemma valid_field r t cfg d f :
  ValidateConfig Quote Sprint r t cfg = None -> r !! t = Some d -> f ∈ de_ConfigFields d ->
  validateField Quote Sprint f cfg = None.
Proof.
  unfold ValidateConfig. intros Hv Hd. rewrite Hd in Hv. destruct (validateFields _ _ _ cfg) eqn:Hf; [done|].
  by apply validateFields_None.
Qed.

(** Keeping the stored secrets of a valid config keeps a valid config valid. *)
Lemma merge_valid r `{!RegistryLaws r} t cfg existing :
  ValidateConfig Quote Sprint r t cfg = None -> ValidateConfig Quote Sprint r t existing = None ->
  ValidateConfig Quote Sprint r t (mergeKeptSecrets cfg existing (SecretKeys r t)) = None.
Proof.
  intros Hc He. apply (valid_mix r t cfg); [done|]. intros k. pose proof (merge_lookup cfg existing (SecretKeys r t) k) as Hm.
  destruct (bool_decide (k ∈ SecretKeys r t) && blank (cfg !! k) && negb (blank (existing !! k))) eqn:Hk; [right|by left].
  reflect_tests. rewrite Hm. split_and!; [done..|]. intros d f Hd Hf Hfk.
  rewrite (validateField_local f _ existing); [by eapply valid_field|]. by rewrite Hfk.
Qed.
End validity.

(** The built-in registry: [%v] renders no value as the empty string. *)
Lemma cfgString_nonblank Sprint cfg k :
  (forall v, Sprint v <> "") -> blank (cfg !! k) = false -> cfgString Sprint cfg k <> "".
Proof.
  intros Hs. unfold cfgString, blank. destruct (cfg !! k) as [[|[]|q|[]| |]|]; try done; intros _; try apply Hs.
  destruct (is_int64 q); [|apply Hs]. intros Hp. pose proof (Atoi_pretty_int64 (int64_of q)) as Ha. rewrite Hp in Ha.
  discriminate Ha. unfold int64_of, in_int64, min_int64. cbv zeta.
  destruct (_ && _) eqn:E; [reflect_tests; lia|lia].
Qed.

Lemma registered l t d : (fold_right Register NewRegistry l : gmap string Descriptor) !! t = Some d -> d ∈ l /\ de_Type d = t.
Proof.
  induction l as [|d' l IH]; simpl; [unfold NewRegistry; by rewrite lookup_empty|]. unfold Register at 1.
  rewrite lookup_insert_Some. intros [[<- <-]|[_ Hl%IH]]; [split; [left|done]|]. split; [right; apply Hl|apply Hl].
Qed.

(** The secrets a provider's validation looks at are looked at for being blank only. *)
Lemma missing_mix Sprint cfg cfg' k :
  (forall v, Sprint v <> "") -> cfg' !! k = cfg !! k \/ blank (cfg' !! k) = false ->
  missing Sprint cfg k = false -> missing Sprint cfg' k = false.
Proof.
  intros Hs Hk Hm. unfold missing in *. apply String.eqb_neq. destruct Hk as [Hk|Hk]; [|by apply cfgString_nonblank].
  apply String.eqb_neq in Hm. unfold cfgString in *. by rewrite Hk.
Qed.

#[export] Instance default_laws Sprint : (forall v, Sprint v <> "") -> RegistryLaws (Default Sprint).
Proof.
  intros Hs. split.
  - intros t. unfold SecretKeys. destruct (Default Sprint !! t) as [d|] eqn:Hd; [|constructor].
    apply registered in Hd as [Hd _]. apply list_elem_of_In in Hd. simpl in Hd.
    repeat destruct Hd as [<-|Hd]; try done; simpl; apply (bool_decide_unpack _); vm_compute; done.
  - intros t d f Hd Hf Hk. pose proof Hd as [Hin <-]%registered. unfold SecretKeys in Hk. rewrite Hd in Hk. clear Hd.
    apply list_elem_of_In in Hin, Hf, Hk. simpl in Hin.
    repeat destruct Hin as [<-|Hin]; try done; simpl in Hf; repeat destruct Hf as [<-|Hf]; simpl in Hk; naive_solver.
  - intros t d cfg cfg' Hd Hv Hmix. pose proof Hd as [Hin <-]%registered. unfold SecretKeys in Hmix. rewrite Hd in Hmix.
    assert (forall k, missing Sprint cfg k = false -> missing Sprint cfg' k = false) as Hm.
    { intros k. apply missing_mix; [done|]. destruct (Hmix k) as [|[_ ?]]; auto. }
    apply list_elem_of_In in Hin. simpl in Hin.
    assert (forall k, k ∉ cf_Key <$> filter (fun f => cf_Secret f = true) (de_ConfigFields d) -> cfg' !! k = cfg !! k) as Hpub.
    { intros k Hk. by destruct (Hmix k) as [|[? _]]. }
    repeat destruct Hin as [<-|Hin]; try done; cbn [de_Validate discord email opsgenie pagerduty slack smtp teams telegram twilio webhook] in *;
      unfold memberIDs, recipients in *; rewrite ?(Hpub "members"), ?(Hpub "to") by (apply (bool_decide_unpack _); vm_compute; done);
      repeat match goal with
      | H : (if _ then Some _ else _) = None |- _ => case_match; [discriminate H|]
      | H : _ || _ = false |- _ => apply orb_false_iff in H as [? ?]
      end; by rewrite ?Hm by done.
Qed.

(** ** Stored channels stay valid *)

Lemma delete_field k n m errs : k <> n -> delete k (field n m errs) = field n m (delete k errs).
Proof. intros Hk. unfold field. case_match; [done|]. by rewrite delete_insert_ne. Qed.

Lemma union_empty_iff (m1 m2 : gmap string string) : m1 ∪ m2 = ∅ <-> m1 = ∅ /\ m2 = ∅.
Proof.
  split; [|intros [-> ->]; by rewrite (left_id_L ∅ (∪))].
  intros Hu. split; apply map_empty; intros k; pose proof (f_equal (.!! k) Hu) as Hk; rewrite lookup_empty in Hk;
    apply lookup_union_None in Hk; apply Hk.
Qed.

Section stored.
Context (Quote : string -> string) (Sprint : any -> string) (cipher : option secretCipher) (accepts : ChannelRow -> bool).
Context (registry : gmap string Descriptor).
Abbreviation keysFor := (SecretKeys registry).
Abbreviation valid := (ValidateConfig Quote Sprint registry).

Lemma validateChannelConfig_empty t cfg : validateChannelConfig Quote Sprint registry t cfg = ∅ <-> valid t cfg = None.
Proof.
  unfold validateChannelConfig. destruct (valid t cfg) as [e|]; split; done.
Qed.

(** What an input without errors, or with none but for its config, satisfies. *)
Record input_ok (orgID : Z) (i : ChannelInput) (a : MDB) : Prop := {
  io_name : TrimSpace (ci_Name i) <> "";
  io_type : Valid (ci_Type i) = true;
  io_plan : ci_Type i ∈ allowedChannelTypes orgID a;
  io_members : ci_Type i = "email" -> validateEmailMembers orgID (default ∅ (ci_Config i)) a = "";
}.

(** The errors of an input, with [v] as those of its config. *)
Definition errs_with (orgID : Z) (i : ChannelInput) (a : MDB) (v : gmap string string) : gmap string string :=
  let typ := ci_Type i in
  let errs := field "name" (when (String.eqb (TrimSpace (ci_Name i)) "") "name is required") ∅ in
  let errs := field "type" (if negb (Valid typ) then "unknown channel type"
                            else when (negb (bool_decide (typ ∈ allowedChannelTypes orgID a))) "channel type is not included in your plan") errs in
  let errs := if Valid typ then v ∪ errs else errs in
  if Valid typ && String.eqb typ "email" then field "members" (validateEmailMembers orgID (default ∅ (ci_Config i)) a) errs else errs.

Lemma errs_with_empty orgID i a v : errs_with orgID i a v = ∅ <-> input_ok orgID i a /\ v = ∅.
Proof.
  unfold errs_with. destruct (Valid (ci_Type i)) eqn:Hv; cbn [andb negb].
  - assert (v ∪ field "type" (when (negb (bool_decide (ci_Type i ∈ allowedChannelTypes orgID a))) "channel type is not included in your plan")
      (field "name" (when (String.eqb (TrimSpace (ci_Name i)) "") "name is required") ∅) = ∅ <->
      v = ∅ /\ ci_Type i ∈ allowedChannelTypes orgID a /\ TrimSpace (ci_Name i) <> "") as Hbase.
    { rewrite union_empty_iff, !field_empty, !when_empty, negb_false_iff, bool_decide_eq_true, String.eqb_neq by done. tauto. }
    destruct (String.eqb_spec (ci_Type i) "email"); rewrite ?field_empty, Hbase; (split; [|intros [[] ->]; tauto]).
    + intros (? & -> & ? & ?). by split.
    + intros (-> & ? & ?). by split.
  - rewrite field_empty. split; [by intros [? _]|]. intros [[] _]. congruence.
Qed.

Lemma strip_errs_with orgID i a v : stripConfigErrors (errs_with orgID i a v) = errs_with orgID i a (delete "config" v).
Proof.
  unfold errs_with, stripConfigErrors. destruct (Valid (ci_Type i)), (String.eqb (ci_Type i) "email"); cbn [andb negb];
    by rewrite ?delete_field, ?delete_union, ?delete_field, ?delete_empty by done.
Qed.

Lemma channelFromInput_errs orgID i a :
  channelFromInput Quote Sprint registry orgID i a =
  (TrimSpace (ci_Name i), ci_Type i, default ∅ (ci_Config i),
   errs_with orgID i a (validateChannelConfig Quote Sprint registry (ci_Type i) (default ∅ (ci_Config i)))).
Proof. done. Qed.

(** What an update goes on with: an accepted input, and a config valid for its type if the one it
    takes its secrets from is. *)
Lemma update_config_ok `{!RegistryLaws registry} orgID i a existing cfg' :
  valid (ch_Type existing) (ch_Config existing) = None ->
  update_config Quote Sprint registry existing (ci_Type i) (default ∅ (ci_Config i))
    (errs_with orgID i a (validateChannelConfig Quote Sprint registry (ci_Type i) (default ∅ (ci_Config i)))) = (cfg', ∅) ->
  input_ok orgID i a /\ valid (ci_Type i) cfg' = None.
Proof.
  intros He. unfold update_config.
  case_bool_decide as Hemp; simpl; destruct (String.eqb_spec (ci_Type i) (ch_Type existing)) as [Ht|Ht].
  - intros [= <- _]. apply errs_with_empty in Hemp as [Hi Hv%validateChannelConfig_empty]. split; [done|].
    apply merge_valid; [done..|]. by rewrite Ht.
  - intros [= <- _]. by apply errs_with_empty in Hemp as [Hi Hv%validateChannelConfig_empty].
  - case_bool_decide as Hv; intros [= <- Hs]; [|done]. rewrite strip_errs_with in Hs.
    apply errs_with_empty in Hs as [Hi _]. by rewrite validateChannelConfig_empty in Hv.
  - by intros [= <- ?].
Qed.

(** A row that reads as a named channel with a config valid for its type. *)
Definition row_ok (r : ChannelRow) : Prop :=
  Valid (cr_Type r) = true /\ cr_Name r <> "" /\ TrimSpace (cr_Name r) = cr_Name r /\
  exists cfg, decryptChannelConfig cipher keysFor (cr_Type r) (cr_Config r) = Ok cfg /\ valid (cr_Type r) cfg = None.

Definition channels_ok (db : CDB) : Prop :=
  forall id r, channels db !! id = Some r -> id < seq_channels db /\ row_ok r.

(** The calls of the api, and the accounts changing in any way between them. *)
Inductive channel_step : CDB -> CDB -> Prop :=
  | step_create nonce p body db : channel_step db (CreateChannel Quote Sprint cipher accepts registry nonce p body db).2
  | step_update nonce p id body db : channel_step db (UpdateChannel Quote Sprint cipher accepts registry nonce p id body db).2
  | step_delete p id db : channel_step db (DeleteChannel p id db).2
  | step_accounts a db : channel_step db (mkCDB a (channels db) (seq_channels db)).

(** The transactions, on a channel that is valid. *)
Definition channel_ok (ch : Channel) : Prop :=
  Valid (ch_Type ch) = true /\ ch_Name ch <> "" /\ TrimSpace (ch_Name ch) = ch_Name ch /\ valid (ch_Type ch) (ch_Config ch) = None.

Lemma stored_row_ok `{!RegistryLaws registry} nonce ch cfg :
  (forall c, cipher = Some c -> CipherLaws c) -> channel_ok ch ->
  EncryptChannelConfig cipher keysFor nonce (ch_Type ch) (ch_Config ch) = Ok cfg ->
  row_ok (mkChannelRow (ch_OrgID ch) (ch_Name ch) (ch_Type ch) cfg (ch_Enabled ch)).
Proof.
  intros Hc (Ht & Hn & Hs & Hv) He. split_and!; [done..|]. exists (ch_Config ch). simpl. split; [|done].
  eapply decrypt_encrypt_config; [done|apply (rl_distinct (r := registry))|done].
Qed.

Lemma create_tx_ok `{!RegistryLaws registry} nonce ch db :
  (forall c, cipher = Some c -> CipherLaws c) -> channel_ok ch -> channels_ok db ->
  channels_ok (CreateChannel_tx cipher keysFor accepts nonce ch db).2.
Proof.
  intros Hc Hch Hdb. unfold CreateChannel_tx. destruct (EncryptChannelConfig _ _ _ _ _) as [cfg|] eqn:He; [|done].
  destruct (accepts _); simpl; [|done]. case_bool_decide; simpl.
  - intros id r Hr. apply Hdb in Hr as [? ?]. simpl. split; [lia|done].
  - intros id r. simpl. rewrite lookup_insert_Some. intros [[<- <-]|[_ Hr]].
    + split; [lia|]. by eapply stored_row_ok.
    + apply Hdb in Hr as [? ?]. split; [lia|done].
Qed.

Lemma update_tx_ok `{!RegistryLaws registry} nonce ch db :
  (forall c, cipher = Some c -> CipherLaws c) -> channel_ok ch -> channels_ok db ->
  channels_ok (UpdateChannel_tx cipher keysFor accepts nonce ch db).2.
Proof.
  intros Hc Hch Hdb. unfold UpdateChannel_tx. destruct (EncryptChannelConfig _ _ _ _ _) as [cfg|] eqn:He; [|done].
  destruct (accepts _); simpl; [|done]. unfold channel_row. destruct (channels db !! ch_ID ch) as [old|] eqn:Ho; [|done].
  destruct (_ =? _); [|done]. intros id r. simpl. rewrite lookup_insert_Some. intros [[<- <-]|[_ Hr]]; [|by apply Hdb].
  split; [by apply (Hdb _ old)|]. by eapply stored_row_ok.
Qed.

Lemma read_channel_ok org id db ch : channels_ok db -> GetChannel cipher keysFor org id db = Ok ch ->
  ch_ID ch = id /\ ch_OrgID ch = org /\ channel_ok ch.
Proof.
  intros Hdb. unfold GetChannel, channel_row. destruct (channels db !! id) as [r|] eqn:Hr; [|done].
  destruct (Z.eqb_spec (cr_OrgID r) org) as [<-|]; [|done]. apply Hdb in Hr as [_ (Ht & Hn & Hs & cfg & Hd & Hv)].
  unfold scanChannel. rewrite Hd. simpl. by intros [= <-].
Qed.

Lemma channel_step_ok `{!RegistryLaws registry} db db' :
  (forall c, cipher = Some c -> CipherLaws c) -> channel_step db db' -> channels_ok db -> channels_ok db'.
Proof.
  intros Hc Hstep Hdb.
  destruct Hstep as [nonce p body db|nonce p id body db|p id db|a db].
  - unfold CreateChannel, channel_right. destruct (humanInOrg p) as [[q actor]|]; [|done]. destruct (de_Allowed _); [|done]. cbn [negb].
    destruct body as [i|]; [|done]. rewrite channelFromInput_errs. case_bool_decide as He; [|done]. cbn [negb].
    apply errs_with_empty in He as [[Hn Ht _ _] Hv%validateChannelConfig_empty]. cbv zeta.
    match goal with |- context [CreateChannel_tx _ _ _ _ ?ch _] => pose proof (create_tx_ok nonce ch db Hc) as Hok end.
    destruct (CreateChannel_tx _ _ _ _ _ db) as [[] db1]; apply Hok; try done; split_and!; try done; apply TrimSpace_idem.
  - unfold UpdateChannel, channel_right. destruct (humanInOrg p) as [[q actor]|]; [|done]. destruct (de_Allowed _); [|done]. cbn [negb].
    destruct body as [i|]; [|done]. destruct (parseMonitorID id) as [cid|]; [|done].
    destruct (GetChannel _ _ _ _ db) as [existing|[]] eqn:Hg; try done.
    apply (read_channel_ok _ _ _ _ Hdb) in Hg as (_ & _ & _ & _ & _ & Hex). rewrite channelFromInput_errs.
    destruct (update_config _ _ _ _ _ _ _) as [cfg errs] eqn:Hu. case_bool_decide as He; [subst errs|done]. cbn [negb].
    apply (update_config_ok _ _ _ _ _ Hex) in Hu as [[Hn Ht _ _] Hv]. cbv zeta.
    match goal with |- context [UpdateChannel_tx _ _ _ _ ?ch _] => pose proof (update_tx_ok nonce ch db Hc) as Hok end.
    destruct (UpdateChannel_tx _ _ _ _ _ db) as [[|[]] db1]; apply Hok; try done; split_and!; try done; apply TrimSpace_idem.
  - unfold DeleteChannel, channel_right. destruct (humanInOrg p) as [[q actor]|]; [|done]. destruct (de_Allowed _); [|done]. cbn [negb].
    destruct (parseMonitorID id) as [cid|]; [|done]. unfold DeleteChannel_tx. destruct (channel_row _ _ _); [|done].
    intros id' r. simpl. rewrite lookup_delete_Some. intros [_ Hr]. by apply Hdb.
  - done.
Qed.

(** Whatever calls are made, in whatever order and whatever happens to the accounts between
    them, every stored channel has a name and a known type, its config can be decrypted, and the
    decrypted config passes the validation of its type, also after updates that keep secrets. *)
Theorem stored_channels_stay_valid `{!RegistryLaws registry} db db' :
  (forall c, cipher = Some c -> CipherLaws c) -> rtc channel_step db db' -> channels_ok db -> channels_ok db'.
Proof.
  intros Hc. induction 1 as [|db db1 db2 Hstep _ IH]; [done|]. intros Hdb. apply IH. by eapply channel_step_ok.
Qed.
End stored.

(** ** Reading a channel and writing it back *)

(** The config with the string values of its secret objects blanked. *)
Definition blank_headers (keys : list string) (cfg : gmap string any) : gmap string any :=
  map_imap (fun k v => Some (if bool_decide (k ∈ keys) then match v with AMap m => AMap (redact_header <$> m) | _ => v end else v)) cfg.

Lemma blank_headers_lookup keys cfg k :
  blank_headers keys cfg !! k =
  (fun v => if bool_decide (k ∈ keys) then match v with AMap m => AMap (redact_header <$> m) | _ => v end else v) <$> cfg !! k.
Proof. unfold blank_headers. rewrite map_lookup_imap. by destruct (cfg !! k). Qed.

(** Taking the secrets blanked by redaction from the stored config restores all but those values. *)
Lemma merge_redacted keys cfg : mergeKeptSecrets (redactSecretConfig cfg keys) cfg keys = blank_headers keys cfg.
Proof.
  apply map_eq. intros k. rewrite merge_lookup, !redact_lookup, blank_headers_lookup. case_bool_decide; simpl; [|by destruct (cfg !! k)].
  destruct (cfg !! k) as [[|[]| | | |m]|]; done.
Qed.

Lemma blank_headers_redacted keys cfg : redactSecretConfig (blank_headers keys cfg) keys = redactSecretConfig cfg keys.
Proof.
  apply map_eq. intros k. rewrite !redact_lookup, blank_headers_lookup. case_bool_decide; [|by destruct (cfg !! k)].
  destruct (cfg !! k) as [[|[]| | | |m]|]; try done. simpl. do 2 f_equal. rewrite <- map_fmap_compose. apply map_fmap_ext.
  intros ? [|[]| | | |] _; done.
Qed.

Lemma blank_headers_valid Quote Sprint r `{!RegistryLaws r} t cfg :
  ValidateConfig Quote Sprint r t cfg = None -> ValidateConfig Quote Sprint r t (blank_headers (SecretKeys r t) cfg) = None.
Proof.
  intros Hv. apply (valid_mix Quote Sprint r t cfg); [done|]. intros k. rewrite blank_headers_lookup.
  case_bool_decide as Hk; [|left; by destruct (cfg !! k)].
  destruct (cfg !! k) as [[| | | | |m]|] eqn:Hc; [by left..| |by left]. right. split_and!; [done..|].
  intros d f Hd Hf <-. unfold validateField. rewrite blank_headers_lookup, bool_decide_eq_true_2, Hc by done. simpl.
  destruct (rl_kinds t d f Hd Hf Hk) as [-> | ->]; done.
Qed.

Lemma traverse_total {E V W} (f : string -> V -> result E W) m :
  (forall k v, is_ok (f k v) = true) -> is_ok (traverse f m) = true.
Proof. intros Hf. unfold traverse. rewrite (proj2 (failures_nil f m)); [done|]. auto. Qed.

Lemma on_strings_total g v : (forall hk s, is_ok (g hk s) = true) -> is_ok (on_strings g v) = true.
Proof.
  intros Hg. assert (forall hk s, is_ok (AString <$> g hk s) = true) as Hs.
  { intros hk s. pose proof (Hg hk s). by destruct (g hk s). }
  unfold on_strings. destruct v as [|s| | | |m]; try done; [by destruct (String.eqb s "")|].
  match goal with |- is_ok (AMap <$> traverse ?f m) = true => pose proof (traverse_total f m) as Ht end.
  destruct (traverse _ m); [done|]. apply Ht. intros hk [|s| | | |]; try done. by destruct (String.eqb s "").
Qed.

Lemma map_secrets_total f keys cfg : (forall k v, is_ok (f k v) = true) -> is_ok (map_secrets f keys cfg) = true.
Proof.
  intros Hf. revert cfg. induction keys as [|key keys IH]; intros cfg; [done|]. simpl.
  destruct (cfg !! key) as [v|]; [|done]. pose proof (Hf key v) as Hv. destruct v; try apply IH; destruct (f key _); try done; apply IH.
Qed.

Lemma encrypt_total cipher keysFor nonce t cfg :
  (forall c n s, cipher = Some c -> is_ok (Encrypt c n s) = true) ->
  exists cfg', EncryptChannelConfig cipher keysFor nonce t cfg = Ok cfg'.
Proof.
  intros Henc. assert (is_ok (EncryptChannelConfig cipher keysFor nonce t cfg) = true) as Hok.
  { unfold EncryptChannelConfig. destruct cipher as [c|]; [|done]. apply map_secrets_total. intros. apply on_strings_total. auto. }
  destruct (EncryptChannelConfig _ _ _ _ _); [eauto|done].
Qed.

Section edit.
Context (Quote : string -> string) (Sprint : any -> string) (cipher : option secretCipher) (accepts : ChannelRow -> bool).
Context (registry : gmap string Descriptor).
Abbreviation keysFor := (SecretKeys registry).

(** The body a client sends back after reading a channel. *)
Definition input_of (d : ChannelDTO) : ChannelInput := mkChannelInput (cd_Name d) (cd_Type d) (cd_Enabled d) (Some (cd_Config d)).

(** The config an update with the redacted config goes on with, and its errors. *)
Lemma update_config_redacted `{!RegistryLaws registry} orgID ch a :
  channel_ok Quote Sprint registry ch -> ch_Type ch ∈ allowedChannelTypes orgID a ->
  (ch_Type ch = "email" -> validateEmailMembers orgID (cd_Config (channelDTO keysFor ch)) a = "") ->
  let i := input_of (channelDTO keysFor ch) in
  update_config Quote Sprint registry ch (ci_Type i) (default ∅ (ci_Config i))
    (errs_with orgID i a (validateChannelConfig Quote Sprint registry (ci_Type i) (default ∅ (ci_Config i)))) =
  (blank_headers (keysFor (ch_Type ch)) (ch_Config ch), ∅).
Proof.
  intros (Ht & Hn & Hs & Hv) Hp Hm i. assert (input_ok orgID i a) as Hi by (split; simpl; [by rewrite Hs|done..]).
  unfold update_config. simpl (ci_Type i). simpl (default _ _). rewrite String.eqb_refl, merge_redacted.
  rewrite (bool_decide_eq_true_2 (validateChannelConfig _ _ _ _ (blank_headers _ _) = ∅)).
  - case_bool_decide as He; simpl; [by rewrite He|]. f_equal. rewrite strip_errs_with. apply errs_with_empty. split; [done|].
    unfold validateChannelConfig. case_match; [apply delete_insert_id, lookup_empty|done].
  - apply validateChannelConfig_empty. by apply blank_headers_valid.
Qed.

Lemma dto_blanked ch : TrimSpace (ch_Name ch) = ch_Name ch ->
  channelDTO keysFor (mkChannel (ch_ID ch) (ch_OrgID ch) (TrimSpace (ch_Name ch)) (ch_Type ch)
    (blank_headers (keysFor (ch_Type ch)) (ch_Config ch)) (ch_Enabled ch)) = channelDTO keysFor ch.
Proof. intros Hs. unfold channelDTO. simpl. by rewrite blank_headers_redacted, Hs. Qed.

(** Reading a channel and writing it back unchanged succeeds, answers with what was read, and
    stores the channel as it was, secrets included, except that the string values inside a secret
    object (the custom headers of a webhook) are blanked: redaction empties them and only an
    absent or blank field is taken from the stored config. *)
Theorem edit_round_trip `{!RegistryLaws registry} nonce p q actor text id ch db :
  (forall c, cipher = Some c -> CipherLaws c) -> (forall c n s, cipher = Some c -> is_ok (Encrypt c n s) = true) ->
  (forall r, accepts r = true) -> channels_ok Quote Sprint cipher registry db ->
  humanInOrg p = Some (q, actor) -> de_Allowed (Can actor ActionManageChannels (org_resource (pr_OrgID q))) = true ->
  parseMonitorID text = Some id -> GetChannel cipher keysFor (pr_OrgID q) id db = Ok ch ->
  ch_Type ch ∈ allowedChannelTypes (pr_OrgID q) (caccounts db) ->
  (ch_Type ch = "email" -> validateEmailMembers (pr_OrgID q) (cd_Config (channelDTO keysFor ch)) (caccounts db) = "") ->
  exists db',
    UpdateChannel Quote Sprint cipher accepts registry nonce p text (Some (input_of (channelDTO keysFor ch))) db =
      (CChannel R200 (channelDTO keysFor ch), db') /\
    GetChannel cipher keysFor (pr_OrgID q) id db' =
      Ok (mkChannel id (pr_OrgID q) (ch_Name ch) (ch_Type ch) (blank_headers (keysFor (ch_Type ch)) (ch_Config ch)) (ch_Enabled ch)).
Proof.
  intros Hlaws Henc Hacc Hdb Hp Hcan Hid Hg Hplan Hmem.
  destruct (read_channel_ok _ _ _ _ _ _ _ _ Hdb Hg) as (Hci & Hco & Hok). pose proof Hok as (_ & _ & Hs & _).
  pose proof (update_config_redacted (pr_OrgID q) ch (caccounts db) Hok Hplan Hmem) as Hu. cbv zeta in Hu.
  unfold UpdateChannel, channel_right. rewrite Hp, Hcan. cbn [negb]. rewrite Hid, Hg, channelFromInput_errs, Hu.
  rewrite bool_decide_eq_true_2 by done. cbn [negb]. unfold UpdateChannel_tx. cbn [ch_Type ch_Config ch_OrgID ch_Name ch_Enabled ch_ID].
  destruct (encrypt_total cipher keysFor nonce (ci_Type (input_of (channelDTO keysFor ch)))
    (blank_headers (keysFor (ch_Type ch)) (ch_Config ch)) Henc) as [cfg He]. rewrite He, Hacc. cbn [negb].
  assert (exists r, channel_row (ch_OrgID ch) (ch_ID ch) db = Some r /\ cr_OrgID r = ch_OrgID ch) as (r & Hr & Hro).
  { rewrite Hco, Hci. unfold GetChannel in Hg. unfold channel_row in *. destruct (channels db !! id) as [r|]; [|done].
    destruct (Z.eqb_spec (cr_OrgID r) (pr_OrgID q)); [|done]. eauto. }
  rewrite Hr. eexists. split.
  - apply (f_equal2 pair); [f_equal; by apply dto_blanked|reflexivity].
  - unfold GetChannel, channel_row. simpl. rewrite Hci, lookup_insert_eq. simpl. rewrite Hco, Z.eqb_refl.
    unfold scanChannel. simpl. apply decrypt_encrypt_config in He; [|done|apply (rl_distinct (r := registry))].
    simpl in He. rewrite He. simpl. by rewrite Hs.
Qed.
End edit.

(** ** Tenants *)

(** The rows of every org but the caller's are as they were. *)
Definition others_kept (p : option Principal) (db db' : CDB) : Prop :=
  forall id r, (forall q actor, humanInOrg p = Some (q, actor) -> cr_OrgID r <> pr_OrgID q) ->
    channels db !! id = Some r <-> channels db' !! id = Some r.

Lemma others_kept_insert p q actor id row old db :
  humanInOrg p = Some (q, actor) -> cr_OrgID row = pr_OrgID q ->
  channels db !! id = old -> (forall r, old = Some r -> cr_OrgID r = pr_OrgID q) ->
  forall id' r, (forall q actor, humanInOrg p = Some (q, actor) -> cr_OrgID r <> pr_OrgID q) ->
    channels db !! id' = Some r <-> <[id := row]> (channels db) !! id' = Some r.
Proof.
  intros Hp Ho Hold Hor id' r Hr. specialize (Hr q actor Hp). rewrite lookup_insert_Some.
  destruct (decide (id = id')) as [<-|]; [|naive_solver]. split; [|naive_solver].
  intros Hid. exfalso. apply Hr, Hor. congruence.
Qed.

Section tenants.
Context (Quote : string -> string) (Sprint : any -> string) (cipher : option secretCipher) (accepts : ChannelRow -> bool).
Context (registry : gmap string Descriptor).
Abbreviation keysFor := (SecretKeys registry).

(** A channel call changes no channel of another org, whatever id it names. *)
Theorem channel_calls_stay_in_org p db :
  channels_ok Quote Sprint cipher registry db ->
  (forall nonce body, others_kept p db (CreateChannel Quote Sprint cipher accepts registry nonce p body db).2) /\
  (forall nonce id body, others_kept p db (UpdateChannel Quote Sprint cipher accepts registry nonce p id body db).2) /\
  (forall id, others_kept p db (DeleteChannel p id db).2).
Proof.
  intros Hdb. split_and!.
  - intros nonce body. unfold CreateChannel, channel_right. destruct (humanInOrg p) as [[q actor]|] eqn:Hp; [|done].
    destruct (de_Allowed _); [|done]. cbn [negb]. destruct body as [i|]; [|done].
    destruct (channelFromInput _ _ _ _ _ _) as [[[name typ] cfg] errs]. case_bool_decide; [|done]. cbn [negb].
    unfold CreateChannel_tx. cbn [ch_Type ch_Config ch_OrgID ch_Name ch_Enabled ch_ID].
    destruct (EncryptChannelConfig _ _ _ _ _); [|done]. destruct (accepts _); [|done]. case_bool_decide; [done|]. cbn [negb].
    assert (channels db !! seq_channels db = None) as Hf.
    { destruct (channels db !! seq_channels db) eqn:E; [|done]. apply Hdb in E as [? _]. lia. }
    intros id r Hr. eapply others_kept_insert; try done; congruence.
  - intros nonce text body. unfold UpdateChannel, channel_right. destruct (humanInOrg p) as [[q actor]|] eqn:Hp; [|done].
    destruct (de_Allowed _); [|done]. cbn [negb]. destruct body as [i|]; [|done]. destruct (parseMonitorID text) as [id|]; [|done].
    destruct (GetChannel _ _ _ _ db) as [ch|[]] eqn:Hg; try done.
    apply (read_channel_ok _ _ _ _ _ _ _ _ Hdb) in Hg as (_ & Ho & _).
    destruct (channelFromInput _ _ _ _ _ _) as [[[name typ] cfg] errs]. destruct (update_config _ _ _ _ _ _ _) as [cfg' errs'].
    case_bool_decide; [|done]. cbn [negb]. unfold UpdateChannel_tx. cbn [ch_Type ch_Config ch_OrgID ch_Name ch_Enabled ch_ID].
    destruct (EncryptChannelConfig _ _ _ _ _) as [|[]]; try done. destruct (accepts _); [|done]. cbn [negb].
    unfold channel_row. destruct (channels db !! ch_ID ch) as [old|] eqn:Hold; [|done].
    destruct (Z.eqb_spec (cr_OrgID old) (ch_OrgID ch)); [|done]. intros id' r Hr.
    eapply others_kept_insert; try done. intros ? [= <-]. congruence.
  - intros text. unfold DeleteChannel, channel_right. destruct (humanInOrg p) as [[q actor]|] eqn:Hp; [|done].
    destruct (de_Allowed _); [|done]. cbn [negb]. destruct (parseMonitorID text) as [id|]; [|done]. unfold DeleteChannel_tx, channel_row.
    destruct (channels db !! id) as [old|] eqn:Hold; [|done]. destruct (Z.eqb_spec (cr_OrgID old) (pr_OrgID q)); [|done].
    intros id' r Hr. specialize (Hr q actor Hp). simpl. rewrite lookup_delete_Some. split; [|naive_solver].
    intros Hid. split; [|done]. intros <-. congruence.
Qed.

(** ** The channels of an alert *)

Lemma scan_all_elem rows chs ch : scan_all cipher keysFor rows = Ok chs ->
  ch ∈ chs <-> exists id r, (id, r) ∈ rows /\ scanChannel cipher keysFor id r = Ok ch.
Proof.
  revert chs. induction rows as [|[id r] rows IH]; intros chs; simpl.
  - intros [= <-]. set_solver.
  - intros (c & Hc & (cs & Hcs & [= <-])%result_bind_ok)%result_bind_ok. rewrite elem_of_cons, (IH cs Hcs). split.
    + intros [->|(id' & r' & Hin & Hs)]; [exists id, r; split; [left|done]|exists id', r'; split; [by right|done]].
    + intros (id' & r' & [[= -> ->]|Hin]%elem_of_cons & Hs); [left; congruence|right; eauto].
Qed.

Lemma scan_all_total rows :
  (forall id r, (id, r) ∈ rows -> is_ok (scanChannel cipher keysFor id r) = true) -> exists chs, scan_all cipher keysFor rows = Ok chs.
Proof.
  induction rows as [|[id r] rows IH]; intros Hall; simpl; [by eexists|].
  pose proof (Hall id r (list_elem_of_here _ _)) as Hr. destruct (scanChannel cipher keysFor id r) as [ch|]; [|done]. simpl.
  destruct IH as [chs ->]; [intros; eapply Hall; by right|]. simpl. eauto.
Qed.

(** The channels an alert of a monitor goes to can always be read, and are exactly the
    enabled channels of the monitor's org that the monitor names: an id of a deleted channel, of a
    disabled one or of another org's is skipped. *)
Theorem alert_channels_exact orgID monitorID mon db :
  channels_ok Quote Sprint cipher registry db ->
  exists chs, GetChannelsForMonitor cipher keysFor orgID monitorID mon db = Ok chs /\
  forall ch, ch ∈ chs <->
    GetChannel cipher keysFor orgID (ch_ID ch) db = Ok ch /\ ch_Enabled ch = true /\
    exists m, monitors mon !! monitorID = Some m /\ m_OrgID (mr_monitor m) = orgID /\ ch_ID ch ∈ m_ChannelIDs (mr_monitor m).
Proof.
  intros Hdb. unfold GetChannelsForMonitor.
  destruct (scan_all_total (rows_by_id (attached orgID monitorID mon) db)) as [chs Hs].
  { intros id r [Hr _]%rows_by_id_elem. apply Hdb in Hr as [_ (_ & _ & _ & cfg & Hd & _)]. unfold scanChannel. by rewrite Hd. }
  exists chs. split; [done|]. intros ch. rewrite (scan_all_elem _ _ _ Hs). split.
  - intros (id & r & [Hr Ha]%rows_by_id_elem & Hc). unfold attached in Ha.
    destruct (monitors mon !! monitorID) as [m|] eqn:Hm; [|done]. reflect_tests.
    pose proof Hc as Hc'. unfold scanChannel in Hc'. apply result_bind_ok in Hc' as (cfg & _ & [= <-]). simpl in *.
    unfold GetChannel, channel_row. rewrite Hr. split_and!; [|done|eauto].
    replace (cr_OrgID r =? orgID) with true; [done|]. symmetry. by apply Z.eqb_eq.
  - intros (Hg & He & m & Hm & Hmo & Hin). unfold GetChannel, channel_row in Hg.
    destruct (channels db !! ch_ID ch) as [r|] eqn:Hr; [|done]. destruct (Z.eqb_spec (cr_OrgID r) orgID) as [Ho|]; [|done].
    exists (ch_ID ch), r. split; [|done]. apply rows_by_id_elem. split; [done|]. unfold attached. rewrite Hm, Hmo, Ho, Z.eqb_refl. simpl.
    assert (cr_Enabled r = true) as ->.
    { unfold scanChannel in Hg. apply result_bind_ok in Hg as (cfg & _ & Hg). injection Hg as Hg. by rewrite <- Hg in He. }
    by apply bool_decide_eq_true.
Qed.
End tenants.

(** ** Secrets the code does not recognise *)

(** A secret field that holds a list is neither encrypted nor redacted: the validator takes a
    list for the custom headers of a webhook, and creating such a channel stores the list in the
    clear and shows it in the response. *)
Theorem secret_lists_stay_in_clear Quote Sprint cipher accepts nonce p i db d db' l :
  ci_Type i = "webhook" -> default ∅ (ci_Config i) !! "custom_headers" = Some (AList l) ->
  CreateChannel Quote Sprint cipher accepts (Default Sprint) nonce p (Some i) db = (CChannel R201 d, db') ->
  cd_Config d !! "custom_headers" = Some (AList l) /\
  exists id r, channels db' !! id = Some r /\ cr_Config r !! "custom_headers" = Some (AList l).
Proof.
  intros Ht Hl. assert (SecretKeys (Default Sprint) "webhook" = ["url"; "custom_headers"]) as Hkeys by done.
  unfold CreateChannel, channel_right. destruct (humanInOrg p) as [[q actor]|]; [|done]. destruct (de_Allowed _); [|done]. cbn [negb].
  rewrite channelFromInput_errs. case_bool_decide; [|done]. cbn [negb]. cbv zeta. unfold CreateChannel_tx.
  cbn [ch_Type ch_Config ch_OrgID ch_Name ch_Enabled ch_ID]. rewrite Ht.
  destruct (EncryptChannelConfig _ _ _ _ _) as [cfg|] eqn:He; [|done]. destruct (accepts _); [|done]. case_bool_decide; [done|]. cbn [negb].
  intros [= <- <-]. split.
  - unfold channelDTO. cbn [cd_Config ch_Config ch_Type]. rewrite Hkeys, redact_lookup, Hl. by rewrite bool_decide_eq_true_2 by set_solver.
  - eexists _, _. split; [apply lookup_insert_eq|]. simpl. unfold EncryptChannelConfig in He.
    destruct cipher as [c|]; [|by injection He as <-]. rewrite Hkeys in He.
    apply map_secrets_Ok with (k := "custom_headers") in He; [|apply (bool_decide_unpack _); vm_compute; done].
    rewrite Hl, decide_True in He by set_solver. by destruct He as (v' & [= <-] & ->).
Qed.

(** ** Concrete channels *)

Definition chx_sprint (_ : any) : string := "?".
Definition chx_registry : gmap string Descriptor := Default chx_sprint.
#[export] Instance chx_laws : RegistryLaws chx_registry.
Proof. by apply default_laws. Qed.

Definition chx_accounts : MDB :=
  mkMDB {[ 1 := mkMembership 1 1 3 RoleMember ]} ∅ {[ 1 := mkOrganization "acme" "tier3" "en" false ]} {[ 3 := mkUser "a@x" true "A" true ]} 2 1.
Definition chx_member : option Principal := Some (mkPrincipal ActorHuman 3 0 1 (Some RoleMember)).
Definition chx_q : Principal := mkPrincipal ActorHuman 3 0 1 (Some RoleMember).
Definition chx_actor : Actor := mkActor ActorHuman 3 0 1 RoleMember.
Definition chx_nonce (_ : string) (_ : option string) : Z := 0.
Definition chx_webhook : gmap string any :=
  <["url" := AString "https://hook"]> {[ "custom_headers" := AMap {[ "Authorization" := AString "Bearer t0ken" ]} ]}.
Definition chx_create (typ : string) (cfg : gmap string any) (db : CDB) : CResponse * CDB :=
  CreateChannel id chx_sprint (Some ex_cipher) (fun _ => true) chx_registry chx_nonce chx_member (Some (mkChannelInput " ops " typ true (Some cfg))) db.
Definition chx_db0 : CDB := mkCDB chx_accounts ∅ 1.
Definition chx_db1 : CDB := (chx_create "webhook" chx_webhook chx_db0).2.
Definition chx_slack (url : string) : CDB :=
  mkCDB chx_accounts {[ 1 := mkChannelRow 1 "ops" "slack" {[ "webhook_url" := AString (String "#" url) ]} true ]} 2.
Definition chx_monitor : Monitor :=
  mkMonitor 0 1 MonitorHTTP "api" "https://example.com" "GET" [] "" "2xx" 10 60 true None None 2 [] DownPolicyAny [1; 9].
Definition chx_monitors : DB := (Store.CreateMonitor (Some ex_cipher) 0 chx_monitor empty_db).2.

Lemma chx_cipher_ok c : Some ex_cipher = Some c -> CipherLaws c.
Proof. intros [= <-]. apply ex_cipher_laws. Qed.

Lemma chx_db0_ok : channels_ok id chx_sprint (Some ex_cipher) chx_registry chx_db0.
Proof. intros i r Hr. unfold chx_db0 in Hr. simpl in Hr. by rewrite lookup_empty in Hr. Qed.

Lemma chx_step typ cfg db :
  channel_step id chx_sprint (Some ex_cipher) (fun _ => true) chx_registry db (chx_create typ cfg db).2.
Proof. apply step_create. Qed.

Lemma chx_db1_ok : channels_ok id chx_sprint (Some ex_cipher) chx_registry chx_db1.
Proof. eapply channel_step_ok; [apply chx_laws|apply chx_cipher_ok|apply chx_step|apply chx_db0_ok]. Qed.

Lemma channel_list_hides_secrets_witness :
  (api_ListChannels (Some ex_cipher) chx_registry chx_member (chx_slack "https://a")).1 =
  (api_ListChannels (Some ex_cipher) chx_registry chx_member (chx_slack "https://other")).1.
Proof.
  apply channel_list_hides_secrets. split; [done|]. intros id. unfold chx_slack. cbn [channels].
  destruct (decide (id = 1)) as [->|]; [rewrite !lookup_singleton_eq|rewrite !lookup_singleton_ne by done; constructor]. constructor. split_and!; try done.
  exists {[ "webhook_url" := AString "https://a" ]}, {[ "webhook_url" := AString "https://other" ]}. split_and!; [vm_compute; reflexivity..|].
  intros k. change (SecretKeys chx_registry _) with ["webhook_url"].
  destruct (decide (k = "webhook_url")) as [->|]; [|by rewrite bool_decide_eq_false_2, !lookup_singleton_ne by set_solver].
  rewrite !lookup_singleton_eq. simpl. constructor. constructor. constructor.
Defined.

Lemma stored_channels_stay_valid_witness :
  channels_ok id chx_sprint (Some ex_cipher) chx_registry chx_db1 /\ size (channels chx_db1) = 1%nat.
Proof.
  split; [|by vm_compute].
  apply (stored_channels_stay_valid id chx_sprint (Some ex_cipher) (fun _ => true) chx_registry chx_db0 chx_db1);
    [apply chx_cipher_ok|apply rtc_once, chx_step|apply chx_db0_ok].
Defined.

(** The secrets of the channel are kept, and its header is lost. *)
Lemma edit_round_trip_witness :
  exists ch db', GetChannel (Some ex_cipher) (SecretKeys chx_registry) 1 1 chx_db1 = Ok ch /\
  UpdateChannel id chx_sprint (Some ex_cipher) (fun _ => true) chx_registry chx_nonce chx_member "1"
    (Some (input_of (channelDTO (SecretKeys chx_registry) ch))) chx_db1 = (CChannel R200 (channelDTO (SecretKeys chx_registry) ch), db') /\
  exists ch', GetChannel (Some ex_cipher) (SecretKeys chx_registry) 1 1 db' = Ok ch' /\
    ch_Config ch' !! "url" = Some (AString "https://hook") /\
    ch_Config ch !! "custom_headers" = Some (AMap {[ "Authorization" := AString "Bearer t0ken" ]}) /\
    ch_Config ch' !! "custom_headers" = Some (AMap {[ "Authorization" := AString "" ]}).
Proof.
  destruct (GetChannel (Some ex_cipher) (SecretKeys chx_registry) 1 1 chx_db1) as [ch|] eqn:Hg; [|by vm_compute in Hg].
  destruct (edit_round_trip id chx_sprint (Some ex_cipher) (fun _ => true) chx_registry chx_nonce chx_member chx_q chx_actor "1" 1 ch chx_db1)
    as (db' & Hu & Hg').
  - apply chx_cipher_ok.
  - intros c n s [= <-]. reflexivity.
  - reflexivity.
  - apply chx_db1_ok.
  - reflexivity.
  - vm_compute. reflexivity.
  - vm_compute. reflexivity.
  - exact Hg.
  - vm_compute in Hg. injection Hg as <-. apply (bool_decide_unpack _). vm_compute. exact I.
  - vm_compute in Hg. injection Hg as <-. intros Ht. discriminate Ht.
  - exists ch, db'. split; [reflexivity|]. split; [exact Hu|]. eexists. split; [exact Hg'|].
    vm_compute in Hg. injection Hg as <-. split_and!; vm_compute; reflexivity.
Defined.

Lemma channel_calls_stay_in_org_witness :
  others_kept (Some (mkPrincipal ActorHuman 4 0 2 (Some RoleAdmin))) chx_db1
    (DeleteChannel (Some (mkPrincipal ActorHuman 4 0 2 (Some RoleAdmin))) "1" chx_db1).2.
Proof. apply (channel_calls_stay_in_org id chx_sprint (Some ex_cipher) (fun _ => true) chx_registry), chx_db1_ok. Defined.

Lemma alert_channels_exact_witness :
  exists chs, GetChannelsForMonitor (Some ex_cipher) (SecretKeys chx_registry) 1 1 chx_monitors chx_db1 = Ok chs /\ ch_ID <$> chs = [1].
Proof.
  destruct (alert_channels_exact id chx_sprint (Some ex_cipher) chx_registry 1 1 chx_monitors chx_db1 chx_db1_ok) as (chs & Hc & _).
  exists chs. split; [done|]. vm_compute in Hc. by injection Hc as <-.
Defined.

Lemma secret_lists_stay_in_clear_witness :
  exists d db', chx_create "webhook" (<["url" := AString "https://hook"]> {[ "custom_headers" := AList [AString "Authorization: Bearer t0ken"] ]}) chx_db0 = (CChannel R201 d, db') /\
    cd_Config d !! "custom_headers" = Some (AList [AString "Authorization: Bearer t0ken"]).
Proof.
  match goal with |- exists d db', ?c = _ /\ _ => destruct c as [[| |r d| |] db'] eqn:Hc; try (vm_compute in Hc; discriminate Hc) end.
  assert (r = R201) as -> by (vm_compute in Hc; by injection Hc).
  exists d, db'. split; [done|]. by eapply (secret_lists_stay_in_clear id chx_sprint (Some ex_cipher) (fun _ => true) chx_nonce); [| |exact Hc].
Defined.
