(* ===== verification/Render.v ===== *)
(** * Render: the texts of notifications
    (src/internal/notify/render.go, emailenrich.go, emailtemplates.go, the links of emailhtml.go,
    buildEmail of smtp.go, src/internal/httpstatus/httpstatus.go)

    An event and everything that is said about it: durations, dates, the chat and plain texts, the
    subjects and plain parts of the e-mails, and the content their HTML parts are rendered from.
    The HTML template, [%q] and the country names are parameters. *)

From Stdlib Require Import QArith.
From S2P Require Import Prelude Domain GoStrings Alerting AlertingService Channels.
Open Scope Z_scope.

(** ** Events (notify.go) *)

Record Event := mkEvent {
  ev_EventType : string;
  ev_Monitor : Monitor;
  ev_Incident : Incident;
  ev_Check : CheckResult;
  ev_DurationSeconds : option Z;
  ev_AvgLatencyMs : option Z;
  ev_SentAt : Time;
  ev_Test : bool;
  ev_ChannelName : string;
  ev_OrgID : Z;
}.

Definition EventDown_text : string := "down".
Definition EventRecovery_text : string := "recovery".
Definition is_recovery (ev : Event) : bool := String.eqb (ev_EventType ev) EventRecovery_text.

(** Go's zero values; the zero [time.Time] is the first instant of the year 1. *)
Definition zero_monitor : Monitor :=
  mkMonitor 0 0 MonitorUnset "" "" "" [] "" "" 0 0 false None None 0 [] DownPolicyUnset [].
Definition zero_incident : Incident := mkIncident 0 0 0 zeroTime None None None None None.
Definition zero_check : CheckResult := mkResult 0 0 0 "" zeroTime zeroTime false None None None None None None None.

(** [buildEvent] (service.go); a zero SentAt is the clock's time. *)
Definition buildEvent (now : Time) (ev : NotifyMessage) : Event :=
  mkEvent (event_type_string (nm_EventType ev))
    (mkMonitor (nm_MonitorID ev) (nm_OrgID ev) MonitorUnset (nm_MonitorName ev) (nm_MonitorURL ev) (nm_MonitorMethod ev)
       [] "" "" 0 0 false None None 0 [] DownPolicyUnset [])
    (mkIncident (nm_IncidentID ev) (nm_OrgID ev) (nm_MonitorID ev) (nm_IncidentStartedAt ev) (nm_IncidentEndedAt ev) None None None None)
    (nm_Check ev) (nm_DurationSeconds ev) None (if nm_SentAt ev =? zeroTime then now else nm_SentAt ev) false "" (nm_OrgID ev).

(** ** Times *)

Definition nl : string := String (ascii_of_N 10) "".
Definition crlf : string := String (ascii_of_N 13) nl.

(** Decimal digits, at least [w] of them. *)
Fixpoint zeros (n : nat) : string := match n with O => "" | S n' => String "0" (zeros n') end.
Definition pad (w : nat) (z : Z) : string :=
  let d := pretty (Z.abs z) in (if z <? 0 then "-" else "") +:+ zeros (w - String.length d) +:+ d.

(** The Gregorian date of a day counted from 1970-01-01: year, month, day. *)
Definition civil (days : Z) : Z * Z * Z :=
  let z := days + 719468 in
  let era := z / 146097 in
  let doe := z mod 146097 in
  let yoe := (doe - doe / 1460 + doe / 36524 - doe / 146096) / 365 in
  let doy := doe - (365 * yoe + yoe / 4 - yoe / 100) in
  let mp := (5 * doy + 2) / 153 in
  let d := doy - (153 * mp + 2) / 5 + 1 in
  let m := if mp <? 10 then mp + 3 else mp - 9 in
  (yoe + era * 400 + (if m <=? 2 then 1 else 0), m, d).

(** [t.UTC().Format] with a separator between date and time. *)
Definition format_utc (sep : string) (t : Time) : string :=
  let secs := t / Second in
  let '(y, m, d) := civil (secs / 86400) in
  let s := secs mod 86400 in
  pad 4 y +:+ "-" +:+ pad 2 m +:+ "-" +:+ pad 2 d +:+ sep +:+
  pad 2 (s / 3600) +:+ ":" +:+ pad 2 (s / 60 mod 60) +:+ ":" +:+ pad 2 (s mod 60).

Definition humanTime (t : Time) : string := format_utc " " t +:+ " UTC".
Definition rfc3339UTC (t : Time) : string := format_utc "T" t +:+ "Z".

(** Hours, minutes and seconds of a duration, as [int(d.Hours())] and the like compute them on
    whole seconds; the multiplication is at 64 bits. *)
Definition duration_parts (seconds : Z) : Z * Z * Z :=
  let d := wrap64 (seconds * Second) in
  (Z.quot d Hour, Z.rem (Z.quot d Minute) 60, Z.rem (Z.quot d Second) 60).

Definition humanDuration (seconds : Z) : string :=
  if seconds <=? 0 then "0s"
  else
    let '(h, m, s) := duration_parts seconds in
    if 0 <? h then pretty h +:+ "h " +:+ pretty m +:+ "m " +:+ pretty s +:+ "s"
    else if 0 <? m then pretty m +:+ "m " +:+ pretty s +:+ "s"
    else pretty s +:+ "s".

Definition relativeAgo (t ref : Time) : string :=
  let d := ref - t in
  if d <? Minute then "just now"
  else if d <? Hour then pretty (d / Minute) +:+ "m ago"
  else if d <? 24 * Hour then pretty (d / Hour) +:+ "h ago"
  else pretty (d / Hour / 24) +:+ "d ago".

Definition timeWithRel (t ref : Time) : string := humanTime t +:+ " (" +:+ relativeAgo t ref +:+ ")".

(** ** Chat and plain texts (render.go) *)

Definition reason_string (r : FailureReason) : string :=
  match r with
  | ReasonConnectionError => "connection_error" | ReasonTimeout => "timeout" | ReasonStatusMismatch => "status_mismatch"
  | ReasonLatencyExceeded => "latency_exceeded" | ReasonBodyAssertion => "body_assertion_failed"
  | ReasonBlockedTarget => "blocked_target" | ReasonCertExpired => "cert_expired"
  | ReasonCertExpiringSoon => "cert_expiring_soon" | ReasonCertInvalid => "cert_invalid"
  end.

Definition reasonLine (ev : Event) : string :=
  let reason := match r_FailureReason (ev_Check ev) with Some r => reason_string r | None => "" end in
  match r_StatusCode (ev_Check ev) with
  | Some code => "Reason: " +:+ reason +:+ " (HTTP " +:+ pretty code +:+ ")"
  | None => "Reason: " +:+ reason
  end.

Definition downText (title : string) (ev : Event) : string :=
  title +:+ " " +:+ m_Name (ev_Monitor ev) +:+ nl +:+ m_URL (ev_Monitor ev) +:+ nl +:+ reasonLine ev +:+ nl +:+
  "Down since " +:+ humanTime (i_StartedAt (ev_Incident ev)).

Definition duration_or_zero (ev : Event) : Z := default 0 (ev_DurationSeconds ev).

Definition recoveryText (title : string) (ev : Event) : string :=
  title +:+ " " +:+ m_Name (ev_Monitor ev) +:+ nl +:+ m_URL (ev_Monitor ev) +:+ nl +:+
  "Was down for " +:+ humanDuration (duration_or_zero ev) +:+ " (since " +:+ humanTime (i_StartedAt (ev_Incident ev)) +:+ ")".

Definition summaryTitle (ev : Event) : string :=
  (if is_recovery ev then "RECOVERED: " else "DOWN: ") +:+ m_Name (ev_Monitor ev).

(** [strings.Join] on a newline. *)
Fixpoint join_lines (l : list string) : string :=
  match l with [] => "" | [x] => x | x :: l' => x +:+ nl +:+ join_lines l' end.

Definition plainBody (ev : Event) : string :=
  if is_recovery ev then
    join_lines [m_URL (ev_Monitor ev);
                "Was down for " +:+ humanDuration (duration_or_zero ev) +:+ " (since " +:+ humanTime (i_StartedAt (ev_Incident ev)) +:+ ")"]
  else
    join_lines ([m_URL (ev_Monitor ev); reasonLine ev] ++
                (match r_LatencyMs (ev_Check ev) with Some ms => ["Latency: " +:+ pretty ms +:+ "ms"] | None => [] end) ++
                ["Down since " +:+ humanTime (i_StartedAt (ev_Incident ev))]).

Definition slackText (ev : Event) : string :=
  if is_recovery ev then recoveryText ":large_green_circle: *RECOVERED*" ev else downText ":red_circle: *DOWN*" ev.
Definition discordText (ev : Event) : string :=
  if is_recovery ev then recoveryText "**RECOVERED**" ev else downText "**DOWN**" ev.

(** The body of the test message (slack.go), and that of an SMS (twilio.go). *)
Definition testText (Quote : string -> string) (name : string) : string :=
  ":wave: This is a test message from Pulse Pager for channel " +:+ Quote name +:+ ". If you can read this, the channel works.".
Definition smsBody (ev : Event) : string :=
  "[Pulse Pager] " +:+ (if is_recovery ev then "RECOVERED: " else "DOWN: ") +:+
  m_Name (ev_Monitor ev) +:+ " (" +:+ m_URL (ev_Monitor ev) +:+ ")".

(** ** Status codes (httpstatus.go) *)

(** [http.StatusText]. *)
Definition StatusText : gmap Z string := list_to_map [
    (100, "Continue"); (101, "Switching Protocols"); (102, "Processing"); (103, "Early Hints"); (200, "OK");
    (201, "Created"); (202, "Accepted"); (203, "Non-Authoritative Information"); (204, "No Content");
    (205, "Reset Content"); (206, "Partial Content"); (207, "Multi-Status"); (208, "Already Reported");
    (226, "IM Used"); (300, "Multiple Choices"); (301, "Moved Permanently"); (302, "Found"); (303, "See Other");
    (304, "Not Modified"); (305, "Use Proxy"); (307, "Temporary Redirect"); (308, "Permanent Redirect");
    (400, "Bad Request"); (401, "Unauthorized"); (402, "Payment Required"); (403, "Forbidden"); (404, "Not Found");
    (405, "Method Not Allowed"); (406, "Not Acceptable"); (407, "Proxy Authentication Required");
    (408, "Request Timeout"); (409, "Conflict"); (410, "Gone"); (411, "Length Required");
    (412, "Precondition Failed"); (413, "Request Entity Too Large"); (414, "Request URI Too Long");
    (415, "Unsupported Media Type"); (416, "Requested Range Not Satisfiable"); (417, "Expectation Failed");
    (418, "I'm a teapot"); (421, "Misdirected Request"); (422, "Unprocessable Entity"); (423, "Locked");
    (424, "Failed Dependency"); (425, "Too Early"); (426, "Upgrade Required"); (428, "Precondition Required");
    (429, "Too Many Requests"); (431, "Request Header Fields Too Large"); (451, "Unavailable For Legal Reasons");
    (500, "Internal Server Error"); (501, "Not Implemented"); (502, "Bad Gateway"); (503, "Service Unavailable");
    (504, "Gateway Timeout"); (505, "HTTP Version Not Supported"); (506, "Variant Also Negotiates");
    (507, "Insufficient Storage"); (508, "Loop Detected"); (510, "Not Extended");
    (511, "Network Authentication Required")].

Definition nonStandard : gmap Z string := list_to_map [
    (419, "Page Expired"); (420, "Enhance Your Calm"); (430, "Request Header Fields Too Large");
    (440, "Login Time-out"); (444, "No Response"); (449, "Retry With"); (450, "Blocked by Windows Parental Controls");
    (460, "Client Closed Connection"); (463, "Too Many Forwarded IP Addresses"); (494, "Request Header Too Large");
    (495, "SSL Certificate Error"); (496, "SSL Certificate Required"); (497, "HTTP Request Sent to HTTPS Port");
    (498, "Invalid Token"); (499, "Client Closed Request"); (520, "Web Server Returned an Unknown Error");
    (521, "Web Server Is Down"); (522, "Connection Timed Out"); (523, "Origin Is Unreachable");
    (524, "A Timeout Occurred"); (525, "SSL Handshake Failed"); (526, "Invalid SSL Certificate");
    (527, "Railgun Error"); (529, "Site Is Overloaded"); (530, "Origin DNS Error");
    (598, "Network Read Timeout Error"); (599, "Network Connect Timeout Error")].

Definition Text (code : Z) : string :=
  match StatusText !! code with Some t => t | None => default "" (nonStandard !! code) end.

(** ** What the e-mails add (emailenrich.go) *)

Definition httpStatusText (code : Z) : string :=
  let txt := Text code in
  if String.eqb txt "" then "HTTP " +:+ pretty code else "HTTP " +:+ pretty code +:+ " " +:+ txt.

(** Every reason has its words; the fallback for other values has no case. *)
Definition reasonText (r : FailureReason) : string :=
  match r with
  | ReasonConnectionError => "Couldn't connect to the server"
  | ReasonTimeout => "The request timed out"
  | ReasonStatusMismatch => "Unexpected status code"
  | ReasonLatencyExceeded => "Slower than the latency limit"
  | ReasonBodyAssertion => "Response body didn't match"
  | ReasonBlockedTarget => "Target blocked (private or disallowed address)"
  | ReasonCertExpired => "TLS certificate has expired"
  | ReasonCertExpiringSoon => "TLS certificate expiring soon"
  | ReasonCertInvalid => "TLS certificate is invalid"
  end.

(** The rounded percentage, half away from zero, exactly; the code computes it in float64. *)
Definition percent_off (latencyMs avg : Z) : Z :=
  let num := (latencyMs - avg) * 200 + (if 0 <=? latencyMs - avg then avg else - avg) in Z.quot num (2 * avg).

Definition latencyWithAvg (latencyMs : Z) (avgMs : option Z) : string :=
  match avgMs with
  | Some avg =>
      if avg <=? 0 then pretty latencyMs +:+ "ms"
      else
        let pct := percent_off latencyMs avg in
        if 0 <? pct then pretty latencyMs +:+ "ms · " +:+ pretty pct +:+ "% higher than the 7-day average (" +:+ pretty avg +:+ "ms)"
        else if pct <? 0 then pretty latencyMs +:+ "ms · " +:+ pretty (- pct) +:+ "% lower than the 7-day average (" +:+ pretty avg +:+ "ms)"
        else pretty latencyMs +:+ "ms · the same as the 7-day average (" +:+ pretty avg +:+ "ms)"
  | None => pretty latencyMs +:+ "ms"
  end.

(** The first word of the list that the agent contains. *)
Fixpoint first_match (ua : string) (l : list (list string * string)) : string :=
  match l with
  | [] => ""
  | (tokens, name) :: l' => if existsb (Contains ua) tokens then name else first_match ua l'
  end.

Definition uaSummary (ua : string) : string :=
  if String.eqb ua "" then ""
  else
    let browser := first_match ua [(["Edg"], "Edge"); (["OPR"; "Opera"], "Opera"); (["Firefox"], "Firefox"); (["Chrome"], "Chrome"); (["Safari"], "Safari")] in
    let os := first_match ua [(["iPhone"; "iPad"], "iOS"); (["Android"], "Android"); (["Mac OS X"; "Macintosh"], "macOS"); (["Windows"], "Windows"); (["Linux"], "Linux")] in
    if negb (String.eqb browser "") && negb (String.eqb os "") then browser +:+ " on " +:+ os
    else if negb (String.eqb browser "") then browser
    else os.

(** ** Links and content (emailhtml.go) *)

(** [SetAppBaseURL]: [strings.TrimRight] of slashes. *)
Fixpoint drop_slashes (l : list ascii) : list ascii :=
  match l with a :: l' => if Ascii.eqb a "/" then drop_slashes l' else l | [] => [] end.
Definition SetAppBaseURL (u : string) : string :=
  string_of_list_ascii (reverse (drop_slashes (reverse (list_ascii_of_string u)))).

Record EmailButton := mkButton { eb_Label : string; eb_URL : string }.
Record EmailRow := mkRow { er_Label : string; er_Value : string }.
Record EmailBanner := mkBanner { bn_Label : string; bn_Tone : string }.
Record EmailCallout := mkCallout { co_Title : string; co_Body : string; co_LinkLabel : string; co_LinkURL : string }.
Record EmailContent := mkContent {
  em_Preheader : string;
  em_Banner : option EmailBanner;
  em_Heading : string;
  em_Intro : string;
  em_Rows : list EmailRow;
  em_Button : option EmailButton;
  em_Note : string;
  em_Callout : option EmailCallout;
  em_Footer : string;
}.

Section emails.
(** [appBaseURL] as set, the template engine, [%q], [strings.ToLower] and [ToUpper], and the English name of a
    two-letter region (golang.org/x/text). *)
Context (appBaseURL : string) (RenderEmailHTML : EmailContent -> string) (Quote ToLower ToUpper : string -> string) (region_name : string -> option string).

Definition channelsURL (orgID : string) : string :=
  if String.eqb appBaseURL "" || String.eqb orgID "" then "" else appBaseURL +:+ "/orgs/" +:+ orgID +:+ "/channels".
Definition incidentURL (orgID incidentID : Z) : string :=
  if String.eqb appBaseURL "" || (orgID =? 0) || (incidentID =? 0) then ""
  else appBaseURL +:+ "/orgs/" +:+ pretty orgID +:+ "/incidents/" +:+ pretty incidentID.

(** [ParseRegion] and the display name; a name that echoes the code is none. *)
Definition countryName (code : string) : string :=
  if negb (String.length code =? 2)%nat then ""
  else match region_name (ToUpper code) with
       | None => ""
       | Some name => if String.eqb name "" || String.eqb name (ToUpper code) then "" else name
       end.

Definition signInRows (country userAgent fromLabel deviceLabel unknown : string) : list EmailRow :=
  let loc := countryName country in
  let device := uaSummary userAgent in
  if String.eqb loc "" && String.eqb device "" then []
  else
    let device := if String.eqb device "" then unknown else device in
    (if String.eqb loc "" then [] else [mkRow fromLabel loc]) ++ [mkRow deviceLabel device].

(** ** The e-mails (smtp.go, emailtemplates.go): subject, plain text, HTML *)

Definition line (parts : list string) : string := foldr String.append nl parts.

Definition buildEmail (ev : Event) : string * string :=
  let name := m_Name (ev_Monitor ev) in
  let c := ev_Check ev in
  if is_recovery ev then
    ("[Pulse Pager] RECOVERED: " +:+ name,
     line ["Monitor "; name; " has recovered."; nl] +:+ line ["URL: "; m_URL (ev_Monitor ev)] +:+
     line ["Was down for: "; humanDuration (duration_or_zero ev)] +:+ line ["Down since: "; humanTime (i_StartedAt (ev_Incident ev))] +:+
     (match i_EndedAt (ev_Incident ev) with Some t => line ["Recovered at: "; humanTime t] | None => "" end) +:+
     (match r_StatusCode c with Some n => line ["Status: HTTP "; pretty n] | None => "" end) +:+
     (match r_LatencyMs c with Some n => line ["Latency: "; pretty n; "ms"] | None => "" end))
  else
    ("[Pulse Pager] DOWN: " +:+ name,
     line ["Monitor "; name; " is down."; nl] +:+ line ["URL: "; m_URL (ev_Monitor ev)] +:+ line [reasonLine ev] +:+
     (match r_LatencyMs c with Some n => line ["Latency: "; pretty n; "ms"] | None => "" end) +:+
     (match r_ErrorText c with Some e => if String.eqb e "" then "" else line ["Error: "; e] | None => "" end) +:+
     line ["Down since: "; humanTime (i_StartedAt (ev_Incident ev))]).

Definition alertCallout (ev : Event) : EmailCallout :=
  mkCallout "Why am I getting this?"
    "You're getting this because a Pulse Pager alert channel is set to notify you when one of your monitors changes state."
    "Manage your alert channels" (channelsURL (pretty (ev_OrgID ev))).

Definition alert_content (ev : Event) : EmailContent :=
  let name := m_Name (ev_Monitor ev) in
  let c := ev_Check ev in
  let since := mkRow "Down since" (timeWithRel (i_StartedAt (ev_Incident ev)) (ev_SentAt ev)) in
  let status := match r_StatusCode c with Some n => [mkRow "Status" (httpStatusText n)] | None => [] end in
  let latency := match r_LatencyMs c with Some n => [mkRow "Latency" (latencyWithAvg n (ev_AvgLatencyMs ev))] | None => [] end in
  if is_recovery ev then
    let dur := humanDuration (duration_or_zero ev) in
    mkContent (name +:+ " is back up after " +:+ dur) (Some (mkBanner "Recovered" "ok")) (name +:+ " is back up")
      "Good news. Pulse Pager can reach this monitor again and the incident is closed."
      ([mkRow "Monitor" name; mkRow "URL" (m_URL (ev_Monitor ev)); mkRow "Was down for" dur; since] ++
       (match i_EndedAt (ev_Incident ev) with Some t => [mkRow "Recovered at" (timeWithRel t (ev_SentAt ev))] | None => [] end) ++
       status ++ latency)
      None "" (Some (alertCallout ev)) ""
  else
    mkContent (name +:+ " is down") (Some (mkBanner "Down" "down")) (name +:+ " is down")
      "Pulse Pager just opened an incident for this monitor. Here's what we saw."
      ([mkRow "Monitor" name; mkRow "URL" (m_URL (ev_Monitor ev))] ++
       (match r_FailureReason c with Some r => [mkRow "Reason" (reasonText r)] | None => [] end) ++
       status ++ latency ++
       (match r_ErrorText c with Some e => if String.eqb e "" then [] else [mkRow "Error" e] | None => [] end) ++ [since])
      (let u := incidentURL (ev_OrgID ev) (i_ID (ev_Incident ev)) in
       if String.eqb u "" then None else Some (mkButton "View incident" u))
      "" (Some (alertCallout ev)) "".

Definition AlertEmail (ev : Event) : string * string * string := (buildEmail ev, RenderEmailHTML (alert_content ev)).

Definition TestEmail (channelName worksLine : string) (orgID : Z) : string * string * string :=
  ("[Pulse Pager] Test message",
   "This is a test message from Pulse Pager for channel " +:+ Quote channelName +:+ "." +:+ nl +:+ "If you received this, " +:+ worksLine +:+ "." +:+ nl,
   RenderEmailHTML (mkContent "Test message from Pulse Pager" (Some (mkBanner "Test" "test")) "Your channel is working"
     ("This is a test message from Pulse Pager for the channel " +:+ Quote channelName +:+ ". If you received this, " +:+ worksLine +:+
      " and you're all set to get real alerts here.") [] None ""
     (Some (mkCallout "Why am I getting this?"
        ("You sent this test from your Pulse Pager notification settings to check the " +:+ Quote channelName +:+ " channel.")
        "Back to your channels" (channelsURL (pretty orgID)))) "")).

Definition InviteEmail (orgName inviter role acceptURL locale : string) : string * string * string :=
  let invited := negb (String.eqb inviter "") in
  if HasPrefix (ToLower locale) "de" then
    let lead := if invited then inviter +:+ " hat dich eingeladen, " +:+ orgName +:+ " als " +:+ role
                else "Du wurdest eingeladen, " +:+ orgName +:+ " als " +:+ role in
    ("Du wurdest zu " +:+ orgName +:+ " bei Pulse Pager eingeladen",
     lead +:+ " beizutreten." +:+ nl +:+ nl +:+ "Einladung annehmen:" +:+ nl +:+ acceptURL +:+ nl +:+ nl +:+ "Dieser Link ist 7 Tage gultig." +:+ nl,
     RenderEmailHTML (mkContent ("Du wurdest zu " +:+ orgName +:+ " eingeladen") None ("Du wurdest zu " +:+ orgName +:+ " eingeladen")
       (lead +:+ " bei Pulse Pager beizutreten.") [] (Some (mkButton "Einladung annehmen" acceptURL)) "Dieser Link ist 7 Tage gultig." None
       "Wenn du diese Einladung nicht erwartet hast, kannst du diese E-Mail ignorieren."))
  else if HasPrefix (ToLower locale) "es" then
    let lead := if invited then inviter +:+ " te ha invitado a unirte a " +:+ orgName +:+ " como " +:+ role
                else "Te han invitado a unirte a " +:+ orgName +:+ " como " +:+ role in
    ("Te han invitado a " +:+ orgName +:+ " en Pulse Pager",
     lead +:+ "." +:+ nl +:+ nl +:+ "Acepta la invitacion:" +:+ nl +:+ acceptURL +:+ nl +:+ nl +:+ "Este enlace es valido durante 7 dias." +:+ nl,
     RenderEmailHTML (mkContent ("Te han invitado a " +:+ orgName) None ("Te han invitado a " +:+ orgName)
       (lead +:+ " en Pulse Pager.") [] (Some (mkButton "Aceptar invitacion" acceptURL)) "Este enlace es valido durante 7 dias." None
       "Si no esperabas esta invitacion, puedes ignorar este correo."))
  else
    let lead := if invited then inviter +:+ " invited you to join " +:+ orgName +:+ " as " +:+ role
                else "You've been invited to join " +:+ orgName +:+ " as " +:+ role in
    ("You're invited to " +:+ orgName +:+ " on Pulse Pager",
     lead +:+ "." +:+ nl +:+ nl +:+ "Accept the invitation:" +:+ nl +:+ acceptURL +:+ nl +:+ nl +:+ "This link is valid for 7 days." +:+ nl,
     RenderEmailHTML (mkContent ("You're invited to join " +:+ orgName) None ("You're invited to " +:+ orgName)
       (lead +:+ " on Pulse Pager. Accept below to get started.") [] (Some (mkButton "Accept invitation" acceptURL)) "This link is valid for 7 days." None
       "If you weren't expecting this invitation, you can ignore this email.")).

Definition MagicLinkEmail (verifyURL locale country userAgent : string) : string * string * string :=
  if HasPrefix locale "de" then
    ("Dein Anmeldelink fur Pulse Pager",
     "Klicke auf den Link, um dich bei Pulse Pager anzumelden:" +:+ nl +:+ nl +:+ verifyURL +:+ nl +:+ nl +:+
     "Dieser Link ist 15 Minuten gultig und kann nur einmal verwendet werden. Wenn du das nicht warst, ignoriere diese E-Mail." +:+ nl,
     RenderEmailHTML (mkContent "Dein Anmeldelink fur Pulse Pager" None "Bei Pulse Pager anmelden"
       "Klicke auf den Button, um dich bei Pulse Pager anzumelden." (signInRows country userAgent "Angefordert von" "Gerat" "Unbekannt")
       (Some (mkButton "Anmelden" verifyURL))
       "Dieser Link ist 15 Minuten gultig und kann nur einmal verwendet werden. Wenn du das nicht warst, ignoriere diese E-Mail." None
       "Aus Sicherheitsgrunden gib diesen Link niemals weiter."))
  else if HasPrefix locale "es" then
    ("Tu enlace para iniciar sesion en Pulse Pager",
     "Haz clic en el enlace para iniciar sesion en Pulse Pager:" +:+ nl +:+ nl +:+ verifyURL +:+ nl +:+ nl +:+
     "Este enlace es valido durante 15 minutos y solo se puede usar una vez. Si no fuiste tu, ignora este correo." +:+ nl,
     RenderEmailHTML (mkContent "Tu enlace para iniciar sesion en Pulse Pager" None "Inicia sesion en Pulse Pager"
       "Haz clic en el boton para iniciar sesion en Pulse Pager." (signInRows country userAgent "Solicitado desde" "Dispositivo" "Desconocido")
       (Some (mkButton "Iniciar sesion" verifyURL))
       "Este enlace es valido durante 15 minutos y solo se puede usar una vez. Si no fuiste tu, ignora este correo." None
       "Por seguridad, nunca compartas este enlace con nadie."))
  else
    ("Your Pulse Pager sign-in link",
     "Click the link to sign in to Pulse Pager:" +:+ nl +:+ nl +:+ verifyURL +:+ nl +:+ nl +:+
     "This link is valid for 15 minutes and can only be used once. If this wasn't you, you can ignore this email." +:+ nl,
     RenderEmailHTML (mkContent "Your Pulse Pager sign-in link" None "Sign in to Pulse Pager"
       "Click the button below to sign in to Pulse Pager." (signInRows country userAgent "Requested from" "Device" "Unknown")
       (Some (mkButton "Sign in" verifyURL))
       "This link is valid for 15 minutes and can only be used once. If this wasn't you, you can ignore this email." None
       "For your security, never share this link with anyone.")).
End emails.
