(* ===== verification/Providers.v ===== *)
(** * Providers: how each channel type delivers
    (src/internal/notify: slack.go, discord.go, webhook.go, pagerduty.go, opsgenie.go, teams.go,
    telegram.go, twilio.go, platformemail.go, smtp.go, mailer.go, emailintent.go, the manager of
    notify.go and the recording provider of service.go)

    One attempt of a provider is a function of its config and the event that returns its error and
    what it did on the network, in order.  HTTP is a client that answers with a status or an error;
    an SMTP server is the list of its answers; the mailer and the member resolver are interfaces. *)

From Stdlib Require Import QArith.
From S2P Require Import Prelude Domain GoStrings Alerting Store AlertingService Members MonitorApi Channels Render Crypto.
Open Scope Z_scope.

(** ** HTTP (slack.go) *)

Inductive Body := JSON (fields : gmap string any) | Form (fields : list (string * string)).

Record Request := mkRequest {
  rq_URL : string;
  rq_Headers : gmap string string;
  rq_BasicAuth : option (string * string);
  rq_Body : Body;
}.

Definition obj (fields : list (string * any)) : any := AMap (list_to_map fields).
Definition number (z : Z) : any := ANumber (inject_Z z).
(** A pointer field without omitempty: null when absent. *)
Definition nullable {A} (f : A -> any) (o : option A) : any := match o with Some x => f x | None => ANil end.

Record Mail := mkMail { ml_To : string; ml_From : string; ml_Subject : string; ml_Body : string; ml_HTML : string }.

Section providers.
(** [http.NewRequest]'s complaint about a URL, the canonical form of a header name, [%q], [%v]. *)
Context (NewRequest : string -> option string) (canonical Quote : string -> string) (Sprint : any -> string).
(** A client, and what it answers; [None] is the default client of [httpClientOrDefault]. *)
Context {Client : Type} (Do : option Client -> Request -> result string Z).

Definition set_header (h : gmap string string) (k v : string) : gmap string string := <[canonical k := v]> h.

(** Build, send, and check for a 2xx: the error, and the request if one was sent.  [tag] is the
    prefix of the provider's own errors. *)
Definition post (client : option Client) (tag url : string) (headers : gmap string string) (auth : option (string * string)) (body : Body) :
    option string * list (option Client * Request) :=
  match NewRequest url with
  | Some e => (Some (tag +:+ "build request: " +:+ e), [])
  | None =>
      let req := mkRequest url headers auth body in
      match Do client req with
      | Err e => (Some (tag +:+ (if String.eqb tag "" then "send request: " else "send: ") +:+ e), [(client, req)])
      | Ok status =>
          (if (status <? 200) || (300 <=? status) then Some (tag +:+ "unexpected status " +:+ pretty status) else None, [(client, req)])
      end
  end.

(** The custom headers in some order: Go's map order is not defined. *)
Definition postJSON (client : option Client) (url : string) (body : gmap string any) (headers : list (string * string)) :
    option string * list (option Client * Request) :=
  if String.eqb url "" then (Some "missing url", [])
  else
    let h := foldl (fun m kv => set_header m kv.1 kv.2) (set_header ∅ "Content-Type" "application/json") headers in
    post client "" url h None (JSON body).

(** ** Chat *)

Definition slack_Send (client : option Client) (cfg : gmap string any) (ev : Event) :=
  postJSON client (cfgString Sprint cfg "webhook_url")
    {[ "text" := AString (if ev_Test ev then testText Quote (ev_ChannelName ev) else slackText ev) ]} [].

Definition discord_Send (client : option Client) (cfg : gmap string any) (ev : Event) :=
  postJSON client (cfgString Sprint cfg "webhook_url")
    {[ "content" := AString (if ev_Test ev then testText Quote (ev_ChannelName ev) else discordText ev) ]} [].

Definition text_block (text : string) (extra : list (string * any)) : any :=
  obj ([("type", AString "TextBlock"); ("text", AString text); ("wrap", ABool true)] ++ extra).
Definition teamsCard (title body : string) : gmap string any :=
  list_to_map [
    ("type", AString "message");
    ("attachments", AList [obj [
      ("contentType", AString "application/vnd.microsoft.card.adaptive");
      ("contentUrl", ANil);
      ("content", obj [
        ("$schema", AString "http://adaptivecards.io/schemas/adaptive-card.json");
        ("type", AString "AdaptiveCard");
        ("version", AString "1.4");
        ("body", AList [text_block title [("weight", AString "Bolder"); ("size", AString "Medium")]; text_block body []])])]])].

Definition teams_Send (client : option Client) (cfg : gmap string any) (ev : Event) :=
  let url := cfgString Sprint cfg "webhook_url" in
  if String.eqb url "" then (Some "teams: missing webhook_url", [])
  else
    let '(title, body) := if ev_Test ev then ("Pulse Pager test message", testText Quote (ev_ChannelName ev))
                          else (summaryTitle ev, plainBody ev) in
    postJSON client url (teamsCard title body) [].

Definition telegram_Send (client : option Client) (cfg : gmap string any) (ev : Event) :=
  let token := cfgString Sprint cfg "bot_token" in
  let chatID := cfgString Sprint cfg "chat_id" in
  if String.eqb token "" then (Some "telegram: missing bot_token", [])
  else if String.eqb chatID "" then (Some "telegram: missing chat_id", [])
  else
    let text := if ev_Test ev then testText Quote (ev_ChannelName ev) else summaryTitle ev +:+ nl +:+ plainBody ev in
    postJSON client ("https://api.telegram.org/bot" +:+ token +:+ "/sendMessage")
      (list_to_map [("chat_id", AString chatID); ("text", AString text)]) [].

(** ** The generic webhook (webhook.go) *)

Definition buildEnvelope (ev : Event) : gmap string any :=
  let m := ev_Monitor ev in
  let i := ev_Incident ev in
  let c := ev_Check ev in
  list_to_map ([
    ("event", AString (ev_EventType ev));
    ("monitor", obj [("id", AString ("mon_" +:+ pretty (m_ID m))); ("name", AString (m_Name m)); ("url", AString (m_URL m)); ("method", AString (m_Method m))]);
    ("incident", obj [("id", AString ("inc_" +:+ pretty (i_ID i))); ("started_at", AString (rfc3339UTC (i_StartedAt i)));
                      ("ended_at", nullable (fun t => AString (rfc3339UTC t)) (i_EndedAt i))]);
    ("check", obj [("checked_at", AString (rfc3339UTC (r_CheckedAt c))); ("healthy", ABool (r_Healthy c));
                   ("failure_reason", nullable (fun r => AString (reason_string r)) (r_FailureReason c));
                   ("status_code", nullable number (r_StatusCode c)); ("latency_ms", nullable number (r_LatencyMs c));
                   ("error", nullable AString (r_ErrorText c))]);
    ("sent_at", AString (rfc3339UTC (ev_SentAt ev)))] ++
    (if is_recovery ev then match ev_DurationSeconds ev with Some d => [("duration_seconds", number d)] | None => [] end else [])).

(** The legacy key is read when the new one is absent or null. *)
Definition customHeaders (cfg : gmap string any) : list (string * string) :=
  let raw := match cfg !! "custom_headers" with None | Some ANil => cfg !! "headers" | v => v end in
  match raw with
  | Some (AMap m) => (fun kv => (kv.1, match kv.2 with AString s => s | v => Sprint v end)) <$> map_to_list m
  | _ => []
  end.

(** The envelope of a test is that of a down event of a made-up monitor. *)
Definition webhook_test_event (now : Time) : Event :=
  mkEvent EventDown_text
    (mkMonitor 0 0 MonitorUnset "Pulse Pager test monitor" "https://example.com" "GET" [] "" "" 0 0 false None None 0 [] DownPolicyUnset [])
    (mkIncident 0 0 0 now None None None None None) (mkResult 0 0 0 "" zeroTime now false None None None None None None None)
    None None now false "" 0.

Definition webhook_Send (now : Time) (client : option Client) (cfg : gmap string any) (ev : Event) :=
  postJSON client (cfgString Sprint cfg "url") (buildEnvelope (if ev_Test ev then webhook_test_event now else ev)) (customHeaders cfg).

(** ** On-call services (pagerduty.go, opsgenie.go) *)

Definition pdDedupKey (ev : Event) : string := "pulse-inc-" +:+ pretty (i_ID (ev_Incident ev)).
Definition pagerdutyEnqueueURL : string := "https://events.pagerduty.com/v2/enqueue".
Definition pdSeverity (ev : Event) : string := if String.eqb (ev_EventType ev) EventDown_text then "critical" else "info".

Definition pagerduty_body (routingKey : string) (ev : Event) : gmap string any :=
  list_to_map ([("routing_key", AString routingKey); ("dedup_key", AString (pdDedupKey ev))] ++
    (if is_recovery ev && negb (ev_Test ev) then [("event_action", AString "resolve")]
     else [("event_action", AString "trigger");
           ("payload", obj [("summary", AString (summaryTitle ev +:+ " - " +:+ m_URL (ev_Monitor ev)));
                            ("source", AString (m_URL (ev_Monitor ev))); ("severity", AString (pdSeverity ev))])])).

Definition pagerduty_Send (client : option Client) (cfg : gmap string any) (ev : Event) :=
  let routingKey := cfgString Sprint cfg "routing_key" in
  if String.eqb routingKey "" then (Some "pagerduty: missing routing_key", [])
  else postJSON client pagerdutyEnqueueURL (pagerduty_body routingKey ev) [].

Definition opsgenie_host (cfg : gmap string any) : string :=
  if String.eqb (cfgString Sprint cfg "region") "eu" then "https://api.eu.opsgenie.com" else "https://api.opsgenie.com".
Definition opsgenieAlias (ev : Event) : string := "pulse-inc-" +:+ pretty (i_ID (ev_Incident ev)).

(** The encoded runes of a string, as [[]rune] reads them: a byte that starts none is U+FFFD. *)
Definition cont (a : ascii) : bool := byte_in 128 191 a.
Definition replacement : string := String (ascii_of_N 239) (String (ascii_of_N 191) (String (ascii_of_N 189) "")).
Fixpoint runes (l : list ascii) : list string :=
  let one a := String a "" in
  match l with
  | [] => []
  | a :: l1 =>
      if byte_in 0 127 a then one a :: runes l1
      else match l1 with
      | b :: l2 =>
          if byte_in 194 223 a && cont b then String a (one b) :: runes l2
          else match l2 with
          | c :: l3 =>
              if ((byte_is 224 a && byte_in 160 191 b) || (byte_in 225 236 a && cont b) || (byte_is 237 a && byte_in 128 159 b) ||
                  (byte_in 238 239 a && cont b)) && cont c
              then String a (String b (one c)) :: runes l3
              else match l3 with
              | d :: l4 =>
                  if ((byte_is 240 a && byte_in 144 191 b) || (byte_in 241 243 a && cont b) || (byte_is 244 a && byte_in 128 143 b)) &&
                     cont c && cont d
                  then String a (String b (String c (one d))) :: runes l4
                  else replacement :: runes l1
              | [] => replacement :: runes l1
              end
          | [] => replacement :: runes l1
          end
      | [] => [replacement]
      end
  end.

Definition truncate (s : string) (n : nat) : string :=
  let r := runes (list_ascii_of_string s) in
  if (length r <=? n)%nat then s else foldr String.append "" (take n r).

(** Close the alias on a recovery, else create it; both with the key in a header. *)
Definition opsgenie_Send (client : option Client) (cfg : gmap string any) (ev : Event) :=
  let apiKey := cfgString Sprint cfg "api_key" in
  if String.eqb apiKey "" then (Some "opsgenie: missing api_key", [])
  else
    let headers := set_header (set_header ∅ "Content-Type" "application/json") "Authorization" ("GenieKey " +:+ apiKey) in
    if is_recovery ev && negb (ev_Test ev) then
      post client "opsgenie: " (opsgenie_host cfg +:+ "/v2/alerts/" +:+ opsgenieAlias ev +:+ "/close?identifierType=alias") headers None
        (JSON (list_to_map [("source", AString "pulse"); ("note", AString "auto-resolved: monitor recovered")]))
    else
      post client "opsgenie: " (opsgenie_host cfg +:+ "/v2/alerts") headers None
        (JSON (list_to_map [
          ("message", AString (truncate (summaryTitle ev) 130)); ("alias", AString (opsgenieAlias ev));
          ("description", AString (plainBody ev));
          ("priority", AString (if String.eqb (ev_EventType ev) EventDown_text then "P1" else "P3"))])).

(** ** SMS (twilio.go) *)

Definition twilio_Send (client : option Client) (cfg : gmap string any) (ev : Event) :=
  let accountSID := cfgString Sprint cfg "account_sid" in
  let authToken := cfgString Sprint cfg "auth_token" in
  let from := cfgString Sprint cfg "from" in
  let to := cfgString Sprint cfg "to" in
  if String.eqb accountSID "" || String.eqb authToken "" then (Some "twilio: missing account_sid or auth_token", [])
  else if String.eqb from "" || String.eqb to "" then (Some "twilio: missing from or to number", [])
  else
    let text := if ev_Test ev then "[Pulse Pager] Test message for channel " +:+ Quote (ev_ChannelName ev) +:+ "." else smsBody ev in
    post client "twilio: " ("https://api.twilio.com/2010-04-01/Accounts/" +:+ accountSID +:+ "/Messages.json")
      (set_header ∅ "Content-Type" "application/x-www-form-urlencoded") (Some (accountSID, authToken))
      (Form [("To", to); ("From", from); ("Body", text)]).
End providers.

(** ** E-mail messages (smtp.go) *)

(** The wrapping loop; each turn takes 76 characters off. *)
Fixpoint wrap_lines (fuel : nat) (enc : string) : string :=
  match fuel with
  | O => enc
  | S fuel' =>
      if (76 <? String.length enc)%nat
      then String.substring 0 76 enc +:+ crlf +:+ wrap_lines fuel' (String.substring 76 (String.length enc - 76) enc)
      else enc
  end.
Definition base64Wrapped (s : string) : string :=
  let enc := base64_encode (list_ascii_of_string s) in wrap_lines (String.length enc) enc.

Definition dq : string := String (ascii_of_N 34) "".

(** A part of a [multipart.Writer], and the whole: boundary lines, headers in key order, the body. *)
Definition part (headers : list (string * string)) (body : string) : string :=
  foldr (fun kv s => kv.1 +:+ ": " +:+ kv.2 +:+ crlf +:+ s) (crlf +:+ body) headers.
Definition multipart_body (boundary : string) (parts : list string) : string :=
  match parts with
  | [] => crlf +:+ "--" +:+ boundary +:+ "--" +:+ crlf
  | p :: ps =>
      "--" +:+ boundary +:+ crlf +:+ p +:+
      foldr (fun p s => crlf +:+ "--" +:+ boundary +:+ crlf +:+ p +:+ s) (crlf +:+ "--" +:+ boundary +:+ "--" +:+ crlf) ps
  end.

Definition base64_part (contentType content : string) (before : list (string * string)) : string :=
  part (before ++ [("Content-Transfer-Encoding", "base64"); ("Content-Type", contentType)]) (base64Wrapped content).

(** [strings.ReplaceAll(body, "\n", "\r\n")]. *)
Fixpoint to_crlf (s : string) : string :=
  match s with
  | EmptyString => ""
  | String a r => if Ascii.eqb a (ascii_of_N 10) then crlf +:+ to_crlf r else String a (to_crlf r)
  end.

Fixpoint join_comma (l : list string) : string :=
  match l with [] => "" | [x] => x | x :: l' => x +:+ ", " +:+ join_comma l' end.

Definition emailLogoCID : string := "pulselogo".

(** The logo, and the random boundaries of the two writers, are parameters. *)
Definition buildMessage (emailLogoPNG altBoundary relBoundary from : string) (to : list string) (subject body html : string) : string :=
  "From: " +:+ from +:+ crlf +:+ "To: " +:+ join_comma to +:+ crlf +:+ "Subject: " +:+ subject +:+ crlf +:+ "MIME-Version: 1.0" +:+ crlf +:+
  if String.eqb html "" then "Content-Type: text/plain; charset=" +:+ dq +:+ "utf-8" +:+ dq +:+ crlf +:+ crlf +:+ to_crlf body
  else
    let plain := "text/plain; charset=" +:+ dq +:+ "utf-8" +:+ dq in
    let htmlType := "text/html; charset=" +:+ dq +:+ "utf-8" +:+ dq in
    let alt := multipart_body altBoundary [base64_part plain body []; base64_part htmlType html []] in
    let logo := base64_part "image/png" emailLogoPNG
                  [("Content-Disposition", "inline; filename=" +:+ dq +:+ "pulse-logo.png" +:+ dq); ("Content-ID", "<" +:+ emailLogoCID +:+ ">")] in
    "Content-Type: multipart/related; boundary=" +:+ dq +:+ relBoundary +:+ dq +:+ "; type=" +:+ dq +:+ "multipart/alternative" +:+ dq +:+ crlf +:+ crlf +:+
    multipart_body relBoundary
      [part [("Content-Type", "multipart/alternative; boundary=" +:+ dq +:+ altBoundary +:+ dq)] alt; logo].

Definition tlsMode (cfg : gmap string any) : string :=
  match cfg !! "tls" with
  | Some (AString t) =>
      if existsb (String.eqb t) ["implicit"; "none"; "starttls"] then t
      else if existsb (String.eqb t) ["true"; "1"; "yes"] then "implicit" else "starttls"
  | Some (ABool true) => "implicit"
  | _ => "starttls"
  end.

(** ** The SMTP transport *)

(** What the client does, in order. *)
Inductive SMTPAction :=
  | DialTLS (addr : string) | Dial (addr : string) | StartTLS (upgraded : bool) | AuthPlain (user password : string)
  | MailFrom (addr : string) | RcptTo (addr : string) | Data (msg : string) | Quit.

(** A server: the answer to each step ([None] is success), the extensions it offers. *)
Record SMTPServer := mkSMTPServer {
  sv_dial : option string; sv_greeting : option string; sv_STARTTLS : bool; sv_starttls : option string;
  sv_AUTH : bool; sv_auth : option string; sv_mail : option string; sv_rcpt : string -> option string;
  sv_data : option string; sv_write : option string; sv_close : option string; sv_quit : option string;
}.

(** What smtp.PlainAuth takes for a host it may send a password to without TLS. *)
Definition isLocalhost (name : string) : bool := existsb (String.eqb name) ["localhost"; "127.0.0.1"; "::1"].

(** A CR or LF in a line is refused by the client. *)
Fixpoint has_newline (s : string) : bool :=
  match s with EmptyString => false | String a r => Ascii.eqb a (ascii_of_N 10) || Ascii.eqb a (ascii_of_N 13) || has_newline r end.
Definition bad_line : string := "smtp: A line must not contain CR or LF".

Section smtp.
(** The address of a display-name form, if it parses ([mail.ParseAddress]). *)
Context (ParseAddress : string -> option string) (server : SMTPServer).

Definition envelopeAddr (from : string) : string := default from (ParseAddress from).

Fixpoint rcpt_all (to : list string) : option string * list SMTPAction :=
  match to with
  | [] => (None, [])
  | r :: to' =>
      if has_newline r then (Some ("smtp: rcpt to " +:+ r +:+ ": " +:+ bad_line), [])
      else match sv_rcpt server r with
           | Some e => (Some ("smtp: rcpt to " +:+ r +:+ ": " +:+ e), [RcptTo r])
           | None => let '(e, acts) := rcpt_all to' in (e, RcptTo r :: acts)
           end
  end.

(** From MAIL FROM on. *)
Definition transfer (from : string) (to : list string) (msg : string) : option string * list SMTPAction :=
  let addr := envelopeAddr from in
  if has_newline addr then (Some ("smtp: mail from: " +:+ bad_line), [])
  else match sv_mail server with
  | Some e => (Some ("smtp: mail from: " +:+ e), [MailFrom addr])
  | None =>
      match rcpt_all to with
      | (Some e, acts) => (Some e, MailFrom addr :: acts)
      | (None, acts) =>
          match sv_data server with
          | Some e => (Some ("smtp: data: " +:+ e), MailFrom addr :: acts)
          | None =>
              match sv_write server with
              | Some e => (Some ("smtp: write: " +:+ e), MailFrom addr :: acts)
              | None =>
                  match sv_close server with
                  | Some e => (Some ("smtp: close data: " +:+ e), MailFrom addr :: acts ++ [Data msg])
                  | None => (sv_quit server, MailFrom addr :: acts ++ [Data msg; Quit])
                  end
              end
          end
      end
  end.

(** The upgrade where the server offers it, and whether the connection is encrypted after it: a
    STARTTLS that fails, at the command or in the handshake, leaves it as it was. *)
Definition starttls_step (useTLS : bool) : option string * list SMTPAction * bool :=
  if negb useTLS && sv_STARTTLS server then
    match sv_starttls server with
    | Some e => (Some ("smtp: starttls: " +:+ e), [StartTLS false], useTLS)
    | None => (None, [StartTLS true], true)
    end
  else (None, [], useTLS).

(** [c.Auth] with PlainAuth: refused off TLS unless the host is local (the QUIT the client sends
    when it gives up is not recorded). *)
Definition auth_step (tls : bool) (host : string) (auth : option (string * string)) : option string * list SMTPAction :=
  match auth with
  | Some (user, password) =>
      if sv_AUTH server then
        if negb tls && negb (isLocalhost host) then (Some "smtp: auth: unencrypted connection", [])
        else ((fun e => "smtp: auth: " +:+ e) <$> sv_auth server, [AuthPlain user password])
      else (None, [])
  | None => (None, [])
  end.

(** Run [k] after a step that did not fail. *)
Definition then_ (r : option string * list SMTPAction) (k : option string * list SMTPAction) : option string * list SMTPAction :=
  match r with (Some e, acts) => (Some e, acts) | (None, acts) => (k.1, acts ++ k.2) end.

Definition realSMTPSend (addr host : string) (auth : option (string * string)) (from : string) (to : list string) (msg : string)
    (useTLS : bool) : option string * list SMTPAction :=
  match sv_dial server with
  | Some e => (Some ((if useTLS then "smtp: dial tls: " else "smtp: dial: ") +:+ e), [])
  | None =>
      let dial := if useTLS then DialTLS addr else Dial addr in
      match sv_greeting server with
      | Some e => (Some ("smtp: new client: " +:+ e), [dial])
      | None =>
          let '(err, acts, tls) := starttls_step useTLS in
          then_ (None, [dial]) (then_ (err, acts) (then_ (auth_step tls host auth) (transfer from to msg)))
      end
  end.
End smtp.

Fixpoint has_colon (s : string) : bool := match s with EmptyString => false | String a r => Ascii.eqb a ":" || has_colon r end.
Definition JoinHostPort (host port : string) : string :=
  if has_colon host then "[" +:+ host +:+ "]:" +:+ port else host +:+ ":" +:+ port.

(** The transport seam [smtpSend]: address, host, credentials, sender, recipients, message, implicit TLS. *)
Definition SMTPSend : Type :=
  string -> string -> option (string * string) -> string -> list string -> string -> bool -> option string * list SMTPAction.

Section mail.
Context (smtpSend : SMTPSend) (message : string -> list string -> string -> string -> string -> string).
Context (Sprint : any -> string).

(** [deliver]: [message] is [buildMessage] with its logo and boundaries. *)
Definition smtp_deliver (cfg : gmap string any) (subject body html : string) : option string * list SMTPAction :=
  let host := cfgString Sprint cfg "host" in
  let port := cfgString Sprint cfg "port" in
  let username := cfgString Sprint cfg "username" in
  let password := cfgString Sprint cfg "password" in
  let from := cfgString Sprint cfg "from" in
  let to := recipients cfg in
  if String.eqb host "" then (Some "smtp: missing host", [])
  else
    let port := if String.eqb port "" then "587" else port in
    if String.eqb from "" then (Some "smtp: missing from address", [])
    else match to with
    | [] => (Some "smtp: missing recipients", [])
    | _ =>
        let auth := if String.eqb username "" then None else Some (username, password) in
        smtpSend (JoinHostPort host port) host auth from to (message from to subject body html) (String.eqb (tlsMode cfg) "implicit")
    end.

(** ** The platform mailer (mailer.go) *)

Record SMTPMailerConfig := mkMailerConfig {
  sc_Host : string; sc_Port : string; sc_Username : string; sc_Password : string; sc_From : string; sc_TLSMode : string;
}.

Definition NewSMTPMailer (cfg : SMTPMailerConfig) : SMTPMailerConfig :=
  mkMailerConfig (sc_Host cfg) (if String.eqb (sc_Port cfg) "" then "587" else sc_Port cfg) (sc_Username cfg) (sc_Password cfg) (sc_From cfg)
    (if String.eqb (sc_TLSMode cfg) "" then "starttls" else sc_TLSMode cfg).

Context (EqualFold : string -> string -> bool).

Definition SMTPMailer_Send (cfg : SMTPMailerConfig) (msg : Mail) : option string * list SMTPAction :=
  if String.eqb (sc_Host cfg) "" then (Some "mailer: missing host", [])
  else if String.eqb (sc_From cfg) "" then (Some "mailer: missing from address", [])
  else if String.eqb (ml_To msg) "" then (Some "mailer: missing recipient", [])
  else
    let from := if String.eqb (ml_From msg) "" then sc_From cfg else ml_From msg in
    let auth := if String.eqb (sc_Username cfg) "" then None else Some (sc_Username cfg, sc_Password cfg) in
    smtpSend (JoinHostPort (sc_Host cfg) (sc_Port cfg)) (sc_Host cfg) auth from [ml_To msg]
      (message from [ml_To msg] (ml_Subject msg) (ml_Body msg) (ml_HTML msg)) (EqualFold (sc_TLSMode cfg) "implicit").

(** [NewMailerFromConfig]: with no host, mails are logged and never fail. *)
Definition NewMailerFromConfig (host port username password from tlsMode : string) : Mail -> option string * list SMTPAction :=
  if String.eqb host "" then fun _ => (None, [])
  else SMTPMailer_Send (NewSMTPMailer (mkMailerConfig host port username password from tlsMode)).
End mail.

(** ** Team email (platformemail.go) *)

Section team.
(** The mailer's verdict on a mail, and the addresses of active members of an org. *)
Context (mailer : option (Mail -> option string)) (resolver : option (Z -> list Z -> result string (list string))).
Context (emailContent : Event -> string * string * string).

(** One mail per recipient, up to the first that fails. *)
Fixpoint send_each (mailer : Mail -> option string) (subject body html : string) (to : list string) : option string * list Mail :=
  match to with
  | [] => (None, [])
  | addr :: to' =>
      let m := mkMail addr "" subject body html in
      match mailer m with
      | Some e => (Some ("email: send to " +:+ addr +:+ ": " +:+ e), [])
      | None => let '(e, sent) := send_each mailer subject body html to' in (e, m :: sent)
      end
  end.

(** The error, and the mails the mailer took. *)
Definition email_Send (cfg : gmap string any) (ev : Event) : option string * list Mail :=
  match mailer, resolver with
  | None, _ => (Some "email: no mailer configured", [])
  | _, None => (Some "email: no member resolver configured", [])
  | Some mailer, Some resolve =>
      match memberIDs cfg with
      | [] => (Some "email: no members selected", [])
      | ids =>
          match resolve (ev_OrgID ev) ids with
          | Err e => (Some ("email: resolve members: " +:+ e), [])
          | Ok [] => (None, [])
          | Ok to => let '(subject, body, html) := emailContent ev in send_each mailer subject body html to
          end
      end
  end.
End team.

(** ** The manager's providers (notify.go, service.go) *)

(** A provider as the manager sees it: its type, whether it is the recording wrapper around the real
    one, and what was injected into the real one. *)
Record Provider := mkProvider {
  pv_Type : string; pv_recording : bool; pv_client : bool; pv_mailer : bool; pv_resolver : bool;
}.

Definition http_types : list string := ["slack"; "discord"; "webhook"; "pagerduty"; "opsgenie"; "telegram"; "teams"; "twilio"].

(** The interfaces a provider value has: the wrapper forwards the mailer and the resolver only. *)
Definition clientAware (p : Provider) : bool := negb (pv_recording p) && existsb (String.eqb (pv_Type p)) http_types.
Definition emailAware (p : Provider) : bool := String.eqb (pv_Type p) "email".

Record Manager := mkManager { mg_registry : gmap string Descriptor; mg_wrapped : bool; mg_maxRetries : Z }.

Definition NewManagerWithRegistry (reg : gmap string Descriptor) (wrapped : bool) : Manager := mkManager reg wrapped 3.
Definition SetRetryPolicy (attempts : Z) (m : Manager) : Manager :=
  mkManager (mg_registry m) (mg_wrapped m) (if attempts <? 1 then 1 else attempts).

(** [Factory], then the injections: each flag says whether the manager's own was set. *)
Definition provider (m : Manager) (t : string) : option Provider :=
  match mg_registry m !! t with
  | None => None
  | Some d =>
      let p := mkProvider (de_Type d) (mg_wrapped m) false false false in
      Some (mkProvider (pv_Type p) (pv_recording p) (clientAware p) (emailAware p) (emailAware p))
  end.

(** [recordingManager]: every factory wrapped, the retries carried over. *)
Definition recordingManager (m : Manager) : Manager :=
  mkManager (foldl (fun r d => Register d r) NewRegistry (Channels.List (mg_registry m))) true (mg_maxRetries m).

(** The event of a test message. *)
Definition test_event (now : Time) (ch : Channel) : Event :=
  mkEvent "" zero_monitor zero_incident zero_check None None now true (ch_Name ch) (ch_OrgID ch).

(** ** The recording provider: the channel's id in its config (service.go) *)

Definition channelIDKey : string := "__pulse_channel_id".
Definition stamp (ch : Channel) : gmap string any := <[channelIDKey := number (ch_ID ch)]> (ch_Config ch).
Definition stripChannelID (cfg : gmap string any) : gmap string any := delete channelIDKey cfg.
Definition channelIDFromCfg (cfg : gmap string any) : Z :=
  match cfg !! channelIDKey with Some (ANumber q) => int64_of q | _ => 0 end.

(** ** One attempt of any provider *)

Inductive Out (Client : Type) :=
  | OHTTP (client : option Client) (req : Request)
  | OMail (m : Mail)
  | OSMTP (a : SMTPAction).
Arguments OHTTP {Client} _ _.
Arguments OMail {Client} _.
Arguments OSMTP {Client} _.

Section send.
Context (NewRequest : string -> option string) (canonical Quote : string -> string) (Sprint : any -> string).
Context {Client : Type} (Do : option Client -> Request -> result string Z) (mgr_client : Client).
Context (smtpSend : SMTPSend) (message : string -> list string -> string -> string -> string -> string).
Context (mailer : option (Mail -> option string)) (resolver : option (Z -> list Z -> result string (list string))).
Context (AlertEmail_of : Event -> string * string * string) (TestEmail_of : string -> string -> Z -> string * string * string).

(** [emailContent], and the content of the SMTP channel. *)
Definition email_content (worksLine : string) (ev : Event) : string * string * string :=
  if ev_Test ev then TestEmail_of (ev_ChannelName ev) worksLine (ev_OrgID ev) else AlertEmail_of ev.

Definition smtp_Send (cfg : gmap string any) (ev : Event) : option string * list SMTPAction :=
  let '(subject, text, html) := email_content "the SMTP channel works" ev in smtp_deliver smtpSend message Sprint cfg subject text html.

Definition inner_Send (now : Time) (p : Provider) (cfg : gmap string any) (ev : Event) : option string * list (Out Client) :=
  let client := if pv_client p then Some mgr_client else None in
  let http r := (r.1, (fun cr => OHTTP cr.1 cr.2) <$> r.2) in
  if String.eqb (pv_Type p) "slack" then http (slack_Send NewRequest canonical Quote Sprint Do client cfg ev)
  else if String.eqb (pv_Type p) "discord" then http (discord_Send NewRequest canonical Quote Sprint Do client cfg ev)
  else if String.eqb (pv_Type p) "webhook" then http (webhook_Send NewRequest canonical Sprint Do now client cfg ev)
  else if String.eqb (pv_Type p) "pagerduty" then http (pagerduty_Send NewRequest canonical Sprint Do client cfg ev)
  else if String.eqb (pv_Type p) "opsgenie" then http (opsgenie_Send NewRequest canonical Sprint Do client cfg ev)
  else if String.eqb (pv_Type p) "telegram" then http (telegram_Send NewRequest canonical Quote Sprint Do client cfg ev)
  else if String.eqb (pv_Type p) "teams" then http (teams_Send NewRequest canonical Quote Sprint Do client cfg ev)
  else if String.eqb (pv_Type p) "twilio" then http (twilio_Send NewRequest canonical Quote Sprint Do client cfg ev)
  else if String.eqb (pv_Type p) "email" then
    let '(e, sent) := email_Send (if pv_mailer p then mailer else None) (if pv_resolver p then resolver else None)
                        (email_content "the Team email channel works") cfg ev in (e, OMail <$> sent)
  else let '(e, acts) := smtp_Send cfg ev in (e, OSMTP <$> acts).

(** The wrapper strips the stamped id; without it the config goes through as it is. *)
Definition provider_Send (now : Time) (p : Provider) (cfg : gmap string any) (ev : Event) : option string * list (Out Client) :=
  inner_Send now p (if pv_recording p then stripChannelID cfg else cfg) ev.

(** [Manager.Test]. *)
Definition manager_Test (now : Time) (m : Manager) (ch : Channel) : option string * list (Out Client) :=
  match provider m (ch_Type ch) with
  | None => (Some ("notify: no provider for channel type " +:+ Quote (ch_Type ch)), [])
  | Some p => provider_Send now p (ch_Config ch) (test_event now ch)
  end.

(** An attempt of a dispatch: the recording manager's provider on the stamped config, with the id
    the outcome is recorded under. *)
Definition dispatch_attempt (now : Time) (m : Manager) (ev : Event) (ch : Channel) : option (Z * (option string * list (Out Client))) :=
  match provider (recordingManager m) (ch_Type ch) with
  | None => None
  | Some p => Some (channelIDFromCfg (stamp ch), provider_Send now p (stamp ch) ev)
  end.
End send.

(** ** E-mail intents (emailintent.go); the magic link's is [Login.sendMagicLink] *)

Record InvitationRequested := mkInvitationRequested {
  iv_InvitationID : Z; iv_OrgID : Z; iv_OrgName : string; iv_Inviter : string; iv_Role : string; iv_Email : string;
}.

Section intents.
Context (mailer : Mail -> option string) (HashToken : string -> string) (appBaseURL fromAccount fromAlerts : string).
Context (InviteEmail_of : string -> string -> string -> string -> string -> string * string * string).
Context (TestEmail_of : string -> string -> Z -> string * string * string).

Definition mail_of (to from : string) (c : string * string * string) : Mail := mkMail to from c.1.1 c.1.2 c.2.

(** [raw] is the token drawn, [None] a failing random source; the error, the tables, the mails taken. *)
Definition sendInvitation (raw : option string) (payload : option InvitationRequested) (locale : string) (db : MDB) :
    option string * MDB * list Mail :=
  match payload with
  | None => (None, db, [])
  | Some p =>
      if (iv_InvitationID p =? 0) || (iv_OrgID p =? 0) then (None, db, [])
      else match raw with
      | None => (Some "mint invite token", db, [])
      | Some raw =>
          match SetInvitationToken (iv_OrgID p) (iv_InvitationID p) (HashToken raw) db with
          | (Err _, db') => (Some "set invite token", db', [])
          | (Ok affected, db') =>
              if affected =? 0 then (None, db', [])
              else
                let m := mail_of (iv_Email p) fromAccount
                           (InviteEmail_of (iv_OrgName p) (iv_Inviter p) (iv_Role p) (appBaseURL +:+ "/invitations/" +:+ raw) locale) in
                match mailer m with
                | Some e => (Some ("send invite to " +:+ iv_Email p +:+ ": " +:+ e), db', [])
                | None => (None, db', [m])
                end
          end
      end
  end.

Definition sendChannelTest (payload : option ChannelTestRequested) : option string * list Mail :=
  match payload with
  | None => (None, [])
  | Some p =>
      if String.eqb (ct_RequestedByEmail p) "" then (None, [])
      else
        let m := mail_of (ct_RequestedByEmail p) fromAlerts (TestEmail_of (ct_ChannelName p) "the Team email channel works" (ct_OrgID p)) in
        match mailer m with
        | Some e => (Some ("send channel test to " +:+ ct_RequestedByEmail p +:+ ": " +:+ e), [])
        | None => (None, [m])
        end
  end.
End intents.
