(* ===== verification/ProvidersInv.v ===== *)
(** * ProvidersInv: what the deliveries guarantee

    The alert of an incident at an on-call service follows its last delivered event; the Team email
    reaches active members of the org only, and repeats itself when it is retried; mail and SMTP
    passwords cross encrypted where the server can; the header block of a mail and what a name can put in it; the
    clients of the alert path; the link of an invitation mail is the one its row accepts. *)

From Stdlib Require Import QArith.
From S2P Require Import Prelude Domain GoStrings Alerting Store StoreInv AlertingService Authz Members MembersInv MonitorApi Channels ChannelsInv Render Providers.
Open Scope Z_scope.

(** ** On-call services pair a recovery with its incident *)

Definition alert_key (id : Z) : string := "pulse-inc-" +:+ pretty id.

#[export] Instance alert_key_inj : Inj (=) (=) alert_key.
Proof. intros x y H%string_app_inj_l. by apply (inj pretty) in H. Qed.

(** An on-call service: the keys of its open alerts, its state after a request and whether it
    answered with a 2xx status.  [asks r up k] is its documented API: the request [r] asks to open
    (or to close) the alert [k].  What it accepted it does; what it did not answer well it may or
    may not have done, but to that alert only. *)
Class OnCallService (S : Type) (opened : S -> gset string) (receive : S -> bool -> Request -> S) (asks : Request -> bool -> string -> Prop) : Prop := {
  accepted_is_done s r up k : asks r up k -> k ∈ opened (receive s true r) <-> up = true;
  others_untouched s ok r up k k' : asks r up k -> k' <> k -> k' ∈ opened (receive s ok r) <-> k' ∈ opened s;
}.

(** PagerDuty's Events API v2. *)
Definition pagerduty_asks (r : Request) (up : bool) (k : string) : Prop :=
  rq_URL r = "https://events.pagerduty.com/v2/enqueue" /\
  exists b, rq_Body r = JSON b /\ b !! "event_action" = Some (AString (if up then "trigger" else "resolve")) /\ b !! "dedup_key" = Some (AString k).

(** Opsgenie's Alert API at a host: create with an alias, close by alias. *)
Definition opsgenie_asks (host : string) (r : Request) (up : bool) (k : string) : Prop :=
  if up then rq_URL r = host +:+ "/v2/alerts" /\ exists b, rq_Body r = JSON b /\ b !! "alias" = Some (AString k)
  else rq_URL r = host +:+ "/v2/alerts/" +:+ k +:+ "/close?identifierType=alias".

(** The event is a test, or not a recovery: its alert is to be open. *)
Definition raises (ev : Event) : bool := ev_Test ev || negb (is_recovery ev).

Section on_call.
Context (NewRequest : string -> option string) (canonical : string -> string) (Sprint : any -> string).
Context {Client : Type} (client : option Client).

(** The answers of the service to the requests of one attempt. *)
#[local] Abbreviation Answers := (option Client -> Request -> result string Z).
Definition is_2xx (a : result string Z) : bool := match a with Ok status => (200 <=? status) && (status <? 300) | Err _ => false end.

Section service.
Context {S : Type} (opened : S -> gset string) (receive : S -> bool -> Request -> S) (asks : Request -> bool -> string -> Prop).
Context `{!OnCallService S opened receive asks}.
Context (send : Answers -> Event -> option string * list (option Client * Request)).

(** The service after one attempt to deliver an event. *)
Definition attempt_delivery (s : S) (a : Answers * Event) : S :=
  foldl (fun s r => receive s (is_2xx (a.1 r.1 r.2)) r.2) s (send a.1 a.2).2.

(** What [send] does: at most one request, about the alert of the event's incident; success is a 2xx answer. *)
Definition one_request : Prop := forall Do ev,
  match send Do ev with
  | (Some _, []) => True
  | (e, [(c, r)]) => asks r (raises ev) (alert_key (i_ID (ev_Incident ev))) /\ (e = None <-> is_2xx (Do c r) = true)
  | _ => False
  end.

Lemma attempt_other (Hone : one_request) s a k : k <> alert_key (i_ID (ev_Incident a.2)) -> k ∈ opened (attempt_delivery s a) <-> k ∈ opened s.
Proof using OnCallService0.
  intros Hk. unfold attempt_delivery. specialize (Hone a.1 a.2). destruct (send a.1 a.2) as [[e|] [|[c r] [|]]]; try done; simpl.
  - destruct Hone as [Ha _]. by eapply others_untouched.
  - destruct Hone as [Ha _]. by eapply others_untouched.
Qed.

Lemma attempts_other (Hone : one_request) run s k : Forall (fun a => k <> alert_key (i_ID (ev_Incident a.2))) run ->
  k ∈ opened (foldl attempt_delivery s run) <-> k ∈ opened s.
Proof using OnCallService0.
  intros Hr. revert s. induction Hr as [|a run Ha _ IH]; intros s; [done|]. simpl. rewrite IH. by apply attempt_other.
Qed.

Lemma attempt_succeeds (Hone : one_request) s Do ev : (send Do ev).1 = None ->
  alert_key (i_ID (ev_Incident ev)) ∈ opened (attempt_delivery s (Do, ev)) <-> raises ev = true.
Proof using OnCallService0.
  intros Hs. unfold attempt_delivery. specialize (Hone Do ev). simpl. destruct (send Do ev) as [e l]. simpl in *. subst e.
  destruct l as [|[c r] [|]]; try done. destruct Hone as [Ha Hok]. simpl. rewrite (proj1 Hok eq_refl). by apply accepted_is_done.
Qed.

(** Whatever failed before, the last event of an incident decides its alert once it is delivered. *)
Lemma last_event_decides (Hone : one_request) s pre Do ev post : (send Do ev).1 = None ->
  Forall (fun a => i_ID (ev_Incident a.2) <> i_ID (ev_Incident ev)) post ->
  alert_key (i_ID (ev_Incident ev)) ∈ opened (foldl attempt_delivery s (pre ++ (Do, ev) :: post)) <-> raises ev = true.
Proof using OnCallService0.
  intros Hs Hp. rewrite foldl_app. simpl. rewrite attempts_other; [by apply attempt_succeeds|done|].
  eapply Forall_impl; [exact Hp|]. intros a Ha Heq%(inj alert_key). congruence.
Qed.
End service.

Lemma post_one_request Do tag url h auth b (asked : Request -> Prop) : asked (mkRequest url h auth b) ->
  match post NewRequest Do client tag url h auth b with
  | (Some _, []) => True
  | (e, [(c, r)]) => asked r /\ (e = None <-> is_2xx (Do c r) = true)
  | _ => False
  end.
Proof.
  intros Ha. unfold post. destruct (NewRequest url); [done|]. unfold is_2xx. destruct (Do client _) as [status|e] eqn:Hd; rewrite ?Hd.
  - destruct ((status <? 200) || (300 <=? status)) eqn:Hb; rewrite ?Hd; (split; [done|]); rewrite andb_true_iff; apply orb_true_iff in Hb || apply orb_false_iff in Hb;
      split; try done; lia.
  - by split.
Qed.

Lemma pagerduty_one_request cfg : one_request pagerduty_asks (fun Do ev => pagerduty_Send NewRequest canonical Sprint Do client cfg ev).
Proof.
  intros Do ev. unfold pagerduty_Send. destruct (String.eqb _ ""); [done|]. unfold postJSON. simpl String.eqb. cbv iota.
  apply (post_one_request Do "" _ _ None _ (fun r => pagerduty_asks r (raises ev) (alert_key (i_ID (ev_Incident ev))))).
  split; [done|]. eexists. split; [done|]. unfold pagerduty_body, raises.
  by destruct (is_recovery ev), (ev_Test ev).
Qed.

Lemma opsgenie_one_request cfg :
  one_request (opsgenie_asks (opsgenie_host Sprint cfg)) (fun Do ev => opsgenie_Send NewRequest canonical Sprint Do client cfg ev).
Proof.
  intros Do ev. unfold opsgenie_Send. destruct (String.eqb _ ""); [done|].
  destruct (is_recovery ev && negb (ev_Test ev)) eqn:Hr.
  - apply (post_one_request Do _ _ _ None _ (fun r => opsgenie_asks (opsgenie_host Sprint cfg) r (raises ev) (alert_key (i_ID (ev_Incident ev))))).
    unfold raises. apply andb_true_iff in Hr as [-> ->%negb_true_iff]. done.
  - apply (post_one_request Do _ _ _ None _ (fun r => opsgenie_asks (opsgenie_host Sprint cfg) r (raises ev) (alert_key (i_ID (ev_Incident ev))))).
    assert (raises ev = true) as ->. { unfold raises. by destruct (is_recovery ev), (ev_Test ev). }
    split; [done|]. by eexists.
Qed.

(** C33: for PagerDuty and Opsgenie, over any series of delivery attempts, retries and failures
    included: once an event was delivered (the provider reported no error) and no later event is of
    the same incident, the alert of that incident at the service is open exactly if the event was
    not a recovery (a test counts as a failure), whatever failed before; and alerts of other keys,
    of other incidents or other tools, are never touched. *)
Theorem on_call_alerts_are_the_open_incidents {P O} (p_opened : P -> gset string) p_receive (o_opened : O -> gset string) o_receive pd og
    `{!OnCallService P p_opened p_receive pagerduty_asks, !OnCallService O o_opened o_receive (opsgenie_asks (opsgenie_host Sprint og))} run p o :
  let pager Do ev := pagerduty_Send NewRequest canonical Sprint Do client pd ev in
  let genie Do ev := opsgenie_Send NewRequest canonical Sprint Do client og ev in
  let p' := foldl (attempt_delivery p_receive pager) p run in
  let o' := foldl (attempt_delivery o_receive genie) o run in
  (forall pre Do ev post, run = pre ++ (Do, ev) :: post -> Forall (fun a => i_ID (ev_Incident a.2) <> i_ID (ev_Incident ev)) post ->
     ((pager Do ev).1 = None -> alert_key (i_ID (ev_Incident ev)) ∈ p_opened p' <-> raises ev = true) /\
     ((genie Do ev).1 = None -> alert_key (i_ID (ev_Incident ev)) ∈ o_opened o' <-> raises ev = true)) /\
  (forall k, Forall (fun a => k <> alert_key (i_ID (ev_Incident a.2))) run ->
     (k ∈ p_opened p' <-> k ∈ p_opened p) /\ (k ∈ o_opened o' <-> k ∈ o_opened o)).
Proof.
  intros pager genie p' o'. pose proof (pagerduty_one_request pd) as Hp. pose proof (opsgenie_one_request og) as Ho. split.
  - intros pre Do ev post -> Hl. split; intros Hs; by eapply last_event_decides.
  - intros k Hk. split; by eapply attempts_other.
Qed.
End on_call.

(** A test message opens an alert under the key of incident 0, titled as an outage of a monitor
    without a name, which no recovery resolves. *)
Example pagerduty_test_is_an_outage ch now :
  let b := pagerduty_body "key" (test_event now ch) in
  b !! "event_action" = Some (AString "trigger") /\ b !! "dedup_key" = Some (AString "pulse-inc-0") /\
  b !! "payload" = Some (obj [("summary", AString "DOWN:  - "); ("source", AString ""); ("severity", AString "info")]).
Proof. done. Qed.

(** ** Team email *)

Lemma send_each_spec mailer subject body html to :
  (exists pre bad post e, to = pre ++ bad :: post /\ Forall (fun a => mailer (mkMail a "" subject body html) = None) pre /\
     mailer (mkMail bad "" subject body html) = Some e /\
     send_each mailer subject body html to = (Some ("email: send to " +:+ bad +:+ ": " +:+ e), (fun a => mkMail a "" subject body html) <$> pre)) \/
  (Forall (fun a => mailer (mkMail a "" subject body html) = None) to /\
   send_each mailer subject body html to = (None, (fun a => mkMail a "" subject body html) <$> to)).
Proof.
  induction to as [|a to IH]; [by right|]. simpl. destruct (mailer (mkMail a "" subject body html)) as [e|] eqn:Hm.
  - left. exists [], a, to, e. split_and!; [done|constructor|done|done].
  - destruct IH as [(pre & bad & post & e & -> & Hp & Hb & Hs)|[Hp Hs]]; rewrite Hs.
    + left. exists (a :: pre), bad, post, e. split_and!; [done|by constructor|done|done].
    + right. split; [by constructor|done].
Qed.

Lemma elem_of_emails orgID ids db addr :
  addr ∈ ActiveMemberEmails orgID ids db <->
  exists k m u, memberships db !! k = Some m /\ mb_OrgID m = orgID /\ mb_UserID m ∈ ids /\
    users db !! mb_UserID m = Some u /\ us_Active u = true /\ us_Email u = addr.
Proof.
  unfold ActiveMemberEmails. rewrite sort_by_perm, list_elem_of_omap. split.
  - intros ([k m] & [Hk Ha]%rows_where_elem & Hu). simpl in Hu. unfold active_among in Ha. reflect_tests.
    destruct (users db !! mb_UserID m) as [u|] eqn:Hm; [|done]. simplify_eq/=. eauto 10.
  - intros (k & m & u & Hk & <- & Hin & Hu & Ha & <-). exists (k, m). split.
    + apply rows_where_elem. split; [done|]. unfold active_among. rewrite Z.eqb_refl, Hu, Ha. simpl. by rewrite bool_decide_eq_true_2.
    + simpl. by rewrite Hu.
Qed.

Section team_email.
Context (mailer : Mail -> option string) (content : Event -> string * string * string) (db : MDB).
Abbreviation resolver := (fun orgID ids => Ok (E:=string) (ActiveMemberEmails orgID ids db)).
Abbreviation attempt := (email_Send (Some mailer) (Some resolver) content).

(** A Team email goes to nobody outside the org: whatever ids the channel's config holds, every
    mail of an attempt goes to the address of a member of the event's org who is named by the
    config and whose account is active when it is sent. *)
Theorem team_email_stays_in_org cfg ev m :
  m ∈ (attempt cfg ev).2 ->
  exists k mb u, memberships db !! k = Some mb /\ mb_OrgID mb = ev_OrgID ev /\ mb_UserID mb ∈ memberIDs cfg /\
    users db !! mb_UserID mb = Some u /\ us_Active u = true /\ ml_To m = us_Email u.
Proof.
  unfold email_Send. destruct (memberIDs cfg) as [|i ids] eqn:Hids; [set_solver|].
  destruct (ActiveMemberEmails (ev_OrgID ev) (i :: ids) db) as [|a to] eqn:Hto; [set_solver|].
  destruct (content ev) as [[subject body] html]. intros Hm.
  assert (ml_To m ∈ a :: to) as Hin.
  { destruct (send_each_spec mailer subject body html (a :: to)) as [(pre & bad & post & e & Heq & _ & _ & Hs)|[_ Hs]]; rewrite Hs in Hm;
      apply list_elem_of_fmap in Hm as (x & -> & Hx); [rewrite Heq|done]. simpl. set_solver. }
  rewrite <- Hto in Hin. apply elem_of_emails in Hin as (k & mb & u & Hk & Ho & Hi & Hu & Ha & He). eauto 10.
Qed.

(** The mails of a number of attempts, while nothing changes. *)
Definition attempts (n : nat) (cfg : gmap string any) (ev : Event) : list Mail := concat (replicate n (attempt cfg ev).2).

(** When the mailer takes the mails of some recipients and refuses that of the next, every
    attempt fails, and the manager retries the whole list: the first recipients get the alert once
    per attempt, and those after the refused one never get it. *)
Theorem team_email_retry_repeats cfg ev n pre bad post e :
  memberIDs cfg <> [] -> ActiveMemberEmails (ev_OrgID ev) (memberIDs cfg) db = pre ++ bad :: post -> NoDup (pre ++ bad :: post) ->
  Forall (fun a => mailer (mkMail a "" (content ev).1.1 (content ev).1.2 (content ev).2) = None) pre ->
  mailer (mkMail bad "" (content ev).1.1 (content ev).1.2 (content ev).2) = Some e ->
  is_Some (attempt cfg ev).1 /\
  (forall a, a ∈ pre -> length (filter (fun m => ml_To m = a) (attempts n cfg ev)) = n) /\
  (forall a, a ∈ bad :: post -> filter (fun m => ml_To m = a) (attempts n cfg ev) = []).
Proof.
  intros Hids Hto Hnd Hpre Hbad.
  assert (exists err, attempt cfg ev = (Some err, (fun a => mkMail a "" (content ev).1.1 (content ev).1.2 (content ev).2) <$> pre)) as [err Ha].
  { unfold email_Send. destruct (memberIDs cfg) as [|i ids]; [done|]. rewrite Hto. destruct (pre ++ bad :: post) as [|x l] eqn:Hl; [by destruct pre|].
    rewrite <- Hl in *. destruct (content ev) as [[subject body] html]. simpl in *. clear Hl Hto Hnd.
    induction Hpre as [|a pre Hm _ IH]; simpl; [rewrite Hbad; eauto|]. rewrite Hm. destruct IH as [err ->]. eauto. }
  rewrite Ha. split; [eauto|]. unfold attempts. rewrite Ha. cbn [snd].
  set (mk := fun a => mkMail a "" (content ev).1.1 (content ev).1.2 (content ev).2).
  assert (forall a, filter (fun m => ml_To m = a) (mk <$> pre) = mk <$> filter (fun x => x = a) pre) as Hf.
  { intros a. clear. induction pre as [|x pre IH]; [done|]. rewrite fmap_cons, !filter_cons. simpl. by case_decide; rewrite IH. }
  assert (forall a, filter (fun m => ml_To m = a) (concat (replicate n (mk <$> pre))) = concat (replicate n (mk <$> filter (fun x => x = a) pre))) as Hc.
  { intros a. induction n as [|n IH]; [done|]. simpl. by rewrite filter_app, IH, Hf. }
  apply NoDup_app in Hnd as (Hnp & Hdis & _). split; intros a Hin; rewrite Hc.
  - assert (length (filter (fun x => x = a) pre) = 1)%nat as Hone.
    { clear -Hnp Hin. induction Hnp as [|x l Hx _ IH]; [set_solver|]. rewrite filter_cons. case_decide as Hd; [subst x|].
      - simpl. f_equal. rewrite filter_none; [done|]. apply Forall_forall. intros y Hy ->. done.
      - apply IH. set_solver. }
    clear Hc. induction n as [|n IH]; [done|]. simpl. by rewrite length_app, length_fmap, Hone, IH.
  - rewrite filter_none; [clear; by induction n|]. apply Forall_forall. intros y Hy ->. by apply (Hdis a).
Qed.
End team_email.

(** ** SMTP *)

(** The steps of the mail itself. *)
Definition of_mail (a : SMTPAction) : bool := match a with MailFrom _ | RcptTo _ | Data _ | Quit => true | _ => false end.

Lemma rcpt_of_mail server to a : a ∈ (rcpt_all server to).2 -> of_mail a = true.
Proof.
  induction to as [|r to IH]; simpl; [set_solver|]. destruct (has_newline r); [set_solver|]. destruct (sv_rcpt server r); [by intros ->%list_elem_of_singleton|].
  destruct (rcpt_all server to) as [e acts]. by intros [->|?]%elem_of_cons; [|apply IH].
Qed.

Lemma transfer_of_mail ParseAddress server from to msg a : a ∈ (transfer ParseAddress server from to msg).2 -> of_mail a = true.
Proof.
  pose proof (rcpt_of_mail server to a) as Hr. unfold transfer. destruct (has_newline _); [set_solver|]. destruct (sv_mail server); [by intros ->%list_elem_of_singleton|].
  destruct (rcpt_all server to) as [[e|] acts]; simpl in *; [by intros [->|?]%elem_of_cons; [|apply Hr]|].
  destruct (sv_data server); [by intros [->|?]%elem_of_cons; [|apply Hr]|]. destruct (sv_write server); [by intros [->|?]%elem_of_cons; [|apply Hr]|].
  destruct (sv_close server); simpl; rewrite elem_of_cons, elem_of_app, ?elem_of_cons, elem_of_nil; naive_solver.
Qed.

Lemma auth_no_tls server tls host auth b : StartTLS b ∉ (auth_step server tls host auth).2.
Proof. unfold auth_step. destruct auth as [[]|]; [|set_solver]. destruct (sv_AUTH server); [|set_solver]. destruct (_ && _); set_solver. Qed.

Lemma then_actions r k x : x ∈ (then_ r k).2 -> x ∈ r.2 \/ x ∈ k.2.
Proof. destruct r as [[]]; simpl; set_solver. Qed.

(** What crosses the network in the clear: every step taken before the connection is encrypted. *)
Fixpoint in_clear (acts : list SMTPAction) : list SMTPAction :=
  match acts with
  | [] => []
  | DialTLS _ :: _ | StartTLS true :: _ => []
  | a :: r => a :: in_clear r
  end.

Lemma in_clear_sub acts a : a ∈ in_clear acts -> a ∈ acts.
Proof. induction acts as [|[| |[]| | | | |] r IH]; simpl; rewrite ?elem_of_cons, ?elem_of_nil; try done; intros [->|H]; auto. Qed.

(** C26: mail and credentials cross the network encrypted wherever the server can encrypt: in
    implicit mode, and with any server that offers STARTTLS, nothing is sent in the clear but the
    opening of the connection and a STARTTLS command the server refused, after which the delivery
    fails and sends nothing; and a server that offers no encryption never gets a password, unless
    it is the machine itself. *)
Theorem smtp_password_never_in_clear ParseAddress server addr host auth from to msg useTLS :
  let r := realSMTPSend ParseAddress server addr host auth from to msg useTLS in
  (useTLS = true \/ sv_STARTTLS server = true -> forall a, a ∈ in_clear r.2 -> a = Dial addr \/ a = StartTLS false) /\
  (StartTLS false ∈ r.2 -> is_Some r.1 /\ r.2 = [Dial addr; StartTLS false]) /\
  (forall u p, AuthPlain u p ∈ in_clear r.2 -> isLocalhost host = true).
Proof.
  intros r. unfold r, realSMTPSend. pose proof (transfer_of_mail ParseAddress server from to msg) as Hm.
  destruct (sv_dial server); [set_solver|]. destruct (sv_greeting server); [destruct useTLS; set_solver|].
  unfold starttls_step. destruct useTLS; cbn [negb andb then_ fst snd app in_clear].
  { split_and!; [set_solver| |set_solver]. intros [|[Hs|Hs]%then_actions]%elem_of_cons; [done| |].
    - by apply auth_no_tls in Hs.
    - by apply Hm in Hs. }
  destruct (sv_STARTTLS server); [destruct (sv_starttls server)|]; cbn [negb andb then_ fst snd app in_clear].
  - split_and!; [set_solver|split; [by eexists|done]|set_solver].
  - split_and!; [set_solver| |set_solver]. intros [|[|[Hs|Hs]%then_actions]%elem_of_cons]%elem_of_cons; [done..| |].
    + by apply auth_no_tls in Hs.
    + by apply Hm in Hs.
  - split_and!; [by intros []| |].
    + intros [|[Hs|Hs]%then_actions]%elem_of_cons; [done|by apply auth_no_tls in Hs|by apply Hm in Hs].
    + intros u p [|Hin%in_clear_sub]%elem_of_cons; [done|]. apply then_actions in Hin as [Hin|Hin]; [|by apply Hm in Hin].
      unfold auth_step in Hin. destruct auth as [[user pw]|]; [|set_solver]. destruct (sv_AUTH server); [|set_solver].
      destruct (isLocalhost host); [done|]. simpl in Hin. set_solver.
Qed.

(** A channel whose TLS mode is none is delivered as one whose mode is starttls: if the server
    offers STARTTLS the connection is upgraded, although the mode is documented never to. *)
Theorem smtp_none_upgrades ParseAddress server message Sprint cfg subject body html addr host auth from to msg :
  smtp_deliver (realSMTPSend ParseAddress server) message Sprint (<["tls" := AString "none"]> cfg) subject body html =
  smtp_deliver (realSMTPSend ParseAddress server) message Sprint (<["tls" := AString "starttls"]> cfg) subject body html /\
  (sv_dial server = None -> sv_greeting server = None -> sv_STARTTLS server = true ->
   sv_starttls server = None ->
   StartTLS true ∈ (realSMTPSend ParseAddress server addr host auth from to msg (String.eqb (tlsMode (<["tls" := AString "none"]> cfg)) "implicit")).2).
Proof.
  assert (forall v, tlsMode (<["tls" := AString v]> cfg) = (if existsb (String.eqb v) ["implicit"; "none"; "starttls"] then v
      else if existsb (String.eqb v) ["true"; "1"; "yes"] then "implicit" else "starttls")) as Hm.
  { intros v. unfold tlsMode. by rewrite lookup_insert_eq. }
  split.
  - unfold smtp_deliver, cfgString, recipients. rewrite !Hm. by rewrite !lookup_insert_ne by done.
  - intros Hd Hg Hs Ht. rewrite Hm. unfold realSMTPSend, starttls_step. simpl. rewrite Hd, Hg, Hs, Ht. simpl. set_solver.
Qed.
(** ** The header block of a message *)

(** The lines up to the first empty one, each ended by CR LF. *)
Fixpoint header_lines (fuel : nat) (cur msg : string) : list string :=
  match fuel with
  | O => []
  | S fuel' =>
      match msg with
      | String a (String b rest) =>
          if Ascii.eqb a (ascii_of_N 13) && Ascii.eqb b (ascii_of_N 10) then
            if String.eqb cur "" then [] else cur :: header_lines fuel' "" rest
          else header_lines fuel' (cur +:+ String a "") (String b rest)
      | _ => []
      end
  end.
Definition headers_of (msg : string) : list string := header_lines (String.length msg) "" msg.

Lemma header_line fuel cur l rest :
  has_newline l = false -> (String.length l + 2 <= fuel)%nat -> cur +:+ l <> "" ->
  exists fuel', header_lines fuel cur (l +:+ crlf +:+ rest) = (cur +:+ l) :: header_lines fuel' "" rest /\ (fuel <= fuel' + String.length l + 2)%nat.
Proof.
  revert fuel cur. induction l as [|a l IH]; intros fuel cur Hn Hf Hne.
  - rewrite string_app_nil_r in *. destruct fuel as [|fuel]; [simpl in Hf; lia|]. exists fuel. simpl. rewrite (proj2 (String.eqb_neq _ _) Hne).
    split; [done|lia].
  - simpl in Hn, Hf. apply orb_false_iff in Hn as [[Ha10 Ha13]%orb_false_iff Hn]. destruct fuel as [|fuel]; [lia|].
    assert (exists b r, l +:+ crlf +:+ rest = String b r) as (b & r & Hb) by (destruct l; by do 2 eexists).
    assert (header_lines (S fuel) cur (String a l +:+ crlf +:+ rest) = header_lines fuel (cur +:+ String a "") (l +:+ crlf +:+ rest)) as ->.
    { change (String a l +:+ crlf +:+ rest) with (String a (l +:+ crlf +:+ rest)). rewrite Hb. simpl. by rewrite Ha13. }
    destruct (IH fuel (cur +:+ String a "")) as (fuel' & He & Hl); [done|lia|by destruct cur|].
    exists fuel'. rewrite He. rewrite !string_app_assoc. split; [done|]. simpl. lia.
Qed.

Definition no_newline (s : string) : Prop := has_newline s = false.

Lemma no_newline_app a b : no_newline a -> no_newline b -> no_newline (a +:+ b).
Proof.
  unfold no_newline. induction a as [|x a IH]; [done|]. intros Ha Hb. change (String x a +:+ b) with (String x (a +:+ b)). simpl in *.
  apply orb_false_iff in Ha as [-> Ha]. by apply IH.
Qed.

Definition content_type (relBoundary html : string) : string :=
  if String.eqb html "" then "Content-Type: text/plain; charset=" +:+ dq +:+ "utf-8" +:+ dq
  else "Content-Type: multipart/related; boundary=" +:+ dq +:+ relBoundary +:+ dq +:+ "; type=" +:+ dq +:+ "multipart/alternative" +:+ dq.

Lemma content_type_line rel html : no_newline rel -> no_newline (content_type rel html) /\ content_type rel html <> "".
Proof.
  intros Hr. unfold content_type. destruct (String.eqb html ""); [done|]. split; [|done]. by repeat (apply no_newline_app; [done|]).
Qed.

Lemma header_block fuel ls rest :
  Forall (fun l => no_newline l /\ l <> "") ls -> (String.length (foldr (fun l s => l +:+ crlf +:+ s) (crlf +:+ rest) ls) <= fuel)%nat ->
  header_lines fuel "" (foldr (fun l s => l +:+ crlf +:+ s) (crlf +:+ rest) ls) = ls.
Proof.
  revert fuel. induction ls as [|l ls IH]; intros fuel Hls Hf; simpl in Hf.
  - destruct fuel as [|fuel]; [rewrite string_app_length in Hf; simpl in Hf; lia|]. done.
  - inversion Hls as [|? ? [Hl Hne] Hls']; subst. simpl. rewrite !string_app_length in Hf. simpl in Hf.
    destruct (header_line fuel "" l (foldr (fun l s => l +:+ crlf +:+ s) (crlf +:+ rest) ls)) as (fuel' & -> & Hl'); [done|lia|done|].
    f_equal. apply IH; [done|]. lia.
Qed.

Lemma message_lines logo alt rel from to subject body html :
  exists rest, buildMessage logo alt rel from to subject body html =
  foldr (fun l s => l +:+ crlf +:+ s) (crlf +:+ rest)
    ["From: " +:+ from; "To: " +:+ join_comma to; "Subject: " +:+ subject; "MIME-Version: 1.0"; content_type rel html].
Proof.
  unfold buildMessage, content_type. cbn [foldr]. destruct (String.eqb html ""); eexists; rewrite ?string_app_assoc; reflexivity.
Qed.

(** When the sender, the recipients and the subject hold no line break, the header block of a
    message is its five headers and nothing else. *)
Theorem mail_headers_are_the_five logo alt rel from to subject body html :
  no_newline from -> no_newline (join_comma to) -> no_newline subject -> no_newline rel ->
  headers_of (buildMessage logo alt rel from to subject body html) =
  ["From: " +:+ from; "To: " +:+ join_comma to; "Subject: " +:+ subject; "MIME-Version: 1.0"; content_type rel html].
Proof.
  intros Hf Ht Hs Hr. destruct (message_lines logo alt rel from to subject body html) as [rest ->]. unfold headers_of.
  apply header_block; [|done]. repeat constructor; try done; try (apply no_newline_app; done); by apply content_type_line.
Qed.

(** A monitor's name may hold a line break, and the subject of an alert takes it as it is: the mail
    then carries a header of the name's choosing. *)
Definition ex_named_event (name : string) : Event :=
  mkEvent EventDown_text
    (mkMonitor 5 1 MonitorHTTP name "https://x" "GET" [] "" "2xx" 10 60 true None None 1 [] DownPolicyAny []) (mkIncident 9 1 5 0 None None None None None)
    zero_check None None 0 false "" 1.

(** The name of a monitor can add headers to its alert mails: whatever header stands after a
    line break in the name becomes a header of the mail, between its subject and the rest; and the
    api accepts such a name. *)
Theorem monitor_name_injects_headers logo alt rel from to body html base header :
  no_newline from -> no_newline (join_comma to) -> no_newline base -> no_newline rel -> no_newline header -> header <> "" ->
  headers_of (buildMessage logo alt rel from to (buildEmail (ex_named_event (base +:+ crlf +:+ header))).1 body html) =
    ["From: " +:+ from; "To: " +:+ join_comma to; "Subject: [Pulse Pager] DOWN: " +:+ base; header; "MIME-Version: 1.0"; content_type rel html] /\
  name_error ("api" +:+ crlf +:+ "Bcc: eve@evil.example") = "".
Proof.
  intros Hf Ht Hb Hr Hh Hne. split; [|by vm_compute].
  destruct (message_lines logo alt rel from to (buildEmail (ex_named_event (base +:+ crlf +:+ header))).1 body html) as [rest ->].
  change ((buildEmail (ex_named_event (base +:+ crlf +:+ header))).1) with ("[Pulse Pager] DOWN: " +:+ (base +:+ crlf +:+ header)).
  assert (forall s, foldr (fun l s => l +:+ crlf +:+ s) s ["From: " +:+ from; "To: " +:+ join_comma to;
      "Subject: " +:+ ("[Pulse Pager] DOWN: " +:+ (base +:+ crlf +:+ header)); "MIME-Version: 1.0"; content_type rel html] =
    foldr (fun l s => l +:+ crlf +:+ s) s ["From: " +:+ from; "To: " +:+ join_comma to; "Subject: [Pulse Pager] DOWN: " +:+ base; header;
      "MIME-Version: 1.0"; content_type rel html]) as ->.
  { intros s. cbn [foldr]. rewrite !string_app_assoc. reflexivity. }
  apply header_block; [|done]. repeat constructor; try done; try (apply no_newline_app; done); by apply content_type_line.
Qed.

(** ** The alert path: recording, and the clients *)

Lemma post_client {Client : Type} NewRequest (Do : option Client -> Request -> result string Z) client tag url h auth body c r :
  (c, r) ∈ (post NewRequest Do client tag url h auth body).2 -> c = client.
Proof. unfold post. destruct (NewRequest url); [set_solver|]. destruct (Do client _); set_solver. Qed.

Lemma postJSON_client {Client : Type} NewRequest canonical (Do : option Client -> Request -> result string Z) client url body h c r :
  (c, r) ∈ (postJSON NewRequest canonical Do client url body h).2 -> c = client.
Proof. unfold postJSON. destruct (String.eqb url ""); [set_solver|]. apply post_client. Qed.

(** A registry as [Register] builds it: every descriptor under its own type. *)
Definition by_type (r : gmap string Descriptor) : Prop := forall t d, r !! t = Some d -> de_Type d = t.

Lemma default_by_type Sprint : by_type (Default Sprint).
Proof. intros t d Hd. by apply registered in Hd as [_ ?]. Qed.

Lemma register_all l : forall (r : gmap string Descriptor) t,
  foldl (fun r d => Register d r) r l !! t = match find (fun d => String.eqb (de_Type d) t) (rev l) with Some d => Some d | None => r !! t end.
Proof.
  induction l as [|d l IH] using rev_ind; intros r t; [done|]. rewrite foldl_app, rev_app_distr. simpl. unfold Register at 1.
  destruct (String.eqb_spec (de_Type d) t) as [<-|Hne]; [by rewrite lookup_insert_eq|]. by rewrite lookup_insert_ne, IH by done.
Qed.

(** Wrapping every factory keeps the registry. *)
Lemma rewrapped m : by_type (mg_registry m) -> mg_registry (recordingManager m) = mg_registry m.
Proof.
  intros Hty. apply map_eq. intros t. simpl. rewrite register_all. unfold NewRegistry. rewrite lookup_empty.
  assert (forall d, In d (rev (Channels.List (mg_registry m))) <-> mg_registry m !! de_Type d = Some d) as Hin.
  { intros d. rewrite <- in_rev. unfold Channels.List. rewrite <- list_elem_of_In, sort_by_perm, list_elem_of_fmap. split.
    - intros ([t' d'] & -> & Hd%elem_of_map_to_list). simpl. by rewrite (Hty _ _ Hd).
    - intros Hd. exists (de_Type d, d). split; [done|]. by apply elem_of_map_to_list. }
  destruct (find _ _) as [d|] eqn:Hf.
  - apply find_some in Hf as [Hd%Hin <-%String.eqb_eq]. done.
  - destruct (mg_registry m !! t) as [d|] eqn:Hd; [|done]. pose proof (Hty _ _ Hd) as Ht.
    eapply find_none in Hf; [|by apply Hin; rewrite Ht]. by rewrite Ht, String.eqb_refl in Hf.
Qed.

Lemma recording_provider m t : by_type (mg_registry m) ->
  provider (recordingManager m) t = (fun d => mkProvider (de_Type d) true false (String.eqb (de_Type d) "email") (String.eqb (de_Type d) "email")) <$> mg_registry m !! t.
Proof. intros Hty. unfold provider. rewrite rewrapped by done. by destruct (mg_registry m !! t). Qed.

Section alert_path.
Context (NewRequest : string -> option string) (canonical Quote : string -> string) (Sprint : any -> string).
Context {Client : Type} (Do : option Client -> Request -> result string Z) (mgr_client : Client).
Context (smtpSend : SMTPSend) (message : string -> list string -> string -> string -> string -> string).
Context (mailer : option (Mail -> option string)) (resolver : option (Z -> list Z -> result string (list string))).
Context (AlertEmail_of : Event -> string * string * string) (TestEmail_of : string -> string -> Z -> string * string * string).
Abbreviation send := (inner_Send NewRequest canonical Quote Sprint Do mgr_client smtpSend message mailer resolver AlertEmail_of TestEmail_of).
Abbreviation attempt := (dispatch_attempt NewRequest canonical Quote Sprint Do mgr_client smtpSend message mailer resolver AlertEmail_of TestEmail_of).

Lemma inner_client now p cfg ev c r : OHTTP c r ∈ (send now p cfg ev).2 -> c = if pv_client p then Some mgr_client else None.
Proof.
  assert (forall res : option string * list (option Client * Request),
    (forall c r, (c, r) ∈ res.2 -> c = if pv_client p then Some mgr_client else None) ->
    OHTTP c r ∈ (res.1, (fun cr => OHTTP cr.1 cr.2) <$> res.2).2 -> c = if pv_client p then Some mgr_client else None) as Hres.
  { intros res Hc Hin. cbn [snd] in Hin. apply list_elem_of_fmap in Hin as ([c' r'] & [= -> ->] & Hin). eauto. }
  unfold inner_Send. cbv zeta.
  do 8 (destruct (String.eqb (pv_Type p) _);
    [apply Hres; clear; intros c r; unfold slack_Send, discord_Send, webhook_Send, pagerduty_Send, opsgenie_Send, telegram_Send, teams_Send, twilio_Send;
     cbv zeta; repeat match goal with |- (_, _) ∈ snd (if ?b then _ else _) -> _ => destruct b | |- (_, _) ∈ snd (let (_, _) := ?b in _) -> _ => destruct b end;
     first [apply postJSON_client | apply post_client | cbn [snd]; set_solver]|]).
  destruct (String.eqb (pv_Type p) _).
  - destruct (email_Send _ _ _ _ _). cbn [snd]. intros (x & ? & _)%list_elem_of_fmap. done.
  - destruct (smtp_Send _ _ _ _ _ _ _). cbn [snd]. intros (x & ? & _)%list_elem_of_fmap. done.
Qed.

(** Recording an attempt does not change it: for a channel with an int64 id and a config that
    does not use the reserved key, the attempt of a dispatch is the provider's own on the config as
    it is stored, with the channel's client left out, and its outcome is filed under the channel's
    id. *)
Theorem recording_is_transparent now m ev ch d :
  by_type (mg_registry m) -> mg_registry m !! ch_Type ch = Some d -> in_int64 (ch_ID ch) = true -> ch_Config ch !! channelIDKey = None ->
  let p := mkProvider (ch_Type ch) true false (String.eqb (ch_Type ch) "email") (String.eqb (ch_Type ch) "email") in
  attempt now m ev ch = Some (ch_ID ch, send now p (ch_Config ch) ev).
Proof.
  intros Hty Hd Hid Hkey p. unfold dispatch_attempt. rewrite recording_provider, Hd by done. simpl.
  rewrite (Hty _ _ Hd). fold p. unfold provider_Send. cbn [pv_recording p]. unfold stamp, stripChannelID.
  rewrite delete_insert_eq, delete_id by done. unfold channelIDFromCfg. rewrite lookup_insert_eq. simpl. unfold int64_of. simpl.
  by rewrite Z.quot_1_r, Hid.
Qed.

(** Alerts do not go through the manager's HTTP client: a test message of an HTTP channel uses
    it, while every request of an alert attempt uses the default client, since the recording
    wrapper does not pass the client on. *)
Theorem alerts_bypass_the_client now m ev ch c r :
  by_type (mg_registry m) ->
  (forall id res, attempt now m ev ch = Some (id, res) -> OHTTP c r ∈ res.2 -> c = None) /\
  (mg_wrapped m = false -> ch_Type ch ∈ http_types ->
   OHTTP c r ∈ (manager_Test NewRequest canonical Quote Sprint Do mgr_client smtpSend message mailer resolver AlertEmail_of TestEmail_of now m ch).2 ->
   c = Some mgr_client).
Proof.
  intros Hty. split.
  - intros id res. unfold dispatch_attempt. rewrite recording_provider by done. destruct (mg_registry m !! ch_Type ch) as [d|]; [|done].
    intros [= <- <-] Hin. by apply inner_client in Hin.
  - intros Hw Ht. unfold manager_Test, provider. destruct (mg_registry m !! ch_Type ch) as [d|] eqn:Hd; [|set_solver].
    intros Hin%inner_client. rewrite Hin. cbn [pv_client]. unfold clientAware. cbn [pv_recording pv_Type].
    rewrite Hw, (Hty _ _ Hd). cbn [negb andb]. assert (existsb (String.eqb (ch_Type ch)) http_types = true) as ->; [|done].
    apply existsb_exists. exists (ch_Type ch). split; [by apply list_elem_of_In|apply String.eqb_refl].
Qed.
End alert_path.

(** ** Invitation mails *)

Lemma set_token_found org id h db db' n :
  SetInvitationToken org id h db = (Ok n, db') -> n <> 0 ->
  exists i, invitations db !! id = Some i /\ in_OrgID i = org /\ in_State i = InvitePending /\
    db' = set_invitations (insert id (with_token h i)) db /\ GetInvitationByToken h db' = Ok (with_token h i).
Proof.
  unfold SetInvitationToken. destruct (pending_row org id db) as [i|] eqn:Hp; [|by intros [= <-]].
  destruct (token_taken (Some h) id db) eqn:Ht; [done|]. intros [= <- <-] _. apply pending_row_Some in Hp as (Hi & Ho & Hs).
  exists i. split_and!; [done..|]. unfold GetInvitationByToken. erewrite (find_row_unique _ _ id); [done|simpl; by rewrite lookup_insert_eq|by rewrite bool_decide_eq_true_2|].
  intros k' i'. simpl. intros Hk' Hh%bool_decide_eq_true_1. destruct (decide (k' = id)) as [|Hne]; [done|]. exfalso.
  rewrite lookup_insert_ne in Hk' by done. simpl in Ht. apply negb_false_iff, Z.eqb_eq in Ht. unfold rows_affected in Ht.
  assert ((k', i') ∈ rows_where (fun i => bool_decide (in_TokenHash i = Some h)) (delete id (invitations db))) as Hin.
  { apply rows_where_elem. rewrite lookup_delete_ne by done. by rewrite bool_decide_eq_true_2. }
  destruct (rows_where _ _); [set_solver|simpl in Ht; lia].
Qed.

(** The address is on a line of its own, whatever the locale. *)
Lemma invite_link_on_its_line RenderEmailHTML ToLower org inviter role url locale :
  exists pre post, (InviteEmail RenderEmailHTML ToLower org inviter role url locale).1.2 = pre +:+ nl +:+ url +:+ nl +:+ post.
Proof.
  unfold InviteEmail.
  destruct (HasPrefix _ _); [|destruct (HasPrefix _ _)]; cbv zeta; cbn [fst snd]; match goal with |- context [?lead +:+ ?mid +:+ nl +:+ nl +:+ ?ask +:+ nl +:+ url +:+ _] =>
    exists (lead +:+ mid +:+ nl +:+ nl +:+ ask); eexists; rewrite !string_app_assoc; reflexivity end.
Qed.

Lemma accept_joins EqualFold now h db i u org usr uid :
  GetInvitationByToken h db = Ok i -> invitations db !! in_ID i = Some i -> in_OrgID i = org -> in_State i = InvitePending -> now <= in_ExpiresAt i ->
  GetUser uid db = Some u -> us_EmailVerified u = true -> EqualFold (us_Email u) (in_Email i) = true ->
  GetMembership uid org db = Err MNoRows -> GetOrganization org db = Some usr ->
  exists db' ev, AcceptInvitation EqualFold now (Some (mkPrincipal ActorHuman uid 0 0 None)) h db = (R200, db', ev) /\
    exists m, GetMembership uid org db' = Ok m /\ mb_Role m = in_Role i.
Proof.
  intros Hg Hi Ho Hs Hx Hu Hv He Hm Hor. unfold AcceptInvitation. cbn [pr_Kind pr_UserID]. rewrite Hg. rewrite !bool_decide_eq_false_2 by (by intros H; apply H).
  rewrite (proj2 (Z.ltb_ge _ _) Hx), Hu, Hv, He, Ho, Hm. cbn [negb orb].
  assert (pending_row org (in_ID i) db = Some i) as Hp.
  { unfold pending_row, is_pending. rewrite Hi, Ho, Hs, Z.eqb_refl. done. }
  unfold AcceptInvitation_tx. rewrite Hp. unfold GetMembership in Hm. destruct (find_row (is_member org uid) (memberships db)) as [[]|] eqn:Hf; [done|].
  unfold insert_membership. cbn [memberships set_invitations organizations users seq_memberships]. unfold GetUser, GetOrganization in *.
  rewrite Hf, Hor, Hu. rewrite !bool_decide_eq_false_2 by (first [by intros [] | done]). cbn [orb].
  do 2 eexists. split; [simpl; by rewrite Hor|]. unfold GetMembership. cbn [memberships set_memberships].
  erewrite (find_row_unique _ _ (seq_memberships db)); [eexists; split; [done|]|by rewrite lookup_insert_eq|unfold is_member; simpl; by rewrite !Z.eqb_refl|].
  { done. }
  intros k' m'. destruct (decide (k' = seq_memberships db)) as [|Hne]; [done|]. rewrite lookup_insert_ne by done. simpl. intros Hk' Hp'.
  rewrite find_row_None in Hf. by rewrite (Hf _ _ Hk') in Hp'.
Qed.


(** ** Witnesses *)

Definition pvx_sprint (_ : any) : string := "?".
Definition pvx_do (_ : option unit) (_ : Request) : result string Z := Err "down".
Definition pvx_event (kind : string) (id : Z) : Event :=
  mkEvent kind zero_monitor (mkIncident id 1 5 0 None None None None None) zero_check None None 0 false "" 1.

(** Services that do what they accept and nothing else. *)
Definition pvx_asked (host : string) (r : Request) : option (bool * string) :=
  if String.eqb (rq_URL r) "https://events.pagerduty.com/v2/enqueue" then
    match rq_Body r with
    | JSON b =>
        match b !! "event_action", b !! "dedup_key" with
        | Some (AString a), Some (AString k) => Some (String.eqb a "trigger", k)
        | _, _ => None
        end
    | Form _ => None
    end
  else if String.eqb (rq_URL r) (host +:+ "/v2/alerts") then
    match rq_Body r with JSON b => match b !! "alias" with Some (AString k) => Some (true, k) | _ => None end | Form _ => None end
  else
    let tail := length (String.list_ascii_of_string "/close?identifierType=alias") in
    let chars := drop (length (String.list_ascii_of_string (host +:+ "/v2/alerts/"))) (String.list_ascii_of_string (rq_URL r)) in
    Some (false, String.string_of_list_ascii (take (length chars - tail) chars)).

Definition pvx_host : string := "https://api.opsgenie.com".
Definition pvx_receive (open : gset string) (ok : bool) (r : Request) : gset string :=
  match pvx_asked pvx_host r with
  | Some (up, k) => if ok then if up then {[ k ]} ∪ open else open ∖ {[ k ]} else open
  | None => open
  end.

Lemma pvx_service (asks : Request -> bool -> string -> Prop) :
  (forall r up k, asks r up k -> pvx_asked pvx_host r = Some (up, k)) -> OnCallService (gset string) id pvx_receive asks.
Proof.
  intros H. split.
  - intros s r [] k Ha%H; unfold pvx_receive; rewrite Ha; simpl; set_solver.
  - intros s [] r [] k k' Ha%H Hk; unfold pvx_receive; rewrite Ha; simpl; set_solver.
Qed.

Lemma pvx_pagerduty : OnCallService (gset string) id pvx_receive pagerduty_asks.
Proof.
  apply pvx_service. intros r up k (Hu & b & Hb & Ha & Hk). unfold pvx_asked. rewrite Hu, Hb, Ha, Hk. by destruct up.
Qed.

Lemma pvx_opsgenie : OnCallService (gset string) id pvx_receive (opsgenie_asks (opsgenie_host pvx_sprint {[ "api_key" := AString "k" ]})).
Proof.
  assert (opsgenie_host pvx_sprint {[ "api_key" := AString "k" ]} = pvx_host) as -> by (vm_compute; reflexivity). apply pvx_service. intros r [] k; simpl; unfold pvx_asked.
  - intros (-> & b & -> & ->). done.
  - intros ->. destruct (String.eqb_spec (pvx_host +:+ "/v2/alerts/" +:+ k +:+ "/close?identifierType=alias") (pvx_host +:+ "/v2/alerts")) as [H|_];
      [by apply string_app_inj_l in H|].
    assert (forall a b, String.list_ascii_of_string (a +:+ b) = String.list_ascii_of_string a ++ String.list_ascii_of_string b) as Happ.
    { intros a b. induction a as [|c a IH]; [done|]. simpl. by rewrite IH. }
    change (_ +:+ "/v2/alerts/" +:+ k +:+ _) with ((pvx_host +:+ "/v2/alerts/") +:+ k +:+ "/close?identifierType=alias").
    rewrite (Happ (pvx_host +:+ "/v2/alerts/")), drop_app_length, Happ, length_app, Nat.add_sub, take_app_length.
    by rewrite String.string_of_list_ascii_of_string.
Qed.

(** An outage that is over, whose recovery was refused once and delivered at the second attempt,
    and one that lasts: the alert of the second alone is open, beside another tool's. *)
Definition pvx_up (_ : option unit) (_ : Request) : result string Z := Ok 202.
Lemma on_call_alerts_are_the_open_incidents_witness :
  let down8 := pvx_event EventDown_text 8 in let up8 := pvx_event EventRecovery_text 8 in let down9 := pvx_event EventDown_text 9 in
  let run := [(pvx_up, down8); (pvx_do, up8); (pvx_up, up8); (pvx_up, down9)] in
  let pager Do ev := pagerduty_Send (fun _ => None) id pvx_sprint Do None {[ "routing_key" := AString "k" ]} ev in
  let genie Do ev := opsgenie_Send (fun _ => None) id pvx_sprint Do None {[ "api_key" := AString "k" ]} ev in
  (alert_key 8 ∉ foldl (attempt_delivery pvx_receive pager) {[ "other" ]} run) /\
  alert_key 9 ∈ (foldl (attempt_delivery pvx_receive genie) {[ "other" ]} run) /\
  "other" ∈ (foldl (attempt_delivery pvx_receive pager) {[ "other" ]} run).
Proof.
  intros down8 up8 down9 run pager genie.
  destruct (on_call_alerts_are_the_open_incidents (fun _ => None) id pvx_sprint None id pvx_receive id pvx_receive
    {[ "routing_key" := AString "k" ]} {[ "api_key" := AString "k" ]} (OnCallService0 := pvx_pagerduty) (OnCallService1 := pvx_opsgenie)
    run {[ "other" ]} {[ "other" ]}) as [Hlast Hother].
  split_and!.
  - destruct (Hlast [(pvx_up, down8); (pvx_do, up8)] pvx_up up8 [(pvx_up, down9)] eq_refl) as [Hp _]; [by constructor|].
    intros Hin. apply Hp in Hin; [discriminate Hin|by vm_compute].
  - destruct (Hlast [(pvx_up, down8); (pvx_do, up8); (pvx_up, up8)] pvx_up down9 [] eq_refl) as [_ Ho]; [by constructor|].
    apply Ho; [by vm_compute|reflexivity].
  - apply (Hother "other"); [by repeat constructor|set_solver].
Defined.

Definition pvx_team : MDB :=
  mkMDB (<[1 := mkMembership 1 1 3 RoleMember]> (<[2 := mkMembership 2 1 4 RoleMember]> {[ 3 := mkMembership 3 2 5 RoleMember ]})) ∅
    {[ 1 := mkOrganization "acme" "tier3" "en" false ]}
    (<[3 := mkUser "a@x" true "A" true]> (<[4 := mkUser "b@x" true "B" true]> {[ 5 := mkUser "c@x" true "C" true ]})) 4 1.
Definition pvx_members (ids : list Z) : gmap string any := {[ "members" := AList (number <$> ids) ]}.
Definition pvx_content (_ : Event) : string * string * string := ("s", "b", "h").

(** The member of another org in the config gets nothing. *)
Lemma team_email_stays_in_org_witness :
  ml_To <$> (email_Send (Some (fun _ => None)) (Some (fun orgID ids => Ok (E:=string) (ActiveMemberEmails orgID ids pvx_team))) pvx_content
    (pvx_members [3; 5]) (pvx_event EventDown_text 8)).2 = ["a@x"] /\
  exists k mb u, memberships pvx_team !! k = Some mb /\ mb_OrgID mb = 1 /\ mb_UserID mb ∈ memberIDs (pvx_members [3; 5]) /\
    users pvx_team !! mb_UserID mb = Some u /\ us_Active u = true /\ "a@x" = us_Email u.
Proof.
  split; [by vm_compute|].
  apply (team_email_stays_in_org (fun _ => None) pvx_content pvx_team (pvx_members [3; 5]) (pvx_event EventDown_text 8) (mkMail "a@x" "" "s" "b" "h")).
  by vm_compute; left.
Defined.

Definition pvx_refuses (addr : string) (m : Mail) : option string := if String.eqb (ml_To m) addr then Some "full" else None.

(** Three attempts: the first member is told three times. *)
Lemma team_email_retry_repeats_witness :
  exists a b, ActiveMemberEmails 1 [3; 4] pvx_team = [a; b] /\
  length (filter (fun m => ml_To m = a) (attempts (pvx_refuses b) pvx_content pvx_team 3 (pvx_members [3; 4]) (pvx_event EventDown_text 8))) = 3%nat.
Proof.
  destruct (ActiveMemberEmails 1 [3; 4] pvx_team) as [|a [|b [|]]] eqn:Hto; try by vm_compute in Hto.
  exists a, b. split; [done|].
  assert (a <> b) as Hab by (vm_compute in Hto; by injection Hto as <- <-).
  destruct (team_email_retry_repeats (pvx_refuses b) pvx_content pvx_team (pvx_members [3; 4]) (pvx_event EventDown_text 8) 3 [a] b [] "full") as (_ & Hn & _).
  - by vm_compute.
  - exact Hto.
  - apply NoDup_cons_2; [set_solver|]. apply NoDup_singleton.
  - constructor; [|done]. unfold pvx_refuses. cbn [ml_To]. by rewrite (proj2 (String.eqb_neq _ _) Hab).
  - unfold pvx_refuses. cbn [ml_To]. by rewrite String.eqb_refl.
  - apply Hn. left.
Defined.

Definition pvx_server : SMTPServer := mkSMTPServer None None true None true None None (fun _ => None) None None None None.

(** The server refuses to upgrade: the delivery stops there. *)
Definition pvx_refusing : SMTPServer := mkSMTPServer None None true (Some "454") true None None (fun _ => None) None None None None.

Lemma smtp_password_never_in_clear_witness :
  let sent server := (realSMTPSend (fun _ => None) server "mx:587" "mx" (Some ("u", "pw")) "a@x" ["b@x"] "hi" false).2 in
  sent pvx_server = [Dial "mx:587"; StartTLS true; AuthPlain "u" "pw"; MailFrom "a@x"; RcptTo "b@x"; Data "hi"; Quit] /\
  (forall a, a ∈ in_clear (sent pvx_server) -> a = Dial "mx:587" \/ a = StartTLS false) /\
  sent pvx_refusing = [Dial "mx:587"; StartTLS false].
Proof.
  intros sent. split; [reflexivity|]. split.
  - apply (smtp_password_never_in_clear (fun _ => None) pvx_server "mx:587" "mx" (Some ("u", "pw")) "a@x" ["b@x"] "hi" false). by right.
  - apply (smtp_password_never_in_clear (fun _ => None) pvx_refusing "mx:587" "mx" (Some ("u", "pw")) "a@x" ["b@x"] "hi" false). set_solver.
Defined.

Lemma smtp_none_upgrades_witness :
  StartTLS true ∈ (realSMTPSend (fun _ => None) pvx_server "mx:587" "mx" None "a@x" ["b@x"] "hi" (String.eqb (tlsMode (<["tls" := AString "none"]> ∅)) "implicit")).2.
Proof.
  by apply (smtp_none_upgrades (fun _ => None) pvx_server (fun _ _ _ _ _ => "m") pvx_sprint ∅ "s" "b" "h" "mx:587" "mx" None "a@x" ["b@x"] "hi").
Defined.

Lemma mail_headers_are_the_five_witness :
  headers_of (buildMessage "png" "ALT" "REL" "a@x" ["b@x"; "c@x"] "hello" "body" "") =
  ["From: a@x"; "To: b@x, c@x"; "Subject: hello"; "MIME-Version: 1.0"; content_type "REL" ""].
Proof. by apply (mail_headers_are_the_five "png" "ALT" "REL" "a@x" ["b@x"; "c@x"] "hello" "body" ""). Defined.

Lemma monitor_name_injects_headers_witness :
  In "Bcc: eve@evil.example" (headers_of (buildMessage "png" "ALT" "REL" "a@x" ["b@x"]
    (buildEmail (ex_named_event ("api" +:+ crlf +:+ "Bcc: eve@evil.example"))).1 "body" "")).
Proof.
  destruct (monitor_name_injects_headers "png" "ALT" "REL" "a@x" ["b@x"] "body" "" "api" "Bcc: eve@evil.example") as [-> _]; try done.
  do 3 right. by left.
Defined.

Definition pvx_manager : Manager := NewManagerWithRegistry (Default pvx_sprint) false.
Definition pvx_channel : Channel := mkChannel 7 1 "ops" "slack" {[ "webhook_url" := AString "https://hook" ]} true.
Definition pvx_attempt (ev : Event) :=
  dispatch_attempt (fun _ => None) id id pvx_sprint (fun _ _ => Ok 200) tt (fun _ _ _ _ _ _ _ => (None, [])) (fun _ _ _ _ _ => "m") None None
    pvx_content (fun _ _ _ => ("s", "b", "h")) 0 pvx_manager ev pvx_channel.

Lemma pvx_slack_registered : exists d, mg_registry pvx_manager !! "slack" = Some d.
Proof. eexists. vm_compute. reflexivity. Qed.

Lemma recording_is_transparent_witness :
  exists sent, pvx_attempt (pvx_event EventDown_text 8) = Some (7, (None, [OHTTP None sent])) /\ rq_URL sent = "https://hook".
Proof.
  destruct pvx_slack_registered as [d Hd]. unfold pvx_attempt.
  rewrite (recording_is_transparent (fun _ => None) id id pvx_sprint (fun _ _ => Ok 200) tt (fun _ _ _ _ _ _ _ => (None, [])) (fun _ _ _ _ _ => "m") None None
    pvx_content (fun _ _ _ => ("s", "b", "h")) 0 pvx_manager (pvx_event EventDown_text 8) pvx_channel d (default_by_type pvx_sprint) Hd);
    [|by vm_compute..].
  eexists. split; [reflexivity|]. reflexivity.
Defined.

Lemma alerts_bypass_the_client_witness :
  exists id res c sent, pvx_attempt (pvx_event EventDown_text 8) = Some (id, res) /\ res.2 = [OHTTP c sent] /\ c = None.
Proof.
  destruct (pvx_attempt (pvx_event EventDown_text 8)) as [[i res]|] eqn:Ha; [|by vm_compute in Ha].
  assert (exists c sent, res.2 = [OHTTP c sent]) as (c & sent & Hs) by (vm_compute in Ha; injection Ha as <- <-; do 2 eexists; reflexivity).
  exists i, res, c, sent. split; [done|]. split; [done|].
  eapply (proj1 (alerts_bypass_the_client (fun _ => None) id id pvx_sprint (fun _ _ => Ok 200) tt (fun _ _ _ _ _ _ _ => (None, [])) (fun _ _ _ _ _ => "m") None None
    pvx_content (fun _ _ _ => ("s", "b", "h")) 0 pvx_manager (pvx_event EventDown_text 8) pvx_channel c sent (default_by_type pvx_sprint))); [exact Ha|].
  rewrite Hs. left.
Defined.

Definition pvx_invited : MDB :=
  mkMDB ∅ {[ 1 := mkInvitation 1 1 "a@x" RoleAdmin InvitePending None "en" None 100 None ]} {[ 1 := mkOrganization "acme" "tier3" "en" false ]}
    {[ 3 := mkUser "a@x" true "A" true ]} 1 2.

Lemma pvx_invited_mwf : mwf id pvx_invited.
Proof.
  split; simpl; [by intros ? ?; rewrite lookup_empty| |by intros ? ? ? ?; rewrite lookup_empty|].
  - intros k i. rewrite lookup_singleton_Some. intros [<- <-]. done.
  - intros k1 k2 i1 i2. rewrite !lookup_singleton_Some. by intros [<- <-] [<- <-].
Qed.

