(* ===== verification/Webhooks.v ===== *)
(** * Webhooks: the event feed of an org
    (src/internal/store/webhooks.go, src/internal/api/webhooks.go, and the envelope, the signature
    and the recorded outcome of src/internal/notify/webhookdeliver.go)

    The table with its encrypted signing secrets, the six handlers, which return a secret once, and
    a delivery: the signed requests of its attempts and the row that keeps its outcome.  The retry
    loop is [Notify.deliver_loop].  The cipher, the random source, HMAC and SHA-256, the JSON
    encoder and the HTTP client are parameters. *)

From Stdlib Require Import QArith.
From S2P Require Import Prelude Domain GoStrings Alerting Store AlertingService Authz Members Notify MonitorApi Channels Render Crypto Providers.
Open Scope Z_scope.

(** ** The table *)

(** The row as it is stored: the secret encrypted, the status NULL before the first delivery.  The
    events are those of [domain.OrgWebhookEvent], the only ones written. *)
Record WebhookRow := mkWebhookRow {
  wr_org_id : Z;
  wr_url : string;
  wr_signing_secret : string;
  wr_enabled : bool;
  wr_events : list OrgWebhookEvent;
  wr_created_by : option Z;
  wr_created_at : Time;
  wr_updated_at : Time;
  wr_last_delivery_at : option Time;
  wr_last_status : option string;
  wr_last_error : option string;
}.

Record WDB := mkWDB { waccounts : MDB; webhooks : gmap Z WebhookRow; seq_webhooks : Z }.
Definition set_webhooks (m : gmap Z WebhookRow) (db : WDB) : WDB := mkWDB (waccounts db) m (seq_webhooks db).
Definition next_webhook (db : WDB) : WDB := mkWDB (waccounts db) (webhooks db) (seq_webhooks db + 1).

Section store.
Context (cipher : option secretCipher).

Definition scanOrgWebhook (id : Z) (r : WebhookRow) : result dbError OrgWebhook :=
  let w secret := mkOrgWebhook id (wr_org_id r) (wr_url r) secret (wr_enabled r) (wr_events r) (wr_created_by r) (wr_created_at r)
                    (wr_updated_at r) (wr_last_delivery_at r) (default "" (wr_last_status r)) (wr_last_error r) in
  match cipher with
  | Some c => if String.eqb (wr_signing_secret r) "" then Ok (w "") else dec ← Decrypt c (wr_signing_secret r); Ok (w dec)
  | None => Ok (w (wr_signing_secret r))
  end.

Definition encryptSecret (nonce : Z) (plaintext : string) : result dbError string :=
  match cipher with
  | None => Ok plaintext
  | Some c => if String.eqb plaintext "" then Ok plaintext else Encrypt c nonce plaintext
  end.

(** The org and the creator are foreign keys; the identity is drawn first. *)
Definition CreateWebhook_tx (now : Time) (nonce : Z) (w : OrgWebhook) (db : WDB) : result dbError Z * WDB :=
  match encryptSecret nonce (w_SigningSecret w) with
  | Err e => (Err e, db)
  | Ok enc =>
      let id := seq_webhooks db in
      if bool_decide (organizations (waccounts db) !! w_OrgID w = None) ||
         match w_CreatedBy w with Some u => bool_decide (users (waccounts db) !! u = None) | None => false end
      then (Err ErrForeignKey, next_webhook db)
      else
        (Ok id, set_webhooks (<[id := mkWebhookRow (w_OrgID w) (w_URL w) enc (w_Enabled w) (w_Events w) (w_CreatedBy w) now now None None None]> (webhooks db))
                  (next_webhook db))
  end.

Fixpoint scan_webhooks (rows : list (Z * WebhookRow)) : result dbError (list OrgWebhook) :=
  match rows with
  | [] => Ok []
  | (id, r) :: rows' => w ← scanOrgWebhook id r; ws ← scan_webhooks rows'; Ok (w :: ws)
  end.

Definition webhooks_where (P : WebhookRow -> bool) (db : WDB) : list (Z * WebhookRow) := rows_where P (webhooks db).

(** ORDER BY id DESC. *)
Definition ListWebhooks_tx (orgID : Z) (db : WDB) : result dbError (list OrgWebhook) :=
  scan_webhooks (sort_by (fun x y => y.1 <=? x.1) (webhooks_where (fun r => wr_org_id r =? orgID) db)).

(** ORDER BY id. *)
Definition ListEnabledWebhooks (orgID : Z) (db : WDB) : result dbError (list OrgWebhook) :=
  scan_webhooks (sort_by (fun x y => x.1 <=? y.1) (webhooks_where (fun r => (wr_org_id r =? orgID) && wr_enabled r) db)).

Definition webhook_row (orgID id : Z) (db : WDB) : option WebhookRow :=
  match webhooks db !! id with
  | Some r => if wr_org_id r =? orgID then Some r else None
  | None => None
  end.

Definition GetWebhook_tx (orgID id : Z) (db : WDB) : result dbError OrgWebhook :=
  match webhook_row orgID id db with
  | Some r => scanOrgWebhook id r
  | None => Err ErrNoRows
  end.

(** An UPDATE of one row of the org: [ErrNoRows] when it hits none. *)
Definition update_webhook (orgID id : Z) (f : WebhookRow -> WebhookRow) (db : WDB) : result dbError unit * WDB :=
  match webhook_row orgID id db with
  | Some r => (Ok tt, set_webhooks (<[id := f r]> (webhooks db)) db)
  | None => (Err ErrNoRows, db)
  end.

Definition UpdateWebhook_tx (now : Time) (w : OrgWebhook) : WDB -> result dbError unit * WDB :=
  update_webhook (w_OrgID w) (w_ID w) (fun r =>
    mkWebhookRow (wr_org_id r) (w_URL w) (wr_signing_secret r) (w_Enabled w) (w_Events w) (wr_created_by r) (wr_created_at r) now
      (wr_last_delivery_at r) (wr_last_status r) (wr_last_error r)).

Definition RotateWebhookSecret_tx (now : Time) (nonce : Z) (orgID id : Z) (rawSecret : string) (db : WDB) : result dbError unit * WDB :=
  match encryptSecret nonce rawSecret with
  | Err e => (Err e, db)
  | Ok enc =>
      update_webhook orgID id (fun r =>
        mkWebhookRow (wr_org_id r) (wr_url r) enc (wr_enabled r) (wr_events r) (wr_created_by r) (wr_created_at r) now
          (wr_last_delivery_at r) (wr_last_status r) (wr_last_error r)) db
  end.

Definition DeleteWebhook_tx (orgID id : Z) (db : WDB) : Z * WDB :=
  match webhook_row orgID id db with
  | Some _ => (1, set_webhooks (delete id (webhooks db)) db)
  | None => (0, db)
  end.

(** An empty error text is stored as NULL; a row that is gone is no error. *)
Definition RecordWebhookDelivery (now : Time) (orgID id : Z) (status lastError : string) (db : WDB) : WDB :=
  (update_webhook orgID id (fun r =>
     mkWebhookRow (wr_org_id r) (wr_url r) (wr_signing_secret r) (wr_enabled r) (wr_events r) (wr_created_by r) (wr_created_at r)
       (wr_updated_at r) (Some now) (Some status) (if String.eqb lastError "" then None else Some lastError)) db).2.
End store.

(** ** The api *)

Record WebhookInput := mkWebhookInput { wi_Url : string; wi_Events : option (list string); wi_Enabled : option bool }.

Record WebhookDTO := mkWebhookDTO {
  wd_Id : string; wd_Url : string; wd_Enabled : bool; wd_Events : list string; wd_CreatedBy : option string; wd_CreatedAt : Time;
  wd_UpdatedAt : Time; wd_LastDeliveryAt : option Time; wd_LastStatus : option string; wd_LastError : option string;
}.

Definition webhookDTO (w : OrgWebhook) : WebhookDTO :=
  mkWebhookDTO (pretty (w_ID w)) (w_URL w) (w_Enabled w) (org_event_string <$> w_Events w) (pretty <$> w_CreatedBy w) (w_CreatedAt w)
    (w_UpdatedAt w) (w_LastDeliveryAt w) (if String.eqb (w_LastStatus w) "" then None else Some (w_LastStatus w)) (w_LastError w).

Inductive WResponse :=
  | WPlain (r : Response)
  | WInvalid (fields : gmap string string)
  | WList (ws : list WebhookDTO)
  | WWebhook (w : WebhookDTO)
  | WSecret (r : Response) (w : WebhookDTO) (secret : string).

Definition all_events : list OrgWebhookEvent := [OrgEventMonitorDown; OrgEventMonitorRecover; OrgEventIncidentOpened; OrgEventIncidentClosed].

(** [knownWebhookEvents], as the event of a text. *)
Definition knownWebhookEvents (s : string) : option OrgWebhookEvent :=
  head (filter (fun e => org_event_string e = s) all_events).

(** The loop over the events: index, those seen so far. *)
Fixpoint input_events (i : Z) (seen : list OrgWebhookEvent) (l : list string) (errs : gmap string string) :
    list OrgWebhookEvent * gmap string string :=
  match l with
  | [] => ([], errs)
  | e :: l' =>
      match knownWebhookEvents e with
      | None => input_events (i + 1) seen l' (<["events." +:+ pretty i := "unknown event type"]> errs)
      | Some ev =>
          if bool_decide (ev ∈ seen) then input_events (i + 1) seen l' errs
          else let '(evs, errs') := input_events (i + 1) (ev :: seen) l' errs in (ev :: evs, errs')
      end
  end.

(** [None] is a failing random source. *)
Definition newWebhookSecret (bytes : option (list ascii)) : option string :=
  (fun b => "whsec_" +:+ base64url b) <$> bytes.

Section handlers.
Context (parse_url : string -> option (string * string)) (cipher : option secretCipher).

Definition webhookFromInput (i : WebhookInput) : string * list OrgWebhookEvent * gmap string string :=
  let raw := TrimSpace (wi_Url i) in
  let absolute := match parse_url raw with Some (scheme, host) => String.eqb scheme "https" && negb (String.eqb host "") | None => false end in
  let errs := field "url" (if String.eqb raw "" then "url is required" else when (negb absolute) "url must be an absolute https URL") ∅ in
  let '(events, errs) := input_events 0 [] (default [] (wi_Events i)) errs in
  (raw, events, errs).

Definition webhook_right (p : option Principal) (db : WDB) (k : Principal -> WResponse * WDB) : WResponse * WDB :=
  match humanInOrg p with
  | None => (WPlain R401, db)
  | Some (q, actor) =>
      let d := Can actor ActionManageWebhooks (org_resource (pr_OrgID q)) in
      if negb (de_Allowed d) then (WPlain (R403 (de_Reason d)), db) else k q
  end.

Definition ListWebhooks (p : option Principal) (db : WDB) : WResponse * WDB :=
  webhook_right p db (fun q =>
    match ListWebhooks_tx cipher (pr_OrgID q) db with
    | Err _ => (WPlain R500, db)
    | Ok hooks => (WList (webhookDTO <$> hooks), db)
    end).

Definition GetWebhook (p : option Principal) (id : string) (db : WDB) : WResponse * WDB :=
  webhook_right p db (fun q =>
    match parseMonitorID id with
    | None => (WPlain R404, db)
    | Some wid =>
        match GetWebhook_tx cipher (pr_OrgID q) wid db with
        | Err ErrNoRows => (WPlain R404, db)
        | Err _ => (WPlain R500, db)
        | Ok w => (WWebhook (webhookDTO w), db)
        end
    end).

(** The webhook read back for the answer, with its secret.  Calls to the store fail here only for
    what they read; where this read fails for another cause, the code answers 500 with the new secret
    stored and shown to nobody. *)
Definition with_secret (r : Response) (orgID id : Z) (secret : string) (db : WDB) : WResponse * WDB :=
  match GetWebhook_tx cipher orgID id db with
  | Err _ => (WPlain R500, db)
  | Ok stored => (WSecret r (webhookDTO stored) secret, db)
  end.

Definition CreateWebhook (now : Time) (nonce : Z) (bytes : option (list ascii)) (p : option Principal) (body : option WebhookInput) (db : WDB) :
    WResponse * WDB :=
  webhook_right p db (fun q =>
    match body with
    | None => (WPlain (R422 "body required"), db)
    | Some i =>
        let '(url, events, errs) := webhookFromInput i in
        if negb (bool_decide (errs = ∅)) then (WInvalid errs, db)
        else
          match newWebhookSecret bytes with
          | None => (WPlain R500, db)
          | Some secret =>
              let w := mkOrgWebhook 0 (pr_OrgID q) url secret (default true (wi_Enabled i)) events (Some (pr_UserID q)) zeroTime zeroTime None "" None in
              match CreateWebhook_tx cipher now nonce w db with
              | (Err _, db') => (WPlain R500, db')
              | (Ok id, db') => with_secret R201 (pr_OrgID q) id secret db'
              end
          end
    end).

Definition UpdateWebhook (now : Time) (p : option Principal) (id : string) (body : option WebhookInput) (db : WDB) : WResponse * WDB :=
  webhook_right p db (fun q =>
    match body with
    | None => (WPlain (R422 "body required"), db)
    | Some i =>
        match parseMonitorID id with
        | None => (WPlain R404, db)
        | Some wid =>
            match GetWebhook_tx cipher (pr_OrgID q) wid db with
            | Err ErrNoRows => (WPlain R404, db)
            | Err _ => (WPlain R500, db)
            | Ok existing =>
                let '(url, events, errs) := webhookFromInput i in
                if negb (bool_decide (errs = ∅)) then (WInvalid errs, db)
                else
                  let w := mkOrgWebhook (w_ID existing) (w_OrgID existing) url (w_SigningSecret existing) (default (w_Enabled existing) (wi_Enabled i))
                             events (w_CreatedBy existing) (w_CreatedAt existing) (w_UpdatedAt existing) (w_LastDeliveryAt existing)
                             (w_LastStatus existing) (w_LastError existing) in
                  match UpdateWebhook_tx now w db with
                  | (Err ErrNoRows, db') => (WPlain R404, db')
                  | (Err _, db') => (WPlain R500, db')
                  | (Ok _, db') =>
                      match GetWebhook_tx cipher (pr_OrgID q) wid db' with
                      | Err _ => (WPlain R500, db')
                      | Ok stored => (WWebhook (webhookDTO stored), db')
                      end
                  end
            end
        end
    end).

Definition RotateWebhookSecret (now : Time) (nonce : Z) (bytes : option (list ascii)) (p : option Principal) (id : string) (db : WDB) : WResponse * WDB :=
  webhook_right p db (fun q =>
    match parseMonitorID id with
    | None => (WPlain R404, db)
    | Some wid =>
        match newWebhookSecret bytes with
        | None => (WPlain R500, db)
        | Some secret =>
            match RotateWebhookSecret_tx cipher now nonce (pr_OrgID q) wid secret db with
            | (Err ErrNoRows, db') => (WPlain R404, db')
            | (Err _, db') => (WPlain R500, db')
            | (Ok _, db') => with_secret R200 (pr_OrgID q) wid secret db'
            end
        end
    end).

Definition DeleteWebhook (p : option Principal) (id : string) (db : WDB) : WResponse * WDB :=
  webhook_right p db (fun q =>
    match parseMonitorID id with
    | None => (WPlain R204, db)
    | Some wid => (WPlain R204, (DeleteWebhook_tx (pr_OrgID q) wid db).2)
    end).
End handlers.

(** ** Delivery *)

Definition signatureHeader : string := "X-Pulse-Signature".

Record SignedRequest := mkSignedRequest { sr_URL : string; sr_Headers : gmap string string; sr_Body : string }.

Section delivery.
(** hex(hmac-sha256), hex(sha256), [json.Marshal], [http.NewRequest]'s complaint, header names. *)
Context (hmac_hex : string -> string -> string) (sha256hex : string -> string) (marshal : gmap string any -> string).
Context (NewRequest : string -> option string) (canonical : string -> string) (duration_text : Duration -> string).

Definition signBody (secret ts raw : string) : string := hmac_hex secret (ts +:+ "." +:+ raw).

Definition buildOrgEnvelope (ev : NotifyMessage) (et : OrgWebhookEvent) (now : Time) : gmap string any * string :=
  let occurred := if nm_SentAt ev =? zeroTime then now else nm_SentAt ev in
  let eventID := orgEventID sha256hex (nm_IncidentID ev) et in
  (list_to_map [
     ("event_id", AString eventID);
     ("event", AString (org_event_string et));
     ("org_id", AString ("org_" +:+ pretty (nm_OrgID ev)));
     ("occurred_at", AString (rfc3339UTC occurred));
     ("data", obj [
        ("monitor", obj [("id", AString ("mon_" +:+ pretty (nm_MonitorID ev))); ("name", AString (nm_MonitorName ev));
                         ("url", AString (nm_MonitorURL ev)); ("method", AString (nm_MonitorMethod ev))]);
        ("incident", obj [("id", AString ("inc_" +:+ pretty (nm_IncidentID ev))); ("started_at", AString (rfc3339UTC (nm_IncidentStartedAt ev)));
                          ("ended_at", nullable (fun t => AString (rfc3339UTC t)) (nm_IncidentEndedAt ev));
                          ("duration_seconds", nullable number (nm_DurationSeconds ev))])])], eventID).

(** The signed request at a time. *)
Definition signed_request (hook : OrgWebhook) (raw eventID : string) (now : Time) : SignedRequest :=
  let ts := pretty (now / Second) in
  mkSignedRequest (w_URL hook)
    (set_header canonical (set_header canonical (set_header canonical ∅ "Content-Type" "application/json")
       signatureHeader ("t=" +:+ ts +:+ ",v1=" +:+ signBody (w_SigningSecret hook) ts raw)) "X-Pulse-Event-Id" eventID) raw.

(** [reply] is what the client answers to the request; the error, and the request if one went out. *)
Definition postSigned (reply : SignedRequest -> result string Z) (hook : OrgWebhook) (raw eventID : string) (now : Time) :
    option string * list SignedRequest :=
  match NewRequest (w_URL hook) with
  | Some e => (Some e, [])
  | None =>
      let req := signed_request hook raw eventID now in
      match reply req with
      | Err e => (Some e, [req])
      | Ok status => (if (status <? 200) || (300 <=? status) then Some ("HTTP " +:+ pretty status) else None, [req])
      end
  end.

(** What the attempts of a delivery meet, per webhook, event and attempt; attempt 0 is the time the
    envelope is built, and the outcome is recorded at [dw_end], unless that fails. *)
Record DeliveryWorld := mkDeliveryWorld {
  dw_alive : Z -> OrgWebhookEvent -> Z -> bool;
  dw_clock : Z -> OrgWebhookEvent -> Z -> Time;
  dw_sign : Z -> OrgWebhookEvent -> Z -> Time;
  dw_reply : Z -> OrgWebhookEvent -> Z -> SignedRequest -> result string Z;
  dw_slept : Z -> OrgWebhookEvent -> Z -> bool;
  dw_end : Z -> OrgWebhookEvent -> Time;
  dw_recorded : Z -> OrgWebhookEvent -> bool;
}.

Context (maxAttempts : Z) (budget : Duration) (w : DeliveryWorld).

Definition envelope_of (ev : NotifyMessage) (hook : OrgWebhook) (et : OrgWebhookEvent) : gmap string any * string :=
  buildOrgEnvelope ev et (dw_clock w (w_ID hook) et 0).

Definition attempt_post (ev : NotifyMessage) (hook : OrgWebhook) (et : OrgWebhookEvent) (attempt : Z) : option string * list SignedRequest :=
  let '(body, eventID) := envelope_of ev hook et in
  postSigned (dw_reply w (w_ID hook) et attempt) hook (marshal body) eventID (dw_sign w (w_ID hook) et attempt).

(** [deliverOne]: the loop of [Notify] on these posts. *)
Definition deliver_one (ev : NotifyMessage) (hook : OrgWebhook) (et : OrgWebhookEvent) : WebhookOutcome :=
  Notify.deliverOne (fun h a => dw_alive w h et a) (fun h a => dw_clock w h et a) (fun _ a => (attempt_post ev hook et a).1)
    (fun h a => dw_slept w h et a) maxAttempts budget duration_text (nm_SentAt ev) hook et.

(** The requests of a delivery: those of its attempts. *)
Definition requests_of (ev : NotifyMessage) (hook : OrgWebhook) (et : OrgWebhookEvent) : list SignedRequest :=
  mjoin ((fun a => (attempt_post ev hook et (Z.of_nat a)).2) <$> seq 1 (Z.to_nat (wo_posts (deliver_one ev hook et)))).

Definition record_outcome (hook : OrgWebhook) (o : WebhookOutcome) (db : WDB) : WDB :=
  let now := dw_end w (w_ID hook) (wo_event o) in
  let '(status, errText) := match wo_err o with None => ("delivered", "") | Some e => ("failed", e) end in
  if dw_recorded w (w_ID hook) (wo_event o) then RecordWebhookDelivery now (w_OrgID hook) (w_ID hook) status errText db else db.

(** The (webhook, event) pairs of a notification, in the order of the two loops. *)
Definition deliveries (ev : NotifyMessage) (hooks : list OrgWebhook) : list (OrgWebhook * OrgWebhookEvent) :=
  hook ← filter (fun h => w_Enabled h = true) hooks;
  (fun et => (hook, et)) <$> filter (fun et => Subscribes hook et = true) (orgEventTypes (nm_EventType ev)).

(** [deliverWebhooks] of the runner: the org's enabled webhooks, then [deliverOrgWebhooks]; the
    requests sent and the table with the outcomes.  A failing read delivers nothing. *)
Definition deliverWebhooks (cipher : option secretCipher) (ev : NotifyMessage) (db : WDB) : list SignedRequest * WDB :=
  match ListEnabledWebhooks cipher (nm_OrgID ev) db with
  | Err _ => ([], db)
  | Ok hooks =>
      (mjoin ((fun he => requests_of ev he.1 he.2) <$> deliveries ev hooks),
       foldl (fun db he => record_outcome he.1 (deliver_one ev he.1 he.2) db) db (deliveries ev hooks))
  end.
End delivery.
