(* ===== verification/WebhooksInv.v ===== *)
(** * WebhooksInv: what the org webhooks guarantee

    A receiver that checks the signature with the secret it was shown last accepts every request
    Pulse sends it, and with no other secret; the retries of a delivery end at the first answer in
    the 200s; an API key cannot register a webhook. *)

From Stdlib Require Import QArith.
From S2P Require Import Prelude Domain GoStrings Alerting Store StoreInv AlertingService Authz Members Notify MonitorApi MonitorApiInv Channels Render Providers Webhooks.
Open Scope Z_scope.

(** ** The calls, and the secrets they show *)

Inductive webhook_call :=
  | CallCreate (now : Time) (nonce : Z) (bytes : option (list ascii)) (p : option Principal) (body : option WebhookInput)
  | CallUpdate (now : Time) (p : option Principal) (id : string) (body : option WebhookInput)
  | CallRotate (now : Time) (nonce : Z) (bytes : option (list ascii)) (p : option Principal) (id : string)
  | CallDelete (p : option Principal) (id : string)
  | CallList (p : option Principal)
  | CallGet (p : option Principal) (id : string).

Section calls.
Context (parse_url : string -> option (string * string)) (cipher : option secretCipher).

Definition serve (c : webhook_call) (db : WDB) : WResponse * WDB :=
  match c with
  | CallCreate now nonce bytes p body => CreateWebhook parse_url cipher now nonce bytes p body db
  | CallUpdate now p id body => UpdateWebhook parse_url cipher now p id body db
  | CallRotate now nonce bytes p id => RotateWebhookSecret cipher now nonce bytes p id db
  | CallDelete p id => DeleteWebhook p id db
  | CallList p => ListWebhooks cipher p db
  | CallGet p id => GetWebhook cipher p id db
  end.

(** The secret a user saw last for each webhook id, from the answers alone. *)
Definition shown_after (r : WResponse) (shown : gmap string string) : gmap string string :=
  match r with WSecret _ d secret => <[wd_Id d := secret]> shown | _ => shown end.

(** The api's calls, recorded outcomes, and changes of the accounts, in any order. *)
Inductive webhook_step : WDB * gmap string string -> WDB * gmap string string -> Prop :=
  | step_call c db shown : webhook_step (db, shown) ((serve c db).2, shown_after (serve c db).1 shown)
  | step_record now orgID id status err db shown : webhook_step (db, shown) (RecordWebhookDelivery now orgID id status err db, shown)
  | step_accounts a db shown : webhook_step (db, shown) (mkWDB a (webhooks db) (seq_webhooks db), shown).

(** Every row holds the secret shown last for it. *)
Definition stored_as (secret : string) (r : WebhookRow) : Prop :=
  secret <> "" /\ exists n, encryptSecret cipher n secret = Ok (wr_signing_secret r).
Definition secrets_shown (st : WDB * gmap string string) : Prop :=
  forall id r, webhooks st.1 !! id = Some r -> exists s, st.2 !! (pretty id) = Some s /\ stored_as s r.

(** What the cipher, if there is one, satisfies. *)
Definition cipher_laws : Prop := forall c, cipher = Some c -> CipherLaws c.

Lemma scan_stored id r s : cipher_laws -> stored_as s r ->
  exists w, scanOrgWebhook cipher id r = Ok w /\ w_SigningSecret w = s /\ w_ID w = id /\ w_OrgID w = wr_org_id r /\ w_URL w = wr_url r /\
    w_Enabled w = wr_enabled r /\ w_Events w = wr_events r.
Proof.
  intros Hlaws [Hne [n Hs]]. unfold cipher_laws, scanOrgWebhook, encryptSecret in *. destruct cipher as [c|] eqn:Hc.
  - rewrite (proj2 (String.eqb_neq _ _) Hne) in Hs. pose proof (Hlaws c eq_refl) as Hl.
    rewrite (proj2 (String.eqb_neq _ _) (encrypt_nonempty _ _ _ Hs)), (decrypt_encrypt _ _ _ Hs). simpl. eexists. split; [reflexivity|]. done.
  - injection Hs as Hs. eexists. split; [reflexivity|]. done.
Qed.

Lemma webhook_row_Some org id db r : webhook_row org id db = Some r -> webhooks db !! id = Some r /\ wr_org_id r = org.
Proof. unfold webhook_row. destruct (webhooks db !! id) as [r'|]; [|done]. destruct (Z.eqb_spec (wr_org_id r') org); [|done]. by intros [= <-]. Qed.

(** Rewriting a row without its secret keeps what was shown. *)
Lemma update_webhook_shown org id f db shown :
  (forall r, wr_signing_secret (f r) = wr_signing_secret r) -> secrets_shown (db, shown) -> secrets_shown ((update_webhook org id f db).2, shown).
Proof.
  intros Hf Hok. unfold update_webhook. destruct (webhook_row org id db) as [r|] eqn:Hr; [|done]. apply webhook_row_Some in Hr as [Hr _].
  intros k r'. simpl. rewrite lookup_insert. case_decide; [subst k; intros [= <-]|apply Hok].
  destruct (Hok _ _ Hr) as (s & Hs & Hst). exists s. split; [done|]. unfold stored_as in *. by rewrite Hf.
Qed.

(** Writing a row with its secret and showing the secret. *)
Lemma with_secret_shown r org id row secret db shown :
  cipher_laws -> webhooks db !! id = Some row -> wr_org_id row = org -> stored_as secret row ->
  (forall k r', k <> id -> webhooks db !! k = Some r' -> exists s, shown !! pretty k = Some s /\ stored_as s r') ->
  let a := with_secret cipher r org id secret db in secrets_shown (a.2, shown_after a.1 shown).
Proof.
  intros Hlaws Hrow Horg Hst Hothers. unfold with_secret, GetWebhook_tx, webhook_row. rewrite Hrow, Horg, Z.eqb_refl.
  destruct (scan_stored id row secret Hlaws Hst) as (w & -> & _ & Hid & _). intros k r' Hk. cbn [snd fst shown_after wd_Id webhookDTO] in *. rewrite Hid.
  destruct (decide (k = id)) as [->|Hne].
  - rewrite lookup_insert_eq. exists secret. split; [done|]. simpl in Hk. congruence.
  - rewrite lookup_insert_ne; [by apply Hothers|]. by intros He%(inj pretty).
Qed.

Lemma webhook_right_inv (P : WResponse * WDB -> Prop) p db k :
  (forall r, P (WPlain r, db)) -> (forall q, P (k q)) -> P (webhook_right p db k).
Proof.
  intros Hplain Hk. unfold webhook_right. destruct (humanInOrg p) as [[q actor]|]; [|apply Hplain]. cbv zeta. destruct (negb _); auto.
Qed.

Lemma secret_nonempty bytes s : newWebhookSecret bytes = Some s -> s <> "".
Proof. unfold newWebhookSecret. destruct bytes; [|done]. by intros [= <-]. Qed.

Lemma create_shown now nonce bytes p body db shown :
  cipher_laws -> secrets_shown (db, shown) ->
  let a := CreateWebhook parse_url cipher now nonce bytes p body db in secrets_shown (a.2, shown_after a.1 shown).
Proof.
  intros Hlaws Hok. unfold CreateWebhook. apply (webhook_right_inv (fun a => secrets_shown (a.2, shown_after a.1 shown))); [done|]. intros q.
  destruct body as [i|]; [|done]. destruct (webhookFromInput parse_url i) as [[url events] errs]. destruct (negb _); [done|].
  destruct (newWebhookSecret bytes) as [secret|] eqn:Hsec; [|done]. unfold CreateWebhook_tx. cbn [w_SigningSecret].
  destruct (encryptSecret cipher nonce secret) as [enc|] eqn:Henc; [|done]. cbv zeta. destruct (_ || _); [done|].
  eapply with_secret_shown; [done|simpl; apply lookup_insert_eq|done| |].
  - split; [by eapply secret_nonempty|by exists nonce].
  - intros k r' Hne Hk. simpl in Hk. rewrite lookup_insert_ne in Hk by done. by apply Hok.
Qed.

Lemma rotate_shown now nonce bytes p id db shown :
  cipher_laws -> secrets_shown (db, shown) ->
  let a := RotateWebhookSecret cipher now nonce bytes p id db in secrets_shown (a.2, shown_after a.1 shown).
Proof.
  intros Hlaws Hok. unfold RotateWebhookSecret. apply (webhook_right_inv (fun a => secrets_shown (a.2, shown_after a.1 shown))); [done|]. intros q.
  destruct (parseMonitorID id) as [wid|]; [|done]. destruct (newWebhookSecret bytes) as [secret|] eqn:Hsec; [|done].
  unfold RotateWebhookSecret_tx. destruct (encryptSecret cipher nonce secret) as [enc|[]] eqn:Henc; try done. unfold update_webhook.
  destruct (webhook_row (pr_OrgID q) wid db) as [r|] eqn:Hr; [|done]. apply webhook_row_Some in Hr as [Hr Horg].
  eapply with_secret_shown; [done|simpl; apply lookup_insert_eq|done| |].
  - split; [by eapply secret_nonempty|by exists nonce].
  - intros k r' Hne Hk. simpl in Hk. rewrite lookup_insert_ne in Hk by done. by apply Hok.
Qed.

Lemma call_shown c db shown : cipher_laws -> secrets_shown (db, shown) -> secrets_shown ((serve c db).2, shown_after (serve c db).1 shown).
Proof.
  intros Hlaws Hok. destruct c as [now nonce bytes p body|now p id body|now nonce bytes p id|p id|p|p id]; cbn [serve].
  - by apply create_shown.
  - unfold UpdateWebhook. apply (webhook_right_inv (fun a => secrets_shown (a.2, shown_after a.1 shown))); [done|]. intros q.
    destruct body as [i|]; [|done]. destruct (parseMonitorID id) as [wid|]; [|done]. destruct (GetWebhook_tx _ _ _ _) as [e|[]]; try done.
    destruct (webhookFromInput parse_url i) as [[url events] errs]. destruct (negb _); [done|]. cbv zeta.
    match goal with |- context [UpdateWebhook_tx now ?w db] => assert (secrets_shown ((UpdateWebhook_tx now w db).2, shown)) as Hup by (by apply update_webhook_shown);
      destruct (UpdateWebhook_tx now w db) as [[|[]] db'] end; try done.
    by destruct (GetWebhook_tx _ _ _ _).
  - by apply rotate_shown.
  - unfold DeleteWebhook. apply (webhook_right_inv (fun a => secrets_shown (a.2, shown_after a.1 shown))); [done|]. intros q.
    destruct (parseMonitorID id) as [wid|]; [|done]. unfold DeleteWebhook_tx. destruct (webhook_row _ _ _); [|done].
    intros k r. simpl. rewrite lookup_delete_Some. intros [_ Hk]. by apply Hok.
  - unfold ListWebhooks. apply (webhook_right_inv (fun a => secrets_shown (a.2, shown_after a.1 shown))); [done|]. intros q. by destruct (ListWebhooks_tx _ _ _).
  - unfold GetWebhook. apply (webhook_right_inv (fun a => secrets_shown (a.2, shown_after a.1 shown))); [done|]. intros q.
    destruct (parseMonitorID id); [|done]. by destruct (GetWebhook_tx _ _ _ _) as [|[]].
Qed.

Lemma steps_shown st st' : cipher_laws -> rtc webhook_step st st' -> secrets_shown st -> secrets_shown st'.
Proof.
  intros Hlaws. induction 1 as [|st st1 st' Hs _ IH]; [done|]. intros Hok. apply IH. destruct Hs as [c db shown|now org id status err db shown|a db shown].
  - by apply call_shown.
  - by apply update_webhook_shown.
  - done.
Qed.
End calls.

(** ** Deliveries *)

Lemma scan_webhooks_elem cipher rows ws w :
  scan_webhooks cipher rows = Ok ws -> w ∈ ws -> exists id r, (id, r) ∈ rows /\ scanOrgWebhook cipher id r = Ok w.
Proof.
  revert ws. induction rows as [|[id r] rows IH]; intros ws; cbn [scan_webhooks]; [intros [= <-]; set_solver|].
  destruct (scanOrgWebhook cipher id r) as [w0|] eqn:Hs; [|done]. cbn. destruct (scan_webhooks cipher rows) as [ws'|]; [|done].
  intros [= <-]. rewrite elem_of_cons. intros [->|Hw]; [exists id, r; split; [left|done]|].
  destruct (IH ws' eq_refl Hw) as (id' & r' & Hin & He). exists id', r'. split; [by right|done].
Qed.

Section receiver.
Context (hmac_hex : string -> string -> string) (sha256hex : string -> string) (marshal : gmap string any -> string).
Context (NewRequest : string -> option string) (canonical : string -> string) (duration_text : Duration -> string).
Context (maxAttempts : Z) (budget : Duration) (world : DeliveryWorld).
Abbreviation deliver := (deliverWebhooks hmac_hex sha256hex marshal NewRequest canonical duration_text maxAttempts budget world).
Abbreviation post_at := (attempt_post hmac_hex sha256hex marshal NewRequest canonical world).
Abbreviation outcome := (deliver_one hmac_hex sha256hex marshal NewRequest canonical duration_text maxAttempts budget world).

(** A receiver reads the header t=<ts>,v1=<sig> and recomputes the signature of the body. *)
Definition verifies (secret : string) (req : SignedRequest) : bool :=
  match sr_Headers req !! canonical signatureHeader with
  | Some (String "t" (String "=" h)) =>
      match Cut "," h with
      | (ts, String "v" (String "1" (String "=" sig)), true) => String.eqb sig (hmac_hex secret (ts +:+ "." +:+ sr_Body req))
      | _ => false
      end
  | _ => false
  end.

Lemma signed_verifies secret hook raw eventID now :
  canonical signatureHeader <> canonical "X-Pulse-Event-Id" ->
  verifies secret (signed_request hmac_hex canonical hook raw eventID now) =
  String.eqb (signBody hmac_hex (w_SigningSecret hook) (pretty (now / Second)) raw) (hmac_hex secret (pretty (now / Second) +:+ "." +:+ raw)).
Proof.
  intros Hc. unfold verifies, signed_request. cbv zeta. cbn [sr_Headers sr_Body]. unfold set_header at 1 2.
  rewrite lookup_insert_ne, lookup_insert_eq by done.
  change ("t=" +:+ ?x) with (String "t" (String "=" x)). cbv iota.
  change (",v1=" +:+ ?x) with (String "," (String "v" (String "1" (String "=" x)))).
  rewrite Cut_found; [done|]. apply pretty_Z_free; [|done]. intros n. unfold pretty_N_char. by repeat case_match.
Qed.

Lemma requests_signed ev hook et req :
  req ∈ requests_of hmac_hex sha256hex marshal NewRequest canonical duration_text maxAttempts budget world ev hook et ->
  exists raw eventID now, req = signed_request hmac_hex canonical hook raw eventID now.
Proof.
  unfold requests_of. rewrite list_elem_of_join. intros (l & Hreq & Hl). apply list_elem_of_fmap in Hl as (a & -> & _).
  unfold attempt_post in Hreq. destruct (envelope_of _ _ _ _ _) as [body eventID]. unfold postSigned in Hreq.
  destruct (NewRequest (w_URL hook)); [set_solver|]. cbv zeta in Hreq. destruct (dw_reply _ _ _ _ _); apply list_elem_of_singleton in Hreq; eauto.
Qed.

(** C34: whatever was called before, a request of a delivery goes to the address of an enabled
    webhook of the event's org, and a receiver accepts its signature with the secret the api showed
    last for that webhook, at its creation or at its last rotation; with another only if the two
    give the signed time and body the same code. *)
Theorem webhook_requests_verify parse_url cipher a db shown ev req :
  cipher_laws cipher -> canonical signatureHeader <> canonical "X-Pulse-Event-Id" ->
  rtc (webhook_step parse_url cipher) (mkWDB a ∅ 1, ∅) (db, shown) ->
  req ∈ (deliver cipher ev db).1 ->
  exists id r secret ts, webhooks db !! id = Some r /\ wr_org_id r = nm_OrgID ev /\ wr_enabled r = true /\ sr_URL req = wr_url r /\
    shown !! pretty id = Some secret /\ verifies secret req = true /\
    (forall s, verifies s req = true <-> hmac_hex s (ts +:+ "." +:+ sr_Body req) = hmac_hex secret (ts +:+ "." +:+ sr_Body req)).
Proof.
  intros Hlaws Hc Hrun Hreq.
  assert (secrets_shown cipher (db, shown)) as Hok.
  { eapply steps_shown; [done|exact Hrun|]. intros id r Hr. simpl in Hr. by rewrite lookup_empty in Hr. }
  unfold deliverWebhooks in Hreq. destruct (ListEnabledWebhooks cipher (nm_OrgID ev) db) as [hooks|] eqn:Hl; [|set_solver].
  cbn [fst] in Hreq. rewrite list_elem_of_join in Hreq. destruct Hreq as (l & Hreq & Hin). apply list_elem_of_fmap in Hin as ([hook et] & -> & Hd).
  cbn [fst snd] in Hreq. unfold deliveries in Hd. apply list_elem_of_bind in Hd as (hook' & Hd & Hhook).
  apply list_elem_of_fmap in Hd as (et' & [= <- <-] & _). apply list_elem_of_filter in Hhook as [_ Hhook].
  destruct (scan_webhooks_elem _ _ _ _ Hl Hhook) as (id & r & Hrow & Hscan). rewrite sort_by_perm in Hrow. apply rows_where_elem in Hrow as [Hrow Hp].
  reflect_tests. destruct (Hok id r Hrow) as (secret & Hshown & Hst). destruct (scan_stored cipher id r secret Hlaws Hst) as (w & Hw & Hsec & _ & _ & Hurl & _).
  assert (w = hook) as -> by congruence. apply requests_signed in Hreq as (raw & eventID & now & ->).
  exists id, r, secret, (pretty (now / Second)). split_and!; try done.
  - rewrite signed_verifies by done. rewrite Hsec. apply String.eqb_refl.
  - intros s. rewrite signed_verifies by done. rewrite Hsec. unfold signBody. rewrite String.eqb_eq. done.
Qed.

Lemma deliver_loop_spec alive clock post slept text fuel a sentAt hook lastErr :
  (forall b, alive hook b = true) -> (forall b, slept hook b = true) ->
  (forall b, (0 <? budget) && negb (sentAt =? zeroTime) && (budget <? clock hook b - sentAt) = false) ->
  a <= maxAttempts -> maxAttempts - a + 1 <= Z.of_nat fuel ->
  exists n, deliver_loop alive clock post slept maxAttempts budget text fuel a sentAt hook lastErr = (n, post hook (a + n - 1)) /\
    1 <= n <= maxAttempts - a + 1 /\ (forall b, a <= b < a + n - 1 -> is_Some (post hook b)) /\
    (is_Some (post hook (a + n - 1)) -> a + n - 1 = maxAttempts).
Proof.
  intros Ha Hs Hb. revert a lastErr. induction fuel as [|fuel IH]; intros a lastErr Hle Hf; [lia|]. cbn [deliver_loop].
  rewrite (proj2 (Z.ltb_ge _ _)), Ha, Hb by lia. cbn [negb].
  destruct (post hook a) as [e|] eqn:Hp.
  - rewrite Hs. destruct (a <? maxAttempts) eqn:Hlt; reflect_tests.
    + destruct (IH (a + 1) (Some e)) as (n & He & Hn & Hfail & Hlast); [lia|lia|]. rewrite He. exists (n + 1).
      replace (a + (n + 1) - 1) with (a + 1 + n - 1) by lia. split; [done|]. split; [lia|]. split; [|done].
      intros b Hb'. destruct (decide (b = a)) as [->|]; [by rewrite Hp|]. apply Hfail. lia.
    + exists 1. replace (a + 1 - 1) with a by lia. rewrite Hp. split; [done|]. split; [lia|]. split; [intros; lia|]. lia.
  - exists 1. replace (a + 1 - 1) with a by lia. rewrite Hp. split; [done|]. split; [lia|]. split; [intros; lia|]. by intros [].
Qed.

(** When nothing cancels a delivery and its budget does not run out, it is recorded as delivered
    exactly if one of its attempts gets an answer in the 200s, and it stops at the first such. *)
Theorem webhook_delivery_retries ev hook et :
  1 <= maxAttempts -> (forall b, dw_alive world (w_ID hook) et b = true) -> (forall b, dw_slept world (w_ID hook) et b = true) ->
  (forall b, (0 <? budget) && negb (nm_SentAt ev =? zeroTime) && (budget <? dw_clock world (w_ID hook) et b - nm_SentAt ev) = false) ->
  1 <= wo_posts (outcome ev hook et) <= maxAttempts /\
  (forall a, 1 <= a < wo_posts (outcome ev hook et) -> is_Some (post_at ev hook et a).1) /\
  (wo_err (outcome ev hook et) = None <-> exists a, 1 <= a <= maxAttempts /\ (post_at ev hook et a).1 = None).
Proof.
  intros Hmax Ha Hs Hb. unfold deliver_one, Notify.deliverOne.
  destruct (deliver_loop_spec (fun h a => dw_alive world h et a) (fun h a => dw_clock world h et a) (fun _ a => (post_at ev hook et a).1)
    (fun h a => dw_slept world h et a) duration_text (Z.to_nat maxAttempts) 1 (nm_SentAt ev) (w_ID hook) None) as (n & He & Hn & Hfail & Hlast);
    [done|done|done|lia|lia|]. rewrite He. cbn [wo_posts wo_err]. replace (1 + n - 1) with n in * by lia.
  split; [lia|]. split; [done|]. split; [intros Hn0; exists n; split; [lia|done]|].
  intros (b & Hb' & Hnone). destruct (post_at ev hook et n).1 as [e|] eqn:Hp; [|done]. exfalso.
  destruct (decide (b = n)) as [->|]; [congruence|]. assert (n = maxAttempts) by (apply Hlast; eauto).
  destruct (Hfail b) as [e' He']; [lia|]. congruence.
Qed.
End receiver.

(** ** Concrete webhooks *)

Definition whx_accounts : MDB :=
  mkMDB {[ 1 := mkMembership 1 1 3 RoleAdmin ]} ∅ {[ 1 := mkOrganization "acme" "tier3" "en" false ]} {[ 3 := mkUser "a@x" true "A" true ]} 2 1.
Definition whx_url (_ : string) : option (string * string) := Some ("https", "hook.example").
Definition whx_admin : option Principal := Some (mkPrincipal ActorHuman 3 0 1 (Some RoleAdmin)).
Definition whx_key : option Principal := Some (mkPrincipal ActorAPIKey 0 7 1 (Some RoleAdmin)).
Definition whx_input : option WebhookInput := Some (mkWebhookInput " https://hook.example/in " (Some ["monitor.down"; "monitor.down"]) None).
Definition whx_create (p : option Principal) : webhook_call := CallCreate 50 0 (Some ["A"%char; "B"%char; "C"%char]) p whx_input.
Definition whx_rotate : webhook_call := CallRotate 60 1 (Some ["X"%char]) whx_admin "1".
Definition whx_db0 : WDB := mkWDB whx_accounts ∅ 1.
Definition whx_serve := serve whx_url (Some ex_cipher).
Definition whx_db2 : WDB := (whx_serve whx_rotate (whx_serve (whx_create whx_admin) whx_db0).2).2.
Definition whx_shown : gmap string string :=
  shown_after (whx_serve whx_rotate (whx_serve (whx_create whx_admin) whx_db0).2).1 (shown_after (whx_serve (whx_create whx_admin) whx_db0).1 ∅).

(** An API key passes the gate, but its user 0 breaks the foreign key of the creator. *)
Example api_key_cannot_register : (whx_serve (whx_create whx_key) whx_db0).1 = WPlain R500 /\
  (whx_serve (whx_create whx_admin) whx_db0).1 =
    WSecret R201 (mkWebhookDTO "1" "https://hook.example/in" true ["monitor.down"] (Some "3") 50 50 None None None) "whsec_QUJD".
Proof. split; vm_compute; reflexivity. Qed.

Definition whx_hmac (secret m : string) : string := secret +:+ "|" +:+ m.
Definition whx_world : DeliveryWorld :=
  mkDeliveryWorld (fun _ _ _ => true) (fun _ _ _ => 70) (fun _ _ a => a * Second) (fun _ _ a _ => Ok (if a =? 2 then 204 else 503)) (fun _ _ _ => true)
    (fun _ _ => 80) (fun _ _ => true).
Definition whx_event : NotifyMessage :=
  mkNotifyMessage 1 5 9 EventDown "k" "api" "https://x" "GET" 10 None None zero_check [] [] 65.
Definition whx_deliver := deliverWebhooks whx_hmac id (fun _ => "{}") (fun _ => None) id pretty 3 (15 * Minute) whx_world (Some ex_cipher) whx_event.

Lemma whx_cipher_laws : cipher_laws (Some ex_cipher).
Proof. intros c [= <-]. apply ex_cipher_laws. Qed.

Lemma whx_run : rtc (webhook_step whx_url (Some ex_cipher)) (whx_db0, ∅) (whx_db2, whx_shown).
Proof. eapply rtc_l; [apply (step_call _ _ (whx_create whx_admin))|]. eapply rtc_l; [apply (step_call _ _ whx_rotate)|]. apply rtc_refl. Qed.

(** The second attempt is answered, and recorded; both requests verify under the rotated secret. *)
Lemma webhook_requests_verify_witness :
  length (whx_deliver whx_db2).1 = 2%nat /\
  (wr_last_status <$> webhooks (whx_deliver whx_db2).2 !! 1) = Some (Some "delivered") /\
  forall req, req ∈ (whx_deliver whx_db2).1 -> verifies whx_hmac id "whsec_WA" req = true /\ verifies whx_hmac id "whsec_QUJD" req = false.
Proof.
  split; [vm_compute; reflexivity|]. split; [vm_compute; reflexivity|]. intros req Hreq.
  destruct (webhook_requests_verify whx_hmac id (fun _ => "{}") (fun _ => None) id pretty 3 (15 * Minute) whx_world whx_url (Some ex_cipher) whx_accounts
    whx_db2 whx_shown whx_event req) as (id' & r & secret & ts & Hr & _ & _ & _ & Hsh & Hown & Hv).
  - apply whx_cipher_laws.
  - vm_compute. discriminate.
  - apply whx_run.
  - exact Hreq.
  - assert (webhooks whx_db2 = {[ 1 := default r (webhooks whx_db2 !! 1) ]}) as Hw by (vm_compute; reflexivity).
    rewrite Hw in Hr. apply lookup_singleton_Some in Hr as [<- _].
    assert (secret = "whsec_WA") as -> by (vm_compute in Hsh; by injection Hsh).
    split; [exact Hown|]. apply not_true_iff_false. intros He%Hv. discriminate He.
Defined.

Lemma webhook_delivery_retries_witness :
  let hook := mkOrgWebhook 1 1 "https://hook.example/in" "s" true [] None 0 0 None "" None in
  wo_posts (deliver_one whx_hmac id (fun _ => "{}") (fun _ => None) id pretty 3 (15 * Minute) whx_world whx_event hook OrgEventMonitorDown) = 2 /\
  wo_err (deliver_one whx_hmac id (fun _ => "{}") (fun _ => None) id pretty 3 (15 * Minute) whx_world whx_event hook OrgEventMonitorDown) = None.
Proof.
  intros hook. split; [vm_compute; reflexivity|].
  apply (webhook_delivery_retries whx_hmac id (fun _ => "{}") (fun _ => None) id pretty 3 (15 * Minute) whx_world whx_event hook OrgEventMonitorDown);
    [lia|reflexivity|reflexivity|reflexivity|].
  exists 2. split; [lia|]. vm_compute. reflexivity.
Defined.
