(* ===== verification/Reads.v ===== *)
(** * Reads: incidents, histories and the usage screen
    (src/internal/api/incidents.go, regionstates.go, entitlements.go and the list handlers of
    monitors.go; the list queries of src/internal/store/incidents.go and monitors.go)

    The pages of incidents and results with their time cursors, the incident timeline and the manual
    close, the monitor list, the live state of the regions, the plan and its usage.  RFC 3339 is a
    parameter; where a query leaves the order of equal times open, the later id comes first. *)

From S2P Require Import Prelude Domain GoStrings Store Entitlements Authz Members MonitorApi StatusPages Billing CheckState.
Open Scope Z_scope.

(** ** List queries (store) *)

(** ORDER BY time DESC, id DESC. *)
Definition newest {A} (key : A -> Time * Z) (l : list A) : list A := sort_by (fun x y => lex_le (key y) (key x)) l.

Definition page_limit (limit : Z) : nat := Z.to_nat (if (limit <=? 0) || (500 <? limit) then 100 else limit).

(** [$n IS NULL OR t < $n]. *)
Definition is_before (before : option Time) (t : Time) : bool := match before with None => true | Some b => t <? b end.

Definition incident_key (i : Incident) : Time * Z := (i_StartedAt i, i_ID i).
Definition result_key (r : CheckResult) : Time * Z := (r_CheckedAt r, r_ID r).

Definition ListOrgIncidents (orgID : Z) (openOnly : bool) (before : option Time) (limit : Z) (db : DB) : list Incident :=
  take (page_limit limit) (newest incident_key (snd <$> rows_where (fun i =>
    (i_OrgID i =? orgID) && (negb openOnly || bool_decide (i_EndedAt i = None)) && is_before before (i_StartedAt i)) (incidents db))).

Definition store_ListIncidents (orgID monitorID : Z) (before : option Time) (limit : Z) (db : DB) : list Incident :=
  take (page_limit limit) (newest incident_key (snd <$> rows_where (fun i =>
    (i_MonitorID i =? monitorID) && (i_OrgID i =? orgID) && is_before before (i_StartedAt i)) (incidents db))).

Definition store_ListResults (orgID monitorID : Z) (since : Time) (before : option Time) (region : string) (limit : Z) (db : DB) : list CheckResult :=
  take (page_limit limit) (newest result_key (snd <$> rows_where (fun r =>
    (r_MonitorID r =? monitorID) && (r_OrgID r =? orgID) && (since <=? r_CheckedAt r) && is_before before (r_CheckedAt r) &&
    (String.eqb region "" || String.eqb (r_Region r) region)) (check_results db))).

Definition ListIncidentAnnotations (orgID incidentID : Z) (db : DB) : list IncidentAnnotation :=
  sort_by (fun a b => lex_le (an_CreatedAt a, an_ID a) (an_CreatedAt b, an_ID b))
    (snd <$> rows_where (fun a => (an_IncidentID a =? incidentID) && (an_OrgID a =? orgID)) (annotations db)).

(** round(avg(latency_ms)): half away from zero, over the healthy checks of the last seven days. *)
Definition AvgLatencyMs (now : Time) (orgID monitorID : Z) (db : DB) : option Z :=
  let ls := omap (fun kv => r_LatencyMs kv.2)
    (rows_where (fun r => (r_MonitorID r =? monitorID) && (r_OrgID r =? orgID) && r_Healthy r && (now - 7 * Day <? r_CheckedAt r)) (check_results db)) in
  match ls with
  | [] => None
  | _ =>
      let n := Z.of_nat (length ls) in
      let s := foldr Z.add 0 ls in
      Some (if 0 <=? s then (2 * s + n) / (2 * n) else - ((- 2 * s + n) / (2 * n)))
  end.

Section monitor_list.
Context (cipher : option secretCipher).

(** The joins of a row: its newest check, whether an incident is open, the certificate's expiry. *)
Definition scanMonitorListRow (orgID id : Z) (row : MonitorRow) (db : DB) : result dbError MonitorListRow :=
  m ← scanMonitor cipher row;
  let last := head (newest result_key (snd <$> rows_where (fun r => (r_MonitorID r =? id) && (r_OrgID r =? orgID)) (check_results db))) in
  let open := negb (rows_affected (fun i => (i_MonitorID i =? id) && (i_OrgID i =? orgID) && bool_decide (i_EndedAt i = None)) (incidents db) =? 0) in
  Ok (mkMonitorListRow m (r_CheckedAt <$> last) (r ← last; r_LatencyMs r) (r_Healthy <$> last) open
        (match certs db !! id with Some (org, _, c) => if org =? orgID then Some (ci_NotAfter c) else None | None => None end)).

Fixpoint scan_list (orgID : Z) (rows : list (Z * MonitorRow)) (db : DB) : result dbError (list MonitorListRow) :=
  match rows with
  | [] => Ok []
  | (id, row) :: rows' => r ← scanMonitorListRow orgID id row db; rs ← scan_list orgID rows' db; Ok (r :: rs)
  end.

Definition store_ListMonitors (orgID : Z) (db : DB) : result dbError (list MonitorListRow) :=
  scan_list orgID (sort_by (fun x y => x.1 <=? y.1) (rows_where (fun row => m_OrgID (mr_monitor row) =? orgID) (monitors db))) db.
End monitor_list.

(** ** Answers *)

Record IncidentDTO := mkIncidentDTO {
  id_Id : string; id_MonitorId : string; id_StartedAt : Time; id_EndedAt : option Time; id_CauseReason : option FailureReason;
  id_CloseReason : option CloseReason; id_DurationSeconds : option Z;
}.

(** [time.Time.Sub] saturates; [int] drops the fraction of [Duration.Seconds]. *)
Definition time_Sub (t u : Time) : Duration := Z.max (- 2 ^ 63) (Z.min (t - u) (2 ^ 63 - 1)).

Definition incidentDTO (inc : Incident) : IncidentDTO :=
  mkIncidentDTO (pretty (i_ID inc)) (pretty (i_MonitorID inc)) (i_StartedAt inc) (i_EndedAt inc) (i_CauseReason inc) (i_CloseReason inc)
    ((fun e => Z.quot (time_Sub e (i_StartedAt inc)) Second) <$> i_EndedAt inc).

Record AnnotationDTO := mkAnnotationDTO {
  ad_Id : string; ad_IncidentId : string; ad_AuthorUserId : string; ad_Note : string; ad_CreatedAt : Time;
}.
Definition annotationDTO (a : IncidentAnnotation) : AnnotationDTO :=
  mkAnnotationDTO (pretty (an_ID a)) (pretty (an_IncidentID a)) (match an_AuthorUserID a with Some u => pretty u | None => "" end) (an_Note a) (an_CreatedAt a).

Record IncidentDetail := mkIncidentDetail { dt_base : IncidentDTO; dt_Annotations : list AnnotationDTO }.
Definition incidentDetailDTO (inc : Incident) (annotations : list IncidentAnnotation) : IncidentDetail :=
  mkIncidentDetail (incidentDTO inc) (annotationDTO <$> annotations).

Record CheckResultDTO := mkCheckResultDTO {
  rd_Id : string; rd_MonitorId : string; rd_Region : string; rd_ScheduledAt : Time; rd_CheckedAt : Time; rd_Healthy : bool;
  rd_StatusCode : option Z; rd_LatencyMs : option Z; rd_Error : option string; rd_FailureReason : option FailureReason; rd_CertExpiresAt : option Time;
}.
Definition checkResultDTO (r : CheckResult) : CheckResultDTO :=
  mkCheckResultDTO (pretty (r_ID r)) (pretty (r_MonitorID r)) (r_Region r) (r_ScheduledAt r) (r_CheckedAt r) (r_Healthy r) (r_StatusCode r)
    (r_LatencyMs r) (r_ErrorText r) (r_FailureReason r) (r_CertExpiresAt r).

Record RegionStateDTO := mkRegionStateDTO {
  sd_Region : string; sd_State : string; sd_Healthy : option bool; sd_StatusCode : option Z; sd_LatencyMs : option Z;
  sd_FailureReason : option FailureReason; sd_UpdatedAt : Time;
}.
(** In the order of the map. *)
Definition regionStatesDTO (regions : gmap string RegionState) : list RegionStateDTO :=
  (fun kv => mkRegionStateDTO kv.1 (rg_State kv.2) (rg_Healthy kv.2) (rg_StatusCode kv.2) (rg_LatencyMs kv.2) (rg_FailureReason kv.2) (rg_UpdatedAt kv.2)) <$>
    map_to_list regions.

Record EntitlementsDTO := mkEntitlements {
  et_Plan : Plan; et_MonitorsUsed : Z; et_MonitorsCap : Z; et_SeatsUsed : Z; et_SeatsCap : Z; et_StatusPagesUsed : Z; et_StatusPagesCap : Z;
  et_MinIntervalSeconds : Z; et_RetentionDays : Z; et_RegionsAllowed : list string; et_RegionsPerMonitorCap : Z; et_CustomDomainAllowed : bool;
  et_ApiAccessAllowed : bool; et_ApiWriteAllowed : bool; et_FailureSnapshot : bool; et_TrialEligible : bool;
}.

Inductive RResponse :=
  | RPlain (r : Response)
  | RInvalid (fields : gmap string string)
  | RIncidents (items : list IncidentDTO) (next : option string)
  | RDetail (d : IncidentDetail)
  | RAnnotation (a : AnnotationDTO)
  | RResults (items : list CheckResultDTO) (next : option string)
  | RMonitors (items : list MonitorListItem)
  | RStates (monitors : gmap string (list RegionStateDTO))
  | REntitlements (e : EntitlementsDTO)
  | RPlans (entries : list PlanEntry).

(** The gate of the reads. *)
Definition view_gate {A} (p : option Principal) (db : A) (k : Principal -> RResponse * A) : RResponse * A :=
  match humanInOrg p with
  | None => (RPlain R401, db)
  | Some (q, actor) =>
      let d := canMonitor q actor authzView in
      if negb (de_Allowed d) then (RPlain (R403 (de_Reason d)), db) else k q
  end.

Definition right_gate {A} (p : option Principal) (action : Authz.Action) (db : A) (k : Principal -> RResponse * A) : RResponse * A :=
  match humanInOrg p with
  | None => (RPlain R401, db)
  | Some (q, actor) =>
      let d := Can actor action (org_resource (pr_OrgID q)) in
      if negb (de_Allowed d) then (RPlain (R403 (de_Reason d)), db) else k q
  end.

Definition maxAnnotationLen : Z := 5000.
Definition defaultResultsLimit : Z := 100.

(** ** Handlers *)

(** RFC 3339 with nanoseconds, both ways. *)
Record TimeText := mkTimeText { FormatTime : Time -> string; ParseTime : string -> option Time }.

Section cursors.
Context (codec : TimeText).

Definition parseTimeCursor (c : option string) : option Time :=
  match c with
  | None | Some EmptyString => None
  | Some s => ParseTime codec s
  end.
Definition nextTimeCursor (t : Time) : option string := Some (FormatTime codec t).

(** The cursor of a page: the time of its last item, if it is full. *)
Definition page_cursor {A} (time : A -> Time) (items : list A) : option string :=
  if Z.of_nat (length items) =? defaultResultsLimit
  then match last items with Some x => nextTimeCursor (time x) | None => None end
  else None.

Definition ListIncidents (p : option Principal) (status cursor : option string) (db : DB) : RResponse * DB :=
  view_gate p db (fun q =>
    let openOnly := bool_decide (status = Some "open") in
    let incidents := ListOrgIncidents (pr_OrgID q) openOnly (parseTimeCursor cursor) defaultResultsLimit db in
    (RIncidents (incidentDTO <$> incidents) (page_cursor i_StartedAt incidents), db)).

Definition ListMonitorIncidents (p : option Principal) (id : string) (cursor : option string) (db : DB) : RResponse * DB :=
  view_gate p db (fun q =>
    match parseMonitorID id with
    | None => (RIncidents [] None, db)
    | Some mid =>
        let incidents := store_ListIncidents (pr_OrgID q) mid (parseTimeCursor cursor) defaultResultsLimit db in
        (RIncidents (incidentDTO <$> incidents) (page_cursor i_StartedAt incidents), db)
    end).

Definition ListResults (now : Time) (p : option Principal) (id : string) (range cursor region : option string) (db : DB) : RResponse * DB :=
  view_gate p db (fun q =>
    match parseMonitorID id with
    | None => (RResults [] None, db)
    | Some mid =>
        let results := store_ListResults (pr_OrgID q) mid (rangeSince now range) (parseTimeCursor cursor) (default "" region) defaultResultsLimit db in
        (RResults (checkResultDTO <$> results) (page_cursor r_CheckedAt results), db)
    end).
End cursors.

Definition api_GetIncident (p : option Principal) (id : string) (db : DB) : RResponse * DB :=
  view_gate p db (fun q =>
    match parseMonitorID id with
    | None => (RPlain R404, db)
    | Some iid =>
        match (GetIncident (pr_OrgID q) iid db).1 with
        | Err ErrNoRows => (RPlain R404, db)
        | Err _ => (RPlain R500, db)
        | Ok inc => (RDetail (incidentDetailDTO inc (ListIncidentAnnotations (pr_OrgID q) iid db)), db)
        end
    end).

Definition api_AddIncidentAnnotation (now : Time) (p : option Principal) (id : string) (body : option string) (db : DB) : RResponse * DB :=
  view_gate p db (fun q =>
    match body with
    | None => (RPlain (R422 "body required"), db)
    | Some raw =>
        let note := TrimSpace raw in
        if String.eqb note "" then (RInvalid {[ "note" := "note is required" ]}, db)
        else if maxAnnotationLen <? slen note then (RInvalid {[ "note" := "note is too long" ]}, db)
        else
          match parseMonitorID id with
          | None => (RPlain R404, db)
          | Some iid =>
              match AddIncidentAnnotation (pr_OrgID q) iid (pr_UserID q) note now db with
              | (Err ErrNoRows, db') => (RPlain R404, db')
              | (Err _, db') => (RPlain R500, db')
              | (Ok a, db') => (RAnnotation (annotationDTO a), db')
              end
          end
    end).

Definition CloseIncident (now : Time) (p : option Principal) (id : string) (db : DB) : RResponse * DB :=
  right_gate p ActionCloseIncident db (fun q =>
    match parseMonitorID id with
    | None => (RPlain R404, db)
    | Some iid =>
        match ManualCloseIncident (pr_OrgID q) iid (pr_UserID q) now db with
        | (Err ErrNoRows, db') => (RPlain R404, db')
        | (Err ErrIncidentNotOpen, db') => (RPlain (R409 "incident is already closed"), db')
        | (Err _, db') => (RPlain R500, db')
        | (Ok inc, db') => (RDetail (incidentDetailDTO inc (ListIncidentAnnotations (pr_OrgID q) iid db')), db')
        end
    end).

Definition ListMonitors (cipher : option secretCipher) (accounts : MDB) (p : option Principal) (db : DB) : RResponse * DB :=
  view_gate p db (fun q =>
    match store_ListMonitors cipher (pr_OrgID q) db with
    | Err _ => (RPlain R500, db)
    | Ok rows =>
        let floor := EffectiveIntervalFloor (monitorLimits_of (pr_OrgID q) accounts) in
        (RMonitors ((fun row => monitorListItemDTO row floor) <$> rows), db)
    end).

Section region_states.
Context {S : Type} `{!HashStore S} (unmarshal : string -> option RegionState) (cipher : option secretCipher).

(** The monitors to read: the one of the filter, if it is the org's, or all of the org's. *)
Definition state_ids (orgID : Z) (monitorID : option string) (db : DB) : result dbError (list Z) :=
  let raw := default "" monitorID in
  if String.eqb raw "" then
    match store_ListMonitors cipher orgID db with
    | Ok rows => Ok ((fun r => m_ID (ml_Monitor r)) <$> rows)
    | Err e => Err e
    end
  else
    match parseMonitorID raw with
    | None => Ok []
    | Some id => match (Store.GetMonitor cipher orgID id db).1 with Ok _ => Ok [id] | Err _ => Ok [] end
    end.

(** [state] is [None] when no live state is wired. *)
Definition GetMonitorRegionStates (state : option S) (p : option Principal) (monitorID : option string) (db : DB) : RResponse * DB :=
  view_gate p db (fun q =>
    match state with
    | None => (RStates ∅, db)
    | Some s =>
        match state_ids (pr_OrgID q) monitorID db with
        | Err _ => (RPlain R500, db)
        | Ok [] => (RStates ∅, db)
        | Ok ids =>
            match GetMany unmarshal ids s with
            | Err _ => (RPlain R500, db)
            | Ok states => (RStates (kmap pretty (regionStatesDTO <$> states)), db)
            end
        end
    end).
End region_states.

(** [ents] is the feature resolver the server was built with. *)
Definition GetEntitlements (ents : Z -> Set_) (now : Time) (p : option Principal) (db : DB) (sp : SDB) (billing : BDB) : RResponse :=
  (right_gate p ActionViewBilling tt (fun q =>
    let accounts := accounts billing in
    let plan := orgPlan (pr_OrgID q) accounts in
    match (CountEnabledMonitors (pr_OrgID q) db).1 with
    | Err _ => (RPlain R500, tt)
    | Ok monitorsUsed =>
        let seats := seatUsage (pr_OrgID q) accounts in
        let limits := MonitorLimits_for (pr_OrgID q) plan in
        (REntitlements (mkEntitlements plan monitorsUsed (ml_MonitorsCap limits) (su_Used seats) (su_Cap seats)
           (CountStatusPages (pr_OrgID q) sp) (StatusPageCap (pr_OrgID q) plan) (EffectiveIntervalFloor limits) (Retention plan)
           (ml_RegionsAllowed limits) (ml_RegionsPerMonitorCap limits) (CustomDomainAllowed plan) (APIAccessAllowed plan) (APIWriteAllowed plan)
           (FailureSnapshot (ents (pr_OrgID q))) (trialEligible now (pr_UserID q) plan billing)), tt)
    end)).1.

Definition ListPlans : RResponse := RPlans Catalog.
