(* ===== verification/ReadsInv.v ===== *)
(** * ReadsInv: what the reads show

    Following the cursors of the incident list shows every incident of the org once, newest first,
    when no two started at the same time, and cuts a tie at the end of a page; the usage screen says
    what the gates of the writes do; a manual close leaves the counters, so that the next failure
    alerts again and no recovery is sent. *)

From S2P Require Import Prelude Domain GoStrings Alerting Store StoreInv AlertingService Entitlements Authz Members MonitorApi StatusPages Billing CheckState Reads.
Open Scope Z_scope.

(** ** Walking the pages of a list *)

Section walk.
Context {A : Type} (time : A -> Time) (n : nat).

Definition upto (before : option Time) (l : list A) : list A := filter (fun x => is_before before (time x) = true) l.

(** Pages of [n], each before the last time of the one before it, until one is not full; [None] when the fuel is
    not enough. *)
Fixpoint walk (fuel : nat) (before : option Time) (l : list A) : option (list A) :=
  match fuel with
  | O => None
  | S fuel' =>
      let page := take n (upto before l) in
      app page <$> (if Z.of_nat (length page) =? Z.of_nat n
                    then match last page with Some x => walk fuel' (Some (time x)) l | None => Some [] end
                    else Some [])
  end.

Lemma last_take_elem k (l : list A) x : last (take k l) = Some x -> x ∈ l.
Proof. intros Hx%last_Some_elem_of. apply elem_of_take in Hx as (i & Hi & _). by eapply list_elem_of_lookup_2. Qed.

Definition descending : list A -> Prop := StronglySorted (fun x y => time y < time x).

(** In a descending list, what is before an element of a prefix's end is the rest. *)
Lemma descending_rest l k x : descending l -> last (take k l) = Some x -> filter (fun y => is_before (Some (time x)) (time y) = true) l = drop k l.
Proof.
  intros Hl. revert k x. induction Hl as [|y l Hl IH Hy]; intros k x; [by rewrite take_nil|].
  destruct k as [|k]; [done|]. cbn [take drop]. rewrite filter_cons. destruct (last (take k l)) as [z|] eqn:Hz.
  - rewrite last_cons, Hz. intros [= <-]. rewrite decide_False; [by apply IH|]. simpl. rewrite Z.ltb_lt.
    rewrite Forall_forall in Hy. assert (z ∈ l) as Hin by (by eapply last_take_elem). specialize (Hy z Hin). lia.
  - rewrite last_cons, Hz. intros [= <-]. apply last_None in Hz. rewrite decide_False by (simpl; rewrite Z.ltb_lt; lia).
    rewrite (filter_all _ l); [destruct k, l; try done|].
    eapply Forall_impl; [exact Hy|]. intros z Hz'. simpl. by apply Z.ltb_lt.
Qed.

Lemma upto_upto b x l : time x < b -> upto (Some (time x)) l = filter (fun y => is_before (Some (time x)) (time y) = true) (upto (Some b) l).
Proof.
  intros Hx. unfold upto. rewrite list_filter_filter. apply list_filter_iff. intros y. simpl. rewrite !Z.ltb_lt. lia.
Qed.

Lemma descending_upto before l : descending l -> descending (upto before l).
Proof.
  unfold upto. induction 1 as [|x l Hl IH Hx]; [constructor|]. rewrite filter_cons. case_decide; [|done]. constructor; [done|].
  apply Forall_forall. intros y [_ Hy]%list_elem_of_filter. rewrite Forall_forall in Hx. auto.
Qed.

(** Distinct times: the walk is the whole list. *)
Lemma walk_all fuel before l :
  (0 < n)%nat -> descending l -> (length (upto before l) < n * fuel)%nat -> walk fuel before l = Some (upto before l).
Proof.
  intros Hn Hl. revert before. induction fuel as [|fuel IH]; intros before Hf; [lia|]. cbn [walk]. cbv zeta.
  destruct (Z.eqb_spec (Z.of_nat (length (take n (upto before l)))) (Z.of_nat n)) as [He|He].
  - destruct (last (take n (upto before l))) as [x|] eqn:Hx; [|apply last_None in Hx; rewrite Hx in He; simpl in He; lia].
    assert (upto (Some (time x)) l = drop n (upto before l)) as Hrest.
    { assert (x ∈ upto before l) as Hin by (by eapply last_take_elem).
      rewrite <- (descending_rest (upto before l) n x) by (done || by apply descending_upto).
      destruct before as [b|]; [apply upto_upto; apply list_elem_of_filter in Hin as [Hb _]; by apply Z.ltb_lt|].
      unfold upto. rewrite list_filter_filter. apply list_filter_iff. intros y. simpl. naive_solver. }
    rewrite IH, Hrest; [cbn; by rewrite take_drop|]. rewrite Hrest, length_drop. rewrite length_take in He. lia.
  - rewrite length_take in He. cbn. rewrite app_nil_r. f_equal. apply take_ge. lia.
Qed.

(** Equal times: the walk stops after one page. *)
Lemma walk_tied fuel t l : (0 < n)%nat -> Forall (fun x => time x = t) l -> walk (S (S fuel)) None l = Some (take n l).
Proof.
  intros Hn Hl. cbn [walk]. cbv zeta. assert (upto None l = l) as -> by (apply filter_all, Forall_true; done).
  destruct (last (take n l)) as [x|] eqn:Hx; [|destruct (_ =? _); cbn; by rewrite app_nil_r].
  assert (time x = t) as Ht.
  { rewrite Forall_forall in Hl. apply Hl. by eapply last_take_elem. }
  destruct (Z.eqb_spec (Z.of_nat (length (take n l))) (Z.of_nat n)) as [He|]; [|cbn; by rewrite app_nil_r].
  assert (upto (Some (time x)) l = []) as ->.
  { apply filter_none. eapply Forall_impl; [exact Hl|]. intros y Hy. simpl in *. rewrite Z.ltb_lt. lia. }
  rewrite take_nil. cbn [length last]. rewrite (proj2 (Z.eqb_neq _ _)) by lia. cbn. by rewrite !app_nil_r.
Qed.
End walk.

(** ** The pages of the incident list *)

(** What the queries select, in the order they list it. *)
Definition org_incidents (orgID : Z) (openOnly : bool) (db : DB) : list Incident :=
  newest incident_key (snd <$> rows_where (fun i => (i_OrgID i =? orgID) && (negb openOnly || bool_decide (i_EndedAt i = None))) (incidents db)).

Lemma newest_trans {A} (key : A -> Time * Z) a b c : lex_le (key b) (key a) = true -> lex_le (key c) (key b) = true -> lex_le (key c) (key a) = true.
Proof. intros H1 H2. by eapply lex_le_trans. Qed.
Lemma newest_total {A} (key : A -> Time * Z) a b : lex_le (key b) (key a) = true \/ lex_le (key a) (key b) = true.
Proof. apply lex_le_total. Qed.

Lemma newest_filter {A} (key : A -> Time * Z) (Q : A -> Prop) `{!forall x, base.Decision (Q x)} l : newest key (filter Q l) = filter Q (newest key l).
Proof. symmetry. apply (filter_sort_by (fun x y => lex_le (key y) (key x))); [apply newest_trans|apply newest_total]. Qed.

Lemma newest_descending {A} (key : A -> Time * Z) l : NoDup ((fun x => (key x).1) <$> l) -> descending (fun x => (key x).1) (newest key l).
Proof.
  intros Hnd. pose proof (sort_by_sorted (fun x y => lex_le (key y) (key x)) l (newest_trans key) (newest_total key)) as Hs.
  assert (NoDup ((fun x => (key x).1) <$> newest key l)) as Hnd' by (unfold newest; by rewrite sort_by_perm).
  unfold newest in *. induction Hs as [|x l' Hs IH Hx]; [constructor|]. rewrite fmap_cons in Hnd'. apply NoDup_cons in Hnd' as [Hx' Hnd'].
  constructor; [by apply IH|]. rewrite Forall_forall in Hx. apply Forall_forall. intros y Hy. specialize (Hx y Hy).
  assert ((key x).1 <> (key y).1) as Hne by (intros He; apply Hx', list_elem_of_fmap; eauto).
  unfold lex_le in Hx. apply orb_true_iff in Hx as [Hx|Hx]; reflect_tests; [done|congruence].
Qed.

Lemma rows_where_and {V} (P : V -> bool) (Q : V -> bool) (m : gmap Z V) :
  snd <$> rows_where (fun v => P v && Q v) m = filter (fun v => Q v = true) (snd <$> rows_where P m).
Proof.
  unfold rows_where. induction (map_to_list m) as [|[k v] l IH]; [done|]. rewrite !(filter_cons _ (k, v)). simpl.
  destruct (P v); cbn [andb]; [|by rewrite !decide_False by done].
  rewrite (decide_True (P := true = true)) by done. rewrite fmap_cons, filter_cons. simpl. case_decide; [by rewrite fmap_cons, IH|done].
Qed.

Lemma page_is_upto orgID openOnly before db :
  ListOrgIncidents orgID openOnly before defaultResultsLimit db = take 100 (upto i_StartedAt before (org_incidents orgID openOnly db)).
Proof.
  unfold ListOrgIncidents, org_incidents, upto. change (page_limit defaultResultsLimit) with 100%nat. f_equal.
  rewrite rows_where_and, newest_filter. done.
Qed.

Section pages.
Context (codec : TimeText).

(** RFC 3339 writes a time back as it was read, and never as the empty text. *)
Definition codec_laws : Prop := forall t, ParseTime codec (FormatTime codec t) = Some t /\ FormatTime codec t <> "".

(** A reader that follows the cursors until a page has none: [None] is a reader that is not done
    after [fuel] pages, or was refused. *)
Fixpoint follow (fuel : nat) (p : option Principal) (status cursor : option string) (db : DB) : option (list IncidentDTO) :=
  match fuel with
  | O => None
  | S fuel' =>
      match (ListIncidents codec p status cursor db).1 with
      | RIncidents items next => app items <$> match next with Some c => follow fuel' p status (Some c) db | None => Some [] end
      | _ => None
      end
  end.

Lemma follow_walks fuel p q actor status before cursor db :
  codec_laws -> humanInOrg p = Some (q, actor) -> de_Allowed (canMonitor q actor authzView) = true -> parseTimeCursor codec cursor = before ->
  follow fuel p status cursor db =
  option_map (fmap (M:=list) incidentDTO) (walk i_StartedAt 100 fuel before (org_incidents (pr_OrgID q) (bool_decide (status = Some "open")) db)).
Proof.
  intros Hc Hp Ha. revert before cursor. induction fuel as [|fuel IH]; intros before cursor Hcur; [done|].
  cbn [follow walk]. unfold ListIncidents, view_gate. rewrite Hp. cbv zeta. rewrite Ha. cbn [negb fst]. rewrite Hcur, page_is_upto.
  assert (forall (page : list Incident) (o : option (list Incident)), option_map (fmap (M:=list) incidentDTO) (app page <$> o) = app (incidentDTO <$> page) <$> (option_map (fmap (M:=list) incidentDTO) o)) as ->.
  { intros page [o|]; [|done]. cbn. by rewrite fmap_app. }
  f_equal. unfold page_cursor. change (Z.of_nat 100) with defaultResultsLimit. destruct (_ =? _); [|done].
  destruct (last _) as [x|]; [|done]. apply IH. unfold parseTimeCursor, nextTimeCursor. destruct (Hc (i_StartedAt x)) as [Hp' Hne].
  by destruct (FormatTime codec (i_StartedAt x)).
Qed.

(** C36: following the cursors of the incident list from the first page ends, after one page more
    than the whole hundreds of incidents that the filter asks for, and has then shown every one of
    them exactly once, newest first, when no two of them started at the same time. *)
Theorem incident_pages_complete p q actor status db :
  codec_laws -> humanInOrg p = Some (q, actor) -> de_Allowed (canMonitor q actor authzView) = true ->
  let shown := org_incidents (pr_OrgID q) (bool_decide (status = Some "open")) db in
  NoDup (i_StartedAt <$> shown) ->
  follow (S (length shown / 100)) p status None db = Some (incidentDTO <$> shown).
Proof.
  intros Hc Hp Ha shown Hnd. rewrite (follow_walks _ p q actor status None) by done. fold shown.
  assert (upto i_StartedAt None shown = shown) as Hup by (apply filter_all, Forall_true; done).
  rewrite walk_all; [cbn; by rewrite Hup|lia| |rewrite Hup; pose proof (Nat.div_mod_eq (length shown) 100); pose proof (Nat.mod_upper_bound (length shown) 100); lia].
  apply (newest_descending incident_key). unfold shown, org_incidents, newest in Hnd. by rewrite sort_by_perm in Hnd.
Qed.

(** A cursor is a time, so a page that ends inside a group of incidents with one start time cuts the
    group: of incidents that all started at once a reader sees the first hundred. *)
Theorem tied_incidents_are_cut p q actor status db t fuel :
  codec_laws -> humanInOrg p = Some (q, actor) -> de_Allowed (canMonitor q actor authzView) = true ->
  let shown := org_incidents (pr_OrgID q) (bool_decide (status = Some "open")) db in
  Forall (fun i => i_StartedAt i = t) shown ->
  follow (S (S fuel)) p status None db = Some (incidentDTO <$> take 100 shown).
Proof.
  intros Hc Hp Ha shown Ht. rewrite (follow_walks _ p q actor status None) by done. fold shown. by rewrite (walk_tied i_StartedAt 100 fuel t) by (lia || done).
Qed.
End pages.

(** ** The usage screen and the gates *)

(** Who may see the usage may also make every change it meters. *)
Lemma billing_viewer_rights actor org a :
  de_Allowed (Can actor ActionViewBilling (org_resource org)) = true -> a ∈ admin_actions -> a <> ActionChangeMemberRole -> a <> ActionRemoveMember ->
  a <> ActionCreateOrganization -> de_Allowed (Can actor a (org_resource org)) = true.
Proof.
  intros Hv Ha H1 H2 H3. apply Can_allowed in Hv as (Horg & Hkey & Hrole). unfold Can.
  destruct (bool_decide (a <> ActionCreateOrganization) && _ && _) eqn:E.
  { reflect_tests. destruct Horg as [|[]]; try done; congruence. }
  assert (ownerOnly a = false) as -> by (destruct a; done || (exfalso; revert Ha; by apply (bool_decide_unpack _))).
  rewrite andb_false_r. rewrite bool_decide_eq_true_2; [by destruct a|].
  destruct (ac_Role actor) eqn:Er; cbn [roleActions] in *; try (exfalso; revert Hrole; by apply (bool_decide_unpack _)); [|done].
  unfold owner_actions. apply elem_of_app. by left.
Qed.

(** C37: the usage screen and the gates never disagree.  For any input that is otherwise valid, the api
    answers a new seat or status page with the payment answer exactly when the screen shows the org
    at the cap for it, and a new monitor exactly when it is enabled and the screen shows the org at
    the cap of its enabled monitors: a monitor that is created disabled always fits. *)
Theorem meter_and_gates_agree parse_url SplitHostPort ToLower Quote lower cipher ents now p q actor db sp billing e :
  GetEntitlements ents now p db sp billing = REntitlements e -> humanInOrg p = Some (q, actor) ->
  (forall nonce i m, monitorFromInput parse_url SplitHostPort ToLower Quote (pr_OrgID q) 0 i (monitorLimits_of (pr_OrgID q) (accounts billing)) = (m, ∅) ->
     (MonitorApi.CreateMonitor parse_url SplitHostPort ToLower Quote cipher nonce (accounts billing) p (Some i) db).1.1 = Plain (R402 (et_MonitorsCap e)) <->
     m_Enabled m = true /\ et_MonitorsCap e <= et_MonitorsUsed e) /\
  (forall b, TrimSpace (ib_Email b) <> "" -> validRole (ib_Role b) = true -> ib_Role b <> RoleOwner ->
     (CreateInvitation lower now p (Some b) (accounts billing)).1.1 = R402 (et_SeatsCap e) <-> et_SeatsCap e <= et_SeatsUsed e) /\
  (forall i page es, statusPageFromInput ToLower (pr_OrgID q) 0 i = (page, es, ∅) ->
     (api_CreateStatusPage lower ToLower (accounts billing) p (Some i) sp).1 = SPlain (R402 (et_StatusPagesCap e)) <->
     et_StatusPagesCap e <= et_StatusPagesUsed e).
Proof.
  unfold GetEntitlements, right_gate. intros He Hp. rewrite Hp in He. cbv zeta in He.
  destruct (de_Allowed (Can actor ActionViewBilling (org_resource (pr_OrgID q)))) eqn:Hv; [|done]. cbn [negb] in He.
  destruct (CountEnabledMonitors (pr_OrgID q) db).1 as [used|] eqn:Hused; [|done]. cbn [fst] in He. injection He as <-. cbn [et_MonitorsCap et_MonitorsUsed et_SeatsCap et_SeatsUsed et_StatusPagesCap et_StatusPagesUsed].
  pose proof (fun a => billing_viewer_rights actor (pr_OrgID q) a Hv) as Hr. split_and!.
  - intros nonce i m Hm. unfold MonitorApi.CreateMonitor, with_right. rewrite Hp. cbv zeta. unfold canMonitor.
    rewrite Hr by (apply (bool_decide_unpack _); done). cbn [negb]. rewrite Hm, bool_decide_eq_true_2 by done. cbn [negb].
    destruct (m_Enabled m) eqn:Hen; cbn [andb]; [|split; [|by intros []]; destruct (negb _); [done|]; by destruct (Store.CreateMonitor _ _ _ _) as [[]]].
    unfold at_cap. rewrite Hused. fold (monitorLimits_of (pr_OrgID q) (accounts billing)).
    destruct (Z.leb_spec (ml_MonitorsCap (monitorLimits_of (pr_OrgID q) (accounts billing))) used); [done|]. split; [|lia].
    destruct (negb _); [done|]. by destruct (Store.CreateMonitor _ _ _ _) as [[]].
  - intros b Hb Hrole Hno. unfold CreateInvitation. rewrite Hp. cbv zeta. rewrite Hr by (apply (bool_decide_unpack _); done). cbn [negb].
    rewrite (proj2 (String.eqb_neq _ _) Hb), Hrole, bool_decide_eq_false_2 by done. cbn [negb]. unfold HasFreeSeat.
    destruct (Z.ltb_spec (su_Used (seatUsage (pr_OrgID q) (accounts billing))) (su_Cap (seatUsage (pr_OrgID q) (accounts billing)))); cbn [negb]; [|done].
    split; [|unfold seatUsage in *; simpl in *; lia]. destruct (GetOrganization _ _); [|done]. by destruct (CreateInvitation_tx _ _ _ _) as [[|[]]].
  - intros i page es Hi. unfold api_CreateStatusPage, page_right. rewrite Hp. cbv zeta. unfold canStatusPage.
    rewrite Hr by (apply (bool_decide_unpack _); done). cbn [negb]. rewrite Hi, bool_decide_eq_true_2 by done. cbn [negb]. unfold statusPageCap.
    destruct (Z.leb_spec (StatusPageCap (pr_OrgID q) (orgPlan (pr_OrgID q) (accounts billing))) (CountStatusPages (pr_OrgID q) sp)); [done|]. split; [|lia].
    destruct (CreateStatusPage _ _ _) as [[created|[]] sp']; try done. unfold apply_and_answer.
    destruct (applyMonitors _ _ _ _) as [[r|] db'] eqn:Ha; [|unfold answer_page; by destruct (loadStatusPage _ _ _) as [[]|]].
    unfold applyMonitors in Ha. destruct (SetStatusPageMonitors _ _ _ _) as [[|[]]]; by simplify_eq.
Qed.

(** ** A manual close and the checks after it *)

Lemma closed_not_open org mid db i i' :
  wf db -> incidents db !! i_ID i = Some i -> i_MonitorID i = mid -> i_OrgID i = org -> i_EndedAt i = None -> i_EndedAt i' <> None ->
  open_of org mid (incidents db) = Some i /\ open_of org mid (<[i_ID i := i']> (incidents db)) = None.
Proof.
  intros Hwf Hi Hm Ho He He'. assert (open_of org mid (incidents db) = Some i) as Hopen; [|split; [done|by apply open_of_close]].
  unfold open_of. erewrite find_row_unique; [done|exact Hi|unfold is_open_of; by rewrite Ho, Hm, He, !Z.eqb_refl|].
  intros k j Hj Hp. unfold is_open_of in Hp. reflect_tests. eapply (wf_one_open _ Hwf); eauto; congruence.
Qed.

(** A manual close ends the incident and nothing else: the monitor's counters stay.  So the
    next healthy check sends no recovery, and the next failing one, the run being past the
    threshold already, opens a new incident and alerts at once. *)
Theorem manual_close_keeps_the_run now p id d db db' :
  wf db -> CloseIncident now p id db = (RDetail d, db') ->
  exists org i st, humanInOrg p <> None /\ incidents db !! i_ID i = Some i /\ i_OrgID i = org /\ i_EndedAt i = None /\
    id_Id (dt_base d) = pretty (i_ID i) /\ id_EndedAt (dt_base d) = Some now /\ id_CloseReason (dt_base d) = Some CloseManual /\
    alert_state org (i_MonitorID i) db = Some st /\ as_OpenIncident st = Some i /\
    let st' := mkAlertState (as_ConsecutiveFails st) (as_FirstFailAt st) None (as_LastAppliedResultID st) (as_SSLWarnedDays st) in
    (GetAlertState org (i_MonitorID i) db').1 = Ok st' /\
    (forall m r, r_Healthy r = true -> d_Action (Apply m r st') = ActionNone /\ d_Notify (Apply m r st') = None) /\
    (forall m r, r_Healthy r = false -> m_FailureThreshold m <= wrap64 (as_ConsecutiveFails st + 1) ->
       d_Action (Apply m r st') = ActionOpenIncident /\ is_Some (d_Notify (Apply m r st'))).
Proof.
  intros Hwf. unfold CloseIncident, right_gate. destruct (humanInOrg p) as [[q actor]|] eqn:Hp; [|done]. cbv zeta.
  destruct (negb _); [done|]. destruct (parseMonitorID id) as [iid|]; [|done].
  unfold ManualCloseIncident, WithOrg, mbind, tx_bind, select_row. destruct (incident_row (pr_OrgID q) iid db) as [i|] eqn:Hi; [|done].
  apply incident_row_Some in Hi as [Hi Horg]. destruct (i_EndedAt i) eqn:He; [done|]. cbn [fst snd exec mret tx_ret throw].
  destruct (wf_inc_id _ Hwf _ _ Hi) as [Hid _]. subst iid. intros [= <- <-].
  destruct (wf_inc_fk _ Hwf _ _ Hi) as [row Hrow]. pose proof (wf_inc_org _ Hwf _ _ _ Hi Hrow) as Hmo.
  destruct (closed_not_open (pr_OrgID q) (i_MonitorID i) db i (closed_incident i now CloseManual (if pr_UserID q =? 0 then None else Some (pr_UserID q))) Hwf)
    as [Hopen Hclosed]; try done.
  assert (monitor_row (pr_OrgID q) (i_MonitorID i) db = Some row) as Hmr.
  { unfold monitor_row. rewrite Hrow. rewrite <- Hmo, Horg, Z.eqb_refl. done. }
  assert (alert_state (pr_OrgID q) (i_MonitorID i) db = Some (state_of_row (pr_OrgID q) (i_MonitorID i) row (incidents db))) as Hst
    by (unfold alert_state; by rewrite Hmr).
  exists (pr_OrgID q), i, (state_of_row (pr_OrgID q) (i_MonitorID i) row (incidents db)). split_and!; try done; cbv zeta.
  - rewrite GetAlertState_eq. unfold alert_state, monitor_row. cbn [monitors set_incidents incidents]. rewrite Hrow. rewrite <- Hmo, Horg, Z.eqb_refl.
    cbn [mbind option_bind]. unfold state_of_row. cbn [as_ConsecutiveFails as_FirstFailAt as_LastAppliedResultID as_SSLWarnedDays]. by rewrite Hclosed.
  - intros m r Hr. unfold Apply. rewrite Hr. done.
  - intros m r Hr Hth. unfold Apply, applyUnhealthy. rewrite Hr. cbn [as_OpenIncident as_ConsecutiveFails] in *. rewrite (proj2 (Z.ltb_ge _ _) Hth). split; [done|eauto].
Qed.

(** ** Witnesses *)

Definition rdx_codec : TimeText :=
  mkTimeText (fun t => String "T" (bits_of (encode t)))
    (fun s => match s with String _ r => countable.decode (of_bits r) | EmptyString => None end).
Lemma rdx_codec_laws : codec_laws rdx_codec.
Proof. intros t. split; [|done]. simpl. by rewrite of_bits_of, decode_encode. Qed.

Definition rdx_admin : option Principal := Some (mkPrincipal ActorHuman 3 0 7 (Some RoleAdmin)).
Definition rdx_q : Principal := mkPrincipal ActorHuman 3 0 7 (Some RoleAdmin).
Definition rdx_actor : Actor := mkActor ActorHuman 3 0 7 RoleAdmin.

(** 130 incidents, started at [start k]. *)
Definition rdx_db (start : Z -> Time) : DB :=
  set_incidents (fun _ => list_to_map ((fun k => (Z.of_nat k, mkIncident (Z.of_nat k) 7 1 (start (Z.of_nat k)) None None None None None)) <$> seq 1 130)) empty_db.

(** Two pages show all of them; when they start at once, the second is empty. *)
Lemma incident_pages_complete_witness :
  length <$> follow rdx_codec 2 rdx_admin None None (rdx_db id) = Some 130%nat.
Proof.
  assert (length (org_incidents 7 false (rdx_db id)) = 130%nat) as Hlen by (vm_compute; reflexivity).
  pose proof (incident_pages_complete rdx_codec rdx_admin rdx_q rdx_actor None (rdx_db id) rdx_codec_laws eq_refl eq_refl) as Hall.
  cbv zeta in Hall. change (bool_decide (None = Some "open")) with false in Hall. change (pr_OrgID rdx_q) with 7 in Hall. rewrite Hlen in Hall. change (S (130 / 100)) with 2%nat in Hall. rewrite Hall.
  - cbn [fmap option_fmap option_map]. by rewrite length_fmap, Hlen.
  - apply (bool_decide_unpack _). vm_compute. exact I.
Defined.

Lemma tied_incidents_are_cut_witness :
  length <$> follow rdx_codec 131 rdx_admin None None (rdx_db (fun _ => 5)) = Some 100%nat.
Proof.
  rewrite (tied_incidents_are_cut rdx_codec rdx_admin rdx_q rdx_actor None (rdx_db (fun _ => 5)) 5 129 rdx_codec_laws eq_refl eq_refl).
  - vm_compute. reflexivity.
  - apply (bool_decide_unpack _). vm_compute. exact I.
Defined.

Definition rdx_billing : BDB :=
  mkBDB (mkMDB {[ 1 := mkMembership 1 7 3 RoleAdmin ]} ∅ {[ 7 := mkOrganization "acme" "tier1" "en" false ]} {[ 3 := mkUser "a@x" true "A" true ]} 2 1) ∅ ∅ ∅ ∅ 1 1.

(** An org of the free plan with its one seat taken. *)
Lemma meter_and_gates_agree_witness :
  exists e, GetEntitlements (fun _ => mkSet true) 0 rdx_admin empty_db (mkSDB empty_db ∅ ∅ 1 1) rdx_billing = REntitlements e /\ et_SeatsCap e <= et_SeatsUsed e /\
  (CreateInvitation id 0 rdx_admin (Some (mkInviteBody "b@x" RoleMember None)) (accounts rdx_billing)).1.1 = R402 (et_SeatsCap e).
Proof.
  destruct (GetEntitlements (fun _ => mkSet true) 0 rdx_admin empty_db (mkSDB empty_db ∅ ∅ 1 1) rdx_billing) as [| | | | | | | |e|] eqn:He;
    try (vm_compute in He; discriminate He).
  assert (et_SeatsCap e <= et_SeatsUsed e) as Hle by (vm_compute in He; injection He as <-; vm_compute; discriminate).
  exists e. split; [done|]. split; [exact Hle|].
  destruct (meter_and_gates_agree (fun _ => None) (fun _ => None) id id id None (fun _ => mkSet true) 0 rdx_admin rdx_q rdx_actor empty_db
    (mkSDB empty_db ∅ ∅ 1 1) rdx_billing e He eq_refl) as (_ & Hs & _).
  by apply Hs.
Defined.

Definition rdx_closer : option Principal := Some (mkPrincipal ActorHuman 3 0 (i_OrgID ex_incident1) (Some RoleAdmin)).

Lemma manual_close_keeps_the_run_witness :
  exists d db' org i st, CloseIncident 500 rdx_closer "1" ex_db3 = (RDetail d, db') /\ incidents ex_db3 !! i_ID i = Some i /\
    alert_state org (i_MonitorID i) ex_db3 = Some st /\ as_OpenIncident st = Some i.
Proof.
  destruct (CloseIncident 500 rdx_closer "1" ex_db3) as [[| | |d| | | | | |] db'] eqn:Hc; try (vm_compute in Hc; discriminate Hc).
  destruct (manual_close_keeps_the_run 500 rdx_closer "1" d ex_db3 db') as (org & i & st & _ & Hi & _ & _ & _ & _ & _ & Hst & Hopen & _).
  - eapply wf_reachable; [apply ex_db3_reachable].
  - exact Hc.
  - exists d, db', org, i, st. done.
Defined.
