(* ===== verification/Config.v ===== *)
(** * Config: what each service reads from its environment
    (src/internal/config/config.go)

    The environment is the function [os.Getenv], empty where a variable is not set.  Reading a file,
    Unicode case mapping and AES are parameters. *)

From S2P Require Import Prelude Domain GoStrings Crypto.
Open Scope Z_scope.

Inductive Service := ServiceAPI | ServiceScheduler | ServiceWorker | ServiceAlerting | ServiceNotifier | ServiceBilling.
#[export] Instance Service_eq_dec : EqDecision Service.
Proof. solve_decision. Defined.

Definition service_name (s : Service) : string :=
  match s with
  | ServiceAPI => "api" | ServiceScheduler => "scheduler" | ServiceWorker => "worker"
  | ServiceAlerting => "alerting" | ServiceNotifier => "notifier" | ServiceBilling => "billing"
  end.

Record needs := mkNeeds { n_postgres : bool; n_redis : bool; n_kafka : bool; n_secret : bool }.

Definition serviceNeeds (s : Service) : needs :=
  match s with
  | ServiceAPI | ServiceNotifier => mkNeeds true true true true
  | ServiceScheduler | ServiceWorker | ServiceAlerting => mkNeeds true true true false
  | ServiceBilling => mkNeeds true false false false
  end.

Record SMTPConfig := mkSMTPConfig {
  sm_Host : string; sm_Port : string; sm_Username : string; sm_Password : string; sm_From : string; sm_FromAccount : string;
  sm_FromAlerts : string; sm_TLSMode : string;
}.
Record BillingConfig := mkBillingConfig {
  bc_Provider : string; bc_WebhookSecret : string; bc_Addr : string; bc_PaddleAPIKey : string; bc_APIBase : string;
}.
Record IdentityConfig := mkIdentityConfig {
  ic_AppBaseURL : string; ic_CookieSecure : bool; ic_DevLogin : bool; ic_JWTIssuer : string; ic_JWTAudience : string; ic_JWTKeyID : string;
  ic_JWTPrivateKeyPEM : string; ic_JWTPrivateKeyPath : string; ic_GoogleIssuerURL : string; ic_GoogleClientID : string;
  ic_GoogleClientSecret : string; ic_GoogleRedirectURL : string; ic_GitHubClientID : string; ic_GitHubClientSecret : string;
  ic_GitHubRedirectURL : string; ic_PlatformAdmins : list string; ic_CFAccessTeamDomain : string; ic_CFAccessAUD : string;
}.
Record Config := mkConfig {
  cf_Service : Service; cf_LogLevel : string; cf_HealthAddr : string; cf_Region : string; cf_TracingEnabled : bool; cf_OTLPEndpoint : string;
  cf_PostgresDSN : string; cf_RedisAddr : string; cf_KafkaBrokers : list string; cf_BusBackend : string; cf_SecretKey : string;
  cf_BlockPrivateNetworks : bool; cf_Identity : IdentityConfig; cf_Billing : BillingConfig; cf_SMTP : SMTPConfig; cf_AppBaseURL : string;
}.

(** The zero values of the parts a service does not load. *)
Definition no_SMTP : SMTPConfig := mkSMTPConfig "" "" "" "" "" "" "" "".
Definition no_Billing : BillingConfig := mkBillingConfig "" "" "" "" "".
Definition no_Identity : IdentityConfig := mkIdentityConfig "" false false "" "" "" "" "" "" "" "" "" "" "" "" [] "" "".

Inductive configError :=
  | UnknownRegion (region : string)
  | NotBoolean (key value : string)
  | Required (key : string)
  | BadBus (value : string)
  | BadSecretKey (e : keyError)
  | BadBillingProvider (value : string)
  | UnreadableKeyFile (path : string)
  | NoSigningKey
  | NoOAuthProvider.

(** [strconv.ParseBool]. *)
Definition ParseBool (s : string) : option bool :=
  if bool_decide (s ∈ ["1"; "t"; "T"; "true"; "TRUE"; "True"]) then Some true
  else if bool_decide (s ∈ ["0"; "f"; "F"; "false"; "FALSE"; "False"]) then Some false
  else None.

Definition splitList (s : string) : list string := filter (fun t => t <> "") (TrimSpace <$> Split "," s).

Section load.
Context (Getenv : string -> string) (ReadFile : string -> option string) (ToLower : string -> string) (NewGCM : list ascii -> option AEAD).

Definition required (key : string) : result configError string :=
  if String.eqb (Getenv key) "" then Err (Required key) else Ok (Getenv key).

Definition withDefault (key def : string) : string := if String.eqb (Getenv key) "" then def else Getenv key.

Definition parseBool (key : string) (def : bool) : result configError bool :=
  if String.eqb (Getenv key) "" then Ok def
  else match ParseBool (Getenv key) with Some b => Ok b | None => Err (NotBoolean key (Getenv key)) end.

Definition paddleAPIBase (key : string) : string :=
  if negb (String.eqb (Getenv "PULSE_PADDLE_API_BASE") "") then Getenv "PULSE_PADDLE_API_BASE"
  else if Contains key "sdbx" then "https://sandbox-api.paddle.com"
  else "".

Definition check_provider (p : string) : result configError unit :=
  if String.eqb p "stub" || String.eqb p "paddle" then Ok tt else Err (BadBillingProvider p).

Definition loadBilling : result configError BillingConfig :=
  let provider := withDefault "PULSE_BILLING_PROVIDER" "stub" in
  let key := Getenv "PULSE_PADDLE_API_KEY" in
  _ ← check_provider provider;
  secret ← required "PULSE_BILLING_WEBHOOK_SECRET";
  Ok (mkBillingConfig provider secret (withDefault "PULSE_BILLING_ADDR" ":8081") key (paddleAPIBase key)).

Definition loadSMTP : SMTPConfig :=
  mkSMTPConfig (Getenv "PULSE_SMTP_HOST") (Getenv "PULSE_SMTP_PORT") (Getenv "PULSE_SMTP_USERNAME") (Getenv "PULSE_SMTP_PASSWORD")
    (Getenv "PULSE_SMTP_FROM") (Getenv "PULSE_SMTP_FROM_ACCOUNT") (Getenv "PULSE_SMTP_FROM_ALERTS") (Getenv "PULSE_SMTP_TLS_MODE").

(** The inline key, or the contents of the file. *)
Definition signing_pem : result configError string :=
  let pem := Getenv "PULSE_JWT_PRIVATE_KEY_PEM" in
  let path := Getenv "PULSE_JWT_PRIVATE_KEY_PATH" in
  pem ← (if String.eqb pem "" && negb (String.eqb path "")
         then match ReadFile path with None => Err (UnreadableKeyFile path) | Some b => Ok b end
         else Ok pem);
  if String.eqb pem "" then Err NoSigningKey else Ok pem.

Definition loadIdentity : result configError IdentityConfig :=
  cookieSecure ← parseBool "PULSE_COOKIE_SECURE" true;
  devLogin ← parseBool "PULSE_DEV_LOGIN" false;
  pem ← signing_pem;
  let google := Getenv "PULSE_GOOGLE_CLIENT_ID" in
  let github := Getenv "PULSE_GITHUB_CLIENT_ID" in
  let admins := filter (fun e => e <> "") ((fun e => ToLower (TrimSpace e)) <$> splitList (Getenv "PULSE_PLATFORM_ADMINS")) in
  if negb devLogin && String.eqb google "" && String.eqb github "" then Err NoOAuthProvider
  else
    Ok (mkIdentityConfig (Getenv "PULSE_APP_BASE_URL") cookieSecure devLogin (withDefault "PULSE_JWT_ISSUER" "pulse")
          (withDefault "PULSE_JWT_AUDIENCE" "pulse-api") (withDefault "PULSE_JWT_KID" "pulse-1") pem (Getenv "PULSE_JWT_PRIVATE_KEY_PATH")
          (withDefault "PULSE_GOOGLE_ISSUER_URL" "https://accounts.google.com") google (Getenv "PULSE_GOOGLE_CLIENT_SECRET")
          (Getenv "PULSE_GOOGLE_REDIRECT_URL") github (Getenv "PULSE_GITHUB_CLIENT_SECRET") (Getenv "PULSE_GITHUB_REDIRECT_URL") admins
          (TrimSpace (Getenv "PULSE_CF_ACCESS_TEAM_DOMAIN")) (TrimSpace (Getenv "PULSE_CF_ACCESS_AUD"))).

(** The brokers and the Redis address of the transport chosen. *)
Definition load_bus (needed : bool) (backend redis : string) : result configError (list string * string) :=
  if negb needed then Ok ([], redis)
  else if String.eqb backend "kafka" then brokers ← required "PULSE_KAFKA_BROKERS"; Ok (splitList brokers, redis)
  else if String.eqb redis "" then redis ← required "PULSE_REDIS_ADDR"; Ok ([], redis)
  else Ok ([], redis).

Definition load_secret (needed : bool) : result configError string :=
  if negb needed then Ok ""
  else
    key ← required "PULSE_SECRET_KEY";
    match LoadKey NewGCM key with Err e => Err (BadSecretKey e) | Ok _ => Ok key end.

(** The billing settings of the api, without the webhook secret. *)
Definition load_api_billing : result configError BillingConfig :=
  let provider := withDefault "PULSE_BILLING_PROVIDER" "stub" in
  _ ← check_provider provider;
  let key := Getenv "PULSE_PADDLE_API_KEY" in
  Ok (mkBillingConfig provider "" "" key (paddleAPIBase key)).

Definition optional {A} (b : bool) (none : A) (r : result configError A) : result configError A := if b then r else Ok none.

Definition Load (service : Service) : result configError Config :=
  let n := serviceNeeds service in
  let region := withDefault "PULSE_REGION" region_Default in
  if negb (Known region) then Err (UnknownRegion region)
  else
    tracing ← parseBool "PULSE_TRACING_ENABLED" false;
    block ← parseBool "PULSE_BLOCK_PRIVATE_NETWORKS" false;
    dsn ← optional (n_postgres n) "" (required "PULSE_POSTGRES_DSN");
    redis ← optional (n_redis n) "" (required "PULSE_REDIS_ADDR");
    let backend := withDefault "PULSE_BUS" "kafka" in
    if negb (String.eqb backend "kafka" || String.eqb backend "redis") then Err (BadBus backend)
    else
      bus ← load_bus (n_kafka n) backend redis;
      secret ← load_secret (n_secret n);
      let mails := bool_decide (service = ServiceAPI \/ service = ServiceNotifier) in
      identity ← optional (bool_decide (service = ServiceAPI)) no_Identity loadIdentity;
      billing ← optional (bool_decide (service = ServiceAPI)) no_Billing load_api_billing;
      billing ← optional (bool_decide (service = ServiceBilling)) billing loadBilling;
      Ok (mkConfig service (withDefault "PULSE_LOG_LEVEL" "info") (withDefault "PULSE_HEALTH_ADDR" ":9080") region tracing
            (Getenv "PULSE_OTLP_ENDPOINT") dsn bus.2 bus.1 backend secret block identity billing (if mails then loadSMTP else no_SMTP)
            (if mails then Getenv "PULSE_APP_BASE_URL" else "")).
End load.
