(* ===== verification/Processes.v ===== *)
(** * Processes: how the six services are put together and taken down
    (src/internal/runtime/runtime.go, src/internal/obs/health.go, src/internal/api/build.go, src/cmd)

    Each main loads its configuration, connects what it needs in order and starts its loop or its
    server; a failure on the way ends the process.  Whether a connection comes up is the [World], as
    are the parsing of the signing key, OIDC discovery and the Paddle client. *)

From S2P Require Import Prelude Domain GoStrings Crypto Config Scheduler Worker.
Open Scope Z_scope.

(** ** The runtime *)

(** The steps of a shutdown. *)
Inductive Closer :=
  | ClosePostgres | CloseRedis | CloseProducer | CloseConsumer (group : string) | StopLagPoll (group : string)
  | StopLoop | ShutdownHTTP | StopTracing | StopLogs | ShutdownHealth.
#[export] Instance Closer_eq_dec : EqDecision Closer.
Proof. solve_decision. Defined.

Record RService := mkService { rs_Cfg : Config; rs_checks : list string; rs_closers : list Closer }.

Inductive bootError :=
  | BootConfig (e : configError) | BootConnect (what : string) | BootKey (e : keyError) | BootSigningKey | BootDiscovery | BootNoProvider
  | BootPrices | BootPaddle | BootTelemetry.

Record World := mkWorld {
  wd_postgres : bool;
  wd_redis : bool;
  wd_producer : string -> bool;
  wd_consumer : string -> string -> bool;
  wd_tracing : bool;
  wd_logging : bool;
  wd_signing_key : string -> bool;
  wd_discovery : string -> bool;
  wd_plan_prices : bool;
  wd_paddle : string -> bool;
}.

Definition AddReady (name : string) (s : RService) : RService := mkService (rs_Cfg s) (rs_checks s ++ [name]) (rs_closers s).
Definition AddCloser (c : Closer) (s : RService) : RService := mkService (rs_Cfg s) (rs_checks s) (rs_closers s ++ [c]).

Section runtime.
Context (Getenv : string -> string) (ReadFile : string -> option string) (ToLower : string -> string) (NewGCM : list ascii -> option AEAD).
Context (w : World).

Definition Setup (svc : Service) : result bootError RService :=
  match Load Getenv ReadFile ToLower NewGCM svc with
  | Err e => Err (BootConfig e)
  | Ok cfg => Ok (mkService cfg [] [])
  end.

(** A connection that is up, with its readiness check and its closers. *)
Definition connected (up : bool) (check : string) (closers : list Closer) (s : RService) : result bootError RService :=
  if up then Ok (foldl (fun s c => AddCloser c s) (AddReady check s) closers) else Err (BootConnect check).

Definition ConnectPostgres : RService -> result bootError RService := connected (wd_postgres w) "postgres" [ClosePostgres].
Definition ConnectRedis : RService -> result bootError RService := connected (wd_redis w) "redis" [CloseRedis].
Definition ConnectBusProducer (s : RService) : result bootError RService :=
  connected (wd_producer w (cf_BusBackend (rs_Cfg s))) "bus-producer" [CloseProducer] s.
Definition ConnectBusConsumer (group : string) (s : RService) : result bootError RService :=
  connected (wd_consumer w (cf_BusBackend (rs_Cfg s)) group) "bus-consumer" [CloseConsumer group; StopLagPoll group] s.

(** [Run], once a signal arrives: the closers in reverse order.  A telemetry set-up that fails
    returns before anything is closed. *)
Definition Run (s : RService) : result bootError (list Closer) :=
  if negb (wd_tracing w) then Err BootTelemetry
  else if negb (wd_logging w) then Err BootTelemetry
  else Ok (ShutdownHealth :: rev (rs_closers (AddCloser StopLogs (AddCloser StopTracing s)))).

(** [/readyz]: [failing] are the errors of the checks; the status and the failures. *)
Definition handleReady (failing : string -> option string) (s : RService) : Z * gmap string string :=
  let failures := foldl (fun (m : gmap string string) c => match failing c with Some e => <[c := e]> m | None => m end) ∅ (rs_checks s) in
  (if bool_decide (failures = ∅) then 200 else 503, failures).

(** ** The api server (build.go) *)

Definition NewSigningKey (kid pemKey : string) : bool := negb (String.eqb kid "") && wd_signing_key w pemKey.

Definition buildProviders (ic : IdentityConfig) : result bootError (list string) :=
  google ← (if negb (String.eqb (ic_GoogleClientID ic) "") && negb (String.eqb (ic_GoogleClientSecret ic) "")
            then (if wd_discovery w (ic_GoogleIssuerURL ic) then Ok ["google"] else Err BootDiscovery)
            else Ok []);
  Ok (google ++ (if negb (String.eqb (ic_GitHubClientID ic) "") && negb (String.eqb (ic_GitHubClientSecret ic) "") then ["github"] else [])).

(** The parts of the server the configuration decides.  [bd_changed], [bd_audit] and [bd_email] say
    whether the publishers are there. *)
Record APIServer := mkAPIServer {
  bd_issuer : string; bd_audience : string; bd_kid : string; bd_providers : list string; bd_cipher : AEAD; bd_cookieSecure : bool;
  bd_devLogin : bool; bd_appBaseURL : string; bd_admins : list string; bd_cfAccess : option (string * string); bd_billing : string;
  bd_changed : bool; bd_audit : bool; bd_email : bool;
}.

Definition Build (cfg : Config) (producer : bool) : result bootError APIServer :=
  let ic := cf_Identity cfg in
  if negb (NewSigningKey (ic_JWTKeyID ic) (ic_JWTPrivateKeyPEM ic)) then Err BootSigningKey
  else
    providers ← buildProviders ic;
    if bool_decide (providers = []) && negb (ic_DevLogin ic) then Err BootNoProvider
    else
      match LoadKey NewGCM (cf_SecretKey cfg) with
      | Err e => Err (BootKey e)
      | Ok cipher =>
          let cfAccess :=
            if negb (String.eqb (ic_CFAccessTeamDomain ic) "") && negb (String.eqb (ic_CFAccessAUD ic) "")
            then Some (ic_CFAccessTeamDomain ic, ic_CFAccessAUD ic) else None in
          billing ← (if String.eqb (bc_Provider (cf_Billing cfg)) "paddle" then
                       (if negb (wd_plan_prices w) then Err BootPrices
                        else if negb (wd_paddle w (bc_PaddleAPIKey (cf_Billing cfg))) then Err BootPaddle
                        else Ok "paddle")
                     else Ok "stub");
          Ok (mkAPIServer (ic_JWTIssuer ic) (ic_JWTAudience ic) (ic_JWTKeyID ic) providers cipher (ic_CookieSecure ic) (ic_DevLogin ic)
                (ic_AppBaseURL ic) (ic_PlatformAdmins ic) cfAccess billing producer producer producer)
      end.

(** ** The mains *)

(** A running process: the cipher of its store, the groups and topics it consumes, its guard against
    private networks if it checks, and what it only stops once [Run] has returned. *)
Record Process := mkProcess {
  pc_service : RService;
  pc_cipher : option AEAD;
  pc_consumes : list (string * string);
  pc_guard : option bool;
  pc_deferred : list Closer;
}.

Definition scheduler_main : result bootError Process :=
  s ← Setup ServiceScheduler;
  s ← ConnectPostgres s;
  s ← ConnectRedis s;
  s ← ConnectBusProducer s;
  Ok (mkProcess (AddCloser StopLoop s) None [] None []).

Definition worker_main : result bootError Process :=
  s ← Setup ServiceWorker;
  s ← ConnectPostgres s;
  s ← ConnectRedis s;
  s ← ConnectBusProducer s;
  let region := cf_Region (rs_Cfg s) in
  s ← ConnectBusConsumer ("worker-" +:+ region) s;
  Ok (mkProcess (AddCloser StopLoop s) None [("worker-" +:+ region, CheckJobsTopic region)] (Some (cf_BlockPrivateNetworks (rs_Cfg s))) []).

Definition TopicNotifyEvents : string := "notify.events".
Definition TopicEmailEvents : string := "email.events".

Definition alerting_main : result bootError Process :=
  s ← Setup ServiceAlerting;
  s ← ConnectPostgres s;
  s ← ConnectRedis s;
  s ← ConnectBusProducer s;
  s ← ConnectBusConsumer "alerting" s;
  Ok (mkProcess (AddCloser StopLoop s) None [("alerting", TopicCheckResults)] None []).

Definition notifier_main : result bootError Process :=
  s ← Setup ServiceNotifier;
  s ← ConnectPostgres s;
  match LoadKey NewGCM (cf_SecretKey (rs_Cfg s)) with
  | Err e => Err (BootKey e)
  | Ok cipher =>
      s ← ConnectRedis s;
      s ← ConnectBusConsumer "notifier" s;
      s ← ConnectBusConsumer "notifier-email" s;
      Ok (mkProcess s (Some cipher) [("notifier", TopicNotifyEvents); ("notifier-email", TopicEmailEvents)] None [StopLoop])
  end.

Definition serve_api : result bootError (Process * APIServer) :=
  s ← Setup ServiceAPI;
  s ← ConnectPostgres s;
  s ← ConnectRedis s;
  s ← ConnectBusProducer s;
  srv ← Build (rs_Cfg s) true;
  Ok (mkProcess (AddCloser ShutdownHTTP s) (Some (bd_cipher srv)) [] None [], srv).

(** [None] is the development server, which has none of this. *)
Definition api_main : option (result bootError (Process * APIServer)) :=
  if String.eqb (Getenv "PULSE_DEV_AUTH") "true" then None else Some serve_api.

Definition billing_main : result bootError Process :=
  s ← Setup ServiceBilling;
  s ← ConnectPostgres s;
  let b := cf_Billing (rs_Cfg s) in
  if String.eqb (bc_Provider b) "paddle" && negb (wd_plan_prices w) then Err BootPrices
  else if String.eqb (bc_Provider b) "paddle" && negb (wd_paddle w (bc_PaddleAPIKey b)) then Err BootPaddle
  else Ok (mkProcess (AddCloser ShutdownHTTP s) None [] None []).

(** The shutdown of a process: [Run], then what its main deferred. *)
Definition shutdown (p : Process) : result bootError (list Closer) := steps ← Run (pc_service p); Ok (steps ++ pc_deferred p).
End runtime.
