(* ===== verification/ProcessesInv.v ===== *)
(** * ProcessesInv: what a process that boots can rely on

    The configuration a service loads is complete for it; the api and the notifier share the key of
    the secrets, the scheduler does not have it; the order of a shutdown. *)

From S2P Require Import Prelude Domain GoStrings Store StoreInv Crypto Config Scheduler Worker Processes.
Open Scope Z_scope.

(** ** Loading *)

Section load.
Context (Getenv : string -> string) (ReadFile : string -> option string) (ToLower : string -> string) (NewGCM : list ascii -> option AEAD).
Abbreviation load := (Load Getenv ReadFile ToLower NewGCM).

Definition is_set (key : string) : Prop := Getenv key <> "".
Definition bool_valid (key : string) : Prop := Getenv key = "" \/ is_Some (ParseBool (Getenv key)).
Definition provider_valid : Prop := withDefault Getenv "PULSE_BILLING_PROVIDER" "stub" = "stub" \/ withDefault Getenv "PULSE_BILLING_PROVIDER" "stub" = "paddle".

(** The signing key the api would use. *)
Definition key_available : Prop :=
  is_set "PULSE_JWT_PRIVATE_KEY_PEM" \/
  is_set "PULSE_JWT_PRIVATE_KEY_PATH" /\ exists pem, ReadFile (Getenv "PULSE_JWT_PRIVATE_KEY_PATH") = Some pem /\ pem <> "".

Definition sign_in_available : Prop :=
  parseBool Getenv "PULSE_DEV_LOGIN" false = Ok true \/ is_set "PULSE_GOOGLE_CLIENT_ID" \/ is_set "PULSE_GITHUB_CLIENT_ID".

(** What a service must find to start. *)
Definition bootable (s : Service) : Prop :=
  let n := serviceNeeds s in
  Known (withDefault Getenv "PULSE_REGION" region_Default) = true /\
  bool_valid "PULSE_TRACING_ENABLED" /\ bool_valid "PULSE_BLOCK_PRIVATE_NETWORKS" /\
  (n_postgres n = true -> is_set "PULSE_POSTGRES_DSN") /\
  (n_redis n = true -> is_set "PULSE_REDIS_ADDR") /\
  (withDefault Getenv "PULSE_BUS" "kafka" = "kafka" \/ withDefault Getenv "PULSE_BUS" "kafka" = "redis") /\
  (n_kafka n = true -> withDefault Getenv "PULSE_BUS" "kafka" = "kafka" -> is_set "PULSE_KAFKA_BROKERS") /\
  (n_secret n = true -> exists a, LoadKey NewGCM (Getenv "PULSE_SECRET_KEY") = Ok a) /\
  (s = ServiceAPI -> bool_valid "PULSE_COOKIE_SECURE" /\ bool_valid "PULSE_DEV_LOGIN" /\ key_available /\ sign_in_available) /\
  (s = ServiceAPI -> provider_valid) /\
  (s = ServiceBilling -> provider_valid /\ is_set "PULSE_BILLING_WEBHOOK_SECRET").

Lemma required_ok key : (exists v, required Getenv key = Ok v) <-> is_set key.
Proof.
  unfold required, is_set. destruct (String.eqb_spec (Getenv key) "") as [He|He]; split; [by intros []|by intros Hk|done|eauto].
Qed.

Lemma parseBool_ok key d : (exists b, parseBool Getenv key d = Ok b) <-> bool_valid key.
Proof.
  unfold parseBool, bool_valid. destruct (String.eqb_spec (Getenv key) "") as [He|He]; [split; eauto|].
  destruct (ParseBool (Getenv key)) as [b|]; split; [by eauto|by eauto|by intros []|]. by intros [|[]].
Qed.

Lemma check_provider_ok : (exists u, check_provider (withDefault Getenv "PULSE_BILLING_PROVIDER" "stub") = Ok u) <-> provider_valid.
Proof.
  unfold check_provider, provider_valid. generalize (withDefault Getenv "PULSE_BILLING_PROVIDER" "stub") as p. intros p.
  destruct (String.eqb_spec p "stub") as [He|He], (String.eqb_spec p "paddle") as [He'|He']; cbn; split; eauto; [by intros []|by intros []].
Qed.

(** A sequence succeeds when its parts do. *)
Lemma bind_iff {E A B} (m : result E A) (f : A -> result E B) (P Q : Prop) :
  ((exists a, m = Ok a) <-> P) -> (forall a, m = Ok a -> ((exists b, f a = Ok b) <-> Q)) -> ((exists b, m ≫= f = Ok b) <-> P /\ Q).
Proof.
  intros HP HQ. rewrite <- HP. destruct m as [a|e]; cbn.
  - rewrite (HQ a eq_refl). split; [intros; eauto|by intros [_ ?]].
  - split; [by intros []|by intros [[] _]].
Qed.

Lemma bind_total {E A B} (m : result E A) (f : A -> B) : (exists b, m ≫= (fun a => Ok (f a)) = Ok b) <-> exists a, m = Ok a.
Proof. destruct m; cbn; split; eauto; by intros []. Qed.

Lemma guard_iff {E B} (b : bool) (e : E) (r : result E B) (P Q : Prop) :
  (b = true <-> P) -> (b = true -> (exists x, r = Ok x) <-> Q) -> ((exists x, (if negb b then Err e else r) = Ok x) <-> P /\ Q).
Proof. intros HP HQ. rewrite <- HP. destruct b; cbn; [rewrite (HQ eq_refl); tauto|]. split; [by intros []|by intros [? _]]. Qed.

Lemma optional_iff {A} (b : bool) (none : A) (r : result configError A) (P Q : Prop) :
  (b = true <-> P) -> ((exists x, r = Ok x) <-> Q) -> ((exists x, optional b none r = Ok x) <-> (P -> Q)).
Proof. intros HP HQ. rewrite <- HP, <- HQ. destruct b; cbn; [tauto|]. split; [done|]. eauto. Qed.

Lemma signing_pem_ok : (exists pem, signing_pem Getenv ReadFile = Ok pem) <-> key_available.
Proof.
  unfold signing_pem, key_available, is_set. generalize (Getenv "PULSE_JWT_PRIVATE_KEY_PATH") as path.
  generalize (Getenv "PULSE_JWT_PRIVATE_KEY_PEM") as pem. intros pem path. cbv zeta.
  destruct (String.eqb_spec pem "") as [->|Hp]; cbn [andb negb].
  - destruct (String.eqb_spec path "") as [->|Hpath]; cbn [negb]; [cbn; split; [by intros []|by intros [|[]]]|].
    destruct (ReadFile path) as [b|]; cbn; [|split; [by intros []|by intros [|(_ & ? & ? & _)]]].
    destruct (String.eqb_spec b "") as [->|Hb]; [|split; eauto 10]. split; [by intros []|].
    intros [|(_ & ? & [= <-] & ?)]; done.
  - cbn. destruct (String.eqb_spec pem "") as [|_]; [done|]. split; eauto.
Qed.

Lemma loadIdentity_ok :
  (exists ic, loadIdentity Getenv ReadFile ToLower = Ok ic) <->
  bool_valid "PULSE_COOKIE_SECURE" /\ bool_valid "PULSE_DEV_LOGIN" /\ key_available /\ sign_in_available.
Proof.
  unfold loadIdentity. apply bind_iff; [apply parseBool_ok|]. intros secure _. apply bind_iff; [apply parseBool_ok|]. intros dev Hdev.
  apply bind_iff; [apply signing_pem_ok|]. intros pem _. cbv zeta. unfold sign_in_available, is_set. rewrite Hdev.
  destruct (String.eqb_spec (Getenv "PULSE_GOOGLE_CLIENT_ID") "") as [Hg|Hg], (String.eqb_spec (Getenv "PULSE_GITHUB_CLIENT_ID") "") as [Hh|Hh],
    dev; cbn [negb andb]; split; eauto; [by intros []|]. by intros [|[|]].
Qed.

Lemma load_bus_ok needed backend redis :
  backend = "kafka" \/ backend = "redis" -> (needed = true -> redis <> "") ->
  (exists x, load_bus Getenv needed backend redis = Ok x) <-> (needed = true -> backend = "kafka" -> is_set "PULSE_KAFKA_BROKERS").
Proof.
  intros Hb Hr. unfold load_bus. destruct needed; cbn [negb]; [|split; [done|eauto]]. destruct (String.eqb_spec backend "kafka") as [->|Hk].
  - rewrite <- required_ok. destruct (required Getenv "PULSE_KAFKA_BROKERS") as [v|]; cbn; split; eauto; [by intros []|]. intros H. by destruct (H eq_refl eq_refl).
  - rewrite (proj2 (String.eqb_neq redis "")) by auto. split; [done|eauto].
Qed.

Lemma load_secret_ok needed :
  (exists x, load_secret Getenv NewGCM needed = Ok x) <-> (needed = true -> exists a, LoadKey NewGCM (Getenv "PULSE_SECRET_KEY") = Ok a).
Proof.
  unfold load_secret, required. destruct needed; cbn [negb]; [|split; [done|eauto]].
  destruct (String.eqb_spec (Getenv "PULSE_SECRET_KEY") "") as [->|Hk]; cbn.
  - split; [by intros []|]. intros H. by destruct (H eq_refl).
  - destruct (LoadKey NewGCM (Getenv "PULSE_SECRET_KEY")) as [a|e]; split; eauto; [by intros []|]. intros H. by destruct (H eq_refl).
Qed.

Lemma loadBilling_ok : (exists b, loadBilling Getenv = Ok b) <-> provider_valid /\ is_set "PULSE_BILLING_WEBHOOK_SECRET".
Proof.
  unfold loadBilling. cbv zeta. apply bind_iff; [apply check_provider_ok|]. intros _ _.
  rewrite <- required_ok. destruct (required Getenv "PULSE_BILLING_WEBHOOK_SECRET"); cbn; split; eauto; by intros [].
Qed.

Lemma api_billing_ok : (exists b, load_api_billing Getenv = Ok b) <-> provider_valid.
Proof.
  unfold load_api_billing. cbv zeta. rewrite <- check_provider_ok.
  destruct (check_provider _) as [[]|]; cbn; split; eauto; by intros [].
Qed.

(** A service starts exactly when it finds what it needs. *)
Theorem load_iff s : (exists cfg, load s = Ok cfg) <-> bootable s.
Proof.
  unfold Load, bootable. cbv zeta.
  apply guard_iff; [done|intros _]. apply bind_iff; [apply parseBool_ok|]. intros tracing _. apply bind_iff; [apply parseBool_ok|]. intros block _.
  apply bind_iff; [apply optional_iff; [done|apply required_ok]|]. intros dsn _.
  apply bind_iff; [apply optional_iff; [done|apply required_ok]|]. intros redis Hredis.
  apply guard_iff; [by rewrite orb_true_iff, !String.eqb_eq|]. rewrite orb_true_iff, !String.eqb_eq. intros Hbackend.
  apply bind_iff; [apply load_bus_ok; [done|]|].
  { intros Hk. assert (n_redis (serviceNeeds s) = true) as Hr by (by destruct s). rewrite Hr in Hredis. unfold optional, required in Hredis.
    destruct (String.eqb_spec (Getenv "PULSE_REDIS_ADDR") ""); [done|]. by injection Hredis as <-. }
  intros bus _. apply bind_iff; [apply load_secret_ok|]. intros secret _.
  apply bind_iff; [apply optional_iff; [apply bool_decide_eq_true|apply loadIdentity_ok]|]. intros identity _.
  apply bind_iff; [apply optional_iff; [apply bool_decide_eq_true|apply api_billing_ok]|]. intros billing _.
  rewrite <- (optional_iff (bool_decide (s = ServiceBilling)) billing (loadBilling Getenv));
    [|by rewrite bool_decide_eq_true|apply loadBilling_ok].
  apply bind_total.
Qed.
End load.

(** ** Booting *)

#[local] Ltac inv_binds H :=
  repeat match type of H with
  | _ ≫= _ = Ok _ => let x := fresh "x" in let Hx := fresh "Hx" in apply result_bind_ok in H as (x & Hx & H)
  | (if negb ?b then Err _ else _) = Ok _ => let Hb := fresh "Hb" in destruct b eqn:Hb; cbn [negb] in H; [|discriminate H]
  | (if ?b then Err _ else _) = Ok _ => let Hb := fresh "Hb" in destruct b eqn:Hb; [discriminate H|]
  | (let _ := _ in _) = Ok _ => cbv zeta in H
  end.

Section boot.
Context (Getenv : string -> string) (ReadFile : string -> option string) (ToLower : string -> string) (NewGCM : list ascii -> option AEAD).
Context (w : World).

Lemma loaded_secret s cfg :
  Load Getenv ReadFile ToLower NewGCM s = Ok cfg -> cf_Service cfg = s /\ (n_secret (serviceNeeds s) = true -> cf_SecretKey cfg = Getenv "PULSE_SECRET_KEY").
Proof.
  unfold Load. intros H. inv_binds H. injection H as <-. cbn. split; [done|]. intros Hn. rewrite Hn in Hx4. unfold load_secret, required in Hx4.
  cbn [negb] in Hx4. destruct (String.eqb (Getenv "PULSE_SECRET_KEY") ""); [done|]. cbn in Hx4. destruct (LoadKey _ _); [|done]. by injection Hx4 as <-.
Qed.

Lemma connected_ok up check closers s s' :
  connected up check closers s = Ok s' -> up = true /\ rs_Cfg s' = rs_Cfg s /\ rs_checks s' = rs_checks s ++ [check] /\ rs_closers s' = rs_closers s ++ closers.
Proof.
  unfold connected. destruct up; [|done]. intros [= <-]. split; [done|].
  assert (forall cs x, rs_Cfg (foldl (fun s c => AddCloser c s) x cs) = rs_Cfg x /\ rs_checks (foldl (fun s c => AddCloser c s) x cs) = rs_checks x /\
    rs_closers (foldl (fun s c => AddCloser c s) x cs) = rs_closers x ++ cs) as Hf.
  { intros cs. induction cs as [|c cs IH]; intros x; cbn; [by rewrite app_nil_r|]. destruct (IH (AddCloser c x)) as (-> & -> & ->).
    cbn. by rewrite <- app_assoc. }
  destruct (Hf closers (AddReady check s)) as (-> & -> & ->). done.
Qed.

Lemma setup_ok s r : Setup Getenv ReadFile ToLower NewGCM s = Ok r ->
  Load Getenv ReadFile ToLower NewGCM s = Ok (rs_Cfg r) /\ rs_checks r = [] /\ rs_closers r = [].
Proof. unfold Setup. destruct (Load _ _ _ _ s); [|done]. by intros [= <-]. Qed.

(** The process a service runs as. *)
Definition main (s : Service) : result bootError Process :=
  match s with
  | ServiceAPI => r ← serve_api Getenv ReadFile ToLower NewGCM w; Ok r.1
  | ServiceScheduler => scheduler_main Getenv ReadFile ToLower NewGCM w
  | ServiceWorker => worker_main Getenv ReadFile ToLower NewGCM w
  | ServiceAlerting => alerting_main Getenv ReadFile ToLower NewGCM w
  | ServiceNotifier => notifier_main Getenv ReadFile ToLower NewGCM w
  | ServiceBilling => billing_main Getenv ReadFile ToLower NewGCM w
  end.

#[local] Ltac inv_connects :=
  repeat match goal with
  | H : ConnectPostgres _ _ = Ok _ |- _ => unfold ConnectPostgres in H
  | H : ConnectRedis _ _ = Ok _ |- _ => unfold ConnectRedis in H
  | H : ConnectBusProducer _ _ = Ok _ |- _ => unfold ConnectBusProducer in H
  | H : ConnectBusConsumer _ _ _ = Ok _ |- _ => unfold ConnectBusConsumer in H
  | H : connected _ _ _ _ = Ok _ |- _ =>
      let Hup := fresh "Hup" in let Hc := fresh "Hc" in let Hk := fresh "Hk" in let Hl := fresh "Hl" in
      apply connected_ok in H as (Hup & Hc & Hk & Hl)
  | H : Setup _ _ _ _ _ = Ok _ |- _ =>
      let Hc := fresh "Hload" in let Hk := fresh "Hk" in let Hl := fresh "Hl" in apply setup_ok in H as (Hc & Hk & Hl)
  end.

(** The cipher of a process: of the configured key for the api and the notifier, none elsewhere. *)
Lemma main_cipher s p : main s = Ok p ->
  if n_secret (serviceNeeds s) then exists a, pc_cipher p = Some a /\ LoadKey NewGCM (Getenv "PULSE_SECRET_KEY") = Ok a else pc_cipher p = None.
Proof.
  destruct s; cbn [main serviceNeeds n_secret]; intros H.
  - unfold serve_api, Build in H. inv_binds H. injection H as <-. inv_binds Hx. injection Hx as <-. inv_binds Hx4.
    destruct (LoadKey NewGCM _) as [a|] eqn:Hkey; [|done]. inv_binds Hx4. injection Hx4 as <-. cbn. exists a. split; [done|].
    inv_connects. apply loaded_secret in Hload as [_ Hs]. rewrite <- (Hs eq_refl). congruence.
  - unfold scheduler_main in H. inv_binds H. by injection H as <-.
  - unfold worker_main in H. inv_binds H. by injection H as <-.
  - unfold alerting_main in H. inv_binds H. by injection H as <-.
  - unfold notifier_main in H. inv_binds H. destruct (LoadKey NewGCM _) as [a|] eqn:Hkey; [|done]. inv_binds H. injection H as <-. cbn. exists a.
    split; [done|]. inv_connects. apply loaded_secret in Hload as [_ Hs]. rewrite <- (Hs eq_refl). congruence.
  - unfold billing_main in H. inv_binds H. by injection H as <-.
Qed.

(** What a process reads from the bus. *)
Lemma main_consumes s p : main s = Ok p ->
  pc_consumes p =
  match s with
  | ServiceWorker => let r := cf_Region (rs_Cfg (pc_service p)) in [("worker-" +:+ r, CheckJobsTopic r)]
  | ServiceAlerting => [("alerting", TopicCheckResults)]
  | ServiceNotifier => [("notifier", TopicNotifyEvents); ("notifier-email", TopicEmailEvents)]
  | _ => []
  end.
Proof.
  destruct s; cbn [main]; intros H.
  - unfold serve_api in H. inv_binds H. injection H as <-. inv_binds Hx. by injection Hx as <-.
  - unfold scheduler_main in H. inv_binds H. by injection H as <-.
  - unfold worker_main in H. inv_binds H. injection H as <-. cbn. inv_connects. congruence.
  - unfold alerting_main in H. inv_binds H. by injection H as <-.
  - unfold notifier_main in H. inv_binds H. destruct (LoadKey NewGCM _); [|done]. inv_binds H. by injection H as <-.
  - unfold billing_main in H. inv_binds H. by injection H as <-.
Qed.

(** C24: the api and the notifier share the key of the secrets: when both have started, in one
    environment, each has the cipher of the key of 32 bytes in the configuration, and what the api
    encrypts the notifier reads back, whatever nonce was drawn; the ciphertext is never the secret
    itself. *)
Theorem secrets_cross_processes api notifier :
  main ServiceAPI = Ok api -> main ServiceNotifier = Ok notifier ->
  exists a key, pc_cipher api = Some a /\ pc_cipher notifier = Some a /\
    base64_decode (Getenv "PULSE_SECRET_KEY") = Some key /\ length key = 32%nat /\ NewGCM key = Some a /\
    (AEADLaws a -> forall random k v e, (forall k n, random k = Some n -> length n = NonceSize a) ->
       Encrypt (pool_cipher a random) k v = Ok e -> Decrypt (pool_cipher a random) e = Ok v /\ e <> v).
Proof.
  intros Ha%main_cipher Hn%main_cipher. cbn in Ha, Hn. destruct Ha as (a & Ha & Hkey), Hn as (a' & Hn & Hkey').
  assert (a' = a) as -> by congruence. unfold LoadKey in Hkey. destruct (String.eqb _ ""); [done|].
  destruct (base64_decode _) as [key|] eqn:Hd; [|done]. destruct (Nat.eqb_spec (length key) 32) as [H32|]; cbn in Hkey; [|done].
  destruct (NewGCM key) as [a0|] eqn:Hg; [|done]. injection Hkey as ->. exists a, key. split_and!; try done.
  intros Hlaws random k v e Hr He. split; [by eapply (decrypt_encrypt (CipherLaws := pool_cipher_laws a random Hlaws Hr))|].
  cbn in He. destruct (random k) as [n|] eqn:Hk; [|done]. eapply encrypted_differs; eauto.
Qed.

(** ** Shutting down *)

Definition connection (c : Closer) : bool :=
  match c with ClosePostgres | CloseRedis | CloseProducer | CloseConsumer _ => true | _ => false end.
Definition work (c : Closer) : bool := match c with StopLoop | ShutdownHTTP => true | _ => false end.

(** The work is told to stop before any connection it uses is closed. *)
Definition orderly (steps : list Closer) : Prop :=
  exists before c after, steps = before ++ c :: after /\ work c = true /\ Forall (fun c => connection c = false) before.

Lemma shutdown_steps p steps : shutdown w p = Ok steps ->
  steps = ShutdownHealth :: StopLogs :: StopTracing :: rev (rs_closers (pc_service p)) ++ pc_deferred p.
Proof.
  unfold shutdown, Run. destruct (wd_tracing w); [|done]. destruct (wd_logging w); [|done]. cbn. intros [= <-]. by rewrite !rev_app_distr.
Qed.

#[local] Ltac solve_closers :=
  cbn [fst rs_closers rs_checks rs_Cfg pc_service pc_deferred AddCloser];
  repeat match goal with H : rs_closers _ = _ |- _ => rewrite H; clear H end; repeat match goal with H : rs_Cfg _ = _ |- _ => rewrite H; clear H end;
  reflexivity.

(** The closers of each service, in the order they were registered. *)
Lemma main_closers s p : main s = Ok p ->
  (rs_closers (pc_service p), pc_deferred p) =
  match s with
  | ServiceAPI => ([ClosePostgres; CloseRedis; CloseProducer; ShutdownHTTP], [])
  | ServiceScheduler => ([ClosePostgres; CloseRedis; CloseProducer; StopLoop], [])
  | ServiceWorker => let g := "worker-" +:+ cf_Region (rs_Cfg (pc_service p)) in
      ([ClosePostgres; CloseRedis; CloseProducer; CloseConsumer g; StopLagPoll g; StopLoop], [])
  | ServiceAlerting => ([ClosePostgres; CloseRedis; CloseProducer; CloseConsumer "alerting"; StopLagPoll "alerting"; StopLoop], [])
  | ServiceNotifier =>
      ([ClosePostgres; CloseRedis; CloseConsumer "notifier"; StopLagPoll "notifier"; CloseConsumer "notifier-email"; StopLagPoll "notifier-email"], [StopLoop])
  | ServiceBilling => ([ClosePostgres; ShutdownHTTP], [])
  end.
Proof.
  destruct s; cbn [main]; intros H.
  - unfold serve_api in H. inv_binds H. injection H as <-. inv_binds Hx. injection Hx as <-. inv_connects. solve_closers.
  - unfold scheduler_main in H. inv_binds H. injection H as <-. inv_connects. solve_closers.
  - unfold worker_main in H. inv_binds H. injection H as <-. inv_connects. solve_closers.
  - unfold alerting_main in H. inv_binds H. injection H as <-. inv_connects. solve_closers.
  - unfold notifier_main in H. inv_binds H. destruct (LoadKey _ _); [|done]. inv_binds H. injection H as <-. inv_connects. solve_closers.
  - unfold billing_main in H. inv_binds H. injection H as <-. inv_connects. solve_closers.
Qed.

(** On shutdown every service stops its work before the connections that work uses are closed,
    except the notifier: its loops are cancelled only once [Run] has returned, so they go on over a
    closed pool. *)
Theorem shutdown_order s p steps : main s = Ok p -> shutdown w p = Ok steps -> orderly steps <-> s <> ServiceNotifier.
Proof.
  intros Hm%main_closers Hs%shutdown_steps. subst steps.
  assert (forall l1 c l2, orderly (l1 ++ c :: l2) -> connection c = true -> Forall (fun c => work c = false) l1 -> False) as Hno.
  { intros l1 c l2 (before & c' & after & He & Hw & Hb) Hcon Hl1.
    apply app_eq_inv in He as [(k & -> & He)|(k & -> & He)].
    - destruct k as [|c0 k]; simplify_eq/=; [by destruct c|]. apply Forall_app in Hl1 as [_ Hl1]. inversion Hl1; subst. congruence.
    - destruct k as [|c0 k]; simplify_eq/=; [by destruct c'|]. apply Forall_app in Hb as [_ Hb]. inversion Hb; subst. congruence. }
  destruct s; cbv zeta in Hm; injection Hm as -> ->; cbn [rev app]; split; try done.
  all: try (intros _; eexists [_; _; _], _, _; split; [reflexivity|split; [done|by repeat constructor]]).
  intros Ho _. eapply (Hno [_; _; _; _]); [exact Ho|done|by repeat constructor].
Qed.

(** ** Secret headers of a scheduled check *)

(** The cipher of a process's store; [random] is the nonce of a call. *)
Definition store_cipher (random : Z -> option (list ascii)) (p : Process) : option secretCipher := (fun a => pool_cipher a random) <$> pc_cipher p.

Lemma encoded_header c n hs hs' h : encodeHeaders (Some c) n hs = Ok hs' -> h ∈ hs -> exists h' k, h' ∈ hs' /\ encode_header (Some c) k h = Ok h'.
Proof.
  revert n hs'. induction hs as [|x hs IH]; intros n hs'; cbn [encodeHeaders]; [set_solver|]. intros H. inv_binds H. injection H as <-.
  rewrite elem_of_cons. intros [->|Hh]; [exists x0, n; split; [left|done]|]. destruct (IH _ _ Hx0 Hh) as (h' & k & Hin & He). exists h', k. split; [by right|done].
Qed.

Lemma decode_plain hs : decodeHeaders None hs = Ok hs.
Proof. induction hs as [|h hs IH]; [done|]. cbn. by rewrite IH. Qed.

Lemma scan_plain row : scanMonitor None row = Ok (mr_monitor row).
Proof. unfold scanMonitor. rewrite decode_plain. cbn. destruct row as [[] ? ? ? ?]. done. Qed.

Lemma scan_enabled_plain rows db : scan_enabled None rows db = Ok ((fun r => mkEnabled (mr_monitor r.2) (last_checked_at r.1 db)) <$> rows).
Proof. induction rows as [|[id row] rows IH]; [done|]. cbn [scan_enabled]. rewrite scan_plain, IH. done. Qed.

(** C13: the scheduler has no key.  A monitor the api stores with a secret header is read back with its
    value by the api, for a check on demand; the scheduler reads the ciphertext, so the jobs of the
    regular checks carry a header value that is never the configured one. *)
Theorem scheduled_checks_carry_ciphertext random api scheduler nonce m h db id db' :
  main ServiceAPI = Ok api -> main ServiceScheduler = Ok scheduler ->
  (forall a, pc_cipher api = Some a -> AEADLaws a /\ forall k n, random k = Some n -> length n = NonceSize a) ->
  CreateMonitor (store_cipher random api) nonce m db = (Ok id, db') ->
  m_Enabled m = true -> h ∈ m_Headers m -> h_Secret h = true -> h_Value h <> "" ->
  (GetMonitor (store_cipher random api) (m_OrgID m) id db').1 = Ok (monitor_defaults id m) /\
  exists l em v, (ListEnabledMonitorsWithLastCheck (store_cipher random scheduler) db').1 = Ok l /\ em ∈ l /\ m_ID (em_Monitor em) = id /\
    v <> h_Value h /\
    forall t region, mkHeader (h_Key h) v true ∈ m_Headers (job_Monitor (pb_job (publish (em_Monitor em) t region))).
Proof.
  intros Ha%main_cipher Hs%main_cipher Hlaws Hcreate Hen Hh Hsec Hne. cbn in Ha, Hs. destruct Ha as (a & Ha & _). destruct (Hlaws a Ha) as [Hal Hr].
  unfold store_cipher in *. rewrite Ha in Hcreate |- *. rewrite Hs. cbn [fmap option_fmap option_map] in *.
  split; [eapply create_get_monitor_roundtrip; [|exact Hcreate]; intros c [= <-]; by apply pool_cipher_laws|].
  unfold CreateMonitor, mbind, tx_bind, lift in Hcreate. destruct (encodeHeaders _ nonce _) as [hs|] eqn:He; [|done]. cbn in Hcreate.
  injection Hcreate as <- <-. destruct (encoded_header _ _ _ _ _ He Hh) as (h' & k & Hh' & Hk). unfold encode_header in Hk.
  rewrite Hsec, (proj2 (String.eqb_neq _ _) Hne) in Hk. cbn [andb negb] in Hk. inv_binds Hk. injection Hk as <-. cbn [Encrypt pool_cipher] in Hx.
  destruct (random k) as [n|] eqn:Hn; [|done].
  set (row := mkMonitorRow (with_headers hs (monitor_defaults (seq_monitors db) m)) 0 None None None).
  unfold ListEnabledMonitorsWithLastCheck. rewrite scan_enabled_plain. eexists _, (mkEnabled (mr_monitor row) _), x.
  cbn [fst]. split; [reflexivity|]. split; [|split; [done|]].
  - apply list_elem_of_fmap. exists (seq_monitors db, row). split; [reflexivity|]. apply rows_where_elem. split; [apply lookup_insert_eq|done].
  - split; [eapply encrypted_differs; eauto|]. intros t region. cbn. done.
Qed.
End boot.

(** ** A concrete deployment *)

Definition px_vars : list (string * string) :=
  [("PULSE_POSTGRES_DSN", "postgres://db"); ("PULSE_REDIS_ADDR", "redis:6379"); ("PULSE_KAFKA_BROKERS", "k1:9092, k2:9092");
   ("PULSE_SECRET_KEY", base64_encode (replicate 32 "k"%char)); ("PULSE_JWT_PRIVATE_KEY_PATH", "/run/key.pem");
   ("PULSE_GITHUB_CLIENT_ID", "id"); ("PULSE_GITHUB_CLIENT_SECRET", "secret"); ("PULSE_PLATFORM_ADMINS", " Ops@x.io ,")].
Definition px_env (key : string) : string := default "" (snd <$> head (filter (fun kv => kv.1 = key) px_vars)).
Definition px_file (path : string) : option string := if String.eqb path "/run/key.pem" then Some "-----BEGIN" else None.
Definition px_world : World :=
  mkWorld true true (fun _ => true) (fun _ _ => true) true true (fun _ => true) (fun _ => true) true (fun _ => true).
Definition px_main : Service -> result bootError Process := main px_env px_file ToLowerASCII (fun _ => Some ex_aead) px_world.
Definition px_process (s : Service) : Process :=
  match px_main s with Ok p => p | Err _ => mkProcess (mkService (mkConfig s "" "" "" false "" "" "" [] "" "" false no_Identity no_Billing no_SMTP "") [] []) None [] None [] end.

Lemma px_main_ok s : s <> ServiceBilling -> px_main s = Ok (px_process s).
Proof. destruct s; [vm_compute; reflexivity..|done]. Qed.

(** Without the webhook secret the billing service does not start. *)
Example px_billing : px_main ServiceBilling = Err (BootConfig (Required "PULSE_BILLING_WEBHOOK_SECRET")).
Proof. vm_compute. reflexivity. Qed.

Lemma load_iff_witness : bootable px_env px_file (fun _ => Some ex_aead) ServiceAPI.
Proof.
  apply (load_iff px_env px_file ToLowerASCII (fun _ => Some ex_aead) ServiceAPI).
  destruct (Load px_env px_file ToLowerASCII (fun _ => Some ex_aead) ServiceAPI) as [cfg|e] eqn:He; [by exists cfg|]. exfalso. by vm_compute in He.
Defined.

Definition px_random (_ : Z) : option (list ascii) := Some ["n"%char; "o"%char].

Lemma secrets_cross_processes_witness :
  exists e, Encrypt (pool_cipher ex_aead px_random) 0 "token" = Ok e /\ Decrypt (pool_cipher ex_aead px_random) e = Ok "token" /\ e <> "token".
Proof.
  destruct (secrets_cross_processes px_env px_file ToLowerASCII (fun _ => Some ex_aead) px_world (px_process ServiceAPI) (px_process ServiceNotifier))
    as (a & key & Ha & _ & _ & _ & [= <-] & Hrt); [by apply px_main_ok|by apply px_main_ok|].
  eexists. split; [vm_compute; reflexivity|]. apply (Hrt _ px_random 0); [|vm_compute; reflexivity]. by intros k n [= <-].
Defined.

Lemma shutdown_order_witness :
  (exists steps, shutdown px_world (px_process ServiceAlerting) = Ok steps /\ orderly steps) /\
  (exists steps, shutdown px_world (px_process ServiceNotifier) = Ok steps /\ ~ orderly steps).
Proof.
  split; eexists; (split; [vm_compute; reflexivity|]).
  - apply (shutdown_order px_env px_file ToLowerASCII (fun _ => Some ex_aead) px_world ServiceAlerting (px_process ServiceAlerting));
      [by apply px_main_ok|vm_compute; reflexivity|done].
  - intros Ho. apply (shutdown_order px_env px_file ToLowerASCII (fun _ => Some ex_aead) px_world ServiceNotifier (px_process ServiceNotifier)) in Ho;
      [done|by apply px_main_ok|vm_compute; reflexivity].
Defined.

Lemma scheduled_checks_carry_ciphertext_witness :
  exists db' em v, CreateMonitor (store_cipher px_random (px_process ServiceAPI)) 0 ex_stored_monitor empty_db = (Ok 1, db') /\
    m_ID (em_Monitor em) = 1 /\ v <> "Bearer t" /\ mkHeader "Authorization" v true ∈ m_Headers (em_Monitor em).
Proof.
  destruct (CreateMonitor (store_cipher px_random (px_process ServiceAPI)) 0 ex_stored_monitor empty_db) as [r db'] eqn:Hc.
  assert (r = Ok 1) as ->. { apply (f_equal fst) in Hc. vm_compute in Hc. by rewrite <- Hc. }
  destruct (scheduled_checks_carry_ciphertext px_env px_file ToLowerASCII (fun _ => Some ex_aead) px_world px_random (px_process ServiceAPI)
    (px_process ServiceScheduler) 0 ex_stored_monitor (mkHeader "Authorization" "Bearer t" true) empty_db 1 db')
    as (_ & l & em & v & _ & _ & Hid & Hv & Hj).
  - by apply px_main_ok.
  - by apply px_main_ok.
  - intros a Ha. assert (a = ex_aead) as -> by (vm_compute in Ha; by injection Ha). split; [apply ex_aead_laws|]. by intros k n [= <-].
  - exact Hc.
  - reflexivity.
  - left.
  - reflexivity.
  - discriminate.
  - exists db', em, v. split_and!; [done|done|done|]. apply (Hj 0 "eu-central").
Defined.
