(* ===== verification/Bus.v ===== *)
(** * Bus: the transport between the services
    (src/internal/bus/bus.go, redis.go, kafka.go; the consume loops of alerting/service.go,
    worker/worker.go, notify/service.go and notify/emailintent.go)

    The two consumers as they hand records to a handler, over what they use of the servers: the
    consumer-group commands of Redis Streams and the polling of a Kafka client.  What those promise
    is stated in [BusInv].  Tracing is left out but for the headers it adds. *)

From S2P Require Import Prelude Domain.
Open Scope Z_scope.

Record BusRecord := mkRecord { br_Topic : string; br_Key : string; br_Value : string }.

(** A stream entry; the client returns its values as strings. *)
Record XMessage := mkXMessage { xm_ID : string; xm_Values : gmap string string }.
#[export] Instance XMessage_eq_dec : EqDecision XMessage.
Proof. solve_decision. Defined.

(** [RedisNil] is the answer without entries. *)
Inductive redisError := RedisNil | RedisFault.

(** The commands of a producer and of one consumer of one group: the addition of an entry with a cap
    on the length of its stream; the pending entries of the consumer of a topic from the oldest, at
    most 64; new entries of the topics; the entries idle on other consumers, from a cursor; the
    acknowledgement of an entry. *)
Class StreamGroup (S : Type) := {
  XAdd : string -> Z -> gmap string string -> S -> result redisError unit * S;
  XReadOwn : string -> S -> result redisError (list XMessage) * S;
  XReadNew : list string -> S -> result redisError (list (string * list XMessage)) * S;
  XAutoClaim : string -> string -> S -> result redisError (list XMessage * string) * S;
  XAck : string -> string -> S -> result redisError unit * S;
}.

Definition redisStreamMaxLen : Z := 10000.
Definition redisBatch : nat := 64.
Definition redisReclaimEvery : Duration := 30 * Second.

(** The values of an entry: the headers of the trace are added last. *)
Definition produce_values (trace : gmap string string) (key value : string) : gmap string string :=
  trace ∪ <["key" := key]> {[ "value" := value ]}.

Definition toRedisRecord (stream : string) (m : XMessage) : BusRecord :=
  mkRecord stream (default "" (xm_Values m !! "key")) (default "" (xm_Values m !! "value")).

Definition redisHeaders (m : XMessage) : gmap string string := delete "key" (delete "value" (xm_Values m)).

(** [PollStuck] is a reclaim loop that ran out of fuel. *)
Inductive pollError := PollHandler | PollTransport | PollStuck.

Section redis.
Context {S W : Type} `{!StreamGroup S} (handler : BusRecord -> W -> bool * W).

Definition produce (trace : gmap string string) (topic key value : string) (s : S) : result redisError unit * S :=
  XAdd topic redisStreamMaxLen (produce_values trace key value) s.

Definition Poll_result : Type := option pollError * S * W.
(** Go on after a step without an error. *)
Definition next_step (r : Poll_result) (k : S -> W -> Poll_result) : Poll_result :=
  match r with
  | (None, s, w) => k s w
  | (Some e, s, w) => (Some e, s, w)
  end.

Definition dispatch (stream : string) (m : XMessage) (s : S) (w : W) : Poll_result :=
  let '(ok, w') := handler (toRedisRecord stream m) w in
  if negb ok then (Some PollHandler, s, w')
  else
    match XAck stream (xm_ID m) s with
    | (Ok _, s') => (None, s', w')
    | (Err _, s') => (Some PollTransport, s', w')
    end.

Fixpoint dispatch_all (stream : string) (ms : list XMessage) (s : S) (w : W) : Poll_result :=
  match ms with
  | [] => (None, s, w)
  | m :: ms' => next_step (dispatch stream m s w) (dispatch_all stream ms')
  end.

Fixpoint dispatchStreams (streams : list (string * list XMessage)) (s : S) (w : W) : Poll_result :=
  match streams with
  | [] => (None, s, w)
  | (stream, ms) :: streams' => next_step (dispatch_all stream ms s w) (dispatchStreams streams')
  end.

Definition readInto (topic : string) (s : S) (w : W) : Poll_result :=
  match XReadOwn topic s with
  | (Err RedisNil, s') => (None, s', w)
  | (Err RedisFault, s') => (Some PollTransport, s', w)
  | (Ok ms, s') => dispatchStreams [(topic, ms)] s' w
  end.

Definition readNew (topics : list string) (s : S) (w : W) : Poll_result :=
  match XReadNew topics s with
  | (Err RedisNil, s') => (None, s', w)
  | (Err RedisFault, s') => (Some PollTransport, s', w)
  | (Ok res, s') => dispatchStreams res s' w
  end.

Fixpoint reclaim (fuel : nat) (topic start : string) (s : S) (w : W) : Poll_result :=
  match fuel with
  | O => (Some PollStuck, s, w)
  | Datatypes.S fuel' =>
      match XAutoClaim topic start s with
      | (Err _, s') => (Some PollTransport, s', w)
      | (Ok (msgs, next), s') =>
          next_step (dispatch_all topic msgs s' w) (fun s w =>
            if String.eqb next "0-0" || String.eqb next "" then (None, s, w) else reclaim fuel' topic next s w)
      end
  end.

(** One topic after the other. *)
Fixpoint each_topic (f : string -> S -> W -> Poll_result) (topics : list string) (s : S) (w : W) : Poll_result :=
  match topics with
  | [] => (None, s, w)
  | t :: ts => next_step (f t s w) (each_topic f ts)
  end.

Record redisConsumer := mkRedisConsumer { rc_topics : list string; rc_lastReclaim : Time; rc_store : S }.

(** [poll]; [now] is the clock at the reclaim check. *)
Definition poll (fuel : nat) (now : Time) (c : redisConsumer) (w : W) : option pollError * redisConsumer * W :=
  let topics := rc_topics c in
  let due := redisReclaimEvery <=? now - rc_lastReclaim c in
  let with_time (r : Poll_result) (t : Time) := let '(e, s, w) := r in (e, mkRedisConsumer topics t s, w) in
  match each_topic readInto topics (rc_store c) w with
  | (Some e, s, w) => (Some e, mkRedisConsumer topics (rc_lastReclaim c) s, w)
  | (None, s, w) =>
      if due then with_time (next_step (each_topic (fun t => reclaim fuel t "0-0") topics s w) (readNew topics)) now
      else with_time (readNew topics s w) (rc_lastReclaim c)
  end.

(** The loop of a runner, for the given times of its polls: an error is logged and the loop goes on. *)
Fixpoint run_redis (fuel : nat) (times : list Time) (c : redisConsumer) (w : W) : redisConsumer * W :=
  match times with
  | [] => (c, w)
  | now :: times' => let '(_, c', w') := poll fuel now c w in run_redis fuel times' c' w'
  end.
End redis.
Arguments redisConsumer : clear implicits.
Arguments mkRedisConsumer {S}.

(** ** Streams that others add to *)

Record Production := mkProduction { pr_trace : gmap string string; pr_topic : string; pr_key : string; pr_value : string }.

(** A server to which the producers of other processes send entries while the consumer runs:
    [sh_adds] lists, for each command of the consumer, what they send before it. *)
Record Shared (S : Type) := mkShared { sh_store : S; sh_adds : list (list Production) }.
Arguments mkShared {S}.
Arguments sh_store {S}.
Arguments sh_adds {S}.

Section shared.
Context {S : Type} `{!StreamGroup S}.

Fixpoint produce_all (ps : list Production) (s : S) : S :=
  match ps with
  | [] => s
  | p :: ps' => produce_all ps' (produce (pr_trace p) (pr_topic p) (pr_key p) (pr_value p) s).2
  end.

Definition after_adds {A} (op : S -> A * S) (x : Shared S) : A * Shared S :=
  let s := match sh_adds x with [] => sh_store x | ps :: _ => produce_all ps (sh_store x) end in
  let '(r, s') := op s in (r, mkShared s' (tail (sh_adds x))).

#[export] Instance shared_group : StreamGroup (Shared S) := {
  XAdd t n v := after_adds (XAdd t n v);
  XReadOwn t := after_adds (XReadOwn t);
  XReadNew ts := after_adds (XReadNew ts);
  XAutoClaim t start := after_adds (XAutoClaim t start);
  XAck t id := after_adds (XAck t id);
}.
End shared.

(** ** Kafka *)

Record KafkaRecord := mkKafkaRecord {
  kr_Topic : string; kr_Partition : Z; kr_Offset : Z; kr_Key : string; kr_Value : string; kr_Headers : gmap string string;
}.

(** What a poll of the client returns: the records, and whether a partition reports an error. *)
Record Fetches := mkFetches { ft_errors : bool; ft_records : list KafkaRecord }.

Class KafkaClient (K : Type) := { PollFetches : K -> Fetches * K }.

Definition toKafkaRecord (r : KafkaRecord) : BusRecord := mkRecord (kr_Topic r) (kr_Key r) (kr_Value r).

Section kafka.
Context {K W : Type} `{!KafkaClient K} (handler : BusRecord -> W -> bool * W).

(** [EachRecord] with the first error kept: the records handed to the handler, and whether one failed. *)
Fixpoint each_record (rs : list KafkaRecord) (w : W) : bool * list KafkaRecord * W :=
  match rs with
  | [] => (true, [], w)
  | r :: rs' =>
      let '(ok, w') := handler (toKafkaRecord r) w in
      if negb ok then (false, [r], w')
      else let '(all, handed, w'') := each_record rs' w' in (all, r :: handed, w'')
  end.

(** The records handed to the handler are part of the result. *)
Definition kafka_poll (cancelled : bool) (k : K) (w : W) : option pollError * list KafkaRecord * K * W :=
  let '(f, k') := PollFetches k in
  if cancelled then (Some PollTransport, [], k', w)
  else if ft_errors f then (Some PollTransport, [], k', w)
  else let '(ok, handed, w') := each_record (ft_records f) w in (if ok then None else Some PollHandler, handed, k', w').

(** The loop of a runner: all the records handed over in [n] polls. *)
Fixpoint run_kafka (n : nat) (k : K) (w : W) : list KafkaRecord * K * W :=
  match n with
  | O => ([], k, w)
  | S n' =>
      let '(_, handed, k', w') := kafka_poll false k w in
      let '(rest, k'', w'') := run_kafka n' k' w' in (handed ++ rest, k'', w'')
  end.
End kafka.
