(* ===== verification/BusInv.v ===== *)
(** * BusInv: what the two transports deliver

    Over Redis Streams an entry leaves only by being accepted or by the cap on the length of its
    stream, whatever fails, and a consumer without failures catches up; but an entry whose handler
    always fails stops its consumer until it is trimmed.  Over Kafka a poll ends at the first record
    whose handler fails. *)

From S2P Require Import Prelude Domain Store StoreInv AlertingService Bus.
Open Scope Z_scope.

(** ** What Redis Streams promise a consumer group *)

(** A pending entry whose stream no longer has it is read without values. *)
Definition trimmed (entries : list XMessage) (m : XMessage) : XMessage :=
  if bool_decide (xm_ID m ∈ xm_ID <$> entries) then m else mkXMessage (xm_ID m) ∅.

(** The entries of a stream from the oldest, and three lists per topic: the pending entries of this
    consumer from the oldest, those of other consumers, and the entries never delivered.
    [scan_left] bounds the pages of a claim scan. *)
Class StreamLaws (S : Type) `{!StreamGroup S} := {
  stream : S -> string -> list XMessage;
  own : S -> string -> list XMessage;
  other : S -> string -> list XMessage;
  fresh : S -> string -> list XMessage;
  scan_left : S -> string -> string -> nat;
  ids_unique : forall s t, NoDup (xm_ID <$> own s t ++ other s t ++ fresh s t);
  (** an addition may trim the oldest entries, delivered or not, down to the cap and not below it;
      one whose answer is lost may have been carried out *)
  add : forall t n v s r s', XAdd t n v s = (r, s') ->
    (forall t', t' <> t -> stream s' t' = stream s t' /\ own s' t' = own s t' /\ other s' t' = other s t' /\ fresh s' t' = fresh s t') /\
    ((exists e, r = Err e) /\ stream s' t = stream s t /\ own s' t = own s t /\ other s' t = other s t /\ fresh s' t = fresh s t \/
     exists id k, stream s' t = drop k (stream s t ++ [mkXMessage id v]) /\ (k = O \/ n <= Z.of_nat (length (stream s' t))) /\
       own s' t = trimmed (stream s' t) <$> own s t /\ other s' t = trimmed (stream s' t) <$> other s t /\
       fresh s' t = filter (fun m => m ∈ stream s' t) (fresh s t ++ [mkXMessage id v])) /\
    (forall t' start, (scan_left s' t' start <= scan_left s t' start)%nat);
  (** a consumer adds and trims nothing *)
  stream_kept : forall s s' t,
    (exists t' r, XReadOwn t' s = (r, s')) \/ (exists ts r, XReadNew ts s = (r, s')) \/
    (exists t' start r, XAutoClaim t' start s = (r, s')) \/ (exists t' id r, XAck t' id s = (r, s')) -> stream s' t = stream s t;
  read_own : forall t s r s', XReadOwn t s = (r, s') ->
    (forall t', own s' t' = own s t' /\ other s' t' = other s t' /\ fresh s' t' = fresh s t') /\
    match r with Ok ms => ms = take redisBatch (own s t) | Err RedisNil => own s t = [] | Err RedisFault => True end;
  read_new : forall ts s r s', XReadNew ts s = (r, s') -> exists n : string -> nat,
    (forall t, own s' t = own s t ++ take (n t) (fresh s t) /\ fresh s' t = drop (n t) (fresh s t) /\ other s' t = other s t) /\
    match r with
    | Ok res => (forall t, t ∈ ts -> n t = redisBatch) /\ res = filter (fun p => p.2 <> []) ((fun t => (t, take redisBatch (fresh s t))) <$> ts)
    | Err RedisNil => forall t, t ∈ ts -> fresh s t = []
    | Err RedisFault => True
    end;
  (** a scan takes over idle entries, and drops pending entries that were trimmed *)
  auto_claim : forall t start s r s', XAutoClaim t start s = (r, s') -> exists claimed gone gone',
    other s t ≡ₚ claimed ++ gone ++ other s' t /\ own s t ++ claimed ≡ₚ gone' ++ own s' t /\ fresh s' t = fresh s t /\
    (forall t', t' <> t -> own s' t' = own s t' /\ other s' t' = other s t' /\ fresh s' t' = fresh s t') /\
    (forall m, m ∈ gone ++ gone' -> m ∉ stream s t) /\
    match r with
    | Ok (ms, next) => ms ⊆ own s' t /\ (next <> "0-0" -> next <> "" -> (scan_left s' t next < scan_left s t start)%nat)
    | Err _ => True
    end;
  (** an acknowledgement whose answer is lost may have been carried out *)
  ack : forall t id s r s', XAck t id s = (r, s') ->
    (forall t', fresh s' t' = fresh s t' /\ (t' <> t -> own s' t' = own s t' /\ other s' t' = other s t')) /\
    (own s' t = filter (fun m => xm_ID m <> id) (own s t) /\ other s' t = filter (fun m => xm_ID m <> id) (other s t) \/
     (exists e, r = Err e) /\ own s' t = own s t /\ other s' t = other s t) /\
    (forall start, (scan_left s' t start <= scan_left s t start)%nat);
}.

Section moves.
Context {S : Type} `{!StreamGroup S} `{!StreamLaws S}.

(** The entries of a topic that are not acknowledged. *)
Definition backlog (s : S) (t : string) : list XMessage := own s t ++ other s t ++ fresh s t.

(** An entry that waits in its stream, with room for [n] more behind it before the cap. *)
Definition waits (t : string) (m : XMessage) (n : nat) (s : S) : Prop :=
  m ∈ backlog s t /\ exists pre post, stream s t = pre ++ m :: post /\ Z.of_nat (length post + n) < redisStreamMaxLen.

Lemma waits_keeps t m n s s' : waits t m n s -> stream s' t = stream s t -> (m ∈ stream s t -> m ∈ backlog s t -> m ∈ backlog s' t) -> waits t m n s'.
Proof.
  intros (Hm & pre & post & Hst & Hn) Hs Hb. split; [|by exists pre, post; rewrite Hs].
  apply Hb; [|done]. rewrite Hst. apply elem_of_app. right. left.
Qed.

Lemma read_own_waits t m n t' s r s' : XReadOwn t' s = (r, s') -> waits t m n s -> waits t m n s'.
Proof.
  intros Hr Hw. apply (waits_keeps _ _ _ _ _ Hw); [apply stream_kept; by eauto|]. intros _. unfold backlog.
  destruct (read_own _ _ _ _ Hr) as [H _]. by destruct (H t) as (-> & -> & ->).
Qed.

Lemma read_new_waits t m n ts s r s' : XReadNew ts s = (r, s') -> waits t m n s -> waits t m n s'.
Proof.
  intros Hr Hw. apply (waits_keeps _ _ _ _ _ Hw); [apply stream_kept; by eauto|]. intros _. unfold backlog.
  destruct (read_new _ _ _ _ Hr) as (k & H & _). destruct (H t) as (-> & -> & ->).
  rewrite <- (take_drop (k t) (fresh s t)) at 1. set_solver.
Qed.

Lemma claim_waits t m n t' start s r s' : XAutoClaim t' start s = (r, s') -> waits t m n s -> waits t m n s'.
Proof.
  intros Hr Hw. apply (waits_keeps _ _ _ _ _ Hw); [apply stream_kept; eauto 10|]. intros Hst. unfold backlog.
  destruct (auto_claim _ _ _ _ _ Hr) as (claimed & gone & gone' & Ho & Hown & Hf & Hn & Hgone & _).
  destruct (decide (t = t')) as [->|Ht]; [|by destruct (Hn t Ht) as (-> & -> & ->)].
  assert (m ∉ gone ++ gone') as Hng by (intros Hg; by apply (Hgone m Hg)).
  assert (m ∈ own s t' ++ claimed -> m ∈ own s' t') as Hin by (rewrite Hown, elem_of_app; set_solver).
  rewrite Hf, !elem_of_app, Ho, !elem_of_app. set_solver.
Qed.

Lemma same_id s t m m' : m ∈ backlog s t -> m' ∈ backlog s t -> xm_ID m = xm_ID m' -> m = m'.
Proof.
  intros Hm Hm' He. assert (NoDup (xm_ID <$> backlog s t)) as Hnd by apply ids_unique. apply list_elem_of_lookup in Hm as [i Hi], Hm' as [j Hj].
  assert (i = j) as ->; [|congruence].
  eapply (proj1 (NoDup_alt _) Hnd _ _ (xm_ID m)); rewrite list_lookup_fmap; [by rewrite Hi|by rewrite Hj, He].
Qed.

(** An acknowledgement takes away entries of its id only. *)
Lemma ack_waits t m n t' id s r s' : XAck t' id s = (r, s') -> waits t m n s -> waits t m n s' \/ t' = t /\ xm_ID m = id.
Proof.
  intros Hr Hw. destruct (decide (t' = t /\ xm_ID m = id)) as [|Hne]; [by right|left].
  apply (waits_keeps _ _ _ _ _ Hw); [apply stream_kept; eauto 10|]. intros _. unfold backlog.
  destruct (ack _ _ _ _ _ Hr) as (Hf & Hack & _). destruct (Hf t) as [-> Hn].
  destruct (decide (t = t')) as [->|Ht]; [|by destruct (Hn Ht) as [-> ->]].
  destruct Hack as [[-> ->]|(_ & -> & ->)]; [|done]. rewrite !elem_of_app, !list_elem_of_filter. naive_solver.
Qed.

(** An addition to the topic takes a place before the cap. *)
Lemma add_waits t m n t' v s r s' :
  XAdd t' redisStreamMaxLen v s = (r, s') -> waits t m (if bool_decide (t' = t) then Datatypes.S n else n) s -> waits t m n s'.
Proof.
  intros (Hn & Ht & _)%add. case_bool_decide as Hd; [subst t'|].
  - intros (Hm & pre & post & Hst & Hlen). destruct Ht as [(_ & Hs & Ho & Hw & Hf)|(id & k & Hs & Hk & Ho & Hw & Hf)].
    { split; [unfold backlog in *; by rewrite Ho, Hw, Hf|]. exists pre, post. split; [by rewrite Hs|lia]. }
    assert (exists pre', stream s' t = pre' ++ m :: post ++ [mkXMessage id v]) as [pre' Hs'].
    { exists (drop k pre). rewrite Hst, <- app_assoc in Hs. destruct (decide (k <= length pre)%nat) as [Hle|Hgt].
      - rewrite Hs, drop_app_le by done. done.
      - exfalso. destruct Hk as [->|Hk]; [lia|]. rewrite Hs, length_drop in Hk. rewrite ?length_app in Hk. cbn [length] in Hk. rewrite ?length_app in Hk. cbn [length] in Hk. lia. }
    assert (m ∈ stream s' t) as Hin by (rewrite Hs', elem_of_app; right; left).
    assert (trimmed (stream s' t) m = m) as Htr by (unfold trimmed; by rewrite bool_decide_eq_true_2 by (by apply list_elem_of_fmap_2)).
    split; [|exists pre', (post ++ [mkXMessage id v]); split; [done|rewrite length_app; cbn; lia]].
    unfold backlog in *. rewrite Ho, Hw, Hf, !elem_of_app in *. rewrite !list_elem_of_fmap, list_elem_of_filter, elem_of_app. naive_solver.
  - assert (t <> t') as Ht' by auto. destruct (Hn t Ht') as (Hs & Ho & Hw & Hf). intros (Hm & pre & post & Hst & Hlen).
    split; [unfold backlog in *; by rewrite Ho, Hw, Hf|]. exists pre, post. by rewrite Hs.
Qed.

(** How many of the productions are to the topic. *)
Definition sends_to (t : string) (ps : list Production) : nat := length (filter (fun p => pr_topic p = t) ps).

Lemma produce_waits t m n p ps s r s' :
  XAdd (pr_topic p) redisStreamMaxLen (produce_values (pr_trace p) (pr_key p) (pr_value p)) s = (r, s') ->
  waits t m (sends_to t (p :: ps) + n) s -> waits t m (sends_to t ps + n) s'.
Proof.
  intros Ha Hw. apply (add_waits t m _ _ _ _ _ _ Ha). unfold sends_to in *. rewrite filter_cons in Hw.
  destruct (decide (pr_topic p = t)); [rewrite bool_decide_eq_true_2 by done|rewrite bool_decide_eq_false_2 by done]; done.
Qed.

Lemma produce_all_waits t m n ps s : waits t m (sends_to t ps + n) s -> waits t m n (produce_all ps s).
Proof.
  revert s. induction ps as [|p ps IH]; intros s Hw; [done|]. cbn [produce_all]. apply IH. unfold produce.
  destruct (XAdd _ _ _ s) as [r s'] eqn:Ha. by eapply produce_waits.
Qed.

(** Where the entry is the oldest that this consumer has yet to handle. *)
Definition first_waiting (t : string) (m : XMessage) (s : S) : Prop := exists rest, own s t ++ fresh s t = m :: rest.

Lemma filter_head {A} (P : A -> Prop) `{!forall x, base.Decision (P x)} x l : P x -> exists l', filter P (x :: l) = x :: l'.
Proof. intros Hx. rewrite filter_cons_True by done. eauto. Qed.

Lemma produce_all_first t m n ps s : waits t m (sends_to t ps + n) s ->
  (first_waiting t m s -> first_waiting t m (produce_all ps s)) /\
  ((exists rest, own s t = m :: rest) -> exists rest, own (produce_all ps s) t = m :: rest) /\
  (other s t = [] -> other (produce_all ps s) t = []) /\ (own s t = [] -> own (produce_all ps s) t = []) /\
  forall start, (scan_left (produce_all ps s) t start <= scan_left s t start)%nat.
Proof.
  revert s. induction ps as [|p ps IH]; intros s Hw; [done|]. cbn [produce_all]. unfold produce.
  destruct (XAdd _ _ _ s) as [r s'] eqn:Ha. cbn [snd]. pose proof (produce_waits _ _ _ _ _ _ _ _ Ha Hw) as Hw'.
  destruct (IH s' Hw') as (IH1 & IH2 & IH3 & IH4 & IH5). destruct Hw' as (_ & pre & post & Hst & _).
  assert (m ∈ stream s' t) as Hin by (rewrite Hst; set_solver).
  destruct (add _ _ _ _ _ _ Ha) as (Hn & Ht & Hscan).
  assert ((first_waiting t m s -> first_waiting t m s') /\ ((exists rest, own s t = m :: rest) -> exists rest, own s' t = m :: rest) /\
    (other s t = [] -> other s' t = []) /\ (own s t = [] -> own s' t = [])) as (H1 & H2 & H3 & H4).
  { unfold first_waiting. destruct (decide (pr_topic p = t)) as [He|He]; [rewrite He in *|destruct (Hn t) as (_ & -> & -> & ->); [by auto|by auto]].
    destruct Ht as [(_ & _ & -> & -> & ->)|(id & k & _ & _ & -> & -> & ->)]; [done|].
    assert (trimmed (stream s' t) m = m) as Htr by (unfold trimmed; by rewrite bool_decide_eq_true_2 by (by apply list_elem_of_fmap_2)).
    split_and!; [intros [rest Hr]|intros [rest ->]; rewrite fmap_cons, Htr; by eauto|by intros ->|by intros ->].
    destruct (own s t) as [|x l]; cbn [app fmap list_fmap] in *; [|injection Hr as -> Hr; rewrite Htr; by eauto].
    rewrite Hr. cbn [app]. by apply filter_head. }
  split_and!; auto. intros start. etrans; [apply IH5|apply Hscan].
Qed.
End moves.

Section redis.
Context {S W : Type} `{!StreamGroup S} `{!StreamLaws S} (handler : BusRecord -> W -> bool * W).

(** The handler with a log of the records it accepted. *)
Definition logged (rec : BusRecord) (wl : W * list BusRecord) : bool * (W * list BusRecord) :=
  let '(ok, w') := handler rec wl.1 in (ok, (w', if ok then wl.2 ++ [rec] else wl.2)).

Context (t : string) (m : XMessage).

(** The entry waits on a server that others add to, with room for all they will send. *)
Definition waiting_entry (x : Shared S) : Prop := waits t m (sends_to t (concat (sh_adds x))) (sh_store x).

Lemma after_adds_waits {A} (op : S -> A * S) x r x' :
  after_adds op x = (r, x') -> waiting_entry x -> exists s, waits t m (sends_to t (concat (sh_adds x'))) s /\ op s = (r, sh_store x').
Proof.
  unfold after_adds, waiting_entry. destruct (op _) as [r0 s'] eqn:Ho. intros [= <- <-]. cbn [sh_adds sh_store]. intros Hw.
  eexists. split; [|exact Ho]. destruct (sh_adds x) as [|ps adds]; [done|]. cbn [tail concat] in *. apply produce_all_waits.
  unfold sends_to in *. by rewrite filter_app, length_app in Hw.
Qed.

(** The entry waits, and [Q] holds of what was read, or the handler has accepted the entry. *)
Definition kept (Q : Prop) (x : Shared S) (l : list BusRecord) : Prop := Q /\ waiting_entry x \/ toRedisRecord t m ∈ l.
Abbreviation result_kept Q r := (kept Q r.1.2 r.2.2).

(** Among the entries of a topic, the id of the entry is its own. *)
Definition its_id (t' : string) (ms : list XMessage) : Prop := forall m', m' ∈ ms -> t' = t -> xm_ID m' = xm_ID m -> m' = m.

Lemma dispatch_kept Q t' m' x wl : (Q -> its_id t' [m']) -> kept Q x wl.2 -> result_kept Q (dispatch logged t' m' x wl).
Proof.
  intros Hid Hk. unfold dispatch, logged. destruct (handler _ _) as [[] w']; cbn [negb]; [|done].
  destruct (XAck t' (xm_ID m') x) as [r x'] eqn:Ha.
  assert (kept Q x' (wl.2 ++ [toRedisRecord t' m'])) as Hk'; [|by destruct r].
  destruct Hk as [[HQ Hk]|Hl]; [|right; set_solver].
  destruct (after_adds_waits _ _ _ _ Ha Hk) as (s & Hw & Hop). destruct (ack_waits _ _ _ _ _ _ _ _ Hop Hw) as [Hw'|[-> He]]; [by left|].
  right. rewrite (Hid HQ m') by (done || left). set_solver.
Qed.

Lemma next_kept Q (r : Poll_result (S:=Shared S) (W:=W * list BusRecord)) k :
  result_kept Q r -> (forall x wl, kept Q x wl.2 -> result_kept Q (k x wl)) -> result_kept Q (next_step r k).
Proof. destruct r as [[[e|] s] wl]; cbn; auto. Qed.

Lemma dispatch_all_kept Q t' ms x wl : (Q -> its_id t' ms) -> kept Q x wl.2 -> result_kept Q (dispatch_all logged t' ms x wl).
Proof.
  revert x wl. induction ms as [|m' ms IH]; intros x wl Hms Hk; [done|]. cbn [dispatch_all]. apply next_kept.
  - apply dispatch_kept; [|done]. intros HQ m0 ->%list_elem_of_singleton. apply (Hms HQ). left.
  - intros x' wl' Hk'. apply IH; [|done]. intros HQ m0 Hm0. apply (Hms HQ). by right.
Qed.

Lemma streams_kept Q streams x wl :
  (Q -> forall t' ms, (t', ms) ∈ streams -> its_id t' ms) -> kept Q x wl.2 -> result_kept Q (dispatchStreams logged streams x wl).
Proof.
  revert x wl. induction streams as [|[t' ms] streams IH]; intros x wl Hms Hk; [done|]. cbn [dispatchStreams]. apply next_kept.
  - apply dispatch_all_kept; [|done]. intros HQ. apply (Hms HQ). left.
  - intros x' wl' Hk'. apply IH; [|done]. intros HQ t0 ms0 Hin. apply (Hms HQ). by right.
Qed.

Definition preserves (f : Shared S -> W * list BusRecord -> option pollError * Shared S * (W * list BusRecord)) : Prop :=
  forall x wl, kept True x wl.2 -> result_kept True (f x wl).

Lemma kept_weaken Q x l : kept Q x l -> kept True x l.
Proof. unfold kept. tauto. Qed.

(** A read: the entry waits on, and what is read of its backlog has unique ids. *)
Lemma read_kept {A} (op : S -> A * S) (Q : A -> Prop) x l r x' :
  (forall s s' n, op s = (r, s') -> waits t m n s -> waits t m n s' /\ Q r) ->
  after_adds op x = (r, x') -> kept True x l -> kept (Q r) x' l.
Proof.
  intros Hop Hr [[_ Hk]|Hl]; [|by right]. destruct (after_adds_waits _ _ _ _ Hr Hk) as (s & Hw & Ho).
  left. destruct (Hop _ _ _ Ho Hw) as [Hw' HQ]. done.
Qed.

Lemma its_id_backlog s n t' ms : waits t m n s -> (forall m', m' ∈ ms -> m' ∈ backlog s t') -> its_id t' ms.
Proof. intros [Hm _] Hms m' Hm' -> He. by eapply same_id; [apply Hms| |]. Qed.

Lemma readInto_kept t' : preserves (readInto logged t').
Proof.
  intros x wl Hk. unfold readInto. destruct (XReadOwn t' x) as [r x'] eqn:Hr.
  apply (read_kept _ (fun r => match r with Ok ms => its_id t' ms | Err _ => True end) _ wl.2) in Hr; [|clear x x' Hk Hr|done].
  - destruct r as [ms|[]]; [|exact Hr..]. eapply kept_weaken, streams_kept; [|exact Hr]. by intros HQ ? ? [= -> ->]%list_elem_of_singleton.
  - intros s s' n Hop Hw. split; [by eapply read_own_waits|]. destruct (read_own _ _ _ _ Hop) as [_ Hms]. destruct r as [ms|]; [subst ms|done].
    eapply its_id_backlog; [exact Hw|]. intros m' Hm'. apply elem_of_app. left. by eapply subseteq_take.
Qed.

Lemma readNew_kept ts : preserves (readNew logged ts).
Proof.
  intros x wl Hk. unfold readNew. destruct (XReadNew ts x) as [r x'] eqn:Hr.
  apply (read_kept _ (fun r => match r with Ok res => forall t' ms, (t', ms) ∈ res -> its_id t' ms | Err _ => True end) _ wl.2) in Hr; [|clear x x' Hk Hr|done].
  - destruct r as [res|[]]; [|exact Hr..]. eapply kept_weaken, streams_kept; [|exact Hr]. done.
  - intros s s' n Hop Hw. split; [by eapply read_new_waits|]. destruct (read_new _ _ _ _ Hop) as (k & _ & Hms). destruct r as [res|]; [|done].
    destruct Hms as [_ ->]. intros t' ms [_ Ht]%list_elem_of_filter. apply list_elem_of_fmap in Ht as (t0 & [= -> ->] & _).
    eapply its_id_backlog; [exact Hw|]. intros m' Hm'. unfold backlog. rewrite !elem_of_app. right. right. by eapply subseteq_take.
Qed.

Lemma reclaim_kept fuel t' start : preserves (reclaim logged fuel t' start).
Proof.
  revert start. induction fuel as [|fuel IH]; intros start x wl Hk; cbn [reclaim]; [exact Hk|].
  destruct (XAutoClaim t' start x) as [r x'] eqn:Hr.
  apply (read_kept _ (fun r => match r with Ok (ms, _) => its_id t' ms | Err _ => True end) _ wl.2) in Hr; [|clear x x' Hk Hr|done].
  - destruct r as [[ms next]|e]; [|by eapply kept_weaken]. apply next_kept; [by eapply kept_weaken, dispatch_all_kept|].
    intros x2 wl2 Hk2. case_match; [done|]. by apply IH.
  - intros s s' n Hop Hw. pose proof (claim_waits _ _ _ _ _ _ _ _ Hop Hw) as Hw'. split; [done|].
    destruct (auto_claim _ _ _ _ _ Hop) as (? & ? & ? & _ & _ & _ & _ & _ & Hms). destruct r as [[ms next]|]; [|done]. destruct Hms as [Hms _].
    eapply its_id_backlog; [exact Hw'|]. intros m' Hm'. apply elem_of_app. left. by apply Hms.
Qed.

Lemma each_topic_kept f topics : (forall t', preserves (f t')) -> preserves (each_topic f topics).
Proof.
  intros Hf. induction topics as [|t' ts IH]; intros x wl Hk; [done|]. cbn [each_topic]. apply next_kept; [by apply Hf|]. intros x' wl'. apply IH.
Qed.

Lemma poll_kept fuel now c wl :
  kept True (rc_store c) wl.2 -> let r := poll logged fuel now c wl in kept True (rc_store r.1.2) r.2.2.
Proof.
  intros Hk. unfold poll. pose proof (each_topic_kept (readInto logged) (rc_topics c) readInto_kept (rc_store c) wl Hk) as H1.
  destruct (each_topic _ _ _ _) as [[[e|] x] wl1]; cbn in H1 |- *; [done|]. case_match.
  - pose proof (next_kept True (each_topic (fun t' => reclaim logged fuel t' "0-0") (rc_topics c) x wl1) (readNew logged (rc_topics c))) as H2.
    destruct (next_step _ _) as [[e2 s2] wl2]. apply H2; [|apply readNew_kept]. apply each_topic_kept; [|done]. intros t'. apply reclaim_kept.
  - pose proof (readNew_kept (rc_topics c) x wl1 H1) as H2. by destruct (readNew _ _ _ _) as [[e2 s2] wl2].
Qed.

Lemma run_kept fuel times c wl :
  kept True (rc_store c) wl.2 -> let r := run_redis logged fuel times c wl in kept True (rc_store r.1) r.2.2.
Proof.
  revert c wl. induction times as [|now times IH]; intros c wl Hk; [done|]. cbn [run_redis].
  pose proof (poll_kept fuel now c wl Hk) as Hk'. destruct (poll _ _ _ _ _) as [[e c'] wl']. by apply IH.
Qed.

(** C9: over Redis an entry leaves its stream only by being accepted or by the cap of 10000.  While
    other processes add entries between any two commands of the consumer, and whatever fails, the
    handler, a read, an acknowledgement or an addition: an entry that is not acknowledged and not
    trimmed, and behind which fewer than 10000 entries are or will be sent to its topic, is at the end
    still there to be delivered, or the handler has accepted it. *)
Theorem redis_loses_nothing fuel times c w pre post :
  m ∈ backlog (sh_store (rc_store c)) t -> stream (sh_store (rc_store c)) t = pre ++ m :: post ->
  Z.of_nat (length post + sends_to t (concat (sh_adds (rc_store c)))) < redisStreamMaxLen ->
  let r := run_redis logged fuel times c (w, []) in m ∈ backlog (sh_store (rc_store r.1)) t \/ toRedisRecord t m ∈ r.2.2.
Proof.
  intros Hm Hst Hlen. destruct (run_kept fuel times c (w, [])) as [[_ [Hb _]]|Hl]; [|by left|by right].
  left. split; [done|]. split; [done|]. by exists pre, post.
Qed.
End redis.

(** ** Head of line *)

Section stall.
Context {S W : Type} `{!StreamGroup S} `{!StreamLaws S} (handler : BusRecord -> W -> bool * W).
Context (P : W -> Prop) (t : string) (m : XMessage).
Context (Hfail : forall w, P w -> (handler (toRedisRecord t m) w).1 = false /\ P (handler (toRedisRecord t m) w).2).

(** The entry is the oldest pending one of the consumer, and is not trimmed by what others will send. *)
Definition at_head (x : Shared S) : Prop := waiting_entry t m x /\ exists rest, own (sh_store x) t = m :: rest.

Lemma stalled_poll fuel now c w ts e c' w' :
  rc_topics c = t :: ts -> at_head (rc_store c) -> P w -> poll handler fuel now c w = (e, c', w') ->
  e <> None /\ at_head (rc_store c') /\ rc_topics c' = rc_topics c /\ P w'.
Proof using Hfail.
  intros Ht [Hw Hown] HP. unfold poll. rewrite Ht. cbn [each_topic]. unfold readInto.
  destruct (XReadOwn t (rc_store c)) as [r x'] eqn:Hr.
  assert (at_head x' /\ match r with Ok ms => exists rest, ms = m :: rest | Err e => e = RedisFault end) as [Hhead Hres].
  { cbn [XReadOwn shared_group] in Hr. unfold after_adds, at_head, waiting_entry in *. destruct (rc_store c) as [s adds]. cbn [sh_store sh_adds] in *.
    set (s1 := match adds with [] => s | ps :: _ => produce_all ps s end) in Hr.
    assert (waits t m (sends_to t (concat (tail adds))) s1 /\ exists rest, own s1 t = m :: rest) as [Hw1 [rest Hown1]].
    { unfold s1. destruct adds as [|ps adds]; [done|]. cbn [concat tail] in *. unfold sends_to in *. rewrite filter_app, length_app in Hw.
      split; [by apply produce_all_waits|by apply (produce_all_first _ _ _ _ _ Hw)]. }
    destruct (XReadOwn t s1) as [r0 s'] eqn:Ho. injection Hr as <- <-. destruct (read_own _ _ _ _ Ho) as [Hv Hms]. destruct (Hv t) as (Hv1 & _).
    cbn [sh_store sh_adds]. split; [split; [by eapply read_own_waits|exists rest; congruence]|].
    destruct r0 as [ms|[]]; [|congruence|done]. exists (take 63 rest). by rewrite Hms, Hown1. }
  destruct r as [ms|e0]; [|subst e0; by intros [= <- <- <-]]. destruct Hres as [rest ->]. destruct (Hfail w HP) as [Hf HP'].
  cbn [dispatchStreams dispatch_all]. unfold dispatch. destruct (handler (toRedisRecord t m) w) as [ok w1]. cbn in Hf, HP'. subst ok. cbn. by intros [= <- <- <-].
Qed.

(** An entry whose handler fails, at the head of the pending ones of the first topic, is all the
    consumer hands over until the entry is trimmed. *)
Lemma stalled_run fuel times c w ts :
  rc_topics c = t :: ts -> at_head (rc_store c) -> P w -> let r := run_redis handler fuel times c w in at_head (rc_store r.1) /\ P r.2.
Proof using Hfail.
  revert c w. induction times as [|now times IH]; intros c w Ht Hown HP; [by split|]. cbn [run_redis].
  destruct (poll handler fuel now c w) as [[e c'] w'] eqn:Hp. destruct (stalled_poll _ _ _ _ _ _ _ _ Ht Hown HP Hp) as (_ & Hh & Htop & HP').
  apply IH; [congruence|done..].
Qed.
End stall.

(** ** Catching up *)

Definition without (ms : list XMessage) (l : list XMessage) : list XMessage := filter (fun x => xm_ID x ∉ xm_ID <$> ms) l.

Lemma without_nil l : without [] l = l.
Proof. unfold without. induction l as [|x l IH]; [done|]. rewrite filter_cons_True by (cbn; set_solver). by rewrite IH. Qed.
Lemma without_cons m ms l : without ms (filter (fun x => xm_ID x <> xm_ID m) l) = without (m :: ms) l.
Proof. unfold without. rewrite list_filter_filter. apply list_filter_iff. intros x. rewrite fmap_cons, not_elem_of_cons. tauto. Qed.

Lemma filter_ext_elem {A} (P Q : A -> Prop) `{!forall x, base.Decision (P x)} `{!forall x, base.Decision (Q x)} (l : list A) :
  (forall x, x ∈ l -> P x <-> Q x) -> filter P l = filter Q l.
Proof.
  intros Hiff. induction l as [|x l IH]; [done|]. rewrite !filter_cons, IH by (intros y Hy; apply Hiff; by right).
  specialize (Hiff x (list_elem_of_here x l)). destruct (decide (P x)), (decide (Q x)); tauto.
Qed.

Lemma without_take n l : NoDup (xm_ID <$> l) -> without (take n l) l = drop n l.
Proof.
  unfold without. revert n. induction l as [|x l IH]; intros n; [by destruct n|]. rewrite fmap_cons. intros [Hx Hnd]%NoDup_cons.
  destruct n as [|n]; cbn [take drop].
  - fold (without [] (x :: l)). apply without_nil.
  - rewrite filter_cons_False by (rewrite fmap_cons; set_solver). rewrite <- (IH n Hnd). apply filter_ext_elem. intros y Hy. rewrite fmap_cons, not_elem_of_cons. split; [by intros []|]. intros H. split; [|done].
    intros He. apply Hx. rewrite <- He. by apply list_elem_of_fmap_2.
Qed.

Lemma without_length ms l l' : l' ≡ₚ l ++ ms -> (length (without ms l') <= length l)%nat.
Proof.
  intros Hp. unfold without. rewrite Hp, filter_app, length_app.
  assert (filter (fun x => xm_ID x ∉ xm_ID <$> ms) ms = []) as ->.
  { apply elem_of_nil_inv. intros x [Hn Hx]%list_elem_of_filter. apply Hn. by apply list_elem_of_fmap_2. }
  pose proof (length_filter (fun x => xm_ID x ∉ xm_ID <$> ms) l). simpl. lia.
Qed.
Section progress.
Context {S W : Type} `{!StreamGroup S} `{!StreamLaws S} (handler : BusRecord -> W -> bool * W) (fuel : nat).

(** A server that answers, and enough fuel for its claim scans. *)
Definition reliable : Prop :=
  (forall t (s : S), exists ms, (XReadOwn t s).1 = Ok ms) /\
  (forall ts (s : S), (XReadNew ts s).1 <> Err RedisFault) /\
  (forall t start (s : S), exists r, (XAutoClaim t start s).1 = Ok r) /\
  (forall t id (s : S), exists u, (XAck t id s).1 = Ok u) /\
  (forall (s : S) t, (scan_left s t "0-0" < fuel)%nat).

Context (Hrel : reliable) (Hok : forall rec w, (handler rec w).1 = true).

(** What a successful dispatch leaves. *)
Definition acked (t : string) (ms : list XMessage) (s s' : S) : Prop :=
  (forall t', fresh s' t' = fresh s t' /\ (t' <> t -> own s' t' = own s t' /\ other s' t' = other s t')) /\
  own s' t = without ms (own s t) /\ other s' t = without ms (other s t) /\ (forall start, (scan_left s' t start <= scan_left s t start)%nat).

Lemma dispatch_all_acks t ms s w : exists s' w', dispatch_all handler t ms s w = (None, s', w') /\ acked t ms s s'.
Proof using Hrel Hok.
  destruct Hrel as (_ & _ & _ & Hack & _). revert s w. induction ms as [|m ms IH]; intros s w; cbn [dispatch_all].
  - exists s, w. split; [done|]. split_and!; [done|by rewrite without_nil|by rewrite without_nil|done].
  - unfold dispatch. specialize (Hok (toRedisRecord t m) w). destruct (handler _ w) as [ok w1]. cbn in Hok. subst ok. cbn [negb].
    destruct (Hack t (xm_ID m) s) as [u Hu]. destruct (XAck t (xm_ID m) s) as [r s1] eqn:Ha. cbn in Hu. subst r. cbn [next_step].
    destruct (ack _ _ _ _ _ Ha) as (Hf & [[Ho Hw]|((? & ?) & _)] & Hs); [|done].
    destruct (IH s1 w1) as (s' & w' & -> & Hf' & Ho' & Hw' & Hs'). exists s', w'. split; [done|]. split_and!.
    + intros t'. destruct (Hf t') as [<- Hn], (Hf' t') as [<- Hn']. split; [done|]. intros Ht. destruct (Hn Ht) as [<- <-]. by apply Hn'.
    + by rewrite Ho', Ho, without_cons.
    + by rewrite Hw', Hw, without_cons.
    + intros start. etrans; [apply Hs'|apply Hs].
Qed.

(** No other consumer holds entries. *)
Definition quiet (s : S) : Prop := forall t, other s t = [].

Lemma acked_quiet t ms s s' : acked t ms s s' -> quiet s -> quiet s'.
Proof using.
  clear. intros (Hf & _ & Hw & _) Hq t'. destruct (decide (t' = t)) as [->|Ht]; [by rewrite Hw, Hq|].
  destruct (Hf t') as [_ Hn]. destruct (Hn Ht) as [_ ->]. apply Hq.
Qed.

(** The first 64 pending entries of a topic are gone, nothing else changed. *)
Lemma readInto_acks t s w : quiet s -> exists s' w', readInto handler t s w = (None, s', w') /\ quiet s' /\
  own s' t = drop redisBatch (own s t) /\ (forall t', t' <> t -> own s' t' = own s t') /\ forall t', fresh s' t' = fresh s t'.
Proof using Hrel Hok.
  intros Hq. pose proof Hrel as (Hread & _). destruct (Hread t s) as [ms Hms]. unfold readInto.
  destruct (XReadOwn t s) as [r s1] eqn:Hr. cbn in Hms. subst r. destruct (read_own _ _ _ _ Hr) as [Hv ->].
  assert (quiet s1) as Hq1 by (intros t'; destruct (Hv t') as (_ & -> & _); apply Hq).
  destruct (dispatch_all_acks t (take redisBatch (own s t)) s1 w) as (s' & w' & He & Ha). exists s', w'. cbn [dispatchStreams].
  rewrite He. cbn [next_step]. split; [done|]. split; [by eapply acked_quiet|]. destruct Ha as (Hf & Ho & _ & _).
  split; [|split; intros t'; destruct (Hv t') as (Hvo & _ & Hvf), (Hf t') as [Hff Hn]].
  - rewrite Ho. destruct (Hv t) as (-> & _ & _). apply without_take. pose proof (ids_unique s t) as Hnd. rewrite fmap_app in Hnd. by apply NoDup_app in Hnd as [Hnd _].
  - intros Ht. by destruct (Hn Ht) as [-> _].
  - by rewrite Hff.
Qed.

Lemma read_pending_acks topics s w : NoDup topics -> quiet s ->
  exists s' w', each_topic (readInto handler) topics s w = (None, s', w') /\ quiet s' /\
    (forall t, own s' t = if bool_decide (t ∈ topics) then drop redisBatch (own s t) else own s t) /\ forall t, fresh s' t = fresh s t.
Proof using Hrel Hok.
  revert s w. induction topics as [|t ts IH]; intros s w Hnd Hq; cbn [each_topic]; [by exists s, w|].
  apply NoDup_cons in Hnd as [Ht Hnd]. destruct (readInto_acks t s w Hq) as (s1 & w1 & -> & Hq1 & Ho1 & Hn1 & Hf1). cbn [next_step].
  destruct (IH s1 w1 Hnd Hq1) as (s' & w' & -> & Hq' & Ho' & Hf'). exists s', w'. split; [done|]. split; [done|].
  split; [|intros t'; by rewrite Hf', Hf1]. intros t'. rewrite Ho'. destruct (decide (t' = t)) as [->|Hne].
  - rewrite (bool_decide_eq_false_2 (t ∈ ts)), (bool_decide_eq_true_2 (t ∈ t :: ts)) by set_solver. done.
  - rewrite Hn1 by done. case_bool_decide; case_bool_decide; done || set_solver.
Qed.

Lemma reclaim_acks n t start s w : quiet s -> (scan_left s t start < n)%nat ->
  exists s' w', reclaim handler n t start s w = (None, s', w') /\ quiet s' /\
    (forall t', length (own s' t') <= length (own s t'))%nat /\ forall t', fresh s' t' = fresh s t'.
Proof using Hrel Hok.
  revert start s w. induction n as [|n IH]; intros start s w Hq Hn; [lia|]. cbn [reclaim].
  pose proof Hrel as (_ & _ & Hclaim & _). destruct (Hclaim t start s) as [[ms next] Hms].
  destruct (XAutoClaim t start s) as [r s1] eqn:Hr. cbn in Hms. subst r.
  destruct (auto_claim _ _ _ _ _ Hr) as (claimed & gone & gone' & Ho & Hw & Hf & Hother & _ & Hms & Hscan).
  rewrite Hq in Ho. apply Permutation_nil in Ho. apply app_eq_nil in Ho as [-> Ho]. apply app_eq_nil in Ho as [-> Ho].
  rewrite app_nil_r in Hw. apply Permutation_length in Hw. rewrite length_app in Hw.
  assert (quiet s1) as Hq1. { intros t'. destruct (decide (t' = t)) as [->|Ht]; [done|]. destruct (Hother t' Ht) as (_ & -> & _). apply Hq. }
  destruct (dispatch_all_acks t ms s1 w) as (s2 & w2 & -> & Ha). cbn [next_step]. pose proof (acked_quiet _ _ _ _ Ha Hq1) as Hq2.
  destruct Ha as (Hf2 & Ho2 & _ & Hs2).
  assert (forall t', (length (own s2 t') <= length (own s t'))%nat) as Hlen.
  { intros t'. destruct (decide (t' = t)) as [->|Ht].
    - rewrite Ho2. unfold without. etrans; [apply length_filter|]. lia.
    - destruct (Hf2 t') as [_ Hn2]. destruct (Hn2 Ht) as [-> _]. by destruct (Hother t' Ht) as (-> & _ & _). }
  assert (forall t', fresh s2 t' = fresh s t') as Hfresh.
  { intros t'. destruct (Hf2 t') as [-> _]. destruct (decide (t' = t)) as [->|Ht]; [done|]. by destruct (Hother t' Ht) as (_ & _ & ->). }
  case_match eqn:Hend; [by exists s2, w2|]. apply orb_false_iff in Hend as [He1 He2]. rewrite String.eqb_neq in He1, He2.
  destruct (IH next s2 w2 Hq2) as (s' & w' & -> & Hq' & Hlen' & Hf').
  { specialize (Hscan He1 He2). specialize (Hs2 next). lia. }
  exists s', w'. split; [done|]. split; [done|]. split; intros t'; [etrans; [apply Hlen'|apply Hlen]|by rewrite Hf'].
Qed.

Lemma reclaim_topics_acks topics s w : quiet s ->
  exists s' w', each_topic (fun t => reclaim handler fuel t "0-0") topics s w = (None, s', w') /\ quiet s' /\
    (forall t', length (own s' t') <= length (own s t'))%nat /\ forall t', fresh s' t' = fresh s t'.
Proof using Hrel Hok.
  revert s w. induction topics as [|t ts IH]; intros s w Hq; cbn [each_topic]; [by exists s, w|].
  pose proof Hrel as (_ & _ & _ & _ & Hfuel).
  destruct (reclaim_acks fuel t "0-0" s w Hq (Hfuel s t)) as (s1 & w1 & -> & Hq1 & Hl1 & Hf1). cbn [next_step].
  destruct (IH s1 w1 Hq1) as (s' & w' & -> & Hq' & Hl' & Hf'). exists s', w'. split; [done|]. split; [done|].
  split; intros t'; [etrans; [apply Hl'|apply Hl1]|by rewrite Hf'].
Qed.

Lemma streams_acks streams s w : NoDup (fst <$> streams) -> quiet s ->
  exists s' w', dispatchStreams handler streams s w = (None, s', w') /\ quiet s' /\
    (forall t ms, (t, ms) ∈ streams -> own s' t = without ms (own s t)) /\ (forall t, t ∉ streams.*1 -> own s' t = own s t) /\
    forall t, fresh s' t = fresh s t.
Proof using Hrel Hok.
  revert s w. induction streams as [|[t ms] streams IH]; intros s w Hnd Hq; cbn [dispatchStreams].
  { exists s, w. split_and!; try done. intros ? ? []%not_elem_of_nil. }
  cbn in Hnd. apply NoDup_cons in Hnd as [Ht Hnd]. destruct (dispatch_all_acks t ms s w) as (s1 & w1 & -> & Ha). cbn [next_step].
  pose proof (acked_quiet _ _ _ _ Ha Hq) as Hq1. destruct Ha as (Hf1 & Ho1 & _ & _).
  destruct (IH s1 w1 Hnd Hq1) as (s' & w' & -> & Hq' & Hin' & Hout' & Hf'). exists s', w'. split; [done|]. split; [done|]. split; [|split].
  - intros t' ms' [[= -> ->]|Hin]%elem_of_cons; [by rewrite (Hout' t Ht)|]. rewrite (Hin' t' ms' Hin). destruct (Hf1 t') as [_ Hn].
    assert (t' <> t) as Hne by (intros ->; apply Ht; by apply (list_elem_of_fmap_2 fst _ (t, ms'))). by rewrite (proj1 (Hn Hne)).
  - intros t' [Hne Hout]%not_elem_of_cons. rewrite Hout' by done. destruct (Hf1 t') as [_ Hn]. by rewrite (proj1 (Hn Hne)).
  - intros t'. rewrite Hf'. apply Hf1.
Qed.

Lemma readNew_acks topics s w : NoDup topics -> quiet s ->
  exists s' w', readNew handler topics s w = (None, s', w') /\ quiet s' /\
    (forall t, (length (own s' t) <= length (own s t))%nat \/ t ∉ topics) /\
    forall t, t ∈ topics -> fresh s' t = drop redisBatch (fresh s t).
Proof using Hrel Hok.
  intros Hnd Hq. unfold readNew. pose proof Hrel as (_ & Hnew & _). specialize (Hnew topics s).
  destruct (XReadNew topics s) as [r s1] eqn:Hr. destruct (read_new _ _ _ _ Hr) as (n & Hv & Hres).
  assert (quiet s1) as Hq1 by (intros t; destruct (Hv t) as (_ & _ & ->); apply Hq).
  destruct r as [res|[]]; [|exists s1, w; split; [done|]; split; [done|]|done].
  - destruct Hres as [Hn ->]. set (all := (fun t => (t, take redisBatch (fresh s t))) <$> topics).
    destruct (streams_acks (filter (fun p => p.2 <> []) all) s1 w) as (s' & w' & -> & Hq' & Hin & Hout & Hf); [|done|].
    { eapply sublist_NoDup; [|apply fmap_sublist, sublist_filter]. unfold all. rewrite <- list_fmap_compose. cbn. by rewrite list_fmap_id. }
    exists s', w'. split; [done|]. split; [done|]. split.
    + intros t. destruct (decide (t ∈ topics)) as [Ht|]; [left|by right]. destruct (Hv t) as (Ho & _ & _). rewrite (Hn t Ht) in Ho.
      destruct (decide (take redisBatch (fresh s t) = [])) as [He|He].
      * rewrite Hout, Ho, He, app_nil_r; [done|]. intros Hm. apply list_elem_of_fmap in Hm as ([t' ms] & -> & [Hp Hm]%list_elem_of_filter).
        apply list_elem_of_fmap in Hm as (t'' & [= -> ->] & _). done.
      * rewrite (Hin t (take redisBatch (fresh s t))); [apply without_length; by rewrite Ho|]. apply list_elem_of_filter. split; [done|]. apply list_elem_of_fmap. by exists t.
    + intros t Ht. rewrite Hf. destruct (Hv t) as (_ & -> & _). by rewrite Hn.
  - split; intros t; destruct (Hv t) as (Ho & Hfr & _).
    + destruct (decide (t ∈ topics)) as [Ht|]; [left|by right]. rewrite Ho, (Hres t Ht), take_nil, app_nil_r. done.
    + intros Ht. rewrite Hfr, (Hres t Ht), !drop_nil. done.
Qed.

(** The entries of a topic this consumer has yet to handle. *)
Definition waiting (s : S) (t : string) : nat := (length (own s t) + length (fresh s t))%nat.

Lemma poll_progress now c w : NoDup (rc_topics c) -> quiet (rc_store c) ->
  exists c' w', poll handler fuel now c w = (None, c', w') /\ rc_topics c' = rc_topics c /\ quiet (rc_store c') /\
    forall t, t ∈ rc_topics c -> (waiting (rc_store c') t <= waiting (rc_store c) t - redisBatch)%nat.
Proof using Hrel Hok.
  intros Hnd Hq. unfold poll. destruct (read_pending_acks (rc_topics c) (rc_store c) w Hnd Hq) as (s1 & w1 & -> & Hq1 & Ho1 & Hf1).
  set (due := _ <=? _).
  destruct (reclaim_topics_acks (rc_topics c) s1 w1 Hq1) as (s2 & w2 & Hr & Hq2 & Hl2 & Hf2).
  destruct due.
  - rewrite Hr. cbn [next_step]. destruct (readNew_acks (rc_topics c) s2 w2 Hnd Hq2) as (s3 & w3 & -> & Hq3 & Hl3 & Hf3).
    eexists _, w3. split; [done|]. split; [done|]. split; [done|]. cbn [rc_store]. intros t Ht. unfold waiting. rewrite Hf3, Hf2, Hf1 by done.
    destruct (Hl3 t) as [Hl|]; [|done]. specialize (Hl2 t). rewrite Ho1, bool_decide_eq_true_2 in Hl2 by done. rewrite length_drop in *. lia.
  - destruct (readNew_acks (rc_topics c) s1 w1 Hnd Hq1) as (s3 & w3 & -> & Hq3 & Hl3 & Hf3).
    eexists _, w3. split; [done|]. split; [done|]. split; [done|]. cbn [rc_store]. intros t Ht. unfold waiting. rewrite Hf3, Hf1 by done.
    destruct (Hl3 t) as [Hl|]; [|done]. rewrite Ho1, bool_decide_eq_true_2 in Hl by done. rewrite length_drop in *. lia.
Qed.

(** C23: a consumer whose handler succeeds catches up: over a server that answers, and with no entries
    left on other consumers, each poll takes 64 entries off the backlog of every topic, so after
    enough polls none is waiting. *)
Theorem redis_catches_up times c w t :
  NoDup (rc_topics c) -> quiet (rc_store c) -> t ∈ rc_topics c ->
  (waiting (rc_store (run_redis handler fuel times c w).1) t <= waiting (rc_store c) t - redisBatch * length times)%nat.
Proof using Hrel Hok.
  revert c w. induction times as [|now times IH]; intros c w Hnd Hq Ht; cbn [run_redis length fst]; [unfold redisBatch; lia|].
  destruct (poll_progress now c w Hnd Hq) as (c' & w' & -> & Htop & Hq' & Hw). specialize (Hw t Ht).
  rewrite <- Htop in Hnd, Ht. specialize (IH c' w' Hnd Hq' Ht). unfold redisBatch in *. lia.
Qed.
End progress.

(** ** Redis and the alerting service *)

Section alerting.
Context {R S : Type} `{!StreamGroup R} `{!StreamLaws R} `{!AlertStore S}.
Context (decode : string -> option CheckResultEvent) (sha : string -> string) (now : Time).

(** The handler of the alerting runner over the bus, with the events it emitted. *)
Definition alert_handler (rec : BusRecord) (w : S * list NotifyMessage) : bool * (S * list NotifyMessage) :=
  let '(r, s', msgs) := handle sha now true (decode (br_Value rec)) w.1 in
  (match r with Ok _ => true | Err _ => false end, (s', w.2 ++ msgs)).

End alerting.

(** ** The oldest entry *)

(** A predicate of the handler's state that its calls keep is kept by the consumer. *)
Section kept_by_handler.
Context {S W : Type} `{!StreamGroup S} (handler : BusRecord -> W -> bool * W) (P : W -> Prop).
Context (Hkeep : forall rec w, P w -> P (handler rec w).2).

Lemma next_keeps (r : Poll_result (S:=S) (W:=W)) k : P r.2 -> (forall s w, P w -> P (k s w).2) -> P (next_step r k).2.
Proof using. clear. destruct r as [[[e|] s] w]; cbn; auto. Qed.

Lemma dispatch_keeps t m (s : S) w : P w -> P (dispatch handler t m s w).2.
Proof using Hkeep.
  intros HP. unfold dispatch. specialize (Hkeep (toRedisRecord t m) w HP). destruct (handler _ _) as [[] w']; cbn [negb]; [|done].
  by destruct (XAck _ _ _) as [[]].
Qed.

Lemma dispatch_all_keeps t ms (s : S) w : P w -> P (dispatch_all handler t ms s w).2.
Proof using Hkeep.
  revert s w. induction ms as [|m ms IH]; intros s w HP; [done|]. cbn [dispatch_all]. apply next_keeps; [by apply dispatch_keeps|auto].
Qed.

Lemma streams_keeps streams (s : S) w : P w -> P (dispatchStreams handler streams s w).2.
Proof using Hkeep.
  revert s w. induction streams as [|[t ms] l IH]; intros s w HP; [done|]. cbn [dispatchStreams]. apply next_keeps; [by apply dispatch_all_keeps|auto].
Qed.

Lemma readInto_keeps t (s : S) w : P w -> P (readInto handler t s w).2.
Proof using Hkeep. intros HP. unfold readInto. destruct (XReadOwn t s) as [[|[]] s']; [by apply streams_keeps|done..]. Qed.
Lemma readNew_keeps ts (s : S) w : P w -> P (readNew handler ts s w).2.
Proof using Hkeep. intros HP. unfold readNew. destruct (XReadNew ts s) as [[|[]] s']; [by apply streams_keeps|done..]. Qed.

Lemma reclaim_keeps fuel t start (s : S) w : P w -> P (reclaim handler fuel t start s w).2.
Proof using Hkeep.
  revert start s w. induction fuel as [|fuel IH]; intros start s w HP; [done|]. cbn [reclaim]. destruct (XAutoClaim t start s) as [[[ms next]|] s']; [|done].
  apply next_keeps; [by apply dispatch_all_keeps|]. intros s2 w2 HP2. case_match; [done|auto].
Qed.

Lemma each_topic_keeps f topics (s : S) w : (forall t s w, P w -> P (f t s w).2) -> P w -> P (each_topic f topics s w).2.
Proof using.
  clear. intros Hf. revert s w. induction topics as [|t ts IH]; intros s w HP; [done|]. cbn [each_topic]. apply next_keeps; auto.
Qed.

Lemma poll_keeps_after fuel now (c : redisConsumer S) w :
  P (each_topic (readInto handler) (rc_topics c) (rc_store c) w).2 -> P (poll handler fuel now c w).2.
Proof using Hkeep.
  unfold poll. intros H1. destruct (each_topic _ _ _ _) as [[[e|] s] w1]; [done|]. cbn [snd] in H1. case_match.
  - pose proof (next_keeps (each_topic (fun t => reclaim handler fuel t "0-0") (rc_topics c) s w1) (readNew handler (rc_topics c))) as H2.
    destruct (next_step _ _) as [[e2 s2] w2]. apply H2; [|apply readNew_keeps]. apply each_topic_keeps; [|done]. intros t. apply reclaim_keeps.
  - pose proof (readNew_keeps (rc_topics c) s w1 H1) as H2. by destruct (readNew _ _ _ _) as [[e2 s2] w2].
Qed.

Lemma poll_keeps fuel now (c : redisConsumer S) w : P w -> P (poll handler fuel now c w).2.
Proof using Hkeep. intros HP. apply poll_keeps_after. apply each_topic_keeps; [|done]. apply readInto_keeps. Qed.

Lemma run_keeps fuel times (c : redisConsumer S) w : P w -> P (run_redis handler fuel times c w).2.
Proof using Hkeep.
  revert c w. induction times as [|now times IH]; intros c w HP; [done|]. cbn [run_redis].
  pose proof (poll_keeps fuel now c w HP) as HP'. destruct (poll _ _ _ _ _) as [[e c'] w']. by apply IH.
Qed.
End kept_by_handler.

Section front.
Context {S W : Type} `{!StreamGroup S} `{!StreamLaws S} (handler : BusRecord -> W -> bool * W) (fuel : nat).
Context (t : string) (m : XMessage).
Context (Hrel : reliable (S:=S) fuel).

(** The handler with the records it accepted and the state each left. *)
Definition traced (rec : BusRecord) (wl : W * list (BusRecord * W)) : bool * (W * list (BusRecord * W)) :=
  let '(ok, w') := handler rec wl.1 in (ok, (w', if ok then wl.2 ++ [(rec, w')] else wl.2)).

Lemma traced_keeps e rec wl : (exists l, wl.2 = e :: l) -> exists l, (traced rec wl).2.2 = e :: l.
Proof using.
  clear. unfold traced. destruct (handler rec wl.1) as [[] w']; [|done]. intros [l Hl]. exists (l ++ [(rec, w')]). cbn [snd]. by rewrite Hl.
Qed.

(** Nothing older waits, no other consumer holds entries, and the entry is not trimmed by what
    others will send. *)
Definition at_front (x : Shared S) : Prop := waiting_entry t m x /\ first_waiting t m (sh_store x) /\ other (sh_store x) t = [].

(** A command on a server that others add to is the command on a server where the entry is still in
    front. *)
Lemma at_front_after {A} (op : S -> A * S) x r x' :
  after_adds op x = (r, x') -> at_front x ->
  exists s, op s = (r, sh_store x') /\ waits t m (sends_to t (concat (sh_adds x'))) s /\ first_waiting t m s /\ other s t = [] /\
    (own (sh_store x) t = [] -> own s t = []) /\ forall start, (scan_left s t start <= scan_left (sh_store x) t start)%nat.
Proof using.
  clear. unfold after_adds, at_front, waiting_entry. intros Hop (Hw & Hf & Ho). destruct x as [s0 adds]. cbn [sh_store sh_adds] in *.
  destruct (op _) as [r0 s'] eqn:Hs. injection Hop as <- <-. cbn [sh_store sh_adds]. eexists. split; [exact Hs|].
  destruct adds as [|ps adds]; [done|]. cbn [concat tail] in *. unfold sends_to in *. rewrite filter_app, length_app in Hw.
  destruct (produce_all_first _ _ _ _ _ Hw) as (H1 & _ & H3 & H4 & H5). split; [by apply produce_all_waits|]. auto.
Qed.

(** What a call of the handler on the entry leads to. *)
Definition attempted (wl : W * list (BusRecord * W)) (r : option pollError * Shared S * (W * list (BusRecord * W))) : Prop :=
  let '(ok, w') := handler (toRedisRecord t m) wl.1 in
  if ok then exists l, r.2.2 = (toRedisRecord t m, w') :: l else r.1.1 = Some PollHandler /\ r.2 = (w', []) /\ at_front r.1.2.

Lemma dispatch_front ms x wl : wl.2 = [] -> at_front x -> attempted wl (dispatchStreams traced [(t, m :: ms)] x wl).
Proof using.
  clear. intros Hl Hx. unfold attempted. cbn [dispatchStreams dispatch_all]. unfold dispatch.
  destruct (traced (toRedisRecord t m) wl) as [ok wl1] eqn:Htr. unfold traced in Htr. destruct (handler _ wl.1) as [ok' w'].
  injection Htr as <- <-. rewrite Hl. destruct ok'; cbn [negb].
  - assert (forall (r : option pollError * Shared S * (W * list (BusRecord * W))),
      (exists l, r.2.2 = (toRedisRecord t m, w') :: l) ->
      exists l, (next_step (next_step r (dispatch_all traced t ms)) (dispatchStreams traced [])).2.2 = (toRedisRecord t m, w') :: l) as Hend.
    { intros r Hr. apply (next_keeps (fun wl => exists l, wl.2 = (toRedisRecord t m, w') :: l)); [|done].
      apply (next_keeps (fun wl => exists l, wl.2 = (toRedisRecord t m, w') :: l)); [done|]. intros s wl1.
      apply (dispatch_all_keeps traced (fun wl => exists l, wl.2 = (toRedisRecord t m, w') :: l)). intros; by apply traced_keeps. }
    destruct (XAck t (xm_ID m) x) as [[u|e] x']; apply Hend; cbn; eauto.
  - cbn. done.
Qed.

Lemma idle_reclaim n start x (w : W * list (BusRecord * W)) :
  at_front x -> own (sh_store x) t = [] -> (scan_left (sh_store x) t start < n)%nat ->
  exists x', reclaim traced n t start x w = (None, x', w) /\ at_front x' /\ own (sh_store x') t = [].
Proof using Hrel.
  revert start x. induction n as [|n IH]; intros start x Hx Hown Hn; [lia|]. cbn [reclaim].
  destruct (XAutoClaim t start x) as [r x1] eqn:Hr.
  destruct (at_front_after _ _ _ _ Hr Hx) as (s & Hop & Hw & Hf & Ho & Hempty & Hscan). specialize (Hempty Hown). pose proof Hrel as (_ & _ & Hclaim & _).
  destruct (Hclaim t start s) as [[ms next] Hms]. rewrite Hop in Hms. cbn in Hms. subst r.
  destruct (auto_claim _ _ _ _ _ Hop) as (claimed & gone & gone' & Hother & Hw1 & Hf1 & _ & _ & Hms & Hlt).
  rewrite Ho in Hother. apply Permutation_nil in Hother. apply app_eq_nil in Hother as [-> Hother]. apply app_eq_nil in Hother as [-> Hother].
  rewrite Hempty in Hw1. apply Permutation_nil in Hw1. apply app_eq_nil in Hw1 as [-> Hw1].
  assert (ms = []) as -> by (apply elem_of_nil_inv; intros y Hy%Hms; rewrite Hw1 in Hy; set_solver). cbn [dispatch_all next_step].
  assert (at_front x1) as Hx1.
  { split; [by eapply claim_waits|]. split; [|done]. unfold first_waiting in *. rewrite Hw1, Hf1. by rewrite Hempty in Hf. }
  case_match eqn:Hend; [by exists x1|]. apply orb_false_iff in Hend as [He1 He2]. rewrite String.eqb_neq in He1, He2.
  apply IH; [done|done|]. specialize (Hlt He1 He2). specialize (Hscan start). lia.
Qed.

Lemma front_new x wl : wl.2 = [] -> at_front x -> own (sh_store x) t = [] -> attempted wl (readNew traced [t] x wl).
Proof using Hrel.
  intros Hl Hx Hown. unfold readNew. destruct (XReadNew [t] x) as [r x1] eqn:Hr.
  destruct (at_front_after _ _ _ _ Hr Hx) as (s & Hop & Hw & [rest Hf] & Ho & Hempty & _). rewrite (Hempty Hown) in Hf. cbn [app] in Hf.
  pose proof Hrel as (_ & Hnew & _). specialize (Hnew [t] s). rewrite Hop in Hnew. cbn [fst] in Hnew.
  destruct (read_new _ _ _ _ Hop) as (k & Hv & Hres). destruct (Hv t) as (Hv1 & Hv2 & Hv3).
  destruct r as [res|[]]; [|specialize (Hres t (list_elem_of_here _ _)); congruence|done].
  destruct Hres as [_ ->]. cbn [fmap list_fmap]. rewrite Hf. change (take redisBatch (m :: rest)) with (m :: take 63 rest).
  rewrite filter_cons_True by done. rewrite filter_nil. apply dispatch_front; [done|].
  split; [by eapply read_new_waits|]. split; [|congruence]. exists rest. rewrite Hv1, Hv2, (Hempty Hown). cbn [app]. by rewrite take_drop.
Qed.

Lemma poll_topics clock (c : redisConsumer (Shared S)) wl : rc_topics (poll traced fuel clock c wl).1.2 = rc_topics c.
Proof using.
  clear. unfold poll. destruct (each_topic _ _ _ _) as [[[e|] x] w1]; [done|].
  case_match; [by destruct (next_step _ _) as [[]]|by destruct (readNew _ _ _ _) as [[]]].
Qed.

(** A poll is one attempt at the entry. *)
Lemma front_poll clock c wl : rc_topics c = [t] -> wl.2 = [] -> at_front (rc_store c) ->
  let r := poll traced fuel clock c wl in attempted wl (r.1.1, rc_store r.1.2, r.2).
Proof using Hrel.
  intros Ht Hl Hx. destruct (XReadOwn t (rc_store c)) as [r x1] eqn:Hr.
  destruct (at_front_after _ _ _ _ Hr Hx) as (s & Hop & Hw & [rest Hf] & Ho & _ & _). pose proof Hrel as (Hread & _ & _ & _ & Hfuel).
  destruct (Hread t s) as [ms Hms]. rewrite Hop in Hms. cbn in Hms. subst r. destruct (read_own _ _ _ _ Hop) as [Hv ->]. destruct (Hv t) as (Hv1 & Hv2 & Hv3).
  assert (at_front x1) as Hx1.
  { split; [by eapply read_own_waits|]. split; [|congruence]. exists rest. by rewrite Hv1, Hv3. }
  destruct (own s t) as [|y l] eqn:Hown.
  - unfold poll. rewrite Ht. cbn [each_topic]. unfold readInto. rewrite Hr, take_nil. cbn [dispatchStreams dispatch_all next_step]. case_match.
    + destruct (idle_reclaim fuel "0-0" x1 wl Hx1 Hv1 (Hfuel _ _)) as (x2 & -> & Hx2 & Hown2). cbn [next_step].
      pose proof (front_new x2 wl Hl Hx2 Hown2) as Ha. by destruct (readNew _ _ _ _) as [[e2 x3] w2].
    + pose proof (front_new x1 wl Hl Hx1 Hv1) as Ha. by destruct (readNew _ _ _ _) as [[e2 x3] w2].
  - injection Hf as -> Hf. change (take redisBatch (m :: l)) with (m :: take 63 l) in Hr.
    pose proof (dispatch_front (take 63 l) x1 wl Hl Hx1) as Ha. unfold attempted in *. destruct (handler (toRedisRecord t m) wl.1) as [[] w'].
    + apply (poll_keeps_after traced (fun wl => exists l, wl.2 = (toRedisRecord t m, w') :: l)); [intros; by apply traced_keeps|].
      rewrite Ht. cbn [each_topic]. apply (next_keeps (fun wl => exists l, wl.2 = (toRedisRecord t m, w') :: l)); [|done]. unfold readInto. by rewrite Hr.
    + unfold poll. rewrite Ht. cbn [each_topic]. unfold readInto. rewrite Hr. destruct (dispatchStreams _ _ _ _) as [[e x2] w2].
      cbn [fst snd] in Ha. destruct Ha as (-> & -> & Hx2). by cbn.
Qed.

(** With [n] failures to come, more polls than that see the entry accepted. *)
Lemma front_run (G : nat -> W -> Prop) (accepted : W -> Prop) times c n w :
  (forall n w, G n w -> let '(ok, w') := handler (toRedisRecord t m) w in if ok then accepted w' else exists n', (n' < n)%nat /\ G n' w') ->
  rc_topics c = [t] -> at_front (rc_store c) -> G n w -> (n < length times)%nat ->
  exists w' l, (run_redis traced fuel times c (w, [])).2.2 = (toRedisRecord t m, w') :: l /\ accepted w'.
Proof using Hrel.
  intros Hstep. revert c n w. induction times as [|clock times IH]; intros c n w Ht Hx Hn Hlen; cbn [length] in Hlen; [lia|]. cbn [run_redis].
  pose proof (front_poll clock c (w, []) Ht eq_refl Hx) as Ha. pose proof (poll_topics clock c (w, [])) as Htop.
  destruct (poll traced fuel clock c (w, [])) as [[e c'] wl']. cbn [fst snd] in Ha, Htop. unfold attempted in Ha. cbn [fst] in Ha.
  specialize (Hstep n w Hn). destruct (handler _ w) as [[] w'].
  - exists w'. pose proof (run_keeps (S:=Shared S) traced (fun wl => exists l, wl.2 = (toRedisRecord t m, w') :: l)) as Hk.
    destruct (Hk (fun rec wl H => traced_keeps _ rec wl H) fuel times c' wl' Ha) as [l Hl]. by exists l.
  - destruct Hstep as (n' & Hn' & HG), Ha as (_ & Hwl & Hx'). cbn [fst snd] in Hwl, Hx'. subst wl'. apply (IH c' n'); [congruence|done|done|cbn [fst snd] in *; lia].
Qed.
End front.

(** C8: over Redis, failures of the database are masked end to end.  Take the oldest check result that
    the stream holds for the service, delivered before or not, with any entries behind it and others
    being added between any two commands (fewer than 10000, so that it is not trimmed), no entries
    held by another consumer, and a Redis that answers.  Calls to the database fail before they are
    carried out, or are carried out and lose their answer.  Once the consumer has polled more often
    than calls fail, the first record it has accepted is that result, and at that moment the tables
    are those of a run without failures; so are the events, unless an answer was lost, in which case
    there may be none. *)
Theorem alerting_over_redis_masks_faults {R} `{!StreamGroup R} `{!StreamLaws R} decode sha now cipher fuel times t m rest pre post (c : redisConsumer (Shared R)) ev db fs db1 msgs :
  reliable (S:=R) fuel -> rc_topics c = [t] ->
  own (sh_store (rc_store c)) t ++ fresh (sh_store (rc_store c)) t = m :: rest -> other (sh_store (rc_store c)) t = [] ->
  stream (sh_store (rc_store c)) t = pre ++ m :: post ->
  Z.of_nat (length post + sends_to t (concat (sh_adds (rc_store c)))) < redisStreamMaxLen ->
  decode (br_Value (toRedisRecord t m)) = Some ev -> wf db -> (length fs < length times)%nat ->
  handle (S:=DB) (AlertStore0:=db_store cipher) sha now true (Some ev) db = (Ok tt, db1, msgs) ->
  let r := run_redis (traced (alert_handler (AlertStore0:=faulty_store (AlertStore0:=db_store cipher)) decode sha now)) fuel times c
             ((mkFaulty db fs, []), []) in
  exists s' events later, r.2.2 = (toRedisRecord t m, (s', events)) :: later /\
    same_tables (f_store s') db1 /\ (events = msgs \/ events = [] /\ AnswerLost ∈ fs).
Proof.
  intros Hrel Ht Hfirst Hother Hst Hlen Hdec Hwf Hn Hh. cbv zeta.
  set (G := fun n (w : Faulty DB * list NotifyMessage) => outstanding sha now cipher ev db1 msgs (AnswerLost ∈ fs) (f_store w.1) /\
    (AnswerLost ∈ f_faults w.1 -> AnswerLost ∈ fs) /\ (length (f_faults w.1) <= n)%nat /\ w.2 = []).
  destruct (front_run (alert_handler (AlertStore0:=faulty_store (AlertStore0:=db_store cipher)) decode sha now) fuel t m Hrel G
    (fun w => same_tables (f_store w.1) db1 /\ (w.2 = msgs \/ w.2 = [] /\ AnswerLost ∈ fs)) times c (length fs) (mkFaulty db fs, [])) as ([s' events] & later & Hr & Hacc).
  - intros n [[db' fs'] l] (Hout & Hlost & Hle & Hl). cbn [fst snd f_store f_faults] in *. unfold alert_handler. rewrite Hdec. cbn [fst snd].
    pose proof (attempt_outstanding sha now cipher ev db1 msgs _ db' fs' Hout Hlost) as Ha. rewrite Hl.
    destruct (handle _ _ _ _ (mkFaulty db' fs')) as [[[u|e] s'] ms]; [done|]. destruct Ha as (-> & Hout' & Hlt & Hlost').
    exists (length (f_faults s')). split; [lia|]. by split_and!.
  - done.
  - split; [|split; [by exists rest|done]]. split; [|by exists pre, post]. unfold backlog. rewrite Hother. cbn [app]. rewrite Hfirst. left.
  - split_and!; [|done|done|done]. split; [done|]. left. cbn [fst f_store]. by rewrite Hh.
  - done.
  - by exists s', events, later.
Qed.

(** C14: a check result of a monitor that is gone stops alerting until its entry is trimmed.  Its row
    breaks the foreign key each time, so over Redis it stays at the head of the consumer's pending
    entries: however often the consumer polls, and while other processes add entries between any two
    of its commands, no other result of any org is applied and no event is emitted, as long as fewer
    than 10000 entries are behind it in its stream. *)
Theorem orphan_result_stops_alerting {R} `{!StreamGroup R} `{!StreamLaws R} decode sha now cipher fuel times t ts m rest pre post (c : redisConsumer (Shared R)) ev db l :
  rc_topics c = t :: ts -> own (sh_store (rc_store c)) t = m :: rest -> stream (sh_store (rc_store c)) t = pre ++ m :: post ->
  Z.of_nat (length post + sends_to t (concat (sh_adds (rc_store c)))) < redisStreamMaxLen ->
  decode (br_Value (toRedisRecord t m)) = Some ev -> wf db -> monitors db !! r_MonitorID (cre_Result ev) = None ->
  let r := run_redis (alert_handler (AlertStore0:=db_store cipher) decode sha now) fuel times c (db, l) in
  same_tables r.2.1 db /\ r.2.2 = l /\ exists rest', own (sh_store (rc_store r.1)) t = m :: rest'.
Proof.
  intros Ht Hown Hst Hlen Hdec Hwf Hm.
  set (P := fun w : DB * list NotifyMessage => wf w.1 /\ same_tables w.1 db /\ w.2 = l).
  assert (forall w, P w -> (alert_handler (AlertStore0:=db_store cipher) decode sha now (toRedisRecord t m) w).1 = false /\
    P (alert_handler (AlertStore0:=db_store cipher) decode sha now (toRedisRecord t m) w).2) as Hfail.
  { intros [db0 l0] (Hwf0 & Hs0 & Hl0). unfold alert_handler. rewrite Hdec. cbn [fst snd] in *.
    destruct (handle_orphan sha now cipher true ev db0 Hwf0) as (db' & -> & Hs & Hle).
    { destruct Hs0 as (-> & _). done. }
    cbn. split; [done|]. split; [by eapply same_tables_wf|]. split; [|by rewrite app_nil_r]. cbn. unfold same_tables in *. intuition congruence. }
  destruct (stalled_run _ P t m Hfail fuel times c (db, l) ts Ht) as [[_ Hh] (_ & Hs & Hl)]; [|by split_and!|done].
  split; [|by eauto]. split; [unfold backlog; rewrite Hown; set_solver|by exists pre, post].
Qed.

(** ** Kafka *)

Section kafka.
Context {K W : Type} `{!KafkaClient K} (handler : BusRecord -> W -> bool * W).

Lemma each_record_prefix rs w ok handed w' : each_record handler rs w = (ok, handed, w') ->
  exists rest, rs = handed ++ rest /\ (ok = true -> rest = []) /\
    (ok = false -> exists pre r w0, handed = pre ++ [r] /\ (handler (toKafkaRecord r) w0).1 = false).
Proof.
  revert w ok handed w'. induction rs as [|r rs IH]; intros w ok handed w'; cbn [each_record].
  - intros [= <- <- <-]. by exists [].
  - destruct (handler (toKafkaRecord r) w) as [b w1] eqn:Hh. destruct b; cbn [negb].
    + destruct (each_record handler rs w1) as [[all h] w2] eqn:He. intros [= <- <- <-]. destruct (IH _ _ _ _ He) as (rest & -> & Hok & Hko).
      exists rest. split; [done|]. split; [done|]. intros Hf. destruct (Hko Hf) as (pre & r' & w0 & -> & Hr). by exists (r :: pre), r', w0.
    + intros [= <- <- <-]. exists rs. split; [done|]. split; [done|]. intros _. exists [], r, w. by rewrite Hh.
Qed.

(** A poll that fails on a record stops there: the records before it were accepted, those after it in
    the fetch are not handed over; and nothing of a fetch in which a partition reports an error is. *)
Theorem kafka_poll_stops_at_first_failure k w f k1 e handed k' w' :
  PollFetches k = (f, k1) -> kafka_poll handler false k w = (Some e, handed, k', w') ->
  if ft_errors f then handed = []
  else exists pre r rest w0, ft_records f = pre ++ r :: rest /\ handed = pre ++ [r] /\ (handler (toKafkaRecord r) w0).1 = false.
Proof.
  intros Hf Hp. unfold kafka_poll in Hp. rewrite Hf in Hp. destruct (ft_errors f); [by injection Hp|].
  destruct (each_record handler (ft_records f) w) as [[ok h] w1] eqn:He. destruct ok; [done|]. injection Hp as _ <- _.
  apply each_record_prefix in He as (rest & Hrec & _ & Hko). destruct (Hko eq_refl) as (pre & r & w0 & -> & Hr).
  exists pre, r, rest, w0. rewrite Hrec, <- app_assoc. done.
Qed.
End kafka.

(** What is produced is what is consumed: the record and the headers of the trace. *)
Theorem produced_is_consumed trace topic key value id :
  trace !! "key" = None -> trace !! "value" = None ->
  let m := mkXMessage id (produce_values trace key value) in toRedisRecord topic m = mkRecord topic key value /\ redisHeaders m = trace.
Proof.
  intros Hk Hv. cbv zeta. unfold toRedisRecord, redisHeaders, produce_values. cbn [xm_Values]. split.
  - rewrite !lookup_union_r by done. rewrite lookup_insert_eq, lookup_insert_ne, lookup_singleton_eq by done. done.
  - rewrite !delete_union, delete_insert_ne, delete_singleton_eq, delete_insert_eq, delete_empty by done.
    rewrite map_union_empty. rewrite !delete_id; [done|done|]. by rewrite lookup_delete_ne.
Qed.
