(* ===== verification/BusSim.v ===== *)
(** * BusSim: a stream server that keeps its promises, and a Kafka client

    Executable instances of the interfaces of [Bus] with the laws of [BusInv], and the theorems of
    the bus on concrete streams. *)

From S2P Require Import Prelude Domain Store StoreInv AlertingService Bus BusInv.
Open Scope Z_scope.

(** ** Streams *)

Inductive Status := SOwn | SOther | SDone.
#[export] Instance Status_eq_dec : EqDecision Status.
Proof. solve_decision. Defined.

(** A stream for its group: the status of the entries that were trimmed, the entries that were
    delivered with their status, and those that were not.  The id of an entry is its index. *)
Record Topic := mkTopic { tp_gone : list Status; tp_seen : list (gmap string string * Status); tp_fresh : list (gmap string string) }.
Abbreviation RedisSim := (gmap string Topic).
Definition no_topic : Topic := mkTopic [] [] [].

Definition delivered (e : Topic) : list (gmap string string * Status) := ((fun st => (∅, st)) <$> tp_gone e) ++ tp_seen e.

Fixpoint pick (st : Status) (i : nat) (l : list (gmap string string * Status)) : list XMessage :=
  match l with
  | [] => []
  | (v, st') :: l' => if bool_decide (st' = st) then mkXMessage (pretty i) v :: pick st (S i) l' else pick st (S i) l'
  end.

Fixpoint number (i : nat) (l : list (gmap string string)) : list XMessage :=
  match l with [] => [] | v :: l' => mkXMessage (pretty i) v :: number (S i) l' end.

(** An addition trims what is over the cap. *)
Definition add_entry (n : Z) (v : gmap string string) (e : Topic) : Topic :=
  let k := Z.to_nat (Z.of_nat (length (tp_seen e) + length (tp_fresh e) + 1) - Z.max 0 n) in
  mkTopic (tp_gone e ++ (snd <$> take k (tp_seen e)) ++ replicate (k - length (tp_seen e)) SDone) (drop k (tp_seen e))
    (drop (k - length (tp_seen e)) (tp_fresh e ++ [v])).

Definition mark_new (n : nat) (e : Topic) : Topic :=
  mkTopic (tp_gone e) (tp_seen e ++ ((fun v => (v, SOwn)) <$> take n (tp_fresh e))) (drop n (tp_fresh e)).

(** New statuses of the delivered entries, by index. *)
Fixpoint mark_from (f : nat -> Status -> Status) (i : nat) (l : list (gmap string string * Status)) : list (gmap string string * Status) :=
  match l with [] => [] | (v, st) :: l' => (v, f i st) :: mark_from f (S i) l' end.
Definition mark (f : nat -> Status -> Status) (e : Topic) : Topic :=
  mkTopic (snd <$> mark_from f 0 ((fun st => (∅, st)) <$> tp_gone e)) (mark_from f (length (tp_gone e)) (tp_seen e)) (tp_fresh e).

Definition done_at (id : string) (i : nat) (st : Status) : Status := if String.eqb (pretty i) id then SDone else st.
Definition claimed_at (cut i : nat) (st : Status) : Status :=
  if bool_decide (i < cut)%nat then SDone else match st with SOther => SOwn | _ => st end.

Definition topic (s : RedisSim) (t : string) : Topic := default no_topic (s !! t).

#[export] Instance sim_group : StreamGroup RedisSim := {
  XAdd t n v s := (Ok tt, <[t := add_entry n v (topic s t)]> s);
  XReadOwn t s := (Ok (take redisBatch (pick SOwn 0 (delivered (topic s t)))), s);
  XReadNew ts s :=
    let res := filter (fun p => p.2 <> []) ((fun t => (t, take redisBatch (number (length (delivered (topic s t))) (tp_fresh (topic s t))))) <$> ts) in
    (if bool_decide (res = []) then Err RedisNil else Ok res,
     map_imap (fun t e => Some (if bool_decide (t ∈ ts) then mark_new redisBatch e else e)) s);
  XAutoClaim t start s :=
    let e := topic s t in
    (Ok (pick SOther (length (tp_gone e)) (tp_seen e), "0-0"), alter (fun e => mark (claimed_at (length (tp_gone e))) e) t s);
  XAck t id s := (Ok tt, alter (mark (done_at id)) t s);
}.

Lemma pick_app st i l1 l2 : pick st i (l1 ++ l2) = pick st i l1 ++ pick st (i + length l1) l2.
Proof.
  revert i. induction l1 as [|[v st'] l1 IH]; intros i; [cbn; by rewrite Nat.add_0_r|]. cbn [app pick length].
  rewrite IH, Nat.add_succ_l, <- Nat.add_succ_r. by case_bool_decide.
Qed.

Lemma pick_own i l : pick SOwn i ((fun v => (v, SOwn)) <$> l) = number i l.
Proof. revert i. induction l as [|v l IH]; intros i; [done|]. cbn. by rewrite IH. Qed.
Lemma pick_not_own i l : pick SOther i ((fun v => (v, SOwn)) <$> l) = [].
Proof. revert i. induction l as [|v l IH]; intros i; [done|]. cbn. by rewrite IH. Qed.
Lemma pick_done st i n : st <> SDone -> pick st i ((fun st => (∅, st)) <$> replicate n SDone) = [].
Proof. intros Hst. revert i. induction n as [|n IH]; intros i; [done|]. cbn. by rewrite bool_decide_eq_false_2 by auto. Qed.

Lemma number_app i l1 l2 : number i (l1 ++ l2) = number i l1 ++ number (i + length l1) l2.
Proof. revert i. induction l1 as [|v l1 IH]; intros i; cbn; [by rewrite Nat.add_0_r|]. by rewrite IH, Nat.add_succ_r. Qed.
Lemma number_drop i k l : number (i + k) (drop k l) = drop k (number i l).
Proof. revert i k. induction l as [|v l IH]; intros i [|k]; cbn; rewrite ?Nat.add_0_r, ?Nat.add_succ_r; try done. apply (IH (S i)). Qed.
Lemma number_take i k l : number i (take k l) = take k (number i l).
Proof. revert i k. induction l as [|v l IH]; intros i [|k]; cbn; [done..|]. by rewrite IH. Qed.
Lemma number_length i l : length (number i l) = length l.
Proof. revert i. induction l as [|v l IH]; intros i; cbn; [done|]. by rewrite IH. Qed.

(** *** Ids are indices *)

Lemma pick_id st i l m : m ∈ pick st i l -> exists j, (i <= j < i + length l)%nat /\ xm_ID m = pretty j.
Proof.
  revert i. induction l as [|[v st'] l IH]; intros i; cbn [pick length]; [set_solver|]. intros Hm.
  assert (m = mkXMessage (pretty i) v \/ m ∈ pick st (S i) l) as [->|Hin] by (case_bool_decide; set_solver).
  - exists i. split; [lia|done].
  - destruct (IH _ Hin) as (j & Hj & ->). exists j. split; [lia|done].
Qed.
Lemma number_id i l x : x ∈ xm_ID <$> number i l <-> exists j, (i <= j < i + length l)%nat /\ x = pretty j.
Proof.
  revert i. induction l as [|v l IH]; intros i; cbn [number fmap list_fmap length]; [set_unfold; naive_solver lia|].
  rewrite elem_of_cons, IH. cbn. split.
  - intros [->|(j & Hj & ->)]; [exists i|exists j]; split; (lia || done).
  - intros (j & Hj & ->). destruct (decide (j = i)) as [->|]; [by left|right; exists j; split; (lia || done)].
Qed.

Lemma pick_unique i l : NoDup (xm_ID <$> pick SOwn i l ++ pick SOther i l).
Proof.
  revert i. induction l as [|[v st] l IH]; intros i; [constructor|]. specialize (IH (S i)). rewrite !fmap_app in *.
  assert (pretty i ∉ (xm_ID <$> pick SOwn (S i) l) ++ (xm_ID <$> pick SOther (S i) l)) as Hi.
  { rewrite elem_of_app. intros [(m & He & (j & Hj & Hm)%pick_id)%list_elem_of_fmap|(m & He & (j & Hj & Hm)%pick_id)%list_elem_of_fmap];
      rewrite Hm in He; apply (inj pretty) in He; lia. }
  destruct st; cbn [pick]; repeat case_bool_decide; try done; rewrite ?fmap_cons; cbn [app].
  - by apply NoDup_cons.
  - rewrite <- Permutation_middle. by apply NoDup_cons.
Qed.

Lemma number_unique i l : NoDup (xm_ID <$> number i l).
Proof.
  revert i. induction l as [|v l IH]; intros i; [constructor|]. cbn. apply NoDup_cons. split; [|done].
  intros (j & Hj & He)%number_id. apply (inj pretty) in He. lia.
Qed.

(** *** What the operations do to the lists *)

Definition sim_stream (e : Topic) : list XMessage := number (length (tp_gone e)) ((fst <$> tp_seen e) ++ tp_fresh e).
Definition sim_pick (st : Status) (e : Topic) : list XMessage := pick st 0 (delivered e).
Definition sim_fresh (e : Topic) : list XMessage := number (length (delivered e)) (tp_fresh e).

Lemma mark_from_app f i l1 l2 : mark_from f i (l1 ++ l2) = mark_from f i l1 ++ mark_from f (i + length l1) l2.
Proof. revert i. induction l1 as [|[v st] l1 IH]; intros i; cbn; [by rewrite Nat.add_0_r|]. by rewrite IH, Nat.add_succ_r. Qed.
Lemma mark_from_length f i l : length (mark_from f i l) = length l.
Proof. revert i. induction l as [|[v st] l IH]; intros i; cbn; [done|]. by rewrite IH. Qed.
Lemma mark_from_fst f i l : fst <$> mark_from f i l = fst <$> l.
Proof. revert i. induction l as [|[v st] l IH]; intros i; cbn; [done|]. by rewrite IH. Qed.
Lemma mark_from_blank f i l : (fun st => (∅, st)) <$> (snd <$> mark_from f i ((fun st => (∅, st)) <$> l)) = mark_from f i ((fun st : Status => (∅ : gmap string string, st)) <$> l).
Proof. revert i. induction l as [|st l IH]; intros i; cbn; [done|]. by rewrite IH. Qed.

Lemma delivered_mark f e : delivered (mark f e) = mark_from f 0 (delivered e).
Proof. unfold delivered, mark. cbn. by rewrite mark_from_blank, mark_from_app, length_fmap. Qed.
Lemma stream_mark f e : sim_stream (mark f e) = sim_stream e.
Proof. unfold sim_stream, mark. cbn. by rewrite mark_from_fst, length_fmap, mark_from_length, length_fmap. Qed.
Lemma fresh_mark f e : sim_fresh (mark f e) = sim_fresh e.
Proof. unfold sim_fresh. by rewrite delivered_mark, mark_from_length. Qed.

Lemma pick_marked_done st id i l : st <> SDone -> pick st i (mark_from (done_at id) i l) = filter (fun m => xm_ID m <> id) (pick st i l).
Proof.
  intros Hst. revert i. induction l as [|[v st'] l IH]; intros i; [done|]. cbn [mark_from pick]. rewrite IH. unfold done_at.
  destruct (String.eqb_spec (pretty i) id) as [He|He].
  - rewrite (bool_decide_eq_false_2 (SDone = st)) by auto. case_bool_decide; [|done]. by rewrite filter_cons_False by (cbn; tauto).
  - case_bool_decide; [|done]. by rewrite filter_cons_True.
Qed.

Lemma pick_claimed_gone cut st i l : st <> SDone -> (i + length l <= cut)%nat -> pick st i (mark_from (claimed_at cut) i l) = [].
Proof.
  intros Hst. revert i. induction l as [|[v st'] l IH]; intros i Hi; [done|]. cbn [length mark_from pick] in *. rewrite IH by lia. unfold claimed_at.
  rewrite (bool_decide_eq_true_2 (i < cut)%nat) by lia. by rewrite bool_decide_eq_false_2 by auto.
Qed.

Lemma pick_claimed_seen cut i l : (cut <= i)%nat ->
  pick SOwn i (mark_from (claimed_at cut) i l) ≡ₚ pick SOwn i l ++ pick SOther i l /\ pick SOther i (mark_from (claimed_at cut) i l) = [].
Proof.
  revert i. induction l as [|[v st] l IH]; intros i Hi; [done|]. destruct (IH (S i) ltac:(lia)) as [Ho Hw]. cbn [mark_from pick]. rewrite Hw.
  assert (claimed_at cut i st = match st with SOther => SOwn | _ => st end) as -> by (unfold claimed_at; by rewrite bool_decide_eq_false_2 by lia).
  destruct st; cbn [pick]; repeat case_bool_decide; try done; rewrite ?Ho; split; try done. apply Permutation_middle.
Qed.

Lemma sim_claim e : let e' := mark (claimed_at (length (tp_gone e))) e in let claimed := pick SOther (length (tp_gone e)) (tp_seen e) in
  sim_pick SOther e ≡ₚ claimed ++ pick SOther 0 ((fun st => (∅, st)) <$> tp_gone e) ++ sim_pick SOther e' /\
  sim_pick SOwn e ++ claimed ≡ₚ pick SOwn 0 ((fun st => (∅, st)) <$> tp_gone e) ++ sim_pick SOwn e' /\ claimed ⊆ sim_pick SOwn e'.
Proof.
  cbv zeta. unfold sim_pick. rewrite delivered_mark. unfold delivered. rewrite mark_from_app, !pick_app, mark_from_length, !length_fmap. cbn [Nat.add].
  rewrite (pick_claimed_gone _ SOwn), (pick_claimed_gone _ SOther) by (done || by rewrite length_fmap).
  destruct (pick_claimed_seen (length (tp_gone e)) (length (tp_gone e)) (tp_seen e)) as [Ho ->]; [done|]. rewrite Ho.
  split; [|split].
  - rewrite !app_nil_r. apply Permutation_app_comm.
  - by rewrite <- app_assoc.
  - set_solver.
Qed.

Lemma sim_mark_new n e : sim_pick SOwn (mark_new n e) = sim_pick SOwn e ++ take n (sim_fresh e) /\
  sim_fresh (mark_new n e) = drop n (sim_fresh e) /\ sim_pick SOther (mark_new n e) = sim_pick SOther e /\ sim_stream (mark_new n e) = sim_stream e.
Proof.
  unfold sim_pick, sim_fresh, sim_stream, mark_new, delivered. cbn. rewrite !app_assoc, !pick_app, pick_own, pick_not_own, app_nil_r, number_take.
  cbn [Nat.add]. split; [by rewrite length_app, length_fmap|]. split; [|split; [done|]].
  - rewrite <- number_drop, !length_app, !length_fmap, length_take. destruct (decide (n <= length (tp_fresh e))%nat); [f_equal; lia|].
    by rewrite !drop_ge by lia.
  - rewrite fmap_app, <- list_fmap_compose, <- app_assoc. f_equal. f_equal. cbn. by rewrite list_fmap_id, take_drop.
Qed.
(** *** An addition *)

(** The entries below the index [c] lose their values. *)
Lemma pick_cut (keep : string -> bool) st c i l :
  (forall j, (i <= j < i + length l)%nat -> keep (pretty j) = bool_decide (c <= j)%nat) ->
  (fun m => if keep (xm_ID m) then m else mkXMessage (xm_ID m) ∅) <$> pick st i l =
  pick st i (((fun x => (∅, x.2)) <$> take (c - i) l) ++ drop (c - i) l).
Proof.
  revert i. induction l as [|[v st'] l IH]; intros i Hkeep; [by rewrite take_nil, drop_nil|]. cbn [pick length] in *.
  specialize (IH (S i) ltac:(intros j Hj; apply Hkeep; lia)). pose proof (Hkeep i ltac:(lia)) as Hi. clear Hkeep.
  destruct (decide (c <= i)%nat) as [Hc|Hc]; [rewrite bool_decide_eq_true_2 in Hi by done|rewrite bool_decide_eq_false_2 in Hi by done].
  - replace (c - i)%nat with 0%nat by lia. replace (c - S i)%nat with 0%nat in IH by lia. cbn in IH |- *.
    case_bool_decide; cbn; [|done]. by rewrite Hi, IH.
  - replace (c - i)%nat with (S (c - S i)) by lia. cbn. case_bool_decide; cbn; [|apply IH]. by rewrite Hi, IH.
Qed.

Lemma blank_blank (l : list (gmap string string * Status)) : ((fun x => (∅ : gmap string string, x.2)) <$> l) = (fun st => (∅, st)) <$> (snd <$> l).
Proof. rewrite <- list_fmap_compose. done. Qed.

Lemma filter_all_in {A} (P : A -> Prop) `{!forall x, base.Decision (P x)} (l : list A) : (forall x, x ∈ l -> P x) -> filter P l = l.
Proof. intros Hl. induction l as [|x l IH]; [done|]. rewrite filter_cons_True by (apply Hl; left). f_equal. apply IH. intros y Hy. apply Hl. by right. Qed.

Lemma filter_in_drop {A} `{!EqDecision A} k (l : list A) : NoDup l -> filter (fun x => x ∈ drop k l) l = drop k l.
Proof.
  revert k. induction l as [|x l IH]; intros k; [by rewrite drop_nil|]. intros [Hx Hnd]%NoDup_cons. destruct k as [|k]; cbn [drop].
  - by apply filter_all_in.
  - rewrite filter_cons_False; [by apply IH|]. intros Hin. apply Hx. by eapply subseteq_drop.
Qed.

Lemma filter_drop_drop {A} `{!EqDecision A} k s (l : list A) : NoDup l -> filter (fun x => x ∈ drop k l) (drop s l) = drop (k - s) (drop s l).
Proof.
  intros Hnd. destruct (decide (k <= s)%nat) as [Hk|Hk].
  - replace (k - s)%nat with 0%nat by lia. apply filter_all_in. intros x Hx. replace s with (k + (s - k))%nat in Hx by lia.
    rewrite <- drop_drop in Hx. by eapply subseteq_drop.
  - replace (drop k l) with (drop (k - s) (drop s l)) by (rewrite drop_drop; f_equal; lia). apply filter_in_drop.
    rewrite <- (take_drop s l) in Hnd. by apply NoDup_app in Hnd as (_ & _ & Hnd).
Qed.

(** An addition: the lists of the stream after it. *)
Lemma sim_add n v e : let e' := add_entry n v e in let new := mkXMessage (pretty (length (delivered e) + length (tp_fresh e))%nat) v in
  exists k, sim_stream e' = drop k (sim_stream e ++ [new]) /\ (k = 0%nat \/ n <= Z.of_nat (length (sim_stream e'))) /\
    (forall st, st <> SDone -> sim_pick st e' = trimmed (sim_stream e') <$> sim_pick st e) /\
    sim_fresh e' = filter (fun m => m ∈ sim_stream e') (sim_fresh e ++ [new]).
Proof.
  cbv zeta. set (new := mkXMessage _ v). unfold add_entry. set (k := Z.to_nat _). set (e' := mkTopic _ _ _). exists k.
  set (all := number (length (tp_gone e)) ((fst <$> tp_seen e) ++ tp_fresh e ++ [v])).
  assert (length (delivered e) = length (tp_gone e) + length (tp_seen e))%nat as Hdel by (unfold delivered; by rewrite length_app, length_fmap).
  assert (sim_stream e ++ [new] = all) as Hall.
  { unfold sim_stream, all, new. rewrite Hdel, app_assoc, (number_app _ (_ ++ _)), length_app, length_fmap. cbn [number]. do 4 f_equal. lia. }
  assert (length (tp_gone e') = length (tp_gone e) + k)%nat as Hgone.
  { unfold e'. cbn. rewrite !length_app, length_fmap, length_take, length_replicate. lia. }
  assert (sim_stream e' = drop k all) as Hst.
  { unfold sim_stream, all. rewrite Hgone, <- number_drop. f_equal. unfold e'. cbn [tp_seen tp_fresh]. by rewrite (skipn_app k (fst <$> tp_seen e)), length_fmap, fmap_drop. }
  assert (length (sim_stream e') = length (tp_seen e) + length (tp_fresh e) + 1 - k)%nat as Hlen.
  { rewrite Hst. unfold all. rewrite length_drop, number_length, !length_app, length_fmap. cbn. lia. }
  split; [by rewrite Hall|]. split; [lia|]. split.
  - intros st Hdone. set (keep := fun id : string => bool_decide (id ∈ xm_ID <$> sim_stream e')).
    unfold sim_pick. symmetry. etrans; [apply (pick_cut keep st (length (tp_gone e) + k))|].
    + intros j [_ Hj]. unfold keep. apply bool_decide_ext. rewrite Hst. unfold all. rewrite <- number_drop, number_id, length_drop, !length_app, length_fmap. cbn [length].
      rewrite Hdel in Hj. split; [intros (i & Hi & He); apply (inj pretty) in He; lia|]. intros Hk. exists j. split; [lia|done].
    + symmetry. rewrite Nat.sub_0_r. unfold delivered at 2 3. rewrite firstn_app, skipn_app, length_fmap, (take_ge (_ <$> _)), (drop_ge (_ <$> _)) by (rewrite length_fmap; lia).
      replace (length (tp_gone e) + k - length (tp_gone e))%nat with k by lia. cbn [app].
      unfold delivered, e'. cbn [tp_gone tp_seen]. rewrite !fmap_app, blank_blank, <- !list_fmap_compose, <- !app_assoc. cbn.
      rewrite !pick_app, pick_done by done. cbn [app]. do 2 f_equal.
      destruct (decide (k <= length (tp_seen e))%nat) as [Hk|Hk]; [|by rewrite !drop_ge by lia].
      replace (k - length (tp_seen e))%nat with 0%nat by lia. cbn. by rewrite Nat.add_0_r.
  - rewrite Hst.
    assert (sim_fresh e ++ [new] = drop (length (tp_seen e)) all) as ->.
    { unfold all, sim_fresh, new. rewrite <- number_drop, drop_app_length' by (by rewrite length_fmap).
      rewrite Hdel, number_app. done. }
    rewrite filter_drop_drop by (by eapply (NoDup_fmap_1 xm_ID), number_unique).
    unfold all. rewrite <- number_drop, drop_app_length' by (by rewrite length_fmap). rewrite <- number_drop. unfold sim_fresh, e', delivered. cbn [tp_gone tp_seen tp_fresh].
    f_equal. rewrite !length_app, ?length_fmap, ?length_app, ?length_fmap, ?length_take, ?length_drop, ?length_replicate. lia.
Qed.

#[export] Instance sim_laws : StreamLaws RedisSim.
Proof.
  refine {| stream s t := sim_stream (topic s t); own s t := sim_pick SOwn (topic s t); other s t := sim_pick SOther (topic s t);
            fresh s t := sim_fresh (topic s t); scan_left _ _ _ := O |}.
  - intros s t. unfold sim_pick, sim_fresh. rewrite app_assoc, fmap_app. apply NoDup_app. split; [apply pick_unique|]. split; [|apply number_unique].
    intros x Hx (j & Hj & ->)%number_id. apply list_elem_of_fmap in Hx as (m & He & Hm).
    assert (exists i, (i < length (delivered (topic s t)))%nat /\ xm_ID m = pretty i) as (i & Hi & Hm').
    { apply elem_of_app in Hm as [Hm|Hm]; apply pick_id in Hm as (i & Hi & Hm); exists i; (split; [lia|done]). }
    rewrite Hm' in He. apply (inj pretty) in He. lia.
  - intros t n v s r s' [= <- <-]. split; [intros t' Ht; unfold topic; by rewrite lookup_insert_ne|]. split; [right|done].
    assert (topic (<[t := add_entry n v (topic s t)]> s) t = add_entry n v (topic s t)) as -> by (unfold topic; by rewrite lookup_insert_eq).
    destruct (sim_add n v (topic s t)) as (k & Hs & Hk & Hp & Hf). eexists _, k. split; [exact Hs|]. split; [done|]. split; [by apply Hp|]. split; [by apply Hp|exact Hf].
  - intros s s' t [(t' & r & [= _ <-])|[(ts & r & [= _ <-])|[(t' & start & r & [= _ <-])|(t' & id & r & [= _ <-])]]]; [done|..].
    + unfold topic. rewrite map_lookup_imap. destruct (s !! t) as [e|]; cbn; [|done]. case_bool_decide; [apply sim_mark_new|done].
    + unfold topic. destruct (decide (t = t')) as [->|]; [|by rewrite lookup_alter_ne]. rewrite lookup_alter_eq. destruct (s !! t'); cbn; [apply stream_mark|done].
    + unfold topic. destruct (decide (t = t')) as [->|]; [|by rewrite lookup_alter_ne]. rewrite lookup_alter_eq. destruct (s !! t'); cbn; [apply stream_mark|done].
  - intros t s r s' [= <- <-]. done.
  - intros ts s r s' [= <- <-]. exists (fun t => if bool_decide (t ∈ ts) then redisBatch else O).
    assert (forall t, topic (map_imap (fun t e => Some (if bool_decide (t ∈ ts) then mark_new redisBatch e else e)) s) t =
      if bool_decide (t ∈ ts) then mark_new redisBatch (topic s t) else topic s t) as He.
    { intros t. unfold topic. rewrite map_lookup_imap. destruct (s !! t); cbn; by case_bool_decide. }
    split.
    + intros t. rewrite He. case_bool_decide; [|by rewrite take_0, drop_0, app_nil_r].
      destruct (sim_mark_new redisBatch (topic s t)) as (H1 & H2 & H3 & _). done.
    + case_bool_decide as Hres; [|by split; [intros t Ht; rewrite bool_decide_eq_true_2|]].
      intros t Ht. destruct (sim_fresh (topic s t)) as [|x l] eqn:Hl; [done|]. exfalso.
      assert ((t, take redisBatch (sim_fresh (topic s t))) ∈ []) as Hin; [|by apply not_elem_of_nil in Hin].
      rewrite <- Hres. apply list_elem_of_filter. split; [by rewrite Hl|]. apply list_elem_of_fmap. by exists t.
  - intros t start s r s' [= <- <-]. eexists _, _, _.
    assert (topic (alter (fun e => mark (claimed_at (length (tp_gone e))) e) t s) t = mark (claimed_at (length (tp_gone (topic s t)))) (topic s t)) as ->.
    { unfold topic. rewrite lookup_alter_eq. by destruct (_ !! t). }
    destruct (sim_claim (topic s t)) as (Ho & Hw & Hc). split; [exact Ho|]. split; [exact Hw|]. split; [apply fresh_mark|].
    split; [intros t' Ht; unfold topic; by rewrite lookup_alter_ne|]. split; [|by split].
    intros m Hm Hin. assert (exists i, (i < length (tp_gone (topic s t)))%nat /\ xm_ID m = pretty i) as (i & Hi & Hm').
    { apply elem_of_app in Hm as [Hm|Hm]; apply pick_id in Hm as (i & Hi & Hm); exists i; rewrite length_fmap in Hi; (split; [lia|done]). }
    apply (list_elem_of_fmap_2 xm_ID) in Hin. unfold sim_stream in Hin. apply number_id in Hin as (j & Hj & He). rewrite Hm' in He. apply (inj pretty) in He. lia.
  - intros t id s r s' [= <- <-].
    assert (topic (alter (mark (done_at id)) t s) t = mark (done_at id) (topic s t)) as He.
    { unfold topic. rewrite lookup_alter_eq. by destruct (_ !! t). }
    assert (forall t', t' <> t -> topic (alter (mark (done_at id)) t s) t' = topic s t') as Hn.
    { intros t' Ht. unfold topic. by rewrite lookup_alter_ne. }
    split; [|split; [left|done]].
    + intros t'. destruct (decide (t' = t)) as [->|Ht]; [|by rewrite Hn]. split; [|done]. rewrite He. apply fresh_mark.
    + rewrite He. unfold sim_pick. rewrite delivered_mark, !pick_marked_done by done. done.
Defined.

Lemma sim_reliable : reliable (S:=RedisSim) 1.
Proof. split_and!; intros; cbn; [eauto|by case_bool_decide|eauto|eauto|lia]. Qed.

(** ** Kafka *)

(** One partition and how far the client is; a poll returns two records. *)
Record KafkaSim := mkKafkaSim { ks_log : list string; ks_pos : nat }.
Definition sim_record (i : nat) (v : string) : KafkaRecord := mkKafkaRecord "check.results" 0 (Z.of_nat i) "" v ∅.
Definition sim_fetch (k : KafkaSim) : list KafkaRecord := imap (fun i v => sim_record (ks_pos k + i) v) (take 2 (drop (ks_pos k) (ks_log k))).
#[export] Instance sim_client : KafkaClient KafkaSim := {
  PollFetches k := (mkFetches false (sim_fetch k), mkKafkaSim (ks_log k) (ks_pos k + length (sim_fetch k)));
}.

(** ** The theorems on concrete streams *)

(** A stream with one entry pending on this consumer, one on a dead one and one not read yet, to
    which another process adds three. *)
Definition bx_values (v : string) : gmap string string := produce_values ∅ "1" v.
Definition bx_add (v : string) : Production := mkProduction ∅ "check.results" "1" v.
Definition bx_store : RedisSim := {[ "check.results" := mkTopic [] [(bx_values "a", SOwn); (bx_values "b", SOther)] [bx_values "c"] ]}.
Definition bx_consumer : redisConsumer (Shared RedisSim) :=
  mkRedisConsumer ["check.results"] 0 (mkShared bx_store [[bx_add "d"]; []; [bx_add "e"; bx_add "f"]]).
(** It refuses the value b. *)
Definition bx_handler (rec : BusRecord) (w : Z) : bool * Z := (negb (String.eqb (br_Value rec) "b"), w + 1).

Lemma redis_loses_nothing_witness :
  let r := run_redis (logged bx_handler) 1 [60 * Second; 120 * Second] bx_consumer (0, []) in
  let b := mkXMessage "1" (bx_values "b") in
  br_Value <$> r.2.2 = ["a"] /\ (b ∈ backlog (sh_store (rc_store r.1)) "check.results" \/ toRedisRecord "check.results" b ∈ r.2.2).
Proof.
  split; [vm_compute; reflexivity|].
  apply (redis_loses_nothing bx_handler "check.results" (mkXMessage "1" (bx_values "b")) 1 [60 * Second; 120 * Second] bx_consumer 0
    [mkXMessage "0" (bx_values "a")] [mkXMessage "2" (bx_values "c")]).
  - apply (bool_decide_unpack _). vm_compute. exact I.
  - vm_compute. reflexivity.
  - vm_compute. reflexivity.
Defined.

(** The cap does cost entries: with room for two, the entry that was delivered and not acknowledged
    comes back without its values. *)
Example trimmed_entry_is_lost :
  let s := (XAdd "check.results" 2 (bx_values "d") bx_store).2 in
  stream s "check.results" = [mkXMessage "2" (bx_values "c"); mkXMessage "3" (bx_values "d")] /\
  own s "check.results" = [mkXMessage "0" ∅] /\ toRedisRecord "check.results" (mkXMessage "0" ∅) = mkRecord "check.results" "" "".
Proof. vm_compute. repeat split. Qed.

Definition bx_backlog : redisConsumer RedisSim :=
  mkRedisConsumer ["check.results"] 0 {[ "check.results" := mkTopic [] (replicate 70 (bx_values "a", SOwn)) (replicate 50 (bx_values "c")) ]}.

Lemma redis_catches_up_witness :
  waiting (rc_store bx_backlog) "check.results" = 120%nat /\
  waiting (rc_store (run_redis (fun _ (w : Z) => (true, w)) 1 [1; 2] bx_backlog 0).1) "check.results" = 0%nat.
Proof.
  split; [vm_compute; reflexivity|]. apply Nat.le_0_r.
  apply (redis_catches_up (S:=RedisSim) (fun _ (w : Z) => (true, w)) 1 sim_reliable (fun _ _ => eq_refl) [1; 2] bx_backlog 0 "check.results").
  - apply NoDup_singleton.
  - intros t. destruct (decide (t = "check.results")) as [->|Ht]; [vm_compute; reflexivity|].
    unfold other, sim_laws, topic. cbn [rc_store bx_backlog]. by rewrite lookup_singleton_ne.
  - left.
Defined.

(** A failing check is delivered and another waits behind it while six calls to the database fail and
    a third is added. *)
Definition bx_result : redisConsumer (Shared RedisSim) :=
  mkRedisConsumer ["check.results"] 0
    (mkShared {[ "check.results" := mkTopic [] [(bx_values "e", SOwn)] [bx_values "f"] ]} [[]; [bx_add "g"]]).
Definition bx_decode (_ : string) : option CheckResultEvent := Some (ex_event 200 false).

Lemma alerting_over_redis_masks_faults_witness :
  let r := run_redis (traced (alert_handler (AlertStore0:=faulty_store (AlertStore0:=db_store (Some ex_cipher))) bx_decode id 500)) 1 (Z.of_nat <$> seq 0 7)
             bx_result ((mkFaulty ex_db_failing ex_faults, []), []) in
  exists s' events later, r.2.2 = (mkRecord "check.results" "1" "e", (s', events)) :: later /\
    same_tables (f_store s') ex_db_open /\ (events = [ex_down] \/ events = [] /\ AnswerLost ∈ ex_faults).
Proof.
  apply (alerting_over_redis_masks_faults (R:=RedisSim) bx_decode id 500 (Some ex_cipher) 1 (Z.of_nat <$> seq 0 7) "check.results" (mkXMessage "0" (bx_values "e"))
    [mkXMessage "1" (bx_values "f")] [] [mkXMessage "1" (bx_values "f")] bx_result (ex_event 200 false) ex_db_failing ex_faults ex_db_open [ex_down]);
    [apply sim_reliable|reflexivity|vm_compute; reflexivity|vm_compute; reflexivity|vm_compute; reflexivity|vm_compute; reflexivity|reflexivity|apply ex_db_failing_wf|cbn; lia|apply ex_second_failure].
Defined.

(** The same result in a database without its monitor. *)
Lemma orphan_result_stops_alerting_witness :
  let r := run_redis (alert_handler (AlertStore0:=db_store None) bx_decode id 500) 1 (Z.of_nat <$> seq 0 100) bx_result (empty_db, []) in
  same_tables r.2.1 empty_db /\ r.2.2 = [] /\ exists rest, own (sh_store (rc_store r.1)) "check.results" = mkXMessage "0" (bx_values "e") :: rest.
Proof.
  apply (orphan_result_stops_alerting (R:=RedisSim) bx_decode id 500 None 1 (Z.of_nat <$> seq 0 100) "check.results" [] (mkXMessage "0" (bx_values "e")) []
    [] [mkXMessage "1" (bx_values "f")] bx_result (ex_event 200 false) empty_db []);
    [reflexivity|vm_compute; reflexivity|vm_compute; reflexivity|vm_compute; reflexivity|reflexivity|apply wf_empty|reflexivity].
Defined.

Lemma kafka_poll_stops_at_first_failure_witness :
  let k := mkKafkaSim ["a"; "b"; "c"] 1 in
  exists pre r rest w0, [sim_record 1 "b"; sim_record 2 "c"] = pre ++ r :: rest /\ [sim_record 1 "b"] = pre ++ [r] /\ (bx_handler (toKafkaRecord r) w0).1 = false.
Proof.
  apply (kafka_poll_stops_at_first_failure bx_handler (mkKafkaSim ["a"; "b"; "c"] 1) (-1) (mkFetches false [sim_record 1 "b"; sim_record 2 "c"])
    (mkKafkaSim ["a"; "b"; "c"] 3) PollHandler [sim_record 1 "b"] (mkKafkaSim ["a"; "b"; "c"] 3) 0); vm_compute; reflexivity.
Defined.

Lemma produced_is_consumed_witness :
  let m := mkXMessage "0" (produce_values {[ "traceparent" := "00-1-2-01" ]} "7" "{}") in
  toRedisRecord "t" m = mkRecord "t" "7" "{}" /\ redisHeaders m = {[ "traceparent" := "00-1-2-01" ]}.
Proof. apply (produced_is_consumed {[ "traceparent" := "00-1-2-01" ]} "t" "7" "{}" "0"); reflexivity. Defined.
