(* ===== verification/Tokens.v ===== *)
(** * Tokens: access tokens, the operator's identity, identity providers and cookies
    (src/internal/authn/jwt.go, cfaccess.go, google.go, github.go, provider.go, cookies.go)

    The access token is signed and verified over the JWT library, which is a parameter with RSA; so
    are the OAuth exchange and the HTTP answers of the providers.  The key cache of the Cloudflare
    verifier is explicit state. *)

From S2P Require Import Prelude Domain GoStrings Crypto Login.
Open Scope Z_scope.

(** ** RSA keys and their JSON form *)

Record RSAPublicKey := mkRSA { rsa_N : Z; rsa_E : Z }.
#[export] Instance RSAPublicKey_eq_dec : EqDecision RSAPublicKey.
Proof. solve_decision. Defined.

(** [big.Int.Bytes] and [SetBytes]: big-endian, without leading zeroes. *)
Fixpoint le_bytes (fuel : nat) (z : Z) : list ascii :=
  match fuel with
  | O => []
  | S fuel' => if z <=? 0 then [] else ascii_of_N (Z.to_N (z mod 256)) :: le_bytes fuel' (z / 256)
  end.
Definition big_Bytes (z : Z) : list ascii := rev (le_bytes (Z.to_nat (Z.log2 z) + 1) z).
Definition of_bytes (l : list ascii) : Z := fold_left (fun acc b => acc * 256 + Z.of_N (N_of_ascii b)) l 0.

(** The loop over the exponent, on a 64-bit [int]: [e<<8 | int(b)]. *)
Definition exponent (l : list ascii) : Z := fold_left (fun e b => wrap64 (Z.lor (Z.shiftl e 8) (Z.of_N (N_of_ascii b)))) l 0.

Definition jwkToRSA (nB64 eB64 : string) : option RSAPublicKey :=
  nBytes ← base64url_decode nB64;
  eBytes ← base64url_decode eB64;
  let e := exponent eBytes in
  if e =? 0 then None else Some (mkRSA (of_bytes nBytes) e).

Record JWK := mkJWK { jk_Kty : string; jk_Use : string; jk_Alg : string; jk_Kid : string; jk_N : string; jk_E : string }.

(** ** The JWT library *)

Record TokenHeader := mkTokenHeader { th_alg : string; th_kid : option string }.
(** The claims of both tokens; dates are in seconds. *)
Record Claims := mkClaims {
  cl_Issuer : string; cl_Audience : list string; cl_Subject : string; cl_IssuedAt : option Z; cl_ExpiresAt : option Z; cl_NotBefore : option Z;
  cl_ID : string; cl_Email : string; cl_TokenUse : string;
}.
Inductive tokenError := ErrSigningMethod | ErrUnknownKid | ErrMissingKid | ErrLibrary | ErrTokenUse | ErrSubject | ErrNoToken | ErrNoEmail | ErrCerts.

Record ParseOptions := mkParseOptions { po_ValidMethods : list string; po_Issuer : string; po_Audience : string; po_Now : Time }.

(** The type assertion on the method. *)
Definition is_RSA (h : TokenHeader) : bool := bool_decide (th_alg h ∈ ["RS256"; "RS384"; "RS512"]).

(** [jwt.ParseWithClaims] with an expiration required; the key function may have an effect. *)
Definition Parser : Type :=
  forall St : Type, (TokenHeader -> St -> result tokenError RSAPublicKey * St) -> ParseOptions -> string -> St -> result tokenError Claims * St.

Definition tokenUseAccess : string := "access".
Definition accessTTL : Duration := 15 * Minute.

(** [fmt.Sscanf] with %d into an int64: blanks but no line break are skipped, then a sign and digits;
    what follows is not looked at. *)
Fixpoint digit_run (s : string) : string :=
  match s with
  | EmptyString => ""
  | String a s' => if byte_in 48 57 a || Ascii.eqb a "_" then String a (digit_run s') else ""
  end.
Definition Sscan_int (s : string) : option Z :=
  let l := list_ascii_of_string s in
  let rest := trim_left l in
  if existsb (byte_is 10) (take (length l - length rest) l) then None
  else
    match string_of_list_ascii rest with
    | String "+" r => Atoi (String "+" (digit_run r))
    | String "-" r => Atoi (String "-" (digit_run r))
    | r => Atoi (digit_run r)
    end.

Section issuer.
Context {PrivKey : Type} (public : PrivKey -> RSAPublicKey) (SignedString : TokenHeader -> Claims -> PrivKey -> option string) (ParseWithClaims : Parser).

Record SigningKey := mkSigningKey { sk_kid : string; sk_priv : PrivKey }.

Record JWTIssuer := mkJWTIssuer { ji_issuer : string; ji_audience : string; ji_signing : SigningKey; ji_verifyKeys : gmap string RSAPublicKey }.

Definition NewJWTIssuer (issuer audience : string) (signing : SigningKey) : JWTIssuer :=
  mkJWTIssuer issuer audience signing {[ sk_kid signing := public (sk_priv signing) ]}.

Definition AddVerifyKey (kid : string) (pub : RSAPublicKey) (j : JWTIssuer) : JWTIssuer :=
  mkJWTIssuer (ji_issuer j) (ji_audience j) (ji_signing j) (<[kid := pub]> (ji_verifyKeys j)).

(** The token and its expiry; [jti] is [None] when the random source fails. *)
Definition Issue (j : JWTIssuer) (now : Time) (jti : option string) (userID : Z) (email : string) : option (string * Time) :=
  let exp := now + accessTTL in
  id ← jti;
  let claims := mkClaims (ji_issuer j) [ji_audience j] (pretty userID) (Some (now / Second)) (Some (exp / Second)) None id email tokenUseAccess in
  signed ← SignedString (mkTokenHeader "RS256" (Some (sk_kid (ji_signing j)))) claims (sk_priv (ji_signing j));
  Some (signed, exp).

Record VerifiedToken := mkVerified { vt_UserID : Z; vt_Email : string }.

Definition verify_key (j : JWTIssuer) (h : TokenHeader) (u : unit) : result tokenError RSAPublicKey * unit :=
  if negb (is_RSA h) then (Err ErrSigningMethod, u)
  else match ji_verifyKeys j !! default "" (th_kid h) with None => (Err ErrUnknownKid, u) | Some pub => (Ok pub, u) end.

Definition Verify (j : JWTIssuer) (now : Time) (raw : string) : result tokenError VerifiedToken :=
  match (ParseWithClaims unit (verify_key j) (mkParseOptions ["RS256"] (ji_issuer j) (ji_audience j) now) raw tt).1 with
  | Err e => Err e
  | Ok claims =>
      if negb (String.eqb (cl_TokenUse claims) tokenUseAccess) then Err ErrTokenUse
      else
        match Sscan_int (cl_Subject claims) with
        | None => Err ErrSubject
        | Some userID => if userID =? 0 then Err ErrSubject else Ok (mkVerified userID (cl_Email claims))
        end
  end.

(** The key set served, in the order of the map. *)
Definition JWKS (j : JWTIssuer) : list JWK :=
  (fun kv => mkJWK "RSA" "sig" "RS256" kv.1 (base64url (big_Bytes (rsa_N kv.2))) (base64url (big_Bytes (rsa_E kv.2)))) <$> map_to_list (ji_verifyKeys j).
End issuer.
Arguments JWTIssuer : clear implicits.
Arguments SigningKey : clear implicits.

(** ** Cloudflare Access *)

Definition TrimPrefix (s prefix : string) : string :=
  if HasPrefix s prefix then String.substring (String.length prefix) (String.length s - String.length prefix) s else s.
Definition TrimSuffix1 (s : string) (c : ascii) : string :=
  match rev (list_ascii_of_string s) with
  | a :: l => if Ascii.eqb a c then string_of_list_ascii (rev l) else s
  | [] => s
  end.

Record CFAccessVerifier := mkCFAccess { cv_issuer : string; cv_aud : string; cv_certsURL : string; cv_ttl : Duration }.
(** Its cache; [zeroTime] before the first fetch. *)
Record CFCache := mkCFCache { cc_keys : gmap string RSAPublicKey; cc_fetchedAt : Time }.
Definition empty_cache : CFCache := mkCFCache ∅ zeroTime.

Definition NewCFAccessVerifier (teamDomain aud : string) : CFAccessVerifier :=
  let issuer := "https://" +:+ TrimPrefix (TrimPrefix (TrimSuffix1 teamDomain "/") "https://") "http://" in
  mkCFAccess issuer aud (issuer +:+ "/cdn-cgi/access/certs") (60 * Minute).

(** A fetch of the key set: when it is stored, and what came back: nothing, or a status with the
    document if it decodes. *)
Record CertsFetch := mkFetch { fe_at : Time; fe_answer : option (Z * option (list JWK)) }.

Definition usable_keys (doc : list JWK) : gmap string RSAPublicKey :=
  foldl (fun keys k =>
    if negb (String.eqb (jk_Kty k) "RSA") || String.eqb (jk_Kid k) "" then keys
    else match jwkToRSA (jk_N k) (jk_E k) with None => keys | Some pub => <[jk_Kid k := pub]> keys end) ∅ doc.

Definition refresh (f : CertsFetch) (c : CFCache) : result tokenError unit * CFCache :=
  match fe_answer f with
  | None => (Err ErrCerts, c)
  | Some (status, doc) =>
      if negb (status =? 200) then (Err ErrCerts, c)
      else
        match doc with
        | None => (Err ErrCerts, c)
        | Some jwks =>
            let keys := usable_keys jwks in
            if bool_decide (keys = ∅) then (Err ErrCerts, c) else (Ok tt, mkCFCache keys (fe_at f))
        end
  end.

Definition is_fresh (v : CFAccessVerifier) (now : Time) (c : CFCache) : bool := negb (cc_fetchedAt c =? zeroTime) && (now - cc_fetchedAt c <? cv_ttl v).

Definition keyByKID (v : CFAccessVerifier) (now : Time) (f : CertsFetch) (kid : string) (c : CFCache) : result tokenError RSAPublicKey * CFCache :=
  let miss c := match cc_keys c !! kid with Some key => (Ok key, c) | None => (Err ErrUnknownKid, c) end in
  match cc_keys c !! kid, is_fresh v now c with
  | Some key, true => (Ok key, c)
  | _, _ =>
      match refresh f c with
      | (Err e, c') => match cc_keys c' !! kid with Some key => (Ok key, c') | None => (Err e, c') end
      | (Ok _, c') => miss c'
      end
  end.

Definition cf_key (v : CFAccessVerifier) (now : Time) (f : CertsFetch) (h : TokenHeader) (c : CFCache) : result tokenError RSAPublicKey * CFCache :=
  if negb (is_RSA h) then (Err ErrSigningMethod, c)
  else
    match th_kid h with
    | None | Some EmptyString => (Err ErrMissingKid, c)
    | Some kid => keyByKID v now f kid c
    end.

Definition CF_Verify (ParseWithClaims : Parser) (ToLower : string -> string) (v : CFAccessVerifier) (now : Time) (f : CertsFetch) (raw : string) (c : CFCache) :
    result tokenError string * CFCache :=
  if String.eqb raw "" then (Err ErrNoToken, c)
  else
    match ParseWithClaims CFCache (cf_key v now f) (mkParseOptions ["RS256"] (cv_issuer v) (cv_aud v) now) raw c with
    | (Err e, c') => (Err e, c')
    | (Ok claims, c') =>
        let email := ToLower (TrimSpace (cl_Email claims)) in
        if String.eqb email "" then (Err ErrNoEmail, c') else (Ok email, c')
    end.

(** ** Identity providers *)

Inductive exchangeError := ExTokenExchange | ExNoIDToken | ExVerify | ExNonce | ExClaims | ErrEmailNotVerified | ExUser | ExEmails.

Record GoogleClaims := mkGoogleClaims { gc_Sub : string; gc_Email : string; gc_EmailVerified : bool; gc_Name : string; gc_Picture : string }.
(** A verified ID token: its nonce, and its claims if they decode. *)
Record IDToken := mkIDToken { it_Nonce : string; it_Claims : option GoogleClaims }.

(** [exchange] answers with the id_token of the token response, if it has one. *)
Definition google_Exchange (exchange : string -> string -> option (option string)) (verify : string -> option IDToken) (code verifier nonce : string) :
    result exchangeError Profile :=
  match exchange code verifier with
  | None => Err ExTokenExchange
  | Some None | Some (Some EmptyString) => Err ExNoIDToken
  | Some (Some rawID) =>
      match verify rawID with
      | None => Err ExVerify
      | Some tok =>
          if negb (String.eqb (it_Nonce tok) nonce) then Err ExNonce
          else
            match it_Claims tok with
            | None => Err ExClaims
            | Some c =>
                if String.eqb (gc_Email c) "" || negb (gc_EmailVerified c) then Err ErrEmailNotVerified
                else Ok (mkProfile "google" (gc_Sub c) (gc_Email c) (gc_Name c) (gc_Picture c))
            end
      end
  end.

Record GitHubUser := mkGitHubUser { gu_ID : Z; gu_Login : string; gu_Name : string; gu_AvatarURL : string }.
Record GitHubEmail := mkGitHubEmail { ge_Email : string; ge_Primary : bool; ge_Verified : bool }.

(** An answer of the API: the status, and the body if it decodes; [None] when the request fails. *)
Definition getJSON {A} (answer : option (Z * option A)) : option A :=
  match answer with
  | None => None
  | Some (status, body) => if negb (status =? 200) then None else body
  end.

Definition first_email (p : GitHubEmail -> bool) (emails : list GitHubEmail) : string :=
  default "" (ge_Email <$> head (filter (fun e => p e = true) emails)).
Definition picked_email (emails : list GitHubEmail) : string :=
  let primary := first_email (fun e => ge_Verified e && ge_Primary e) emails in
  if String.eqb primary "" then first_email ge_Verified emails else primary.

(** [exchange] is the token, with which the two endpoints are read. *)
Definition github_Exchange (exchange : string -> string -> option string) (user : string -> option (Z * option GitHubUser))
    (user_emails : string -> option (Z * option (list GitHubEmail))) (code verifier : string) : result exchangeError Profile :=
  match exchange code verifier with
  | None => Err ExTokenExchange
  | Some tok =>
      match getJSON (user tok) with
      | None => Err ExUser
      | Some u =>
          match getJSON (user_emails tok) with
          | None => Err ExEmails
          | Some emails =>
              let picked := picked_email emails in
              if String.eqb picked "" then Err ErrEmailNotVerified
              else Ok (mkProfile "github" (pretty (gu_ID u)) picked (if String.eqb (gu_Name u) "" then gu_Login u else gu_Name u) (gu_AvatarURL u))
          end
      end
  end.

(** base64url(sha256(verifier)); the hash is a parameter. *)
Definition pkceChallenge (sha256 : string -> list ascii) (verifier : string) : string := base64url (sha256 verifier).

(** ** Cookies *)

(** [ck_MaxAge] below 0 asks the browser to drop the cookie. *)
Record Cookie := mkCookie {
  ck_Name : string; ck_Value : string; ck_Path : string; ck_Expires : option Time; ck_MaxAge : Z; ck_HttpOnly : bool; ck_Secure : bool; ck_Lax : bool;
}.
Definition AccessCookie : string := "pulse_at".
Definition RefreshCookie : string := "pulse_rt".
Definition CSRFCookie : string := "pulse_csrf".
Definition OAuthStateCookie : string := "pulse_oauth_state".
Definition refreshPath : string := "/auth".

Definition SetSession_cookies (secure : bool) (accessJWT refreshToken csrf : string) (accessExp refreshExp : Time) : list Cookie :=
  [mkCookie AccessCookie accessJWT "/" (Some accessExp) 0 true secure true;
   mkCookie RefreshCookie refreshToken refreshPath (Some refreshExp) 0 true secure true;
   mkCookie CSRFCookie csrf "/" (Some accessExp) 0 false secure true].

Definition ClearSession_cookies (secure : bool) : list Cookie :=
  (fun np => mkCookie np.1 "" np.2 None (-1) (negb (String.eqb np.1 CSRFCookie)) secure true) <$>
    [(AccessCookie, "/"); (RefreshCookie, refreshPath); (CSRFCookie, "/")].

Definition SetOAuthState_cookies (secure : bool) (state : string) (ttl : Duration) : list Cookie :=
  [mkCookie OAuthStateCookie state "/auth" None (Z.quot ttl Second) true secure true].
Definition ClearOAuthState_cookies (secure : bool) : list Cookie := [mkCookie OAuthStateCookie "" "/auth" None (-1) true secure true].

(** The Set-Cookie headers of the effects of a handler ([Login]). *)
Definition set_cookies (secure : bool) (e : CookieEffect) : list Cookie :=
  match e with
  | SetOAuthState state ttl => SetOAuthState_cookies secure state ttl
  | ClearOAuthState => ClearOAuthState_cookies secure
  | SetSession access refresh csrf accessExp refreshExp => SetSession_cookies secure access refresh csrf accessExp refreshExp
  | ClearSession => ClearSession_cookies secure
  end.
