(* ===== verification/TokensInv.v ===== *)
(** * TokensInv: what signed tokens, key sets and provider identities guarantee

    The JWT library is assumed to do what it documents ([JWTLaws]); the laws hold of a concrete
    format.  Then: an access token verifies with its user until its expiry and with no key but a
    listed one; the served key set reads back as the issuer's keys; an operator key outlives its
    withdrawal by at most the cache's lifetime while the certs endpoint answers; a provider's
    address is a verified one; and clearing a session removes what signing in stored. *)

From S2P Require Import Prelude Domain GoStrings Crypto Store StoreInv Entitlements Authz CheckState Members MonitorApi Refresh Billing Channels ChannelsInv Accounts AccountsInv Login Tokens.
Open Scope Z_scope.

(** ** The library *)

(** The checks of the registered claims that the options ask for; an empty issuer is not compared.
    The configuration gives every verifier an audience; the library would refuse all tokens without one. *)
Definition valid_claims (o : ParseOptions) (c : Claims) : bool :=
  (String.eqb (po_Issuer o) "" || String.eqb (cl_Issuer c) (po_Issuer o))
  && bool_decide (po_Audience o ∈ cl_Audience c)
  && match cl_ExpiresAt c with Some e => po_Now o <? e * Second | None => false end
  && match cl_NotBefore c with Some n => n * Second <=? po_Now o | None => true end.

(** Text that JSON keeps as it is. *)
Definition plain (s : string) : Prop := all_chars (byte_in 0 127) s = true.
Definition plain_claims (c : Claims) : Prop :=
  Forall plain (cl_Issuer c :: cl_Subject c :: cl_ID c :: cl_Email c :: cl_TokenUse c :: cl_Audience c).

(** [decode] splits a token into header and claims, [checks] is the signature check. *)
Class JWTLaws {PrivKey : Type} (public : PrivKey -> RSAPublicKey) (SignedString : TokenHeader -> Claims -> PrivKey -> option string)
    (ParseWithClaims : Parser) (decode : string -> option (TokenHeader * Claims)) (checks : string -> RSAPublicKey -> bool) : Prop := {
  parse_ok : forall St kf o raw (s : St) c,
    (ParseWithClaims St kf o raw s).1 = Ok c <->
    exists h key, decode raw = Some (h, c) /\ th_alg h ∈ po_ValidMethods o /\ (kf h s).1 = Ok key /\ checks raw key = true /\ valid_claims o c = true;
  parse_state : forall St kf o raw (s : St),
    (ParseWithClaims St kf o raw s).2 =
    match decode raw with Some (h, _) => if bool_decide (th_alg h ∈ po_ValidMethods o) then (kf h s).2 else s | None => s end;
  sign_ok : forall kid c priv raw, plain kid -> plain_claims c ->
    SignedString (mkTokenHeader "RS256" (Some kid)) c priv = Some raw ->
    decode raw = Some (mkTokenHeader "RS256" (Some kid), c) /\ checks raw (public priv) = true;
}.

(** ** Subjects *)

Lemma digit_value_byte a d : digit_value a = Some d -> byte_in 48 57 a = true.
Proof. unfold digit_value, byte_in. intros Hd. repeat case_match; try done; simplify_eq; lia. Qed.

Lemma digit_run_digits acc s n : digits acc s = Some n -> digit_run s = s.
Proof.
  revert acc. induction s as [|a s IH]; intros acc Hd; simpl in *; [done|].
  destruct (digit_value a) as [d|] eqn:Ha; [|done]. rewrite (digit_value_byte _ _ Ha). simpl. by rewrite (IH _ Hd).
Qed.

Lemma trim_left_graphic a l : graphic a = true -> trim_left (a :: l) = a :: l.
Proof. intros (H1 & H2 & H3 & _)%graphic_not_space. unfold trim_left. by rewrite strip_graphic_head. Qed.

(** [Atoi] and the scan by the sign of the first character. *)
Definition signed_digits (neg : bool) (ds : string) : option Z :=
  if String.eqb ds "" then None
  else n ← digits 0 ds; let v := if neg then - n else n in if (- 2 ^ 63 <=? v) && (v <? 2 ^ 63) then Some v else None.

Lemma Atoi_sign a r :
  Atoi (String a r) = if Ascii.eqb a "+" then signed_digits false r else if Ascii.eqb a "-" then signed_digits true r else signed_digits false (String a r).
Proof. destruct a as [[] [] [] [] [] [] [] []]; done. Qed.

Lemma scan_sign a r :
  match String a r with String "+" t => Atoi (String "+" (digit_run t)) | String "-" t => Atoi (String "-" (digit_run t)) | t => Atoi (digit_run t) end =
  if Ascii.eqb a "+" then Atoi (String "+" (digit_run r)) else if Ascii.eqb a "-" then Atoi (String "-" (digit_run r)) else Atoi (digit_run (String a r)).
Proof. destruct a as [[] [] [] [] [] [] [] []]; done. Qed.

Lemma signed_digits_run neg ds v : signed_digits neg ds = Some v -> ds <> "" /\ digit_run ds = ds.
Proof.
  unfold signed_digits. destruct (String.eqb_spec ds ""); [done|]. destruct (digits 0 ds) eqn:Hd; [|done].
  intros _. split; [done|]. by eapply digit_run_digits.
Qed.

(** A number that parses is read whole. *)
Lemma Sscan_Atoi s v : Atoi s = Some v -> Sscan_int s = Some v.
Proof.
  intros Ha. destruct s as [|a r]; [done|].
  assert (graphic a = true /\ (if Ascii.eqb a "+" || Ascii.eqb a "-" then digit_run r = r else digit_run (String a r) = String a r)) as [Hg Hr].
  { rewrite Atoi_sign in Ha.
    destruct (Ascii.eqb_spec a "+") as [->|]; [|destruct (Ascii.eqb_spec a "-") as [->|]];
      apply signed_digits_run in Ha as [_ Hn]; [done..|].
    split; [|done]. simpl in Hn. destruct (byte_in 48 57 a) eqn:Hb; [unfold graphic, byte_in in *; lia|].
    simpl in Hn. destruct (Ascii.eqb_spec a "_") as [->|]; done. }
  unfold Sscan_int. simpl list_ascii_of_string. rewrite (trim_left_graphic _ _ Hg), Nat.sub_diag. simpl existsb.
  change (string_of_list_ascii (a :: list_ascii_of_string r)) with (String a (string_of_list_ascii (list_ascii_of_string r))).
  rewrite string_of_list_ascii_of_string, scan_sign.
  destruct (Ascii.eqb_spec a "+") as [->|]; [by rewrite Hr|].
  destruct (Ascii.eqb_spec a "-") as [->|]; [by rewrite Hr|]. simpl orb in Hr. by rewrite Hr.
Qed.

Lemma verify_key_Ok {PrivKey} (j : JWTIssuer PrivKey) h key : th_alg h = "RS256" ->
  (verify_key j h tt).1 = Ok key <-> ji_verifyKeys j !! default "" (th_kid h) = Some key.
Proof.
  intros Ha. unfold verify_key, is_RSA. rewrite Ha, bool_decide_eq_true_2 by set_solver. simpl. destruct (ji_verifyKeys j !! _); naive_solver.
Qed.

Lemma issued_claims_valid iss aud sub iat exp i email t :
  valid_claims (mkParseOptions ["RS256"] iss aud t) (mkClaims iss [aud] sub iat (Some exp) None i email "access") = (t <? exp * Second).
Proof.
  unfold valid_claims. simpl. rewrite String.eqb_refl, orb_true_r. rewrite bool_decide_eq_true_2 by set_solver.
  by rewrite andb_true_r.
Qed.

Lemma pretty_N_go_chars p x s : (forall n, p (pretty_N_char n) = true) -> all_chars p s = true -> all_chars p (pretty_N_go x s) = true.
Proof.
  intros Hp. revert s. induction (N.lt_wf_0 x) as [x _ IH]; intros s Hs.
  assert (x = 0 \/ 0 < x)%N as [->|?] by lia; [by rewrite pretty_N_go_0|].
  rewrite pretty_N_go_step by done. apply IH; [by apply N.div_lt|]. simpl. by rewrite Hp.
Qed.

Lemma pretty_plain (u : Z) : plain (pretty u).
Proof.
  assert (forall p, plain (pretty (Npos p))) as Hp.
  { intros p. unfold plain, pretty, pretty_N. rewrite decide_False by done. apply pretty_N_go_chars; [|done].
    intros n. unfold pretty_N_char. by repeat case_match. }
  destruct u as [|p|p]; [done|apply Hp|]. apply (Hp p).
Qed.

Section tokens.
Context {PrivKey : Type} (public : PrivKey -> RSAPublicKey) (SignedString : TokenHeader -> Claims -> PrivKey -> option string).
Context (ParseWithClaims : Parser) (decode : string -> option (TokenHeader * Claims)) (checks : string -> RSAPublicKey -> bool).
Context `{!JWTLaws public SignedString ParseWithClaims decode checks}.

(** What a verified access token is. *)
Lemma Verify_Ok (j : JWTIssuer PrivKey) now raw vt :
  Verify ParseWithClaims j now raw = Ok vt <->
  exists h c key,
    decode raw = Some (h, c) /\ th_alg h = "RS256" /\ ji_verifyKeys j !! default "" (th_kid h) = Some key /\ checks raw key = true /\
    valid_claims (mkParseOptions ["RS256"] (ji_issuer j) (ji_audience j) now) c = true /\ cl_TokenUse c = "access" /\
    Sscan_int (cl_Subject c) = Some (vt_UserID vt) /\ vt_UserID vt <> 0 /\ vt_Email vt = cl_Email c.
Proof using JWTLaws0.
  unfold Verify. split.
  - destruct (ParseWithClaims _ _ _ raw tt).1 as [c|e] eqn:Hp; [|done].
    apply parse_ok in Hp as (h & key & Hd & Ha%list_elem_of_singleton & Hk%verify_key_Ok & Hc & Hv); [|done].
    unfold tokenUseAccess. destruct (String.eqb_spec (cl_TokenUse c) "access"); simpl; [|done].
    destruct (Sscan_int _) as [v|] eqn:Hs; [|done]. destruct (Z.eqb_spec v 0); [done|]. intros [= <-]. by exists h, c, key.
  - intros (h & c & key & Hd & Ha & Hk & Hc & Hv & Hu & Hs & H0 & He).
    assert ((ParseWithClaims unit (verify_key j) (mkParseOptions ["RS256"] (ji_issuer j) (ji_audience j) now) raw tt).1 = Ok c) as ->.
    { apply parse_ok. exists h, key. rewrite verify_key_Ok by done. split_and!; [done|rewrite Ha; set_solver|done..]. }
    rewrite Hu, Hs. simpl. rewrite (proj2 (Z.eqb_neq _ _) H0), <- He. by destruct vt.
Qed.

Lemma Issue_Some (j : JWTIssuer PrivKey) now jti u email raw exp :
  plain (ji_issuer j) -> plain (ji_audience j) -> plain (sk_kid (ji_signing j)) -> plain email -> (forall i, jti = Some i -> plain i) -> plain (pretty u) ->
  Issue SignedString j now jti u email = Some (raw, exp) ->
  exp = now + accessTTL /\ exists i,
    decode raw = Some (mkTokenHeader "RS256" (Some (sk_kid (ji_signing j))),
      mkClaims (ji_issuer j) [ji_audience j] (pretty u) (Some (now / Second)) (Some (exp / Second)) None i email "access") /\
    checks raw (public (sk_priv (ji_signing j))) = true.
Proof using JWTLaws0.
  intros Pi Pa Pk Pe Pj Pu. unfold Issue. destruct jti as [i|]; [|done]. simpl. destruct (SignedString _ _ _) as [signed|] eqn:Hs; [|done].
  intros [= <- <-]. split; [done|]. exists i. apply sign_ok in Hs as [Hd Hc]; [done|done|].
  unfold plain_claims. simpl. repeat constructor; auto.
Qed.


(** C15: an access token that [Issue] signed for a user verifies, at any issuer of the same name and
    audience that lists the signing key under its kid (the same process, another replica, or a later
    signing key with the old one kept for the overlap), as that user with that e-mail exactly until
    its expiry, 15 minutes later cut to the second; an issuer that does not list the kid refuses it
    at any time. *)
Theorem access_token_roundtrip (j j' : JWTIssuer PrivKey) now jti u email raw exp t :
  plain (ji_issuer j) -> plain (ji_audience j) -> plain (sk_kid (ji_signing j)) -> plain email -> (forall i, jti = Some i -> plain i) ->
  0 < u < 2 ^ 63 -> ji_issuer j' = ji_issuer j -> ji_audience j' = ji_audience j ->
  Issue SignedString j now jti u email = Some (raw, exp) ->
  exp = now + 15 * Minute /\
  (ji_verifyKeys j' !! sk_kid (ji_signing j) = Some (public (sk_priv (ji_signing j))) ->
     Verify ParseWithClaims j' t raw = Ok (mkVerified u email) <-> t < exp / Second * Second) /\
  (ji_verifyKeys j' !! sk_kid (ji_signing j) = None \/ exp / Second * Second <= t -> exists e, Verify ParseWithClaims j' t raw = Err e).
Proof using JWTLaws0.
  intros Pi Pa Pk Pe Pj Hu Hi Hau His. pose proof (Sscan_Atoi _ _ (Atoi_pretty u ltac:(lia))) as Hsub.
  apply Issue_Some in His as (-> & i & Hd & Hc); [|done..|by apply pretty_plain]. split; [done|].
  set (exp := now + accessTTL) in *. split.
  - intros Hk. rewrite Verify_Ok. split.
    + intros (h & c & key & Hd' & _ & _ & _ & Hv & _). simplify_eq. rewrite Hi, Hau, issued_claims_valid in Hv. lia.
    + intros Ht. eexists _, _, _. split_and!; [exact Hd|done|exact Hk|exact Hc| |done|exact Hsub|simpl; lia|done].
      rewrite Hi, Hau, issued_claims_valid. lia.
  - intros Hn. destruct (Verify ParseWithClaims j' t raw) as [vt|e] eqn:Hv; [|by exists e]. exfalso.
    apply Verify_Ok in Hv as (h & c & key & Hd' & _ & Hk & _ & Hv & _). simplify_eq. rewrite Hi, Hau, issued_claims_valid in Hv.
    destruct Hn; [simpl in Hk; congruence|lia].
Qed.

(** A token is accepted only if it names a listed key whose signature check it passes, was signed
    with RS256, carries this issuer (when one is configured) and audience, is of access use, has a
    non-zero user and an expiry still ahead: whatever else the presented string is, a refresh-use
    token, another algorithm or an expired token yields no principal. *)
Theorem verified_tokens_are_signed (j : JWTIssuer PrivKey) now raw vt :
  Verify ParseWithClaims j now raw = Ok vt ->
  exists h c key exp,
    decode raw = Some (h, c) /\ th_alg h = "RS256" /\ ji_verifyKeys j !! default "" (th_kid h) = Some key /\ checks raw key = true /\
    cl_TokenUse c = "access" /\ (ji_issuer j = "" \/ cl_Issuer c = ji_issuer j) /\ ji_audience j ∈ cl_Audience c /\
    cl_ExpiresAt c = Some exp /\ now < exp * Second /\ vt_UserID vt <> 0 /\ vt_Email vt = cl_Email c.
Proof using JWTLaws0.
  intros (h & c & key & Hd & Ha & Hk & Hc & Hv & Hu & Hs & H0 & He)%Verify_Ok. unfold valid_claims in Hv. simpl in Hv.
  apply andb_true_iff in Hv as [Hv _]. apply andb_true_iff in Hv as [Hv Hexp]. apply andb_true_iff in Hv as [Hi Hau].
  destruct (cl_ExpiresAt c) as [exp|] eqn:Hx; [|done]. exists h, c, key, exp. apply Z.ltb_lt in Hexp.
  apply bool_decide_eq_true in Hau. apply orb_true_iff in Hi as [Hi%String.eqb_eq|Hi%String.eqb_eq]; naive_solver.
Qed.
End tokens.

(** ** Key sets *)

Lemma le_bytes_value fuel z : 0 <= z < 256 ^ Z.of_nat fuel -> foldr (fun b acc => acc * 256 + Z.of_N (N_of_ascii b)) 0 (le_bytes fuel z) = z.
Proof.
  revert z. induction fuel as [|fuel IH]; intros z Hz; simpl le_bytes; [simpl in Hz; simpl; lia|].
  rewrite Nat2Z.inj_succ, Z.pow_succ_r in Hz by lia. destruct (Z.leb_spec z 0); [simpl; lia|]. simpl foldr.
  rewrite IH by (split; [by apply Z.div_pos; lia|by apply Z.div_lt_upper_bound; lia]).
  rewrite N_ascii_embedding by (apply N2Z.inj_lt; rewrite Z2N.id; pose proof (Z.mod_pos_bound z 256); lia).
  rewrite Z2N.id by (apply Z.mod_pos_bound; lia). pose proof (Z.div_mod z 256). lia.
Qed.

Lemma le_bytes_exponent fuel z : 0 <= z < 256 ^ Z.of_nat fuel -> z < 2 ^ 63 ->
  foldr (fun b e => wrap64 (Z.lor (Z.shiftl e 8) (Z.of_N (N_of_ascii b)))) 0 (le_bytes fuel z) = z.
Proof.
  revert z. induction fuel as [|fuel IH]; intros z Hz H63; simpl le_bytes; [simpl in Hz; simpl; lia|].
  rewrite Nat2Z.inj_succ, Z.pow_succ_r in Hz by lia. destruct (Z.leb_spec z 0); [simpl; lia|]. simpl foldr.
  assert (0 <= z / 256 <= z) as Hq by (split; [by apply Z.div_pos; lia|by apply Z.div_le_upper_bound; lia]).
  rewrite IH; [|split; [lia|by apply Z.div_lt_upper_bound; lia]|lia].
  rewrite N_ascii_embedding by (apply N2Z.inj_lt; rewrite Z2N.id; pose proof (Z.mod_pos_bound z 256); lia).
  rewrite Z2N.id by (apply Z.mod_pos_bound; lia).
  change 256 with (2 ^ 8) at 1 2. rewrite <- Z.shiftr_div_pow2, <- Z.land_ones, <- Z.ldiff_ones_r, Z.lor_ldiff_and by lia.
  apply wrap64_id. lia.
Qed.

Lemma big_Bytes_fuel z : 0 <= z -> 0 <= z < 256 ^ Z.of_nat (Z.to_nat (Z.log2 z) + 1).
Proof.
  intros Hz. split; [done|]. pose proof (Z.log2_nonneg z). rewrite Nat2Z.inj_add, Z2Nat.id by done.
  destruct (Z.eq_dec z 0) as [->|]; [done|]. pose proof (Z.log2_spec z ltac:(lia)) as [_ Hlt].
  rewrite <- Z.add_1_r in Hlt. eapply Z.lt_le_trans; [exact Hlt|]. change (Z.of_nat 1) with 1. apply Z.pow_le_mono_l. lia.
Qed.

Lemma fold_left_rev {A B} (f : A -> B -> A) l i : fold_left f (rev l) i = foldr (fun b a => f a b) i l.
Proof. rewrite <- (rev_involutive l) at 2. symmetry. apply (fold_left_rev_right (fun b a => f a b)). Qed.

Lemma of_bytes_big z : 0 <= z -> of_bytes (big_Bytes z) = z.
Proof. intros Hz. unfold of_bytes, big_Bytes. rewrite fold_left_rev. by apply le_bytes_value, big_Bytes_fuel. Qed.

Lemma exponent_big z : 0 <= z < 2 ^ 63 -> exponent (big_Bytes z) = z.
Proof. intros Hz. unfold exponent, big_Bytes. rewrite fold_left_rev. apply le_bytes_exponent; [apply big_Bytes_fuel|]; lia. Qed.

(** A key as an RSA library produces it: the exponent fits an [int]. *)
Definition proper_key (pub : RSAPublicKey) : Prop := 0 <= rsa_N pub /\ 0 < rsa_E pub < 2 ^ 63.

Lemma jwkToRSA_served pub : proper_key pub -> jwkToRSA (base64url (big_Bytes (rsa_N pub))) (base64url (big_Bytes (rsa_E pub))) = Some pub.
Proof.
  intros [HN HE]. unfold jwkToRSA. rewrite !base64url_roundtrip. simpl. rewrite exponent_big, of_bytes_big by lia.
  rewrite (proj2 (Z.eqb_neq _ _)) by lia. by destruct pub.
Qed.

Lemma foldl_insert {V} (m : gmap string V) l : NoDup l.*1 -> foldl (fun m kv => <[kv.1 := kv.2]> m) m l = list_to_map l ∪ m.
Proof.
  revert m. induction l as [|[k v] l IH]; intros m Hnd; simpl; [by rewrite map_empty_union|].
  apply NoDup_cons in Hnd as [Hk Hnd]. rewrite IH by done. by rewrite <- insert_union_r, insert_union_l by (by apply not_elem_of_list_to_map_1).
Qed.

Lemma usable_served (l : list (string * RSAPublicKey)) (keys : gmap string RSAPublicKey) :
  Forall (fun kv => kv.1 <> "" /\ proper_key kv.2) l ->
  foldl (fun keys k => if negb (String.eqb (jk_Kty k) "RSA") || String.eqb (jk_Kid k) "" then keys
    else match jwkToRSA (jk_N k) (jk_E k) with None => keys | Some pub => <[jk_Kid k := pub]> keys end) keys
    ((fun kv => mkJWK "RSA" "sig" "RS256" kv.1 (base64url (big_Bytes (rsa_N kv.2))) (base64url (big_Bytes (rsa_E kv.2)))) <$> l)
  = foldl (fun m kv => <[kv.1 := kv.2]> m) keys l.
Proof.
  intros Hl. revert keys. induction Hl as [|[kid pub] l [Hk Hp] _ IH]; intros keys; [done|]. simpl in Hk, Hp.
  rewrite fmap_cons. cbn [foldl jk_Kty jk_Kid jk_N jk_E fst snd].
  rewrite (proj2 (String.eqb_neq _ _) Hk), (jwkToRSA_served _ Hp). apply IH.
Qed.

(** The key set an issuer serves reads back as exactly its verification keys: encoding modulus
    and exponent as big-endian base64url bytes and rebuilding them, with the 64-bit shift loop for
    the exponent, loses and alters no key, so every listed key (the signing key and the retired ones)
    reaches a verifier that fetches the set. *)
Theorem served_keys_read_back {PrivKey} (j : JWTIssuer PrivKey) :
  map_Forall (fun kid pub => kid <> "" /\ proper_key pub) (ji_verifyKeys j) -> usable_keys (JWKS j) = ji_verifyKeys j.
Proof.
  intros Hk. unfold usable_keys, JWKS. rewrite usable_served.
  - rewrite foldl_insert by apply NoDup_fst_map_to_list. by rewrite map_union_empty, list_to_map_to_list.
  - apply Forall_forall. intros [kid pub] Hin%elem_of_map_to_list. apply (Hk _ _ Hin).
Qed.

(** ** The operator's keys *)

(** An answer of the certs endpoint that does not list a key any more. *)
Definition withdrawn (kid : string) (f : CertsFetch) : Prop :=
  exists doc, fe_answer f = Some (200, Some doc) /\ usable_keys doc <> ∅ /\ usable_keys doc !! kid = None.

(** A cache that cannot serve a key past its lifetime from T. *)
Definition ages (kid : string) (T : Time) (c : CFCache) : Prop := cc_keys c !! kid = None \/ cc_fetchedAt c <= T.

Lemma refresh_withdrawn kid f c : withdrawn kid f -> exists c', refresh f c = (Ok tt, c') /\ cc_keys c' !! kid = None.
Proof.
  intros (doc & Hf & Hne & Hk). unfold refresh. rewrite Hf. simpl. rewrite bool_decide_eq_false_2 by done. eexists. split; [done|]. done.
Qed.

Lemma keyByKID_ages v now f kid T kid' c : withdrawn kid f -> ages kid T c ->
  ages kid T (keyByKID v now f kid' c).2 /\ (kid' = kid -> is_ok (keyByKID v now f kid' c).1 = true -> now < T + cv_ttl v).
Proof.
  intros Hf Hc. unfold keyByKID. destruct (refresh_withdrawn kid f c Hf) as (c' & -> & Hc'). split.
  - assert (ages kid T c') by (by left). destruct (cc_keys c !! kid'), (is_fresh v now c); simpl; try done; by destruct (cc_keys c' !! kid').
  - intros ->. rewrite Hc'. destruct (cc_keys c !! kid) as [key|] eqn:Hk; [|done].
    destruct (is_fresh v now c) eqn:Hfr; [|done]. intros _. unfold is_fresh in Hfr. destruct Hc; [congruence|lia].
Qed.

Section operator.
Context {PrivKey : Type} (public : PrivKey -> RSAPublicKey) (SignedString : TokenHeader -> Claims -> PrivKey -> option string).
Context (ParseWithClaims : Parser) (decode : string -> option (TokenHeader * Claims)) (checks : string -> RSAPublicKey -> bool).
Context `{!JWTLaws public SignedString ParseWithClaims decode checks}.
Context (ToLower : string -> string) (v : CFAccessVerifier).

(** Requests to the admin routes, each with its time, what a fetch would answer, and its token; with
    the address each is let in as. *)
Fixpoint admin_requests (calls : list (Time * CertsFetch * string)) (c : CFCache) : list (result tokenError string) :=
  match calls with
  | [] => []
  | (now, f, raw) :: calls' => let '(r, c') := CF_Verify ParseWithClaims ToLower v now f raw c in r :: admin_requests calls' c'
  end.

Lemma CF_Verify_ages now f raw kid T c : withdrawn kid f -> ages kid T c ->
  let '(r, c') := CF_Verify ParseWithClaims ToLower v now f raw c in
  ages kid T c' /\ (forall h cl, decode raw = Some (h, cl) -> th_kid h = Some kid -> is_ok r = true -> now < T + cv_ttl v).
Proof using JWTLaws0.
  intros Hf Hc. unfold CF_Verify. destruct (String.eqb raw ""); [by split|].
  destruct (ParseWithClaims _ _ _ raw c) as [r c'] eqn:Hp.
  pose proof (parse_state CFCache (cf_key v now f) (mkParseOptions ["RS256"] (cv_issuer v) (cv_aud v) now) raw c) as Hst.
  rewrite Hp in Hst. simpl in Hst.
  assert (ages kid T c') as Hag.
  { rewrite Hst. destruct (decode raw) as [[h cl]|]; [|done]. case_bool_decide; [|done]. unfold cf_key.
    destruct (negb (is_RSA h)); [done|]. destruct (th_kid h) as [[|a s]|]; [done| |done]. by apply keyByKID_ages. }
  destruct r as [claims|e]; [|by split].
  assert (forall h cl, decode raw = Some (h, cl) -> th_kid h = Some kid -> now < T + cv_ttl v) as Hlt.
  { intros h cl Hd Hk. apply (f_equal fst) in Hp. apply parse_ok in Hp as (h' & key & Hd' & _ & Hkey & _). assert (h' = h) as -> by congruence.
    unfold cf_key in Hkey. destruct (negb (is_RSA h)); [done|]. rewrite Hk in Hkey. destruct kid as [|a s] eqn:Ek; [done|]. rewrite <- Ek in *.
    eapply keyByKID_ages; [exact Hf|exact Hc|reflexivity|]. by rewrite Hkey. }
  destruct (String.eqb _ ""); split; eauto; done.
Qed.

(** C19: once the team has withdrawn a signing key and the certs endpoint answers, a token that names
    the key is let in at most the cache's lifetime (one hour) after the last fetch from before the
    withdrawal, whatever requests come in between and in whatever order. *)
Theorem withdrawn_key_expires kid T calls c : cc_fetchedAt c <= T -> Forall (fun call => withdrawn kid call.1.2) calls ->
  Forall2 (fun call r => forall h cl, decode call.2 = Some (h, cl) -> th_kid h = Some kid -> is_ok r = true -> call.1.1 < T + cv_ttl v)
    calls (admin_requests calls c).
Proof using JWTLaws0.
  intros HT Hcalls. assert (ages kid T c) as Hc by (by right). clear HT. revert c Hc.
  induction Hcalls as [|[[now f] raw] calls Hf _ IH]; intros c Hc; simpl; [constructor|].
  pose proof (CF_Verify_ages now f raw kid T c Hf Hc) as Hs. destruct (CF_Verify _ _ _ _ _ _ _) as [r c']. destruct Hs as [Hc' Hr].
  constructor; [done|]. by apply IH.
Qed.
End operator.

(** ** Sessions *)

Section sessions.
Context {PrivKey : Type} (public : PrivKey -> RSAPublicKey) (SignedString : TokenHeader -> Claims -> PrivKey -> option string).
Context (ParseWithClaims : Parser) (decode : string -> option (TokenHeader * Claims)) (checks : string -> RSAPublicKey -> bool).
Context `{!JWTLaws public SignedString ParseWithClaims decode checks}.
Context (HashToken : string -> string) (j : JWTIssuer PrivKey).
Context (plain_issuer : plain (ji_issuer j)) (plain_audience : plain (ji_audience j)) (plain_kid : plain (sk_kid (ji_signing j))).

(** Whatever issuer verifies it, a token says the address it was issued with, for 15 minutes. *)
Lemma issued_email now i u email raw exp t (j' : JWTIssuer PrivKey) vt : plain email -> plain i ->
  Issue SignedString j now (Some i) u email = Some (raw, exp) -> Verify ParseWithClaims j' t raw = Ok vt ->
  vt_Email vt = email /\ exp = now + 15 * Minute /\ t < exp.
Proof using JWTLaws0 plain_issuer plain_audience plain_kid.
  intros Pe Pi His Hv. apply (Issue_Some public SignedString ParseWithClaims decode checks) in His as (-> & i' & Hd & _); [|done..|intros ? [= <-]; done|apply pretty_plain].
  apply (verified_tokens_are_signed public SignedString ParseWithClaims decode checks) in Hv as (h & c & key & e & Hd' & _ & _ & _ & _ & _ & _ & He & Ht & _ & ->).
  rewrite Hd in Hd'. injection Hd' as <- <-. simpl in He. injection He as <-. split_and!; [done|done|].
  pose proof (Z.mul_div_le (now + accessTTL) Second ltac:(done)). lia.
Qed.
End sessions.

(** The cookies a browser keeps, by name and path. *)
Definition browser (jar : gmap (string * string) string) (c : Cookie) : gmap (string * string) string :=
  if ck_MaxAge c <? 0 then delete (ck_Name c, ck_Path c) jar else <[(ck_Name c, ck_Path c) := ck_Value c]> jar.

(** Signing out drops every cookie that signing in set and no other, and the answer of a login
    callback drops the state cookie that its start set. *)
Theorem cleared_cookies_are_the_set_ones secure access rt csrf aexp rexp state ttl jar :
  foldl browser (foldl browser jar (SetSession_cookies secure access rt csrf aexp rexp)) (ClearSession_cookies secure) =
    foldl browser jar (ClearSession_cookies secure) /\
  dom (foldl browser jar (ClearSession_cookies secure)) = dom jar ∖ {[ (AccessCookie, "/"); (RefreshCookie, "/auth"); (CSRFCookie, "/") ]} /\
  (0 <= ttl -> foldl browser (foldl browser jar (SetOAuthState_cookies secure state ttl)) (ClearOAuthState_cookies secure) =
     delete (OAuthStateCookie, "/auth") jar).
Proof.
  cbn [SetSession_cookies ClearSession_cookies SetOAuthState_cookies ClearOAuthState_cookies fmap list_fmap foldl].
  unfold browser. cbn [ck_MaxAge ck_Name ck_Path ck_Value fst snd]. change (0 <? 0) with false. change (-1 <? 0) with true. cbv iota. split_and!.
  - apply map_eq. intros k. rewrite !lookup_delete, !lookup_insert. repeat case_decide; congruence.
  - rewrite !dom_delete_L. set_solver.
  - intros Ht. rewrite (proj2 (Z.ltb_ge _ _)) by (apply Z.quot_pos; [done|reflexivity]). by rewrite delete_insert_eq.
Qed.

(** ** Providers *)

Lemma first_email_in p emails : first_email p emails <> "" -> exists e, e ∈ emails /\ p e = true /\ ge_Email e = first_email p emails.
Proof.
  unfold first_email. destruct (filter _ emails) as [|e l] eqn:Hf; [done|]. intros _. exists e.
  assert (e ∈ filter (fun e => p e = true) emails) as [? ?]%list_elem_of_filter by (rewrite Hf; left). done.
Qed.

(** An address that a provider's sign-in yields is one the provider has verified: Google's claim says
    so and the token answers this flow's nonce, and GitHub lists it as verified; an empty one is no
    sign-in at all. *)
Theorem provider_addresses_are_verified :
  (forall exchange verify code verifier nonce p, google_Exchange exchange verify code verifier nonce = Ok p ->
     pf_Email p <> "" /\ exists raw tok c, exchange code verifier = Some (Some raw) /\ verify raw = Some tok /\ it_Nonce tok = nonce /\
       it_Claims tok = Some c /\ gc_Email c = pf_Email p /\ gc_EmailVerified c = true) /\
  (forall exchange user mails code verifier p, github_Exchange exchange user mails code verifier = Ok p ->
     pf_Email p <> "" /\ exists tok emails e, exchange code verifier = Some tok /\ getJSON (mails tok) = Some emails /\
       e ∈ emails /\ ge_Verified e = true /\ ge_Email e = pf_Email p).
Proof.
  split.
  - intros exchange verify code verifier nonce p. unfold google_Exchange. destruct (exchange code verifier) as [[[|a raw]|]|]; [done| |done|done].
    destruct (verify _) as [tok|] eqn:Hv; [|done]. destruct (String.eqb_spec (it_Nonce tok) nonce) as [Hn|]; [|done]. simpl.
    destruct (it_Claims tok) as [c|] eqn:Hc; [|done]. destruct (String.eqb_spec (gc_Email c) ""); [done|]. simpl.
    destruct (gc_EmailVerified c) eqn:Hev; [|done]. intros [= <-]. simpl. split; [done|]. by exists (String a raw), tok, c.
  - intros exchange user mails code verifier p. unfold github_Exchange. destruct (exchange code verifier) as [tok|]; [|done].
    destruct (getJSON (user tok)) as [u|]; [|done]. destruct (getJSON (mails tok)) as [emails|] eqn:Hm; [|done].
    destruct (String.eqb_spec (picked_email emails) "") as [|Hp]; [done|]. intros [= <-]. simpl. split; [done|].
    assert (exists e, e ∈ emails /\ ge_Verified e = true /\ ge_Email e = picked_email emails) as (e & He).
    { unfold picked_email in *. destruct (String.eqb _ "") eqn:Hpr; [by apply first_email_in|].
      destruct (first_email_in (fun e => ge_Verified e && ge_Primary e) emails Hp) as (e & ? & [? _]%andb_true_iff & ?). by exists e. }
    by exists tok, emails, e.
Qed.

(** ** A concrete token format *)

(** A private key is a number, which is its modulus; a token is the code of header, claims and the
    signer's public key, in bits. *)
Definition sim_public (k : Z) : RSAPublicKey := mkRSA k 65537.
Definition sim_code (h : TokenHeader) (c : Claims) (key : RSAPublicKey) : positive :=
  encode ([th_alg h; cl_Issuer c; cl_Subject c; cl_ID c; cl_Email c; cl_TokenUse c], th_kid h, cl_Audience c,
    [cl_IssuedAt c; cl_ExpiresAt c; cl_NotBefore c], (rsa_N key, rsa_E key)).
Definition sim_uncode (p : positive) : option (TokenHeader * Claims * RSAPublicKey) :=
  x ← countable.decode p;
  match x : list string * option string * list string * list (option Z) * (Z * Z) with
  | ([alg; iss; sub; id; email; use], kid, aud, [iat; exp; nbf], (n, e)) =>
      Some (mkTokenHeader alg kid, mkClaims iss aud sub iat exp nbf id email use, mkRSA n e)
  | _ => None
  end.
Definition sim_sign (h : TokenHeader) (c : Claims) (k : Z) : option string := Some (bits_of (sim_code h c (sim_public k))).
Definition sim_decode (raw : string) : option (TokenHeader * Claims) := fst <$> sim_uncode (of_bits raw).
Definition sim_checks (raw : string) (key : RSAPublicKey) : bool := bool_decide (snd <$> sim_uncode (of_bits raw) = Some key).
Definition sim_parse : Parser := fun St kf o raw s =>
  match sim_decode raw with
  | None => (Err ErrLibrary, s)
  | Some (h, c) =>
      if bool_decide (th_alg h ∈ po_ValidMethods o) then
        match kf h s with
        | (Err e, s') => (Err e, s')
        | (Ok key, s') => if sim_checks raw key && valid_claims o c then (Ok c, s') else (Err ErrLibrary, s')
        end
      else (Err ErrLibrary, s)
  end.

Lemma sim_uncode_code h c key : sim_uncode (of_bits (bits_of (sim_code h c key))) = Some (h, c, key).
Proof. unfold sim_uncode, sim_code. rewrite of_bits_of, decode_encode. by destruct h, c, key. Qed.

Lemma sim_decode_code h c key : sim_decode (bits_of (sim_code h c key)) = Some (h, c).
Proof. unfold sim_decode. by rewrite sim_uncode_code. Qed.

#[export] Instance sim_laws : JWTLaws sim_public sim_sign sim_parse sim_decode sim_checks.
Proof.
  split.
  - intros St kf o raw s c. unfold sim_parse. destruct (sim_decode raw) as [[h c0]|] eqn:Hd; [|naive_solver].
    case_bool_decide as Ha; [|naive_solver]. destruct (kf h s) as [[key|e] s'] eqn:Hk; [|split; [done|]; intros (h' & key & ? & _ & Hk' & _); simplify_eq; by rewrite Hk in Hk'].
    destruct (sim_checks raw key && valid_claims o c0) eqn:Hv; simpl.
    + apply andb_true_iff in Hv as [Hc Hv]. split; [|naive_solver]. intros [= <-]. exists h, key. by rewrite Hk.
    + split; [done|]. intros (h' & key' & ? & _ & Hk' & Hc & Hv'). simplify_eq. rewrite Hk in Hk'. simplify_eq/=. by rewrite Hc, Hv' in Hv.
  - intros St kf o raw s. unfold sim_parse. destruct (sim_decode raw) as [[h c0]|]; [|done]. case_bool_decide; [|done].
    destruct (kf h s) as [[key|e] s']; [|done]. by case_match.
  - intros kid c priv raw _ _ [= <-]. split; [apply sim_decode_code|]. unfold sim_checks. rewrite sim_uncode_code. by apply bool_decide_eq_true_2.
Qed.

(** *** Witnesses *)

Definition tk_j : JWTIssuer Z := NewJWTIssuer sim_public "https://api.pulse.dev" "pulse" (mkSigningKey "k1" 3233).
(** The next signing key, with the old one kept. *)
Definition tk_rotated : JWTIssuer Z := AddVerifyKey "k1" (sim_public 3233) (NewJWTIssuer sim_public "https://api.pulse.dev" "pulse" (mkSigningKey "k2" 3599)).
Definition tk_now : Time := 1700000000 * Second.

Lemma access_token_roundtrip_witness :
  exists raw exp, Issue sim_sign tk_j tk_now (Some "jti") 7 "a@x.io" = Some (raw, exp) /\
    Verify sim_parse tk_rotated (tk_now + 14 * Minute) raw = Ok (mkVerified 7 "a@x.io") /\
    (exists e, Verify sim_parse tk_rotated (tk_now + 15 * Minute) raw = Err e).
Proof.
  eexists _, _. split; [reflexivity|]. split.
  - eapply (access_token_roundtrip sim_public sim_sign sim_parse sim_decode sim_checks tk_j tk_rotated tk_now (Some "jti") 7 "a@x.io");
      [done|done|done|done|by intros ? [= <-]|done|done|done|reflexivity|vm_compute; reflexivity|vm_compute; reflexivity].
  - eapply (access_token_roundtrip sim_public sim_sign sim_parse sim_decode sim_checks tk_j tk_rotated tk_now (Some "jti") 7 "a@x.io");
      [done|done|done|done|by intros ? [= <-]|done|done|done|reflexivity|right; by vm_compute].
Defined.

Lemma tk_verified :
  exists raw, Verify sim_parse tk_j (tk_now + Minute) raw = Ok (mkVerified 7 "a@x.io").
Proof.
  eexists. apply (Verify_Ok sim_public sim_sign sim_parse sim_decode sim_checks). eexists _, _, _.
  split; [apply (sim_decode_code (mkTokenHeader "RS256" (Some "k1"))
    (mkClaims "https://api.pulse.dev" ["pulse"] "7" None (Some 1700000900) None "jti" "a@x.io" "access") (sim_public 3233))|].
  split_and!; [done|reflexivity| |reflexivity|done|reflexivity|done|done].
  unfold sim_checks. rewrite sim_uncode_code. by apply bool_decide_eq_true_2.
Qed.

Lemma verified_tokens_are_signed_witness :
  exists raw h c key, sim_decode raw = Some (h, c) /\ sim_checks raw key = true /\ cl_Email c = "a@x.io".
Proof.
  destruct tk_verified as [raw Hv].
  destruct (verified_tokens_are_signed sim_public sim_sign sim_parse sim_decode sim_checks tk_j (tk_now + Minute) raw (mkVerified 7 "a@x.io") Hv)
    as (h & c & key & exp & Hd & _ & _ & Hc & _ & _ & _ & _ & _ & _ & He).
  exists raw, h, c, key. by split_and!.
Defined.

Lemma served_keys_read_back_witness : usable_keys (JWKS tk_rotated) = {[ "k1" := sim_public 3233; "k2" := sim_public 3599 ]}.
Proof.
  rewrite (served_keys_read_back tk_rotated); [reflexivity|].
  apply map_Forall_insert_2; [done|]. apply map_Forall_singleton. done.
Defined.

Definition tk_cf : CFAccessVerifier := NewCFAccessVerifier "team.cloudflareaccess.com" "aud".
Definition tk_jwk (kid : string) : JWK := mkJWK "RSA" "sig" "RS256" kid (base64url (big_Bytes 3233)) (base64url (big_Bytes 65537)).
Definition tk_fetch (t : Time) (kid : string) : CertsFetch := mkFetch t (Some (200, Some [tk_jwk kid])).
Definition tk_cached : CFCache := (refresh (tk_fetch tk_now "old") empty_cache).2.
Definition tk_token : string :=
  bits_of (sim_code (mkTokenHeader "RS256" (Some "old")) (mkClaims "https://team.cloudflareaccess.com" ["aud"] "s" None (Some 1700009000) None "" "Ops@x.io" "") (mkRSA 3233 65537)).
Definition tk_calls : list (Time * CertsFetch * string) :=
  [(tk_now + 59 * Minute, tk_fetch (tk_now + 59 * Minute) "new", tk_token); (tk_now + 61 * Minute, tk_fetch (tk_now + 61 * Minute) "new", tk_token)].

Lemma tk_withdrawn t : withdrawn "old" (tk_fetch t "new").
Proof. exists [tk_jwk "new"]. split; [done|]. split; [by vm_compute|by vm_compute]. Qed.

Lemma tk_accepted : is_ok <$> head (admin_requests sim_parse ToLowerASCII tk_cf tk_calls tk_cached) = Some true.
Proof. vm_compute. reflexivity. Qed.

Lemma withdrawn_key_expires_witness :
  exists r1 r2, admin_requests sim_parse ToLowerASCII tk_cf tk_calls tk_cached = [r1; r2] /\ is_ok r1 = true /\ is_ok r2 = false.
Proof.
  pose proof (withdrawn_key_expires sim_public sim_sign sim_parse sim_decode sim_checks ToLowerASCII tk_cf "old" tk_now tk_calls tk_cached) as Hall.
  pose proof tk_accepted as H1. destruct (admin_requests _ _ _ _ _) as [|r1 [|r2 [|]]].
  1, 2, 4: specialize (Hall ltac:(vm_compute; discriminate) ltac:(repeat constructor; apply tk_withdrawn)); apply Forall2_length in Hall; discriminate Hall.
  specialize (Hall ltac:(vm_compute; discriminate) ltac:(repeat constructor; apply tk_withdrawn)).
  exists r1, r2. split; [reflexivity|]. injection H1 as H1. split; [exact H1|].
  apply Forall2_cons_1 in Hall as [_ [Hr _]%Forall2_cons_1]. destruct (is_ok r2); [|reflexivity]. exfalso.
  specialize (Hr _ _ (sim_decode_code _ _ _) eq_refl eq_refl). revert Hr. vm_compute. discriminate.
Defined.

(** A sign-in, its refresh twenty minutes later, and a Team-email channel of the user's org. *)
Definition tk_issue (now : Time) (u : Z) (email : string) : option (string * Time) := Issue sim_sign tk_j now (Some "jti") u email.
Definition tk_signed_in : LDB := (issueSession id tk_issue no_faults tk_now "rt1" (Some "csrf") 1 "a@x.io" (mkLDB ex_accounts ∅ 1)).2.
Definition tk_channels : CDB := mkCDB chx_accounts {[ 1 := mkChannelRow 1 "team" "email" ∅ true ]} 2.

Definition tk_refreshed : HReply * list CookieEffect * LDB :=
  handleRefresh id tk_issue no_faults (tk_now + 20 * Minute) "rt2" (Some "csrf2") (Some "rt1") tk_signed_in.
Definition tk_access : string := match tk_refreshed.1.2 with [SetSession a _ _ _ _] => a | _ => "" end.

Lemma tk_refreshed_verifies : Verify sim_parse tk_j (tk_now + 21 * Minute) tk_access = Ok (mkVerified 1 "").
Proof. vm_compute. reflexivity. Qed.

Lemma tk_refreshed_eq : exists rt csrf exp rexp l', tk_refreshed = (NoContent, [SetSession tk_access rt csrf exp rexp], l').
Proof.
  unfold tk_access. destruct tk_refreshed as [[rep cks] l'] eqn:Hr. assert (rep = NoContent) as ->.
  { apply (f_equal (fun x => match x.1.1 with NoContent => true | _ => false end)) in Hr. revert Hr. vm_compute. by destruct rep. }
  apply (f_equal (fun x => match x.1.2 with [SetSession _ _ _ _ _] => true | _ => false end)) in Hr. simpl in Hr.
  destruct cks as [|[] [|]]; try (revert Hr; vm_compute; discriminate). simpl. eauto 10.
Qed.
