(* ===== verification/Router.v ===== *)
(** * Router: which requests reach which handler, and behind which checks
    (src/internal/api/router.go, admin.go and build.go)

    The route table as it is registered, the matching of the standard multiplexer, the three guards
    (a session or key, an org, the operator), the public API description, and the answers' request id
    and labels.  Paths are lists of segments, already cleaned. *)

From S2P Require Import Prelude Domain GoStrings Authz Members MonitorApi Auth Channels Billing Login Tokens.
Open Scope Z_scope.

(** ** Patterns *)

Inductive Segment := Lit (s : string) | Wild (name : string).
#[export] Instance Segment_eq_dec : EqDecision Segment.
Proof. solve_decision. Defined.

Inductive Access := Open | Identified | OrgScoped | Operator.
#[export] Instance Access_eq_dec : EqDecision Access.
Proof. solve_decision. Defined.

Record Route := mkRoute { rte_method : string; rte_path : list Segment; rte_access : Access; rte_op : string }.
#[export] Instance Route_eq_dec : EqDecision Route.
Proof. solve_decision. Defined.

Definition segment (s : string) : Segment :=
  match s with
  | String "{" r => Wild (String.substring 0 (String.length r - 1) r)
  | _ => Lit s
  end.
Definition pattern (p : string) : list Segment := segment <$> drop 1 (Split "/" p).
Definition at_ (method p : string) (a : Access) (op : string) : Route := mkRoute method (pattern p) a op.

(** ** The table *)

Definition auth_routes (devLogin : bool) : list Route :=
  [at_ "GET" "/auth/{provider}/login" Open "handleLogin";
   at_ "GET" "/auth/{provider}/callback" Open "handleCallback";
   at_ "POST" "/auth/refresh" Open "handleRefresh";
   at_ "POST" "/auth/logout" Open "handleLogout";
   at_ "POST" "/auth/logout-all" Open "handleLogoutAll";
   at_ "GET" "/.well-known/jwks.json" Open "handleJWKS";
   at_ "GET" "/auth/jwks" Open "handleJWKS";
   at_ "GET" "/auth/{provider}/link" Identified "handleLinkStart";
   at_ "POST" "/auth/email/start" Open "handleEmailStart";
   at_ "GET" "/auth/email/verify" Open "handleEmailVerify"]
  ++ (if devLogin then [at_ "POST" "/auth/dev/login" Open "handleDevLogin"] else []).

Definition account_routes : list Route :=
  [at_ "GET" "/api/v1/me" Identified "GetMe";
   at_ "PATCH" "/api/v1/me" Identified "UpdateMe";
   at_ "GET" "/api/v1/me/identities" Identified "ListMyIdentities";
   at_ "DELETE" "/api/v1/me/identities/{provider}" Identified "UnlinkMyIdentity";
   at_ "POST" "/api/v1/account/logout-all" Identified "LogoutAll";
   at_ "GET" "/api/v1/plans" Identified "ListPlans";
   at_ "GET" "/api/v1/orgs" Identified "ListOrgs";
   at_ "POST" "/api/v1/orgs" Identified "CreateOrg";
   at_ "POST" "/api/v1/invitations/{token}/accept" Identified "AcceptInvitation"].

Definition operator_routes : list Route :=
  [at_ "GET" "/api/v1/admin/metrics" Operator "GetAdminMetrics";
   at_ "GET" "/api/v1/admin/billing" Operator "GetAdminBilling";
   at_ "GET" "/api/v1/admin/orgs" Operator "ListAdminOrgs";
   at_ "PUT" "/api/v1/admin/orgs/{orgId}/plan" Operator "SetAdminOrgPlan";
   at_ "POST" "/api/v1/admin/orgs/{orgId}/subscription/cancel" Operator "CancelAdminOrgSubscription";
   at_ "POST" "/api/v1/admin/orgs/{orgId}/refund" Operator "RefundAdminOrgPayment"].

Definition org_routes : list Route :=
  (fun r => at_ r.1.1 ("/api/v1/orgs/{orgId}" +:+ r.1.2) OrgScoped r.2) <$>
  [("GET", "", "GetOrg");
   ("GET", "/entitlements", "GetEntitlements");
   ("POST", "/billing/checkout", "CreateBillingCheckout");
   ("POST", "/billing/portal", "CreateBillingPortal");
   ("GET", "/billing/payments", "ListBillingPayments");
   ("GET", "/members", "ListMembers");
   ("DELETE", "/members/me", "LeaveOrg");
   ("PATCH", "/members/{userId}", "ChangeMemberRole");
   ("DELETE", "/members/{userId}", "RemoveMember");
   ("POST", "/transfer-ownership", "TransferOwnership");
   ("GET", "/api-keys", "ListAPIKeys");
   ("POST", "/api-keys", "CreateAPIKey");
   ("DELETE", "/api-keys/{id}", "RevokeAPIKey");
   ("GET", "/webhooks", "ListWebhooks");
   ("POST", "/webhooks", "CreateWebhook");
   ("GET", "/webhooks/{id}", "GetWebhook");
   ("PUT", "/webhooks/{id}", "UpdateWebhook");
   ("DELETE", "/webhooks/{id}", "DeleteWebhook");
   ("POST", "/webhooks/{id}/rotate-secret", "RotateWebhookSecret");
   ("GET", "/invitations", "ListInvitations");
   ("POST", "/invitations", "CreateInvitation");
   ("DELETE", "/invitations/{id}", "RevokeInvitation");
   ("POST", "/invitations/{id}/resend", "ResendInvitation");
   ("GET", "/channel-types", "GetChannelTypes");
   ("GET", "/channels", "ListChannels");
   ("POST", "/channels", "CreateChannel");
   ("PUT", "/channels/{id}", "UpdateChannel");
   ("DELETE", "/channels/{id}", "DeleteChannel");
   ("POST", "/channels/{id}/test", "TestChannel");
   ("GET", "/monitors", "ListMonitors");
   ("POST", "/monitors", "CreateMonitor");
   ("GET", "/monitors/{id}", "GetMonitor");
   ("PUT", "/monitors/{id}", "UpdateMonitor");
   ("DELETE", "/monitors/{id}", "DeleteMonitor");
   ("POST", "/monitors/{id}/check", "CheckNow");
   ("GET", "/monitors/{id}/results", "ListResults");
   ("GET", "/monitors/{id}/incidents", "ListMonitorIncidents");
   ("GET", "/monitor-region-states", "GetMonitorRegionStates");
   ("GET", "/incidents", "ListIncidents");
   ("GET", "/incidents/{id}", "GetIncident");
   ("POST", "/incidents/{id}/annotations", "AddIncidentAnnotation");
   ("POST", "/incidents/{id}/close", "CloseIncident");
   ("GET", "/status-pages", "ListStatusPages");
   ("POST", "/status-pages", "CreateStatusPage");
   ("GET", "/status-pages/{id}", "GetStatusPage");
   ("PUT", "/status-pages/{id}", "UpdateStatusPage");
   ("DELETE", "/status-pages/{id}", "DeleteStatusPage");
   ("PUT", "/status-pages/{id}/publish", "PublishStatusPage")].

Definition public_routes : list Route :=
  [at_ "GET" "/api/openapi.json" Open "handleOpenAPISpec";
   at_ "GET" "/api/openapi.yaml" Open "handleOpenAPISpec";
   at_ "GET" "/api/docs" Open "handleSwaggerUI";
   at_ "GET" "/api/v1/public/status-pages/{slug}" Open "GetPublicStatusPage";
   at_ "GET" "/api/v1/invitations/{token}" Open "GetInvitationPreview"].

Definition routes (devLogin : bool) : list Route :=
  auth_routes devLogin ++ account_routes ++ operator_routes ++ org_routes ++ public_routes.

(** ** The multiplexer *)

(** A wildcard takes one segment, which is not empty; the values by name. *)
Fixpoint match_path (p : list Segment) (path : list string) : option (list (string * string)) :=
  match p, path with
  | [], [] => Some []
  | Lit s :: p', t :: path' => if String.eqb s t then match_path p' path' else None
  | Wild n :: p', t :: path' => if String.eqb t "" then None else vs ← match_path p' path'; Some ((n, t) :: vs)
  | _, _ => None
  end.

(** A GET route answers HEAD too. *)
Definition match_method (registered method : string) : bool :=
  String.eqb registered method || (String.eqb registered "GET" && String.eqb method "HEAD").

Definition matches (method : string) (path : list string) (r : Route) : bool :=
  match_method (rte_method r) method && bool_decide (is_Some (match_path (rte_path r) path)).

(** A pattern is more specific when it matches no path the other does not. *)
Fixpoint more_specific (p q : list Segment) : bool :=
  match p, q with
  | [], [] => true
  | Lit s :: p', Lit t :: q' => String.eqb s t && more_specific p' q'
  | _ :: p', Wild _ :: q' => more_specific p' q'
  | _, _ => false
  end.

Inductive Lookup := Found (r : Route) (values : list (string * string)) | MethodNotAllowed | NotFound.

(** The most specific route that matches; 405 where another method would match. *)
Definition lookup_route (table : list Route) (method : string) (path : list string) : Lookup :=
  let candidates := filter (fun r => matches method path r = true) table in
  match filter (fun r => forallb (fun r' => more_specific (rte_path r) (rte_path r')) candidates = true) candidates with
  | r :: _ => Found r (default [] (match_path (rte_path r) path))
  | [] => if existsb (fun r => bool_decide (is_Some (match_path (rte_path r) path))) table then MethodNotAllowed else NotFound
  end.

(** ** Serving a request *)

Record Incoming := mkIncoming {
  in_Method : string; in_Path : list string; in_Authorization : string; in_AccessCookie : string; in_XPulseOrg : string; in_CFAccess : string;
}.

Definition path_value (name : string) (values : list (string * string)) : string := default "" ((list_to_map values : gmap string string) !! name).

Definition auth_request (i : Incoming) (values : list (string * string)) : HTTPRequest :=
  mkRequest (in_Authorization i) (in_AccessCookie i) (path_value "orgId" values) (in_XPulseOrg i).

(** A handler runs, with its principal and the principal's address, or the request is refused. *)
Inductive Outcome := Runs (op : string) (values : list (string * string)) (p : option Principal) (email : string) | Refused (status : Z).

Section serve.
Context (HashToken : string -> string) (marshal : cachedDescriptor -> string) (unmarshal : string -> option cachedDescriptor).
Context {C : Type} `{!KeyCache C}.
(** [JWTIssuer.Verify], and the Cloudflare verifier if it is configured. *)
Context (verify : Time -> string -> option VerifiedToken) (cfVerify : option (Time -> string -> CFCache -> result tokenError string * CFCache)).
Context (devLogin : bool).

Definition verified_user (now : Time) (raw : string) : option Z := vt_UserID <$> verify now raw.
Definition identify (now : Time) (r : HTTPRequest) (db : KDB) (cache : option C) : result Z Principal * option C :=
  Identify HashToken marshal unmarshal verified_user now r db cache.

(** The address of a principal that [identify] set: the token's, none for a key. *)
Definition identified_email (now : Time) (r : HTTPRequest) : string :=
  match bearerAPIKey r with
  | Some _ => ""
  | None => default "" (raw ← accessJWT r; vt_Email <$> verify now raw)
  end.

Definition adminAuth (now : Time) (i : Incoming) (r : HTTPRequest) (db : KDB) (cache : option C) (cf : CFCache) :
    result Z (Principal * string) * option C * CFCache :=
  match cfVerify with
  | None =>
      match identify now r db cache with
      | (Err s, cache') => (Err s, cache', cf)
      | (Ok p, cache') => (Ok (p, identified_email now r), cache', cf)
      end
  | Some check =>
      match check now (in_CFAccess i) cf with
      | (Err _, cf') => (Err 401, cache, cf')
      | (Ok email, cf') => (Ok (mkPrincipal ActorHuman 0 0 0 None, email), cache, cf')
      end
  end.

Definition serve (now : Time) (i : Incoming) (db : KDB) (cache : option C) (cf : CFCache) : Outcome * option C * CFCache :=
  match lookup_route (routes devLogin) (in_Method i) (in_Path i) with
  | NotFound => (Refused 404, cache, cf)
  | MethodNotAllowed => (Refused 405, cache, cf)
  | Found route values =>
      let r := auth_request i values in
      let op := rte_op route in
      match rte_access route with
      | Open => (Runs op values None "", cache, cf)
      | Identified =>
          match identify now r db cache with
          | (Err s, cache') => (Refused s, cache', cf)
          | (Ok p, cache') => (Runs op values (Some p) (identified_email now r), cache', cf)
          end
      | OrgScoped =>
          match authenticate HashToken marshal unmarshal verified_user now r db cache with
          | (Err s, cache') => (Refused s, cache', cf)
          | (Ok p, cache') => (Runs op values (Some p) (identified_email now r), cache', cf)
          end
      | Operator =>
          match adminAuth now i r db cache cf with
          | (Err s, cache', cf') => (Refused s, cache', cf')
          | (Ok (p, email), cache', cf') => (Runs op values (Some p) email, cache', cf')
          end
      end
  end.
End serve.

(** ** The public description of the API *)

Definition has_string (tag : string) (l : list any) : bool := existsb (fun t => match t with AString s => String.eqb s tag | _ => String.eqb "" tag end) l.

Definition op_tagged (tag : string) (op : any) : bool :=
  match op with
  | AMap m => match m !! "tags" with Some (AList tags) => has_string tag tags | _ => false end
  | _ => false
  end.

Definition operationHasTag (item : any) (tag : string) : bool :=
  match item with
  | AMap ops => existsb (fun kv => op_tagged tag kv.2) (map_to_list ops)
  | _ => false
  end.

(** A value of the document rewritten when it is an object. *)
Definition at_object (key : string) (f : gmap string any -> gmap string any) (m : gmap string any) : gmap string any :=
  match m !! key with Some (AMap sub) => <[key := AMap (f sub)]> m | _ => m end.

Definition publicSpec (doc : gmap string any) : gmap string any :=
  let doc := at_object "paths" (filter (fun kv => operationHasTag kv.2 "admin" = false)) doc in
  at_object "components" (at_object "schemas" (filter (fun kv => HasPrefix kv.1 "Admin" = false))) doc.

(** ** Around the handlers (build.go) *)

Definition statusFamily (code : Z) : string :=
  if 500 <=? code then "5xx" else if 400 <=? code then "4xx" else if 300 <=? code then "3xx" else if 200 <=? code then "2xx" else "1xx".

Definition routeClass (method : string) : string :=
  if bool_decide (method ∈ ["GET"; "HEAD"; "OPTIONS"]) then "read" else "write".

(** The id of a request: the trace's, the client's or a fresh one. *)
Definition request_id (trace header : string) (random : option string) : string :=
  if negb (String.eqb trace "") then trace else if negb (String.eqb header "") then header else default "" random.

(** The status a response reports: the first header written, 200 if the body came first. *)
Inductive WriteCall := WriteHeader (code : Z) | Write (b : string).
Record statusWriter := mkStatusWriter { sw_status : Z; sw_wrote : bool }.
Definition sw_step (s : statusWriter) (c : WriteCall) : statusWriter :=
  match c with
  | WriteHeader code => if sw_wrote s then s else mkStatusWriter code true
  | Write _ => mkStatusWriter (sw_status s) true
  end.
Definition reported_status (calls : list WriteCall) : Z := sw_status (foldl sw_step (mkStatusWriter 200 false) calls).
