(* ===== verification/RouterInv.v ===== *)
(** * RouterInv: what the routing of requests guarantees

    Every request has at most one most specific route; a handler runs only behind the guard its
    path needs, with the rights of the org in the URL as the caches give them; the operator's routes
    never see a session where Cloudflare Access is configured; the address a session's requests
    carry; and the public description shows nothing of the operator's routes. *)

From S2P Require Import Prelude Domain GoStrings Crypto Authz Members MonitorApi Auth AuthInv Channels ChannelsInv AccountsInv Billing Login Tokens TokensInv Router.
Open Scope Z_scope.

(** ** Patterns *)

Lemma more_specific_refl p : more_specific p p = true.
Proof. induction p as [|[s|n] p IH]; simpl; [done| |done]. by rewrite String.eqb_refl. Qed.

Lemma more_specific_trans p q r : more_specific p q = true -> more_specific q r = true -> more_specific p r = true.
Proof.
  revert q r. induction p as [|[s|n] p IH]; intros [|[t|m] q] [|[u|k] r]; simpl; try done; rewrite ?andb_true_iff.
  - intros [->%String.eqb_eq H1] [->%String.eqb_eq H2]. rewrite String.eqb_refl. eauto.
  - intros [_ H1] H2. eauto.
  - eauto.
  - eauto.
Qed.

(** Some path matches both. *)
Fixpoint overlap (p q : list Segment) : bool :=
  match p, q with
  | [], [] => true
  | Lit s :: p', Lit t :: q' => String.eqb s t && overlap p' q'
  | Lit _ :: p', Wild _ :: q' | Wild _ :: p', Lit _ :: q' | Wild _ :: p', Wild _ :: q' => overlap p' q'
  | _, _ => false
  end.

#[local] Ltac no_match := intros; match goal with H : is_Some None |- _ => by destruct H end.

Lemma overlap_complete p q path : is_Some (match_path p path) -> is_Some (match_path q path) -> overlap p q = true.
Proof.
  revert q path. induction p as [|[s|n] p IH]; intros [|[t|m] q] [|a path]; simpl; try (done || no_match).
  - destruct (String.eqb_spec s a) as [->|]; [|by no_match]. destruct (String.eqb_spec t a) as [->|]; [|by no_match].
    rewrite String.eqb_refl. apply IH.
  - destruct (String.eqb s a); [|by no_match]. destruct (String.eqb a ""); [by no_match|].
    intros H1 [? (? & H2 & _)%bind_Some]. eapply IH; eauto.
  - destruct (String.eqb a ""); [by no_match|]. destruct (String.eqb t a); [|by no_match].
    intros [? (? & H1 & _)%bind_Some] H2. eapply IH; eauto.
  - destruct (String.eqb a ""); [by no_match|]. intros [? (? & H1 & _)%bind_Some] [? (? & H2 & _)%bind_Some]. eapply IH; eauto.
Qed.

(** Two registered routes: apart, or one strictly inside the other. *)
Definition same_method (m m' : string) : bool := String.eqb m m' || (bool_decide (m ∈ ["GET"; "HEAD"]) && bool_decide (m' ∈ ["GET"; "HEAD"])).
Definition apart (r r' : Route) : bool :=
  bool_decide (r = r') || negb (same_method (rte_method r) (rte_method r')) || negb (overlap (rte_path r) (rte_path r'))
  || xorb (more_specific (rte_path r) (rte_path r')) (more_specific (rte_path r') (rte_path r)).

Lemma routes_apart dev r r' : r ∈ routes dev -> r' ∈ routes dev -> apart r r' = true.
Proof.
  assert (forallb (fun r => forallb (apart r) (routes dev)) (routes dev) = true) as Hall by (destruct dev; vm_compute; reflexivity).
  rewrite forallb_forall in Hall. intros Hr%list_elem_of_In Hr'%list_elem_of_In. pose proof (Hall r Hr) as H1. rewrite forallb_forall in H1. by apply H1.
Qed.

Lemma matches_method r r' m path : matches m path r = true -> matches m path r' = true ->
  same_method (rte_method r) (rte_method r') = true /\ overlap (rte_path r) (rte_path r') = true.
Proof.
  unfold matches. intros [H1 P1%bool_decide_eq_true]%andb_true_iff [H2 P2%bool_decide_eq_true]%andb_true_iff.
  split; [|by eapply overlap_complete]. unfold match_method in *. unfold same_method. apply orb_true_iff in H1, H2.
  destruct H1 as [->%String.eqb_eq|[->%String.eqb_eq ->%String.eqb_eq]%andb_true_iff], H2 as [->%String.eqb_eq|[->%String.eqb_eq Hh]%andb_true_iff];
    rewrite ?String.eqb_refl; try done. apply String.eqb_eq in Hh as ->. done.
Qed.

(** A non-empty list on which a transitive relation is total has a least element. *)
Lemma least_exists {A} (R : A -> A -> bool) (l : list A) :
  (forall x, R x x = true) -> (forall x y z, R x y = true -> R y z = true -> R x z = true) ->
  (forall x y, x ∈ l -> y ∈ l -> R x y = true \/ R y x = true) -> l <> [] ->
  exists x, x ∈ l /\ forall y, y ∈ l -> R x y = true.
Proof.
  intros Hr Ht. induction l as [|a l IH]; intros Htot Hne; [done|]. destruct (decide (l = [])) as [->|Hl].
  - exists a. split; [left|]. intros y ->%list_elem_of_singleton. apply Hr.
  - destruct IH as (x & Hx & Hmin); [by intros x y Hx Hy; apply Htot; right|done|].
    destruct (Htot a x) as [Ha|Ha]; [left|by right| |].
    + exists a. split; [left|]. intros y [->|Hy]%elem_of_cons; [apply Hr|]. eapply Ht; [exact Ha|by apply Hmin].
    + exists x. split; [by right|]. intros y [->|Hy]%elem_of_cons; [done|by apply Hmin].
Qed.

(** Routing is unambiguous.  Whatever the method and path, if a route of the table matches, the
    multiplexer picks the same one in any order of registration: it matches, it is strictly more
    specific than every other route that matches, and no registration is refused as conflicting. *)
Theorem routing_is_unambiguous dev method path r0 : r0 ∈ routes dev -> matches method path r0 = true ->
  exists r values, lookup_route (routes dev) method path = Found r values /\ r ∈ routes dev /\ matches method path r = true /\
    match_path (rte_path r) path = Some values /\
    forall r', r' ∈ routes dev -> matches method path r' = true ->
      r' = r \/ (more_specific (rte_path r) (rte_path r') = true /\ more_specific (rte_path r') (rte_path r) = false).
Proof.
  intros Hr0 Hm0. set (cands := filter (fun r => matches method path r = true) (routes dev)).
  assert (forall r, r ∈ cands <-> matches method path r = true /\ r ∈ routes dev) as Hc by (intros r; unfold cands; by rewrite list_elem_of_filter).
  assert (forall r r', r ∈ cands -> r' ∈ cands -> r = r' \/ xorb (more_specific (rte_path r) (rte_path r')) (more_specific (rte_path r') (rte_path r)) = true) as Hx.
  { intros r r' [Hm Hr]%Hc [Hm' Hr']%Hc. pose proof (routes_apart dev r r' Hr Hr') as Ha. destruct (matches_method _ _ _ _ Hm Hm') as [Hs Ho].
    unfold apart in Ha. rewrite Hs, Ho in Ha. cbn [negb orb] in Ha. rewrite !orb_false_r in Ha.
    apply orb_true_iff in Ha as [?%bool_decide_eq_true|?]; auto. }
  destruct (least_exists (fun r r' => more_specific (rte_path r) (rte_path r')) cands) as (r & Hr & Hmin).
  - intros r. apply more_specific_refl.
  - intros r r' r''. apply more_specific_trans.
  - intros r r' Hr Hr'. destruct (Hx r r' Hr Hr') as [->|H]; [left; apply more_specific_refl|].
    destruct (more_specific (rte_path r) (rte_path r')), (more_specific (rte_path r') (rte_path r)); auto.
  - intros He. assert (r0 ∈ cands) as H0 by (by apply Hc). rewrite He in H0. by apply elem_of_nil in H0.
  - assert (filter (fun r => forallb (fun r' => more_specific (rte_path r) (rte_path r')) cands = true) cands <> []) as Hne.
    { intros He. assert (r ∈ filter (fun r => forallb (fun r' => more_specific (rte_path r) (rte_path r')) cands = true) cands) as Hin.
      { apply list_elem_of_filter. split; [|done]. apply forallb_forall. intros r' Hr'%list_elem_of_In. by apply Hmin. }
      rewrite He in Hin. by apply elem_of_nil in Hin. }
    unfold lookup_route. fold cands. destruct (filter (fun r => forallb _ cands = true) cands) as [|r1 rest] eqn:Hf; [done|]. clear Hne.
    assert (r1 ∈ filter (fun r => forallb (fun r' => more_specific (rte_path r) (rte_path r')) cands = true) cands) as Hr1 by (rewrite Hf; left).
    apply list_elem_of_filter in Hr1 as [Hall Hr1]. pose proof (proj1 (Hc r1) Hr1) as [Hm1 Hin1].
    assert (is_Some (match_path (rte_path r1) path)) as [values Hv].
    { unfold matches in Hm1. apply andb_true_iff in Hm1 as [_ Hm1]. by apply bool_decide_eq_true in Hm1. }
    exists r1, values. rewrite Hv. split_and!; try done. intros r' Hr' Hm'. assert (r' ∈ cands) as Hc' by (by apply Hc).
    rewrite forallb_forall in Hall. pose proof (Hall r' (proj1 (list_elem_of_In _ _) Hc')) as Hsp.
    destruct (Hx r1 r' Hr1 Hc') as [->|Hxor]; [by left|]. right. rewrite Hsp in Hxor. split; [done|].
    by destruct (more_specific (rte_path r') (rte_path r1)).
Qed.

(** ** Guards *)

Definition ops (a : Access) : list string := rte_op <$> filter (fun r => rte_access r = a) (routes true).

(** The operation says the guard. *)
Lemma access_of_op dev r a : r ∈ routes dev -> rte_op r ∈ ops a -> rte_access r = a.
Proof.
  assert (forallb (fun r => forallb (fun r' => negb (String.eqb (rte_op r) (rte_op r')) || bool_decide (rte_access r = rte_access r')) (routes true)) (routes true) = true) as Hall
    by (vm_compute; reflexivity).
  intros Hr. assert (r ∈ routes true) as Hr1.
  { destruct dev; [done|]. assert (forallb (fun r => bool_decide (r ∈ routes true)) (routes false) = true) as Hsub by (vm_compute; reflexivity).
    rewrite forallb_forall in Hsub. apply list_elem_of_In in Hr. by apply Hsub, bool_decide_eq_true in Hr. }
  unfold ops. intros (r' & Hop & Hr')%list_elem_of_fmap. apply list_elem_of_filter in Hr' as [<- Hr'].
  rewrite forallb_forall in Hall. specialize (Hall r (proj1 (list_elem_of_In _ _) Hr1)). rewrite forallb_forall in Hall.
  specialize (Hall r' (proj1 (list_elem_of_In _ _) Hr')). rewrite Hop, String.eqb_refl in Hall. by apply bool_decide_eq_true in Hall.
Qed.

Lemma lookup_found table m path r values : lookup_route table m path = Found r values ->
  r ∈ table /\ matches m path r = true /\ match_path (rte_path r) path = Some values.
Proof.
  unfold lookup_route. set (cands := filter (fun r => matches m path r = true) table).
  destruct (filter (fun r => forallb _ cands = true) cands) as [|r1 rest] eqn:Hf; [by case_match|]. intros [= <- <-].
  assert (r1 ∈ filter (fun r => forallb (fun r' => more_specific (rte_path r) (rte_path r')) cands = true) cands) as Hr1 by (rewrite Hf; left).
  apply list_elem_of_filter in Hr1 as [_ Hr1]. unfold cands in Hr1. apply list_elem_of_filter in Hr1 as [Hm Hr1]. split_and!; [done|done|].
  unfold matches in Hm. apply andb_true_iff in Hm as [_ Hm]. apply bool_decide_eq_true in Hm as [v Hv]. by rewrite Hv.
Qed.

(** What may run without a principal. *)
Definition public_operations : list string :=
  ["handleLogin"; "handleCallback"; "handleRefresh"; "handleLogout"; "handleLogoutAll"; "handleJWKS"; "handleEmailStart"; "handleEmailVerify"; "handleDevLogin";
   "handleOpenAPISpec"; "handleSwaggerUI"; "GetPublicStatusPage"; "GetInvitationPreview"].

Lemma open_is_public dev r : r ∈ routes dev -> rte_access r = Open -> rte_op r ∈ public_operations.
Proof.
  intros Hr Ha.
  assert (forallb (fun r => negb (bool_decide (rte_access r = Open)) || bool_decide (rte_op r ∈ public_operations)) (routes dev) = true) as Hall
    by (destruct dev; vm_compute; reflexivity).
  rewrite forallb_forall in Hall. apply list_elem_of_In, Hall in Hr. rewrite Ha in Hr. by apply bool_decide_eq_true in Hr.
Qed.

Lemma match_path_take n p path values : match_path p path = Some values -> is_Some (match_path (take n p) (take n path)) /\ length p = length path.
Proof.
  revert n path values. induction p as [|[s|w] p IH]; intros n [|a path] values; cbn [match_path]; try done.
  - intros _. by rewrite !take_nil.
  - destruct (String.eqb s a) eqn:He; [|done]. intros Hm. destruct (IH (pred n) _ _ Hm) as [H1 H2]. split; [|cbn; congruence].
    destruct n as [|n]; cbn [take match_path]; [done|]. by rewrite He.
  - destruct (String.eqb a "") eqn:He; [done|]. intros (vs & Hm & _)%bind_Some. destruct (IH (pred n) _ _ Hm) as [[v H1] H2]. split; [|cbn; congruence].
    destruct n as [|n]; cbn [take match_path]; [done|]. rewrite He. cbn [pred] in H1. rewrite H1. cbn. by eauto.
Qed.

(** A route that takes a path below an org has the org guard and binds the org of the path. *)
Lemma org_path_route dev r o rest values : r ∈ routes dev -> match_path (rte_path r) ("api" :: "v1" :: "orgs" :: o :: rest) = Some values ->
  rte_access r = OrgScoped /\ path_value "orgId" values = o /\ o <> "".
Proof.
  intros Hr Hm.
  assert (forallb (fun r => negb (overlap (take 3 (rte_path r)) [Lit "api"; Lit "v1"; Lit "orgs"]) || (length (rte_path r) <=? 3)%nat
    || (bool_decide (rte_access r = OrgScoped) && bool_decide (take 4 (rte_path r) = [Lit "api"; Lit "v1"; Lit "orgs"; Wild "orgId"]))) (routes dev) = true) as Hall
    by (destruct dev; vm_compute; reflexivity).
  rewrite forallb_forall in Hall. apply list_elem_of_In, Hall in Hr.
  assert (overlap (take 3 (rte_path r)) [Lit "api"; Lit "v1"; Lit "orgs"] = true) as Ho.
  { apply (overlap_complete _ _ ["api"; "v1"; "orgs"]); [|by eexists]. by apply (match_path_take 3) in Hm as [Hm _]. }
  rewrite Ho in Hr. cbn [negb orb] in Hr. apply orb_true_iff in Hr as [Hr|[Ha%bool_decide_eq_true Hp%bool_decide_eq_true]%andb_true_iff].
  - exfalso. apply Nat.leb_le in Hr. apply (match_path_take 0) in Hm as [_ Hm]. cbn in Hm. lia.
  - split; [done|]. rewrite <- (take_drop 4 (rte_path r)), Hp in Hm. cbn [app match_path] in Hm. rewrite !String.eqb_refl in Hm.
    destruct (String.eqb_spec o ""); [done|]. destruct (match_path _ rest) as [vs|]; [|done]. simpl in Hm. injection Hm as <-.
    split; [|done]. unfold path_value. simpl. by rewrite lookup_insert_eq.
Qed.

Section guards.
Context (HashToken : string -> string) (marshal : cachedDescriptor -> string) (unmarshal : string -> option cachedDescriptor).
Context (verify : Time -> string -> option VerifiedToken) (cfVerify : option (Time -> string -> CFCache -> result tokenError string * CFCache)).
Context (dev : bool).
Abbreviation request_serve := (serve HashToken marshal unmarshal (C := Redis) verify cfVerify dev).

Lemma serve_runs now i db cache cf op values p email cache' cf' :
  request_serve now i db cache cf = (Runs op values p email, cache', cf') ->
  exists r, r ∈ routes dev /\ rte_op r = op /\ match_path (rte_path r) (in_Path i) = Some values /\
    let req := auth_request i values in
    match rte_access r with
    | Open => p = None /\ email = ""
    | Identified => identify HashToken marshal unmarshal verify now req db cache = (Ok (default (mkPrincipal ActorHuman 0 0 0 None) p), cache') /\ p <> None
    | OrgScoped => authenticate HashToken marshal unmarshal (verified_user verify) now req db cache = (Ok (default (mkPrincipal ActorHuman 0 0 0 None) p), cache') /\ p <> None
    | Operator => adminAuth HashToken marshal unmarshal verify cfVerify now i req db cache cf = (Ok (default (mkPrincipal ActorHuman 0 0 0 None) p, email), cache', cf') /\ p <> None
    end.
Proof.
  unfold serve. destruct (lookup_route _ _ _) as [r vs| |] eqn:Hl; [|done|done]. apply lookup_found in Hl as (Hr & _ & Hv).
  destruct (rte_access r) eqn:Ha.
  - intros [= <- <- <- <- _ _]. exists r. rewrite Ha. done.
  - destruct (identify _ _ _ _ _ _ _ _) as [[q|] ?] eqn:Hi; [|done]. intros [= <- <- <- _ <- <-]. exists r. rewrite Ha. cbv zeta. split_and!; try done.
  - destruct (authenticate _ _ _ _ _ _ _ _) as [[q|] ?] eqn:Hi; [|done]. intros [= <- <- <- _ <- <-]. exists r. rewrite Ha. cbv zeta. split_and!; try done.
  - destruct (adminAuth _ _ _ _ _ _ _ _ _ _ _) as [[[[q e]|] ?] ?] eqn:Hi; [|done]. intros [= <- <- <- <- <- <-]. exists r. rewrite Ha. cbv zeta. split_and!; try done.
Qed.

(** C10: a handler runs only behind its guard.  Without a principal run only the sign-in plane, the
    key set, the API description, public status pages and the preview of an invitation.  Whatever
    runs for a path below /api/v1/orgs/{org} runs, for a person, as a member of the org in the path
    with the role of that membership (the X-Pulse-Org header cannot name another one), and for an API
    key with the org and role of a key that is not revoked; the caches in front of both tables make
    that the membership or key as it was at most five minutes ago, plus the longest time from a read
    of a table to the write of its cache. *)
Theorem handlers_run_behind_their_guards tablesAt delay now redis i cf op values p email cache' cf' :
  (forall d, unmarshal (marshal d) = Some d) -> 0 <= delay -> caches_at marshal tablesAt delay now redis ->
  request_serve now i (tablesAt now) (Some redis) cf = (Runs op values p email, cache', cf') ->
  (p = None -> op ∈ public_operations) /\
  (forall o rest, in_Path i = "api" :: "v1" :: "orgs" :: o :: rest ->
     exists t0, now - 5 * Minute - delay < t0 <= now /\
     ((exists raw j k, bearerAPIKey (auth_request i values) = Some raw /\ api_keys (tablesAt t0) !! j = Some k /\ ak_TokenHash k = HashToken raw /\
         ak_RevokedAt k = None /\ p = Some (mkPrincipal ActorAPIKey 0 (ak_ID k) (ak_OrgID k) (Some (ak_Role k)))) \/
      (exists raw vt org m, accessJWT (auth_request i values) = Some raw /\ verify now raw = Some vt /\ Atoi o = Some org /\
         GetMembership (vt_UserID vt) org (kaccounts (tablesAt t0)) = Ok m /\ p = Some (mkPrincipal ActorHuman (vt_UserID vt) 0 org (Some (mb_Role m)))))).
Proof.
  intros Hjson Hd Hc Hs. apply serve_runs in Hs as (r & Hr & <- & Hv & Hg). split.
  - intros ->. destruct (rte_access r) eqn:Ha; [|by destruct Hg..]. by eapply open_is_public.
  - intros o rest Hpath. rewrite Hpath in Hv. destruct (org_path_route dev r o rest values Hr Hv) as (Ha & Hval & Hne). rewrite Ha in Hg. destruct Hg as [Hg Hp].
    destruct p as [q|]; [|done]. simpl in Hg.
    destruct (rights_are_recent _ _ _ _ _ _ _ _ _ _ _ Hjson Hd Hc Hg) as (t0 & Ht & [(raw & j & k & H1 & H2 & H3 & H4 & ->)|(raw & u & org & m & _ & H2 & H3 & H4 & H5 & ->)]);
      exists t0; (split; [done|]).
    + left. by exists raw, j, k.
    + right. unfold verified_user in H3. destruct (verify now raw) as [vt|] eqn:Hvt; [|done]. injection H3 as <-. exists raw, vt, org, m.
      split_and!; try done. unfold orgIDFromRequest in H4. simpl in H4. rewrite Hval in H4. apply String.eqb_neq in Hne. by rewrite Hne in H4.
Qed.

(** Where the dev sign-in is off, its handler never runs. *)
Theorem dev_login_never_runs now i db cache cf op values p email cache' cf' : dev = false ->
  request_serve now i db cache cf = (Runs op values p email, cache', cf') -> op <> "handleDevLogin".
Proof.
  intros Hd (r & Hr & <- & _)%serve_runs. rewrite Hd in Hr.
  assert (forallb (fun r => negb (String.eqb (rte_op r) "handleDevLogin")) (routes false) = true) as Hall by (vm_compute; reflexivity).
  rewrite forallb_forall in Hall. apply list_elem_of_In, Hall in Hr. apply negb_true_iff, String.eqb_neq in Hr. done.
Qed.
End guards.

(** The request itself is answered 405: the path is one of the provider sign-in, for another method. *)
Theorem dev_login_off_is_405 : lookup_route (routes false) "POST" ["auth"; "dev"; "login"] = MethodNotAllowed.
Proof. reflexivity. Qed.

(** Leaving an org is not removing a member called me. *)
Example leave_is_not_remove :
  match lookup_route (routes false) "DELETE" ["api"; "v1"; "orgs"; "7"; "members"; "me"], lookup_route (routes false) "DELETE" ["api"; "v1"; "orgs"; "7"; "members"; "3"] with
  | Found r _, Found r' _ => rte_op r = "LeaveOrg" /\ rte_op r' = "RemoveMember"
  | _, _ => False
  end.
Proof. split; reflexivity. Qed.

(** ** The operator *)

Section operator_routes.
Context {PrivKey : Type} (public : PrivKey -> RSAPublicKey) (SignedString : TokenHeader -> Claims -> PrivKey -> option string).
Context (ParseWithClaims : Parser) (decode : string -> option (TokenHeader * Claims)) (checks : string -> RSAPublicKey -> bool).
Context `{!JWTLaws public SignedString ParseWithClaims decode checks}.
Context (HashToken : string -> string) (marshal : cachedDescriptor -> string) (unmarshal : string -> option cachedDescriptor).
Context (verify : Time -> string -> option VerifiedToken) (ToLower : string -> string) (admins : gset string).
Context (v : CFAccessVerifier) (fetch : Time -> CertsFetch) (dev : bool).

Definition cf_check (now : Time) (raw : string) (cf : CFCache) : result tokenError string * CFCache :=
  CF_Verify ParseWithClaims ToLower v now (fetch now) raw cf.
Abbreviation operator_serve := (serve HashToken marshal unmarshal (C := Redis) verify (Some cf_check) dev).

Lemma CF_Verify_Ok now raw cf email cf' : cf_check now raw cf = (Ok email, cf') ->
  exists h c kid key, decode raw = Some (h, c) /\ th_alg h = "RS256" /\ th_kid h = Some kid /\ (keyByKID v now (fetch now) kid cf).1 = Ok key /\
    checks raw key = true /\ valid_claims (mkParseOptions ["RS256"] (cv_issuer v) (cv_aud v) now) c = true /\ email = ToLower (TrimSpace (cl_Email c)).
Proof using JWTLaws0.
  unfold cf_check, CF_Verify. destruct (String.eqb raw ""); [done|]. destruct (ParseWithClaims _ _ _ raw cf) as [[c|] c'] eqn:Hp; [|done].
  apply (f_equal fst) in Hp. apply parse_ok in Hp as (h & key & Hd & Ha%list_elem_of_singleton & Hk & Hc & Hv).
  destruct (String.eqb _ ""); [done|]. intros [= <- _]. unfold cf_key in Hk. destruct (negb (is_RSA h)); [done|].
  destruct (th_kid h) as [[|a s]|] eqn:Hkid; [done| |done]. by exists h, c, (String a s), key.
Qed.

(** C17: with Cloudflare Access configured, an operator's handler runs and passes its own check only
    for a token of that header which a key of the team's set signed for this application, still
    valid, whose address is on the allowlist; the session cookie, the bearer token and the org header
    of the request play no part: any other request with the same token has the same outcome. *)
Theorem operator_identity_is_verified now i db cache cf op values p email cache' cf' e :
  operator_serve now i db cache cf = (Runs op values (Some p) email, cache', cf') -> op ∈ ops Operator ->
  admin_gate admins ToLower (Some (pr_Kind p, email)) = Ok e ->
  (exists h c kid key, decode (in_CFAccess i) = Some (h, c) /\ th_alg h = "RS256" /\ th_kid h = Some kid /\ (keyByKID v now (fetch now) kid cf).1 = Ok key /\
     checks (in_CFAccess i) key = true /\ valid_claims (mkParseOptions ["RS256"] (cv_issuer v) (cv_aud v) now) c = true /\
     e = ToLower (TrimSpace (cl_Email c)) /\ ToLower (TrimSpace e) ∈ admins) /\
  (forall auth cookie org db' cache2,
     operator_serve now (mkIncoming (in_Method i) (in_Path i) auth cookie org (in_CFAccess i)) db' cache2 cf = (Runs op values (Some p) email, cache2, cf')).
Proof using JWTLaws0.
  intros Hs Hop Hg. pose proof Hs as Hs0. apply serve_runs in Hs0 as (r & Hr & Hro & Hv & Hacc). rewrite <- Hro in Hop. apply (access_of_op dev) in Hop as Ha; [|done].
  rewrite Ha in Hacc. destruct Hacc as [Hacc _]. unfold adminAuth in Hacc. simpl in Hacc. destruct (cf_check now (in_CFAccess i) cf) as [[em|] cf1] eqn:Hc; [|done].
  injection Hacc as <- <- _ <-. split.
  - unfold admin_gate in Hg. simpl in Hg. destruct (Billing.isPlatformAdmin admins ToLower em) eqn:Hadm; [|done]. injection Hg as <-.
    unfold Billing.isPlatformAdmin in Hadm. apply bool_decide_eq_true in Hadm.
    apply CF_Verify_Ok in Hc as (h & c & kid & key & H1 & H2 & H3 & H4 & H5 & H6 & H7). exists h, c, kid, key. by split_and!.
  - intros auth cookie org db' cache2. unfold serve in Hs |- *. cbn [in_Method in_Path] in *. destruct (lookup_route _ _ _) as [r1 vs| |] eqn:Hl; [|done|done].
    assert (rte_access r1 = Operator) as Ha1.
    { assert (rte_op r1 = op) as Ho by (clear -Hs; repeat case_match; by simplify_eq). apply lookup_found in Hl as (Hr1 & _ & _).
      apply (access_of_op dev); [done|]. by rewrite Ho, <- Hro. }
    rewrite Ha1 in Hs |- *. unfold adminAuth in Hs |- *. cbn [in_CFAccess]. rewrite Hc in Hs |- *. by injection Hs as <- <- _.
Qed.
End operator_routes.

(** ** The address of a session *)

(** Only paths below /api/v1/admin lead to an operator's handler. *)
Lemma operator_paths dev r path values : r ∈ routes dev -> match_path (rte_path r) path = Some values -> rte_access r = Operator ->
  take 3 path = ["api"; "v1"; "admin"].
Proof.
  intros Hr Hm Ha.
  assert (forallb (fun r => negb (bool_decide (rte_access r = Operator)) || bool_decide (take 3 (rte_path r) = [Lit "api"; Lit "v1"; Lit "admin"])) (routes dev) = true) as Hall
    by (destruct dev; vm_compute; reflexivity).
  rewrite forallb_forall in Hall. apply list_elem_of_In, Hall in Hr. rewrite Ha in Hr. apply bool_decide_eq_true in Hr.
  apply (match_path_take 3) in Hm as [[vs Hm] Hl]. rewrite Hr in Hm.
  clear -Hm. revert Hm. destruct (take 3 path) as [|a [|b [|c [|d]]]]; cbn [match_path]; repeat (case_match; [|done]); intros Hm; try done.
  repeat match goal with H : String.eqb _ _ = true |- _ => apply String.eqb_eq in H end. by subst.
Qed.

Section session_email.
Context {PrivKey : Type} (public : PrivKey -> RSAPublicKey) (SignedString : TokenHeader -> Claims -> PrivKey -> option string).
Context (ParseWithClaims : Parser) (decode : string -> option (TokenHeader * Claims)) (checks : string -> RSAPublicKey -> bool).
Context `{!JWTLaws public SignedString ParseWithClaims decode checks}.
Context (HashToken : string -> string) (marshal : cachedDescriptor -> string) (unmarshal : string -> option cachedDescriptor).
Context (j : JWTIssuer PrivKey) (plain_issuer : plain (ji_issuer j)) (plain_audience : plain (ji_audience j)) (plain_kid : plain (sk_kid (ji_signing j))).
Context (cfVerify : option (Time -> string -> CFCache -> result tokenError string * CFCache)) (dev : bool).

Definition issuer_verify (t : Time) (raw : string) : option VerifiedToken :=
  match Tokens.Verify ParseWithClaims j t raw with Ok vt => Some vt | Err _ => None end.
Abbreviation session_serve := (serve HashToken marshal unmarshal (C := Redis) issuer_verify cfVerify dev).

(** A request with no Authorization header has the identity of its access cookie. *)
Lemma cookie_identity t r db (cache : option Redis) p cache' : rq_Authorization r = "" ->
  identify HashToken marshal unmarshal issuer_verify t r db cache = (Ok p, cache') ->
  exists vt, Tokens.Verify ParseWithClaims j t (rq_AccessCookie r) = Ok vt /\ identified_email issuer_verify t r = vt_Email vt.
Proof.
  intros Hauth. unfold identify, Identify, identified_email, bearerAPIKey, accessJWT, bearerToken, verified_user, issuer_verify. rewrite Hauth. simpl.
  destruct (negb (String.eqb (rq_AccessCookie r) "")); [|done]. simpl.
  destruct (Tokens.Verify _ _ _ _) as [vt|] eqn:Hv; [|done]. intros _. by exists vt.
Qed.

Lemma session_runs t i db (cache : option Redis) cf op values p em cache' cf' : in_Authorization i = "" ->
  cfVerify = None \/ take 3 (in_Path i) <> ["api"; "v1"; "admin"] ->
  session_serve t i db cache cf = (Runs op values (Some p) em, cache', cf') ->
  exists vt, Tokens.Verify ParseWithClaims j t (in_AccessCookie i) = Ok vt /\ em = vt_Email vt.
Proof.
  intros Hauth Hcf. unfold serve. destruct (lookup_route _ _ _) as [r vs| |] eqn:Hl; [|done|done]. apply lookup_found in Hl as (Hr & _ & Hm).
  pose proof (fun p c => cookie_identity t (auth_request i vs) db cache p c Hauth) as Hid. destruct (rte_access r) eqn:Ha; [done| | |].
  - destruct (identify _ _ _ _ _ _ _ _) as [[q|] c] eqn:Hi; [|done]. destruct (Hid _ _ eq_refl) as (vt & Hv & He). intros [= _ _ _ <- _ _]. eauto.
  - unfold authenticate. destruct (Identify _ _ _ _ _ _ _ _) as [[q|] c] eqn:Hi; [|done]. destruct (Hid _ _ Hi) as (vt & Hv & He).
    destruct (RequireOrg _ _ _ _ _) as [[|] ?]; [|done]. intros [= _ _ _ <- _ _]. eauto.
  - destruct Hcf as [->|Hne]; [|by destruct Hne; eapply operator_paths]. unfold adminAuth.
    destruct (identify _ _ _ _ _ _ _ _) as [[q|] c] eqn:Hi; [|done]. destruct (Hid _ _ eq_refl) as (vt & Hv & He). intros [= _ _ _ <- _ _]. eauto.
Qed.

(** C18: take a request that a handler runs with a principal, identified by its access cookie.  With
    the cookie of a sign-in it carries the user's address, and comes within 15 minutes of that
    sign-in.  With the cookie of a refresh, which follows, it carries an empty address: the Team-email
    test of a channel answers that user, who is signed in and may manage channels, that only a
    signed-in user can send it, and, where the admin routes use the session, a platform admin is
    refused. *)
Theorem refreshed_session_has_no_email t i db (cache : option Redis) cf op values p em cache' cf' : in_Authorization i = "" ->
  cfVerify = None \/ take 3 (in_Path i) <> ["api"; "v1"; "admin"] ->
  session_serve t i db cache cf = (Runs op values (Some p) em, cache', cf') ->
  (forall f now jti raw csrf u email l rt csrf' exp rexp l', plain jti -> plain email ->
     issueSession HashToken (fun now u email => Issue SignedString j now (Some jti) u email) f now raw csrf u email l =
       (Some (SetSession (in_AccessCookie i) rt csrf' exp rexp), l') ->
     em = email /\ t < now + 15 * Minute) /\
  (forall f now jti newRaw csrf cookie l rt csrf' exp rexp l', plain jti ->
     handleRefresh HashToken (fun now u email => Issue SignedString j now (Some jti) u email) f now newRaw csrf cookie l =
       (NoContent, [SetSession (in_AccessCookie i) rt csrf' exp rexp], l') ->
     em = "" /\
     (forall cipher registry publish tester q actor id cid ch cdb,
        humanInOrg (Some p) = Some (q, actor) -> de_Allowed (Can actor ActionManageChannels (org_resource (pr_OrgID q))) = true ->
        parseMonitorID id = Some cid -> GetChannel cipher (SecretKeys registry) (pr_OrgID q) cid cdb = Ok ch -> ch_Type ch = "email" ->
        TestChannel cipher registry publish tester (Some p) em id cdb =
          (CPlain (R422 "a Team email test can only be sent by a signed-in user"), [])) /\
     (forall admins ToLower, "" ∉ admins -> ToLower "" = "" -> forall e, admin_gate admins ToLower (Some (pr_Kind p, em)) <> Ok e)).
Proof using JWTLaws0 plain_issuer plain_audience plain_kid.
  intros Hauth Hcf Hs. destruct (session_runs _ _ _ _ _ _ _ _ _ _ _ Hauth Hcf Hs) as (vt & Hv & ->). split.
  - intros f now jti raw csrf u email l rt csrf' exp rexp l' Pj Pe Hsess. unfold issueSession in Hsess.
    destruct (Refresh.Issue _ _ _ _ _ _) as [[issued|] r]; [|done]. destruct (Issue _ _ _ _ _ _) as [[a x]|] eqn:His; [|done].
    destruct csrf; [|done]. injection Hsess as -> _ _ -> _ _.
    by destruct (issued_email public SignedString ParseWithClaims decode checks j plain_issuer plain_audience plain_kid _ _ _ _ _ _ _ _ _ Pe Pj His Hv) as (-> & -> & ?).
  - intros f now jti newRaw csrf cookie l rt csrf' exp rexp l' Pj Href. assert (vt_Email vt = "") as ->.
    { unfold handleRefresh in Href. destruct cookie as [presented|]; [|done]. destruct (Refresh.Rotate _ _ _ _ _ _) as [[rot|e] r]; [|done].
      destruct (Issue _ _ _ _ _ _) as [[a x]|] eqn:His; [|done]. injection Href as -> _ _ -> _ _.
      by eapply (issued_email public SignedString ParseWithClaims decode checks j). }
    split_and!; [done| |].
    + intros * Hh Hd Hid Hg Ht. unfold TestChannel. by rewrite Hh, Hd, Hid, Hg, Ht.
    + intros admins ToLower Hn Hl e. unfold admin_gate, Billing.isPlatformAdmin. change (TrimSpace "") with "".
      rewrite Hl, bool_decide_eq_false_2 by done. by destruct (pr_Kind p).
Qed.
End session_email.

(** ** The public description *)

Lemma at_object_lookup key f m k :
  at_object key f m !! k = if decide (k = key) then match m !! key with Some (AMap sub) => Some (AMap (f sub)) | o => o end else m !! k.
Proof.
  unfold at_object. case_decide as Hk; [subst k|]; destruct (m !! key) as [[]|] eqn:He; rewrite ?lookup_insert_eq, ?lookup_insert_ne by done; done.
Qed.

Lemma operationHasTag_spec item tag : tag <> "" -> operationHasTag item tag = true <->
  exists ops method op tags, item = AMap ops /\ ops !! method = Some (AMap op) /\ op !! "tags" = Some (AList tags) /\ AString tag ∈ tags.
Proof.
  intros Htag. assert (String.eqb "" tag = false) as Hne by (apply String.eqb_neq; congruence).
  assert (forall op, op_tagged tag op = true <-> exists m tags, op = AMap m /\ m !! "tags" = Some (AList tags) /\ AString tag ∈ tags) as Hop.
  { intros op. unfold op_tagged. destruct op as [| | | | |m]; try (split; [done|]; by intros (? & ? & [=] & _)).
    assert (forall tags, has_string tag tags = true <-> AString tag ∈ tags) as Ht.
    { intros tags. unfold has_string. rewrite existsb_exists. split.
      - intros (t & Hin%list_elem_of_In & Ht). destruct t; try (by rewrite Hne in Ht). by apply String.eqb_eq in Ht as ->.
      - intros Hin. exists (AString tag). split; [by apply list_elem_of_In|]. apply String.eqb_refl. }
    split.
    - intros H. exists m. destruct (m !! "tags") as [[]|] eqn:Hm; try done. exists l. split_and!; [done|done|by apply Ht].
    - intros (m' & tags & [= <-] & -> & Hin). by apply Ht. }
  unfold operationHasTag. destruct item as [| | | | |ops]; try (split; [done|]; by intros (? & ? & ? & ? & [=] & _)).
  rewrite existsb_exists. split.
  - intros ([k o] & Hin%list_elem_of_In & Hk). apply elem_of_map_to_list in Hin. cbn [snd] in Hk. apply Hop in Hk as (m & tags & -> & ? & ?). by exists ops, k, m, tags.
  - intros (ops' & k & m & tags & [= <-] & Hk & Ht & Hin). exists (k, AMap m). split; [by apply list_elem_of_In, elem_of_map_to_list|]. apply Hop. eauto.
Qed.

(** The API description that anyone can read shows nothing of the operator: a path is in it exactly
    if none of its operations is tagged admin, a schema exactly if its name does not start with
    Admin, and everything else is as the full description has it. *)
Theorem public_spec_hides_admin doc paths comps schemas :
  doc !! "paths" = Some (AMap paths) -> doc !! "components" = Some (AMap comps) -> comps !! "schemas" = Some (AMap schemas) ->
  exists paths' comps' schemas',
    publicSpec doc !! "paths" = Some (AMap paths') /\ publicSpec doc !! "components" = Some (AMap comps') /\ comps' !! "schemas" = Some (AMap schemas') /\
    (forall k, k <> "paths" -> k <> "components" -> publicSpec doc !! k = doc !! k) /\ (forall k, k <> "schemas" -> comps' !! k = comps !! k) /\
    (forall path item, paths' !! path = Some item <-> paths !! path = Some item /\
       ~ exists ops method op tags, item = AMap ops /\ ops !! method = Some (AMap op) /\ op !! "tags" = Some (AList tags) /\ AString "admin" ∈ tags) /\
    (forall name s, schemas' !! name = Some s <-> schemas !! name = Some s /\ HasPrefix name "Admin" = false).
Proof.
  intros Hp Hc Hs. unfold publicSpec. eexists _, _, _. split_and!.
  - rewrite at_object_lookup, decide_False, at_object_lookup, decide_True, Hp by done. reflexivity.
  - rewrite at_object_lookup, decide_True, at_object_lookup, decide_False, Hc by done. reflexivity.
  - rewrite at_object_lookup, decide_True, Hs by done. reflexivity.
  - intros k H1 H2. by rewrite !at_object_lookup, !decide_False.
  - intros k H1. by rewrite at_object_lookup, decide_False.
  - intros path item. rewrite map_lookup_filter_Some. simpl. rewrite <- operationHasTag_spec by done. destruct (operationHasTag item "admin"); naive_solver.
  - intros name s. rewrite map_lookup_filter_Some. done.
Qed.

(** ** Labels *)

(** The label of a status is its hundreds, for every status of HTTP. *)
Theorem statusFamily_is_hundreds code : 100 <= code < 600 -> statusFamily code = pretty (code / 100) +:+ "xx".
Proof.
  intros Hc. unfold statusFamily. assert (code / 100 = 1 \/ code / 100 = 2 \/ code / 100 = 3 \/ code / 100 = 4 \/ code / 100 = 5) as H.
  { assert (1 <= code / 100 < 6) by (split; [apply Z.div_le_lower_bound|apply Z.div_lt_upper_bound]; lia). lia. }
  pose proof (Z.div_mod code 100). pose proof (Z.mod_pos_bound code 100).
  destruct H as [H|[H|[H|[H|H]]]]; rewrite H; repeat (case_match; try lia); reflexivity.
Qed.

(** The status observed is that of the first header, 200 without one before the body. *)
Theorem reported_status_first calls :
  reported_status calls = match calls with WriteHeader c :: _ => c | _ => 200 end.
Proof.
  assert (forall calls s, sw_wrote s = true -> sw_status (foldl sw_step s calls) = sw_status s) as Hdone.
  { induction calls0 as [|c calls0 IH]; intros s Hs; [done|]. simpl. destruct c; simpl; [by rewrite Hs, IH|]. by rewrite IH. }
  unfold reported_status. destruct calls as [|[c|b] calls]; [done| |]; simpl; by rewrite Hdone.
Qed.

(** ** Witnesses *)

Lemma routing_is_unambiguous_witness :
  exists r values, lookup_route (routes false) "DELETE" ["api"; "v1"; "orgs"; "7"; "members"; "me"] = Found r values /\ rte_op r = "LeaveOrg" /\ values = [("orgId", "7")].
Proof.
  destruct (routing_is_unambiguous false "DELETE" ["api"; "v1"; "orgs"; "7"; "members"; "me"]
    (at_ "DELETE" "/api/v1/orgs/{orgId}/members/{userId}" OrgScoped "RemoveMember")) as (r & values & Hl & _);
    [apply (bool_decide_unpack _); vm_compute; exact I|vm_compute; reflexivity|].
  exists r, values. split; [exact Hl|]. revert Hl. vm_compute. intros [= <- <-]. split; reflexivity.
Defined.

(** A member of org 7, whose role was cached a minute ago, asks for its monitors while another header
    names org 9. *)
Definition rx_verify (_ : Time) (raw : string) : option VerifiedToken := if String.eqb raw "tok" then Some (mkVerified 3 "a@x.io") else None.
Definition rx_request : Incoming := mkIncoming "GET" ["api"; "v1"; "orgs"; "7"; "monitors"] "" "tok" "9" "".
Definition rx_redis : Redis := (SetCache 0 (role_key (3, 7)) "admin" memberRoleTTL ∅).2.
Definition rx_serve : Outcome * option Redis * CFCache :=
  serve ex_hash ex_marshal_key ex_unmarshal_key rx_verify None false Minute rx_request ex_kdb1 (Some rx_redis) empty_cache.

Lemma rx_caches : caches_at ex_marshal_key (fun _ => ex_kdb1) 0 Minute rx_redis.
Proof.
  exists 0, (mkRT Minute rx_redis []), (mkRT Minute rx_redis []). do 4 (split; [done|]). split.
  - eapply rtc_l; [apply (rt_other _ _ _ _ _ _ rx_redis)|apply rtc_once, (rt_tick _ _ _ _ _ (mkRT 0 rx_redis []) Minute)].
    + intros k. right. unfold rx_redis, SetCache. cbn [snd]. by rewrite lookup_insert_ne.
    + vm_compute. discriminate.
    + by intros k v r ?%not_elem_of_nil.
  - eapply rtc_l; [apply (rt_read _ _ _ _ _ _ (3, 7))|]. eapply rtc_l; [eapply (rt_fill _ _ _ _ _ _ [] (3, 7) _ _ []); done|].
    apply rtc_once, (rt_tick _ _ _ _ _ (mkRT 0 rx_redis []) Minute); [vm_compute; discriminate|]. by intros k v r ?%not_elem_of_nil.
Qed.

Lemma handlers_run_behind_their_guards_witness :
  exists m, rx_serve.1.1 = Runs "ListMonitors" [("orgId", "7")] (Some (mkPrincipal ActorHuman 3 0 7 (Some (mb_Role m)))) "a@x.io" /\
    GetMembership 3 7 (kaccounts ex_kdb1) = Ok m.
Proof.
  destruct rx_serve as [[o c] cf] eqn:Hs.
  assert (exists p, o = Runs "ListMonitors" [("orgId", "7")] p "a@x.io") as [p ->] by (apply (f_equal (fun x => x.1.1)) in Hs; revert Hs; vm_compute; eauto).
  destruct (handlers_run_behind_their_guards ex_hash ex_marshal_key ex_unmarshal_key rx_verify None false (fun _ => ex_kdb1) 0 Minute rx_redis rx_request empty_cache
    _ _ _ _ _ _ ex_key_codec ltac:(done) rx_caches Hs) as [_ Hg].
  destruct (Hg "7" ["monitors"] eq_refl) as (t0 & _ & [(raw & j & k & Hb & _)|(raw & vt & org & m & Hr & Hv & Ho & Hm & ->)]); [discriminate Hb|].
  vm_compute in Hr. injection Hr as <-. vm_compute in Hv. injection Hv as <-. vm_compute in Ho. injection Ho as <-. exists m. split; [reflexivity|exact Hm].
Defined.

Definition rx_admin : Incoming := mkIncoming "GET" ["api"; "v1"; "admin"; "metrics"] "" "tok" "" tk_token.
Definition rx_now : Time := tk_now + 59 * Minute.
Definition rx_admin_serve : Outcome * option Redis * CFCache :=
  serve ex_hash ex_marshal_key ex_unmarshal_key rx_verify (Some (cf_check sim_parse ToLowerASCII tk_cf (fun t => tk_fetch t "new"))) false rx_now rx_admin ex_kdb1 (None : option Redis) tk_cached.

Lemma rx_admin_runs : exists p c cf, rx_admin_serve = (Runs "GetAdminMetrics" [] (Some p) "ops@x.io", c, cf) /\ pr_Kind p = ActorHuman.
Proof. eexists _, _, _. split; [vm_compute; reflexivity|reflexivity]. Qed.

Lemma operator_identity_is_verified_witness :
  exists h c, sim_decode tk_token = Some (h, c) /\ th_alg h = "RS256" /\ ToLowerASCII (TrimSpace (cl_Email c)) = "ops@x.io".
Proof.
  destruct rx_admin_runs as (p & c0 & cf & Hs & Hk).
  destruct (operator_identity_is_verified sim_public sim_sign sim_parse sim_decode sim_checks ex_hash ex_marshal_key ex_unmarshal_key rx_verify ToLowerASCII
    {[ "ops@x.io" ]} tk_cf (fun t => tk_fetch t "new") false rx_now rx_admin ex_kdb1 None tk_cached _ _ _ _ _ _ "ops@x.io" Hs) as [(h & c & kid & key & Hd & Ha & _ & _ & _ & _ & He & _) _].
  - apply (bool_decide_unpack _). vm_compute. exact I.
  - rewrite Hk. vm_compute. reflexivity.
  - exists h, c. split; [exact Hd|]. split; [exact Ha|]. symmetry. exact He.
Defined.

Definition rx_op (tag : string) : any := AMap {[ "get" := AMap {[ "tags" := AList [AString tag] ]} ]}.
Definition rx_doc : gmap string any :=
  <["paths" := AMap (<["/me" := rx_op "account"]> {[ "/admin/metrics" := rx_op "admin" ]})]>
  {[ "components" := AMap {[ "schemas" := AMap (<["Monitor" := ANil]> {[ "AdminOrg" := ANil ]}) ]} ]}.

Lemma public_spec_hides_admin_witness :
  exists paths' comps' schemas', publicSpec rx_doc !! "paths" = Some (AMap paths') /\ publicSpec rx_doc !! "components" = Some (AMap comps') /\
    comps' !! "schemas" = Some (AMap schemas') /\ paths' !! "/me" = Some (rx_op "account") /\ paths' !! "/admin/metrics" = None /\ schemas' !! "AdminOrg" = None.
Proof.
  destruct (public_spec_hides_admin rx_doc (<["/me" := rx_op "account"]> {[ "/admin/metrics" := rx_op "admin" ]})
    {[ "schemas" := AMap (<["Monitor" := ANil]> {[ "AdminOrg" := ANil ]}) ]} (<["Monitor" := ANil]> {[ "AdminOrg" := ANil ]}))
    as (paths' & comps' & schemas' & Hp & Hc & Hs & _ & _ & Hpath & Hname); [reflexivity|reflexivity|reflexivity|].
  exists paths', comps', schemas'. split_and!; [exact Hp|exact Hc|exact Hs|..].
  - apply Hpath. split; [reflexivity|]. intros (ops & method & op & tags & [= <-] & Hop & Ht & Hin).
    apply lookup_singleton_Some in Hop as [_ [= <-]]. apply lookup_singleton_Some in Ht as [_ [= <-]]. by apply list_elem_of_singleton in Hin.
  - destruct (paths' !! "/admin/metrics") as [item|] eqn:Hi; [|reflexivity]. exfalso. apply Hpath in Hi as [Hi Hno]. apply Hno.
    vm_compute in Hi. injection Hi as <-. eexists _, "get", _, _. split; [reflexivity|]. split; [reflexivity|]. split; [reflexivity|]. left.
  - destruct (schemas' !! "AdminOrg") as [x|] eqn:Hx; [|reflexivity]. exfalso. apply Hname in Hx as [_ Hx]. vm_compute in Hx. discriminate Hx.
Defined.

(** A sign-in, its refresh twenty minutes later, and the request for a Team-email test with each
    cookie. *)
Definition rx_kdb : KDB :=
  mkKDB (mkMDB {[ 1 := mkMembership 1 1 1 RoleMember ]} ∅ {[ 1 := mkOrganization "acme" "tier3" "en" false ]} {[ 1 := mkUser "a@x.io" true "A" true ]} 2 1) ∅ 1.
Definition rx_session : option CookieEffect * LDB :=
  issueSession id tk_issue Refresh.no_faults tk_now "rt1" (Some "csrf") 1 "a@x.io" (mkLDB AccountsInv.ex_accounts ∅ 1).
Definition rx_session_access : string := match rx_session.1 with Some (SetSession a _ _ _ _) => a | _ => "" end.
Definition rx_test (access : string) : Incoming := mkIncoming "POST" ["api"; "v1"; "orgs"; "1"; "channels"; "1"; "test"] "" access "" "".
Definition rx_test_serve (t : Time) (access : string) : Outcome * option Redis * CFCache :=
  serve id ex_marshal_key ex_unmarshal_key (issuer_verify sim_parse tk_j) None false t (rx_test access) rx_kdb (None : option Redis) empty_cache.
Definition rx_member : Principal := mkPrincipal ActorHuman 1 0 1 (Some RoleMember).

Lemma rx_session_eq : exists rt csrf exp rexp l, rx_session = (Some (SetSession rx_session_access rt csrf exp rexp), l).
Proof.
  assert (match rx_session.1 with Some (SetSession _ _ _ _ _) => true | _ => false end = true) as Hs by (vm_compute; reflexivity).
  unfold rx_session_access. destruct rx_session as [[[]|] l]; try discriminate Hs. simpl. eauto 10.
Qed.

Lemma rx_test_runs t access em : (t, access, em) ∈ [(tk_now + Minute, rx_session_access, "a@x.io"); (tk_now + 21 * Minute, tk_access, "")] ->
  rx_test_serve t access = (Runs "TestChannel" [("orgId", "1"); ("id", "1")] (Some rx_member) em, None, empty_cache).
Proof. rewrite !elem_of_cons, elem_of_nil. intros [[= -> -> ->]|[[= -> -> ->]|[]]]; vm_compute; reflexivity. Qed.

Lemma refreshed_session_has_no_email_witness :
  exists em em', (rx_test_serve (tk_now + Minute) rx_session_access).1.1 = Runs "TestChannel" [("orgId", "1"); ("id", "1")] (Some rx_member) em /\ em = "a@x.io" /\
    (rx_test_serve (tk_now + 21 * Minute) tk_access).1.1 = Runs "TestChannel" [("orgId", "1"); ("id", "1")] (Some rx_member) em' /\ em' = "" /\
    TestChannel (Some StoreInv.ex_cipher) chx_registry None (fun _ => None) (Some rx_member) em' "1" tk_channels =
      (CPlain (R422 "a Team email test can only be sent by a signed-in user"), []).
Proof.
  destruct rx_session_eq as (rt & csrf & exp & rexp & l & Hs). destruct tk_refreshed_eq as (rt' & csrf' & exp' & rexp' & l' & Hr).
  pose proof (rx_test_runs _ _ _ (list_elem_of_here _ _)) as Hin. pose proof (rx_test_runs _ _ _ (list_elem_of_further _ _ _ (list_elem_of_here _ _))) as Hout.
  eexists _, _. split; [by rewrite Hin|]. split.
  { eapply (refreshed_session_has_no_email sim_public sim_sign sim_parse sim_decode sim_checks id ex_marshal_key ex_unmarshal_key tk_j
      eq_refl eq_refl eq_refl None false _ (rx_test _) _ _ _ _ _ _ _ _ _ eq_refl (or_introl eq_refl) Hin); [| |exact Hs]; reflexivity. }
  destruct (refreshed_session_has_no_email sim_public sim_sign sim_parse sim_decode sim_checks id ex_marshal_key ex_unmarshal_key tk_j
    eq_refl eq_refl eq_refl None false _ (rx_test _) _ _ _ _ _ _ _ _ _ eq_refl (or_introl eq_refl) Hout) as [_ Hre].
  destruct (Hre _ _ "jti" _ _ _ _ _ _ _ _ _ eq_refl Hr) as (He & Ht & _).
  split; [by rewrite Hout|]. split; [exact He|].
  apply (Ht (Some StoreInv.ex_cipher) chx_registry None (fun _ => None) rx_member (mkActor ActorHuman 1 0 1 RoleMember) "1" 1 (mkChannel 1 1 "team" "email" ∅ true) tk_channels);
    [reflexivity|reflexivity|reflexivity|vm_compute; reflexivity|reflexivity].
Defined.
