(* ===== verification/Views.v ===== *)
(** * Views: who is on a team, what an invitation shows, the intents on the bus, and the operator's counts
    (src/internal/api/members.go, admin.go, build.go; src/internal/notify/emailintent.go;
    src/internal/store/platform.go, platform_billing.go and the functions of schema.sql)

    Columns that no other component reads (when a user, a membership, an invitation or a monitor was
    created, a user's avatar) are functions of the row's id.  JSON encoders are parameters. *)

From S2P Require Import Prelude Domain GoStrings Store Entitlements Authz Scheduler Members MonitorApi Refresh Billing Channels Render Providers Accounts Login Bus.
Open Scope Z_scope.

(** ** Members and invitations *)

Record MemberDTO := mkMemberDTO {
  md_UserId : string; md_Email : string; md_Name : string; md_AvatarUrl : option string; md_Role : Role; md_JoinedAt : Time;
}.
Record InvitationDTO := mkInvitationDTO {
  vd_Id : string; vd_Email : string; vd_Role : Role; vd_State : InvitationState; vd_CreatedAt : Time; vd_ExpiresAt : Time; vd_InvitedBy : option string;
}.
Record InvitationPreview := mkPreview {
  ip_OrgName : string; ip_Role : Role; ip_State : InvitationState; ip_Email : string; ip_InviterName : option string;
}.

Inductive VResponse := VPlain (r : Response) | VMembers (l : list MemberDTO) | VInvitations (l : list InvitationDTO) | VPreview (p : InvitationPreview).

Definition nonempty (s : string) : option string := if String.eqb s "" then None else Some s.

Section members.
Context (avatar_url : Z -> string) (joined_at invited_at : Z -> Time).

Definition memberDTO (m : Membership) (id : Z) (u : User) : MemberDTO :=
  mkMemberDTO (pretty id) (us_Email u) (us_Name u) (nonempty (avatar_url id)) (mb_Role m) (joined_at (mb_ID m)).

Definition invitationDTO (i : Invitation) : InvitationDTO :=
  mkInvitationDTO (pretty (in_ID i)) (in_Email i) (in_Role i) (in_State i) (invited_at (in_ID i)) (in_ExpiresAt i) (pretty <$> in_CreatedBy i).

(** The handlers of the two lists share their gate. *)
Definition team_gate (a : Action) (p : option Principal) (k : Principal -> VResponse) : VResponse :=
  match humanInOrg p with
  | None => VPlain R401
  | Some (q, actor) =>
      let d := Can actor a (org_resource (pr_OrgID q)) in
      if negb (de_Allowed d) then VPlain (R403 (de_Reason d)) else k q
  end.

(** A member whose account is gone is left out. *)
Definition api_ListMembers (p : option Principal) (db : MDB) : VResponse :=
  team_gate ActionViewMembers p (fun q =>
    VMembers (omap (fun m => memberDTO m (mb_UserID m) <$> GetUser (mb_UserID m) db) (ListMembers (pr_OrgID q) db))).

Definition api_ListInvitations (p : option Principal) (db : MDB) : VResponse :=
  team_gate ActionManageInvitation p (fun q =>
    VInvitations (invitationDTO <$> filter (fun i => in_State i = InvitePending) (ListInvitations (pr_OrgID q) db))).

Definition GetInvitationPreview (HashToken : string -> string) (now : Time) (token : string) (db : MDB) : VResponse :=
  match GetInvitationByToken (HashToken token) db with
  | Err MNoRows => VPlain R404
  | Err _ => VPlain R500
  | Ok inv =>
      if bool_decide (in_State inv <> InvitePending) || (in_ExpiresAt inv <? now)
      then VPlain (R409 "this invitation is no longer valid")
      else
        match GetOrganization (in_OrgID inv) db with
        | None => VPlain R500
        | Some org =>
            VPreview (mkPreview (og_Name org) (in_Role inv) (in_State inv) (in_Email inv)
              (creator ← in_CreatedBy inv; us_Name <$> GetUser creator db))
        end
  end.
End members.

(** ** Signing out everywhere (api.go) *)

Definition LogoutAll (f : Faults) (now : Time) (p : option Principal) (l : LDB) : Response * LDB :=
  match p with
  | None => (R401, l)
  | Some q =>
      if bool_decide (pr_Kind q <> ActorHuman) then (R401, l)
      else match RevokeAll f now (pr_UserID q) (tokens_view l) with
           | (Err _, r) => (R500, set_refresh r l)
           | (Ok _, r) => (R204, set_refresh r l)
           end
  end.

(** ** Intents and events on the bus *)

Record MagicLinkRequested := mkMagicLink { mr_Email : string; mr_Country : string; mr_UserAgent : string }.
Record EmailIntent := mkIntent {
  ei_Type : string; ei_Locale : string; ei_OccurredAt : Time;
  ei_MagicLink : option MagicLinkRequested; ei_Invitation : option InvitationRequested; ei_ChannelTest : option ChannelTestRequested;
}.
Definition EmailMagicLink : string := "magic_link".
Definition EmailInvitation : string := "invitation".
Definition EmailChannelTest : string := "channel_test".

Record MonitorChangedEvent := mkChanged { ce_OrgID : Z; ce_MonitorID : Z; ce_Deleted : bool; ce_ChangedAt : Time }.
Record AuditEvent := mkAudit { ae_OrgID : Z; ae_Actor : string; ae_Action : string; ae_Detail : gmap string string; ae_OccurredAt : Time }.

Definition TopicMonitorChanged : string := "monitor.changed".
Definition TopicAuditEvents : string := "audit.events".

Definition inviterDisplay (i : Invitation) (db : MDB) : string :=
  match in_CreatedBy i with
  | None => ""
  | Some creator =>
      match GetUser creator db with
      | None => ""
      | Some u => if String.eqb (us_Name u) "" then us_Email u else us_Name u +:+ " (" +:+ us_Email u +:+ ")"
      end
  end.

(** The intent of an invitation, before its time is stamped. *)
Definition invite_intent (role_name : Role -> string) (i : Invitation) (orgName : string) (db : MDB) : EmailIntent :=
  mkIntent EmailInvitation (in_Locale i) zeroTime None
    (Some (mkInvitationRequested (in_ID i) (in_OrgID i) orgName (inviterDisplay i db) (role_name (in_Role i)) (in_Email i))) None.

Section publishers.
Context {S : Type} `{!StreamGroup S} (trace : gmap string string).
Context (marshal_changed : MonitorChangedEvent -> option string) (marshal_audit : AuditEvent -> option string).
Context (marshal_intent : EmailIntent -> option string) (marshal_job : CheckJob -> option string).

(** Whether it was published. *)
Definition publish (payload : option string) (topic key : string) (s : S) : bool * S :=
  match payload with
  | None => (false, s)
  | Some v => match produce trace topic key v s with (Ok _, s') => (true, s') | (Err _, s') => (false, s') end
  end.

Definition MonitorChanged (now : Time) (orgID monitorID : Z) : S -> bool * S :=
  publish (marshal_changed (mkChanged orgID monitorID false now)) TopicMonitorChanged (pretty orgID).

Definition publish_Audit (ev : AuditEvent) : S -> bool * S := publish (marshal_audit ev) TopicAuditEvents (pretty (ae_OrgID ev)).

Definition PublishEmail (now : Time) (key : string) (i : EmailIntent) : S -> bool * S :=
  publish (marshal_intent (mkIntent (ei_Type i) (ei_Locale i) now (ei_MagicLink i) (ei_Invitation i) (ei_ChannelTest i))) "email.events" key.

Definition PublishCheckJob (job : CheckJob) : S -> bool * S :=
  publish (marshal_job job) (CheckJobsTopic (job_Region job)) (pretty (m_ID (job_Monitor job))).

(** A failure is not reported. *)
Definition publishInviteEmail (role_name : Role -> string) (now : Time) (i : Invitation) (orgName : string) (db : MDB) (bus : option S) : option S :=
  match bus with
  | None => None
  | Some s => Some (PublishEmail now (pretty (in_OrgID i)) (invite_intent role_name i orgName db) s).2
  end.
End publishers.

(** The consumer of the intents.  [magic], [invitation] and [test] send the three kinds of mail, with the
    error if there is one, on the state [W]; what does not decode or is of no known type is dropped. *)
Definition EmailRunner_handle {W : Type} (unmarshal : string -> option EmailIntent)
    (magic invitation test : EmailIntent -> W -> bool * W) (rec : BusRecord) (w : W) : bool * W :=
  match unmarshal (br_Value rec) with
  | None => (true, w)
  | Some i =>
      if String.eqb (ei_Type i) EmailMagicLink then magic i w
      else if String.eqb (ei_Type i) EmailInvitation then invitation i w
      else if String.eqb (ei_Type i) EmailChannelTest then test i w
      else (true, w)
  end.

(** ** The operator's counts *)

Record SignupPoint := mkSignup { sp_Date : string; sp_Users : Z; sp_Orgs : Z }.
(** The median is kept as twice its value in nanoseconds, so that it is exact. *)
Record PlatformMetrics := mkPlatformMetrics {
  pm_Users : Z; pm_Orgs : Z; pm_MonitorsTotal : Z; pm_MonitorsEnabled : Z; pm_Channels : Z; pm_OrgsByPlan : list (string * Z);
  pm_MonitorsByType : list (string * Z); pm_Signups : list SignupPoint; pm_OrgsWithMonitor : Z; pm_MedianTTFM2 : option Z; pm_ActiveOrgs7d : Z;
}.
Record CurrencyRevenue := mkRevenue { cv_Currency : string; cv_Gross : Z; cv_Refunded : Z; cv_Payments : Z }.
Record PlatformBilling := mkPlatformBilling { pb_PaidOrgs : Z; pb_SubscriptionsByStatus : list (string * Z); pb_RevenueByCurrency : list CurrencyRevenue }.

(** All the tables. *)
Record Platform := mkPlatform { pl_accounts : ADB; pl_store : DB; pl_channels : gmap Z ChannelRow; pl_billing : BDB }.

Definition count {V} (m : gmap Z V) : Z := Z.of_nat (size m).

Section platform.
(** The order of text in the database and the creation times. *)
Context (le : string -> string -> bool) (user_created monitor_created : Z -> Time).

(** GROUP BY a text with ORDER BY it. *)
Definition group_keys {K V} `{Countable K} (key : V -> string) (m : gmap K V) : list string :=
  sort_by le (elements (list_to_set (key <$> (snd <$> map_to_list m)) : gset string)).
Definition group_counts {K V} `{Countable K} (key : V -> string) (m : gmap K V) : list (string * Z) :=
  (fun k => (k, rows_affected (fun v => String.eqb (key v) k) m)) <$> group_keys key m.

(** min(created_at) of an org's monitors. *)
Definition first_monitor (orgID : Z) (db : DB) : option Time :=
  match (fun kv => monitor_created kv.1) <$> rows_where (fun r => m_OrgID (mr_monitor r) =? orgID) (monitors db) with
  | [] => None
  | t :: ts => Some (foldl Z.min t ts)
  end.

(** platform_activation: the delays from an org's creation to its first monitor. *)
Definition activation (db : Platform) : list Z :=
  omap (fun io => (fun t => t - ao_CreatedAt io.2) <$> first_monitor io.1 (pl_store db)) (map_to_list (a_orgs (pl_accounts db))).

(** percentile_cont(0.5), twice: the two middle values. *)
Definition median2 (l : list Z) : option Z :=
  let s := sort_by Z.leb l in
  a ← s !! ((length s - 1) / 2)%nat; b ← s !! (length s / 2)%nat; Some (a + b).

Definition recently_checked (now : Time) (id : Z) (db : DB) : bool :=
  existsb (fun kr => (r_MonitorID kr.2 =? id) && (now - 7 * Day <? r_CheckedAt kr.2)) (map_to_list (check_results db)).

Definition active_orgs (now : Time) (db : DB) : gset Z :=
  list_to_set ((fun kr => m_OrgID (mr_monitor kr.2)) <$>
    filter (fun kr => m_Enabled (mr_monitor kr.2) && recently_checked now kr.1 db = true) (map_to_list (monitors db))).

Definition day_text (d : Z) : string := let '(y, m, dd) := civil d in pad 4 y +:+ "-" +:+ pad 2 m +:+ "-" +:+ pad 2 dd.

(** The last thirty days of UTC, the oldest first. *)
Definition signups (now : Time) (db : ADB) : list SignupPoint :=
  (fun i : nat =>
     let d := now / Day - 29 + Z.of_nat i in
     mkSignup (day_text d) (Z.of_nat (length (filter (fun ku => user_created ku.1 / Day = d) (map_to_list (a_users db)))))
       (rows_affected (fun o => ao_CreatedAt o / Day =? d) (a_orgs db))) <$> seq 0 30.

(** The queries run on the pool one by one, in no transaction: [at_query i] is the database at the
    i-th. *)
Definition store_PlatformMetrics (now : Time) (at_query : nat -> Platform) : PlatformMetrics :=
  let mons i := monitors (pl_store (at_query i)) in
  let orgs i := a_orgs (pl_accounts (at_query i)) in
  mkPlatformMetrics (count (a_users (pl_accounts (at_query 0%nat)))) (count (orgs 1%nat)) (count (mons 2%nat))
    (rows_affected (fun r => m_Enabled (mr_monitor r)) (mons 2%nat)) (count (pl_channels (at_query 3%nat)))
    (group_counts ao_Plan (orgs 6%nat)) (group_counts (fun r => type_text (m_Type (mr_monitor r))) (mons 7%nat))
    (signups now (pl_accounts (at_query 8%nat))) (Z.of_nat (length (activation (at_query 4%nat)))) (median2 (activation (at_query 4%nat)))
    (Z.of_nat (size (active_orgs now (pl_store (at_query 5%nat))))).

Definition sum_where {K V} `{Countable K} (p : V -> bool) (f : V -> Z) (m : gmap K V) : Z := foldr (fun kv acc => f kv.2 + acc) 0 (rows_where p m).

Definition revenue (ps : gmap (string * string) Payment) : list CurrencyRevenue :=
  (fun c => let mine p := String.eqb (py_Currency p) c in
            mkRevenue c (sum_where mine py_Amount ps) (sum_where mine py_RefundedAmount ps) (rows_affected mine ps)) <$> group_keys py_Currency ps.

Definition store_PlatformBilling (at_query : nat -> Platform) : PlatformBilling :=
  mkPlatformBilling
    (rows_affected (fun o => negb (String.eqb (ao_Plan o) "tier1") && bool_decide (ao_DeletedAt o = None)) (a_orgs (pl_accounts (at_query 0%nat))))
    (group_counts (fun r => sb_Status (sr_sub r)) (subscriptions (pl_billing (at_query 1%nat)))) (revenue (payments (pl_billing (at_query 2%nat)))).

(** *** The handlers (admin.go) *)

Record AdminMetrics := mkAdminMetrics {
  am_metrics : PlatformMetrics; am_MonitorsDisabled : Z; am_MedianTimeToFirstMonitorSeconds : option Z;
}.
Record AdminOrg := mkAdminOrg { ag_Id : string; ag_Name : string; ag_Slug : string; ag_Plan : string; ag_CreatedAt : Time }.
Inductive OResponse := OPlain (r : Response) | OMetrics (m : AdminMetrics) | OBilling (b : PlatformBilling) | OOrgs (l : list AdminOrg).

Context (admins : gset string) (ToLower : string -> string).
Definition operator_only (p : option (ActorKind * string)) (k : OResponse) : OResponse :=
  match admin_gate admins ToLower p with Err r => OPlain r | Ok _ => k end.

(** [int] of the median drops the fraction. *)
Definition GetAdminMetrics (now : Time) (p : option (ActorKind * string)) (at_query : nat -> Platform) : OResponse :=
  operator_only p (
    let m := store_PlatformMetrics now at_query in
    OMetrics (mkAdminMetrics m (pm_MonitorsTotal m - pm_MonitorsEnabled m) ((fun v => Z.quot v (2 * Second)) <$> pm_MedianTTFM2 m))).

Definition GetAdminBilling (p : option (ActorKind * string)) (at_query : nat -> Platform) : OResponse :=
  operator_only p (OBilling (store_PlatformBilling at_query)).

Definition adminOrgDTO (o : Z * AOrg) : AdminOrg := mkAdminOrg (pretty o.1) (ao_Name o.2) (ao_Slug o.2) (ao_Plan o.2) (ao_CreatedAt o.2).
Definition ListAdminOrgs (p : option (ActorKind * string)) (db : Platform) : OResponse :=
  operator_only p (OOrgs (adminOrgDTO <$> AdminListOrganizations (pl_accounts db))).
End platform.
