(* ===== verification/ViewsInv.v ===== *)
(** * ViewsInv: what the lists, previews, intents and counts guarantee

    A preview is shown exactly while the invitation can be accepted; an expired invitation that no
    sweep has flipped keeps its seat; an intent reaches its mail or is dropped, and which topics
    nobody reads; and the operator's counts add up. *)

From S2P Require Import Prelude Domain GoStrings Crypto Store StoreInv Entitlements Authz Scheduler Worker Members MembersInv MonitorApi Refresh Billing Channels Render Providers ProvidersInv Accounts AccountsInv Login Bus BusInv BusSim Config Processes ProcessesInv Views.
Open Scope Z_scope.

(** ** Invitations *)

(** An invitation the token names, in a database whose rows carry their keys. *)
Lemma token_row lower h db i : mwf lower db -> GetInvitationByToken h db = Ok i -> invitations db !! in_ID i = Some i /\ in_TokenHash i = Some h.
Proof.
  intros Hwf. unfold GetInvitationByToken. destruct (find_row _ _) as [[k i']|] eqn:Hf; [|done]. intros [= ->].
  apply find_row_Some in Hf as [Hk Ht%bool_decide_eq_true]. by rewrite (proj2 (mwf_inv_key _ _ Hwf _ _ Hk)).
Qed.

(** C31: the preview tells the truth.  For a signed-in person whose verified address is the invited one
    and who is no member yet, the page that the token opens shows the invitation exactly when
    accepting it at that moment joins the org, and then with the role the page shows. *)
Theorem preview_agrees_with_accept lower EqualFold HashToken now token db uid u i : mwf lower db ->
  GetInvitationByToken (HashToken token) db = Ok i -> (is_Some (GetOrganization (in_OrgID i) db)) ->
  GetUser uid db = Some u -> us_EmailVerified u = true -> EqualFold (us_Email u) (in_Email i) = true -> GetMembership uid (in_OrgID i) db = Err MNoRows ->
  let accept := AcceptInvitation EqualFold now (Some (mkPrincipal ActorHuman uid 0 0 None)) (HashToken token) db in
  match GetInvitationPreview HashToken now token db with
  | VPreview p => accept.1.1 = R200 /\ exists mb, GetMembership uid (in_OrgID i) accept.1.2 = Ok mb /\ mb_Role mb = ip_Role p
  | r => r = VPlain (R409 "this invitation is no longer valid") /\ accept = (R409 "this invitation is no longer valid", db, [])
  end.
Proof.
  intros Hwf Ht [o Ho] Hu Hv He Hm. cbv zeta. unfold GetInvitationPreview. rewrite Ht.
  destruct (bool_decide (in_State i <> InvitePending) || (in_ExpiresAt i <? now)) eqn:Hx.
  - split; [done|]. unfold AcceptInvitation. cbn [pr_Kind]. rewrite bool_decide_eq_false_2 by naive_solver. by rewrite Ht, Hx.
  - rewrite Ho. apply orb_false_iff in Hx as [Hs Hx]. apply bool_decide_eq_false in Hs. apply dec_stable in Hs.
    destruct (token_row _ _ _ _ Hwf Ht) as [Hrow _].
    destruct (accept_joins EqualFold now (HashToken token) db i u (in_OrgID i) o uid) as (db'' & evs & Ha & mb & Hg & Hr); try done; [lia|].
    rewrite Ha. split; [done|]. by exists mb.
Qed.

(** Counting the elements of a list that satisfy a test. *)
Lemma count_fmap {A B} (g : A -> B) (P : B -> bool) l : length (filter (fun b => P b = true) (g <$> l)) = length (filter (fun a => P (g a) = true) l).
Proof. induction l as [|a l IH]; [done|]. rewrite fmap_cons, !filter_cons. repeat case_decide; simpl; congruence. Qed.

Lemma count_mono {A} (P Q : A -> bool) l : (forall a, P a = true -> Q a = true) ->
  (length (filter (fun a => P a = true) l) <= length (filter (fun a => Q a = true) l))%nat.
Proof. intros HPQ. induction l as [|a l IH]; [done|]. rewrite !filter_cons. repeat case_decide; simpl; try lia. by destruct H0; apply HPQ. Qed.

Lemma rows_affected_fmap {V W} (g : V -> W) (P : W -> bool) (m : gmap Z V) : rows_affected P (g <$> m) = rows_affected (fun v => P (g v)) m.
Proof.
  unfold rows_affected, rows_where. rewrite map_to_list_fmap. f_equal. apply (count_fmap (prod_map id g) (fun kv => P kv.2)).
Qed.

Lemma rows_affected_mono {K V} `{Countable K} (P Q : V -> bool) (m : gmap K V) : (forall v, P v = true -> Q v = true) -> rows_affected P m <= rows_affected Q m.
Proof. intros HPQ. unfold rows_affected, rows_where. apply inj_le, (count_mono (fun kv : K * V => P kv.2) (fun kv => Q kv.2)). intros [k v]. apply HPQ. Qed.

Lemma rows_affected_ext {K V} `{Countable K} (P Q : V -> bool) (m : gmap K V) : (forall v, P v = Q v) -> rows_affected P m = rows_affected Q m.
Proof. intros HPQ. apply Z.le_antisymm; apply rows_affected_mono; intros v; by rewrite HPQ. Qed.

(** What the sweep leaves pending. *)
Lemma pending_after_sweep org now db :
  CountPendingInvitations org (ExpireInvitations now db).2 = rows_affected (fun i => is_pending org i && (now <? in_ExpiresAt i)) (invitations db).
Proof.
  unfold CountPendingInvitations, ExpireInvitations, update_where. cbn [snd set_invitations invitations]. rewrite rows_affected_fmap.
  apply rows_affected_ext. intros i. unfold is_pending.
  destruct (Z.ltb_spec now (in_ExpiresAt i)), (Z.leb_spec (in_ExpiresAt i) now); try lia; rewrite ?andb_true_r, ?andb_false_r; [done|].
  case_bool_decide as Hp; cbn [in_OrgID in_State with_state]; [by rewrite bool_decide_eq_false_2, andb_false_r|]. by rewrite bool_decide_eq_false_2, andb_false_r.
Qed.

(** C30: an expired invitation keeps its seat.  Past its seven days a pending invitation opens no page and
    can no longer be accepted, yet, as long as the sweep has not run, the team still lists it, it
    counts as a used seat, and its address cannot be invited again: a valid invitation to it is
    answered that a pending invitation exists, or, when no seat is free, with the payment answer.
    The sweep would free the seat. *)
Theorem expired_invitation_keeps_its_seat lower EqualFold HashToken invited_at now token db i q actor body p : mwf lower db ->
  GetInvitationByToken (HashToken token) db = Ok i -> in_State i = InvitePending -> in_ExpiresAt i < now ->
  humanInOrg p = Some (q, actor) -> pr_OrgID q = in_OrgID i ->
  de_Allowed (Can actor ActionManageInvitation (org_resource (in_OrgID i))) = true -> de_Allowed (Can actor ActionInviteMember (org_resource (in_OrgID i))) = true ->
  lower (TrimSpace (ib_Email body)) = lower (in_Email i) -> TrimSpace (ib_Email body) <> "" -> validRole (ib_Role body) = true -> ib_Role body <> RoleOwner ->
  is_Some (GetOrganization (in_OrgID i) db) ->
  GetInvitationPreview HashToken now token db = VPlain (R409 "this invitation is no longer valid") /\
  (forall uid, AcceptInvitation EqualFold now (Some (mkPrincipal ActorHuman uid 0 0 None)) (HashToken token) db = (R409 "this invitation is no longer valid", db, [])) /\
  (exists l, api_ListInvitations invited_at p db = VInvitations l /\ invitationDTO invited_at i ∈ l) /\
  (CreateInvitation lower now p (Some body) db).1.1 =
    (if HasFreeSeat (seatUsage (in_OrgID i) db) then R409 "a pending invitation for this email already exists" else R402 (su_Cap (seatUsage (in_OrgID i) db))) /\
  su_Used (seatUsage (in_OrgID i) (ExpireInvitations now db).2) < su_Used (seatUsage (in_OrgID i) db).
Proof.
  intros Hwf Ht Hs Hx Hh Ho Hm Hi Hl Hne Hrole Hown [org Horg]. destruct (token_row _ _ _ _ Hwf Ht) as [Hrow _].
  assert (bool_decide (in_State i <> InvitePending) || (in_ExpiresAt i <? now) = true) as Hexp by (rewrite orb_true_iff; right; lia).
  assert (is_pending (in_OrgID i) i = true) as Hpend by (unfold is_pending; rewrite Z.eqb_refl, Hs; done).
  split_and!.
  - unfold GetInvitationPreview. by rewrite Ht, Hexp.
  - intros uid. unfold AcceptInvitation. cbn [pr_Kind]. rewrite bool_decide_eq_false_2 by naive_solver. by rewrite Ht, Hexp.
  - unfold api_ListInvitations, team_gate. rewrite Hh, Ho, Hm. eexists. split; [done|]. apply list_elem_of_fmap. exists i. split; [done|].
    apply list_elem_of_filter. split; [done|]. unfold ListInvitations. rewrite merge_sort_Permutation. apply list_elem_of_fmap. exists (in_ID i, i). split; [done|].
    apply rows_where_elem. split; [done|]. apply Z.eqb_refl.
  - unfold CreateInvitation. rewrite Hh, Ho, Hi. cbn [negb].
    rewrite (proj2 (String.eqb_neq _ _) Hne), Hrole, (bool_decide_eq_false_2 _ Hown). cbn [negb]. cbv zeta.
    destruct (HasFreeSeat _); cbn [negb]; [|done]. rewrite Horg. unfold CreateInvitation_tx. cbn [in_OrgID in_Email].
    assert (0 < rows_affected (same_pending lower (in_OrgID i) (TrimSpace (ib_Email body))) (invitations db)) as Hc.
    { apply rows_affected_pos. exists (in_ID i), i. split; [done|]. unfold same_pending. by rewrite Hpend, Hl, String.eqb_refl. }
    rewrite (proj2 (Z.eqb_neq _ 0)) by lia. done.
  - unfold seatUsage. cbn [su_Used]. rewrite pending_after_sweep. unfold CountPendingInvitations.
    rewrite !(rows_affected_delete _ (invitations db) (in_ID i) i) by done. rewrite Hpend, (proj2 (Z.ltb_ge _ _)) by lia. cbn [andb].
    pose proof (rows_affected_mono (fun j => is_pending (in_OrgID i) j && (now <? in_ExpiresAt j)) (is_pending (in_OrgID i)) (delete (in_ID i) (invitations db))
      ltac:(by intros j [? _]%andb_true_iff)) as Hle.
    change (CountMembers (in_OrgID i) (ExpireInvitations now db).2) with (CountMembers (in_OrgID i) db). lia.
Qed.

(** ** Signing out everywhere *)

(** When the contract's route answers 204, no token of the user is left that was not revoked, and the
    other users' tokens are as they were; when the database fails it answers 500.  The hand-wired route
    that the browser also calls answers 204 and clears the cookies even then, with every token alive. *)
Theorem logout_all_tells_the_truth HashToken jwt_Verify f now newRaw q access l : pr_Kind q = ActorHuman -> jwt_Verify now access = Some (pr_UserID q) -> pr_UserID q <> 0 ->
  (f_revoke f = false -> exists l', LogoutAll f now (Some q) l = (R204, l') /\
     (forall k t, l_tokens l' !! k = Some t -> rt_UserID t = pr_UserID q -> rt_RevokedAt t <> None) /\
     (forall k t, rt_UserID t <> pr_UserID q -> (l_tokens l' !! k = Some t <-> l_tokens l !! k = Some t))) /\
  (f_revoke f = true -> (LogoutAll f now (Some q) l).1 = R500 /\ l_tokens (LogoutAll f now (Some q) l).2 = l_tokens l /\
     exists l', handleLogoutAll HashToken jwt_Verify f now newRaw (Some access) None l = (NoContent, [ClearSession], l') /\ l_tokens l' = l_tokens l).
Proof.
  intros Hk Hj H0. unfold LogoutAll. rewrite bool_decide_eq_false_2 by (rewrite Hk; tauto). unfold RevokeAll. split; intros Hf; rewrite Hf.
  - eexists. split; [done|]. cbn [set_refresh l_tokens refresh_tokens RevokeAllForUser snd set_tokens tokens_view]. split.
    + intros k t. rewrite lookup_update_where. intros (t0 & _ & ->)%fmap_Some_1 Hu. unfold of_user, unrevoked in *.
      destruct (rt_UserID t0 =? pr_UserID q) eqn:He; cbn [andb] in *; [|by apply Z.eqb_neq in He].
      case_bool_decide as Hn; [done|]. exact Hn.
    + intros k t Hu. rewrite lookup_update_where. split.
      * intros (t0 & Ht0 & Heq)%fmap_Some_1. rewrite Ht0. unfold of_user in Heq. destruct (rt_UserID t0 =? pr_UserID q) eqn:He; cbn [andb] in Heq; [|by rewrite Heq].
        apply Z.eqb_eq in He. destruct (unrevoked t0); subst t; by destruct Hu.
      * intros ->. cbn. unfold of_user. by apply Z.eqb_neq in Hu as ->.
  - split_and!; [done|done|]. unfold handleLogoutAll. rewrite Hj. change (default 0 (Some (pr_UserID q))) with (pr_UserID q).
    apply Z.eqb_neq in H0 as Hb. rewrite Hb. cbv beta iota zeta. rewrite Hb. unfold RevokeAll. rewrite Hf. by eexists.
Qed.

(** ** Intents *)

(** An intent that was published reaches the notifier's handler as it was, stamped, and goes to the
    sender of its type; a record that does not decode or is of no known type is committed without
    an effect, so that it holds nothing up. *)
Theorem published_intent_is_handled {S W : Type} `{!StreamGroup S} trace marshal unmarshal now key i (s s' : S) magic invitation test :
  (forall i v, marshal i = Some v -> unmarshal v = Some i) -> trace !! "key" = None -> trace !! "value" = None ->
  PublishEmail trace marshal now key i s = (true, s') ->
  let stamped := mkIntent (ei_Type i) (ei_Locale i) now (ei_MagicLink i) (ei_Invitation i) (ei_ChannelTest i) in
  exists v, XAdd "email.events" redisStreamMaxLen (produce_values trace key v) s = (Ok tt, s') /\
    forall id (w : W), EmailRunner_handle unmarshal magic invitation test (toRedisRecord "email.events" (mkXMessage id (produce_values trace key v))) w =
      if String.eqb (ei_Type i) "magic_link" then magic stamped w
      else if String.eqb (ei_Type i) "invitation" then invitation stamped w
      else if String.eqb (ei_Type i) "channel_test" then test stamped w
      else (true, w).
Proof.
  intros Hc Hk Hv Hp. cbv zeta. unfold PublishEmail, publish in Hp. destruct (marshal _) as [v|] eqn:Hm; [|done].
  unfold produce in Hp. exists v. destruct (XAdd _ _ _ s) as [[[]|] s1] eqn:Hx; [|done]. injection Hp as <-. split; [done|].
  intros id w. destruct (produced_is_consumed trace "email.events" key v id Hk Hv) as [-> _]. unfold EmailRunner_handle. cbn [br_Value].
  by rewrite (Hc _ _ Hm).
Qed.

(** ** Topics *)

(** Which events have a reader.  In any environment the services start in, the topic of the e-mail
    intents is read by the notifier and the topic of a queued check by the worker of its region, but
    no service reads the topic of changed monitors or the topic of audited actions. *)
Theorem changed_monitors_have_no_reader Getenv ReadFile ToLower NewGCM w s p : main Getenv ReadFile ToLower NewGCM w s = Ok p ->
  (forall group topic, (group, topic) ∈ pc_consumes p -> topic <> TopicMonitorChanged /\ topic <> TopicAuditEvents) /\
  (s = ServiceNotifier -> ("notifier-email", "email.events") ∈ pc_consumes p) /\
  (s = ServiceWorker -> let r := cf_Region (rs_Cfg (pc_service p)) in ("worker-" +:+ r, CheckJobsTopic r) ∈ pc_consumes p).
Proof.
  intros Hm. rewrite (main_consumes _ _ _ _ _ _ _ Hm). split_and!.
  - intros group topic. destruct s; rewrite ?elem_of_nil; try done; intros Hin; repeat (apply elem_of_cons in Hin as [[= -> ->]|Hin]); try done; by apply elem_of_nil in Hin.
  - intros ->. right. left.
  - intros ->. left.
Qed.

(** ** Counts *)

Definition zsum (l : list Z) : Z := foldr Z.add 0 l.

Lemma zsum_cons a l : zsum (a :: l) = a + zsum l.
Proof. done. Qed.

(** Grouping loses nothing: the sums of the groups are the sum of what has one of the keys. *)
Lemma group_sum {A B} `{EqDecision B} (key : A -> B) (w : A -> Z) ks l : NoDup ks ->
  zsum ((fun k => zsum (w <$> filter (fun a => key a = k) l)) <$> ks) = zsum (w <$> filter (fun a => key a ∈ ks) l).
Proof.
  intros Hnd. induction l as [|a l IH]; [clear; by induction ks|].
  assert (forall ks, NoDup ks -> zsum ((fun k => zsum (w <$> filter (fun a => key a = k) (a :: l))) <$> ks) =
    (if decide (key a ∈ ks) then w a else 0) + zsum ((fun k => zsum (w <$> filter (fun a => key a = k) l)) <$> ks)) as Hstep.
  { clear. induction 1 as [|k ks Hk Hnd IH]; [done|]. rewrite !fmap_cons, !zsum_cons, IH, filter_cons.
    destruct (decide (key a = k)) as [<-|Hne].
    - rewrite fmap_cons, zsum_cons, (decide_False (P := key a ∈ ks)), (decide_True (P := key a ∈ key a :: ks)) by (done || left). lia.
    - destruct (decide (key a ∈ ks)); [rewrite (decide_True (P := key a ∈ k :: ks)) by (by right)|rewrite (decide_False (P := key a ∈ k :: ks)) by set_solver]; lia. }
  rewrite (Hstep ks Hnd), IH, filter_cons. case_decide; [by rewrite fmap_cons, zsum_cons|lia].
Qed.

Lemma zsum_ones {A} (l : list A) : zsum ((fun _ => 1) <$> l) = Z.of_nat (length l).
Proof. induction l as [|a l IH]; [done|]. rewrite fmap_cons, zsum_cons, IH. simpl length. lia. Qed.

Lemma filter_all_keys {A B} `{EqDecision B} (key : A -> B) (ks : list B) (l : list A) : (forall a, a ∈ l -> key a ∈ ks) -> filter (fun a => key a ∈ ks) l = l.
Proof. intros Hl. apply filter_all, Forall_forall, Hl. Qed.

Section counts.
Context (le : string -> string -> bool).

Lemma group_keys_NoDup {K V} `{Countable K} (key : V -> string) (m : gmap K V) : NoDup (group_keys le key m).
Proof. unfold group_keys. rewrite sort_by_perm. apply NoDup_elements. Qed.

Lemma group_keys_elem {K V} `{Countable K} (key : V -> string) (m : gmap K V) kv : kv ∈ map_to_list m -> key kv.2 ∈ group_keys le key m.
Proof.
  intros Hkv. unfold group_keys. rewrite sort_by_perm, elem_of_elements, elem_of_list_to_set. rewrite <- list_fmap_compose.
  apply list_elem_of_fmap. by exists kv.
Qed.

Lemma rows_by_key {K V} `{Countable K} (key : V -> string) k (m : gmap K V) :
  rows_where (fun v => String.eqb (key v) k) m = filter (fun kv : K * V => key kv.2 = k) (map_to_list m).
Proof. unfold rows_where. apply list_filter_iff. intros [? v]. simpl. apply String.eqb_eq. Qed.

(** Sums over the groups of a table. *)
Lemma grouped_total {K V} `{Countable K} (key : V -> string) (f : V -> Z) (m : gmap K V) :
  zsum ((fun k => zsum ((fun kv => f kv.2) <$> rows_where (fun v => String.eqb (key v) k) m)) <$> group_keys le key m) = zsum ((fun kv : K * V => f kv.2) <$> map_to_list m).
Proof.
  rewrite <- (filter_all_keys (fun kv => key kv.2) (group_keys le key m) (map_to_list m)) by apply group_keys_elem.
  rewrite <- (group_sum (fun kv : K * V => key kv.2)) by apply group_keys_NoDup. f_equal. apply list_fmap_ext. intros i k _. by rewrite rows_by_key.
Qed.

Lemma grouped_count {K V} `{Countable K} (key : V -> string) (m : gmap K V) : zsum ((group_counts le key m).*2) = Z.of_nat (size m).
Proof.
  unfold group_counts. rewrite <- list_fmap_compose. rewrite <- length_map_to_list, <- zsum_ones.
  rewrite <- (grouped_total key (fun _ => 1) m). f_equal. apply list_fmap_ext. intros i k _. simpl. unfold rows_affected. by rewrite <- zsum_ones.
Qed.

Lemma sum_where_zsum {K V} `{Countable K} (p : V -> bool) (f : V -> Z) (m : gmap K V) : sum_where p f m = zsum ((fun kv : K * V => f kv.2) <$> rows_where p m).
Proof. unfold sum_where. induction (rows_where p m) as [|a l IH]; [done|]. rewrite fmap_cons, zsum_cons, <- IH. done. Qed.

Lemma zsum_filter_le {A} (P : A -> Prop) `{!forall a, base.Decision (P a)} (l : list A) : zsum ((fun _ => 1) <$> filter P l) <= Z.of_nat (length l).
Proof. rewrite zsum_ones. apply inj_le. apply length_filter. Qed.
End counts.

Definition last_days (now : Time) : list Z := (fun i : nat => now / Day - 29 + Z.of_nat i) <$> seq 0 30.
Lemma last_days_NoDup now : NoDup (last_days now).
Proof. unfold last_days. apply NoDup_fmap_2; [intros i j; lia|apply NoDup_seq]. Qed.

Lemma signups_users user_created now db :
  zsum (sp_Users <$> signups user_created now db) <= count (a_users db).
Proof.
  assert (sp_Users <$> signups user_created now db =
    (fun d => zsum ((fun _ => 1) <$> filter (fun ku => user_created ku.1 / Day = d) (map_to_list (a_users db)))) <$> last_days now) as ->.
  { unfold signups, last_days. rewrite <- !list_fmap_compose. apply list_fmap_ext. intros i x _. simpl. by rewrite zsum_ones. }
  rewrite (group_sum (fun ku : Z * AUser => user_created ku.1 / Day)) by apply last_days_NoDup.
  unfold count. rewrite <- length_map_to_list. apply zsum_filter_le.
Qed.

Lemma signups_orgs user_created now db :
  zsum (sp_Orgs <$> signups user_created now db) <= count (a_orgs db).
Proof.
  assert (sp_Orgs <$> signups user_created now db =
    (fun d => zsum ((fun _ => 1) <$> filter (fun ko : Z * AOrg => ao_CreatedAt ko.2 / Day = d) (map_to_list (a_orgs db)))) <$> last_days now) as ->.
  { unfold signups, last_days. rewrite <- !list_fmap_compose. apply list_fmap_ext. intros i x _. simpl. rewrite zsum_ones. unfold rows_affected, rows_where.
    do 2 f_equal. apply list_filter_iff. intros [k o]. simpl. apply Z.eqb_eq. }
  rewrite (group_sum (fun ko : Z * AOrg => ao_CreatedAt ko.2 / Day)) by apply last_days_NoDup.
  unfold count. rewrite <- length_map_to_list. apply zsum_filter_le.
Qed.

Lemma omap_length {A B} (f : A -> option B) l : (length (omap f l) = length (filter (fun a => is_Some (f a)) l))%nat.
Proof.
  induction l as [|a l IH]; [done|]. change (omap f (a :: l)) with (match f a with Some b => b :: omap f l | None => omap f l end). rewrite filter_cons.
  destruct (decide (is_Some (f a))) as [[b Hb]|Hn]; [by rewrite Hb; simpl; f_equal|]. rewrite (proj2 (eq_None_not_Some _) Hn). exact IH.
Qed.

Lemma median2_None l : median2 l = None <-> l = [].
Proof.
  unfold median2. assert (length (sort_by Z.leb l) = length l) as Hlen by (by rewrite sort_by_perm). split; [|by intros ->].
  intros Hn. destruct l as [|a l]; [done|]. exfalso. set (s := sort_by Z.leb (a :: l)) in *. simpl in Hlen.
  destruct (lookup_lt_is_Some_2 s ((length s - 1) / 2)) as [x Hx]; [apply Nat.Div0.div_lt_upper_bound; lia|].
  destruct (lookup_lt_is_Some_2 s (length s / 2)) as [y Hy]; [apply Nat.div_lt; lia|]. rewrite Hx, Hy in Hn. discriminate Hn.
Qed.

Lemma active_orgs_have_monitors monitor_created now db :
  (forall k r, monitors (pl_store db) !! k = Some r -> is_Some (a_orgs (pl_accounts db) !! m_OrgID (mr_monitor r))) ->
  (size (active_orgs now (pl_store db)) <= length (activation monitor_created db))%nat.
Proof.
  intros Hfk. unfold activation. rewrite omap_length.
  set (orgs := filter _ (map_to_list (a_orgs (pl_accounts db)))).
  assert (active_orgs now (pl_store db) ⊆ list_to_set (orgs.*1)) as Hsub.
  { intros o. unfold active_orgs. rewrite !elem_of_list_to_set. intros ([k r] & -> & [_ Hr%elem_of_map_to_list]%list_elem_of_filter)%list_elem_of_fmap.
    destruct (Hfk _ _ Hr) as [org Ho]. simpl. apply list_elem_of_fmap. exists (m_OrgID (mr_monitor r), org). split; [done|].
    apply list_elem_of_filter. split; [|by apply elem_of_map_to_list]. simpl. apply fmap_is_Some. unfold first_monitor.
    assert ((k, r) ∈ rows_where (fun r0 => m_OrgID (mr_monitor r0) =? m_OrgID (mr_monitor r)) (monitors (pl_store db))) as Hin
      by (apply rows_where_elem; split; [done|apply Z.eqb_refl]).
    destruct (rows_where _ _); [by apply elem_of_nil in Hin|]. simpl. eauto. }
  apply subseteq_size in Hsub. etrans; [exact Hsub|]. rewrite size_list_to_set; [by rewrite length_fmap|].
  unfold orgs. apply NoDup_filter_fst, NoDup_fst_map_to_list.
Qed.

(** The operator's numbers add up, when nothing is written between the queries that read them.  The
    orgs by plan and the monitors by type sum to the totals, each plan, type, status and currency is listed once, the enabled monitors are some of all, the thirty
    days count no user and no org twice, an org that is active has a monitor and is one of the orgs,
    there is a median exactly when an org has a monitor, and the payments by currency are all the
    payments, with all their amounts. *)
Theorem platform_counts_add_up le user_created monitor_created now db :
  (forall k r, monitors (pl_store db) !! k = Some r -> is_Some (a_orgs (pl_accounts db) !! m_OrgID (mr_monitor r))) ->
  let m := store_PlatformMetrics le user_created monitor_created now (fun _ => db) in
  let b := store_PlatformBilling le (fun _ => db) in
  let paid := map_to_list (payments (pl_billing db)) in
  (zsum ((pm_OrgsByPlan m).*2) = pm_Orgs m /\ zsum ((pm_MonitorsByType m).*2) = pm_MonitorsTotal m /\ NoDup ((pm_OrgsByPlan m).*1) /\ NoDup ((pm_MonitorsByType m).*1)) /\
  0 <= pm_MonitorsEnabled m <= pm_MonitorsTotal m /\
  (length (pm_Signups m) = 30%nat /\ zsum (sp_Users <$> pm_Signups m) <= pm_Users m /\ zsum (sp_Orgs <$> pm_Signups m) <= pm_Orgs m) /\
  (0 <= pm_ActiveOrgs7d m <= pm_OrgsWithMonitor m /\ pm_OrgsWithMonitor m <= pm_Orgs m /\ (pm_MedianTTFM2 m = None <-> pm_OrgsWithMonitor m = 0)) /\
  (0 <= pb_PaidOrgs b <= pm_Orgs m /\ NoDup ((pb_SubscriptionsByStatus b).*1) /\ NoDup (cv_Currency <$> pb_RevenueByCurrency b) /\
   zsum (cv_Payments <$> pb_RevenueByCurrency b) = Z.of_nat (length paid) /\
   zsum (cv_Gross <$> pb_RevenueByCurrency b) = zsum ((fun p => py_Amount p.2) <$> paid) /\
   zsum (cv_Refunded <$> pb_RevenueByCurrency b) = zsum ((fun p => py_RefundedAmount p.2) <$> paid)).
Proof.
  intros Hfk. cbv zeta. unfold store_PlatformMetrics, store_PlatformBilling.
  cbn [pm_OrgsByPlan pm_Orgs pm_MonitorsByType pm_MonitorsTotal pm_MonitorsEnabled pm_Signups pm_Users pm_ActiveOrgs7d pm_OrgsWithMonitor pm_MedianTTFM2 pb_PaidOrgs pb_SubscriptionsByStatus pb_RevenueByCurrency].
  assert (forall {K V} `{Countable K} (P : V -> bool) (m : gmap K V), 0 <= rows_affected P m <= Z.of_nat (size m)) as Hrows.
  { intros. unfold rows_affected, rows_where. rewrite <- length_map_to_list. split; [lia|]. apply inj_le, length_filter. }
  split_and!.
  all: try (apply grouped_count || apply Hrows || apply signups_users || apply signups_orgs).
  all: try (unfold group_counts; rewrite <- list_fmap_compose, (list_fmap_ext _ id), list_fmap_id by done; apply group_keys_NoDup).
  - reflexivity.
  - lia.
  - by apply inj_le, active_orgs_have_monitors.
  - unfold activation, count. rewrite omap_length, <- length_map_to_list. apply inj_le, length_filter.
  - rewrite median2_None. destruct (activation monitor_created db); simpl length; split; try done; lia.
  - unfold revenue. rewrite <- list_fmap_compose, (list_fmap_ext _ id), list_fmap_id by done. apply group_keys_NoDup.
  - unfold revenue. rewrite <- list_fmap_compose, <- zsum_ones, <- (grouped_total le py_Currency (fun _ => 1)). f_equal. apply list_fmap_ext. intros i k _.
    simpl. unfold rows_affected. by rewrite <- zsum_ones.
  - unfold revenue. rewrite <- list_fmap_compose, <- (grouped_total le py_Currency py_Amount). f_equal. apply list_fmap_ext. intros i k _. apply sum_where_zsum.
  - unfold revenue. rewrite <- list_fmap_compose, <- (grouped_total le py_Currency py_RefundedAmount). f_equal. apply list_fmap_ext. intros i k _. apply sum_where_zsum.
Qed.

(** ** Witnesses *)

Definition vx_hash (t : string) : string := "#" +:+ t.
Definition vx_invitation : Invitation := mkInvitation 1 1 "a@x" RoleAdmin InvitePending (Some "#tok") "en" None 100 None.
(** The invitation of [pvx_invited] with the token of its mail. *)
Definition vx_invited : MDB :=
  mkMDB ∅ {[ 1 := vx_invitation ]} {[ 1 := mkOrganization "acme" "tier3" "en" false ]} {[ 3 := mkUser "a@x" true "A" true ]} 1 2.
Lemma vx_invited_mwf : mwf id vx_invited.
Proof.
  split; simpl; [by intros ? ?; rewrite lookup_empty| |by intros ? ? ? ?; rewrite lookup_empty|].
  - intros k i. rewrite lookup_singleton_Some. intros [<- <-]. done.
  - intros k1 k2 i1 i2. rewrite !lookup_singleton_Some. by intros [<- <-] [<- <-].
Qed.

Lemma preview_agrees_with_accept_witness :
  let accept := AcceptInvitation String.eqb 50 (Some (mkPrincipal ActorHuman 3 0 0 None)) "#tok" vx_invited in
  GetInvitationPreview vx_hash 50 "tok" vx_invited = VPreview (mkPreview "acme" RoleAdmin InvitePending "a@x" None) /\
  accept.1.1 = R200 /\ exists mb, GetMembership 3 1 accept.1.2 = Ok mb /\ mb_Role mb = RoleAdmin.
Proof.
  cbv zeta. assert (GetInvitationPreview vx_hash 50 "tok" vx_invited = VPreview (mkPreview "acme" RoleAdmin InvitePending "a@x" None)) as Hp by (by vm_compute).
  split; [done|].
  pose proof (preview_agrees_with_accept id String.eqb vx_hash 50 "tok" vx_invited 3 (mkUser "a@x" true "A" true) vx_invitation vx_invited_mwf
    ltac:(by vm_compute) ltac:(by eexists; vm_compute) ltac:(by vm_compute) ltac:(done) ltac:(done) ltac:(by vm_compute)) as H.
  rewrite Hp in H. exact H.
Defined.

Definition vx_owner : Principal := mkPrincipal ActorHuman 1 0 1 (Some RoleOwner).

Lemma expired_invitation_keeps_its_seat_witness :
  HasFreeSeat (seatUsage 1 vx_invited) = true /\
  (CreateInvitation id 200 (Some vx_owner) (Some (mkInviteBody "a@x" RoleMember None)) vx_invited).1.1 =
    (if HasFreeSeat (seatUsage 1 vx_invited) then R409 "a pending invitation for this email already exists" else R402 (su_Cap (seatUsage 1 vx_invited))) /\
  su_Used (seatUsage 1 (ExpireInvitations 200 vx_invited).2) < su_Used (seatUsage 1 vx_invited).
Proof.
  split; [vm_compute; reflexivity|].
  apply (expired_invitation_keeps_its_seat id String.eqb vx_hash (fun _ => 0) 200 "tok" vx_invited vx_invitation vx_owner
    (mkActor ActorHuman 1 0 1 RoleOwner) (mkInviteBody "a@x" RoleMember None) (Some vx_owner) vx_invited_mwf); try (by vm_compute). by eexists; vm_compute.
Defined.

(** An encoder of the intents of magic links, in one locale and at one time. *)
Definition vx_marshal (i : EmailIntent) : option string :=
  match i with
  | mkIntent t l o (Some (mkMagicLink e c a)) None None =>
      if String.eqb t "magic_link" && String.eqb l "en" && (o =? 7) && String.eqb c "" && String.eqb a "" then Some e else None
  | _ => None
  end.
Definition vx_unmarshal (v : string) : option EmailIntent := Some (mkIntent "magic_link" "en" 7 (Some (mkMagicLink v "" "")) None None).

Lemma published_intent_is_handled_witness :
  exists v, (PublishEmail ∅ vx_marshal 7 "a@x" (mkIntent "magic_link" "en" 0 (Some (mkMagicLink "a@x" "" "")) None None) (∅ : RedisSim)).2 =
      {["email.events" := mkTopic [] [] [produce_values ∅ "a@x" v]]} /\
    EmailRunner_handle vx_unmarshal (fun i w => (true, w + 1)) (fun i w => (false, w)) (fun i w => (false, w))
      (toRedisRecord "email.events" (mkXMessage "0" (produce_values ∅ "a@x" v))) 0 = (true, 1).
Proof.
  destruct (published_intent_is_handled (S := RedisSim) (W := Z) ∅ vx_marshal vx_unmarshal 7 "a@x"
    (mkIntent "magic_link" "en" 0 (Some (mkMagicLink "a@x" "" "")) None None) ∅
    (PublishEmail ∅ vx_marshal 7 "a@x" (mkIntent "magic_link" "en" 0 (Some (mkMagicLink "a@x" "" "")) None None) (∅ : RedisSim)).2
    (fun i w => (true, w + 1)) (fun i w => (false, w)) (fun i w => (false, w))) as (v & Hx & Hh).
  - intros [t l o [[e c a]|] [|] [|]] v; try done. unfold vx_marshal, vx_unmarshal.
    destruct (String.eqb_spec t "magic_link"), (String.eqb_spec l "en"), (Z.eqb_spec o 7), (String.eqb_spec c ""), (String.eqb_spec a ""); try done.
    intros [= <-]. by subst.
  - done.
  - done.
  - done.
  - exists v. split; [|by rewrite Hh]. apply (f_equal snd) in Hx. etransitivity; [symmetry; exact Hx|]. reflexivity.
Defined.

Lemma changed_monitors_have_no_reader_witness :
  px_main ServiceNotifier = Ok (px_process ServiceNotifier) /\ ("notifier-email", "email.events") ∈ pc_consumes (px_process ServiceNotifier).
Proof.
  split; [by apply px_main_ok|].
  apply (changed_monitors_have_no_reader px_env px_file ToLowerASCII (fun _ => Some ex_aead) px_world ServiceNotifier (px_process ServiceNotifier)); [|done].
  by apply px_main_ok.
Defined.

(** Two orgs, one of them with a monitor, and three payments in two currencies. *)
Definition vx_payment (k : Z) (amount : Z) (currency : string) : Payment := mkPayment k 1 "paddle" (pretty k) amount currency "completed" "" "" 100 0.
Definition vx_platform : Platform :=
  mkPlatform ex_accounts ex_db1 ∅
    (mkBDB pvx_invited ∅ {[ ("paddle", "1") := vx_payment 1 900 "EUR"; ("paddle", "2") := vx_payment 2 500 "USD"; ("paddle", "3") := vx_payment 3 100 "EUR" ]} ∅ ∅ 1 4).

Lemma platform_counts_add_up_witness :
  let b := store_PlatformBilling String.leb (fun _ => vx_platform) in
  pb_RevenueByCurrency b = [mkRevenue "EUR" 1000 200 2; mkRevenue "USD" 500 100 1] /\
  zsum (cv_Gross <$> pb_RevenueByCurrency b) = zsum ((fun p => py_Amount p.2) <$> map_to_list (payments (pl_billing vx_platform))).
Proof.
  cbv zeta. split; [vm_compute; reflexivity|].
  apply (platform_counts_add_up String.leb (fun _ => 0) (fun _ => 5) 10 vx_platform).
  intros k r Hk. assert (k = 1) as ->.
  { apply elem_of_map_to_list in Hk. vm_compute in Hk. apply list_elem_of_singleton in Hk. by injection Hk. }
  vm_compute in Hk. injection Hk as <-. vm_compute. by eexists.
Defined.
