(* ===== verification/DevApi.v ===== *)
(** * DevApi: the development server (src/internal/devapi/devapi.go, channeltypes.go)

    A server without database that answers the contract from sample data, with the monitors, the
    channels and the plans of the sample orgs in memory.  Go lists a map in no fixed order, here it
    is the order of the finite map.  A handler runs in one step, under its lock; the ids that are
    drawn without the lock are the subject of [DevApiInv].  The clock of a handler is one instant. *)

From S2P Require Import Prelude Domain GoStrings Entitlements Authz Members MonitorApi StatusPages Auth Accounts Channels Providers Webhooks Reads Tokens Router Views.
Open Scope Z_scope.

Definition atCookie : string := "pulse_at".
Definition csrfCookie : string := "pulse_csrf".
Definition devSession : string := "dev-session".
Definition devOrgID : string := "org_dev".
Definition devOrgPlan : string := "tier3".

(** ** State *)

(** The contract's monitor with its certificate and times. *)
Record DevMonitor := mkDevMonitor { dm_monitor : MonitorDTO; dm_Cert : option CertInfo; dm_CreatedAt : Time; dm_UpdatedAt : Time }.
Definition dm_Id (m : DevMonitor) : string := dto_Id (dm_monitor m).
Definition dm_Regions (m : DevMonitor) : list string := mi_Regions (dto_Fields (dm_monitor m)).

Record monRow := mkMonRow {
  rw_m : DevMonitor; rw_status : Status; rw_lastCheckAt : option Time; rw_lastLatency : option Z; rw_incidentOpen : bool; rw_downReason : option FailureReason;
}.
Record DevChannel := mkDevChannel { dc_Id : string; dc_OrgId : string; dc_Name : string; dc_Type : string; dc_Enabled : bool; dc_Config : option Config }.
Record server := mkServer { sv_monitors : gmap string monRow; sv_channels : gmap string DevChannel; sv_adminOrgs : list AdminOrg; sv_nextID : Z }.

Definition set_monitors (m : gmap string monRow) (s : server) : server := mkServer m (sv_channels s) (sv_adminOrgs s) (sv_nextID s).
Definition set_channels (m : gmap string DevChannel) (s : server) : server := mkServer (sv_monitors s) m (sv_adminOrgs s) (sv_nextID s).
Definition set_adminOrgs (l : list AdminOrg) (s : server) : server := mkServer (sv_monitors s) (sv_channels s) l (sv_nextID s).
Definition set_nextID (n : Z) (s : server) : server := mkServer (sv_monitors s) (sv_channels s) (sv_adminOrgs s) n.

Inductive DResponse (A : Type) := D200 (a : A) | D201 (a : A) | D202 (a : A) | D204 | D403 (msg : string) | D404 (msg : string) | D422 (msg : string).
Arguments D200 {_}. Arguments D201 {_}. Arguments D202 {_}. Arguments D204 {_}. Arguments D403 {_}. Arguments D404 {_}. Arguments D422 {_}.

Definition newID (prefix : string) (s : server) : string * server :=
  let n := sv_nextID s + 1 in (prefix +:+ "_" +:+ pretty n, set_nextID n s).

(** ** Sample data *)

Definition baseMonitor (now : Time) (id name url : string) (interval : Z) (enabled : bool) (regions : list string) : DevMonitor :=
  mkDevMonitor (mkMonitorDTO id devOrgID (mkMonitorInput "http" name url "GET" [] "" "200" 10 interval enabled None None 1 [] regions "quorum")) None now now.

Definition with_type (t : string) (i : MonitorInput) : MonitorInput :=
  mkMonitorInput t (mi_Name i) (mi_Url i) (mi_Method i) (mi_Headers i) (mi_Body i) (mi_ExpectedStatusCodes i) (mi_TimeoutSeconds i) (mi_IntervalSeconds i)
    (mi_Enabled i) (mi_MaxLatencyMs i) (mi_BodyContains i) (mi_FailureThreshold i) (mi_NotificationChannelIds i) (mi_Regions i) (mi_DownPolicy i).

Definition sslMonitor (now : Time) (id name host : string) (daysLeft : Z) : DevMonitor :=
  let m := baseMonitor now id name host 86400 true ["eu-central"] in
  mkDevMonitor (mkMonitorDTO id devOrgID (with_type "ssl" (dto_Fields (dm_monitor m))))
    (Some (mkCertInfo host "R3" (now - 30 * Day) (now + daysLeft * Day) [host; "www." +:+ host] "03:a1:b2:c3:d4")) now now.

Definition seed (now : Time) : server :=
  mkServer
    {[ "mon_1" := mkMonRow (baseMonitor now "mon_1" "Marketing site" "https://example.com" 60 true ["eu-central"]) StatusUp (Some (now - 2 * Minute)) (Some 95) false None;
       "mon_2" := mkMonRow (baseMonitor now "mon_2" "Prod API health" "https://api.example.com/health" 60 true ["eu-central"; "us-west"]) StatusDown
                    (Some (now - 1 * Minute)) (Some 540) true (Some ReasonStatusMismatch);
       "mon_3" := mkMonRow (baseMonitor now "mon_3" "Staging" "https://staging.example.com" 300 false ["eu-central"]) StatusDisabled None None false None;
       "mon_4" := mkMonRow (sslMonitor now "mon_4" "example.com cert" "example.com" 5) StatusUp None None false None ]}
    {[ "chan_1" := mkDevChannel "chan_1" devOrgID "Eng Slack" "slack" true (Some {[ "webhook_url_set" := ABool true ]}) ]}
    [mkAdminOrg devOrgID "Dev Workspace" "dev" devOrgPlan (now - 90 * Day); mkAdminOrg "org_acme" "Acme Inc" "acme" "tier2" (now - 30 * Day);
     mkAdminOrg "org_globex" "Globex" "globex" "tier1" (now - 7 * Day); mkAdminOrg "org_initech" "Initech" "initech" "tierCustom" (now - 2 * Day)]
    100.

(** ** Account and operator *)

Definition devOrgs : list OrgMembership := [mkOrgMembership devOrgID "Dev Workspace" "dev" RoleOwner devOrgPlan].
Definition devMe : Me := mkMe "usr_dev" "dev@pulse.local" "Dev User" None "en" "UTC" devOrgs true.
Definition GetMe : DResponse Me := D200 devMe.

Definition UpdateMe (body : option UpdateMeBody) : DResponse Me :=
  D200 match body with
       | None => devMe
       | Some b => mkMe (me_UserId devMe) (me_Email devMe) (default (me_Name devMe) (um_Name b)) (me_AvatarUrl devMe) (default (me_Locale devMe) (um_Locale b))
                     (default (me_Timezone devMe) (um_Timezone b)) (me_Orgs devMe) (me_IsPlatformAdmin devMe)
       end.

Definition ListMyIdentities (now : Time) : DResponse (list IdentityDTO) := D200 [mkIdentityDTO "github" "dev-12345" (now - 24 * Hour)].
Definition ListOrgs : DResponse (list OrgMembership) := D200 devOrgs.

Definition CreateOrg (body : option (string * option string)) (s : server) : DResponse OrgMembership * server :=
  match body with
  | None => (D422 "name required", s)
  | Some (name, slug) =>
      if String.eqb name "" then (D422 "name required", s)
      else
        let '(id, s') := newID "org" s in
        (D201 (mkOrgMembership id name (match slug with Some x => if String.eqb x "" then "new-org" else x | None => "new-org" end) RoleOwner "tier1"), s')
  end.

Definition GetOrg (id : string) : DResponse OrgMembership :=
  if negb (String.eqb id devOrgID) then D403 "not a member of this org"
  else match devOrgs with o :: _ => D200 o | [] => D404 "" end.

Definition GetEntitlements (s : server) : DResponse EntitlementsDTO :=
  D200 (mkEntitlements devOrgPlan (Z.of_nat (size (sv_monitors s))) 100 1 10 0 3 60 90 ["eu-central"; "us-west"; "us-east"] 4 true true true true true).

Definition ListPlans : DResponse (list PlanEntry) := D200 Entitlements.Catalog.

Definition digit (n : Z) : string := String (ascii_of_nat (Z.to_nat (48 + n))) "".
Definition twoDigit (n : Z) : string := if n <? 10 then "0" +:+ digit n else digit (n / 10) +:+ digit (n mod 10).

Definition dev_AdminMetrics : DResponse AdminMetrics :=
  D200 (mkAdminMetrics
    (mkPlatformMetrics 42 17 128 113 54 [("tier1", 9); ("tier2", 4); ("tier3", 3); ("tierCustom", 1)] [("http", 104); ("ssl", 24)]
       ((fun k : nat => let i := 29 - Z.of_nat k in mkSignup ("2026-06-" +:+ twoDigit (30 - i)) (i mod 4) (i mod 3)) <$> seq 0 30) 12 (Some (2 * 3600 * Second)) 9)
    15 (Some 3600)).

Definition ListAdminOrgs (s : server) : DResponse (list AdminOrg) := D200 (sv_adminOrgs s).

Fixpoint set_plan (id plan : string) (l : list AdminOrg) : option AdminOrg * list AdminOrg :=
  match l with
  | [] => (None, [])
  | o :: l' =>
      if String.eqb (ag_Id o) id
      then let o' := mkAdminOrg (ag_Id o) (ag_Name o) (ag_Slug o) plan (ag_CreatedAt o) in (Some o', o' :: l')
      else let '(r, l'') := set_plan id plan l' in (r, o :: l'')
  end.
Definition SetAdminOrgPlan (id : string) (body : option string) (s : server) : DResponse AdminOrg * server :=
  match body with
  | None => (D422 "unknown plan", s)
  | Some plan =>
      if negb (IsKnownPlan plan) then (D422 "unknown plan", s)
      else match set_plan id plan (sv_adminOrgs s) with
           | (Some o, l) => (D200 o, set_adminOrgs l s)
           | (None, _) => (D404 "org not found", s)
           end
  end.

(** Of a subscription: org, plan, status, cycle, provider, and whether it ends with its period. *)
Definition CancelAdminOrgSubscription (id : string) (when_ : option string) : DResponse (string * string * string * string * string * bool) :=
  let immediate := bool_decide (when_ = Some "immediate") in
  D200 (id, devOrgPlan, if immediate then "canceled" else "active", "monthly", "stub", negb immediate).
Definition RefundAdminOrgPayment (body : option string) : DResponse (string * string) :=
  match body with
  | None => D422 "payment_id is required"
  | Some payment => if String.eqb payment "" then D422 "payment_id is required" else D200 (payment, "refund_requested")
  end.
Definition dev_AdminBilling : DResponse PlatformBilling := D200 (mkPlatformBilling 2 [("active", 2); ("past_due", 1)] [mkRevenue "USD" 5700 1900 3]).
Definition CreateBillingCheckout (plan : option string) : DResponse string :=
  match plan with None => D422 "plan and cycle are required" | Some p => D200 ("https://stub.billing.local/checkout?plan=" +:+ p) end.

(** ** Teams, keys and webhooks *)

Definition ListMembers (now : Time) : DResponse (list MemberDTO) :=
  D200 [mkMemberDTO "usr_dev" "dev@pulse.local" "Dev User" None RoleOwner (now - 72 * Hour);
        mkMemberDTO "usr_teammate" "teammate@pulse.local" "Sam Teammate" None RoleMember (now - 24 * Hour)].
Definition ChangeMemberRole (now : Time) (userId : string) (body : option Role) : DResponse MemberDTO :=
  match body with
  | None => D422 "body required"
  | Some r => D200 (mkMemberDTO userId "teammate@pulse.local" "Sam Teammate" None r (now - 24 * Hour))
  end.
Definition TransferOwnership (body : option string) : DResponse unit :=
  match body with None => D422 "user_id required" | Some u => if String.eqb u "" then D422 "user_id required" else D204 end.

Definition dev_invitation (id email : string) (r : Role) (created now : Time) : InvitationDTO := mkInvitationDTO id email r InvitePending created (now + 7 * 24 * Hour) None.
Definition ListInvitations (now : Time) : DResponse (list InvitationDTO) := D200 [dev_invitation "inv_dev" "pending@pulse.local" RoleMember (now - 2 * Hour) now].
Definition CreateInvitation (now : Time) (body : option (string * Role)) (s : server) : DResponse InvitationDTO * server :=
  match body with
  | None => (D422 "email required", s)
  | Some (email, r) =>
      if String.eqb email "" then (D422 "email required", s)
      else let '(id, s') := newID "inv" s in (D201 (dev_invitation id email r now now), s')
  end.
Definition ResendInvitation (now : Time) (id : string) : DResponse InvitationDTO := D200 (dev_invitation id "pending@pulse.local" RoleMember (now - 2 * Hour) now).
Definition GetInvitationPreview (token : string) : DResponse InvitationPreview :=
  D200 (mkPreview "Dev Workspace" RoleMember InvitePending "pending@pulse.local" (Some "Dev User")).
Definition AcceptInvitation : DResponse OrgMembership := match devOrgs with o :: _ => D200 o | [] => D404 "" end.

Definition ListAPIKeys (now : Time) : DResponse (list APIKeyDTO) := D200 [mkKeyDTO "key_dev" "dev key" "pulse_sk_devkey" RoleMember None (now - 24 * Hour) None].
Definition CreateAPIKey (now : Time) (body : option (string * Role)) (s : server) : DResponse (APIKeyDTO * string) * server :=
  match body with
  | None => (D422 "name required", s)
  | Some (name, r) =>
      if String.eqb name "" then (D422 "name required", s)
      else if bool_decide (r <> RoleMember) && bool_decide (r <> RoleAdmin) then (D422 "role must be member or admin", s)
      else let '(id, s') := newID "key" s in (D201 (mkKeyDTO id name "pulse_sk_devnew" r None now None, "pulse_sk_dev-secret-shown-once"), s')
  end.

Definition devWebhook (now : Time) (id url : string) (evs : list string) : WebhookDTO :=
  mkWebhookDTO id url true evs None (now - 24 * Hour) (now - 24 * Hour) None None None.
Definition sample_events : list string := ["monitor.down"; "monitor.recovery"].
Definition sample_webhook (now : Time) : WebhookDTO := devWebhook now "wh_dev" "https://example.com/pulse-hook" sample_events.
Definition ListWebhooks (now : Time) : DResponse (list WebhookDTO) := D200 [sample_webhook now].
Definition GetWebhook (now : Time) : DResponse WebhookDTO := D200 (sample_webhook now).
Definition CreateWebhook (now : Time) (body : option (string * option (list string))) (s : server) : DResponse (WebhookDTO * string) * server :=
  match body with
  | None => (D422 "url required", s)
  | Some (url, evs) =>
      if String.eqb url "" then (D422 "url required", s)
      else let '(id, s') := newID "wh" s in (D201 (devWebhook now id url (default sample_events evs), "whsec_dev-secret-shown-once"), s')
  end.
Definition UpdateWebhook (now : Time) (body : option (string * option (list string))) : DResponse WebhookDTO :=
  match body with
  | None => D422 "url required"
  | Some (url, evs) => if String.eqb url "" then D422 "url required" else D200 (devWebhook now "wh_dev" url (default sample_events evs))
  end.
Definition RotateWebhookSecret (now : Time) : DResponse (WebhookDTO * string) := D200 (sample_webhook now, "whsec_dev-rotated-secret-shown-once").

(** ** Monitors *)

Definition orDefault (d s : string) : string := if String.eqb s "" then d else s.

Definition monitorFromInput (now : Time) (id : string) (i : MonitorInput) : DevMonitor :=
  mkDevMonitor
    (mkMonitorDTO id devOrgID
      (mkMonitorInput (orDefault "http" (mi_Type i)) (mi_Name i) (mi_Url i) (mi_Method i) (mi_Headers i) (mi_Body i) (mi_ExpectedStatusCodes i)
        (mi_TimeoutSeconds i) (mi_IntervalSeconds i) (mi_Enabled i) (mi_MaxLatencyMs i) (mi_BodyContains i) (mi_FailureThreshold i)
        (mi_NotificationChannelIds i) (match mi_Regions i with [] => ["eu-central"] | rs => rs end) (orDefault "quorum" (mi_DownPolicy i))))
    None now now.

(** Neither the next check nor the interval is set in the list. *)
Definition dev_list_item (row : monRow) : MonitorListItem :=
  let f := dto_Fields (dm_monitor (rw_m row)) in
  mkMonitorListItem (dm_Id (rw_m row)) (mi_Type f) (mi_Name f) (mi_Url f) (mi_Enabled f) (rw_status row) (rw_lastCheckAt row) None 0 (rw_lastLatency row)
    (rw_incidentOpen row) (ci_NotAfter <$> dm_Cert (rw_m row)).
Definition ListMonitors (s : server) : DResponse (list MonitorListItem) := D200 ((fun kv => dev_list_item kv.2) <$> map_to_list (sv_monitors s)).

Definition GetMonitor (id : string) (s : server) : DResponse DevMonitor :=
  match sv_monitors s !! id with None => D404 "monitor not found" | Some row => D200 (rw_m row) end.

Definition CreateMonitor (now : Time) (body : option MonitorInput) (s : server) : DResponse DevMonitor * server :=
  match body with
  | None => (D422 "body required", s)
  | Some i =>
      let '(id, s1) := newID "mon" s in
      let m := monitorFromInput now id i in
      (D201 m, set_monitors (<[id := mkMonRow m StatusPending None None false None]> (sv_monitors s1)) s1)
  end.

Definition UpdateMonitor (now : Time) (id : string) (body : option MonitorInput) (s : server) : DResponse DevMonitor * server :=
  match body with
  | None => (D422 "body required", s)
  | Some i =>
      match sv_monitors s !! id with
      | None => (D404 "monitor not found", s)
      | Some row =>
          let m := monitorFromInput now (dm_Id (rw_m row)) i in
          let m := mkDevMonitor (dm_monitor m) (dm_Cert m) (dm_CreatedAt (rw_m row)) now in
          (D200 m, set_monitors (<[id := mkMonRow m (rw_status row) (rw_lastCheckAt row) (rw_lastLatency row) (rw_incidentOpen row) (rw_downReason row)]> (sv_monitors s)) s)
      end
  end.

Definition DeleteMonitor (id : string) (s : server) : DResponse unit * server := (D204, set_monitors (delete id (sv_monitors s)) s).

Definition check_regions (m : DevMonitor) : list string := match dm_Regions m with [] => ["eu-central"] | rs => rs end.
Definition CheckNow (now : Time) (id : string) (s : server) : DResponse (string * list RegionStateDTO) :=
  match sv_monitors s !! id with
  | None => D404 "monitor not found"
  | Some row => D202 (id, (fun r => mkRegionStateDTO r "scheduled" None None None None now) <$> check_regions (rw_m row))
  end.

Definition GetMonitorRegionStates (now : Time) (only : option string) (s : server) : DResponse (gmap string (list RegionStateDTO)) :=
  D200 ((fun row => (fun r => mkRegionStateDTO r "done" (Some true) (Some 200) (Some 120) None now) <$> check_regions (rw_m row)) <$>
    filter (fun kv => bool_decide (default "" only <> "") && negb (String.eqb (default "" only) kv.1) = false) (sv_monitors s)).

Definition Millisecond : Z := 1000000.
Definition sample_regions : list string := ["eu-central"; "us-west"; "us-east"].
Definition sample_result (base : Time) (monitor : string) (i j : Z) (region : string) : CheckResultDTO :=
  let scheduled := base - i * 5 * Minute in
  let healthy := negb ((i + j) mod 7 =? 0) in
  mkCheckResultDTO ("res_" +:+ pretty i +:+ "_" +:+ region) monitor region scheduled (scheduled + j * 200 * Millisecond) healthy
    (Some (if healthy then 200 else 503)) (Some (90 + i * 3 + j * 40)) None (if healthy then None else Some ReasonStatusMismatch) None.
Definition ListResults (now : Time) (monitor : string) : DResponse (list CheckResultDTO) :=
  D200 (i ← seq 0 20; imap (fun j region => sample_result now monitor (Z.of_nat i) (Z.of_nat j) region) sample_regions).

(** ** Incidents *)

Definition incidentsFor (now : Time) (row : monRow) : list IncidentDTO :=
  if bool_decide (rw_status row <> StatusDown) then []
  else [mkIncidentDTO ("inc_" +:+ dm_Id (rw_m row)) (dm_Id (rw_m row)) (now - 30 * Minute) None (rw_downReason row) None None].

Definition ListMonitorIncidents (now : Time) (id : string) (s : server) : DResponse (list IncidentDTO) :=
  D200 (match sv_monitors s !! id with Some row => incidentsFor now row | None => [] end).
Definition all_incidents (now : Time) (s : server) : list IncidentDTO := kv ← map_to_list (sv_monitors s); incidentsFor now kv.2.
Definition ListIncidents (now : Time) (s : server) : DResponse (list IncidentDTO) := D200 (all_incidents now s).
Definition findIncident (now : Time) (id : string) (s : server) : option IncidentDTO :=
  snd <$> list_find (fun inc => id_Id inc = id) (all_incidents now s).

Definition incidentDetailFor (inc : IncidentDTO) : IncidentDetail :=
  mkIncidentDetail inc [mkAnnotationDTO "anno_dev" (id_Id inc) "usr_dev" "Investigating the failing health checks." (id_StartedAt inc + 5 * Minute)].
Definition GetIncident (now : Time) (id : string) (s : server) : DResponse IncidentDetail :=
  match findIncident now id s with None => D404 "incident not found" | Some inc => D200 (incidentDetailFor inc) end.

Definition AddIncidentAnnotation (now : Time) (id : string) (note : option string) (s : server) : DResponse AnnotationDTO * server :=
  match note with
  | None => (D422 "note is required", s)
  | Some n =>
      if String.eqb (TrimSpace n) "" then (D422 "note is required", s)
      else match findIncident now id s with
           | None => (D404 "incident not found", s)
           | Some _ => let '(aid, s') := newID "anno" s in (D201 (mkAnnotationDTO aid id "usr_dev" n now), s')
           end
  end.

(** [ended] is read after the incident was built at [now]. *)
Definition CloseIncident (now ended : Time) (id : string) (s : server) : DResponse IncidentDetail :=
  match findIncident now id s with
  | None => D404 "incident not found"
  | Some inc =>
      let d := incidentDetailFor inc in
      D200 (mkIncidentDetail (mkIncidentDTO (id_Id inc) (id_MonitorId inc) (id_StartedAt inc) (Some ended) (id_CauseReason inc) (Some CloseManual)
              (Some (Z.quot (time_Sub ended (id_StartedAt inc)) Second))) (dt_Annotations d))
  end.

Definition GetLastFailure (now : Time) (id : string) (s : server) : DResponse (string * Time * ResponseSnapshot) :=
  match sv_monitors s !! id with
  | Some row =>
      if bool_decide (rw_status row = StatusDown)
      then D200 (id, now - 30 * Minute,
             mkSnapshot (Some 503) [("Content-Type", ["application/json"]); ("X-Request-Id", ["dev-" +:+ id])]
               ("{" +:+ dq +:+ "status" +:+ dq +:+ ":" +:+ dq +:+ "unhealthy" +:+ dq +:+ "," +:+ dq +:+ "detail" +:+ dq +:+ ":" +:+ dq +:+ "sample captured response" +:+ dq +:+ "}") false)
      else D404 ""
  | None => D404 ""
  end.

(** ** Status pages *)

(** What the two writes read of their body. *)
Record DevPageBody := mkDevPage { dp_Name : string; dp_Slug : string; dp_DisplayMonitors : list StatusPageMonitorEntry }.

Definition stateOf (published : bool) : string := if published then "published" else "draft".
Definition devStatusPage (id name slug : string) (published : bool) (monitors : list StatusPageMonitorEntry) : StatusPageDTO :=
  mkPageDTO id devOrgID name slug "" "#4f46e5" "light" (stateOf published) None monitors.
Definition sample_entries : list StatusPageMonitorEntry := [mkEntryDTO "mon_1" "Website" 0; mkEntryDTO "mon_2" "API" 1].
Definition sample_page (id : string) (published : bool) : StatusPageDTO := devStatusPage id "Public Status" "acme" published sample_entries.

Definition ListStatusPages : DResponse (list StatusPageDTO) := D200 [sample_page "sp_1" true].
Definition GetStatusPage (id : string) : DResponse StatusPageDTO := D200 (sample_page id true).
Definition page_named (body : option DevPageBody) : option DevPageBody :=
  b ← body; if String.eqb (dp_Name b) "" || String.eqb (dp_Slug b) "" then None else Some b.
Definition CreateStatusPage (body : option DevPageBody) (s : server) : DResponse StatusPageDTO * server :=
  match page_named body with
  | None => (D422 "name and slug required", s)
  | Some b => let '(id, s') := newID "sp" s in (D201 (devStatusPage id (dp_Name b) (dp_Slug b) false (dp_DisplayMonitors b)), s')
  end.
Definition UpdateStatusPage (id : string) (body : option DevPageBody) : DResponse StatusPageDTO :=
  match page_named body with
  | None => D422 "name and slug required"
  | Some b => D200 (devStatusPage id (dp_Name b) (dp_Slug b) false (dp_DisplayMonitors b))
  end.
Definition PublishStatusPage (id : string) (body : option bool) : DResponse StatusPageDTO := D200 (sample_page id (default false body)).

Definition GetPublicStatusPage (now : Time) (slug : string) : DResponse PublicStatusPage :=
  if String.eqb slug "" then D404 "status page not found"
  else
    let full := mkUptime (QArith_base.Qmake 100 1) (QArith_base.Qmake 998 10) (QArith_base.Qmake 995 10) true true true in
    D200 (mkPublicPage "Acme Status" slug "" "#4f46e5" "light" BannerPartial
      [mkDisplayed "Website" PublicOperational full [mkPoint now true]; mkDisplayed "API" PublicDown full [mkPoint now false]]
      [mkPublicIncident "API" (now - 30 * Minute) None None false] "90d").

(** ** Channels *)

Definition ListChannels (s : server) : DResponse (list DevChannel) := D200 (snd <$> map_to_list (sv_channels s)).
Definition CreateChannel (body : option ChannelInput) (s : server) : DResponse DevChannel * server :=
  let i := default (mkChannelInput "" "" false None) body in
  let '(id, s1) := newID "chan" s in
  let c := mkDevChannel id devOrgID (ci_Name i) (ci_Type i) (ci_Enabled i) (ci_Config i) in
  (D201 c, set_channels (<[id := c]> (sv_channels s1)) s1).
Definition UpdateChannel (id : string) (body : option ChannelInput) (s : server) : DResponse DevChannel * server :=
  match sv_channels s !! id with
  | None => (D404 "channel not found", s)
  | Some c =>
      let c' := match body with
                | None => c
                | Some i => mkDevChannel (dc_Id c) (dc_OrgId c) (ci_Name i) (ci_Type i) (ci_Enabled i) (ci_Config i)
                end in
      (D200 c', set_channels (<[id := c']> (sv_channels s)) s)
  end.
Definition DeleteChannel (id : string) (s : server) : DResponse unit * server := (D204, set_channels (delete id (sv_channels s)) s).

(** ** The channel catalog (channeltypes.go) *)

Definition planRank : gmap string Z := {[ "tier1" := 0; "tier2" := 1; "tier3" := 2; "tierCustom" := 3 ]}.
Definition channelMinPlan : gmap string string :=
  {[ "slack" := "tier1"; "discord" := "tier1"; "webhook" := "tier1"; "smtp" := "tier1"; "email" := "tier1"; "pagerduty" := "tier3"; "opsgenie" := "tier3";
     "telegram" := "tierCustom"; "teams" := "tierCustom"; "twilio" := "tierCustom" ]}.
Definition plan_rank (p : string) : Z := default 0 (planRank !! p).
Definition allowedChannelTypes (plan : string) : gset string := dom (filter (fun kv => plan_rank kv.2 <= plan_rank plan) channelMinPlan).

Definition titlePlan (p : string) : string :=
  if String.eqb p "tier1" then "Free" else if String.eqb p "tier2" then "Starter" else if String.eqb p "tier3" then "Team"
  else if String.eqb p "tierCustom" then "Business" else p.

(** A reason with the two parameters of its text. *)
Record UpgradeReason := mkUpgrade { ur_required_plan : string; ur_channel_type : string; ur_text : LocalizedString }.
Definition unavailableReason (required : string) (e : CatalogEntry) : UpgradeReason :=
  mkUpgrade required (ke_Type e) (mkLocalized "channel.unavailable.plan_upgrade" ("Upgrade to " +:+ titlePlan required +:+ " to use " +:+ ke_DisplayName e)).

Definition catalogField (f : CatalogField) : CatalogFieldDTO :=
  mkCatalogFieldDTO (kf_Key f) (kf_Type f) (kf_Required f) (kf_Secret f) (kf_Label f)
    (if String.eqb (kf_Default f) "" then None else Some (kf_Default f))
    (match kf_Enum f with [] => None | e => Some e end)
    (if String.eqb (ls_Code (kf_Help f)) "" then None else Some (kf_Help f)).

Record DevCatalogEntry := mkDevEntry {
  de_Entry : string * string * bool; de_Fields : list CatalogFieldDTO; de_RequiredPlan : string; de_Unavailable : option UpgradeReason;
}.
Definition channelCatalogEntry (e : CatalogEntry) : DevCatalogEntry :=
  let min := default "" (channelMinPlan !! ke_Type e) in
  mkDevEntry (ke_Type e, ke_DisplayName e, ke_Available e) (catalogField <$> ke_ConfigFields e) min (if ke_Available e then None else Some (unavailableReason min e)).
Definition dev_ChannelTypes (Sprint : any -> string) : list DevCatalogEntry :=
  channelCatalogEntry <$> Channels.Catalog (Default Sprint) (allowedChannelTypes devOrgPlan).

(** ** The HTTP server *)

Definition isAuthed (cookie : option string) : bool := bool_decide (cookie = Some devSession).

Definition dev_routes : list Route :=
  [at_ "GET" "/healthz" Open "healthz"; at_ "GET" "/auth/{provider}/login" Open "login"; at_ "POST" "/auth/refresh" Open "refresh";
   at_ "POST" "/auth/logout" Open "logout"; at_ "GET" "/api/v1/openapi.json" Open "openapiJSON"; at_ "GET" "/api/docs" Open "swaggerUI"].

(** A hand-wired handler, the generated contract below /api/v1/, or a status; the path without its
    last slash is redirected. *)
Inductive DevOutcome := DevRuns (op : string) (values : list (string * string)) | DevContract | DevStatus (status : Z) | DevSlash.

Definition below_contract (path : list string) : bool := match path with "api" :: "v1" :: _ :: _ => true | _ => false end.
Definition dev_serve (method : string) (path : list string) (cookie : option string) : DevOutcome :=
  match filter (fun r => matches method path r = true) dev_routes with
  | r :: _ => DevRuns (rte_op r) (default [] (match_path (rte_path r) path))
  | [] =>
      if below_contract path then if isAuthed cookie then DevContract else DevStatus 401
      else if bool_decide (path = ["api"; "v1"]) then DevSlash
      else if existsb (fun r => bool_decide (is_Some (match_path (rte_path r) path))) dev_routes then DevStatus 405 else DevStatus 404
  end.

Definition setCookie (name value : string) (httpOnly : bool) : Cookie := mkCookie name value "/" None 0 httpOnly false true.
Definition clearCookie (name : string) : Cookie := mkCookie name "" "/" None (-1) false false false.

(** The cookies, and where the browser goes. *)
Definition login (return_to : string) : list Cookie * string :=
  ([setCookie atCookie devSession true; setCookie csrfCookie "dev-csrf-token" false],
   if HasPrefix return_to "/" then return_to else "/").
Definition refresh (cookie : option string) : Z * list Cookie :=
  if isAuthed cookie then (204, [setCookie atCookie devSession true]) else (401, []).
Definition logout : Z * list Cookie := (204, [clearCookie atCookie; clearCookie csrfCookie]).
