(* ===== verification/DevApiInv.v ===== *)
(** * DevApiInv: where the development server stands in for the api, and where it does not

    One request at a time, its ids are fresh and what was created is found; an id drawn without the
    lock can set the counter back, so that a later monitor replaces an earlier one.  The contract is
    behind its session, the two public reads of the api included; its channel catalog and its limits
    are not those of the plan it shows. *)

From S2P Require Import Prelude Domain GoStrings Entitlements Authz Members MonitorApi StatusPages Auth Accounts Channels Providers Webhooks Reads Tokens Router Views Login DevApi.
Open Scope Z_scope.

(** ** One request at a time *)

(** Every handler that changes the server. *)
Inductive dev_step : server -> server -> Prop :=
  | dev_create_org body s : dev_step s (CreateOrg body s).2
  | dev_set_plan id body s : dev_step s (SetAdminOrgPlan id body s).2
  | dev_invite now body s : dev_step s (CreateInvitation now body s).2
  | dev_create_key now body s : dev_step s (CreateAPIKey now body s).2
  | dev_create_webhook now body s : dev_step s (CreateWebhook now body s).2
  | dev_create_monitor now body s : dev_step s (CreateMonitor now body s).2
  | dev_update_monitor now id body s : dev_step s (UpdateMonitor now id body s).2
  | dev_delete_monitor id s : dev_step s (DeleteMonitor id s).2
  | dev_annotate now id note s : dev_step s (AddIncidentAnnotation now id note s).2
  | dev_create_page body s : dev_step s (CreateStatusPage body s).2
  | dev_create_channel body s : dev_step s (CreateChannel body s).2
  | dev_update_channel id body s : dev_step s (UpdateChannel id body s).2
  | dev_delete_channel id s : dev_step s (DeleteChannel id s).2.

(** The rows carry their keys, which are numbered up to the counter. *)
Definition numbered {V} (prefix : string) (key : V -> string) (n : Z) (m : gmap string V) : Prop :=
  forall id v, m !! id = Some v -> key v = id /\ exists k, id = prefix +:+ "_" +:+ pretty k /\ k <= n.
Definition dwf (s : server) : Prop :=
  numbered "mon" (fun row => dm_Id (rw_m row)) (sv_nextID s) (sv_monitors s) /\ numbered "chan" dc_Id (sv_nextID s) (sv_channels s).

Lemma numbered_weaken {V} prefix (key : V -> string) n n' m : n <= n' -> numbered prefix key n m -> numbered prefix key n' m.
Proof. intros Hn Hm id v Hv. destruct (Hm id v Hv) as (? & k & ? & ?). split; [done|]. exists k. split; [done|lia]. Qed.

Lemma numbered_insert {V} prefix (key : V -> string) n m id v :
  numbered prefix key n m -> key v = id -> (exists k, id = prefix +:+ "_" +:+ pretty k /\ k <= n) -> numbered prefix key n (<[id := v]> m).
Proof. intros Hm Hk Hn id' v'. rewrite lookup_insert_Some. intros [[<- <-]|[_ H]]; [done|by apply Hm]. Qed.

Lemma numbered_delete {V} prefix (key : V -> string) n m id : numbered prefix key n m -> numbered prefix key n (delete id m).
Proof. intros Hm id' v'. rewrite lookup_delete_Some. intros [_ H]. by apply Hm. Qed.

Lemma numbered_fresh {V} prefix (key : V -> string) n m : numbered prefix key n m -> m !! (prefix +:+ "_" +:+ pretty (n + 1)) = None.
Proof.
  intros Hm. destruct (m !! _) as [v|] eqn:Hv; [|done]. destruct (Hm _ _ Hv) as (_ & k & Hk & Hle).
  apply string_app_inj_l, string_app_inj_l, (inj pretty) in Hk. lia.
Qed.

Lemma dwf_counter n s : sv_nextID s <= n -> dwf s -> dwf (set_nextID n s).
Proof. intros Hn [H1 H2]. split; by eapply numbered_weaken. Qed.

Lemma dwf_seed now : dwf (seed now).
Proof.
  split; intros id v; cbn [seed sv_monitors sv_channels sv_nextID]; rewrite ?lookup_insert_Some, ?lookup_singleton_Some.
  - intros [[<- <-]|[_ [[<- <-]|[_ [[<- <-]|[_ [<- <-]]]]]]]; (split; [done|]); [exists 1|exists 2|exists 3|exists 4]; (split; [reflexivity|lia]).
  - intros [<- <-]. split; [done|]. exists 1. split; [reflexivity|lia].
Qed.

Lemma dwf_step s s' : dev_step s s' -> dwf s -> dwf s'.
Proof.
  assert (forall t, dwf t -> dwf (set_nextID (sv_nextID t + 1) t)) as Hdraw by (intros; apply dwf_counter; [lia|done]).
  intros Hs Hw. destruct Hs.
  - unfold CreateOrg. destruct body as [[name slug]|]; [|done]. destruct (String.eqb _ _); [done|]. by apply Hdraw.
  - unfold SetAdminOrgPlan. destruct body as [plan|]; [|done]. destruct (negb _); [done|]. by destruct (set_plan _ _ _) as [[o|] l].
  - unfold CreateInvitation. destruct body as [[email r]|]; [|done]. destruct (String.eqb _ _); [done|]. by apply Hdraw.
  - unfold CreateAPIKey. destruct body as [[name r]|]; [|done]. destruct (String.eqb _ _); [done|]. destruct (_ && _); [done|]. by apply Hdraw.
  - unfold CreateWebhook. destruct body as [[url evs]|]; [|done]. destruct (String.eqb _ _); [done|]. by apply Hdraw.
  - unfold CreateMonitor. destruct body as [i|]; [|done]. destruct (Hdraw s Hw) as [H1 H2]. split; [|done].
    apply numbered_insert; [done|done|]. exists (sv_nextID s + 1). split; [done|simpl; lia].
  - unfold UpdateMonitor. destruct body as [i|]; [|done]. destruct (sv_monitors s !! id) as [row|] eqn:Hr; [|done]. destruct Hw as [H1 H2]. split; [|done].
    destruct (H1 _ _ Hr) as [Hid Hk]. by apply numbered_insert.
  - destruct Hw as [H1 H2]. split; [by apply numbered_delete|done].
  - unfold AddIncidentAnnotation. destruct note as [n|]; [|done]. destruct (String.eqb _ _); [done|]. destruct (findIncident _ _ _); [|done]. by apply Hdraw.
  - unfold CreateStatusPage. destruct (page_named body); [|done]. by apply Hdraw.
  - unfold CreateChannel. destruct (Hdraw s Hw) as [H1 H2]. split; [done|]. apply numbered_insert; [done|done|].
    exists (sv_nextID s + 1). split; [done|simpl; lia].
  - unfold UpdateChannel. destruct (sv_channels s !! id) as [c|] eqn:Hc; [|done]. destruct Hw as [H1 H2]. split; [done|].
    destruct (H2 _ _ Hc) as [Hid Hk]. apply numbered_insert; [done| |done]. by destruct body.
  - destruct Hw as [H1 H2]. split; [done|by apply numbered_delete].
Qed.

Lemma dwf_run now s : rtc dev_step (seed now) s -> dwf s.
Proof. intros Hr. assert (dwf (seed now)) as Hw by apply dwf_seed. induction Hr; [done|]. eauto using dwf_step. Qed.

(** One request at a time, a monitor is created under an id that no monitor has, is found under it as
    it was answered, and no other monitor changes. *)
Theorem dev_created_is_found start now s i m s' : rtc dev_step (seed start) s -> CreateMonitor now (Some i) s = (D201 m, s') ->
  sv_monitors s !! dm_Id m = None /\ GetMonitor (dm_Id m) s' = D200 m /\ forall id, id <> dm_Id m -> GetMonitor id s' = GetMonitor id s.
Proof.
  intros [H1 _]%dwf_run. unfold CreateMonitor. cbn [newID]. intros [= <- <-]. unfold dm_Id, monitorFromInput. cbn [dm_monitor dto_Id].
  split; [by eapply numbered_fresh|]. unfold GetMonitor. cbn [set_monitors set_nextID sv_monitors]. split; [by rewrite lookup_insert_eq|].
  intros id Hid. by rewrite lookup_insert_ne.
Qed.

(** Looking an incident up by its id finds it exactly when its monitor is there and down. *)
Lemma all_incidents_elem now s inc : inc ∈ all_incidents now s <-> exists id row, sv_monitors s !! id = Some row /\ inc ∈ incidentsFor now row.
Proof.
  unfold all_incidents. rewrite list_elem_of_bind. split.
  - intros ([id row] & Hi & Hin%elem_of_map_to_list). by exists id, row.
  - intros (id & row & Hin & Hi). exists (id, row). by rewrite elem_of_map_to_list.
Qed.

Theorem dev_incident_is_found start now s id inc : rtc dev_step (seed start) s ->
  findIncident now ("inc_" +:+ id) s = Some inc <-> exists row, sv_monitors s !! id = Some row /\ incidentsFor now row = [inc].
Proof.
  intros [H1 _]%dwf_run. unfold findIncident.
  assert (forall id' row, sv_monitors s !! id' = Some row -> forall inc', inc' ∈ incidentsFor now row -> incidentsFor now row = [inc'] /\ id_Id inc' = "inc_" +:+ id') as Hone.
  { intros id' row Hr inc'. destruct (H1 _ _ Hr) as [<- _]. unfold incidentsFor. destruct (bool_decide _); [by intros ?%elem_of_nil|]. by intros ->%list_elem_of_singleton. }
  split.
  - destruct (list_find _ _) as [[k inc']|] eqn:Hf; [|done]. intros [= ->]. apply list_find_Some in Hf as (Hk & Hid & _).
    apply list_elem_of_lookup_2, all_incidents_elem in Hk as (id' & row & Hr & Hin). destruct (Hone _ _ Hr _ Hin) as [Heq Hid'].
    rewrite Hid in Hid'. apply string_app_inj_l in Hid' as ->. by exists row.
  - intros (row & Hr & Hin). assert (inc ∈ all_incidents now s) as Hel by (apply all_incidents_elem; exists id, row; split; [done|rewrite Hin; left]).
    destruct (list_find (fun i => id_Id i = "inc_" +:+ id) (all_incidents now s)) as [[k inc']|] eqn:Hf.
    + apply list_find_Some in Hf as (Hk & Hid & _). apply list_elem_of_lookup_2, all_incidents_elem in Hk as (id' & row' & Hr' & Hin').
      destruct (Hone _ _ Hr' _ Hin') as [Heq Hid']. rewrite Hid in Hid'. apply string_app_inj_l in Hid' as <-. rewrite Hr in Hr'. injection Hr' as <-.
      rewrite Hin in Heq. by injection Heq as ->.
    + apply list_find_None in Hf. rewrite Forall_forall in Hf. destruct (Hf _ Hel).
      apply (Hone _ _ Hr). rewrite Hin. left.
Qed.

(** Setting the plan of one org in a list of distinct ones. *)
Lemma set_plan_spec id plan l : NoDup (ag_Id <$> l) ->
  match set_plan id plan l with
  | (None, l') => (id ∉ (ag_Id <$> l)) /\ l' = l
  | (Some o, l') => ag_Id o = id /\ ag_Plan o = plan /\ o ∈ l' /\ ag_Id <$> l' = ag_Id <$> l /\ forall o', ag_Id o' <> id -> (o' ∈ l' <-> o' ∈ l)
  end.
Proof.
  induction l as [|o l IH]; [intros _; split; [apply not_elem_of_nil|done]|]. intros [Hnot Hnd]%NoDup_cons. cbn [set_plan].
  destruct (String.eqb_spec (ag_Id o) id) as [<-|Hne].
  - cbn. split_and!; try done; [left|]. intros o' Ho'. rewrite !elem_of_cons. split; intros [->|?]; [done|by right|done|by right].
  - specialize (IH Hnd). destruct (set_plan id plan l) as [[o1|] l1].
    + destruct IH as (? & ? & ? & Hids & Hrest). split_and!; try done; [by right|by rewrite !fmap_cons, Hids|].
      intros o' Ho'. rewrite !elem_of_cons, Hrest by done. done.
    + destruct IH as [Hn ->]. split; [|done]. rewrite fmap_cons, elem_of_cons. naive_solver.
Qed.

Lemma orgs_distinct start s : rtc dev_step (seed start) s -> NoDup (ag_Id <$> sv_adminOrgs s).
Proof.
  intros Hr. assert (NoDup (ag_Id <$> sv_adminOrgs (seed start))) as Hn by (apply (bool_decide_unpack _); vm_compute; done).
  induction Hr as [|s1 s2 s3 Hs _ IH]; [done|]. apply IH. clear IH.
  assert (sv_adminOrgs s2 = sv_adminOrgs s1 \/ exists id body, s2 = (SetAdminOrgPlan id body s1).2) as [->|(id & body & ->)]; [|done|].
  { destruct Hs; try (left; done); try (right; by eexists _, _); left;
      unfold CreateOrg, CreateInvitation, CreateAPIKey, CreateWebhook, CreateMonitor, UpdateMonitor, AddIncidentAnnotation, CreateStatusPage, UpdateChannel;
      repeat (case_match; try done); by simplify_eq/=. }
  unfold SetAdminOrgPlan. destruct body as [plan|]; [|done]. destruct (negb _); [done|].
  pose proof (set_plan_spec id plan _ Hn) as Hsp. destruct (set_plan _ _ _) as [[o|] l]; [|done]. cbn. by destruct Hsp as (_ & _ & _ & -> & _).
Qed.

(** The plan of a sample org is set as the api sets it: an unknown plan and then an unknown org are
    refused and change nothing, otherwise that org has the plan and the others are as they were. *)
Theorem dev_plan_edit start s id plan : rtc dev_step (seed start) s ->
  let '(r, s') := SetAdminOrgPlan id (Some plan) s in
  (IsKnownPlan plan = false -> r = D422 "unknown plan" /\ s' = s) /\
  (IsKnownPlan plan = true -> id ∉ ag_Id <$> sv_adminOrgs s -> r = D404 "org not found" /\ s' = s) /\
  (IsKnownPlan plan = true -> id ∈ ag_Id <$> sv_adminOrgs s ->
     exists o, r = D200 o /\ ag_Id o = id /\ ag_Plan o = plan /\ o ∈ sv_adminOrgs s' /\
       forall o', ag_Id o' <> id -> (o' ∈ sv_adminOrgs s' <-> o' ∈ sv_adminOrgs s)).
Proof.
  intros Hn%orgs_distinct. unfold SetAdminOrgPlan. destruct (IsKnownPlan plan); [|by cbn; split_and!]. cbn [negb].
  pose proof (set_plan_spec id plan _ Hn) as Hsp. destruct (set_plan _ _ _) as [[o|] l]; cbn.
  - destruct Hsp as (Ho & Hp & Hin & Hids & Hrest). split; [done|]. split; [intros _ Hnot|intros _ _; by exists o].
    destruct Hnot. rewrite <- Hids, <- Ho. apply list_elem_of_fmap. by exists o.
  - destruct Hsp as [Hnot ->]. split_and!; [done|by intros|by intros _ ?].
Qed.

(** ** Requests that overlap *)

(** Six handlers draw their id without the lock, in two accesses; [race_step] lets the locked
    creation of a monitor come between them.  The pending value is what the draw has read. *)
Inductive race_step : server * option Z -> server * option Z -> Prop :=
  | race_load s : race_step (s, None) (s, Some (sv_nextID s))
  | race_store s n : race_step (s, Some n) (set_nextID (n + 1) s, None)
  | race_create now i s p : race_step (s, p) ((CreateMonitor now (Some i) s).2, p).

Definition create_at (now : Time) (i : MonitorInput) (s : server) : server := (CreateMonitor now (Some i) s).2.
Definition created (now : Time) (i : MonitorInput) (s : server) : DevMonitor := monitorFromInput now ("mon_" +:+ pretty (sv_nextID s + 1)) i.

Lemma CreateMonitor_created now i s : (CreateMonitor now (Some i) s).1 = D201 (created now i s).
Proof. reflexivity. Qed.

(** An id drawn without the lock can cost a monitor.  From any state, while one such request is between
    its two accesses, two monitors are created; when it has stored what it read, the next monitor
    gets the id of the second one and replaces it: three were created and answered, two are there. *)
Theorem dev_unlocked_draw_loses_a_monitor now i1 i2 i3 s : dwf s ->
  let s1 := create_at now i1 s in
  let s2 := create_at now i2 s1 in
  let s3 := set_nextID (sv_nextID s + 1) s2 in
  let s4 := create_at now i3 s3 in
  rtc race_step (s, None) (s4, None) /\
  dm_Id (created now i2 s1) = dm_Id (created now i3 s3) /\ GetMonitor (dm_Id (created now i2 s1)) s4 = D200 (created now i3 s3) /\
  size (sv_monitors s4) = (size (sv_monitors s) + 2)%nat.
Proof.
  intros Hw. cbv zeta. split_and!.
  - eapply rtc_l; [apply race_load|]. eapply rtc_l; [apply (race_create now i1)|]. eapply rtc_l; [apply (race_create now i2)|].
    eapply rtc_l; [apply race_store|]. apply rtc_once, (race_create now i3).
  - unfold created, create_at, monitorFromInput, dm_Id, CreateMonitor. cbn. do 2 f_equal.
  - unfold GetMonitor, created, create_at, monitorFromInput, dm_Id, CreateMonitor. cbn. by rewrite lookup_insert_eq.
  - assert (dwf (create_at now i1 s)) as Hw1 by (eapply dwf_step; [apply dev_create_monitor|done]).
    unfold create_at, CreateMonitor in *. cbn in *. rewrite insert_insert_eq.
    rewrite map_size_insert_None by (eapply numbered_fresh; apply Hw1).
    rewrite map_size_insert_None by (eapply numbered_fresh; apply Hw). lia.
Qed.

(** ** What it shows, and to whom *)

(** The generated contract runs only with the session's cookie.  The two reads that the api opens to
    everyone, the public page and the preview of an invitation, are refused here without it. *)
Theorem dev_contract_needs_session method path cookie :
  (dev_serve method path cookie = DevContract -> cookie = Some devSession /\ below_contract path = true) /\
  (forall dev x, x <> "" ->
     (exists r vs, lookup_route (routes dev) "GET" ["api"; "v1"; "public"; "status-pages"; x] = Found r vs /\ rte_access r = Open) /\
     (exists r vs, lookup_route (routes dev) "GET" ["api"; "v1"; "invitations"; x] = Found r vs /\ rte_access r = Open) /\
     dev_serve "GET" ["api"; "v1"; "public"; "status-pages"; x] None = DevStatus 401 /\ dev_serve "GET" ["api"; "v1"; "invitations"; x] None = DevStatus 401).
Proof.
  split.
  - unfold dev_serve. destruct (filter _ _); [|done]. destruct (below_contract path); [|by repeat case_match].
    unfold isAuthed. case_bool_decide; [done|done].
  - intros dev x Hx. destruct x as [|a x]; [done|]. clear Hx. split_and!; [destruct dev; do 2 eexists; (split; vm_compute; reflexivity)..| |]; vm_compute; reflexivity.
Qed.

(** The channel catalog shows the types and fields of the api's catalog for the plan it claims, with the
    same availability but for two types: telegram and teams are offered as an upgrade, although the
    plan includes them. *)
Theorem dev_catalog_offers_what_the_plan_has Sprint :
  let real := catalogEntryDTO <$> Channels.Catalog (Default Sprint) (list_to_set (ChannelTypesAllowed devOrgPlan)) in
  ((fun e => (de_Entry e).1) <$> dev_ChannelTypes Sprint) = ((fun e => (ed_Type e, Channels.ed_DisplayName e)) <$> real) /\
  (de_Fields <$> dev_ChannelTypes Sprint) = (ed_ConfigFields <$> real) /\
  ((fun e => ((de_Entry e).1.1, (de_Entry e).2)) <$> dev_ChannelTypes Sprint) =
    ((fun e => (ed_Type e, ed_Available e && negb (bool_decide (ed_Type e ∈ ["telegram"; "teams"])))) <$> real).
Proof. cbv zeta. split_and!; vm_compute; reflexivity. Qed.

(** The limits on the usage screen are those of no plan: the named plan has half the monitors, more
    status pages and one region more; the rest is as the plan says. *)
Theorem dev_limits_are_not_the_plans s e : GetEntitlements s = D200 e ->
  let l := MonitorLimits_for 0 devOrgPlan in
  et_Plan e = devOrgPlan /\ et_MonitorsCap e = 2 * ml_MonitorsCap l /\ et_StatusPagesCap e < StatusPageCap 0 devOrgPlan /\
  (forall r, r ∈ et_RegionsAllowed e <-> r ∈ ml_RegionsAllowed l /\ r <> SAEast) /\
  et_SeatsCap e = SeatCap 0 devOrgPlan /\ et_MinIntervalSeconds e = EffectiveIntervalFloor l /\ et_RetentionDays e = Retention devOrgPlan /\
  et_RegionsPerMonitorCap e = ml_RegionsPerMonitorCap l /\ et_CustomDomainAllowed e = CustomDomainAllowed devOrgPlan /\
  et_ApiAccessAllowed e = APIAccessAllowed devOrgPlan /\ et_ApiWriteAllowed e = APIWriteAllowed devOrgPlan.
Proof.
  intros [= <-]. cbv zeta. split_and!; try (vm_compute; reflexivity).
  intros r. change (ml_RegionsAllowed (MonitorLimits_for 0 devOrgPlan)) with [EUCentral; USEast; USWest; SAEast]. cbn [et_RegionsAllowed].
  unfold EUCentral, USEast, USWest, SAEast. rewrite !elem_of_cons, elem_of_nil. split.
  - intros [->|[->|[->|[]]]]; (split; [tauto|done]).
  - intros [[->|[->|[->|[->|[]]]]] Hne]; [tauto|tauto|tauto|done].
Qed.

(** The path a sign-in returns to is checked less than in the api: an address of another site that
    starts with two slashes is kept. *)
Example dev_login_leaves_the_site : (login "//evil.example").2 = "//evil.example" /\ safeReturnTo "//evil.example" = "/".
Proof. split; reflexivity. Qed.

(** *** Witnesses *)

Definition dx_input : MonitorInput := mkMonitorInput "" "shop" "https://shop.example" "GET" [] "" "200" 10 60 true None None 1 [] [] "".
Definition dx_run : server := create_at 5 dx_input (CreateOrg (Some ("Acme", None)) (seed 0)).2.
Lemma dx_run_reached : rtc dev_step (seed 0) dx_run.
Proof. eapply rtc_l; [apply dev_create_org|]. apply rtc_once, dev_create_monitor. Qed.

Lemma dev_created_is_found_witness :
  dm_Id (created 6 dx_input dx_run) = "mon_103" /\ GetMonitor "mon_103" (create_at 6 dx_input dx_run) = D200 (created 6 dx_input dx_run) /\
  GetMonitor "mon_102" (create_at 6 dx_input dx_run) = GetMonitor "mon_102" dx_run.
Proof.
  split; [vm_compute; reflexivity|].
  destruct (dev_created_is_found 0 6 dx_run dx_input (created 6 dx_input dx_run) (create_at 6 dx_input dx_run) dx_run_reached eq_refl) as (_ & Hf & Ho).
  split; [exact Hf|]. apply Ho. by vm_compute.
Defined.

Lemma dev_incident_is_found_witness : exists inc, findIncident 50 "inc_mon_2" dx_run = Some inc /\ id_MonitorId inc = "mon_2".
Proof.
  assert (exists row inc, sv_monitors dx_run !! "mon_2" = Some row /\ incidentsFor 50 row = [inc] /\ id_MonitorId inc = "mon_2") as (row & inc & Hr & Hi & Hm)
    by (do 2 eexists; split_and!; vm_compute; reflexivity).
  exists inc. split; [|done]. apply (dev_incident_is_found 0 50 dx_run "mon_2" inc dx_run_reached). by exists row.
Defined.

Lemma dev_plan_edit_witness : exists o s', SetAdminOrgPlan "org_acme" (Some "tier3") dx_run = (D200 o, s') /\ ag_Plan o = "tier3" /\ o ∈ sv_adminOrgs s'.
Proof.
  pose proof (dev_plan_edit 0 dx_run "org_acme" "tier3" dx_run_reached) as H. destruct (SetAdminOrgPlan _ _ _) as [r s'].
  destruct H as (_ & _ & H). destruct H as (o & -> & _ & Hp & Hin & _); [by vm_compute|right; left|]. by exists o, s'.
Defined.

Lemma dev_unlocked_draw_loses_a_monitor_witness :
  dwf (seed 0) /\ let s1 := create_at 5 dx_input (seed 0) in
  size (sv_monitors (create_at 5 dx_input (set_nextID (sv_nextID (seed 0) + 1) (create_at 5 dx_input s1)))) = 6%nat.
Proof.
  split; [apply dwf_seed|]. cbv zeta.
  destruct (dev_unlocked_draw_loses_a_monitor 5 dx_input dx_input dx_input (seed 0) (dwf_seed 0)) as (_ & _ & _ & ->). by vm_compute.
Defined.

Lemma dev_contract_needs_session_witness : dev_serve "GET" ["api"; "v1"; "me"] (Some "dev-session") = DevContract /\ Some "dev-session" = Some devSession.
Proof. split; [by vm_compute|]. by apply (dev_contract_needs_session "GET" ["api"; "v1"; "me"] (Some "dev-session")). Defined.

Lemma dev_limits_are_not_the_plans_witness : exists e, GetEntitlements (seed 0) = D200 e /\ et_MonitorsCap e = 2 * ml_MonitorsCap (MonitorLimits_for 0 devOrgPlan).
Proof. eexists. split; [reflexivity|]. apply (dev_limits_are_not_the_plans (seed 0)). reflexivity. Defined.
