(* ===== verification/Tools.v ===== *)
(** * Tools: the schema of a database, log fan-out, trace headers and the price catalog
    (src/internal/store/schema.go, src/cmd/schema, src/cmd/migrate, src/internal/obs/log.go,
    src/internal/bus/trace.go, src/cmd/paddle-catalog)

    Executing SQL, goose, the W3C propagator, the log handlers and Paddle's API are parameters. *)

From S2P Require Import Prelude GoStrings Render Bus BusInv.
Open Scope Z_scope.

(** ** Migrations (schema.go) *)

Definition newline : ascii := ascii_of_N 10.
Definition goose_up (line : string) : bool := HasPrefix (TrimSpace line) "-- +goose Up".
Definition goose_down (line : string) : bool := HasPrefix (TrimSpace line) "-- +goose Down".
Definition goose_directive (line : string) : bool := HasPrefix (TrimSpace line) "-- +goose".

Fixpoint up_lines (inUp : bool) (lines : list string) : list string :=
  match lines with
  | [] => []
  | l :: ls =>
      if goose_up l then up_lines true ls
      else if goose_down l then []
      else if negb inUp || goose_directive l then up_lines inUp ls
      else l :: up_lines inUp ls
  end.
Definition with_newlines (lines : list string) : string := foldr (fun l acc => l +:+ String newline acc) "" lines.
Definition gooseUpSection (content : string) : string := with_newlines (up_lines false (Split newline content)).

(** [strings.HasSuffix]. *)
Definition HasSuffix (s suffix : string) : bool :=
  let n := String.length suffix in
  (n <=? String.length s)%nat && String.eqb (String.substring (String.length s - n) n s) suffix.

(** The embedded directory: names with whether they are directories, and the files. *)
Definition sql_names (entries : list (string * bool)) : list string :=
  sort_by String.leb (fst <$> filter (fun e => negb e.2 && HasSuffix e.1 ".sql" = true) entries).
Fixpoint read_ups (ReadFile : string -> option string) (names : list string) : option (list string) :=
  match names with
  | [] => Some []
  | n :: ns => b ← ReadFile ("migrations/" +:+ n); rest ← read_ups ReadFile ns; Some (gooseUpSection b :: rest)
  end.
Definition migrationUps (ReadDir : option (list (string * bool))) (ReadFile : string -> option string) : option (list string) :=
  entries ← ReadDir; read_ups ReadFile (sql_names entries).

Section schema.
Context {D : Type} (exec : string -> D -> bool * D) (ReadDir : option (list (string * bool))) (ReadFile : string -> option string) (schemaSQL : string).

(** Stops at the first error; whether all went through. *)
Fixpoint exec_all (stmts : list string) (d : D) : bool * D :=
  match stmts with
  | [] => (true, d)
  | s :: ss => match exec s d with (true, d') => exec_all ss d' | (false, d') => (false, d') end
  end.
Definition ApplySchema (acquired : bool) (d : D) : bool * D :=
  if negb acquired then (false, d)
  else
    match exec schemaSQL d with
    | (false, d') => (false, d')
    | (true, d') =>
        match migrationUps ReadDir ReadFile with
        | None => (false, d')
        | Some ups => exec_all (filter (fun up => String.eqb (TrimSpace up) "" = false) ups) d'
        end
    end.

(** The two commands: their exit code.  [Open] is the connection, [initialized] the probe for the
    organizations table, [goose] the runner of pending migrations. *)
Definition schema_main (Getenv : string -> string) (Open : bool) (initialized : D -> option bool) (acquired : bool) (d : D) : Z * D :=
  if String.eqb (Getenv "PULSE_POSTGRES_DSN") "" then (1, d)
  else if negb Open then (1, d)
  else
    match initialized d with
    | None => (1, d)
    | Some there =>
        if there && negb (String.eqb (Getenv "PULSE_FORCE_RESET") "true") then (1, d)
        else match ApplySchema acquired d with (true, d') => (0, d') | (false, d') => (1, d') end
    end.

Definition MigrateUp (sqlOpen setDialect : bool) (goose : D -> bool * D) (d : D) : bool * D :=
  if negb sqlOpen then (false, d) else if negb setDialect then (false, d) else goose d.
Definition migrate_main (Getenv : string -> string) (sqlOpen setDialect : bool) (goose : D -> bool * D) (d : D) : Z * D :=
  if String.eqb (Getenv "PULSE_POSTGRES_DSN") "" then (1, d)
  else match MigrateUp sqlOpen setDialect goose d with (true, d') => (0, d') | (false, d') => (1, d') end.
End schema.

(** ** Logs (obs/log.go) *)

Definition LevelDebug : Z := -4.
Definition LevelInfo : Z := 0.
Definition LevelWarn : Z := 4.
Definition LevelError : Z := 8.

Definition parseLevel (ToLower : string -> string) (s : string) : Z :=
  let t := ToLower (TrimSpace s) in
  if String.eqb t "debug" then LevelDebug
  else if String.eqb t "warn" || String.eqb t "warning" then LevelWarn
  else if String.eqb t "error" then LevelError
  else LevelInfo.

(** A handler: whether it takes a level, and what a record does to its sink, with the error. *)
Record LogHandler (R W : Type) := mkHandler { lh_Enabled : Z -> bool; lh_Handle : R -> W -> option string * W }.
Arguments lh_Enabled {_ _}. Arguments lh_Handle {_ _}.

Definition multi_Enabled {R W} (hs : list (LogHandler R W)) (level : Z) : bool := existsb (fun h => lh_Enabled h level) hs.
Fixpoint multi_Handle {R W} (hs : list (LogHandler R W)) (level : Z) (r : R) (firstErr : option string) (w : W) : option string * W :=
  match hs with
  | [] => (firstErr, w)
  | h :: hs' =>
      if negb (lh_Enabled h level) then multi_Handle hs' level r firstErr w
      else
        let '(e, w') := lh_Handle h r w in
        multi_Handle hs' level r (match firstErr with Some _ => firstErr | None => e end) w'
  end.

(** ** The correlation id across the bus (bus/trace.go, obs) *)

(** What a context carries of it: the trace id of its span if it has one, and the correlation id. *)
Record Ctx := mkCtx { cx_trace : string; cx_correlation : string }.
Definition correlationHeader : string := "pulse-correlation-id".
Definition WithCorrelationID (c : Ctx) (id : string) : Ctx := mkCtx (cx_trace c) id.

Section propagator.
(** The propagator writes and reads the trace id. *)
Context (Inject : string -> gmap string string) (Extract : gmap string string -> option string).
Definition injectTrace (c : Ctx) : gmap string string :=
  let carrier := Inject (cx_trace c) in
  if String.eqb (cx_correlation c) "" then carrier else <[correlationHeader := cx_correlation c]> carrier.
Definition restoreTrace (c : Ctx) (headers : gmap string string) : Ctx :=
  let c := mkCtx (default (cx_trace c) (Extract headers)) (cx_correlation c) in
  if negb (String.eqb (cx_trace c) "") then WithCorrelationID c (cx_trace c)
  else
    let id := default "" (headers !! correlationHeader) in
    if negb (String.eqb id "") then WithCorrelationID c id else c.
End propagator.

(** ** The price catalog (cmd/paddle-catalog) *)

Definition catalog_key (Getenv : string -> string) : option string :=
  let key := Getenv "PADDLE_API_KEY" in
  let key := if String.eqb key "" then Getenv "PULSE_PADDLE_API_KEY" else key in
  if String.eqb key "" then None else Some key.
Definition catalog_base (Getenv : string -> string) (key : string) : string :=
  let base := Getenv "PADDLE_API_BASE" in
  SetAppBaseURL (if String.eqb base "" then if Contains key "sdbx" then "https://sandbox-api.paddle.com" else "https://api.paddle.com" else base).

Record PricePage := mkPricePage { pg_Data : list string; pg_Next : string; pg_HasMore : bool }.
(** An answer: unreachable, a status with its body, or a body that does not decode. *)
Inductive fetchError := Unreachable | PaddleStatus (status : Z) (body : string) | BadPage | OutOfFuel.

Definition truncate (s : string) (n : nat) : string := if (n <? String.length s)%nat then String.substring 0 n s else s.
Section fetch.
Context (get : string -> option (Z * string)) (decode : string -> option PricePage).
Fixpoint fetch_pages (fuel : nat) (url : string) (out : list string) : result fetchError (list string) :=
  if String.eqb url "" then Ok out
  else
    match fuel with
    | O => Err OutOfFuel
    | S fuel' =>
        match get url with
        | None => Err Unreachable
        | Some (status, body) =>
            if negb (status =? 200) then Err (PaddleStatus status (truncate body 500))
            else match decode body with
                 | None => Err BadPage
                 | Some pg => fetch_pages fuel' (if pg_HasMore pg then pg_Next pg else "") (out ++ pg_Data pg)
                 end
        end
    end.
Definition fetchPrices (fuel : nat) (base : string) : result fetchError (list string) :=
  fetch_pages fuel (base +:+ "/prices?include=product&per_page=200&status=active") [].
End fetch.

(** [%.2f] of the cents over 100, exact below 2^53. *)
Definition money (amount currency : string) : string :=
  match Atoi amount with
  | None => amount +:+ " " +:+ currency
  | Some n => (if n <? 0 then "-" else "") +:+ pretty (Z.abs n / 100) +:+ "." +:+ pad 2 (Z.abs n mod 100) +:+ " " +:+ currency
  end.
Record interval := mkInterval { iv_Interval : string; iv_Frequency : Z }.
Definition cycle (c : option interval) : string := match c with None => "one-time" | Some i => "every " +:+ pretty (iv_Frequency i) +:+ " " +:+ iv_Interval i end.
Definition trial (t : option interval) : string := match t with None => "none" | Some i => pretty (iv_Frequency i) +:+ " " +:+ iv_Interval i end.

(** ** What they guarantee *)

(** *** Migrations *)

Lemma HasPrefix_shorter s a b : HasPrefix s (a +:+ b) = true -> HasPrefix s a = true.
Proof.
  unfold HasPrefix. revert s. induction a as [|x a IH]; intros s; [by destruct s|]. change (String x a +:+ b) with (String x (a +:+ b)).
  destruct s as [|y s]; [done|]. cbn [String.prefix]. destruct (ascii_dec x y); [apply IH|done].
Qed.

Lemma up_lines_out lines : Forall (fun l => goose_up l = false /\ goose_down l = false) lines -> forall rest, up_lines false (lines ++ rest) = up_lines false rest.
Proof. induction 1 as [|l ls [Hu Hd] _ IH]; intros rest; [done|]. cbn [app up_lines]. by rewrite Hu, Hd, IH. Qed.

Lemma up_lines_in lines : Forall (fun l => goose_down l = false) lines -> forall rest,
  up_lines true (lines ++ rest) = filter (fun l => goose_directive l = false) lines ++ up_lines true rest.
Proof.
  induction 1 as [|l ls Hd _ IH]; intros rest; [done|]. cbn [app up_lines negb orb]. rewrite Hd, filter_cons, IH.
  destruct (goose_up l) eqn:Hu; [|by destruct (goose_directive l)].
  rewrite decide_False; [done|]. unfold goose_directive, goose_up in *. by rewrite (HasPrefix_shorter _ "-- +goose" " Up").
Qed.

(** What a migration runs on a new database: the lines after its Up directive, to its Down directive
    or to the end, without the lines that are directives; nothing of what comes before or after. *)
Theorem goose_section_is_the_up_part content pre up body rest :
  Split newline content = pre ++ up :: body ++ rest -> Forall (fun l => goose_up l = false /\ goose_down l = false) pre -> goose_up up = true ->
  Forall (fun l => goose_down l = false) body -> (rest = [] \/ exists d post, rest = d :: post /\ goose_down d = true /\ goose_up d = false) ->
  gooseUpSection content = with_newlines (filter (fun l => goose_directive l = false) body).
Proof.
  intros Hs Hpre Hup Hbody Hrest. unfold gooseUpSection. rewrite Hs, up_lines_out by done. cbn [up_lines]. rewrite Hup, up_lines_in by done.
  destruct Hrest as [->|(d & post & -> & Hd & Hu)]; [by rewrite app_nil_r|]. cbn [up_lines]. by rewrite Hu, Hd, app_nil_r.
Qed.

(** The order of the names is the order of the versions while the versions have equally many digits. *)
Lemma digits_bounds s : forall acc v, digits acc s = Some v -> acc * 10 ^ Z.of_nat (String.length s) <= v < (acc + 1) * 10 ^ Z.of_nat (String.length s).
Proof.
  induction s as [|a s IH]; intros acc v; cbn [digits String.length]; [intros [= <-]; simpl; lia|].
  destruct (digit_value a) as [d|] eqn:Hd; [|done]. intros [H1 H2]%IH. unfold digit_value in Hd. destruct (byte_in 48 57 a) eqn:Hb; [|done]. injection Hd as Hd.
  unfold byte_in in Hb. rewrite Nat2Z.inj_succ, Z.pow_succ_r by lia. nia.
Qed.

Lemma name_order_is_version_order d1 : forall d2 r1 r2 acc1 acc2 v1 v2, String.length d1 = String.length d2 -> acc1 = acc2 ->
  digits acc1 d1 = Some v1 -> digits acc2 d2 = Some v2 -> String.leb (d1 +:+ r1) (d2 +:+ r2) = true -> v1 <= v2.
Proof.
  induction d1 as [|a d1 IH]; intros [|b d2] r1 r2 acc1 acc2 v1 v2 Hlen -> H1 H2 Hle; try done; [by injection H1 as <-; injection H2 as <-|].
  injection Hlen as Hlen. cbn [digits] in H1, H2. destruct (digit_value a) as [x|] eqn:Hx; [|done]. destruct (digit_value b) as [y|] eqn:Hy; [|done].
  change (String a d1 +:+ r1) with (String a (d1 +:+ r1)) in Hle. change (String b d2 +:+ r2) with (String b (d2 +:+ r2)) in Hle.
  unfold String.leb in Hle. cbn [String.compare] in Hle. unfold Ascii.compare in Hle. unfold digit_value in Hx, Hy.
  destruct (byte_in 48 57 a); [injection Hx as Hx|done]. destruct (byte_in 48 57 b); [injection Hy as Hy|done].
  destruct (N.compare_spec (N_of_ascii a) (N_of_ascii b)) as [Heq|Hlt|Hgt]; [| |done].
  - eapply (IH d2 r1 r2); [done| |exact H1|exact H2|exact Hle]. rewrite <- Hx, <- Hy, Heq. done.
  - apply digits_bounds in H1, H2. rewrite Hlen in H1. assert (acc2 * 10 + x + 1 <= acc2 * 10 + y) by lia.
    pose proof (Z.pow_pos_nonneg 10 (Z.of_nat (String.length d2))). nia.
Qed.

Lemma leb_refl s : String.leb s s = true.
Proof. unfold String.leb. assert (String.compare s s = Eq) as ->; [|done]. induction s as [|a s IH]; [done|]. cbn. unfold Ascii.compare. by rewrite N.compare_refl. Qed.
Lemma leb_trans a b c : String.leb a b = true -> String.leb b c = true -> String.leb a c = true.
Proof.
  unfold String.leb. revert b c. induction a as [|x a IH]; intros [|y b] [|z c]; cbn; try done. unfold Ascii.compare.
  destruct (N.compare_spec (N_of_ascii x) (N_of_ascii y)), (N.compare_spec (N_of_ascii y) (N_of_ascii z)), (N.compare_spec (N_of_ascii x) (N_of_ascii z));
    try done; try lia; apply IH.
Qed.
Lemma leb_total a b : String.leb a b = true \/ String.leb b a = true.
Proof. unfold String.leb. rewrite (String.compare_antisym b a). destruct (String.compare a b); auto. Qed.

(** The migrations of a new database run in the order of their versions, each once, if every name is a
    version of [w] digits followed by the rest of the name. *)
Theorem migrations_run_in_version_order entries w version :
  (forall e, e ∈ entries -> exists d r, e.1 = d +:+ r /\ String.length d = w /\ digits 0 d = Some (version e.1)) ->
  StronglySorted (fun n n' => version n <= version n') (sql_names entries) /\
  sql_names entries ≡ₚ fst <$> filter (fun e => negb e.2 && HasSuffix e.1 ".sql" = true) entries.
Proof.
  intros Hv. split; [|apply sort_by_perm].
  assert (Forall (fun n => exists d r, n = d +:+ r /\ String.length d = w /\ digits 0 d = Some (version n)) (sql_names entries)) as Hall.
  { apply Forall_forall. intros n Hn. unfold sql_names in Hn. rewrite sort_by_perm in Hn. apply list_elem_of_fmap in Hn as (e & -> & [_ He]%list_elem_of_filter). by apply Hv. }
  assert (in_order String.leb (sql_names entries)) as Hs by (apply sort_by_sorted; [exact leb_trans|exact leb_total]).
  induction Hs as [|n l Hl IH Hn]; [constructor|]. apply Forall_cons in Hall as [(d & r & Hd & Hlen & Hver) Hall]. constructor; [by apply IH|].
  rewrite Forall_forall in *. intros n' Hn'. destruct (Hall _ Hn') as (d' & r' & Hd' & Hlen' & Hver').
  eapply (name_order_is_version_order d d' r r' 0 0); [congruence|done|done|done|]. rewrite <- Hd, <- Hd'. by apply Hn.
Qed.

(** The baseline drops the tables it creates; on a database that has them the command changes nothing
    and fails, unless the operator asked for the reset. *)
Theorem schema_never_wipes_by_accident {D} (exec : string -> D -> bool * D) ReadDir ReadFile schemaSQL Getenv Open initialized acquired d :
  initialized d = Some true -> Getenv "PULSE_FORCE_RESET" <> "true" ->
  schema_main exec ReadDir ReadFile schemaSQL Getenv Open initialized acquired d = (1, d).
Proof.
  intros Hi Hf. unfold schema_main. rewrite Hi. apply String.eqb_neq in Hf as ->. by repeat case_match.
Qed.

(** On an empty database it succeeds exactly if the baseline and then each migration, in order and but
    for those with an empty Up part, was executed; at the first failure it stops. *)
Theorem schema_runs_everything {D} (exec : string -> D -> bool * D) ReadDir ReadFile schemaSQL Getenv initialized ups d :
  Getenv "PULSE_POSTGRES_DSN" <> "" -> initialized d = Some false -> migrationUps ReadDir ReadFile = Some ups ->
  schema_main exec ReadDir ReadFile schemaSQL Getenv true initialized true d =
    let '(ok, d') := exec_all exec (schemaSQL :: filter (fun up => String.eqb (TrimSpace up) "" = false) ups) d in (if ok then 0 else 1, d').
Proof.
  intros Hg%String.eqb_neq Hi Hm. unfold schema_main, ApplySchema. rewrite Hg, Hi. cbn. rewrite Hm. destruct (exec schemaSQL d) as [[] d']; [|done].
  by destruct (exec_all _ _ _) as [[] ?].
Qed.

(** *** Logs and traces *)

(** A record reaches every handler that takes its level, in order, whatever the ones before answered;
    the error is reported if and only if one of them failed on the sink it found. *)
Theorem log_reaches_every_handler {R W} (hs : list (LogHandler R W)) level (r : R) (w : W) :
  let taken := filter (fun h => lh_Enabled h level = true) hs in
  (multi_Handle hs level r None w).2 = foldl (fun w h => (lh_Handle h r w).2) w taken /\
  ((multi_Handle hs level r None w).1 = None <-> forall pre h post, taken = pre ++ h :: post -> (lh_Handle h r (foldl (fun w h => (lh_Handle h r w).2) w pre)).1 = None) /\
  (multi_Enabled hs level = false -> (multi_Handle hs level r None w) = (None, w)).
Proof.
  cbv zeta.
  assert (forall (hs : list (LogHandler R W)) e w, multi_Handle hs level r e w = multi_Handle (filter (fun h => lh_Enabled h level = true) hs) level r e w) as Hf.
  { clear. induction hs as [|h hs IH]; intros e w; [done|]. cbn [multi_Handle]. rewrite filter_cons. destruct (lh_Enabled h level) eqn:He; cbn [negb].
    - rewrite decide_True by done. cbn [multi_Handle]. rewrite He. cbn [negb]. by destruct (lh_Handle h r w) as [e' w'].
    - by rewrite decide_False. }
  rewrite Hf. assert (multi_Enabled hs level = false -> filter (fun h => lh_Enabled h level = true) hs = []) as Hnone.
  { clear. induction hs as [|h hs IH]; [done|]. cbn [multi_Enabled existsb]. intros [Hh Hs]%orb_false_iff. rewrite filter_cons, decide_False by congruence. by apply IH. }
  assert (Forall (fun h => lh_Enabled h level = true) (filter (fun h => lh_Enabled h level = true) hs)) as Hall.
  { apply Forall_forall. by intros h [? _]%list_elem_of_filter. }
  split_and!; [..|by intros ->%Hnone]; clear Hf Hnone; revert Hall w; generalize (filter (fun h => lh_Enabled h level = true) hs) as l; clear hs.
  - intros l Hall. generalize (None : option string) as e. induction Hall as [|h l Hh _ IH]; intros e w; [done|]. cbn [multi_Handle foldl]. rewrite Hh. cbn [negb].
    destruct (lh_Handle h r w) as [e' w']. apply IH.
  - intros l Hall w. assert (forall (l : list (LogHandler R W)) e w, Forall (fun h => lh_Enabled h level = true) l -> (multi_Handle l level r (Some e) w).1 = Some e) as Hkeep.
    { clear. intros l e w Hall. revert w. induction Hall as [|h l Hh _ IH]; intros w; [done|]. cbn [multi_Handle]. rewrite Hh. cbn [negb]. destruct (lh_Handle h r w). apply IH. }
    revert w. induction Hall as [|h l Hh Hl IH]; intros w; [by split; [intros _ [|] ? ?|]|]. cbn [multi_Handle]. rewrite Hh. cbn [negb].
    destruct (lh_Handle h r w) as [e' w'] eqn:He. split.
    + intros Hn pre h' post Heq. destruct e' as [e'|]; [by rewrite Hkeep in Hn|]. destruct pre as [|p pre]; [injection Heq as <- <-; cbn; by rewrite He|].
      injection Heq as <- Heq. cbn [foldl]. rewrite He. cbn [snd]. by eapply IH.
    + intros Hp. pose proof (Hp [] h l eq_refl) as H0. cbn in H0. rewrite He in H0. cbn in H0. subst e'. apply IH. intros pre h' post Heq.
      specialize (Hp (h :: pre) h' post). cbn [foldl] in Hp. rewrite He in Hp. apply Hp. by rewrite Heq.
Qed.

(** The W3C propagator, as far as the bus relies on it: it reads back the trace it wrote, also beside
    the header of the correlation id, writes none without one, and uses none of the stream's fields. *)
Record PropagatorLaws (Inject : string -> gmap string string) (Extract : gmap string string -> option string) : Prop := {
  inject_read t m : t <> "" -> (forall k v, Inject t !! k = Some v -> m !! k = Some v) -> Extract m = Some t;
  inject_none m : (forall k, k <> correlationHeader -> m !! k = None) -> Extract m = None;
  inject_empty : Inject "" = ∅;
  inject_fields t : Inject t !! "key" = None /\ Inject t !! "value" = None /\ Inject t !! correlationHeader = None;
}.

(** The correlation id of a request reaches the handlers behind the bus: over a Redis stream the context
    of a consumed record has the trace of the one that produced it and, as its correlation id, the
    trace's id, or without a trace the producer's correlation id. *)
Theorem correlation_crosses_the_bus Inject Extract c key value id : PropagatorLaws Inject Extract ->
  let c' := restoreTrace Extract (mkCtx "" "") (redisHeaders (mkXMessage id (produce_values (injectTrace Inject c) key value))) in
  cx_trace c' = cx_trace c /\ cx_correlation c' = if String.eqb (cx_trace c) "" then cx_correlation c else cx_trace c.
Proof.
  intros L. cbv zeta. destruct (inject_fields _ _ L (cx_trace c)) as (Hk & Hv & Hc).
  assert (injectTrace Inject c !! "key" = None /\ injectTrace Inject c !! "value" = None) as [Hk' Hv'].
  { unfold injectTrace. destruct (String.eqb _ _); [done|]. by rewrite !lookup_insert_ne. }
  destruct (produced_is_consumed (injectTrace Inject c) "" key value id Hk' Hv') as [_ ->]. unfold restoreTrace, injectTrace.
  destruct (String.eqb_spec (cx_trace c) "") as [Ht|Ht].
  - rewrite Ht, (inject_empty _ _ L) in *. destruct (String.eqb_spec (cx_correlation c) "") as [Hi|Hi].
    + rewrite (inject_none _ _ L) by (intros; apply lookup_empty). cbn. by rewrite Hi.
    + rewrite (inject_none _ _ L) by (intros k Hne; by rewrite lookup_insert_ne, lookup_empty). cbn. rewrite lookup_insert_eq. cbn.
      apply String.eqb_neq in Hi as ->. done.
  - assert (forall m, (forall k v, Inject (cx_trace c) !! k = Some v -> m !! k = Some v) -> Extract m = Some (cx_trace c)) as Hr by (intros m; by apply (inject_read _ _ L)).
    apply String.eqb_neq in Ht as Hb. destruct (String.eqb (cx_correlation c) ""); (rewrite Hr; [cbn; by rewrite Hb|]); intros k v Hkv; [done|].
    rewrite lookup_insert_ne; [done|]. intros <-. congruence.
Qed.

(** *** Prices *)

Section fetch_spec.
Context (get : string -> option (Z * string)) (decode : string -> option PricePage).
(** The server has these pages from an address on. *)
Inductive serves : string -> list (list string) -> Prop :=
  | serves_end : serves "" []
  | serves_page url body pg ps : url <> "" -> get url = Some (200, body) -> decode body = Some pg ->
      serves (if pg_HasMore pg then pg_Next pg else "") ps -> serves url (pg_Data pg :: ps).

(** The catalog is every page of the server in order, and only that: with as many requests as there are
    pages it is complete, and what was returned is complete. *)
Theorem catalog_is_every_page fuel url out l :
  (forall ps, serves url ps -> (length ps <= fuel)%nat -> fetch_pages get decode fuel url out = Ok (out ++ mjoin ps)) /\
  (fetch_pages get decode fuel url out = Ok l -> exists ps, serves url ps /\ l = out ++ mjoin ps).
Proof.
  split.
  - intros ps Hs. revert fuel out. induction Hs as [|url body pg ps Hu Hg Hd Hs IH]; intros fuel out Hf.
    + destruct fuel; cbn; by rewrite app_nil_r.
    + destruct fuel as [|fuel]; [simpl in Hf; lia|]. cbn [fetch_pages]. apply String.eqb_neq in Hu as ->. rewrite Hg. cbn. rewrite Hd, IH by (simpl in Hf; lia).
      by rewrite <- app_assoc.
  - revert url out. induction fuel as [|fuel IH]; intros url out; cbn [fetch_pages]; destruct (String.eqb_spec url "") as [->|Hu]; try done.
    + intros [= <-]. exists []. split; [constructor|by rewrite app_nil_r].
    + intros [= <-]. exists []. split; [constructor|by rewrite app_nil_r].
    + destruct (get url) as [[status body]|] eqn:Hg; [|done]. destruct (Z.eqb_spec status 200) as [->|]; [|done]. cbn [negb].
      destruct (decode body) as [pg|] eqn:Hd; [|done]. intros (ps & Hs & ->)%IH. exists (pg_Data pg :: ps).
      split; [by econstructor|]. by rewrite <- app_assoc.
Qed.
End fetch_spec.

Example money_cents : money "1905" "USD" = "19.05 USD" /\ money "-7" "EUR" = "-0.07 EUR" /\ money "free" "EUR" = "free EUR".
Proof. split_and!; vm_compute; reflexivity. Qed.

(** *** Witnesses *)

Definition tx_inject (t : string) : gmap string string := if String.eqb t "" then ∅ else {[ "traceparent" := t ]}.
Definition tx_extract (m : gmap string string) : option string := t ← m !! "traceparent"; if String.eqb t "" then None else Some t.
Lemma tx_laws : PropagatorLaws tx_inject tx_extract.
Proof.
  split.
  - intros t m Ht Hm. apply String.eqb_neq in Ht as Hb. unfold tx_extract. rewrite (Hm "traceparent" t); [cbn; by rewrite Hb|]. unfold tx_inject. by rewrite Hb, lookup_singleton_eq.
  - intros m Hm. unfold tx_extract. by rewrite Hm.
  - done.
  - intros t. unfold tx_inject. by destruct (String.eqb t "").
Qed.

Lemma correlation_crosses_the_bus_witness :
  cx_correlation (restoreTrace tx_extract (mkCtx "" "") (redisHeaders (mkXMessage "0" (produce_values (injectTrace tx_inject (mkCtx "" "req-1")) "1" "{}")))) = "req-1".
Proof. exact (proj2 (correlation_crosses_the_bus tx_inject tx_extract (mkCtx "" "req-1") "1" "{}" "0" tx_laws)). Defined.

Definition tx_names : list (string * bool) :=
  [("00010_subscription_ended_at.sql", false); ("00002_ssl_monitor_expiry.sql", false); ("00001_fix_monitor_regions_default.sql", false)].
Definition tx_version (n : string) : Z := default 0 (digits 0 (String.substring 0 5 n)).
Lemma migrations_run_in_version_order_witness : StronglySorted (fun n n' => tx_version n <= tx_version n') (sql_names tx_names) /\ length (sql_names tx_names) = 3%nat.
Proof.
  split; [|reflexivity]. apply (migrations_run_in_version_order tx_names 5 tx_version).
  intros e He. exists (String.substring 0 5 e.1), (String.substring 5 (String.length e.1 - 5) e.1).
  repeat (apply elem_of_cons in He as [->|He]; [split_and!; reflexivity|]). by apply elem_of_nil in He.
Defined.

Lemma schema_never_wipes_by_accident_witness : schema_main (fun _ n => (true, n + 1)) None (fun _ => None) "" (fun _ => "x") true (fun _ => Some true) true 7 = (1, 7).
Proof. by apply schema_never_wipes_by_accident. Defined.
